(* ===== verification/_CoqProject ===== *)
-Q . S2P
Prelude.v
Float64.v
FloatQuotient.v
ApprovalExpr.v
RetryPolicy.v
CaseConfig.v
VersionDiff.v
SqlTx.v
Schema.v
Operations.v
Outbox.v
TenantScope.v
EventQueue.v
ApprovalPolicy.v
ApprovalService.v
ApprovalSweep.v
CaseLifecycle.v
SlaCalendar.v
Orchestrator.v
SlaDefinition.v
JsonPath.v
TaskInputs.v
TaskCreation.v
ApproverSelection.v
TaskStatus.v
FailureHandling.v
Assignment.v
Teams.v
TaskOwnership.v
Directory.v
ConfigValidation.v
ConfigWellFormed.v
Versioning.v
VersionHistory.v
CircuitBreaker.v
ScimFilter.v
ScimCondition.v
ScimLists.v
Tenants.v
TenantLimits.v
Workers.v
GetNext.v
