(* ===== verification/Prelude.v ===== *)
(** * Loan-origination workflow engine: verification library (root file)

    The engine (workflow-engine-go) moves cases of a loan origination process
    through stages of tasks, over PostgreSQL.  A case opens tasks; a task can wait
    for an approval gate; suspending, withdrawing and closing a case are operations
    of its life cycle; SLA clocks run on business calendars; every change publishes
    an event to an outbox in the same transaction, from which webhooks are fed; a
    task that fails is classified and retried.  All Go paths below are under
    workflow-engine-go/.

    ** How the program is modelled

    A Go function [(T, error)] is a function into [result T].  A handler that talks
    to the database is a program [Tx database A] (SqlTx.v): SQL statements, each a
    function on the state of the tables, with the Go code between them; an error
    ends the program as [return err] does, and [tx_attempt] is where the code looks
    at the error itself.  [within_tx] is [Repository.WithTransaction]: it runs a
    program under a [driver] that says which round trips fail and whether a second
    statement is refused while a row set is open (as pgx does with "conn busy"); an
    error or an aborted transaction leaves the tables as they were.  [on_pool] runs a
    program that is given the pool in place of a transaction: each of its statements
    commits by itself.  Theorems about
    handlers hold for every driver, that is whatever fails on the way, unless they
    name one.  Schema.v has a record per table with the columns the modelled code
    uses and the CHECK and unique constraints its writes meet; [Env] is what an
    operation finds around it: the clock of the process and of the database, the
    request context, generated identifiers, and the list of case statuses the
    schema admits (migrations 000022, 000025 and 000035 differ in it).

    ** The files

    - Prelude: errors and results, Go strings, 64-bit integers, durations, record
      updates.  Float64: binary64 and [strconv.ParseFloat].  FloatQuotient: the float64 quotient
      of two whole numbers is the float64 nearest to the fraction, and what comparing it
      with a constant decides.
    - ApprovalExpr (internal/approval/expression.go): the condition language.  Its
      tokenizer and its parser, which evaluates while it parses, are compared with a
      semantics on syntax trees; both terminate on every text.
    - RetryPolicy (internal/exception/classifier.go and the retry decision of
      service.go): error classes, the effective policy, the backoff in wrapping
      64-bit arithmetic, the decision, and that failures run out of retries.
    - CaseConfig (pkg/model): the configuration document of a case type.  VersionDiff
      (internal/versioning/diff.go): the difference of two versions, which does not depend
      on the order of maps and rebuilds the newer one from the older.
    - SqlTx (internal/repository/repository.go): transactions, and the calculus the
      other files reason with: [commits] is what a committed run has done, [tx_all]
      follows a relation through the statements of a program, [Balanced] says that
      a program closes the row sets it opens.
    - Schema: the tables (pkg/model, db/migrations), [Env], the [BusinessClock]
      interface.  Operations: arguments, lookups, one transaction - the shape of most
      operations - and what such an operation can have done.
    - Outbox (internal/multitenancy/context.go, service.go, events.go,
      internal/repository/event_repo.go, internal/approval/events.go,
      internal/integration/webhook.go): publishing an event; an event carries one
      tenant and reaches the webhooks of that tenant alone.
    - TenantScope (internal/multitenancy/context.go): the rewriting of a statement's
      text that confines it to a tenant, and what the server's parser says of it.
      EventQueue (internal/repository/event_repo.go, internal/engine/worker_loop.go):
      polling, acknowledging, rejecting and retrying the events of the outbox, and what
      becomes of a claimed event; an event's identifier is its position in the table.
    - ApprovalPolicy (internal/approval/evaluator.go, transition_guard.go): the
      verdict of each policy on the counts of a gate's requests, tiers, the guard of
      a request's transitions.
    - ApprovalService (service.go, evaluator.go of internal/approval): evaluation of
      a gate and its chain, decisions on requests, rework and terminal rejection.
    - ApprovalSweep (service.go, sweep_job.go of internal/approval): creating gates,
      delegating requests, the sweep over expired requests.
    - CaseLifecycle (internal/engine/lifecycle.go, internal/repository/case_repo.go):
      suspending, resuming, releasing, withdrawing, force-closing and cloning a case,
      with the pause and resume records of its SLA clocks.  It asks a [BusinessClock]
      for business time.
    - SlaCalendar (internal/sla/calendar.go): business calendars, which implement the
      [BusinessClock]; what the loops compute is specified as a sum over days, and
      the two operations are inverse to each other; with the life cycle: what a
      suspension leaves of the time of a case.

    - Orchestrator (internal/engine/orchestrator.go, with stage_transition.go and
      case_repo.go of internal/repository): when the activities of a stage are done,
      the case enters the next stage or is completed.
    - SlaDefinition (internal/sla/definition.go): the SLA that applies to a task, and
      its deadline.  JsonPath (internal/document): dotted paths and [jsonb_set].
    - TaskInputs (internal/document/propagation.go, aggregation.go): inputs of tasks
      from the outputs of others; aggregation of outputs into the case.
    - TaskCreation (internal/engine/orchestrator.go, approval_integration.go,
      internal/repository/task_repo.go): the tasks of a stage that is entered.
    - ApproverSelection (internal/approval/selection.go): who may decide on a gate:
      named users, roles, teams, the reporting line, delegation during absences,
      authority limits, conflicts of interest.  TaskStatus
      (internal/repository/task_repo.go): the status of a task, asking for approval
      when it starts and for the verdict when it ends.  It runs on the pool.
    - FailureHandling (internal/exception/service.go, dashboard.go, with the handlers of
      task events in internal/engine/orchestrator.go): recording a failure, the
      dead-letter queue, escalation, compensation.
    - Assignment (internal/engine/assignment, internal/engine/worker.go): the workers of a
      basket and the strategies that choose among them, handing a task to a user or a
      team, claiming it, and the events the engine reacts to.
    - Teams, TaskOwnership (internal/multitenancy/user_team_*.go): users, their roles and
      permissions, teams and their members, the tasks they own; Directory runs these
      operations in any order and states what they never break.
    - ConfigValidation, ConfigWellFormed (internal/versioning/validation.go): the checks of
      a configuration before it is activated, and what a well-formed one is.
    - Versioning (service.go, helpers.go and the stored differences of diff.go in
      internal/versioning): drafting, activating and deprecating versions of a case type,
      migrating cases to them.  VersionHistory: these operations in any order, and what they
      never break.
    - CircuitBreaker (internal/notification/circuit_breaker.go): the breaker of a
      notification channel, as a refinement of a three-phase machine.
    - ScimFilter, ScimCondition, ScimLists (internal/scim/filter.go, query.go): the filters
      of the SCIM lists, from their text to a condition of SQL in a statement that reads one
      tenant.  The condition has the meaning of the filter where the values of co, sw and ew
      hold no metacharacter of ILIKE, which the code does not escape.
    - Tenants (internal/multitenancy/service.go, types.go, job.go): onboarding, configuring
      and offboarding tenants, admitting cases and tasks within their limits, feature flags.
      TenantLimits: several processes, each with its own cache of configurations, that answer
      requests in turn, and what then holds of the registry, the limits and the flags.
    - Workers (internal/repository/worker_repo.go, internal/engine/worker_loop.go): claiming,
      keeping alive, reclaiming and retrying the tasks of services.
    - GetNext (internal/getnext/getnext.go, types.go): the case a user is handed next: the
      eligible cases, their scores under the weights of the tenant, taking one of them in
      competition with others, skipping, previewing.

    ** What the theorems show

    For the pure parts: the parser against its reference, verdicts as integer
    arithmetic (the float64 test included), the backoff against its closed form,
    business time against its definition.  For the transactions: what a committed run
    has written, on which rows and on no others, and that a failed one has written
    nothing; safety over several operations (a decided request stays decided, a
    four-eyes token works once, failing fast is final, whoever has left holds no task, a team
    hierarchy stays three deep, a case keeps its configuration until it is migrated, no case
    is claimed twice, a tenant stays within its limit per minute); termination of the loops and
    the sweep.  Some theorems state what the code does where it is not what it means
    to do: a rejection on a TERMINAL_FAIL gate and a clone of a case violate the
    status constraint of migration 000035 and can never be committed; a case with a
    task in flight can be neither suspended nor resumed on a driver with one open
    row set per connection; a second suspension gives time back; an event claimed by an engine that stops is
    lost; an escalation
    without a target strands its request; one tier of a chain satisfies the gate; a
    delegate counts twice; a task queued in a workbasket is never assigned by the engine, and
    automatic assignment ignores the limits it checks; under migration 000035 no failure that escalates its case
    reaches the dead-letter queue; a task nobody may approve stays in progress; a holiday is lost at a clock change at midnight; a second
    announcement for a finished stage skips the next one; a withdrawn case is
    completed; cases of all tenants but the default one get no task and no stage
    transition; a stage entered again after a rework has no open task; a task that
    depends on another of its stage is never created; a version of a case type drafted through the
    service can never be activated, and an active one not be deprecated.

    ** Bounds and fuel

    Loops that the code bounds keep their bounds: 20000 and 50000 iterations in the
    calendar.  The closed form of the backoff holds for intervals of up to 9223372036
    seconds, beyond which a duration overflows.  The tokenizer
    runs on fuel the length of its text and the parser on the number of tokens, with
    theorems that this is enough.  The agreement of the CONSENSUS verdict with
    exact fractions is proved for gates of up to 2^40 requests; the code has no limit.
    Measuring business time is exact for intervals of up to 50000 days, and total in
    zones whose clock changes leave the working windows alone ([RegularZone]; fixed
    offsets are an instance).

    ** What is left out

    A query without ORDER BY answers in the order of the table.  Amounts are exact
    hundredths.  Case conversion and trimming of strings are those of ASCII text.  Casts to uuid
    succeed, but for the empty text in Assignment and for padded text in Teams.  An operation reads the clock of its process once.  Rows locked by
    others (SKIP LOCKED), isolation anomalies between concurrent transactions,
    cancelled contexts and a commit whose outcome the client does not learn are not
    modelled; an operation runs on the state it finds.  HTTP handlers, polling
    loops, third-party services (mail, storage, identity providers) and queries that
    only read for display are outside the library.  Not modelled yet: the creation of
    cases, the SLA service, the dispatcher of notifications, documents, deal ingestion, the
    permissions of the identity service and the SCIM handlers. *)

From Stdlib Require Import Ascii String ZArith Lia SpecFloat.
From stdpp Require Import base list strings gmap sorting.

(** ** Results

    A Go function that returns [(T, error)] is a function into [result T]; the
    [error] values the callers distinguish have a constructor of their own, the
    ones that only carry a formatted message are [ErrMsg]. *)

Inductive error :=
  | ErrMsg (msg : string)
  | ErrInvalidExpression (msg : string)
  | ErrExpressionTypeMismatch
  | ErrSyntax (position : Z) (msg : string)
  | ErrType (msg : string)
  | ErrInvalidStateTransition (from to : string)
  | ErrFourEyesTokenRequired
  | ErrFourEyesTokenInvalid
  | ErrFourEyesSameSupervisor
  | ErrCaseNotFound
  | ErrCaseTerminal
  | ErrInvalidSCIMFilter
  | ErrNoRows
  | ErrSQL
  | ErrTxAborted
  | ErrTxCommitRollback
  | ErrConnBusy
  | ErrUnauthorizedApprovalActor
  | ErrInvalidApprovalTransition
  | ErrNoEligibleApprover
  | ErrNoEligibleWorker
  | ErrTaskNotAssignable
  | ErrTaskNotFound
  | ErrTaskAlreadyClaimed
  | ErrTaskReassignForbidden
  | ErrUserNotTeamMember
  | ErrUserNotFound
  | ErrUserSuspended
  | ErrUserDeactivated
  | ErrTeamNotFound
  | ErrTeamDisbanded
  | ErrPermissionDenied (permission : string)
  | ErrTenantNotFound
  | ErrUsernameTaken
  | ErrEmailTaken
  | ErrExternalIDConflict
  | ErrLastRoleRevocation
  | ErrRoleNotFound
  | ErrRoleTenantMismatch
  | ErrTeamHierarchyTooDeep
  | ErrTeamWouldBeEmpty
  | ErrTeamHasOpenTasks (count : Z)
  | ErrTeamTenantMismatch
  | ErrImmutable (case_type status : string)
  | ErrValidation (text : string)
  | ErrNoActiveVersion
  | ErrDiffNotFound
  | ErrCannotDeprecateSoleActive
  | ErrCaseAlreadyOnActiveVersion
  | ErrCaseTerminalForMigration
  | ErrStageCompatibility (reason : string)
  | ErrDependency (source_task source_field : string)
  | ErrTenantSuspended
  | ErrTenantOffboarded
  | ErrTenantCapacityExceeded
  | ErrNoEligibleCases
  | ErrUserAtCapacity
  | ErrCaseAlreadyClaimed
  | ErrInvalidWeights
  | ErrSkipLimitExceeded
  | ErrPanic
  | ReturnWithoutCommit
  | OutOfFuel.

Inductive result (A : Type) :=
  | Ok (a : A)
  | Err (e : error).
Arguments Ok {A} a.
Arguments Err {A} e.

#[export] Instance error_eq_dec : EqDecision error.
Proof. solve_decision. Defined.

#[export] Instance result_eq_dec {A} `{EqDecision A} : EqDecision (result A).
Proof. solve_decision. Defined.

#[export] Instance result_ret : MRet result := @Ok.
#[export] Instance result_bind : MBind result := λ A B f r,
  match r with Ok a => f a | Err e => Err e end.
#[export] Instance result_fmap : FMap result := λ A B f r,
  match r with Ok a => Ok (f a) | Err e => Err e end.

Definition is_Ok {A} (r : result A) : bool :=
  match r with Ok _ => true | Err _ => false end.

Lemma result_bind_Ok {A B} (r : result A) (f : A → result B) b :
  (r ≫= f) = Ok b ↔ ∃ a, r = Ok a ∧ f a = Ok b.
Proof. destruct r; cbn; naive_solver. Qed.

Lemma result_bind_assoc {A B C} (r : result A) (f : A → result B) (g : B → result C) :
  ((r ≫= f) ≫= g) = (r ≫= λ a, f a ≫= g).
Proof. by destruct r. Qed.

Lemma pair_fst {A B} (p : A * B) (a : A) : fst p = a → p = (a, snd p).
Proof. by destruct p; intros <-. Qed.

(** ** Go strings

    A Go string is a sequence of bytes: [String.string].  Comparison [<] on Go
    strings is the byte-wise lexicographic order [String.ltb] / [String.leb].
    [strings.TrimSpace], [strings.ToLower] and [strings.ToUpper] are modelled on
    ASCII text: bytes from 128 on are left alone. *)

Declare Scope go_scope.
Delimit Scope go_scope with go.
Open Scope string_scope.
Open Scope list_scope.

Notation "s =?s t" := (String.eqb s t) (at level 70) : go_scope.
Open Scope go_scope.

Definition byte_of (c : ascii) : N := Ascii.N_of_ascii c.

(** [unicode.IsSpace] on ASCII: tab, LF, VT, FF, CR and space. *)
Definition is_space (c : ascii) : bool :=
  let n := byte_of c in
  ((9 <=? n) && (n <=? 13) || (n =? 32))%N.

Definition is_upper (c : ascii) : bool :=
  let n := byte_of c in ((65 <=? n) && (n <=? 90))%N.
Definition is_lower (c : ascii) : bool :=
  let n := byte_of c in ((97 <=? n) && (n <=? 122))%N.
Definition is_digit (c : ascii) : bool :=
  let n := byte_of c in ((48 <=? n) && (n <=? 57))%N.

Definition lower_char (c : ascii) : ascii :=
  if is_upper c then Ascii.ascii_of_N (byte_of c + 32) else c.
Definition upper_char (c : ascii) : ascii :=
  if is_lower c then Ascii.ascii_of_N (byte_of c - 32) else c.

Fixpoint string_map (f : ascii → ascii) (s : string) : string :=
  match s with
  | EmptyString => EmptyString
  | String c r => String (f c) (string_map f r)
  end.

Definition ToLower : string → string := string_map lower_char.
Definition ToUpper : string → string := string_map upper_char.

Fixpoint trim_left (s : string) : string :=
  match s with
  | EmptyString => EmptyString
  | String c r => if is_space c then trim_left r else s
  end.

Fixpoint trim_right (s : string) : string :=
  match s with
  | EmptyString => EmptyString
  | String c r =>
      match trim_right r with
      | EmptyString => if is_space c then EmptyString else String c EmptyString
      | r' => String c r'
      end
  end.

Definition TrimSpace (s : string) : string := trim_right (trim_left s).

(** [strings.EqualFold] on ASCII text. *)
Definition EqualFold (s t : string) : bool := ToLower s =?s ToLower t.

(** [strings.Contains], [strings.HasPrefix]. *)
Fixpoint HasPrefix (s prefix : string) : bool :=
  match prefix, s with
  | EmptyString, _ => true
  | String _ _, EmptyString => false
  | String p ps, String c cs => Ascii.eqb p c && HasPrefix cs ps
  end.

Fixpoint Contains (s sub : string) : bool :=
  HasPrefix s sub ||
  match s with EmptyString => false | String _ r => Contains r sub end.

(** [strings.ReplaceAll] of one byte by another. *)
Definition ReplaceByte (old new : ascii) : string → string :=
  string_map (λ c, if Ascii.eqb c old then new else c).

(** [strings.Split s "."]: the pieces between separators, at least one. *)
Fixpoint split_on (sep : ascii) (s : string) : list string :=
  match s with
  | EmptyString => [EmptyString]
  | String c r =>
      if Ascii.eqb c sep then EmptyString :: split_on sep r
      else match split_on sep r with
           | p :: ps => String c p :: ps
           | [] => [String c EmptyString]
           end
  end.

Fixpoint string_chars (s : string) : list ascii :=
  match s with EmptyString => [] | String c r => c :: string_chars r end.
Fixpoint chars_string (l : list ascii) : string :=
  match l with [] => EmptyString | c :: r => String c (chars_string r) end.

(** [strconv.Itoa] on a non-negative number, by repeated division. *)
Definition digit_char (d : N) : ascii := Ascii.ascii_of_N (48 + d).
Fixpoint digits_go (fuel : nat) (n : N) (acc : string) : string :=
  match fuel with
  | O => acc
  | S fuel =>
      let acc := String (digit_char (n mod 10)) acc in
      if (n / 10 =? 0)%N then acc else digits_go fuel (n / 10) acc
  end.
Definition Itoa_N (n : N) : string := digits_go (S (N.to_nat (N.size n))) n "".

(** [strconv.Itoa] and [%d]. *)
Definition Itoa (z : Z) : string :=
  if (z <? 0)%Z then "-" +:+ Itoa_N (Z.to_N (- z)) else Itoa_N (Z.to_N z).

(** ** 64-bit integers

    [int], [int64] and [time.Duration] are two's complement: a result outside
    the range wraps. *)

Open Scope Z_scope.

Definition int64_min : Z := - 2 ^ 63.
Definition int64_max : Z := 2 ^ 63 - 1.
Definition in_int64 (z : Z) : Prop := int64_min ≤ z ≤ int64_max.
Definition wrap64 (z : Z) : Z := (z + 2 ^ 63) mod 2 ^ 64 - 2 ^ 63.

Lemma wrap64_range z : in_int64 (wrap64 z).
Proof.
  unfold in_int64, wrap64, int64_min, int64_max.
  pose proof (Z.mod_pos_bound (z + 2 ^ 63) (2 ^ 64) eq_refl). lia.
Qed.

Lemma wrap64_id z : in_int64 z → wrap64 z = z.
Proof.
  unfold in_int64, wrap64, int64_min, int64_max. intros.
  rewrite Z.mod_small; lia.
Qed.

(** Go's integer division truncates toward zero. *)
Definition int_div (a b : Z) : Z := Z.quot a b.

(** ** Durations, in nanoseconds *)

Definition Nanosecond : Z := 1.
Definition Millisecond : Z := 1000000.
Definition Second : Z := 1000 * Millisecond.
Definition Minute : Z := 60 * Second.
Definition Hour : Z := 60 * Minute.
Definition Day : Z := 24 * Hour.

(** ** String lemmas *)

Lemma string_eqb_refl s : (s =?s s) = true.
Proof. apply String.eqb_refl. Qed.

Lemma string_eqb_sym s t : (s =?s t) = (t =?s s).
Proof. apply String.eqb_sym. Qed.

(** stdpp keeps [String.append] folded under [cbn]: its equations. *)
Lemma string_app_nil (s : string) : "" +:+ s = s.
Proof. done. Qed.
Lemma string_app_cons c (a b : string) : String c a +:+ b = String c (a +:+ b).
Proof. done. Qed.
Lemma string_app_nil_r (s : string) : s +:+ "" = s.
Proof. induction s as [|c s IH]; [done|]. by rewrite string_app_cons, IH. Qed.
Lemma string_app_assoc (a b c : string) : (a +:+ b) +:+ c = a +:+ (b +:+ c).
Proof. induction a as [|x a IH]; [done|]. by rewrite !string_app_cons, IH. Qed.
Lemma length_string_app (a b : string) :
  String.length (a +:+ b) = (String.length a + String.length b)%nat.
Proof. induction a as [|x a IH]; [done|]. rewrite string_app_cons. cbn. by rewrite IH. Qed.

Lemma string_map_idem f s :
  (∀ c, f (f c) = f c) → string_map f (string_map f s) = string_map f s.
Proof. intros Hf. induction s as [|c s IH]; cbn; [done|]. by rewrite Hf, IH. Qed.

(** Facts about single bytes are decided by running through the 256 of them. *)
Definition all_bytes : list ascii :=
  Ascii.ascii_of_nat <$> seq 0 256.

Lemma all_bytes_complete c : c ∈ all_bytes.
Proof.
  apply list_elem_of_fmap. exists (Ascii.nat_of_ascii c). split.
  - by rewrite Ascii.ascii_nat_embedding.
  - apply elem_of_seq. pose proof (Ascii.nat_ascii_bounded c). lia.
Qed.

Lemma byte_forall (p : ascii → bool) :
  forallb p all_bytes = true → ∀ c, p c = true.
Proof.
  intros H c. rewrite forallb_forall in H. apply H.
  apply list_elem_of_In, all_bytes_complete.
Qed.

(** Prove [p c = true] for every byte [c] by evaluation. *)
Ltac by_bytes := apply byte_forall; vm_compute; reflexivity.

Lemma lower_char_idem c : lower_char (lower_char c) = lower_char c.
Proof.
  apply Ascii.eqb_eq. revert c. by_bytes.
Qed.

Lemma upper_char_idem c : upper_char (upper_char c) = upper_char c.
Proof.
  apply Ascii.eqb_eq. revert c. by_bytes.
Qed.

Lemma ToLower_idem s : ToLower (ToLower s) = ToLower s.
Proof. apply string_map_idem, lower_char_idem. Qed.

Lemma ToUpper_idem s : ToUpper (ToUpper s) = ToUpper s.
Proof. apply string_map_idem, upper_char_idem. Qed.

Lemma EqualFold_refl s : EqualFold s s = true.
Proof. apply String.eqb_refl. Qed.

Lemma EqualFold_sym s t : EqualFold s t = EqualFold t s.
Proof. apply String.eqb_sym. Qed.

Lemma trim_right_idem s : trim_right (trim_right s) = trim_right s.
Proof.
  induction s as [|c s IH]; [done|]. cbn.
  destruct (trim_right s) as [|c' s'] eqn:E.
  - destruct (is_space c) eqn:Hc; cbn; [done|]. by rewrite Hc.
  - change (trim_right (String c (String c' s'))) with
      (match trim_right (String c' s') with
       | EmptyString => if is_space c then EmptyString else String c EmptyString
       | r' => String c r' end).
    by rewrite IH.
Qed.

Lemma trim_left_trim_right s :
  trim_left s = s → trim_left (trim_right s) = trim_right s.
Proof.
  destruct s as [|c s]; [done|]. cbn.
  destruct (is_space c) eqn:Hc.
  - intros H. exfalso.
    assert (Hl : ∀ t, (String.length (trim_left t) ≤ String.length t)%nat).
    { induction t as [|d t IH]; cbn; [lia|]. destruct (is_space d); cbn; lia. }
    specialize (Hl s). rewrite H in Hl. cbn in Hl. lia.
  - intros _. destruct (trim_right s); cbn; by rewrite Hc.
Qed.

Lemma trim_left_idem s : trim_left (trim_left s) = trim_left s.
Proof.
  induction s as [|c s IH]; [done|]. cbn.
  destruct (is_space c) eqn:Hc; [done|]. cbn. by rewrite Hc.
Qed.

Lemma TrimSpace_idem s : TrimSpace (TrimSpace s) = TrimSpace s.
Proof.
  unfold TrimSpace. rewrite (trim_left_trim_right (trim_left s)).
  - apply trim_right_idem.
  - apply trim_left_idem.
Qed.

(** The decimal digits of a number determine it. *)
Fixpoint digits_value (s : string) (n : N) : N :=
  match s with
  | EmptyString => n
  | String c r => digits_value r (n * 10 + (byte_of c - 48))%N
  end.

Lemma digit_char_value d : (d < 10)%N → (byte_of (digit_char d) - 48 = d)%N.
Proof.
  intros H. unfold digit_char, byte_of. rewrite Ascii.N_ascii_embedding; lia.
Qed.

Lemma digits_go_value fuel : ∀ n acc,
  (n < 10 ^ N.of_nat fuel)%N → fuel ≠ 0%nat →
  digits_value (digits_go fuel n acc) 0 = digits_value acc n.
Proof.
  induction fuel as [|fuel IH]; intros n acc Hn Hf; [done|]. cbn [digits_go].
  assert (Hmod : (n mod 10 < 10)%N) by (apply N.mod_lt; lia).
  pose proof (N.div_mod n 10) as Hdm.
  destruct (N.eqb_spec (n / 10) 0) as [E|E].
  - cbn. rewrite digit_char_value by done. f_equal. lia.
  - rewrite IH.
    + cbn. rewrite digit_char_value by done. f_equal. lia.
    + rewrite Nat2N.inj_succ, N.pow_succ_r' in Hn. apply N.Div0.div_lt_upper_bound; lia.
    + intros ->. cbn in Hn. apply E, N.div_small. lia.
Qed.

Lemma Itoa_N_value k : digits_value (Itoa_N k) 0 = k.
Proof.
  unfold Itoa_N. rewrite digits_go_value; [done| |done].
  rewrite Nat2N.inj_succ, N2Nat.id, N.pow_succ_r'. pose proof (N.size_gt k).
  pose proof (N.pow_le_mono_l 2 10 (N.size k)). lia.
Qed.

Lemma Itoa_N_inj n m : Itoa_N n = Itoa_N m → n = m.
Proof. intros H. rewrite <- (Itoa_N_value n), <- (Itoa_N_value m). by rewrite H. Qed.

(** ** Automation *)

Create HintDb golib discriminated.
#[export] Hint Resolve string_eqb_refl EqualFold_refl wrap64_range : golib.
Create Rewrite HintDb gostr.
#[export] Hint Rewrite string_app_nil string_app_cons string_app_nil_r string_eqb_refl ToLower_idem ToUpper_idem TrimSpace_idem
  EqualFold_refl : gostr.

(** Split every string test in sight into its two cases. *)
Ltac str_cases :=
  repeat match goal with
  | H : context [String.eqb ?a ?b] |- _ =>
      destruct (String.eqb_spec a b); subst; cbn in *
  | |- context [String.eqb ?a ?b] =>
      destruct (String.eqb_spec a b); subst; cbn in *
  end.

(** Case-split the outermost [match]/[if] of a hypothesis or the goal. *)
Ltac split_match H :=
  match type of H with
  | context [match ?x with _ => _ end] => destruct x eqn:?; simplify_eq/=
  end.
Ltac split_goal :=
  match goal with
  | |- context [match ?x with _ => _ end] => destruct x eqn:?; simplify_eq/=
  end.
Ltac bool_simpl :=
  repeat match goal with
  | H : _ && _ = true |- _ => apply andb_prop in H as [? ?]
  | H : _ || _ = false |- _ => apply orb_false_elim in H as [? ?]
  | H : negb _ = true |- _ => apply negb_true_iff in H
  | H : negb _ = false |- _ => apply negb_false_iff in H
  end.

(** Rewrite with every boolean test known to fail, or to hold. *)
Ltac rewrite_tests :=
  repeat match goal with
  | H : ?b = false |- context [?b] => rewrite H; cbv zeta
  | H : ?b = true |- context [?b] => rewrite H; cbv zeta
  end.

(** Turn the boolean comparisons of [Z] in the context into propositions. *)
Ltac Z_tests :=
  repeat match goal with
  | H : (_ <=? _) = true |- _ => apply Z.leb_le in H
  | H : (_ <=? _) = false |- _ => apply Z.leb_gt in H
  | H : (_ <? _) = true |- _ => apply Z.ltb_lt in H
  | H : (_ <? _) = false |- _ => apply Z.ltb_ge in H
  | H : (_ =? _) = true |- _ => apply Z.eqb_eq in H
  | H : (_ =? _) = false |- _ => apply Z.eqb_neq in H
  end.

(** ** Choosing by an order

    [SELECT .. ORDER BY .. LIMIT 1]: the first of a list in a total preorder. *)

Class Ranking {A} (before : A → A → bool) := {
  ranking_total x y : before x y = true ∨ before y x = true;
  ranking_trans x y z : before x y = true → before y z = true → before x z = true;
}.

Fixpoint best {A} (before : A → A → bool) (l : list A) : option A :=
  match l with
  | [] => None
  | x :: l =>
      match best before l with
      | Some y => if before x y then Some x else Some y
      | None => Some x
      end
  end.

Lemma best_Some {A} (before : A → A → bool) `{!Ranking before} l x :
  best before l = Some x → x ∈ l ∧ ∀ y, y ∈ l → before x y = true.
Proof.
  assert (Hrefl : ∀ y, before y y = true) by (intros y; by destruct (ranking_total y y)).
  revert x. induction l as [|z l IH]; intros x; cbn; [done|].
  destruct (best before l) as [w|] eqn:E.
  - specialize (IH w eq_refl) as [Hw Hle]. destruct (before z w) eqn:Ez; intros [= <-].
    + split; [left|]. intros y [->|Hy]%elem_of_cons; [done|]. eauto using ranking_trans.
    + split; [by right|]. intros y [->|Hy]%elem_of_cons; [|by apply Hle].
      destruct (ranking_total w z); congruence.
  - destruct l as [|y l]; [|cbn in E; destruct (best before l) as [b|];
      [by destruct (before y b)|done]].
    intros [= <-]. split; [left|]. intros y [->|Hy]%elem_of_cons; [done|]. by inversion Hy.
Qed.

Lemma best_None {A} (before : A → A → bool) l : best before l = None ↔ l = [].
Proof.
  destruct l as [|x l]; cbn; [done|]. destruct (best before l) as [y|]; [|done].
  by destruct (before x y).
Qed.

(** A member that precedes the others is the one chosen. *)
Lemma best_unique {A} (before : A → A → bool) `{!Ranking before} l x :
  (∀ y z, before y z = true → before z y = true → y = z) →
  x ∈ l → (∀ y, y ∈ l → before x y = true) → best before l = Some x.
Proof.
  intros Hanti Hx Hle. destruct (best before l) as [y|] eqn:E.
  - apply best_Some in E as [Hy Hmin]; [|done]. f_equal. by apply Hanti; auto.
  - apply best_None in E as ->. by inversion Hx.
Qed.

(** A list in the order, by insertion; equals keep their places. *)
Fixpoint insert_ranked {A} (before : A → A → bool) (x : A) (l : list A) : list A :=
  match l with
  | [] => [x]
  | y :: l => if before y x then y :: insert_ranked before x l else x :: y :: l
  end.
Definition rank_by {A} (before : A → A → bool) (l : list A) : list A :=
  fold_left (λ acc x, insert_ranked before x acc) l [].

Lemma insert_ranked_Permutation {A} (before : A → A → bool) x l :
  insert_ranked before x l ≡ₚ x :: l.
Proof.
  induction l as [|y l IH]; cbn; [done|]. destruct (before y x); [|done].
  rewrite IH. apply Permutation_swap.
Qed.

Lemma rank_by_Permutation {A} (before : A → A → bool) l : rank_by before l ≡ₚ l.
Proof.
  unfold rank_by. rewrite <- (app_nil_r l) at 2. generalize (@nil A) as acc.
  induction l as [|x l IH]; intros acc; cbn; [done|].
  rewrite IH, insert_ranked_Permutation. apply Permutation_sym, Permutation_middle.
Qed.

Lemma insert_ranked_sorted {A} (before : A → A → bool) `{!Ranking before} x l :
  StronglySorted (λ y z, before y z = true) l →
  StronglySorted (λ y z, before y z = true) (insert_ranked before x l).
Proof.
  induction 1 as [|y l Hl IH Hy]; cbn; [by repeat constructor|].
  destruct (before y x) eqn:E.
  - constructor; [done|]. rewrite insert_ranked_Permutation. by constructor.
  - assert (Hxy : before x y = true).
    { destruct (ranking_total x y) as [|H]; [done|congruence]. }
    constructor; [by constructor|]. constructor; [done|].
    eapply Forall_impl; [exact Hy|]. intros z Hz. by eapply ranking_trans.
Qed.

Lemma rank_by_sorted {A} (before : A → A → bool) `{!Ranking before} l :
  StronglySorted (λ y z, before y z = true) (rank_by before l).
Proof.
  unfold rank_by. assert (H : StronglySorted (λ y z, before y z = true) (@nil A)) by constructor.
  revert H. generalize (@nil A) as acc. induction l as [|x l IH]; intros acc H; cbn; [done|].
  apply IH. by apply insert_ranked_sorted.
Qed.

(** [ORDER BY key ASC] *)
Definition order_by {A} (key : A → Z) : list A → list A := rank_by (λ x y, key x <=? key y).

Lemma order_by_Permutation {A} (key : A → Z) l : order_by key l ≡ₚ l.
Proof. apply rank_by_Permutation. Qed.

(** Order by a number, then by an identifier. *)
Definition by_key {A} (key : A → Z) (id : A → string) (x y : A) : bool :=
  (key x <? key y) || (key x =? key y) && String.leb (id x) (id y).

Lemma leb_String_le s t : String.leb s t = true ↔ String.le s t.
Proof. unfold String.le. by rewrite Is_true_true. Qed.

Lemma leb_not_ltb s t : String.leb s t = negb (String.ltb t s).
Proof.
  unfold String.leb, String.ltb. rewrite String.compare_antisym.
  by destruct (String.compare t s).
Qed.

#[export] Instance leb_ranking : Ranking String.leb.
Proof.
  split.
  - intros. apply String.leb_total.
  - intros x y z. rewrite !leb_String_le. intros. by trans y.
Qed.

#[export] Instance by_key_ranking {A} (key : A → Z) id : Ranking (by_key key id).
Proof.
  unfold by_key. split.
  - intros x y. destruct (Z.ltb_spec (key x) (key y)); [by left|].
    destruct (Z.ltb_spec (key y) (key x)); [by right|].
    replace (key x =? key y) with true by (symmetry; apply Z.eqb_eq; lia).
    replace (key y =? key x) with true by (symmetry; apply Z.eqb_eq; lia).
    apply String.leb_total.
  - intros x y z. rewrite !orb_true_iff, !andb_true_iff, !Z.ltb_lt, !Z.eqb_eq.
    intros [H|[H Hs]] [H'|[H' Hs']]; try (left; lia).
    right. split; [lia|]. by eapply ranking_trans.
Qed.

(** ** Record update

    [r <| f := v |>] is [r] with field [f] set to [v].  A record type says once
    how it is rebuilt from its fields ([eta]); the setter of a field is found from
    that by abstracting its projection. *)

Class Eta (T : Type) := eta : T → T.
Class FieldSetter {T B : Type} (field : T → B) := upd : (B → B) → T → T.

Ltac find_setter :=
  lazymatch goal with
  | |- @FieldSetter ?T ?B ?field =>
      let e := constr:(_ : Eta T) in
      let e := eval hnf in e in
      match eval pattern field in e with
      | ?h _ => exact (λ (g : B → B) (x : T), ltac:(
          let b := eval cbv beta in (h (λ y, g (field y)) x) in exact b))
      end
  end.

#[export] Hint Extern 1 (FieldSetter _) => find_setter : typeclass_instances.

Notation "r <| f ::= g |>" := (upd (field := f) g r)
  (at level 12, f at next level, left associativity) : go_scope.
Notation "r <| f := v |>" := (upd (field := f) (λ _, v) r)
  (at level 12, f at next level, left associativity) : go_scope.
