(* ===== verification/Float64.v ===== *)
(** * Go's [float64] and [strconv.ParseFloat]

    A [float64] is a binary64 datum of the Standard Library's [SpecFloat].
    Arithmetic is correctly rounded (nearest, ties to even).  [ParseFloat]
    follows the grammar of package strconv: signed decimal and hexadecimal
    mantissas, exponents, digit-separating underscores, [inf], [infinity] and
    [nan]; a value beyond the largest finite number is a range error. *)

From Stdlib Require Import Ascii String ZArith Lia SpecFloat.
From stdpp Require Import base list strings.
From S2P Require Import Prelude.

Abbreviation float64 := spec_float.

Definition prec64 : Z := 53.
Definition emax64 : Z := 1024.

Definition feqb : float64 → float64 → bool := SFeqb.
Definition fltb : float64 → float64 → bool := SFltb.
Definition fleb : float64 → float64 → bool := SFleb.
Definition fdiv : float64 → float64 → float64 := SFdiv prec64 emax64.

Definition fmul : float64 → float64 → float64 := SFmul prec64 emax64.

(** Conversion of a finite float64 to an integer: truncation toward zero. *)
Definition trunc (f : float64) : Z :=
  match f with
  | S754_finite sg m e =>
      let a := if 0 <=? e then Zpos m * 2 ^ e else Zpos m / 2 ^ (- e) in
      if sg then - a else a
  | _ => 0
  end.

(** [float64(z)] for an integer [z]. *)
Definition of_int (z : Z) : float64 := binary_normalize prec64 emax64 z 0 false.

(** The binary64 number nearest to the fraction [n/d], negated under [sg]. *)
Definition of_ratio (sg : bool) (n d : positive) : float64 :=
  let '(m, e, l) := SFdiv_core_binary prec64 emax64 (Zpos n) 0 (Zpos d) 0 in
  binary_round_aux prec64 emax64 sg m e l.

(** The binary64 number nearest to [m * base ^ e]. *)
Definition of_scaled (sg : bool) (m : Z) (base e : Z) : float64 :=
  match m with
  | Zpos p =>
      if 0 <=? e then of_ratio sg (Z.to_pos (Zpos p * base ^ e)) 1
      else of_ratio sg p (Z.to_pos (base ^ (- e)))
  | _ => S754_zero sg
  end.

Definition is_inf (f : float64) : bool :=
  match f with S754_infinity _ => true | _ => false end.

(** ** Scanning the text of a number *)

Definition digit_val (c : ascii) : Z := Z.of_N (byte_of c) - 48.
Definition is_hex_letter (c : ascii) : bool :=
  let n := byte_of (lower_char c) in ((97 <=? n) && (n <=? 102))%N.

(** The digits and the point of a mantissa: what is left, whether a digit was
    seen, the digits read as one integer, how many of them follow the point, and
    whether an underscore was seen. *)
Fixpoint scan_mantissa (hex : bool) (s : string) (sawdot sawdigits : bool)
    (m frac : Z) (us : bool) : string * bool * Z * Z * bool :=
  let base := if hex then 16 else 10 in
  let frac' := if sawdot then frac + 1 else frac in
  match s with
  | EmptyString => (s, sawdigits, m, frac, us)
  | String c r =>
      if Ascii.eqb c "_" then scan_mantissa hex r sawdot sawdigits m frac true
      else if Ascii.eqb c "." then
        if sawdot then (s, sawdigits, m, frac, us)
        else scan_mantissa hex r true sawdigits m frac us
      else if is_digit c then
        scan_mantissa hex r sawdot true (m * base + digit_val c) frac' us
      else if hex && is_hex_letter c then
        scan_mantissa hex r sawdot true
          (m * base + (Z.of_N (byte_of (lower_char c)) - 87)) frac' us
      else (s, sawdigits, m, frac, us)
  end.

(** The decimal digits of an exponent; the value stops growing at 10000. *)
Fixpoint scan_exponent (s : string) (e : Z) (us : bool) : string * Z * bool :=
  match s with
  | EmptyString => (s, e, us)
  | String c r =>
      if Ascii.eqb c "_" then scan_exponent r e true
      else if is_digit c then
        scan_exponent r (if e <? 10000 then e * 10 + digit_val c else e) us
      else (s, e, us)
  end.

Definition strip_sign (s : string) : bool * string :=
  match s with
  | String "+" r => (false, r)
  | String "-" r => (true, r)
  | _ => (false, s)
  end.

(** [underscoreOK]: an underscore stands between two digits, or between the base
    prefix and a digit. *)
Inductive seen := SawStart | SawDigit | SawUnderscore | SawOther.

Fixpoint underscores_ok (hex : bool) (saw : seen) (s : string) : bool :=
  match s with
  | EmptyString => match saw with SawUnderscore => false | _ => true end
  | String c r =>
      if is_digit c || (hex && is_hex_letter c) then underscores_ok hex SawDigit r
      else if Ascii.eqb c "_" then
        match saw with
        | SawDigit => underscores_ok hex SawUnderscore r
        | _ => false
        end
      else match saw with
           | SawUnderscore => false
           | _ => underscores_ok hex SawOther r
           end
  end.

Definition underscoreOK (s : string) : bool :=
  let '(_, s) := strip_sign s in
  match s with
  | String "0" (String c r) =>
      let c := lower_char c in
      if Ascii.eqb c "x" then underscores_ok true SawDigit r
      else if Ascii.eqb c "b" || Ascii.eqb c "o" then underscores_ok false SawDigit r
      else underscores_ok false SawStart s
  | _ => underscores_ok false SawStart s
  end.

Definition special (s : string) : option float64 :=
  let '(neg, r) := strip_sign s in
  let l := ToLower r in
  if (l =?s "inf") || (l =?s "infinity") then Some (S754_infinity neg)
  else if ToLower s =?s "nan" then Some S754_nan
  else None.

(** The number a text denotes before the range check; [None] is a syntax error. *)
Definition read_float (s : string) : option float64 :=
  let '(neg, r) := strip_sign s in
  let '(hex, r) :=
    match r with
    | String "0" (String c (String c' r')) =>
        if Ascii.eqb (lower_char c) "x" then (true, String c' r') else (false, r)
    | _ => (false, r)
    end in
  let '(rest, sawdigits, m, frac, us) := scan_mantissa hex r false false 0 0 false in
  if negb sawdigits then None else
  let exp_char : ascii := if hex then "p"%char else "e"%char in
  let finish (e : Z) (us : bool) : option float64 :=
    if us && negb (underscoreOK s) then None
    else Some (if hex then of_scaled neg m 2 (e - 4 * frac)
               else of_scaled neg m 10 (e - frac)) in
  match rest with
  | EmptyString => if hex then None else finish 0 us
  | String c rest =>
      if negb (Ascii.eqb (lower_char c) exp_char) then None else
      let '(eneg, rest) := strip_sign rest in
      match rest with
      | String d _ =>
          if negb (is_digit d) then None else
          let '(rest, e, us) := scan_exponent rest 0 us in
          match rest with
          | EmptyString => finish (if eneg then - e else e) us
          | _ => None
          end
      | EmptyString => None
      end
  end.

(** [strconv.ParseFloat(s, 64)] with [None] for a non-nil error. *)
Definition ParseFloat (s : string) : option float64 :=
  match special s with
  | Some f => Some f
  | None =>
      match read_float s with
      | Some f => if is_inf f then None else Some f
      | None => None
      end
  end.

(** ** Facts about the order *)

Definition is_nan (f : float64) : bool :=
  match f with S754_nan => true | _ => false end.

Lemma SFcompare_refl f : is_nan f = false → SFcompare f f = Some Eq.
Proof.
  destruct f as [s|s| |s m e]; cbn; try done; destruct s; try done;
    rewrite Z.compare_refl; intros _.
  - f_equal. change (PosDef.Pos.compare_cont Eq m m) with (Pos.compare m m).
    by rewrite Pos.compare_refl.
  - f_equal. change (PosDef.Pos.compare_cont Eq m m) with (Pos.compare m m).
    by rewrite Pos.compare_refl.
Qed.

Lemma feqb_refl f : is_nan f = false → feqb f f = true.
Proof. intros H. unfold feqb, SFeqb. by rewrite SFcompare_refl. Qed.

Lemma feqb_nan_l f : feqb S754_nan f = false.
Proof. done. Qed.

(** On numbers that compare, [<=] is the negation of [>]. *)
Lemma fleb_fltb_negb f g :
  is_nan f = false → is_nan g = false → fleb f g = negb (fltb g f).
Proof.
  unfold fleb, fltb, SFleb, SFltb.
  destruct f as [[]|[]| |[] m e], g as [[]|[]| |[] m' e']; cbn; try done;
    intros _ _; rewrite (Z.compare_antisym e e');
    destruct (e ?= e'); cbn; try done;
    change (PosDef.Pos.compare_cont Eq m m') with (Pos.compare m m');
    change (PosDef.Pos.compare_cont Eq m' m) with (Pos.compare m' m);
    rewrite (Pos.compare_antisym m m'); by destruct (m ?= m')%positive.
Qed.

Example parse_1 : ParseFloat "1_000.50e-1" = ParseFloat "100.05".
Proof. vm_compute. reflexivity. Qed.
Example parse_2 : ParseFloat "0x1.8p1" = Some (of_int 3).
Proof. vm_compute. reflexivity. Qed.
Example parse_3 : ParseFloat "1.2.3" = None ∧ ParseFloat "-" = None ∧ ParseFloat "1e999" = None.
Proof. vm_compute. done. Qed.
