(* ===== verification/FloatQuotient.v ===== *)
(** * Quotients of whole numbers as float64

    The code compares [float64(n) / float64(d)] with constants.  The quotient is the float64
    nearest to the fraction, so such a comparison decides what the fraction decides as long as
    the numbers are not too large. *)

From Stdlib Require Import ZArith Lia SpecFloat.
From stdpp Require Import base numbers.
From S2P Require Import Prelude Float64.

Open Scope Z_scope.

(** Mantissas of a normal number lie between [half] and [whole]. *)
Definition half : Z := Eval cbv in 2 ^ 52.
Definition whole : Z := Eval cbv in 2 ^ 53.

Lemma digits_log2 m : 0 < m → Zdigits2 m = Z.log2 m + 1.
Proof.
  assert (E : ∀ p, digits2_pos p = Pos.size p) by (induction p; cbn; congruence).
  destruct m as [|p|p]; [lia| |lia]. intros _. cbn [Zdigits2]. rewrite E.
  destruct p; cbn [Z.log2 Pos.size]; lia.
Qed.

Lemma digits_between m k : 0 ≤ k → 2 ^ k ≤ m < 2 ^ (k + 1) → Zdigits2 m = k + 1.
Proof.
  intros Hk Hm. pose proof (Z.pow_pos_nonneg 2 k). rewrite digits_log2 by lia.
  by rewrite (Z.log2_unique m k).
Qed.
Lemma digits_normal m : half ≤ m < whole → Zdigits2 m = 53.
Proof. intros H. by apply (digits_between m 52). Qed.
Lemma digits_above m : whole ≤ m < 2 * whole → Zdigits2 m = 54.
Proof. intros H. by apply (digits_between m 53). Qed.

Lemma fexp_normal d e : -1000 ≤ e → 53 ≤ d → fexp prec64 emax64 (d + e) - e = d - 53.
Proof. unfold fexp, emin, prec64, emax64. lia. Qed.

Lemma shr_1_half m r s : 0 < m → shr_1 (Build_shr_record m r s) =
  Build_shr_record (m / 2) (Z.odd m) (r || s).
Proof.
  intros Hm. rewrite <- Z.div2_div. destruct m as [|p|p]; [lia| |lia]. by destruct p.
Qed.

Lemma shift_none m e l :
  half ≤ m < whole → -1000 ≤ e → shr_fexp prec64 emax64 m e l = (shr_record_of_loc m l, e).
Proof.
  intros Hm He. unfold shr_fexp. by rewrite digits_normal, fexp_normal by (unfold half, whole in *; lia).
Qed.
Lemma shift_one m e l :
  whole ≤ m < 2 * whole → -1000 ≤ e →
  shr_fexp prec64 emax64 m e l = (shr_1 (shr_record_of_loc m l), e + 1).
Proof.
  intros Hm He. unfold shr_fexp. by rewrite digits_above, fexp_normal by (unfold half, whole in *; lia).
Qed.

(** ** Rounding *)

Definition renormalized (m e : Z) : float64 :=
  if m =? whole then S754_finite false (Z.to_pos half) (e + 1)
  else S754_finite false (Z.to_pos m) e.

Lemma second_shift m e :
  half ≤ m ≤ whole → -1000 ≤ e ≤ 900 →
  (let '(mrs, e') := shr_fexp prec64 emax64 m e loc_Exact in
   match shr_m mrs with
   | Z0 => S754_zero false
   | Zpos k => if e' <=? emax64 - prec64 then S754_finite false k e' else S754_infinity false
   | _ => S754_nan
   end) = renormalized m e.
Proof.
  intros Hm He. unfold renormalized. destruct (Z.eqb_spec m whole) as [->|Hne].
  - rewrite shift_one by (unfold half, whole in *; lia).
    change (shr_1 _) with (Build_shr_record half false false). cbv beta iota. change (shr_m _) with half. unfold half at 1.
    destruct (Z.leb_spec (e + 1) (emax64 - prec64)); [done|unfold emax64, prec64 in *; lia].
  - rewrite shift_none by (unfold half, whole in *; lia). cbn [shr_record_of_loc shr_m].
    destruct m as [|p|p]; [unfold half in *; lia| |unfold half in *; lia].
    destruct (Z.leb_spec e (emax64 - prec64)); [done|unfold emax64, prec64 in *; lia].
Qed.

Lemma new_location_spec d r : 0 ≤ r < d →
  new_location d r = if r =? 0 then loc_Exact else loc_Inexact (2 * r ?= d).
Proof.
  intros Hr. unfold new_location, new_location_even, new_location_odd.
  destruct (Z.even d) eqn:Ed; [done|]. destruct (r =? 0); [done|]. f_equal.
  assert (Hd : 2 * r ≠ d). { intros <-. rewrite Z.even_mul in Ed. done. }
  destruct (Z.compare_spec (2 * r + 1) d), (Z.compare_spec (2 * r) d); done || lia.
Qed.

(** [x] is the normal number nearest to [num / den * 2 ^ e], or one of the two. *)
Definition nearest (x : float64) (num den e : Z) : Prop :=
  ∃ k i, x = S754_finite false (Z.to_pos k) (e + i) ∧ half ≤ k < whole ∧ 0 ≤ i ≤ 2 ∧
    2 * Z.abs (k * den * 2 ^ i - num) ≤ den * 2 ^ i.

Lemma nearest_renormalized m num den e i :
  half ≤ m ≤ whole → 0 < den → 0 ≤ i ≤ 1 →
  2 * Z.abs (m * den * 2 ^ i - num) ≤ den * 2 ^ i → nearest (renormalized m (e + i)) num den e.
Proof.
  intros Hm Hd Hi H. unfold renormalized. destruct (Z.eqb_spec m whole) as [->|].
  - exists half, (i + 1). rewrite Z.add_assoc, Z.pow_add_r, Z.pow_1_r by lia.
    split_and!; [done|done|done|lia|lia|]. replace whole with (half * 2) in H by done.
    assert (0 < 2 ^ i) by (apply Z.pow_pos_nonneg; lia).
    replace (half * den * (2 ^ i * 2)) with (half * 2 * den * 2 ^ i) by ring. nia.
  - exists m, i. split_and!; [done|lia..].
Qed.

Lemma round_nearest q d r e :
  half ≤ q < 2 * whole → 0 ≤ r < d → -1000 ≤ e ≤ 800 →
  nearest (binary_round_aux prec64 emax64 false q e (new_location d r)) (q * d + r) d e.
Proof.
  intros Hq Hr He. rewrite new_location_spec by done. unfold binary_round_aux.
  destruct (Z.lt_ge_cases q whole) as [Hlow|Hhigh].
  - rewrite (shift_none q) by (unfold half, whole in *; lia).
    assert (E : ∀ l, shr_m (shr_record_of_loc q l) = q ∧
                     loc_of_shr_record (shr_record_of_loc q l) = l) by by intros [|[]].
    destruct (E (if r =? 0 then loc_Exact else loc_Inexact (2 * r ?= d))) as [-> ->]. clear E.
    set (m := round_nearest_even _ _).
    assert (Hm : m = q ∧ 2 * r ≤ d ∨ m = q + 1 ∧ d ≤ 2 * r).
    { subst m. unfold round_nearest_even. destruct (Z.eqb_spec r 0); [lia|].
      destruct (Z.compare_spec (2 * r) d); [destruct (Z.even q)|..]; lia. }
    rewrite second_shift by (unfold half, whole in *; lia).
    replace e with (e + 0) at 1 by lia. apply nearest_renormalized; [lia..|].
    rewrite Z.pow_0_r. destruct Hm as [[-> H]|[-> H]]; nia.
  - rewrite (shift_one q) by (unfold half, whole in *; lia).
    set (h := q / 2). pose proof (Z.div_mod q 2) as Hdm. rewrite Zmod_odd in Hdm. fold h in Hdm.
    assert (Hh : half ≤ h < whole) by (unfold half, whole in *; destruct (Z.odd q); lia).
    assert (E : shr_1 (shr_record_of_loc q (if r =? 0 then loc_Exact else loc_Inexact (2 * r ?= d))) =
                Build_shr_record h (Z.odd q) (negb (r =? 0))).
    { destruct (r =? 0); [|destruct (2 * r ?= d)]; cbn [shr_record_of_loc];
        rewrite shr_1_half by (unfold half in *; lia); done. }
    rewrite E. clear E. cbn [shr_m]. set (m := round_nearest_even _ _).
    assert (Hm : m = h ∧ (Z.odd q = false ∨ r = 0) ∨ m = h + 1 ∧ Z.odd q = true).
    { subst m. destruct (Z.odd q) eqn:Eo, (Z.eqb_spec r 0); cbn; try destruct (Z.even h); tauto. }
    rewrite second_shift by (unfold half, whole in *; lia).
    apply nearest_renormalized; [lia..|]. rewrite Z.pow_1_r.
    destruct (Z.odd q) eqn:Eo; destruct Hm as [[-> [Hm|Hm]]|[-> Hm]]; try done; nia.
Qed.

(** ** Whole numbers and their quotients *)

(** The float64 of a whole number: its mantissa, and how far it has been shifted. *)
Lemma of_int_normal n : 0 < n < whole →
  ∃ s, 0 ≤ s ≤ 52 ∧ half ≤ n * 2 ^ s < whole ∧
    of_int n = S754_finite false (Z.to_pos (n * 2 ^ s)) (- s).
Proof.
  intros Hn. set (s := 52 - Z.log2 n).
  assert (Hs : 0 ≤ s ≤ 52).
  { pose proof (Z.log2_nonneg n). assert (Z.log2 n < 53); [|lia].
    apply Z.log2_lt_pow2; [lia|]. change (2 ^ 53) with whole; lia. }
  assert (Hm : half ≤ n * 2 ^ s < whole).
  { pose proof (Z.log2_spec n ltac:(lia)) as [H1 H2].
    assert (half = 2 ^ Z.log2 n * 2 ^ s)
      by (rewrite <- Z.pow_add_r by (pose proof (Z.log2_nonneg n); lia); by replace (Z.log2 n + s) with 52 by lia).
    assert (whole = 2 ^ Z.succ (Z.log2 n) * 2 ^ s)
      by (rewrite <- Z.pow_add_r by (pose proof (Z.log2_nonneg n); lia); by replace (Z.succ (Z.log2 n) + s) with 53 by lia).
    assert (0 < 2 ^ s) by (apply Z.pow_pos_nonneg; lia). nia. }
  exists s. split_and!; [lia..|].
  destruct n as [|p|p]; [lia| |lia]. unfold of_int, binary_normalize, binary_round.
  assert (Ed : Zpos (digits2_pos p) = 53 - s)
    by (pose proof (digits_log2 (Zpos p) ltac:(lia)); cbn [Zdigits2] in *; lia).
  assert (Ea : shl_align p 0 (fexp prec64 emax64 (Zpos (digits2_pos p) + 0)) =
               (Z.to_pos (Zpos p * 2 ^ s), - s)).
  { rewrite Ed. unfold shl_align, fexp, emin, prec64, emax64.
    replace (_ - 0) with (- s) by lia. replace (Z.max _ _) with (- s) by lia.
    destruct s as [|k|k]; cbn [Z.opp]; [by rewrite Z.mul_1_r| |lia].
    f_equal. rewrite <- (Pos2Z.id (Pos.iter xO p k)). f_equal. clear.
    induction k as [|k IH] using Pos.peano_ind; [cbn; lia|].
    rewrite Pos.iter_succ, Pos2Z.inj_succ, Z.pow_succ_r by lia.
    change (Zpos (xO (Pos.iter xO p k))) with (2 * Zpos (Pos.iter xO p k)). rewrite IH. ring. }
  rewrite Ea. unfold binary_round_aux. rewrite Z2Pos.id by (unfold half in *; lia).
  rewrite (shift_none (_ * _)) by (unfold half, whole in *; lia).
  cbn [shr_record_of_loc shr_m loc_of_shr_record round_nearest_even].
  rewrite second_shift by (unfold half, whole in *; lia). unfold renormalized.
  destruct (Z.eqb_spec (Zpos p * 2 ^ s) whole); [lia|done].
Qed.

(** The quotient is the float64 nearest to the fraction. *)
Lemma quotient_nearest n d : 0 < n < whole → 0 < d < whole →
  ∃ k E F, fdiv (of_int n) (of_int d) = S754_finite false (Z.to_pos k) (E - F) ∧
    half ≤ k < whole ∧ 0 ≤ E ∧ 0 ≤ F ∧ 2 * Z.abs (k * d * 2 ^ E - n * 2 ^ F) ≤ d * 2 ^ E.
Proof.
  intros Hn Hd. destruct (of_int_normal n Hn) as (s & Hs & Hm & ->).
  destruct (of_int_normal d Hd) as (s' & Hs' & Hm' & ->). unfold fdiv, SFdiv.
  set (m := n * 2 ^ s) in *. set (m' := d * 2 ^ s') in *. unfold SFdiv_core_binary.
  rewrite !Z2Pos.id, !digits_normal by (unfold half in *; lia).
  replace (Z.min _ _) with (s' - s - 53) by (unfold fexp, emin, prec64, emax64; lia).
  replace (- s - - s' - (s' - s - 53)) with 53 by lia. cbv zeta. cbn match.
  rewrite Z.shiftl_mul_pow2 by lia. change (2 ^ 53) with whole.
  pose proof (Z_div_mod (m * whole) m' ltac:(unfold half in *; lia)) as Hqr.
  destruct (Z.div_eucl (m * whole) m') as [q r]. destruct Hqr as [Hq Hr]. cbn [xorb].
  assert (Hqb : half ≤ q < 2 * whole) by (unfold half, whole in *; nia).
  destruct (round_nearest q m' r (s' - s - 53) Hqb Hr ltac:(lia)) as (k & i & -> & Hk & Hi & H).
  exists k, (s' + i), (s + 53). split_and!; [f_equal; lia|lia..|].
  rewrite !Z.pow_add_r by lia. change (2 ^ 53) with whole. subst m m'.
  replace (k * d * (2 ^ s' * 2 ^ i)) with (k * (d * 2 ^ s') * 2 ^ i) by ring.
  replace (n * (2 ^ s * whole)) with (q * (d * 2 ^ s') + r) by lia.
  replace (d * (2 ^ s' * 2 ^ i)) with (d * 2 ^ s' * 2 ^ i) by ring. done.
Qed.

(** ** Comparison with a constant *)

(** [C * 2 ^ (-j)] is the float64 of [a / b], which is not at the edge of its binade. *)
Record constant (C j a b : Z) : Prop := {
  co_normal : half ≤ C < whole;
  co_shift : 0 ≤ j;
  co_positive : 0 < b;
  co_nearest : 2 * Z.abs (C * b - a * 2 ^ j) < b;
  co_above : (2 * whole - 1) * b < 4 * (a * 2 ^ j);
  co_below : a * 2 ^ j < (whole - 1) * b;
}.
Definition constant_float (C j : Z) : float64 := S754_finite false (Z.to_pos C) (- j).

Section Constant.
Context (C j a b : Z) (HC : constant C j a b).

(** The three cases of the comparison. *)
Lemma same_binade k n d :
  0 < d → d * b < 2 ^ j → 2 * Z.abs (k * d - n * 2 ^ j) ≤ d →
  (k ?= C) = (b * n ?= a * d).
Proof.
  intros Hd Hdb H. destruct HC as [_ _ Hb Hc _ _]. set (J := 2 ^ j) in *.
  assert (H1 : 2 * Z.abs (k * (d * b) - (b * n) * J) ≤ d * b).
  { replace (k * (d * b) - b * n * J) with ((k * d - n * J) * b) by ring.
    rewrite Z.abs_mul, (Z.abs_eq b) by lia. nia. }
  assert (H2 : 2 * Z.abs (C * (d * b) - (a * d) * J) < d * b).
  { replace (C * (d * b) - a * d * J) with ((C * b - a * J) * d) by ring.
    rewrite Z.abs_mul, (Z.abs_eq d) by lia. nia. }
  clear H Hc. generalize dependent (d * b). intros D H0 H1 H2.
  destruct (Z.compare_spec (b * n) (a * d)) as [E|E|E].
  - rewrite E in H1. apply Z.compare_eq_iff. nia.
  - apply Z.compare_lt_iff. assert ((b * n) * J + J ≤ (a * d) * J) by nia. nia.
  - apply Z.compare_gt_iff. assert ((a * d) * J + J ≤ (b * n) * J) by nia. nia.
Qed.

Lemma above_binade k n d E F :
  half ≤ k → 0 < d → 0 ≤ E → 0 ≤ F → F < E + j →
  2 * Z.abs (k * d * 2 ^ E - n * 2 ^ F) ≤ d * 2 ^ E → a * d < b * n.
Proof.
  intros Hk Hd HE HF Hlt H. destruct HC as [_ Hj Hb _ _ Hc]. apply Z.nle_gt. intros Hle.
  assert (HQ : 0 < 2 ^ F) by (apply Z.pow_pos_nonneg; lia).
  assert (HP : 0 < 2 ^ E) by (apply Z.pow_pos_nonneg; lia).
  assert (HJ : 0 < 2 ^ j) by (apply Z.pow_pos_nonneg; lia).
  assert (HPJ : 2 * 2 ^ F ≤ 2 ^ E * 2 ^ j).
  { rewrite <- Z.pow_add_r, <- Z.pow_succ_r by lia. apply Z.pow_le_mono_r; lia. }
  set (Q := 2 ^ F) in *. set (P := 2 ^ E) in *. set (J := 2 ^ j) in *.
  assert (H1 : (whole - 1) * (d * P) ≤ 2 * (n * Q)).
  { assert (half * (d * P) ≤ k * (d * P)) by nia. unfold half, whole in *. lia. }
  assert (H2 : (whole - 1) * (b * P) * d ≤ 2 * (a * Q) * d) by nia.
  apply Z.mul_le_mono_pos_r in H2; [|done].
  assert (H3 : (whole - 1) * b * (P * J) ≤ 2 * (a * J) * Q) by nia.
  assert (H4 : (whole - 1) * b * (2 * Q) ≤ (whole - 1) * b * (P * J))
    by (apply Z.mul_le_mono_nonneg_l; unfold whole; lia).
  assert (H5 : (whole - 1) * b * Q ≤ a * J * Q) by lia.
  apply Z.mul_le_mono_pos_r in H5; [lia|done].
Qed.

Lemma below_binade k n d E F :
  k < whole → 0 < d → 0 ≤ E → 0 ≤ F → E + j < F →
  2 * Z.abs (k * d * 2 ^ E - n * 2 ^ F) ≤ d * 2 ^ E → b * n < a * d.
Proof.
  intros Hk Hd HE HF Hlt H. destruct HC as [_ Hj Hb _ Hc _]. apply Z.nle_gt. intros Hle.
  assert (HQ : 0 < 2 ^ F) by (apply Z.pow_pos_nonneg; lia).
  assert (HP : 0 < 2 ^ E) by (apply Z.pow_pos_nonneg; lia).
  assert (HJ : 0 < 2 ^ j) by (apply Z.pow_pos_nonneg; lia).
  assert (HPJ : 2 * (2 ^ E * 2 ^ j) ≤ 2 ^ F).
  { rewrite <- Z.pow_add_r, <- Z.pow_succ_r by lia. apply Z.pow_le_mono_r; lia. }
  set (Q := 2 ^ F) in *. set (P := 2 ^ E) in *. set (J := 2 ^ j) in *.
  assert (H1 : 2 * (n * Q) ≤ (2 * whole - 1) * (d * P)).
  { assert (k * (d * P) ≤ (whole - 1) * (d * P)) by nia. unfold whole in *. lia. }
  assert (H2 : 2 * (a * Q) * d ≤ (2 * whole - 1) * (b * P) * d) by nia.
  apply Z.mul_le_mono_pos_r in H2; [|done].
  assert (H3 : 2 * (a * J) * Q ≤ (2 * whole - 1) * b * (P * J)) by nia.
  assert (H4 : (2 * whole - 1) * b * (2 * (P * J)) ≤ (2 * whole - 1) * b * Q)
    by (apply Z.mul_le_mono_nonneg_l; unfold whole; lia).
  assert (H5 : 4 * (a * J) * Q ≤ (2 * whole - 1) * b * Q) by lia.
  apply Z.mul_le_mono_pos_r in H5; [lia|done].
Qed.

(** The quotient compares with the constant as the fractions do. *)
Lemma quotient_compare n d :
  0 < n < whole → 0 < d < whole → d * b < 2 ^ j →
  SFcompare (fdiv (of_int n) (of_int d)) (constant_float C j) = Some (b * n ?= a * d).
Proof.
  intros Hn Hd Hdb. destruct (quotient_nearest n d Hn Hd) as (k & E & F & -> & Hk & HE & HF & H).
  pose proof (co_normal _ _ _ _ HC) as Hn'. cbn [SFcompare constant_float]. f_equal.
  destruct (Z.compare_spec (E - F) (- j)) as [Hc|Hc|Hc].
  - change (PosDef.Pos.compare_cont Eq (Z.to_pos k) (Z.to_pos C))
      with (Zpos (Z.to_pos k) ?= Zpos (Z.to_pos C)).
    rewrite !Z2Pos.id by (unfold half in *; lia). apply same_binade; [lia..|].
    replace F with (E + j) in H by lia. rewrite Z.pow_add_r in H by (destruct HC; lia).
    replace (k * d * 2 ^ E - n * (2 ^ E * 2 ^ j)) with ((k * d - n * 2 ^ j) * 2 ^ E) in H by ring.
    assert (HP : 0 < 2 ^ E) by (apply Z.pow_pos_nonneg; lia).
    rewrite Z.abs_mul, (Z.abs_eq (2 ^ E)) in H by lia. nia.
  - symmetry. apply Z.compare_lt_iff. eapply (below_binade k n d E F); lia.
  - symmetry. apply Z.compare_gt_iff. eapply (above_binade k n d E F); lia.
Qed.
End Constant.

(** For a numerator of zero, too. *)
Lemma quotient_ltb C j a b n d :
  constant C j a b → 0 ≤ n < whole → 0 < d < whole → d * b < 2 ^ j →
  fltb (constant_float C j) (fdiv (of_int n) (of_int d)) = (a * d <? b * n) ∧
  fleb (fdiv (of_int n) (of_int d)) (constant_float C j) = (b * n <=? a * d) ∧
  fleb (constant_float C j) (fdiv (of_int n) (of_int d)) = (a * d <=? b * n).
Proof.
  intros HC Hn Hd Hdb. assert (Hpos : 0 < a * 2 ^ j) by (destruct HC; unfold half, whole in *; lia).
  assert (Ha : 0 < a) by (destruct HC; assert (0 < 2 ^ j) by (apply Z.pow_pos_nonneg; lia); nia).
  destruct (Z.eq_dec n 0) as [->|Hne].
  - destruct (of_int_normal d Hd) as (s & _ & _ & ->). rewrite Z.mul_0_r. cbn.
    destruct (Z.ltb_spec (a * d) 0), (Z.leb_spec 0 (a * d)), (Z.leb_spec (a * d) 0); done || nia.
  - assert (Hc := quotient_compare C j a b HC n d ltac:(lia) Hd Hdb).
    assert (Hflip : SFcompare (constant_float C j) (fdiv (of_int n) (of_int d)) =
                    Some (a * d ?= b * n)).
    { destruct (quotient_nearest n d ltac:(lia) Hd) as (k & E & F & Hq & _).
      rewrite Hq in Hc |- *. cbn in Hc |- *. injection Hc as Hc. f_equal.
      rewrite (Z.compare_antisym (b * n)), <- Hc, (Z.compare_antisym (E - F)).
      destruct (E - F ?= - j); try done. cbn.
      change (Pos.compare (Z.to_pos C) (Z.to_pos k) = CompOpp (Pos.compare (Z.to_pos k) (Z.to_pos C))).
      apply Pos.compare_antisym. }
    unfold fltb, fleb, SFltb, SFleb. rewrite Hc, Hflip. unfold Z.ltb, Z.leb.
    split_and!; [by destruct (a * d ?= b * n)|by destruct (b * n ?= a * d)|by destruct (a * d ?= b * n)].
Qed.
