(* ===== verification/ApprovalExpr.v ===== *)
(** * Approval expressions (internal/approval/expression.go)

    The rule language of approval chains: a tokenizer over bytes, a
    recursive-descent parser that evaluates while it parses, and the comparison
    rules over JSON-like values.  The parser is compared with a reference
    semantics on syntax trees. *)

From Stdlib Require Import Ascii String ZArith Lia SpecFloat.
From stdpp Require Import base list strings.
From S2P Require Import Prelude Float64.

Open Scope go_scope.

(** ** Data *)

(** The dynamic values of [map[string]interface{}]: what [encoding/json]
    produces, the integer kinds, and anything else ([VOther], by an identifier
    that only [fmt.Sprint] looks at). *)
Inductive value :=
  | VNil
  | VBool (b : bool)
  | VFloat (f : float64)
  | VInt (z : Z)
  | VString (s : string)
  | VMap (m : list (string * value))
  | VOther (id : Z).

Inductive tokenType :=
  | tokenEOF | tokenIdentifier | tokenNumber | tokenString | tokenBool
  | tokenLParen | tokenRParen | tokenAnd | tokenOr
  | tokenEq | tokenNe | tokenLt | tokenGt | tokenLe | tokenGe.

#[export] Instance tokenType_eq_dec : EqDecision tokenType.
Proof. solve_decision. Defined.

Record token := Token { typ : tokenType; text : string; tpos : Z }.

(** ** The tokenizer *)

Definition isDigit (ch : ascii) : bool := is_digit ch.
Definition isNumberStart (ch : ascii) : bool := isDigit ch || Ascii.eqb ch "-".
Definition isIdentifierStart (ch : ascii) : bool :=
  is_lower ch || is_upper ch || Ascii.eqb ch "_".
Definition isIdentifierPart (ch : ascii) : bool :=
  isIdentifierStart ch || isDigit ch || Ascii.eqb ch ".".

Definition is_ws (ch : ascii) : bool :=
  Ascii.eqb ch " " || Ascii.eqb ch "009" || Ascii.eqb ch "010" || Ascii.eqb ch "013".

(** The longest prefix of bytes that satisfy [p], and the rest. *)
Fixpoint scan_while (p : ascii → bool) (s : string) : string * string :=
  match s with
  | EmptyString => (EmptyString, EmptyString)
  | String c r =>
      if p c then let '(w, rest) := scan_while p r in (String c w, rest)
      else (EmptyString, s)
  end.

(** The body of a string literal after its opening quote: the text with escapes
    resolved, what follows the closing quote, and how many bytes were read. *)
Inductive string_scan := ScanBadEscape | ScanUnterminated | ScanDone (txt rest : string) (n : Z).

Fixpoint scan_string (quote : ascii) (s : string) : string_scan :=
  match s with
  | EmptyString => ScanUnterminated
  | String c r =>
      if Ascii.eqb c "\" then
        match r with
        | EmptyString => ScanBadEscape
        | String c' r' =>
            match scan_string quote r' with
            | ScanDone txt rest n => ScanDone (String c' txt) rest (n + 2)
            | e => e
            end
        end
      else if Ascii.eqb c quote then ScanDone EmptyString r 1
      else match scan_string quote r with
           | ScanDone txt rest n => ScanDone (String c txt) rest (n + 1)
           | e => e
           end
  end.

Definition starts (s : string) (a b : ascii) : bool :=
  match s with
  | String c (String d _) => Ascii.eqb c a && Ascii.eqb d b
  | _ => false
  end.

Definition slen (s : string) : Z := Z.of_nat (String.length s).
Definition drop1 (s : string) : string := match s with String _ r => r | _ => s end.
Definition drop2 (s : string) : string := drop1 (drop1 s).

Fixpoint tokenize_from (fuel : nat) (s : string) (i : Z) : result (list token) :=
  match fuel with
  | O => Err OutOfFuel
  | S fuel =>
  match s with
  | EmptyString => Ok [Token tokenEOF "" i]
  | String ch r =>
      let emit1 t txt := cons (Token t txt i) <$> tokenize_from fuel r (i + 1) in
      let emit2 t txt := cons (Token t txt i) <$> tokenize_from fuel (drop2 s) (i + 2) in
      if is_ws ch then tokenize_from fuel r (i + 1)
      else if Ascii.eqb ch "(" then emit1 tokenLParen "("
      else if Ascii.eqb ch ")" then emit1 tokenRParen ")"
      else if starts s "&" "&" then emit2 tokenAnd "&&"
      else if starts s "|" "|" then emit2 tokenOr "||"
      else if starts s "=" "=" then emit2 tokenEq "=="
      else if starts s "!" "=" then emit2 tokenNe "!="
      else if starts s "<" "=" then emit2 tokenLe "<="
      else if starts s ">" "=" then emit2 tokenGe ">="
      else if Ascii.eqb ch "<" then emit1 tokenLt "<"
      else if Ascii.eqb ch ">" then emit1 tokenGt ">"
      else if Ascii.eqb ch "'" || Ascii.eqb ch "034" then
        match scan_string ch r with
        | ScanBadEscape => Err (ErrSyntax i "unterminated escape sequence")
        | ScanUnterminated => Err (ErrSyntax i "unterminated string literal")
        | ScanDone txt rest n =>
            cons (Token tokenString txt i) <$> tokenize_from fuel rest (i + 1 + n)
        end
      else if isNumberStart ch then
        let '(w, rest) := scan_while (λ c, isDigit c || Ascii.eqb c ".") r in
        cons (Token tokenNumber (String ch w) i)
          <$> tokenize_from fuel rest (i + 1 + slen w)
      else if isIdentifierStart ch then
        let '(w, rest) := scan_while isIdentifierPart r in
        let word := String ch w in
        let lw := ToLower word in
        let tok := if (lw =?s "true") || (lw =?s "false")
                   then Token tokenBool lw i else Token tokenIdentifier word i in
        cons tok <$> tokenize_from fuel rest (i + 1 + slen w)
      else Err (ErrSyntax i ("unexpected character " +:+ String ch ""))
  end
  end.

Definition tokenize (expr : string) : result (list token) :=
  tokenize_from (S (String.length expr)) expr 0.

(** ** Values *)

Definition asBool (v : value) : option bool :=
  match v with
  | VBool b => Some b
  | VString t =>
      let s := TrimSpace (ToLower t) in
      if s =?s "true" then Some true
      else if s =?s "false" then Some false
      else None
  | _ => None
  end.

Definition asFloat (v : value) : option float64 :=
  match v with
  | VFloat f => Some f
  | VInt z => Some (of_int z)
  | VString t => ParseFloat (TrimSpace t)
  | _ => None
  end.

(** [obj[part]] on the association list of a JSON object. *)
Fixpoint assoc (m : list (string * value)) (k : string) : option value :=
  match m with
  | [] => None
  | (k', v) :: m => if k =?s k' then Some v else assoc m k
  end.

Fixpoint lookup_parts (current : value) (parts : list string) : option value :=
  match parts with
  | [] => Some current
  | part :: parts =>
      match current with
      | VMap obj =>
          match assoc obj part with
          | Some v => lookup_parts v parts
          | None => None
          end
      | _ => None
      end
  end.

Definition lookupPath (ctx : list (string * value)) (path : string) : option value :=
  lookup_parts (VMap ctx) (split_on "." path).

Section Evaluator.
(** [fmt.Sprint] of a value that is not a string, a boolean or nil. *)
Context (sprint : value → string).

Definition Sprint (v : value) : string :=
  match v with
  | VString s => s
  | VBool b => if b then "true" else "false"
  | VNil => "<nil>"
  | _ => sprint v
  end.

Definition evaluateComparison (op : tokenType) (lhs rhs : value) : result bool :=
  match asFloat lhs with
  | Some lNum =>
      match asFloat rhs with
      | None => Err (ErrType "numeric comparison with non-numeric right operand")
      | Some rNum =>
          match op with
          | tokenEq => Ok (feqb lNum rNum)
          | tokenNe => Ok (negb (feqb lNum rNum))
          | tokenLt => Ok (fltb lNum rNum)
          | tokenGt => Ok (fltb rNum lNum)
          | tokenLe => Ok (fleb lNum rNum)
          | tokenGe => Ok (fleb rNum lNum)
          | _ => Err (ErrType "unsupported comparison operator")
          end
      end
  | None =>
      match asBool lhs with
      | Some lBool =>
          match asBool rhs with
          | None => Err (ErrType "boolean comparison with non-boolean right operand")
          | Some rBool =>
              match op with
              | tokenEq => Ok (eqb lBool rBool)
              | tokenNe => Ok (negb (eqb lBool rBool))
              | _ => Err (ErrType "boolean supports only == and !=")
              end
          end
      | None =>
          let lText := Sprint lhs in
          let rText := Sprint rhs in
          match op with
          | tokenEq => Ok (lText =?s rText)
          | tokenNe => Ok (negb (lText =?s rText))
          | tokenLt => Ok (String.ltb lText rText)
          | tokenGt => Ok (String.ltb rText lText)
          | tokenLe => Ok (String.leb lText rText)
          | tokenGe => Ok (String.leb rText lText)
          | _ => Err (ErrType "unsupported comparison operator")
          end
      end
  end.

(** ** The parser

    The parser state is the list of tokens from position [p.pos] on; past the
    end [current] is an end-of-input token. *)

Context (ctx : list (string * value)).

Definition parser := list token → result (value * list token).

Definition current (ts : list token) : token :=
  match ts with t :: _ => t | [] => Token tokenEOF "" 0 end.
Definition consume (ts : list token) : list token := tail ts.

Definition is_cmp (t : tokenType) : bool :=
  match t with
  | tokenEq | tokenNe | tokenLt | tokenGt | tokenLe | tokenGe => true
  | _ => false
  end.

Definition parseComparison (prim : parser) : parser := λ ts,
  '(lhs, ts) ← prim ts;
  let tok := current ts in
  if is_cmp (typ tok) then
    '(rhs, ts) ← prim (consume ts);
    b ← evaluateComparison (typ tok) lhs rhs;
    Ok (VBool b, ts)
  else Ok (lhs, ts).

(** Both operands of a connective are evaluated before either is required to
    be a boolean. *)
Definition connective (name : string) (f : bool → bool → bool) (lhs rhs : value)
    : result value :=
  match asBool lhs with
  | None => Err (ErrType ("left side of " +:+ name +:+ " is not boolean"))
  | Some lb =>
      match asBool rhs with
      | None => Err (ErrType ("right side of " +:+ name +:+ " is not boolean"))
      | Some rb => Ok (VBool (f lb rb))
      end
  end.

(** The loop of [parseOr] / [parseAnd]: while the current token is [t]. *)
Fixpoint chain_loop (n : nat) (t : tokenType) (name : string)
    (f : bool → bool → bool) (operand : parser) (lhs : value) (ts : list token)
    : result (value * list token) :=
  if decide (typ (current ts) = t) then
    match n with
    | O => Err OutOfFuel
    | S n =>
        '(rhs, ts) ← operand (consume ts);
        lhs ← connective name f lhs rhs;
        chain_loop n t name f operand lhs ts
    end
  else Ok (lhs, ts).

Definition parseAnd (prim : parser) : parser := λ ts,
  '(lhs, ts) ← parseComparison prim ts;
  chain_loop (length ts) tokenAnd "&&" andb (parseComparison prim) lhs ts.

Definition parseOr (prim : parser) : parser := λ ts,
  '(lhs, ts) ← parseAnd prim ts;
  chain_loop (length ts) tokenOr "||" orb (parseAnd prim) lhs ts.

Fixpoint parsePrimary (fuel : nat) : parser := λ ts,
  match fuel with
  | O => Err OutOfFuel
  | S fuel =>
      let tok := current ts in
      match typ tok with
      | tokenLParen =>
          '(v, ts) ← parseOr (parsePrimary fuel) (consume ts);
          if decide (typ (current ts) = tokenRParen) then Ok (v, consume ts)
          else Err (ErrSyntax (tpos (current ts)) "expected ')'")
      | tokenNumber =>
          match ParseFloat (text tok) with
          | Some n => Ok (VFloat n, consume ts)
          | None => Err (ErrSyntax (tpos tok) "invalid numeric literal")
          end
      | tokenString => Ok (VString (text tok), consume ts)
      | tokenBool => Ok (VBool (text tok =?s "true"), consume ts)
      | tokenIdentifier =>
          match lookupPath ctx (text tok) with
          | Some v => Ok (v, consume ts)
          | None => Err (ErrType ("unknown field: " +:+ text tok))
          end
      | _ => Err (ErrSyntax (tpos tok) "expected literal, identifier, or '('")
      end
  end.

(** Parentheses nest at most as deep as there are tokens. *)
Definition parseExpression : parser := λ ts,
  parseOr (parsePrimary (S (length ts))) ts.

Definition Evaluate (expression : string) : result bool :=
  let trimmed := TrimSpace expression in
  if trimmed =?s "" then Err (ErrInvalidExpression "expression is empty")
  else
    tokens ← tokenize trimmed;
    '(value, rest) ← parseExpression tokens;
    if decide (typ (current rest) = tokenEOF) then
      match asBool value with
      | Some b => Ok b
      | None => Err ErrExpressionTypeMismatch
      end
    else Err (ErrInvalidExpression "unexpected token").
End Evaluator.

(** ** Reference semantics

    Syntax trees, their value, and their concrete syntax: tokens with the fewest
    parentheses ([print]) and text ([render]). *)

Inductive expr :=
  | ENum (txt : string)
  | EStr (s : string)
  | EBool (b : bool)
  | EIdent (path : string)
  | ECmp (op : tokenType) (a b : expr)
  | EAnd (a b : expr)
  | EOr (a b : expr).

Section Reference.
Context (sprint : value → string) (ctx : list (string * value)).

Fixpoint eval (e : expr) : result value :=
  match e with
  | ENum t =>
      match ParseFloat t with
      | Some f => Ok (VFloat f)
      | None => Err (ErrSyntax 0 "invalid numeric literal")
      end
  | EStr s => Ok (VString s)
  | EBool b => Ok (VBool b)
  | EIdent p =>
      match lookupPath ctx p with
      | Some v => Ok v
      | None => Err (ErrType ("unknown field: " +:+ p))
      end
  | ECmp op a b =>
      va ← eval a; vb ← eval b; VBool <$> evaluateComparison sprint op va vb
  | EAnd a b => va ← eval a; vb ← eval b; connective "&&" andb va vb
  | EOr a b => va ← eval a; vb ← eval b; connective "||" orb va vb
  end.
End Reference.

Definition shape (t : token) : tokenType * string := (typ t, text t).

Definition op_text (t : tokenType) : string :=
  match t with
  | tokenEq => "==" | tokenNe => "!=" | tokenLt => "<" | tokenGt => ">"
  | tokenLe => "<=" | tokenGe => ">=" | tokenAnd => "&&" | tokenOr => "||"
  | tokenLParen => "(" | tokenRParen => ")"
  | _ => ""
  end.
Definition sym (t : tokenType) : tokenType * string := (t, op_text t).

Definition prec (e : expr) : nat :=
  match e with EOr _ _ => 0 | EAnd _ _ => 1 | ECmp _ _ _ => 2 | _ => 3 end%nat.

Fixpoint print (lvl : nat) (e : expr) : list (tokenType * string) :=
  let body :=
    match e with
    | ENum t => [(tokenNumber, t)]
    | EStr s => [(tokenString, s)]
    | EBool b => [(tokenBool, if b then "true" else "false")]
    | EIdent p => [(tokenIdentifier, p)]
    | ECmp op a b => print 3 a ++ [sym op] ++ print 3 b
    | EAnd a b => print 1 a ++ [sym tokenAnd] ++ print 2 b
    | EOr a b => print 0 a ++ [sym tokenOr] ++ print 1 b
    end in
  if (lvl <=? prec e)%nat then body
  else [sym tokenLParen] ++ body ++ [sym tokenRParen].

(** Text: string literals in single quotes with quote and backslash escaped,
    tokens separated by one space. *)
Fixpoint escape (s : string) : string :=
  match s with
  | EmptyString => EmptyString
  | String c r =>
      if Ascii.eqb c "\" || Ascii.eqb c "'" then String "\" (String c (escape r))
      else String c (escape r)
  end.

Definition render_tok (t : tokenType * string) : string :=
  match t.1 with
  | tokenString => "'" +:+ escape t.2 +:+ "'"
  | _ => t.2
  end.

Fixpoint render (ts : list (tokenType * string)) : string :=
  match ts with
  | [] => ""
  | [t] => render_tok t
  | t :: ts => render_tok t +:+ " " +:+ render ts
  end.

Fixpoint all_chars (p : ascii → bool) (s : string) : bool :=
  match s with EmptyString => true | String c r => p c && all_chars p r end.

Definition number_text (s : string) : bool :=
  match s with
  | String c r => isNumberStart c && all_chars (λ c, isDigit c || Ascii.eqb c ".") r
  | EmptyString => false
  end.

Definition identifier_text (s : string) : bool :=
  match s with
  | String c r =>
      isIdentifierStart c && all_chars isIdentifierPart r
      && negb ((ToLower s =?s "true") || (ToLower s =?s "false"))
  | EmptyString => false
  end.

Fixpoint wf_expr (e : expr) : bool :=
  match e with
  | ENum t => number_text t && match ParseFloat t with Some _ => true | None => false end
  | EStr _ | EBool _ => true
  | EIdent p => identifier_text p
  | ECmp op a b => is_cmp op && wf_expr a && wf_expr b
  | EAnd a b | EOr a b => wf_expr a && wf_expr b
  end.

(** ** The parser terminates *)

Section ParserFacts.
Context (sprint : value → string) (ctx : list (string * value)).
#[local] Abbreviation parsePrimary := (parsePrimary sprint ctx).
#[local] Abbreviation parseComparison := (parseComparison sprint).
#[local] Abbreviation parseAnd := (parseAnd sprint).
#[local] Abbreviation parseOr := (parseOr sprint).

(** On inputs of at most [N] tokens the parser has fuel and returns no more
    tokens than it was given. *)
Definition well_behaved (N : nat) (p : parser) : Prop :=
  ∀ ts, (length ts ≤ N)%nat →
    p ts ≠ Err OutOfFuel ∧ ∀ v ts', p ts = Ok (v, ts') → (length ts' ≤ length ts)%nat.

Lemma evaluateComparison_fuel op a b :
  evaluateComparison sprint op a b ≠ Err OutOfFuel.
Proof. unfold evaluateComparison. repeat case_match; done. Qed.

Lemma connective_fuel name f a b : connective name f a b ≠ Err OutOfFuel.
Proof. unfold connective. repeat case_match; done. Qed.

Lemma length_consume (ts : list token) : (length (consume ts) ≤ length ts)%nat.
Proof. destruct ts; cbn; lia. Qed.

Lemma length_consume_lt (ts : list token) :
  typ (current ts) ≠ tokenEOF → (length (consume ts) < length ts)%nat.
Proof. destruct ts; cbn; [done | lia]. Qed.

Lemma parseComparison_wb N p : well_behaved N p → well_behaved N (parseComparison p).
Proof.
  intros Hp ts Hts. unfold parseComparison.
  destruct (Hp ts Hts) as [Hf Hl].
  destruct (p ts) as [[l ts1]|e] eqn:E1; cbn; [|split; congruence].
  pose proof (Hl _ _ eq_refl) as H1.
  destruct (is_cmp _); [|split; [done | intros; simplify_eq; lia]].
  pose proof (length_consume ts1) as Hc.
  destruct (Hp (consume ts1) ltac:(lia)) as [Hf2 Hl2].
  destruct (p (consume ts1)) as [[r ts2]|e] eqn:E2; cbn; [|split; congruence].
  pose proof (Hl2 _ _ eq_refl) as H2.
  pose proof (evaluateComparison_fuel (typ (current ts1)) l r) as Hec.
  destruct (evaluateComparison _ _ _ _); cbn; [|split; congruence].
  split; [done | intros; simplify_eq; lia].
Qed.

Lemma chain_loop_wb N t name f p :
  t ≠ tokenEOF → well_behaved N p →
  ∀ n ts lhs, (length ts ≤ n)%nat → (length ts ≤ N)%nat →
    chain_loop n t name f p lhs ts ≠ Err OutOfFuel ∧
    ∀ v ts', chain_loop n t name f p lhs ts = Ok (v, ts') → (length ts' ≤ length ts)%nat.
Proof.
  intros Ht Hp. induction n as [|n IH]; intros ts lhs Hn HN; cbn.
  - case_decide as Hd; [|split; [done | intros; simplify_eq; lia]].
    destruct ts; cbn in *; [congruence | lia].
  - case_decide as Hd; [|split; [done | intros; simplify_eq; lia]].
    pose proof (length_consume_lt ts ltac:(congruence)) as Hc.
    destruct (Hp (consume ts) ltac:(lia)) as [Hf Hl].
    destruct (p (consume ts)) as [[r ts1]|e] eqn:E1; cbn; [|split; congruence].
    pose proof (Hl _ _ eq_refl) as H1.
    pose proof (connective_fuel name f lhs r) as Hcf.
    destruct (connective name f lhs r) as [v|e]; cbn; [|split; congruence].
    destruct (IH ts1 v ltac:(lia) ltac:(lia)) as [IH1 IH2].
    split; [done | intros v' ts' Hv; apply IH2 in Hv; lia].
Qed.

(** An operand followed by the loop over its connective. *)
Lemma chained_wb N t name f p (q : parser) :
  t ≠ tokenEOF → well_behaved N p →
  (∀ ts, q ts = ('(lhs, ts) ← p ts; chain_loop (length ts) t name f p lhs ts)) →
  well_behaved N q.
Proof.
  intros Ht Hp Hq ts Hts. rewrite Hq.
  destruct (Hp ts Hts) as [Hf Hl].
  destruct (p ts) as [[l ts1]|e] eqn:E1; cbn; [|split; congruence].
  pose proof (Hl _ _ eq_refl) as H1.
  destruct (chain_loop_wb N t name f p Ht Hp (length ts1) ts1 l) as [Ha Hb]; [lia..|].
  split; [done | intros v ts' Hv; apply Hb in Hv; lia].
Qed.

Lemma parseAnd_wb N p : well_behaved N p → well_behaved N (parseAnd p).
Proof.
  intros Hp. eapply (chained_wb N tokenAnd); [done | | reflexivity].
  by apply parseComparison_wb.
Qed.

Lemma parseOr_wb N p : well_behaved N p → well_behaved N (parseOr p).
Proof.
  intros Hp. eapply (chained_wb N tokenOr); [done | | reflexivity].
  by apply parseAnd_wb.
Qed.

Lemma parsePrimary_wb fuel N : (N < fuel)%nat → well_behaved N (parsePrimary fuel).
Proof.
  revert N. induction fuel as [|fuel IH]; intros N HN ts Hts; [lia|]. cbn.
  pose proof (length_consume ts) as Hc.
  destruct (typ (current ts)) eqn:Et; try (split; [done|]; intros; simplify_eq; lia).
  - destruct (lookupPath _ _); split; try done; intros; simplify_eq; lia.
  - destruct (ParseFloat _); split; try done; intros; simplify_eq; lia.
  - pose proof (length_consume_lt ts ltac:(congruence)) as Hlt.
    destruct (parseOr_wb (pred N) (parsePrimary fuel) (IH (pred N) ltac:(lia))
                (consume ts) ltac:(lia)) as [Hf Hl].
    destruct (parseOr _ _) as [[v ts1]|e]; cbn; [|split; congruence].
    pose proof (Hl _ _ eq_refl) as H1. pose proof (length_consume ts1) as H2.
    case_decide; [|done]. split; [done | intros; simplify_eq; lia].
Qed.

Lemma parseExpression_fuel ts : parseExpression sprint ctx ts ≠ Err OutOfFuel.
Proof.
  unfold parseExpression.
  apply (parseOr_wb (length ts) _ (parsePrimary_wb _ _ (Nat.lt_succ_diag_r _)) ts).
  lia.
Qed.
End ParserFacts.

(** ** The parser implements the reference semantics *)

Section ParserCorrect.
Context (sprint : value → string) (ctx : list (string * value)).
#[local] Abbreviation parsePrimary := (parsePrimary sprint ctx).
#[local] Abbreviation parseComparison := (parseComparison sprint).
#[local] Abbreviation parseAnd := (parseAnd sprint).
#[local] Abbreviation parseOr := (parseOr sprint).
#[local] Abbreviation eval := (eval sprint ctx).

Lemma shape_inv ts t x l :
  shape <$> ts = (t, x) :: l → ∃ p ts', ts = Token t x p :: ts' ∧ shape <$> ts' = l.
Proof.
  destruct ts as [|[ty tx p] ts']; cbn; [done|]. intros [=]; subst. eauto.
Qed.

(** Enough loop fuel is as good as more. *)
Lemma chain_loop_fuel N t name f p :
  t ≠ tokenEOF → well_behaved N p →
  ∀ n m ts lhs, (length ts ≤ n)%nat → (length ts ≤ m)%nat → (length ts ≤ N)%nat →
    chain_loop n t name f p lhs ts = chain_loop m t name f p lhs ts.
Proof.
  intros Ht Hp. induction n as [|n IH]; intros m ts lhs Hn Hm HN.
  - destruct ts; cbn in *; [|lia].
    destruct m; cbn; case_decide; cbn in *; congruence.
  - destruct m as [|m].
    + destruct ts; cbn in *; [|lia]. case_decide; congruence.
    + cbn. case_decide as Hd; [|done].
      pose proof (length_consume_lt ts ltac:(congruence)) as Hc.
      destruct (Hp (consume ts) ltac:(lia)) as [_ Hl].
      destruct (p (consume ts)) as [[r ts1]|e] eqn:E1; cbn; [|done].
      pose proof (Hl _ _ eq_refl). destruct (connective name f lhs r); cbn; [|done].
      apply IH; lia.
Qed.

Lemma chain_loop_stop n t name f p lhs ts :
  typ (current ts) ≠ t → chain_loop n t name f p lhs ts = Ok (lhs, ts).
Proof. intros H. destruct n; cbn; by case_decide. Qed.

(** What each level of the parser does on the tokens [ts] of [e] followed by
    [rest]. The connective levels leave their loop to run on [rest]. *)
Definition primary_ok (e : expr) : Prop := ∀ ts rest fuel,
  shape <$> ts = print 3 e → (length ts + length rest < fuel)%nat →
  parsePrimary fuel (ts ++ rest) = (λ v, (v, rest)) <$> eval e.

Definition comparison_ok (e : expr) : Prop := ∀ ts rest fuel,
  shape <$> ts = print 2 e → (length ts + length rest < fuel)%nat →
  is_cmp (typ (current rest)) = false →
  parseComparison (parsePrimary fuel) (ts ++ rest) = (λ v, (v, rest)) <$> eval e.

Definition and_ok (e : expr) : Prop := ∀ ts rest fuel n,
  shape <$> ts = print 1 e → (length ts + length rest < fuel)%nat →
  (length rest ≤ n)%nat → is_cmp (typ (current rest)) = false →
  parseAnd (parsePrimary fuel) (ts ++ rest) =
    (v ← eval e; chain_loop n tokenAnd "&&" andb
                   (parseComparison (parsePrimary fuel)) v rest).

Definition or_ok (e : expr) : Prop := ∀ ts rest fuel n,
  shape <$> ts = print 0 e → (length ts + length rest < fuel)%nat →
  (length rest ≤ n)%nat → is_cmp (typ (current rest)) = false →
  typ (current rest) ≠ tokenAnd →
  parseOr (parsePrimary fuel) (ts ++ rest) =
    (v ← eval e; chain_loop n tokenOr "||" orb
                   (parseAnd (parsePrimary fuel)) v rest).

Lemma chain_step n t name f p lhs q ts :
  typ q = t → (length ts ≤ n)%nat →
  chain_loop (S n) t name f p lhs (q :: ts) =
    ('(r, ts') ← p ts; v ← connective name f lhs r; chain_loop n t name f p v ts').
Proof. intros Hq Hn. cbn. by case_decide. Qed.

Lemma print_2_3 e : prec e ≠ 2%nat → print 2 e = print 3 e.
Proof. by destruct e. Qed.
Lemma print_1_2 e : prec e ≠ 1%nat → print 1 e = print 2 e.
Proof. by destruct e. Qed.
Lemma print_0_1 e : prec e ≠ 0%nat → print 0 e = print 1 e.
Proof. by destruct e. Qed.
Lemma print_3_paren e :
  prec e ≠ 3%nat → print 3 e = [sym tokenLParen] ++ print 0 e ++ [sym tokenRParen].
Proof. by destruct e. Qed.

Lemma paren_ok e : prec e ≠ 3%nat → or_ok e → primary_ok e.
Proof.
  intros Hp Hor ts rest fuel Hs Hf. rewrite print_3_paren in Hs by done.
  apply shape_inv in Hs as (p & ts1 & -> & Hs).
  apply fmap_app_inv in Hs as (ti & tc & Hti & Htc & ->).
  symmetry in Htc. apply shape_inv in Htc as (p' & tn & -> & Hn).
  apply fmap_nil_inv in Hn as ->.
  destruct fuel as [|fuel]; [lia|]. cbn in Hf. rewrite length_app in Hf. cbn in Hf.
  rewrite <- app_comm_cons, <- app_assoc. cbn -[chain_loop parseOr].
  rewrite (Hor ti _ fuel (S (length rest))); cbn; try done; try lia.
  destruct (eval e); done.
Qed.

Lemma primary_comparison e : prec e ≠ 2%nat → primary_ok e → comparison_ok e.
Proof.
  intros Hp Hprim ts rest fuel Hs Hf Hr. rewrite print_2_3 in Hs by done.
  unfold parseComparison. rewrite (Hprim ts rest fuel Hs Hf).
  destruct (eval e); cbn; [|done]. by rewrite Hr.
Qed.

Lemma comparison_and e : prec e ≠ 1%nat → comparison_ok e → and_ok e.
Proof.
  intros Hp Hc ts rest fuel n Hs Hf Hn Hr. rewrite print_1_2 in Hs by done.
  unfold parseAnd. rewrite (Hc ts rest fuel Hs) by (done || lia).
  destruct (eval e) as [v|]; cbn; [|done].
  eapply (chain_loop_fuel (length rest)); [done | | lia..].
  apply parseComparison_wb, parsePrimary_wb. lia.
Qed.

Lemma and_or e : prec e ≠ 0%nat → and_ok e → or_ok e.
Proof.
  intros Hp Ha ts rest fuel n Hs Hf Hn Hr Hr'. rewrite print_0_1 in Hs by done.
  unfold parseOr. rewrite (Ha ts rest fuel (length rest) Hs) by (done || lia).
  destruct (eval e) as [v|]; cbn; [|done].
  rewrite chain_loop_stop by done. cbn.
  eapply (chain_loop_fuel (length rest)); [done | | lia..].
  apply parseAnd_wb, parsePrimary_wb. lia.
Qed.

Lemma cmp_node op a b :
  is_cmp op = true → primary_ok a → primary_ok b → comparison_ok (ECmp op a b).
Proof.
  intros Hop Ha Hb ts rest fuel Hs Hf Hr. cbn in Hs.
  apply fmap_app_inv in Hs as (ta & tq & Hta & Htq & ->). symmetry in Hta, Htq.
  apply shape_inv in Htq as (p & tb & -> & Htb).
  rewrite length_app in Hf. cbn in Hf.
  unfold parseComparison. rewrite <- app_assoc.
  rewrite (Ha ta _ fuel Hta) by (rewrite length_app; cbn; rewrite ?length_app; lia).
  cbn. destruct (eval a) as [va|]; cbn; [|done]. rewrite Hop.
  rewrite (Hb tb rest fuel Htb) by lia.
  destruct (eval b) as [vb|]; cbn; [|done].
  by destruct (evaluateComparison sprint op va vb).
Qed.

Lemma and_node a b : and_ok a → comparison_ok b → and_ok (EAnd a b).
Proof.
  intros Ha Hb ts rest fuel n Hs Hf Hn Hr. cbn in Hs.
  apply fmap_app_inv in Hs as (ta & tq & Hta & Htq & ->). symmetry in Hta, Htq.
  apply shape_inv in Htq as (p & tb & -> & Htb).
  rewrite length_app in Hf. cbn in Hf. rewrite <- app_assoc.
  rewrite (Ha ta _ fuel (S (length tb + n)) Hta)
    by (cbn; rewrite ?length_app; done || lia).
  cbn -[chain_loop]. destruct (eval a) as [va|]; cbn -[chain_loop]; [|done].
  rewrite chain_step by (rewrite ?length_app; done || lia).
  rewrite (Hb tb rest fuel Htb) by (done || lia).
  destruct (eval b) as [vb|]; cbn -[chain_loop]; [|done].
  destruct (connective "&&" andb va vb) as [v|]; cbn -[chain_loop]; [|done].
  eapply (chain_loop_fuel (length rest)); [done | | lia..].
  apply parseComparison_wb, parsePrimary_wb. lia.
Qed.

Lemma or_node a b : or_ok a → and_ok b → or_ok (EOr a b).
Proof.
  intros Ha Hb ts rest fuel n Hs Hf Hn Hr Hr'. cbn in Hs.
  apply fmap_app_inv in Hs as (ta & tq & Hta & Htq & ->). symmetry in Hta, Htq.
  apply shape_inv in Htq as (p & tb & -> & Htb).
  rewrite length_app in Hf. cbn in Hf. rewrite <- app_assoc.
  rewrite (Ha ta _ fuel (S (length tb + n)) Hta)
    by (cbn; rewrite ?length_app; done || lia).
  cbn -[chain_loop]. destruct (eval a) as [va|]; cbn -[chain_loop]; [|done].
  rewrite chain_step by (rewrite ?length_app; done || lia).
  rewrite (Hb tb rest fuel (length rest) Htb) by (done || lia).
  destruct (eval b) as [vb|]; cbn -[chain_loop]; [|done].
  rewrite chain_loop_stop by done. cbn -[chain_loop].
  destruct (connective "||" orb va vb) as [v|]; cbn -[chain_loop]; [|done].
  eapply (chain_loop_fuel (length rest)); [done | | lia..].
  apply parseAnd_wb, parsePrimary_wb. lia.
Qed.

Lemma atom_node e :
  prec e = 3%nat → wf_expr e = true → primary_ok e.
Proof.
  intros Hp Hwf ts rest fuel Hs Hf. destruct fuel as [|fuel]; [lia|].
  destruct e; try done; cbn in Hs; apply shape_inv in Hs as (p & ts' & -> & Hn);
    apply fmap_nil_inv in Hn as ->; cbn -[lookupPath] in Hwf |- *.
  - apply andb_prop in Hwf as [_ Hwf]. by destruct (ParseFloat txt).
  - done.
  - by destruct b.
  - by destruct (lookupPath ctx path).
Qed.

Lemma atom_levels e :
  prec e = 3%nat → wf_expr e = true →
  primary_ok e ∧ comparison_ok e ∧ and_ok e ∧ or_ok e.
Proof.
  intros Hp Hwf.
  assert (primary_ok e) by (by apply atom_node).
  assert (comparison_ok e) by (apply primary_comparison; [lia | done]).
  assert (and_ok e) by (apply comparison_and; [lia | done]).
  split_and!; [done.. | apply and_or; [lia | done]].
Qed.

Lemma parser_levels e :
  wf_expr e = true → primary_ok e ∧ comparison_ok e ∧ and_ok e ∧ or_ok e.
Proof.
  induction e as [t|s|b|p|op a IHa b IHb|a IHa b IHb|a IHa b IHb]; intros Hwf.
  1-4: by apply atom_levels.
  all: cbn in Hwf; bool_simpl;
    destruct IHa as (Pa & Ca & Aa & Oa); [done|];
    destruct IHb as (Pb & Cb & Ab & Ob); [done|].
  - assert (comparison_ok (ECmp op a b)) by (by apply cmp_node).
    assert (and_ok (ECmp op a b)) by (by apply comparison_and).
    assert (or_ok (ECmp op a b)) by (by apply and_or).
    split_and!; [by apply paren_ok | done..].
  - assert (and_ok (EAnd a b)) by (by apply and_node).
    assert (or_ok (EAnd a b)) by (by apply and_or).
    assert (primary_ok (EAnd a b)) by (by apply paren_ok).
    split_and!; [done | by apply primary_comparison | done..].
  - assert (or_ok (EOr a b)) by (by apply or_node).
    assert (primary_ok (EOr a b)) by (by apply paren_ok).
    assert (comparison_ok (EOr a b)) by (by apply primary_comparison).
    split_and!; [done | done | by apply comparison_and | done].
Qed.

(** The whole parser on the tokens of an expression. *)
Lemma parseExpression_correct e ts rest :
  wf_expr e = true → shape <$> ts = print 0 e →
  typ (current rest) = tokenEOF →
  parseExpression sprint ctx (ts ++ rest) = (λ v, (v, rest)) <$> eval e.
Proof.
  intros Hwf Hs Hr. destruct (parser_levels e Hwf) as (_ & _ & _ & Ho).
  unfold parseExpression.
  rewrite (Ho ts rest _ (length rest) Hs); rewrite ?Hr; try done.
  - destruct (eval e) as [v|]; cbn -[chain_loop]; [|done].
    by rewrite chain_loop_stop by congruence.
  - rewrite length_app. lia.
Qed.
End ParserCorrect.

(** ** The tokenizer reads rendered text back *)

Definition wf_tok (t : tokenType * string) : bool :=
  match t.1 with
  | tokenNumber => number_text t.2
  | tokenIdentifier => identifier_text t.2
  | tokenString => true
  | tokenBool => (t.2 =?s "true") || (t.2 =?s "false")
  | tokenEOF => false
  | k => t.2 =?s op_text k
  end.

(** Text after a token: nothing, or something that starts with a space. *)
Definition separated (rest : string) : Prop := rest = "" ∨ ∃ r, rest = String " " r.

(** A byte that is no white space, operator, parenthesis or quote. *)
Definition plain (c : ascii) : bool :=
  negb (is_ws c || Ascii.eqb c "(" || Ascii.eqb c ")" || Ascii.eqb c "&"
        || Ascii.eqb c "|" || Ascii.eqb c "=" || Ascii.eqb c "!" || Ascii.eqb c "<"
        || Ascii.eqb c ">" || Ascii.eqb c "'" || Ascii.eqb c "034").

Lemma number_start_plain c : isNumberStart c = true → plain c = true.
Proof. apply implb_true_iff. revert c. by_bytes. Qed.

Lemma identifier_start_plain c :
  isIdentifierStart c = true → plain c = true ∧ isNumberStart c = false.
Proof.
  intros H. rewrite <- negb_true_iff. apply andb_true_iff. revert H.
  apply implb_true_iff. revert c. by_bytes.
Qed.

Lemma tokenize_plain f c r i :
  plain c = true →
  tokenize_from (S f) (String c r) i =
    if isNumberStart c then
      let '(w, rest) := scan_while (λ c, isDigit c || Ascii.eqb c ".") r in
      cons (Token tokenNumber (String c w) i) <$> tokenize_from f rest (i + 1 + slen w)
    else if isIdentifierStart c then
      let '(w, rest) := scan_while isIdentifierPart r in
      let word := String c w in
      let lw := ToLower word in
      let tok := if (lw =?s "true") || (lw =?s "false")
                 then Token tokenBool lw i else Token tokenIdentifier word i in
      cons tok <$> tokenize_from f rest (i + 1 + slen w)
    else Err (ErrSyntax i ("unexpected character " +:+ String c "")).
Proof.
  unfold plain. intros H. bool_simpl.
  assert (Hs : ∀ a b, Ascii.eqb c a = false → starts (String c r) a b = false).
  { intros a b Ha. cbn. destruct r; [done|]. by rewrite Ha. }
  cbn -[starts ToLower isNumberStart isIdentifierStart].
  rewrite !Hs by done.
  repeat match goal with H : _ = false |- _ => rewrite H; clear H end. done.
Qed.

Lemma scan_while_app p w rest :
  all_chars p w = true →
  match rest with EmptyString => True | String c _ => p c = false end →
  scan_while p (w +:+ rest) = (w, rest).
Proof.
  intros Hw Hr. induction w as [|c w IH].
  - rewrite string_app_nil. destruct rest as [|d rest]; cbn; [done|]. by rewrite Hr.
  - cbn in Hw. bool_simpl. rewrite string_app_cons. cbn. rewrite H, IH; done.
Qed.

Lemma scan_string_escape s rest :
  ∃ n, scan_string "'" (escape s +:+ "'" +:+ rest) = ScanDone s rest n.
Proof.
  induction s as [|c s [n IH]]; [by eexists|]. cbn [escape].
  destruct (Ascii.eqb c "\") eqn:E1; cbn [orb].
  - apply Ascii.eqb_eq in E1 as ->. do 2 rewrite string_app_cons. cbn. rewrite IH.
    by eexists.
  - destruct (Ascii.eqb c "'") eqn:E2; rewrite string_app_cons;
      [rewrite string_app_cons|]; cbn.
    + apply Ascii.eqb_eq in E2 as ->. cbn. rewrite IH. by eexists.
    + rewrite E1, E2, IH. by eexists.
Qed.

Lemma separated_head p rest :
  separated rest → p " "%char = false →
  match rest with EmptyString => True | String c _ => p c = false end.
Proof. intros [->|[r ->]]; done. Qed.

Lemma tokenize_quote f r i :
  tokenize_from (S f) (String "'" r) i =
    match scan_string "'" r with
    | ScanBadEscape => Err (ErrSyntax i "unterminated escape sequence")
    | ScanUnterminated => Err (ErrSyntax i "unterminated string literal")
    | ScanDone txt rest n =>
        cons (Token tokenString txt i) <$> tokenize_from f rest (i + 1 + n)
    end.
Proof. by destruct r. Qed.

(** One token is read off the front of the text. *)
Lemma tokenize_step f t rest i :
  wf_tok t = true → separated rest →
  ∃ j, tokenize_from (S f) (render_tok t +:+ rest) i =
         cons (Token t.1 t.2 i) <$> tokenize_from f rest j.
Proof.
  destruct t as [k x]. intros Hwf Hsep. destruct k; cbn in Hwf; try done.
  5-14: apply String.eqb_eq in Hwf as ->;
    destruct Hsep as [->|[r ->]]; eexists; reflexivity.
  - unfold identifier_text in Hwf. destruct x as [|c w]; [done|]. bool_simpl.
    destruct (identifier_start_plain c) as [Hp Hn]; [done|].
    change (render_tok (tokenIdentifier, String c w) +:+ rest)
      with (String c (w +:+ rest)).
    rewrite (tokenize_plain f c (w +:+ rest) i Hp), Hn, H.
    rewrite (scan_while_app _ w rest) by (done || by apply separated_head).
    cbv zeta. rewrite_tests. by eexists.
  - unfold number_text in Hwf. destruct x as [|c w]; [done|]. bool_simpl.
    change (render_tok (tokenNumber, String c w) +:+ rest)
      with (String c (w +:+ rest)).
    rewrite (tokenize_plain f c (w +:+ rest) i) by (by apply number_start_plain).
    rewrite H, (scan_while_app _ w rest) by (done || by apply separated_head).
    by eexists.
  - change (render_tok (tokenString, x)) with ("'" +:+ (escape x +:+ "'")).
    rewrite !string_app_assoc. destruct (scan_string_escape x rest) as [n Hn].
    rewrite string_app_cons, string_app_nil, tokenize_quote, Hn. by eexists.
  - apply orb_true_iff in Hwf as [H|H]; apply String.eqb_eq in H as ->;
      destruct Hsep as [->|[r ->]]; eexists; reflexivity.
Qed.

Lemma tokenize_render_from toks : Forall (λ t, wf_tok t = true) toks →
  ∀ f i, (2 * length toks ≤ S f)%nat →
    ∃ ts j, tokenize_from (S f) (render toks) i = Ok (ts ++ [Token tokenEOF "" j])
          ∧ shape <$> ts = toks.
Proof.
  induction 1 as [|t toks Ht Hts IH]; intros f i Hf.
  - exists [], i. done.
  - destruct f as [|f]; [cbn in Hf; lia|]. cbn in Hf.
    destruct toks as [|t' toks].
    + destruct (tokenize_step (S f) t "" i Ht (or_introl eq_refl)) as [j Hj].
      rewrite string_app_nil_r in Hj.
      exists [Token t.1 t.2 i], j. change (render [t]) with (render_tok t).
      rewrite Hj. by destruct t.
    + change (render (t :: t' :: toks))
        with (render_tok t +:+ (String " " (render (t' :: toks)))).
      destruct (tokenize_step (S f) t (String " " (render (t' :: toks))) i Ht)
        as [j Hj]; [right; eauto|]. rewrite Hj.
      destruct f as [|f]; [cbn in *; lia|].
      destruct (IH f (j + 1)) as (ts & j' & Hts' & Hsh); [cbn in *; lia|].
      exists (Token t.1 t.2 i :: ts), j'.
      change (tokenize_from (S (S f)) (String " " (render (t' :: toks))) j)
        with (tokenize_from (S f) (render (t' :: toks)) (j + 1)).
      rewrite Hts'. cbn. rewrite Hsh. by destruct t.
Qed.

(** ** Rendered text has no white space at its ends *)

Definition tight (s : string) : Prop :=
  trim_left s = s ∧ trim_right s = s ∧ s ≠ "".

Lemma tight_TrimSpace s : tight s → TrimSpace s = s.
Proof. intros (H1 & H2 & _). unfold TrimSpace. by rewrite H1. Qed.

Lemma trim_right_app a b : trim_right b ≠ "" → trim_right (a +:+ b) = a +:+ trim_right b.
Proof.
  intros Hb. induction a as [|c a IH]; [done|].
  rewrite !string_app_cons. cbn. rewrite IH.
  destruct (a +:+ trim_right b) eqn:E; [|done].
  destruct a; [by rewrite string_app_nil in E | done].
Qed.

Lemma tight_app a b : tight a → trim_right b = b → b ≠ "" → tight (a +:+ b).
Proof.
  intros (H1 & H2 & H3) Hb Hn. split_and!.
  - destruct a as [|c a]; [done|]. rewrite string_app_cons. cbn in H1 |- *.
    destruct (is_space c) eqn:Hc; [|done]. exfalso.
    assert (trim_left (String c a) = String c a) as Hi by (cbn; by rewrite Hc).
    pose proof (trim_left_idem (String c a)) as Hj. cbn in Hj. rewrite Hc in Hj.
    assert (Hl : ∀ t, (String.length (trim_left t) ≤ String.length t)%nat).
    { induction t as [|d t IH]; cbn; [lia|]. destruct (is_space d); cbn; lia. }
    specialize (Hl a). rewrite H1 in Hl. cbn in Hl. lia.
  - rewrite trim_right_app by (by rewrite Hb). by rewrite Hb.
  - by destruct a.
Qed.

Lemma tight_chars s : all_chars (λ c, negb (is_space c)) s = true → s ≠ "" → tight s.
Proof.
  intros Hs Hn. split_and!; [| |done].
  - destruct s as [|c s]; [done|]. cbn in *. bool_simpl. by rewrite_tests.
  - clear Hn. induction s as [|c s IH]; [done|]. cbn in *. bool_simpl.
    rewrite IH by done. destruct s; [by rewrite_tests | done].
Qed.

Lemma all_chars_impl p q s :
  (∀ c, p c = true → q c = true) → all_chars p s = true → all_chars q s = true.
Proof.
  intros Hpq. induction s as [|c s IH]; cbn; [done|]. intros H. bool_simpl.
  apply andb_true_iff; eauto.
Qed.

Lemma identifier_part_nonspace c : isIdentifierPart c = true → negb (is_space c) = true.
Proof. apply implb_true_iff. revert c. by_bytes. Qed.

Lemma identifier_start_part c : isIdentifierStart c = true → isIdentifierPart c = true.
Proof. apply implb_true_iff. revert c. by_bytes. Qed.

Lemma number_char_nonspace c :
  isNumberStart c || (isDigit c || Ascii.eqb c ".") = true → negb (is_space c) = true.
Proof. apply implb_true_iff. revert c. by_bytes. Qed.

Lemma render_tok_tight t : wf_tok t = true → tight (render_tok t).
Proof.
  destruct t as [k x]. intros Hwf. destruct k; cbn in Hwf; try done.
  5-14: apply String.eqb_eq in Hwf as ->; by apply tight_chars.
  - unfold identifier_text in Hwf. destruct x as [|c w]; [done|]. bool_simpl.
    apply tight_chars; [|done].
    apply (all_chars_impl isIdentifierPart); [apply identifier_part_nonspace|].
    cbn. by rewrite identifier_start_part.
  - unfold number_text in Hwf. destruct x as [|c w]; [done|]. bool_simpl.
    apply tight_chars; [|done]. cbn. apply andb_true_iff. split.
    + apply number_char_nonspace. by rewrite H.
    + eapply all_chars_impl; [|done]. intros d Hd. apply number_char_nonspace.
      rewrite Hd. apply orb_true_r.
  - change (tight ("'" +:+ (escape x +:+ "'"))).
    assert (Hr : trim_right (escape x +:+ "'") = escape x +:+ "'")
      by (by apply trim_right_app).
    apply tight_app; [by apply tight_chars | done |]. by destruct (escape x).
  - apply orb_true_iff in Hwf as [H|H]; apply String.eqb_eq in H as ->;
      by apply tight_chars.
Qed.

Lemma render_tight toks :
  Forall (λ t, wf_tok t = true) toks → toks ≠ [] → tight (render toks).
Proof.
  induction 1 as [|t toks Ht Hts IH]; [done|]. intros _.
  pose proof (render_tok_tight t Ht) as Htt.
  destruct toks as [|t' toks]; [done|].
  change (tight (render_tok t +:+ (" " +:+ render (t' :: toks)))).
  destruct (IH ltac:(done)) as (_ & Hr & Hn).
  apply tight_app; [done | | done].
  rewrite trim_right_app by (by rewrite Hr). by rewrite Hr.
Qed.

Lemma render_length toks :
  Forall (λ t, wf_tok t = true) toks →
  (2 * length toks ≤ S (String.length (render toks)))%nat.
Proof.
  induction 1 as [|t toks Ht Hts IH]; [cbn; lia|].
  assert (1 ≤ String.length (render_tok t))%nat as H1.
  { destruct (render_tok_tight t Ht) as (_ & _ & Hn).
    destruct (render_tok t); cbn; [done | lia]. }
  destruct toks as [|t' toks]; [cbn [length render] in *; lia|].
  change (render (t :: t' :: toks)) with (render_tok t +:+ (" " +:+ render (t' :: toks))).
  rewrite !length_string_app. cbn [length String.length] in *. lia.
Qed.

Lemma print_nonempty lvl e : print lvl e ≠ [].
Proof.
  revert lvl. induction e; intros lvl; cbn; destruct (_ <=? _)%nat; try done;
    match goal with IH : ∀ _, print _ ?a ≠ [] |- print ?l ?a ++ _ ≠ [] =>
      specialize (IH l); destruct (print l a); done end.
Qed.

Lemma print_wf e : wf_expr e = true → ∀ lvl, Forall (λ t, wf_tok t = true) (print lvl e).
Proof.
  assert (Hp : ∀ (b : bool) body, Forall (λ t, wf_tok t = true) body →
    Forall (λ t, wf_tok t = true)
      (if b then body else [sym tokenLParen] ++ body ++ [sym tokenRParen])).
  { intros b body Hb. destruct b; [done|].
    repeat (apply Forall_app; split); repeat constructor; done. }
  induction e as [t|s|b|p|op a IHa b IHb|a IHa b IHb|a IHa b IHb];
    cbn [wf_expr]; intros Hwf lvl; cbn [print]; apply Hp; bool_simpl.
  1-4: repeat constructor; cbn; try done; by destruct b.
  all: apply Forall_app; split; [by auto|]; constructor; [|by auto]; try done.
  by destruct op.
Qed.

(** ** The tokenizer terminates *)

Lemma scan_while_length p s : (String.length (scan_while p s).2 ≤ String.length s)%nat.
Proof.
  induction s as [|c s IH]; cbn; [lia|]. destruct (p c); cbn; [|lia].
  destruct (scan_while p s); cbn in *. lia.
Qed.

Lemma scan_string_length q s :
  ∀ s', (String.length s' ≤ String.length s)%nat →
  ∀ txt rest n, scan_string q s' = ScanDone txt rest n →
    (String.length rest < String.length s')%nat.
Proof.
  induction s as [|c s IH]; intros [|c' s'] Hl txt rest n Hs; cbn in *; try done; [lia|].
  destruct (Ascii.eqb c' "\").
  - destruct s' as [|d s']; [done|]. cbn in Hl.
    destruct (scan_string q s') eqn:E; simplify_eq. apply IH in E; cbn; lia.
  - destruct (Ascii.eqb c' q); simplify_eq; cbn; [lia|].
    destruct (scan_string q s') eqn:E; simplify_eq. apply IH in E; lia.
Qed.

Lemma drop2_length s : (String.length (drop2 s) ≤ pred (String.length s))%nat.
Proof. destruct s as [|c [|d s]]; cbn; lia. Qed.

Lemma fmap_fuel {A B} (g : A → B) (r : result A) :
  r ≠ Err OutOfFuel → g <$> r ≠ Err OutOfFuel.
Proof. destruct r; cbn; congruence. Qed.

Lemma tokenize_from_fuel f : ∀ s i,
  (String.length s < f)%nat → tokenize_from f s i ≠ Err OutOfFuel.
Proof.
  induction f as [|f IH]; intros s i Hl; [lia|].
  destruct s as [|c r]; [done|]. cbn in Hl.
  pose proof (drop2_length (String c r)) as H2. cbn in H2.
  cbn [tokenize_from].
  repeat match goal with
  | |- (if ?b then _ else _) ≠ _ => destruct b
  end; try done; try (apply fmap_fuel, IH; cbn -[drop2] in *; lia); try (apply IH; lia).
  - destruct (scan_string c r) eqn:E; try done.
    apply fmap_fuel, IH. eapply scan_string_length in E; [|done]. lia.
  - destruct (scan_while _ r) as [w rest] eqn:E. apply fmap_fuel, IH.
    pose proof (scan_while_length (λ c, isDigit c || Ascii.eqb c ".") r). rewrite E in *. cbn in *. lia.
  - destruct (scan_while _ r) as [w rest] eqn:E. apply fmap_fuel, IH.
    pose proof (scan_while_length isIdentifierPart r). rewrite E in *. cbn in *. lia.
Qed.

(** ** Properties *)

(** C17. [Evaluate] implements the reference semantics: on the text of any
    well-formed expression it returns what the expression denotes, coerced to a
    boolean, including every type error and unknown-field error in the order the
    operands are evaluated; the connectives do not short-circuit. *)
Theorem Evaluate_correct sprint ctx e :
  wf_expr e = true →
  Evaluate sprint ctx (render (print 0 e)) =
    (v ← eval sprint ctx e;
     match asBool v with Some b => Ok b | None => Err ErrExpressionTypeMismatch end).
Proof.
  intros Hwf. pose proof (print_wf e Hwf 0) as Hp.
  pose proof (render_tight _ Hp (print_nonempty 0 e)) as Ht.
  unfold Evaluate. rewrite (tight_TrimSpace _ Ht).
  destruct (String.eqb_spec (render (print 0 e)) "") as [E|_]; [by destruct Ht as (_ & _ & ?)|].
  destruct (tokenize_render_from _ Hp (String.length (render (print 0 e))) 0)
    as (ts & j & Hts & Hsh); [by apply render_length|].
  unfold tokenize. rewrite Hts. cbn -[parseExpression].
  rewrite (parseExpression_correct sprint ctx e ts [Token tokenEOF "" j]) by done.
  destruct (eval sprint ctx e) as [v|]; cbn; [|done]. by destruct (asBool v).
Qed.

Lemma Evaluate_correct_witness :
  let ctx := [("amount", VFloat (of_int 700)); ("vip", VBool false)] in
  let e := EOr (EIdent "vip")
             (EAnd (ECmp tokenGt (EIdent "amount") (ENum "500")) (EBool true)) in
  wf_expr e = true ∧
  Evaluate (λ _, "") ctx (render (print 0 e)) =
    (v ← eval (λ _, "") ctx e;
     match asBool v with Some b => Ok b | None => Err ErrExpressionTypeMismatch end).
Proof.
  split; [vm_compute; reflexivity|]. apply Evaluate_correct. vm_compute. reflexivity.
Defined.

Example Evaluate_example :
  let ctx := [("amount", VFloat (of_int 700)); ("vip", VBool false)] in
  Evaluate (λ _, "") ctx "vip || amount >= 700 && TRUE" = Ok true.
Proof. vm_compute. reflexivity. Qed.

(** [Evaluate] terminates on every text: neither the tokenizer nor the
    recursive descent runs out of the fuel it is given (the length of the text,
    the number of tokens). *)
Theorem Evaluate_terminates sprint ctx s : Evaluate sprint ctx s ≠ Err OutOfFuel.
Proof.
  unfold Evaluate. destruct (TrimSpace s =?s ""); [done|].
  pose proof (tokenize_from_fuel (S (String.length (TrimSpace s))) (TrimSpace s) 0
                (Nat.lt_succ_diag_r _)) as Ht.
  unfold tokenize. destruct (tokenize_from _ _ _) as [ts|e]; cbn -[parseExpression]; [|congruence].
  pose proof (parseExpression_fuel sprint ctx ts) as Hp.
  destruct (parseExpression sprint ctx ts) as [[v rest]|e]; cbn; [|congruence].
  case_decide; [|congruence]. by destruct (asBool v).
Qed.

Definition number_is_nan (v : value) : bool :=
  match asFloat v with Some f => is_nan f | None => false end.

(** Comparison operators come in complementary pairs: whenever one of a pair
    is defined so is the other, and they disagree.  For [==]/[!=] always; for
    [<]/[>=] and [>]/[<=] unless an operand is a NaN. *)
Theorem comparison_complement sprint l r :
  number_is_nan l = false → number_is_nan r = false →
  evaluateComparison sprint tokenNe l r = negb <$> evaluateComparison sprint tokenEq l r ∧
  evaluateComparison sprint tokenGe l r = negb <$> evaluateComparison sprint tokenLt l r ∧
  evaluateComparison sprint tokenLe l r = negb <$> evaluateComparison sprint tokenGt l r.
Proof.
  unfold number_is_nan, evaluateComparison. intros Hl Hr.
  assert (Hs : ∀ a b, String.leb a b = negb (String.ltb b a)).
  { intros a b. unfold String.leb, String.ltb. rewrite String.compare_antisym.
    by destruct (String.compare b a). }
  destruct (asFloat l) as [f|], (asFloat r) as [g|]; cbn;
    rewrite ?(fleb_fltb_negb g f), ?(fleb_fltb_negb f g) by done; try done;
    destruct (asBool l); cbn; try (by rewrite !Hs); by destruct (asBool r).
Qed.

Lemma comparison_complement_witness :
  evaluateComparison (λ _, "") tokenGe (VString "5") (VFloat (of_int 6)) =
    negb <$> evaluateComparison (λ _, "") tokenLt (VString "5") (VFloat (of_int 6)).
Proof. apply comparison_complement; vm_compute; reflexivity. Defined.

(** Equality is not symmetric: the rules are chosen by the left operand, so a
    text compared with a number is an (unequal) text comparison while the same
    number compared with the text is a type error. *)
Theorem comparison_asymmetric sprint s f :
  ParseFloat (TrimSpace s) = None → asBool (VString s) = None →
  evaluateComparison sprint tokenEq (VString s) (VFloat f) = Ok (s =?s sprint (VFloat f)) ∧
  evaluateComparison sprint tokenEq (VFloat f) (VString s) =
    Err (ErrType "numeric comparison with non-numeric right operand").
Proof. intros Hf Hb. unfold evaluateComparison. cbn [asFloat]. by rewrite Hf, Hb. Qed.

Lemma comparison_asymmetric_witness :
  evaluateComparison (λ _, "5") tokenEq (VString "abc") (VFloat (of_int 5)) = Ok false ∧
  evaluateComparison (λ _, "5") tokenEq (VFloat (of_int 5)) (VString "abc") =
    Err (ErrType "numeric comparison with non-numeric right operand").
Proof. apply (comparison_asymmetric (λ _, "5")); vm_compute; reflexivity. Defined.
