(* ===== verification/RetryPolicy.v ===== *)
(** * Task failure classification and retries (internal/exception/classifier.go,
    and the retry decision of internal/exception/service.go)

    Error codes and their class, the effective retry policy of a task, the
    backoff before an attempt in 64-bit nanoseconds, and the decision that
    [HandleTaskFailure] takes for one failure. *)

From Stdlib Require Import Ascii String ZArith Lia.
From stdpp Require Import base list strings sets.
From S2P Require Import Prelude.

Open Scope go_scope.

(** ** Data *)

Inductive ErrorClass := ErrorClassTransient | ErrorClassPermanent | ErrorClassUnknown.

#[export] Instance ErrorClass_eq_dec : EqDecision ErrorClass.
Proof. solve_decision. Defined.

Record TaskRetryPolicy := {
  MaxRetries : Z;
  BackoffStrategy : string;
  BaseIntervalSeconds : Z;
  MaxIntervalSeconds : Z;
  RetryableErrorCodes : list string;
}.

(** The fields of [model.TaskDefinitionV2] that failure handling reads. *)
Record TaskDef := {
  td_code : string;
  td_retry_policy : option TaskRetryPolicy;
  td_failure_severity : string;
  td_escalate_case_on_failure : bool;
  td_poison_pill_threshold : Z;
}.

(** What [ExtractErrorCode] asks of an error value: the code it carries
    ([errors.As] to an [ErrorCodeCarrier]), whether it is a deadline error,
    whether it is a network timeout, and its message. *)
Record GoError := {
  ge_code : option string;
  ge_deadline_exceeded : bool;
  ge_net_timeout : bool;
  ge_message : string;
}.

(** ** Classification *)

Definition transientErrorCodes : list string :=
  ["DOWNSTREAM_TIMEOUT"; "NETWORK_TIMEOUT"; "DB_DEADLOCK"; "DOWNSTREAM_503";
   "SERVICE_UNAVAILABLE"; "CONNECTION_RESET"; "CONNECTION_REFUSED";
   "TEMPORARY_UNAVAILABLE"; "THROTTLED"].

Definition permanentErrorCodes : list string :=
  ["VALIDATION_FAILED"; "MALFORMED_PAYLOAD"; "MISSING_REQUIRED_FIELD";
   "BUSINESS_RULE_VIOLATION"; "UNAUTHORIZED"; "FORBIDDEN"; "NOT_FOUND"].

Definition NormalizeErrorCode (raw : string) : string :=
  let trimmed := TrimSpace raw in
  if trimmed =?s "" then ""
  else ToUpper (ReplaceByte " " "_" (ReplaceByte "-" "_" trimmed)).

Definition mem (s : string) (l : list string) : bool := existsb (String.eqb s) l.

Definition ClassifyErrorCode (code : string) : ErrorClass :=
  let normalized := NormalizeErrorCode code in
  if normalized =?s "" then ErrorClassUnknown
  else if mem normalized transientErrorCodes then ErrorClassTransient
  else if mem normalized permanentErrorCodes then ErrorClassPermanent
  else ErrorClassUnknown.

(** The code guessed from the lower-cased text of an error. *)
Definition message_code (message : string) : string :=
  if Contains message "deadlock" then "DB_DEADLOCK"
  else if Contains message "503" || Contains message "service unavailable"
  then "DOWNSTREAM_503"
  else if Contains message "timeout" then "DOWNSTREAM_TIMEOUT"
  else if Contains message "missing required" then "MISSING_REQUIRED_FIELD"
  else if Contains message "validation" then "VALIDATION_FAILED"
  else if Contains message "malformed" then "MALFORMED_PAYLOAD"
  else if Contains message "business rule" then "BUSINESS_RULE_VIOLATION"
  else if Contains message "unauthorized" then "UNAUTHORIZED"
  else if Contains message "forbidden" then "FORBIDDEN"
  else if Contains message "not found" then "NOT_FOUND"
  else "UNKNOWN_ERROR".

(** [None] is a nil error. *)
Definition ExtractErrorCode (err : option GoError) : string :=
  match err with
  | None => "UNKNOWN_ERROR"
  | Some e =>
      let coded := match ge_code e with Some c => NormalizeErrorCode c | None => "" end in
      if negb (coded =?s "") then coded
      else if ge_deadline_exceeded e then "DOWNSTREAM_TIMEOUT"
      else if ge_net_timeout e then "NETWORK_TIMEOUT"
      else message_code (ToLower (ge_message e))
  end.

(** ** Effective policy *)

Definition is_strategy (s : string) : bool :=
  (s =?s "FIXED") || (s =?s "LINEAR") || (s =?s "EXPONENTIAL").

(** The normalized codes without blanks and repetitions, first occurrence kept. *)
Fixpoint normalize_codes (codes seen : list string) : list string :=
  match codes with
  | [] => []
  | code :: codes =>
      let normalized := NormalizeErrorCode code in
      if normalized =?s "" then normalize_codes codes seen
      else if mem normalized seen then normalize_codes codes seen
      else normalized :: normalize_codes codes (normalized :: seen)
  end.

Definition ResolveRetryPolicy (taskDef : TaskDef) : TaskRetryPolicy :=
  match td_retry_policy taskDef with
  | None =>
      {| MaxRetries := 3; BackoffStrategy := "EXPONENTIAL"; BaseIntervalSeconds := 5;
         MaxIntervalSeconds := 300; RetryableErrorCodes := [] |}
  | Some p =>
      let maxRetries := if 0 <=? MaxRetries p then MaxRetries p else 3 in
      let base := if 0 <? BaseIntervalSeconds p then BaseIntervalSeconds p else 5 in
      let maxInterval := if 0 <? MaxIntervalSeconds p then MaxIntervalSeconds p else 300 in
      let strategy :=
        if is_strategy (BackoffStrategy p) then BackoffStrategy p else "EXPONENTIAL" in
      {| MaxRetries := if maxRetries <? 0 then 0 else maxRetries;
         BackoffStrategy := strategy;
         BaseIntervalSeconds := base;
         MaxIntervalSeconds := if maxInterval <? base then base else maxInterval;
         RetryableErrorCodes := normalize_codes (RetryableErrorCodes p) [] |}
  end.

(** [config] is the case type's own threshold, [None] for a nil config. *)
Definition ResolvePoisonPillThreshold (taskDef : TaskDef) (config : option Z) : Z :=
  if 0 <? td_poison_pill_threshold taskDef then td_poison_pill_threshold taskDef
  else match config with
       | Some t => if 0 <? t then t else 12
       | None => 12
       end.

Definition ResolveFailureSeverity (taskDef : TaskDef) : string :=
  if mem (td_failure_severity taskDef) ["LOW"; "MEDIUM"; "HIGH"; "CRITICAL"; "BLOCKING"]
  then td_failure_severity taskDef else "BLOCKING".

Definition ShouldEscalateCase (taskDef : TaskDef) (class : ErrorClass)
    (retriesExhausted : bool) : bool :=
  let severity := ResolveFailureSeverity taskDef in
  if td_escalate_case_on_failure taskDef then true
  else if (severity =?s "CRITICAL") || (severity =?s "BLOCKING") then
    bool_decide (class = ErrorClassPermanent) || retriesExhausted
  else false.

(** ** Backoff *)

(** The doubling loop: [k] iterations are left. *)
Fixpoint double_loop (k : nat) (interval maxInterval : Z) : Z :=
  match k with
  | O => interval
  | S k =>
      if maxInterval <=? interval then maxInterval
      else if int_div maxInterval 2 <? interval then maxInterval
      else double_loop k (wrap64 (interval * 2)) maxInterval
  end.

Definition ComputeBackoffDuration (policy : TaskRetryPolicy) (attemptNumber : Z)
    : result Z :=
  if attemptNumber <? 1 then Err (ErrMsg "attempt number must be >= 1")
  else if BaseIntervalSeconds policy <=? 0 then Err (ErrMsg "base interval must be > 0")
  else if MaxIntervalSeconds policy <=? 0 then Err (ErrMsg "max interval must be > 0")
  else
    let base := wrap64 (BaseIntervalSeconds policy * Second) in
    let maxInterval := wrap64 (MaxIntervalSeconds policy * Second) in
    let s := BackoffStrategy policy in
    interval ←
      (if s =?s "FIXED" then Ok base
       else if s =?s "LINEAR" then Ok (wrap64 (attemptNumber * base))
       else if (s =?s "EXPONENTIAL") || (s =?s "") then
         Ok (double_loop (Z.to_nat (attemptNumber - 1)) base maxInterval)
       else Err (ErrMsg "unsupported backoff strategy"));
    let interval := if maxInterval <? interval then maxInterval else interval in
    if interval <? 0 then Err (ErrMsg "computed negative interval") else Ok interval.

Definition isErrorCodeRetryable (policy : TaskRetryPolicy) (errorCode : string) : bool :=
  match RetryableErrorCodes policy with
  | [] => true
  | codes =>
      let normalized := NormalizeErrorCode errorCode in
      existsb (λ candidate, NormalizeErrorCode candidate =?s normalized) codes
  end.

(** ** The retry decision *)

(** The counters of the failing task's row. *)
Record failureContext := {
  fc_retry_count : Z;
  fc_max_retries : Z;
  fc_total_failure_count : Z;
}.

Record RetryDecision := {
  rd_policy : TaskRetryPolicy;
  rd_attempt_number : Z;
  rd_should_retry : bool;
  rd_retries_exhausted : bool;
  rd_poison_pill : bool;
  rd_computed_backoff : Z;
}.

Definition with_max_retries (p : TaskRetryPolicy) (n : Z) : TaskRetryPolicy :=
  {| MaxRetries := n; BackoffStrategy := BackoffStrategy p;
     BaseIntervalSeconds := BaseIntervalSeconds p;
     MaxIntervalSeconds := MaxIntervalSeconds p;
     RetryableErrorCodes := RetryableErrorCodes p |}.

Definition with_max_interval (p : TaskRetryPolicy) (n : Z) : TaskRetryPolicy :=
  {| MaxRetries := MaxRetries p; BackoffStrategy := BackoffStrategy p;
     BaseIntervalSeconds := BaseIntervalSeconds p;
     MaxIntervalSeconds := n;
     RetryableErrorCodes := RetryableErrorCodes p |}.

(** The policy [evaluateRetryDecision] works with: a budget of zero falls back on
    the budget stored with the task. *)
Definition effective_policy (ctx : failureContext) (taskDef : TaskDef) : TaskRetryPolicy :=
  let policy := ResolveRetryPolicy taskDef in
  if (MaxRetries policy =? 0) && (0 <? fc_max_retries ctx)
  then with_max_retries policy (fc_max_retries ctx) else policy.

Definition evaluateRetryDecision (ctx : failureContext) (taskDef : TaskDef)
    (cfg : option Z) (errorCode : string) (errorClass : ErrorClass)
    : result RetryDecision :=
  let policy := effective_policy ctx taskDef in
  if MaxRetries policy <? 0 then Err (ErrMsg "max retries must be >= 0")
  else
    let attemptNumber := fc_retry_count ctx + 1 in
    let retryableByCode := isErrorCodeRetryable policy errorCode in
    let isClassRetryCandidate :=
      match errorClass with
      | ErrorClassTransient => true
      | ErrorClassUnknown => negb (Nat.eqb (length (RetryableErrorCodes policy)) 0)
      | ErrorClassPermanent => false
      end in
    let withinRetryBudget := attemptNumber <=? MaxRetries policy in
    '(shouldRetry, backoff) ←
      (if isClassRetryCandidate && retryableByCode && withinRetryBudget then
         backoff ← ComputeBackoffDuration policy attemptNumber; Ok (true, backoff)
       else Ok (false, 0));
    let permanent := bool_decide (errorClass = ErrorClassPermanent) in
    let threshold := ResolvePoisonPillThreshold taskDef cfg in
    let totalFailures := fc_total_failure_count ctx + 1 in
    let poisonPill := (0 <? threshold) && (threshold <=? totalFailures) in
    let policy' :=
      if MaxIntervalSeconds policy <? BaseIntervalSeconds policy
      then with_max_interval policy (BaseIntervalSeconds policy) else policy in
    Ok {| rd_policy := policy';
          rd_attempt_number := attemptNumber;
          rd_should_retry := shouldRetry && negb permanent && negb poisonPill;
          rd_retries_exhausted := negb withinRetryBudget || permanent || poisonPill;
          rd_poison_pill := poisonPill;
          rd_computed_backoff := backoff |}.

(** The counters after [HandleTaskFailure]: [Some] when the task goes back to
    PENDING (the retry update), [None] when it becomes FAILED. *)
Definition retry_step (ctx : failureContext) (d : RetryDecision) : option failureContext :=
  if rd_should_retry d then
    Some {| fc_retry_count := fc_retry_count ctx + 1;
            fc_max_retries := MaxRetries (rd_policy d);
            fc_total_failure_count := fc_total_failure_count ctx + 1 |}
  else None.

(** A run of failures: what becomes of the task when it fails with each code and
    class in turn; an error of the decision leaves the counters as they are. *)
Fixpoint run_failures (taskDef : TaskDef) (cfg : option Z) (ctx : failureContext)
    (failures : list (string * ErrorClass)) : option failureContext :=
  match failures with
  | [] => Some ctx
  | (code, class) :: failures =>
      match evaluateRetryDecision ctx taskDef cfg code class with
      | Err _ => run_failures taskDef cfg ctx failures
      | Ok d =>
          match retry_step ctx d with
          | None => None
          | Some ctx' => run_failures taskDef cfg ctx' failures
          end
      end
  end.

(** ** Properties of the policy *)

Definition valid_strategy (s : string) : Prop :=
  s = "FIXED" ∨ s = "LINEAR" ∨ s = "EXPONENTIAL".

(** A code in the form [NormalizeErrorCode] produces. *)
Definition normal_code (s : string) : Prop := s ≠ "" ∧ NormalizeErrorCode s = s.

Record policy_wf (p : TaskRetryPolicy) : Prop := {
  wf_retries : 0 ≤ MaxRetries p;
  wf_strategy : valid_strategy (BackoffStrategy p);
  wf_base : 0 < BaseIntervalSeconds p;
  wf_max : BaseIntervalSeconds p ≤ MaxIntervalSeconds p;
  wf_codes : Forall normal_code (RetryableErrorCodes p);
  wf_nodup : NoDup (RetryableErrorCodes p);
}.

Definition separator (c : ascii) : bool :=
  Ascii.eqb c " " || Ascii.eqb c "-".
Definition code_char (c : ascii) : ascii :=
  upper_char (if Ascii.eqb (if Ascii.eqb c "-" then "_" else c)%char " "
              then "_" else if Ascii.eqb c "-" then "_" else c)%char.

Lemma mem_elem s l : mem s l = true ↔ s ∈ l.
Proof.
  unfold mem. rewrite existsb_exists. split.
  - intros (x & Hx & E). apply String.eqb_eq in E. subst. by apply list_elem_of_In.
  - intros H. exists s. split; [by apply list_elem_of_In|]. apply string_eqb_refl.
Qed.

Lemma string_map_compose f g s : string_map f (string_map g s) = string_map (λ c, f (g c)) s.
Proof. induction s as [|c s IH]; cbn; [done|]. by rewrite IH. Qed.

Lemma string_map_nil f s : string_map f s = "" ↔ s = "".
Proof. by destruct s. Qed.

Lemma NormalizeErrorCode_chars s :
  NormalizeErrorCode s = string_map code_char (TrimSpace s).
Proof.
  unfold NormalizeErrorCode. destruct (String.eqb_spec (TrimSpace s) "") as [E|_].
  - by rewrite E.
  - unfold ToUpper, ReplaceByte. by rewrite !string_map_compose.
Qed.

Lemma code_char_idem c : code_char (code_char c) = code_char c.
Proof. apply Ascii.eqb_eq. revert c. by_bytes. Qed.

(** A separator inside a code becomes an underscore, any other character keeps
    being a space or not, so a trimmed text stays trimmed. *)
Lemma code_char_space c : is_space (code_char c) = is_space c && negb (Ascii.eqb c " ").
Proof. apply eqb_prop. revert c. by_bytes. Qed.

Lemma trim_left_map f s :
  (∀ c, is_space (f c) = true → is_space c = true) →
  trim_left s = s → trim_left (string_map f s) = string_map f s.
Proof.
  intros Hf. destruct s as [|c s]; cbn; [done|].
  destruct (is_space c) eqn:Hc; intros H.
  - exfalso. assert (Hl : (String.length (trim_left s) ≤ String.length s)%nat).
    { clear. induction s as [|d t IH]; cbn; [lia|]. destruct (is_space d); cbn; lia. }
    rewrite H in Hl. cbn in Hl. lia.
  - destruct (is_space (f c)) eqn:E; [apply Hf in E; congruence|done].
Qed.

Lemma trim_right_map f s :
  (∀ c, is_space (f c) = true → is_space c = true) →
  trim_right s = s → trim_right (string_map f s) = string_map f s.
Proof.
  intros Hf. induction s as [|c s IH]; cbn; [done|].
  destruct (trim_right s) as [|d r] eqn:E; intros H.
  - destruct (is_space c) eqn:Hc; simplify_eq/=.
    destruct (is_space (f c)) eqn:Hfc; [apply Hf in Hfc; congruence|done].
  - injection H as H. rewrite H in E. rewrite IH by congruence. subst s. done.
Qed.

Lemma TrimSpace_fixed s : trim_left s = s → trim_right s = s → TrimSpace s = s.
Proof. unfold TrimSpace. by intros -> ->. Qed.

Lemma TrimSpace_map_trimmed f s :
  (∀ c, is_space (f c) = true → is_space c = true) →
  TrimSpace (string_map f (TrimSpace s)) = string_map f (TrimSpace s).
Proof.
  intros Hf. apply TrimSpace_fixed.
  - apply trim_left_map; [done|]. apply trim_left_trim_right, trim_left_idem.
  - apply trim_right_map; [done|]. apply trim_right_idem.
Qed.

Lemma NormalizeErrorCode_idem s :
  NormalizeErrorCode (NormalizeErrorCode s) = NormalizeErrorCode s.
Proof.
  rewrite !NormalizeErrorCode_chars, TrimSpace_map_trimmed.
  - apply string_map_idem, code_char_idem.
  - intros c. rewrite code_char_space. by intros [? _]%andb_prop.
Qed.

Lemma normalize_codes_spec codes : ∀ seen,
  Forall normal_code (normalize_codes codes seen)
  ∧ NoDup (normalize_codes codes seen)
  ∧ (∀ c, c ∈ normalize_codes codes seen → c ∉ seen).
Proof.
  induction codes as [|code codes IH]; intros seen; cbn.
  - split_and!; [constructor|constructor|]. intros c []%elem_of_nil.
  - destruct (String.eqb_spec (NormalizeErrorCode code) "") as [_|Hne]; [apply IH|].
    destruct (mem _ seen) eqn:Hm; [apply IH|].
    destruct (IH (NormalizeErrorCode code :: seen)) as (Hf & Hn & Hs). split_and!.
    + constructor; [|done]. split; [done|apply NormalizeErrorCode_idem].
    + constructor; [|done]. intros Hin. apply Hs in Hin. set_solver.
    + intros c [->|Hc]%elem_of_cons.
      * intros Hin%mem_elem. congruence.
      * apply Hs in Hc. set_solver.
Qed.

(** [normalize_codes] keeps exactly the codes of the list, up to normalization. *)
Lemma normalize_codes_elem c codes : ∀ seen,
  c ∈ normalize_codes codes seen ↔
  c ≠ "" ∧ c ∉ seen ∧ ∃ raw, raw ∈ codes ∧ NormalizeErrorCode raw = c.
Proof.
  induction codes as [|code codes IH]; intros seen; cbn; [set_solver|].
  destruct (String.eqb_spec (NormalizeErrorCode code) "") as [E|E].
  { rewrite IH. set_solver. }
  destruct (mem _ seen) eqn:Hm.
  { apply mem_elem in Hm. rewrite IH. set_solver. }
  assert (NormalizeErrorCode code ∉ seen) by (rewrite <- mem_elem; congruence).
  rewrite elem_of_cons, IH. split.
  - intros [->|(? & ? & raw & ? & ?)]; [|set_solver].
    split_and!; [done|done|]. exists code. set_solver.
  - intros (? & ? & raw & [->|?]%elem_of_cons & <-); [by left|].
    destruct (decide (NormalizeErrorCode raw = NormalizeErrorCode code)); set_solver.
Qed.

Lemma normalize_codes_fixed codes : ∀ seen,
  Forall normal_code codes → NoDup codes → (∀ c, c ∈ codes → c ∉ seen) →
  normalize_codes codes seen = codes.
Proof.
  induction codes as [|code codes IH]; intros seen Hf Hn Hs; cbn; [done|].
  apply Forall_cons in Hf as [[Hne Hid] Hf]. apply NoDup_cons in Hn as [Hni Hn].
  rewrite Hid. destruct (String.eqb_spec code ""); [done|].
  destruct (mem code seen) eqn:Hm.
  { apply mem_elem in Hm. destruct (Hs code); [by left|done]. }
  f_equal. apply IH; [done|done|]. intros c Hc [->|Hcs]%elem_of_cons; [done|].
  apply (Hs c); [by right|done].
Qed.

Lemma is_strategy_spec s : is_strategy s = true ↔ valid_strategy s.
Proof. unfold is_strategy, valid_strategy. rewrite !orb_true_iff, !String.eqb_eq. tauto. Qed.

Lemma strategy_or_default s :
  valid_strategy (if is_strategy s then s else "EXPONENTIAL").
Proof. destruct (is_strategy s) eqn:E; [by apply is_strategy_spec|by right; right]. Qed.

Lemma ResolveRetryPolicy_wf taskDef : policy_wf (ResolveRetryPolicy taskDef).
Proof.
  unfold ResolveRetryPolicy. destruct (td_retry_policy taskDef) as [p|].
  - destruct (normalize_codes_spec (RetryableErrorCodes p) []) as (? & ? & _).
    constructor; cbn -[is_strategy]; auto using strategy_or_default;
      repeat case_match; Z_tests; lia.
  - constructor; cbn; try lia; [by right; right|constructor|constructor].
Qed.

(** ** The backoff *)

(** The largest number of seconds whose count of nanoseconds is an int64. *)
Definition max_duration_seconds : Z := 9223372036.

Lemma seconds_in_int64 n : 0 ≤ n ≤ max_duration_seconds → wrap64 (n * Second) = n * Second.
Proof.
  intros. apply wrap64_id.
  unfold in_int64, int64_min, int64_max, Second, Millisecond, max_duration_seconds in *. lia.
Qed.

(** The loop doubles exactly: it stops before a doubling could overflow. *)
Lemma double_loop_min k : ∀ interval maxInterval,
  0 < interval → interval ≤ maxInterval ≤ int64_max →
  double_loop k interval maxInterval = Z.min (interval * 2 ^ Z.of_nat k) maxInterval.
Proof.
  induction k as [|k IH]; intros i m Hi Hm.
  - cbn [double_loop]. change (2 ^ Z.of_nat 0) with 1. lia.
  - cbn [double_loop]. rewrite Nat2Z.inj_succ, Z.pow_succ_r by lia.
    assert (1 ≤ 2 ^ Z.of_nat k) by (pose proof (Z.pow_pos_nonneg 2 (Z.of_nat k)); lia).
    unfold int_div. rewrite Z.quot_div_nonneg by lia.
    destruct (Z.leb_spec m i); [nia|].
    destruct (Z.ltb_spec (m / 2) i).
    + assert (m < i * 2) by (pose proof (Z.div_mod m 2); pose proof (Z.mod_pos_bound m 2); lia).
      nia.
    + assert (i * 2 ≤ m) by (pose proof (Z.div_mod m 2); pose proof (Z.mod_pos_bound m 2); lia).
      rewrite wrap64_id by (unfold in_int64, int64_min, int64_max in *; lia).
      rewrite IH by lia. f_equal. lia.
Qed.

(** The backoff the policy asks for, in nanoseconds, without overflow. *)
Definition ideal_interval (p : TaskRetryPolicy) (n : Z) : Z :=
  let base := BaseIntervalSeconds p * Second in
  if BackoffStrategy p =?s "FIXED" then base
  else if BackoffStrategy p =?s "LINEAR" then n * base
  else base * 2 ^ (n - 1).

(** The parameters of a backoff are in range: the intervals are durations, and
    the linear product is one as well. *)
Definition backoff_in_range (p : TaskRetryPolicy) (n : Z) : Prop :=
  MaxIntervalSeconds p ≤ max_duration_seconds ∧
  (BackoffStrategy p = "LINEAR" → n * BaseIntervalSeconds p ≤ max_duration_seconds).

(** For a resolved policy and an attempt number from 1 on, the backoff is
    exactly the FIXED base, the LINEAR multiple of the base or the EXPONENTIAL
    doubling of it, capped by the maximal interval: the doubling loop never
    overflows 64 bits, and no error is returned. *)
Theorem ComputeBackoffDuration_exact p n :
  policy_wf p → 1 ≤ n → backoff_in_range p n →
  ComputeBackoffDuration p n =
    Ok (Z.min (ideal_interval p n) (MaxIntervalSeconds p * Second)).
Proof.
  intros [_ Hs Hb Hm _ _] Hn [Hr Hl]. unfold ComputeBackoffDuration, ideal_interval.
  destruct (Z.ltb_spec n 1); [lia|]. destruct (Z.leb_spec (BaseIntervalSeconds p) 0); [lia|].
  destruct (Z.leb_spec (MaxIntervalSeconds p) 0); [lia|]. cbv zeta.
  rewrite !seconds_in_int64 by lia.
  assert (Hsec : Second = 1000000000) by reflexivity.
  destruct Hs as [->|[Hs|Hs]]; [|rewrite Hs in *..]; cbn [String.eqb orb];
    cbn -[Z.mul Z.pow Z.ltb Z.min Second double_loop].
  - destruct (Z.ltb_spec (MaxIntervalSeconds p * Second) (BaseIntervalSeconds p * Second));
      split_goal; Z_tests; f_equal; lia.
  - replace (n * (BaseIntervalSeconds p * Second))
      with ((n * BaseIntervalSeconds p) * Second) by lia.
    specialize (Hl eq_refl). rewrite seconds_in_int64 by nia.
    destruct (Z.ltb_spec (MaxIntervalSeconds p * Second) (n * BaseIntervalSeconds p * Second));
      split_goal; Z_tests; f_equal; nia.
  - rewrite double_loop_min, Z2Nat.id by
      (unfold int64_max, max_duration_seconds in *; lia).
    destruct (Z.ltb_spec (MaxIntervalSeconds p * Second)
      (Z.min (BaseIntervalSeconds p * Second * 2 ^ (n - 1)) (MaxIntervalSeconds p * Second)));
      [lia|].
    assert (0 ≤ 2 ^ (n - 1)) by (apply Z.pow_nonneg; lia).
    split_goal; Z_tests; [nia|done].
Qed.

(** Whatever the policy, a returned backoff lies between zero and the
    maximal interval, even when a LINEAR product overflows. *)
Theorem ComputeBackoffDuration_bounded p n d :
  ComputeBackoffDuration p n = Ok d →
  0 ≤ d ≤ wrap64 (MaxIntervalSeconds p * Second).
Proof.
  unfold ComputeBackoffDuration. intros H.
  destruct (n <? 1); [done|]. destruct (BaseIntervalSeconds p <=? 0); [done|].
  destruct (MaxIntervalSeconds p <=? 0); [done|].
  apply result_bind_Ok in H as (i & _ & H). revert H.
  destruct (Z.ltb_spec (wrap64 (MaxIntervalSeconds p * Second)) i);
    case_match; intros [= <-]; Z_tests; lia.
Qed.

(** The backoff never shrinks from one attempt to a later one. *)
Theorem ComputeBackoffDuration_monotone p n m d e :
  policy_wf p → 1 ≤ n → n ≤ m → backoff_in_range p m →
  ComputeBackoffDuration p n = Ok d → ComputeBackoffDuration p m = Ok e → d ≤ e.
Proof.
  intros Hp Hn Hnm Hr. pose proof Hp as [_ _ Hb _ _ _].
  assert (backoff_in_range p n) by
    (destruct Hr as [? Hl]; split; [done|]; intros E; specialize (Hl E); nia).
  rewrite !ComputeBackoffDuration_exact by (done || lia).
  intros [= <-] [= <-]. apply Z.min_le_compat_r. unfold ideal_interval.
  assert (0 < Second) by reflexivity.
  repeat case_match; [lia|nia|].
  apply Z.mul_le_mono_nonneg_l; [nia|]. apply Z.pow_le_mono_r; lia.
Qed.

(** ** The retry decision *)

Lemma poison_threshold_pos taskDef cfg : 0 < ResolvePoisonPillThreshold taskDef cfg.
Proof.
  unfold ResolvePoisonPillThreshold. destruct cfg; repeat case_match; Z_tests; lia.
Qed.

Lemma with_max_retries_wf p n : policy_wf p → 0 ≤ n → policy_wf (with_max_retries p n).
Proof. intros [] ?. by constructor. Qed.

Lemma effective_policy_wf ctx taskDef : policy_wf (effective_policy ctx taskDef).
Proof.
  unfold effective_policy. pose proof (ResolveRetryPolicy_wf taskDef).
  case_match; [|done]. apply with_max_retries_wf; [done|]. bool_simpl. Z_tests. lia.
Qed.

(** A failure that may be retried at all: a transient one whose code the policy
    does not exclude, or one of unknown class whose code the policy lists. *)
Definition retryable (p : TaskRetryPolicy) (code : string) (class : ErrorClass) : Prop :=
  match class with
  | ErrorClassTransient =>
      RetryableErrorCodes p = [] ∨ NormalizeErrorCode code ∈ RetryableErrorCodes p
  | ErrorClassUnknown => NormalizeErrorCode code ∈ RetryableErrorCodes p
  | ErrorClassPermanent => False
  end.

Lemma isErrorCodeRetryable_spec p code :
  policy_wf p →
  isErrorCodeRetryable p code = true ↔
  RetryableErrorCodes p = [] ∨ NormalizeErrorCode code ∈ RetryableErrorCodes p.
Proof.
  intros [_ _ _ _ Hc _]. unfold isErrorCodeRetryable.
  destruct (RetryableErrorCodes p) as [|c0 l]; [split; [by left|done]|].
  rewrite existsb_exists. split.
  - intros (c & Hin & E). right. apply String.eqb_eq in E. apply list_elem_of_In in Hin.
    rewrite Forall_forall in Hc. destruct (Hc c Hin) as [_ Hn]. congruence.
  - intros [?|Hin]; [done|]. exists (NormalizeErrorCode code). split.
    + by apply list_elem_of_In.
    + rewrite NormalizeErrorCode_idem. apply string_eqb_refl.
Qed.

(** What a failure in the given class and counters must lead to. *)
Definition must_retry ctx taskDef cfg code class : Prop :=
  retryable (effective_policy ctx taskDef) code class ∧
  fc_retry_count ctx + 1 ≤ MaxRetries (effective_policy ctx taskDef) ∧
  fc_total_failure_count ctx + 1 < ResolvePoisonPillThreshold taskDef cfg.

(** The decision for one failure, in full: it is always taken; the task is
    retried exactly when the failure is retryable, the attempt is within the
    budget and the poison-pill threshold is not reached; a task with no retry
    left is reported as exhausted, and the two never hold together; the backoff
    of a retry is the policy's for this attempt. *)
Theorem evaluateRetryDecision_spec ctx taskDef cfg code class :
  0 ≤ fc_retry_count ctx →
  backoff_in_range (effective_policy ctx taskDef) (fc_retry_count ctx + 1) →
  ∃ d, evaluateRetryDecision ctx taskDef cfg code class = Ok d ∧
    (rd_should_retry d = true ↔ must_retry ctx taskDef cfg code class) ∧
    (rd_should_retry d = true → rd_retries_exhausted d = false ∧
       Ok (rd_computed_backoff d) =
         ComputeBackoffDuration (effective_policy ctx taskDef) (fc_retry_count ctx + 1)) ∧
    (rd_poison_pill d = true ↔
       ResolvePoisonPillThreshold taskDef cfg ≤ fc_total_failure_count ctx + 1) ∧
    rd_policy d = effective_policy ctx taskDef.
Proof.
  intros Hrc Hr. pose proof (effective_policy_wf ctx taskDef) as Hwf.
  pose proof (poison_threshold_pos taskDef cfg) as Hpos.
  pose proof (isErrorCodeRetryable_spec _ code Hwf) as Hcode.
  unfold evaluateRetryDecision, must_retry.
  generalize dependent (effective_policy ctx taskDef). intros p Hr Hwf Hcode.
  pose proof Hwf as [Hm _ _ Hi _ _].
  destruct (Z.ltb_spec (MaxRetries p) 0); [lia|]. cbv zeta.
  rewrite (ComputeBackoffDuration_exact p) by (done || lia).
  assert (Hcand : (match class with
     | ErrorClassTransient => true
     | ErrorClassUnknown => negb (Nat.eqb (length (RetryableErrorCodes p)) 0)
     | ErrorClassPermanent => false
     end && isErrorCodeRetryable p code = true) ↔ retryable p code class).
  { destruct class; cbn [andb retryable]; [done|done|]. rewrite andb_true_iff, Hcode.
    destruct (RetryableErrorCodes p) as [|c0 l]; cbn; [|naive_solver].
    split; [naive_solver|intros []%elem_of_nil]. }
  replace (MaxIntervalSeconds p <? BaseIntervalSeconds p) with false
    by (symmetry; apply Z.ltb_ge; lia).
  replace (0 <? ResolvePoisonPillThreshold taskDef cfg) with true
    by (symmetry; apply Z.ltb_lt; lia). cbn [andb].
  destruct (match class with ErrorClassTransient => true | ErrorClassPermanent => false
    | ErrorClassUnknown => _ end && isErrorCodeRetryable p code) eqn:Ecand.
  - apply proj1 in Hcand. specialize (Hcand eq_refl).
    assert (class ≠ ErrorClassPermanent) by (by intros ->).
    rewrite bool_decide_eq_false_2 by done. cbn [andb].
    destruct (Z.leb_spec (fc_retry_count ctx + 1) (MaxRetries p));
      destruct (Z.leb_spec (ResolvePoisonPillThreshold taskDef cfg) (fc_total_failure_count ctx + 1));
      cbn [mbind result_bind negb andb orb]; eexists; (split; [reflexivity|]); cbn;
      split_and!; try done; split; intros; try done; try lia; naive_solver lia.
  - assert (Hn : ¬ retryable p code class) by (rewrite <- Hcand; congruence).
    cbn [andb mbind result_bind]. eexists. split; [reflexivity|]. cbn.
    split_and!; [naive_solver|done| |done]. rewrite Z.leb_le. done.
Qed.

(** A retry keeps the budget and uses up one attempt and one failure. *)
Lemma retry_step_budget ctx taskDef d ctx' :
  rd_policy d = effective_policy ctx taskDef →
  retry_step ctx d = Some ctx' →
  effective_policy ctx' taskDef = effective_policy ctx taskDef ∧
  fc_retry_count ctx' = fc_retry_count ctx + 1 ∧
  fc_total_failure_count ctx' = fc_total_failure_count ctx + 1.
Proof.
  unfold retry_step. intros Hp H. split_match H. cbn. split; [|done]. rewrite Hp.
  pose proof (ResolveRetryPolicy_wf taskDef) as [Hm _ _ _ _ _].
  unfold effective_policy. cbn [fc_max_retries].
  destruct (Z.eqb_spec (MaxRetries (ResolveRetryPolicy taskDef)) 0) as [E|E]; [|done].
  cbn [andb].
  destruct (Z.ltb_spec 0 (fc_max_retries ctx)) as [L|L]; cbn [MaxRetries with_max_retries].
  - by rewrite (proj2 (Z.ltb_lt _ _) L).
  - by rewrite E.
Qed.

Definition with_attempts_in_range ctx taskDef : Prop :=
  backoff_in_range (effective_policy ctx taskDef)
    (MaxRetries (effective_policy ctx taskDef) + 1).

Lemma in_range_earlier p n m :
  policy_wf p → n ≤ m → backoff_in_range p m → backoff_in_range p n.
Proof.
  intros [_ _ Hb _ _ _] Hnm [? Hl]. split; [done|]. intros E. specialize (Hl E). nia.
Qed.

(** A task cannot fail forever: after as many failures as its retry budget
    has attempts left, or as the poison-pill threshold allows, whichever comes
    first, the next failure leaves it FAILED. *)
Theorem failures_exhaust_retries taskDef cfg failures : ∀ ctx,
  0 ≤ fc_retry_count ctx ≤ MaxRetries (effective_policy ctx taskDef) →
  fc_total_failure_count ctx < ResolvePoisonPillThreshold taskDef cfg →
  with_attempts_in_range ctx taskDef →
  Z.min (MaxRetries (effective_policy ctx taskDef) - fc_retry_count ctx)
        (ResolvePoisonPillThreshold taskDef cfg - 1 - fc_total_failure_count ctx)
    < Z.of_nat (length failures) →
  run_failures taskDef cfg ctx failures = None.
Proof.
  induction failures as [|[code class] failures IH]; intros ctx Hrc Htot Hrange Hlen.
  { cbn in Hlen. lia. }
  cbn [run_failures].
  destruct (evaluateRetryDecision_spec ctx taskDef cfg code class)
    as (d & -> & Hretry & _ & _ & Hp); [lia| |].
  { eapply in_range_earlier; [apply effective_policy_wf| |apply Hrange]. lia. }
  destruct (retry_step ctx d) as [ctx'|] eqn:Es; [|done].
  assert (Hs : must_retry ctx taskDef cfg code class).
  { apply Hretry. unfold retry_step in Es. by destruct (rd_should_retry d). }
  destruct Hs as (_ & Hb & Ht).
  destruct (retry_step_budget ctx taskDef d ctx' Hp Es) as (He & Hr & Hf).
  unfold with_attempts_in_range in *. cbn in Hlen.
  apply IH; rewrite ?He, ?Hr, ?Hf; (done || lia).
Qed.

(** ** Evaluation on concrete inputs *)

Definition sample_policy : TaskRetryPolicy :=
  {| MaxRetries := 5; BackoffStrategy := "EXPONENTIAL"; BaseIntervalSeconds := 2;
     MaxIntervalSeconds := 60; RetryableErrorCodes := [] |}.

Definition sample_task : TaskDef :=
  {| td_code := "CREDIT_CHECK"; td_retry_policy := Some sample_policy;
     td_failure_severity := "HIGH"; td_escalate_case_on_failure := false;
     td_poison_pill_threshold := 0 |}.

Definition sample_counters (retries failures : Z) : failureContext :=
  {| fc_retry_count := retries; fc_max_retries := 5; fc_total_failure_count := failures |}.

Lemma sample_policy_wf : policy_wf sample_policy.
Proof. constructor; cbn; try lia; [by right; right|constructor|constructor]. Qed.

Lemma sample_in_range n : backoff_in_range sample_policy n.
Proof. split; [done|]. done. Qed.

Lemma ComputeBackoffDuration_exact_witness :
  ComputeBackoffDuration sample_policy 5 = Ok (32 * Second) ∧
  ComputeBackoffDuration sample_policy 6 = Ok (60 * Second).
Proof.
  split;
    (etransitivity;
     [apply ComputeBackoffDuration_exact;
       [apply sample_policy_wf|lia|apply sample_in_range]
     |vm_compute; reflexivity]).
Defined.

Lemma ComputeBackoffDuration_bounded_witness :
  0 ≤ 60000000000 ≤ wrap64 (MaxIntervalSeconds sample_policy * Second).
Proof.
  apply (ComputeBackoffDuration_bounded sample_policy 40). vm_compute. reflexivity.
Defined.

Lemma ComputeBackoffDuration_monotone_witness : 4000000000 ≤ 32000000000.
Proof.
  apply (ComputeBackoffDuration_monotone sample_policy 2 5);
    [apply sample_policy_wf|lia|lia|apply sample_in_range|vm_compute; reflexivity..].
Defined.

Lemma evaluateRetryDecision_spec_witness :
  ∃ d, evaluateRetryDecision (sample_counters 1 1) sample_task None
         "timeout" ErrorClassTransient = Ok d ∧ rd_should_retry d = true.
Proof.
  destruct (evaluateRetryDecision_spec (sample_counters 1 1) sample_task None
    "timeout" ErrorClassTransient) as (d & Hd & Hr & _).
  - cbn. lia.
  - apply sample_in_range.
  - exists d. split; [exact Hd|]. apply Hr. split_and!; [left; reflexivity|vm_compute; discriminate|].
    vm_compute. reflexivity.
Defined.

Lemma failures_exhaust_retries_witness :
  run_failures sample_task None (sample_counters 0 0)
    (replicate 6 ("DB_DEADLOCK"%string, ErrorClassTransient)) = None ∧
  run_failures sample_task None (sample_counters 0 0)
    (replicate 5 ("DB_DEADLOCK"%string, ErrorClassTransient)) ≠ None.
Proof.
  split; [|vm_compute; discriminate].
  apply failures_exhaust_retries;
    [vm_compute; split; discriminate|vm_compute; reflexivity|apply sample_in_range|].
  vm_compute. reflexivity.
Defined.
