(* ===== verification/CaseConfig.v ===== *)
(** * The configuration of a case type (pkg/model/case_type.go, sla.go, approval.go)

    The JSON document a case type stores: stages of activities of task definitions,
    with the SLA, approval, dependency and aggregation rules attached to them. *)

From Stdlib Require Import Ascii String ZArith Lia SpecFloat.
From stdpp Require Import base list strings.
From S2P Require Import Prelude Float64 ApprovalExpr RetryPolicy.

Open Scope Z_scope.
Open Scope go_scope.

(** One tier of an approval chain ([model.ApprovalChainTierDefinition]). *)
Record tier_def := {
  tier_no : Z;
  tier_policy : string;
  tier_can_skip_if : string;
  tier_required_if : string;
}.

(** [model.ApprovalDefinition]; amounts and hours are in hundredths, as the columns
    they are written to. *)
Record ApprovalDefinition := {
  ad_policy : string; ad_required : Z; ad_selection : string; ad_approvers : list string;
  ad_authority_limit : option Z; ad_amount_field : string; ad_timeout_hours : Z;
  ad_on_timeout : string; ad_rejection : string; ad_rework_target : option string;
  ad_fallback_role : string; ad_dynamic_rule : string;
}.

(** [model.SLADefinition] *)
Record SLADefinition := {
  DurationHours : float64; WarningThresholdPct : float64; CriticalThresholdPct : float64;
  BreachAction : string; CalendarID : string;
}.

(** [model.SLAHierarchyConfig]; an entry of a map may be a null pointer. *)
Record SLAHierarchyConfig := {
  sh_case : option SLADefinition;
  sh_stages : list (string * option SLADefinition);
  sh_activities : list (string * option SLADefinition);
  sh_tasks : list (string * option SLADefinition);
}.

(** [model.TaskInputDefinition] *)
Record TaskInputDefinition := {
  in_field : string; in_source_task : string; in_source_field : string; in_required : bool;
}.

(** [model.AggregationRule] *)
Record AggregationRule := {
  ar_target_field : string; ar_source_task : string; ar_source_field : string;
  ar_on_task_complete : bool;
}.

(** [model.TaskDefinitionV2]; what failure handling reads of it is a [TaskDef]. *)
Record TaskDefinitionV2 := {
  td_failure : TaskDef;
  td_config : option value;
  td_sla : option SLADefinition;
  td_requires_approval : bool;
  td_approval : option ApprovalDefinition;
  td_is_document_verification : bool;
  td_compensating_task_code : string;
  td_inputs : list TaskInputDefinition;
  td_input_schema : list (string * value);
  td_output_schema : list (string * value);
}.
Definition task_code (td : TaskDefinitionV2) : string := td_code (td_failure td).

(** [model.ActivityConfig], [model.StageDefinitionV2] *)
Record activity_def := {
  ad_code : string; ad_tasks : list TaskDefinitionV2; ad_sla : option SLADefinition;
}.
Record stage_def := {
  sd_code : string; sd_order : Z; sd_activities : list activity_def; sd_sla : option SLADefinition;
}.

(** [model.CaseTypeConfig] *)
Record CaseTypeConfig := {
  cfg_stages : list stage_def;
  cfg_default_calendar_id : string;
  cfg_sla : option SLAHierarchyConfig;
  cfg_approval_chain : list tier_def;
  cfg_fallback_supervisor_role : string;
  cfg_aggregation_rules : list AggregationRule;
  cfg_poison_pill_threshold : Z;
}.

(** A row of [case_types]: one version of a case type ([versioning.CaseTypeVersion]). *)
Record case_type_row := {
  ct_id : string; ct_code : string; ct_version : Z; ct_config : CaseTypeConfig;
  ct_tenant_id : option string; ct_name : string; ct_description : option string;
  ct_status : string; ct_activated_at : option Z; ct_activated_by : option string;
  ct_deprecated_at : option Z; ct_deprecated_by : option string;
}.
#[export] Instance case_type_row_eta : Eta case_type_row := λ x,
  {| ct_id := ct_id x; ct_code := ct_code x; ct_version := ct_version x;
     ct_config := ct_config x; ct_tenant_id := ct_tenant_id x; ct_name := ct_name x;
     ct_description := ct_description x; ct_status := ct_status x;
     ct_activated_at := ct_activated_at x; ct_activated_by := ct_activated_by x;
     ct_deprecated_at := ct_deprecated_at x; ct_deprecated_by := ct_deprecated_by x |}.
Definition ct_stages (ct : case_type_row) : list (string * Z) :=
  map (λ s, (sd_code s, sd_order s)) (cfg_stages (ct_config ct)).

(** ** Configurations with nothing but stages, activities and task codes *)

Definition plain_task (code : string) : TaskDefinitionV2 :=
  {| td_failure := {| td_code := code; td_retry_policy := None; td_failure_severity := "";
                      td_escalate_case_on_failure := false; td_poison_pill_threshold := 0 |};
     td_config := None; td_sla := None; td_requires_approval := false; td_approval := None;
     td_is_document_verification := false; td_compensating_task_code := ""; td_inputs := [];
     td_input_schema := []; td_output_schema := [] |}.
Definition plain_activity (code : string) (tasks : list TaskDefinitionV2) : activity_def :=
  {| ad_code := code; ad_tasks := tasks; ad_sla := None |}.
Definition plain_stage (code : string) (order : Z) (activities : list activity_def) : stage_def :=
  {| sd_code := code; sd_order := order; sd_activities := activities; sd_sla := None |}.
Definition plain_config (stages : list stage_def) : CaseTypeConfig :=
  {| cfg_stages := stages; cfg_default_calendar_id := ""; cfg_sla := None;
     cfg_approval_chain := []; cfg_fallback_supervisor_role := ""; cfg_aggregation_rules := [];
     cfg_poison_pill_threshold := 0 |}.

(** An active version that belongs to all tenants. *)
Definition blank_case_type (id code : string) (version : Z) (config : CaseTypeConfig)
    : case_type_row :=
  {| ct_id := id; ct_code := code; ct_version := version; ct_config := config;
     ct_tenant_id := None; ct_name := code; ct_description := None; ct_status := "ACTIVE";
     ct_activated_at := None; ct_activated_by := None; ct_deprecated_at := None;
     ct_deprecated_by := None |}.
