(* ===== verification/VersionDiff.v ===== *)
(** * The difference of two versions (internal/versioning/diff.go, types.go)

    [computeCaseTypeVersionDiff] compares stages, activities, task definitions and retry
    policies by code.  It runs through Go maps, whose order the language leaves open, and
    sorts what it finds: the result does not depend on that order, and tells how to get
    from one version to the other. *)

From Stdlib Require Import Ascii String ZArith Lia.
From stdpp Require Import base list strings gmap sorting.
From S2P Require Import Prelude ApprovalExpr RetryPolicy CaseConfig.

Open Scope Z_scope.
Open Scope go_scope.

(** ** The parts of a difference *)

Record StageReorder := { sr_stage : string; sr_from : Z; sr_to : Z }.
Record ActivityDelta := { dl_stage : string; dl_activity : string }.
Record TaskDefinitionSnapshot := {
  sn_code : string; sn_stage : string; sn_activity : string; sn_definition : TaskDefinitionV2;
}.
Record TaskDefinitionChange := {
  ch_code : string; ch_old : TaskDefinitionSnapshot; ch_new : TaskDefinitionSnapshot;
}.
Record RetryPolicyChange := {
  rc_code : string; rc_old : option TaskRetryPolicy; rc_new : option TaskRetryPolicy;
}.
Record MetadataChange := { md_field : string; md_old : string; md_new : string }.

Record CaseTypeVersionDiff := {
  StagesAdded : list stage_def; StagesRemoved : list stage_def;
  StagesReordered : list StageReorder;
  ActivitiesAdded : list ActivityDelta; ActivitiesRemoved : list ActivityDelta;
  TaskDefinitionsAdded : list TaskDefinitionSnapshot;
  TaskDefinitionsRemoved : list TaskDefinitionSnapshot;
  TaskDefinitionsModified : list TaskDefinitionChange;
  RetryPolicyChanges : list RetryPolicyChange;
  MetadataChanges : list MetadataChange;
}.

Definition nothing {A} (l : list A) : bool := Nat.eqb (length l) 0.
Definition diff_Empty (d : CaseTypeVersionDiff) : bool :=
  nothing (StagesAdded d) && nothing (StagesRemoved d) && nothing (StagesReordered d) &&
  nothing (ActivitiesAdded d) && nothing (ActivitiesRemoved d) &&
  nothing (TaskDefinitionsAdded d) && nothing (TaskDefinitionsRemoved d) &&
  nothing (TaskDefinitionsModified d) && nothing (RetryPolicyChanges d) &&
  nothing (MetadataChanges d).

(** ** Maps by code, and sorting *)

(** The last of several with one code stays. *)
Definition by_code {A} (key : A → string) (l : list A) : gmap string A :=
  fold_left (λ m x, <[key x := x]> m) l ∅.

(** The comparison function of [sort.Slice] on one or two strings. *)
Definition pair_leb (a b : string * string) : bool :=
  String.ltb a.1 b.1 || (a.1 =?s b.1) && String.leb a.2 b.2.
Definition sorted_by {A} (key : A → string * string) (l : list A) : list A :=
  merge_sort (λ x y, Is_true (pair_leb (key x) (key y))) l.

Definition retryPolicyEqual (a b : option TaskRetryPolicy) : bool :=
  match a, b with
  | None, None => true
  | Some a, Some b =>
      (MaxRetries a =? MaxRetries b) && (BackoffStrategy a =?s BackoffStrategy b) &&
      (BaseIntervalSeconds a =? BaseIntervalSeconds b) &&
      (MaxIntervalSeconds a =? MaxIntervalSeconds b) &&
      bool_decide (map TrimSpace (RetryableErrorCodes a) = map TrimSpace (RetryableErrorCodes b))
  | _, _ => false
  end.

Definition flatten_stage (stage : stage_def) : list TaskDefinitionSnapshot :=
  flat_map (λ activity,
    flat_map (λ td,
      let code := TrimSpace (task_code td) in
      if code =?s "" then []
      else [ {| sn_code := code; sn_stage := TrimSpace (sd_code stage);
                sn_activity := TrimSpace (ad_code activity); sn_definition := td |} ])
      (ad_tasks activity)) (sd_activities stage).
Definition flattenTaskDefinitions (config : CaseTypeConfig)
    : gmap string TaskDefinitionSnapshot :=
  by_code sn_code (flat_map flatten_stage (cfg_stages config)).

Section Diff.
(** [json.Marshal] of a task definition, and the order in which a loop meets the entries
    of a map. *)
Context (marshal : TaskDefinitionV2 → result string).
Context (range : ∀ V : Type, gmap string V → list (string * V)).

Definition taskDefinitionDifferent (a b : TaskDefinitionV2) : bool :=
  match marshal a, marshal b with
  | Ok x, Ok y => negb (x =?s y)
  | _, _ => true
  end.

(** The entries of a map whose key another lacks. *)
Definition lacking {V W} (m : gmap string V) (other : gmap string W) : list (string * V) :=
  List.filter (λ e, negb (bool_decide (is_Some (other !! e.1)))) (range _ m).
(** The keys two maps share, with both values. *)
Definition shared {V} (m other : gmap string V) : list (string * (V * V)) :=
  flat_map (λ e, match other !! e.1 with Some w => [(e.1, (e.2, w))] | None => [] end) (range _ m).

Definition stage_map (ct : case_type_row) : gmap string stage_def :=
  by_code sd_code (cfg_stages (ct_config ct)).
Definition activity_map (s : stage_def) : gmap string activity_def :=
  by_code ad_code (sd_activities s).

Definition activity_deltas (l : list (string * (stage_def * stage_def)))
    (pick : stage_def * stage_def → list (string * activity_def)) : list ActivityDelta :=
  flat_map (λ e, map (λ a, {| dl_stage := e.1; dl_activity := a.1 |}) (pick e.2)) l.

Definition taskModified (e : string * (TaskDefinitionSnapshot * TaskDefinitionSnapshot)) : bool :=
  let '(old, new) := e.2 in
  taskDefinitionDifferent (sn_definition old) (sn_definition new) ||
  negb (sn_stage old =?s sn_stage new) || negb (sn_activity old =?s sn_activity new).
Definition retry_of (s : TaskDefinitionSnapshot) : option TaskRetryPolicy :=
  td_retry_policy (td_failure (sn_definition s)).

Definition metadata_changes (from to : case_type_row) : list MetadataChange :=
  let description ct := TrimSpace (default "" (ct_description ct)) in
  (if negb (TrimSpace (ct_name from) =?s TrimSpace (ct_name to))
   then [ {| md_field := "name"; md_old := ct_name from; md_new := ct_name to |} ] else []) ++
  (if negb (description from =?s description to)
   then [ {| md_field := "description"; md_old := description from;
             md_new := description to |} ] else []).

Definition computeCaseTypeVersionDiff (from to : case_type_row) : CaseTypeVersionDiff :=
  let fromStages := stage_map from in
  let toStages := stage_map to in
  let common := shared fromStages toStages in
  let fromTasks := flattenTaskDefinitions (ct_config from) in
  let toTasks := flattenTaskDefinitions (ct_config to) in
  let commonTasks := shared fromTasks toTasks in
  let by1 {A} (key : A → string) := sorted_by (λ x : A, (key x, ""%string)) in
  {| StagesAdded := by1 sd_code (map snd (lacking toStages fromStages));
     StagesRemoved := by1 sd_code (map snd (lacking fromStages toStages));
     StagesReordered := by1 sr_stage
       (map (λ e, {| sr_stage := e.1; sr_from := sd_order e.2.1; sr_to := sd_order e.2.2 |})
          (List.filter (λ e, negb (sd_order e.2.1 =? sd_order e.2.2)) common));
     ActivitiesAdded := sorted_by (λ d, (dl_stage d, dl_activity d))
       (activity_deltas common (λ p, lacking (activity_map p.2) (activity_map p.1)));
     ActivitiesRemoved := sorted_by (λ d, (dl_stage d, dl_activity d))
       (activity_deltas common (λ p, lacking (activity_map p.1) (activity_map p.2)));
     TaskDefinitionsAdded := by1 sn_code (map snd (lacking toTasks fromTasks));
     TaskDefinitionsRemoved := by1 sn_code (map snd (lacking fromTasks toTasks));
     TaskDefinitionsModified := by1 ch_code
       (map (λ e, {| ch_code := e.1; ch_old := e.2.1; ch_new := e.2.2 |})
          (List.filter taskModified commonTasks));
     RetryPolicyChanges := by1 rc_code
       (map (λ e, {| rc_code := e.1; rc_old := retry_of e.2.1; rc_new := retry_of e.2.2 |})
          (List.filter (λ e, negb (retryPolicyEqual (retry_of e.2.1) (retry_of e.2.2)))
             commonTasks));
     MetadataChanges := by1 md_field (metadata_changes from to) |}.
End Diff.

(** ** Sorting by keys that tell apart *)

Lemma pair_leb_total a b : pair_leb a b = true ∨ pair_leb b a = true.
Proof.
  unfold pair_leb. rewrite !orb_true_iff, !andb_true_iff, !String.eqb_eq.
  destruct (String.ltb a.1 b.1) eqn:E1; [auto|]. destruct (String.ltb b.1 a.1) eqn:E2; [auto|].
  assert (a.1 = b.1) as ->.
  { apply String.leb_antisym; rewrite leb_not_ltb; [by rewrite E2|by rewrite E1]. }
  destruct (String.leb_total a.2 b.2); auto.
Qed.

Lemma ltb_leb_trans x y z : String.ltb x y = true → String.leb y z = true → String.ltb x z = true.
Proof.
  intros H1 H2. apply negb_false_iff. rewrite <- leb_not_ltb. apply not_true_iff_false.
  intros H3. assert (H4 : String.leb y x = true) by by eapply ranking_trans.
  by rewrite leb_not_ltb, H1 in H4.
Qed.
Lemma string_ltb_leb x y : String.ltb x y = true → String.leb x y = true.
Proof.
  intros H. destruct (String.leb_total x y) as [|H2]; [done|]. by rewrite leb_not_ltb, H in H2.
Qed.

Lemma pair_leb_trans a b c : pair_leb a b = true → pair_leb b c = true → pair_leb a c = true.
Proof.
  unfold pair_leb. rewrite !orb_true_iff, !andb_true_iff, !String.eqb_eq.
  intros [H1|[H1 H2]] [H3|[H3 H4]].
  - left. eapply ltb_leb_trans; [done|by apply string_ltb_leb].
  - left. by rewrite <- H3.
  - left. by rewrite H1.
  - right. split; [congruence|]. by eapply ranking_trans.
Qed.

Lemma pair_leb_antisym a b : pair_leb a b = true → pair_leb b a = true → a = b.
Proof.
  unfold pair_leb. rewrite !orb_true_iff, !andb_true_iff, !String.eqb_eq.
  assert (Hirr : ∀ x y, String.ltb x y = true → String.ltb y x = true → False).
  { intros x y H1 H2. apply string_ltb_leb in H1. by rewrite leb_not_ltb, H2 in H1. }
  destruct a as [a1 a2], b as [b1 b2]; cbn. intros [H1|[-> H2]] [H3|[H3 H4]].
  - by destruct (Hirr a1 b1).
  - subst. by destruct (Hirr a1 a1).
  - by destruct (Hirr b1 b1).
  - f_equal. by apply String.leb_antisym.
Qed.

Section Sorting.
Context {A : Type} (key : A → string * string).

Lemma sorted_by_perm l : sorted_by key l ≡ₚ l.
Proof. apply merge_sort_Permutation. Qed.

Lemma sorted_by_sorted l : StronglySorted (λ x y, Is_true (pair_leb (key x) (key y))) (sorted_by key l).
Proof.
  apply StronglySorted_merge_sort.
  - intros x y z. rewrite !Is_true_true. apply pair_leb_trans.
  - intros x y. rewrite !Is_true_true. apply pair_leb_total.
Qed.

(** What is sorted does not depend on the order it was found in. *)
Lemma sorted_by_unique l l' :
  l ≡ₚ l' → (∀ x y, x ∈ l → y ∈ l → key x = key y → x = y) → sorted_by key l = sorted_by key l'.
Proof.
  intros Hp Hk. apply (StronglySorted_unique_strong (λ x y, Is_true (pair_leb (key x) (key y)))).
  - intros x y Hx Hy. rewrite !Is_true_true. intros H1 H2. rewrite sorted_by_perm in Hx, Hy.
    rewrite <- Hp in Hy. apply Hk; [done..|]. by apply pair_leb_antisym.
  - apply sorted_by_sorted.
  - apply sorted_by_sorted.
  - by rewrite !sorted_by_perm.
Qed.
End Sorting.

(** ** Maps *)

Lemma by_code_fold {A} (key : A → string) l : ∀ (m : gmap string A) c x,
  fold_left (λ m x, <[key x := x]> m) l m !! c = Some x → key x = c ∨ m !! c = Some x.
Proof.
  induction l as [|y l IH]; intros m c x; cbn; [by right|].
  intros [H|H]%IH; [by left|]. destruct (decide (key y = c)) as [<-|Hc].
  - rewrite lookup_insert, decide_True in H by done. injection H as ->. by left.
  - rewrite lookup_insert_ne in H by done. by right.
Qed.
Lemma by_code_key {A} (key : A → string) l c x : by_code key l !! c = Some x → key x = c.
Proof. unfold by_code. intros [|H]%by_code_fold; [done|]. by rewrite lookup_empty in H. Qed.

Section Ranges.
Context (range : ∀ V : Type, gmap string V → list (string * V)).
Context (Hrange : ∀ V (m : gmap string V), range V m ≡ₚ map_to_list m).

Lemma elem_of_range {V} (m : gmap string V) k v : (k, v) ∈ range V m ↔ m !! k = Some v.
Proof. rewrite Hrange. apply elem_of_map_to_list. Qed.

Lemma elem_of_lacking {V W} (m : gmap string V) (other : gmap string W) k v :
  (k, v) ∈ lacking range m other ↔ m !! k = Some v ∧ other !! k = None.
Proof.
  unfold lacking. rewrite list_elem_of_In, filter_In, <- list_elem_of_In, elem_of_range. cbn.
  rewrite negb_true_iff, bool_decide_eq_false, eq_None_not_Some. done.
Qed.

Lemma elem_of_shared {V} (m other : gmap string V) k v w :
  (k, (v, w)) ∈ shared range m other ↔ m !! k = Some v ∧ other !! k = Some w.
Proof.
  unfold shared. rewrite list_elem_of_In, in_flat_map. setoid_rewrite <- list_elem_of_In. split.
  - intros ([k' v'] & Hin & Hx). apply elem_of_range in Hin. cbn in Hx.
    destruct (other !! k') as [w'|] eqn:E; [|by apply elem_of_nil in Hx].
    apply list_elem_of_singleton in Hx. naive_solver.
  - intros [H1 H2]. exists (k, v). split; [by apply elem_of_range|]. cbn. rewrite H2.
    by apply list_elem_of_singleton.
Qed.
End Ranges.

(** ** The order of the loops does not matter *)

Lemma filter_Permutation_bool {A} (f : A → bool) (l l' : list A) :
  l ≡ₚ l' → List.filter f l ≡ₚ List.filter f l'.
Proof.
  induction 1 as [|x l l' _ IH|x y l|l1 l2 l3 _ IH1 _ IH2]; cbn.
  - done.
  - destruct (f x); by rewrite IH.
  - destruct (f x), (f y); try done. constructor.
  - by rewrite IH1.
Qed.

Section Orders.
Context (range range' : ∀ V : Type, gmap string V → list (string * V)).
Context (Hrange : ∀ V (m : gmap string V), range V m ≡ₚ map_to_list m).
Context (Hrange' : ∀ V (m : gmap string V), range' V m ≡ₚ map_to_list m).

Lemma ranges_perm V (m : gmap string V) : range V m ≡ₚ range' V m.
Proof. by rewrite Hrange, Hrange'. Qed.
Lemma lacking_perm {V W} (m : gmap string V) (other : gmap string W) :
  lacking range m other ≡ₚ lacking range' m other.
Proof. apply filter_Permutation_bool, ranges_perm. Qed.
Lemma shared_perm {V} (m other : gmap string V) : shared range m other ≡ₚ shared range' m other.
Proof. apply Permutation_flat_map, ranges_perm. Qed.

Lemma sorted_lacking {A} (key : A → string) (m other : gmap string A) :
  (∀ c x, m !! c = Some x → key x = c) →
  sorted_by (λ x, (key x, ""%string)) (map snd (lacking range m other)) =
  sorted_by (λ x, (key x, ""%string)) (map snd (lacking range' m other)).
Proof.
  intros Hk. apply sorted_by_unique; [by rewrite lacking_perm|].
  assert (H : ∀ x, x ∈ map snd (lacking range m other) → m !! key x = Some x).
  { intros x Hx. rewrite list_elem_of_In, in_map_iff in Hx. destruct Hx as ([c y] & <- & Hin).
    rewrite <- list_elem_of_In in Hin. apply (elem_of_lacking range Hrange) in Hin as [Hin _].
    cbn. by rewrite (Hk c y). }
  intros x y Hx%H Hy%H [= E]. rewrite E, Hy in Hx. by injection Hx.
Qed.

Lemma sorted_shared {A B} (key : B → string) (f : string * (A * A) → B)
    (p : string * (A * A) → bool) (m other : gmap string A) :
  (∀ e, key (f e) = e.1) →
  sorted_by (λ x, (key x, ""%string)) (map f (List.filter p (shared range m other))) =
  sorted_by (λ x, (key x, ""%string)) (map f (List.filter p (shared range' m other))).
Proof.
  intros Hk. apply sorted_by_unique.
  { apply Permutation_map, filter_Permutation_bool, shared_perm. }
  assert (H : ∀ x, x ∈ map f (List.filter p (shared range m other)) →
    ∃ v w, x = f (key x, (v, w)) ∧ m !! key x = Some v ∧ other !! key x = Some w).
  { intros x Hx. rewrite list_elem_of_In, in_map_iff in Hx. destruct Hx as ([c [v w]] & <- & Hin).
    apply filter_In in Hin as [Hin _]. apply list_elem_of_In in Hin.
    apply (elem_of_shared range Hrange) in Hin as [H1 H2]. rewrite Hk. cbn. by exists v, w. }
  intros x y (v & w & Ex & H1 & H2)%H (v' & w' & Ey & H3 & H4)%H [= E].
  rewrite E in H1, H2. rewrite Ex, Ey, E. congruence.
Qed.

Lemma deltas_perm l l' pick pick' :
  l ≡ₚ l' → (∀ p, pick p ≡ₚ pick' p) → activity_deltas l pick ≡ₚ activity_deltas l' pick'.
Proof.
  intros Hl Hp. unfold activity_deltas. rewrite Hl. clear Hl.
  induction l' as [|e l' IH]; cbn; [done|]. by rewrite IH, Hp.
Qed.

Lemma sorted_deltas l l' pick pick' :
  l ≡ₚ l' → (∀ p, pick p ≡ₚ pick' p) →
  sorted_by (λ d, (dl_stage d, dl_activity d)) (activity_deltas l pick) =
  sorted_by (λ d, (dl_stage d, dl_activity d)) (activity_deltas l' pick').
Proof.
  intros Hl Hp. apply sorted_by_unique; [by apply deltas_perm|].
  intros [s a] [s' a'] _ _. by intros [= -> ->].
Qed.

(** The difference of two versions does not depend on the order in which the language
    runs through the maps: every list is sorted by a key that tells its entries apart. *)
Theorem diff_is_deterministic marshal from to :
  computeCaseTypeVersionDiff marshal range from to =
  computeCaseTypeVersionDiff marshal range' from to.
Proof.
  unfold computeCaseTypeVersionDiff. cbv zeta. f_equal.
  - apply sorted_lacking. intros c x. apply by_code_key.
  - apply sorted_lacking. intros c x. apply by_code_key.
  - by apply sorted_shared.
  - apply sorted_deltas; [apply shared_perm|]. intros p. apply lacking_perm.
  - apply sorted_deltas; [apply shared_perm|]. intros p. apply lacking_perm.
  - apply sorted_lacking. intros c x. apply by_code_key.
  - apply sorted_lacking. intros c x. apply by_code_key.
  - by apply sorted_shared.
  - by apply sorted_shared.
Qed.
End Orders.

(** ** From one version to the other *)

(** What is removed goes, and what is given replaces what was there. *)
Definition patch {V} (removed : list string) (given : list (string * V)) (m : gmap string V)
    : gmap string V :=
  fold_right (λ e m, <[e.1 := e.2]> m) (fold_right delete m removed) given.

Lemma removed_lookup {V} removed (m : gmap string V) k :
  fold_right delete m removed !! k = if bool_decide (k ∈ removed) then None else m !! k.
Proof.
  induction removed as [|r l IHr]; cbn; [done|].
  destruct (decide (r = k)) as [->|Hne].
  - rewrite lookup_delete, decide_True by done. rewrite bool_decide_true; [done|by left].
  - rewrite lookup_delete_ne, IHr by done.
    assert (k ∈ r :: l ↔ k ∈ l) as H by (rewrite elem_of_cons; naive_solver).
    by rewrite (bool_decide_ext _ _ H).
Qed.

Lemma patch_reaches {V} (R : V → V → Prop) removed given (m target : gmap string V) k :
  (∀ v, R v v) →
  (∀ v, (k, v) ∈ given → target !! k = Some v) →
  (k ∈ removed → target !! k = None) →
  (k ∈ removed ∨ (∃ v, (k, v) ∈ given) ∨ option_Forall2 R (m !! k) (target !! k)) →
  option_Forall2 R (patch removed given m !! k) (target !! k).
Proof.
  intros Hrefl Hg Hr Hk.
  assert (Hopt : ∀ o : option V, option_Forall2 R o o) by (intros [v|]; by constructor).
  unfold patch. induction given as [|[g v] given IH]; cbn.
  - rewrite removed_lookup. case_bool_decide as Hin; [by rewrite Hr|].
    destruct Hk as [?|[[v Hv]|?]]; [done|by apply elem_of_nil in Hv|done].
  - destruct (decide (g = k)) as [->|Hne].
    + rewrite lookup_insert, decide_True by done. by rewrite (Hg v) by (by left).
    + rewrite lookup_insert_ne by done. apply IH.
      * intros v' Hin. apply Hg. by right.
      * destruct Hk as [?|[[v' Hv]|?]]; [by left| |by right; right].
        apply elem_of_cons in Hv as [[= -> ->]|Hv]; [done|right; left; by exists v'].
Qed.

(** The ordinals of the stages, the activities of a stage and the task definitions that
    follow from the old version and the difference. *)
Definition patched_ordinals (d : CaseTypeVersionDiff) : gmap string Z → gmap string Z :=
  patch (map sd_code (StagesRemoved d))
    (map (λ s, (sd_code s, sd_order s)) (StagesAdded d) ++
     map (λ r, (sr_stage r, sr_to r)) (StagesReordered d)).
Definition activities_in (stage : string) (l : list ActivityDelta) : list string :=
  map dl_activity (List.filter (λ x, dl_stage x =?s stage) l).
Definition patched_activities (d : CaseTypeVersionDiff) (stage : string)
    : gmap string unit → gmap string unit :=
  patch (activities_in stage (ActivitiesRemoved d))
    (map (λ a, (a, tt)) (activities_in stage (ActivitiesAdded d))).
Definition patched_tasks (d : CaseTypeVersionDiff)
    : gmap string TaskDefinitionSnapshot → gmap string TaskDefinitionSnapshot :=
  patch (map sn_code (TaskDefinitionsRemoved d))
    (map (λ s, (sn_code s, s)) (TaskDefinitionsAdded d) ++
     map (λ c, (ch_code c, ch_new c)) (TaskDefinitionsModified d)).

Section Patches.
Context (marshal : TaskDefinitionV2 → result string).
Context (range : ∀ V : Type, gmap string V → list (string * V)).
Context (Hrange : ∀ V (m : gmap string V), range V m ≡ₚ map_to_list m).

(** Two snapshots that are the same, or the same but for what [json.Marshal] leaves out. *)
Definition same_snapshot (a b : TaskDefinitionSnapshot) : Prop :=
  a = b ∨ sn_stage a = sn_stage b ∧ sn_activity a = sn_activity b ∧
  ∃ text, marshal (sn_definition a) = Ok text ∧ marshal (sn_definition b) = Ok text.

Lemma elem_of_lacking_sorted {A} (key : A → string) (m other : gmap string A) x :
  (∀ c x, m !! c = Some x → key x = c) →
  x ∈ sorted_by (λ x, (key x, ""%string)) (map snd (lacking range m other)) ↔
  m !! key x = Some x ∧ other !! key x = None.
Proof.
  intros Hk. rewrite sorted_by_perm, list_elem_of_In, in_map_iff. setoid_rewrite <- list_elem_of_In.
  split.
  - intros ([c y] & <- & Hin). apply (elem_of_lacking range Hrange) in Hin as [H1 H2]. cbn.
    by rewrite (Hk c y H1).
  - intros H. exists (key x, x). split; [done|]. by apply (elem_of_lacking range Hrange).
Qed.

Lemma elem_of_shared_sorted {A B} (key : B → string) (f : string * (A * A) → B)
    (p : string * (A * A) → bool) (m other : gmap string A) y :
  y ∈ sorted_by (λ x, (key x, ""%string)) (map f (List.filter p (shared range m other))) ↔
  ∃ c v w, y = f (c, (v, w)) ∧ m !! c = Some v ∧ other !! c = Some w ∧ p (c, (v, w)) = true.
Proof.
  rewrite sorted_by_perm, list_elem_of_In, in_map_iff. setoid_rewrite filter_In.
  setoid_rewrite <- list_elem_of_In. split.
  - intros ([c [v w]] & <- & Hin & Hp). apply (elem_of_shared range Hrange) in Hin as [H1 H2].
    by exists c, v, w.
  - intros (c & v & w & -> & H1 & H2 & Hp). exists (c, (v, w)). split_and!; [done| |done].
    by apply (elem_of_shared range Hrange).
Qed.

Lemma option_same {V} (o o' : option V) : option_Forall2 (=) o o' → o = o'.
Proof. by intros [x y ->|]. Qed.
Lemma elem_of_map {A B} (f : A → B) (l : list A) y : y ∈ map f l ↔ ∃ x, f x = y ∧ x ∈ l.
Proof. rewrite list_elem_of_In, in_map_iff. by setoid_rewrite <- list_elem_of_In. Qed.

Lemma ordinals_rebuilt from to c :
  patched_ordinals (computeCaseTypeVersionDiff marshal range from to)
    (sd_order <$> stage_map from) !! c = (sd_order <$> stage_map to) !! c.
Proof.
  assert (Hk : ∀ ct c (x : stage_def), stage_map ct !! c = Some x → sd_code x = c).
  { intros ct c' x. apply by_code_key. }
  assert (H : option_Forall2 (=) (patched_ordinals (computeCaseTypeVersionDiff marshal range from to)
    (sd_order <$> stage_map from) !! c) ((sd_order <$> stage_map to) !! c)).
  { apply patch_reaches; [done|..].
    - intros v Hin. rewrite lookup_fmap. apply elem_of_app in Hin as [Hin|Hin];
        apply elem_of_map in Hin as (x & [= <- <-] & Hin).
      + apply elem_of_lacking_sorted in Hin as [-> _]; [done|apply Hk].
      + apply elem_of_shared_sorted in Hin as (c' & s & s' & -> & _ & H & _). cbn. by rewrite H.
    - intros Hin. apply elem_of_map in Hin as (x & <- & Hin). rewrite lookup_fmap.
      apply elem_of_lacking_sorted in Hin as [_ ->]; [done|apply Hk].
    - rewrite !lookup_fmap. setoid_rewrite elem_of_app. rewrite elem_of_map.
      setoid_rewrite elem_of_map.
      destruct (stage_map from !! c) as [s|] eqn:E1, (stage_map to !! c) as [s'|] eqn:E2; cbn.
      + destruct (Z.eqb_spec (sd_order s) (sd_order s')) as [E|E].
        * right; right. rewrite E. by constructor.
        * right; left. exists (sd_order s'). right.
          exists {| sr_stage := c; sr_from := sd_order s; sr_to := sd_order s' |}.
          split; [done|]. apply elem_of_shared_sorted. exists c, s, s'. split_and!; try done. cbn.
          by apply negb_true_iff, Z.eqb_neq.
      + left. exists s. split; [by apply (Hk from)|]. apply elem_of_lacking_sorted; [apply Hk|].
        by rewrite (Hk _ _ _ E1).
      + right; left. exists (sd_order s'). left. exists s'. split; [by rewrite (Hk _ _ _ E2)|].
        apply elem_of_lacking_sorted; [apply Hk|]. by rewrite (Hk _ _ _ E2).
      + right; right. constructor. }
  by apply option_same.
Qed.

Lemma tasks_rebuilt from to c :
  option_Forall2 same_snapshot
    (patched_tasks (computeCaseTypeVersionDiff marshal range from to)
       (flattenTaskDefinitions (ct_config from)) !! c)
    (flattenTaskDefinitions (ct_config to) !! c).
Proof.
  assert (Hk : ∀ cfg c x, flattenTaskDefinitions cfg !! c = Some x → sn_code x = c).
  { intros cfg c' x. apply by_code_key. }
  apply patch_reaches; [by left|..].
  - intros v Hin. apply elem_of_app in Hin as [Hin|Hin];
      apply elem_of_map in Hin as (x & [= <- <-] & Hin).
    + by apply elem_of_lacking_sorted in Hin as [-> _]; [|apply Hk].
    + by apply elem_of_shared_sorted in Hin as (c' & s & s' & -> & _ & H & _).
  - intros Hin. apply elem_of_map in Hin as (x & <- & Hin).
    by apply elem_of_lacking_sorted in Hin as [_ ->]; [|apply Hk].
  - setoid_rewrite elem_of_app. rewrite elem_of_map. setoid_rewrite elem_of_map.
    destruct (flattenTaskDefinitions (ct_config from) !! c) as [s|] eqn:E1,
      (flattenTaskDefinitions (ct_config to) !! c) as [s'|] eqn:E2; cbn.
    + destruct (taskModified marshal (c, (s, s'))) eqn:E.
      * right; left. exists s'. right. exists {| ch_code := c; ch_old := s; ch_new := s' |}.
        split; [done|]. apply elem_of_shared_sorted. by exists c, s, s'.
      * right; right. constructor. right. unfold taskModified in E. cbn in E.
        apply orb_false_iff in E as [E E3]. apply orb_false_iff in E as [E E4].
        apply negb_false_iff, String.eqb_eq in E3, E4. split_and!; [done..|].
        unfold taskDefinitionDifferent in E. destruct (marshal (sn_definition s)) as [x|]; [|done].
        destruct (marshal (sn_definition s')) as [y|]; [|done].
        apply negb_false_iff, String.eqb_eq in E as ->. by exists y.
    + left. exists s. split; [by apply (Hk (ct_config from))|].
      apply elem_of_lacking_sorted; [apply Hk|]. by rewrite (Hk _ _ _ E1).
    + right; left. exists s'. left. exists s'. split; [by rewrite (Hk _ _ _ E2)|].
      apply elem_of_lacking_sorted; [apply Hk|]. by rewrite (Hk _ _ _ E2).
    + right; right. constructor.
Qed.

Lemma elem_of_activities_in stage l a :
  a ∈ activities_in stage l ↔ {| dl_stage := stage; dl_activity := a |} ∈ l.
Proof.
  unfold activities_in. rewrite elem_of_map. setoid_rewrite list_elem_of_In.
  setoid_rewrite filter_In. setoid_rewrite String.eqb_eq. split.
  - intros ([s b] & <- & Hin & <-). done.
  - intros H. exists {| dl_stage := stage; dl_activity := a |}. by split_and!.
Qed.

Lemma elem_of_deltas (m other : gmap string stage_def) pick stage a :
  {| dl_stage := stage; dl_activity := a |} ∈
    sorted_by (λ d, (dl_stage d, dl_activity d)) (activity_deltas (shared range m other) pick) ↔
  ∃ s s', m !! stage = Some s ∧ other !! stage = Some s' ∧ ∃ x, (a, x) ∈ pick (s, s').
Proof.
  rewrite sorted_by_perm. unfold activity_deltas. rewrite list_elem_of_In, in_flat_map.
  setoid_rewrite in_map_iff. setoid_rewrite <- list_elem_of_In. split.
  - intros ([c [s s']] & Hin & [b x] & [= -> ->] & Hx).
    apply (elem_of_shared range Hrange) in Hin as [H1 H2]. exists s, s'.
    split_and!; [done..|by exists x].
  - intros (s & s' & H1 & H2 & x & Hx). exists (stage, (s, s')). split.
    + by apply (elem_of_shared range Hrange).
    + by exists (a, x).
Qed.

Lemma activities_rebuilt from to stage s s' a :
  stage_map from !! stage = Some s → stage_map to !! stage = Some s' →
  patched_activities (computeCaseTypeVersionDiff marshal range from to) stage
    ((λ _, tt) <$> activity_map s) !! a = ((λ _, tt) <$> activity_map s') !! a.
Proof.
  intros E1 E2.
  apply option_same, patch_reaches; [done|..].
  - intros [] Hin. apply elem_of_map in Hin as (b & [= ->] & Hin).
    apply elem_of_activities_in, elem_of_deltas in Hin as (t & t' & H1 & H2 & x & Hx).
    rewrite E1 in H1. rewrite E2 in H2. injection H1 as <-. injection H2 as <-.
    apply (elem_of_lacking range Hrange) in Hx as [Hx _]. cbn in Hx. by rewrite lookup_fmap, Hx.
  - intros Hin. apply elem_of_activities_in, elem_of_deltas in Hin as (t & t' & H1 & H2 & x & Hx).
    rewrite E1 in H1. rewrite E2 in H2. injection H1 as <-. injection H2 as <-.
    apply (elem_of_lacking range Hrange) in Hx as [_ Hx]. cbn in Hx. by rewrite lookup_fmap, Hx.
  - rewrite !lookup_fmap. rewrite elem_of_activities_in. setoid_rewrite elem_of_map.
    setoid_rewrite elem_of_activities_in. cbn [computeCaseTypeVersionDiff ActivitiesAdded ActivitiesRemoved].
    setoid_rewrite elem_of_deltas.
    destruct (activity_map s !! a) as [x|] eqn:Ea, (activity_map s' !! a) as [y|] eqn:Eb; cbn.
    + right; right. by constructor.
    + left. exists s, s'. split_and!; [done..|]. exists x. by apply (elem_of_lacking range Hrange).
    + right; left. exists tt, a. split; [done|]. exists s, s'. split_and!; [done..|]. exists y.
      by apply (elem_of_lacking range Hrange).
    + right; right. constructor.
Qed.

(** C16. A difference leads from the old version to the new one: taking away what it says is
    removed and putting in what it says is added, moved or modified turns the ordinals of
    the old stages into those of the new ones, the activities of a stage that stays into
    its new activities, and the old task definitions into the new ones (up to what
    [json.Marshal] does not tell apart). *)
Theorem diff_rebuilds_the_target from to :
  let d := computeCaseTypeVersionDiff marshal range from to in
  patched_ordinals d (sd_order <$> stage_map from) = sd_order <$> stage_map to ∧
  (∀ stage s s', stage_map from !! stage = Some s → stage_map to !! stage = Some s' →
     patched_activities d stage ((λ _, tt) <$> activity_map s) = (λ _, tt) <$> activity_map s') ∧
  map_relation (λ _, same_snapshot) (λ _ _, False) (λ _ _, False)
    (patched_tasks d (flattenTaskDefinitions (ct_config from)))
    (flattenTaskDefinitions (ct_config to)).
Proof.
  intros d. split_and!.
  - apply map_eq. intros c. apply ordinals_rebuilt.
  - intros stage s s' H1 H2. apply map_eq. intros a. by apply activities_rebuilt.
  - intros c. pose proof (tasks_rebuilt from to c) as H. unfold d.
    by destruct H as [x y Hxy|].
Qed.

End Patches.

(** ** On concrete data *)

(** A text that tells codes and required approvals apart. *)
Definition some_text (td : TaskDefinitionV2) : result string :=
  Ok (task_code td +:+ (if td_requires_approval td then "!" else "")).
Definition in_order (V : Type) (m : gmap string V) : list (string * V) := map_to_list m.
Definition in_reverse (V : Type) (m : gmap string V) : list (string * V) := rev (map_to_list m).

Lemma in_order_range V (m : gmap string V) : in_order V m ≡ₚ map_to_list m.
Proof. done. Qed.
Lemma in_reverse_range V (m : gmap string V) : in_reverse V m ≡ₚ map_to_list m.
Proof. symmetry. apply Permutation_rev. Qed.

Definition old_version : case_type_row :=
  blank_case_type "v1" "LOAN" 1 (plain_config
    [ plain_stage "INTAKE" 1 [plain_activity "APPLY" [plain_task "COLLECT"; plain_task "BOOK"]];
      plain_stage "REVIEW" 2 [plain_activity "CREDIT" [plain_task "SCORE"]] ]).
Definition new_version : case_type_row :=
  blank_case_type "v2" "LOAN" 2 (plain_config
    [ plain_stage "INTAKE" 1 [plain_activity "APPLY" [plain_task "COLLECT"];
                              plain_activity "CHECK" [plain_task "BOOK"]];
      plain_stage "PRICING" 2 [plain_activity "RATE" [plain_task "QUOTE"]];
      plain_stage "REVIEW" 3 [plain_activity "CREDIT" [plain_task "SCORE"]] ]).

Lemma diff_is_deterministic_witness :
  let d := computeCaseTypeVersionDiff some_text in_order old_version new_version in
  (map sd_code (StagesAdded d), map sr_to (StagesReordered d), map dl_activity (ActivitiesAdded d),
   map sn_code (TaskDefinitionsAdded d), map ch_code (TaskDefinitionsModified d)) =
  (["PRICING"], [3], ["CHECK"], ["QUOTE"], ["BOOK"])%string ∧
  d = computeCaseTypeVersionDiff some_text in_reverse old_version new_version.
Proof.
  intros d. split; [vm_compute; reflexivity|].
  exact (diff_is_deterministic in_order in_reverse in_order_range in_reverse_range some_text
           old_version new_version).
Defined.

Lemma diff_rebuilds_the_target_witness :
  let d := computeCaseTypeVersionDiff some_text in_order old_version new_version in
  diff_Empty d = false ∧
  patched_ordinals d (sd_order <$> stage_map old_version) = sd_order <$> stage_map new_version.
Proof.
  intros d. split; [vm_compute; reflexivity|].
  exact (proj1 (diff_rebuilds_the_target some_text in_order in_order_range old_version new_version)).
Defined.

(** Changes of the approval chain, of the poison-pill threshold or of the fallback role
    are no difference. *)
Example changes_without_difference :
  let c := ct_config old_version in
  let changed := old_version <| ct_config :=
    {| cfg_stages := cfg_stages c; cfg_default_calendar_id := "emea"; cfg_sla := None;
       cfg_approval_chain := [{| tier_no := 1; tier_policy := "ANY_ONE"; tier_can_skip_if := "";
                                 tier_required_if := "" |}];
       cfg_fallback_supervisor_role := "ADMIN"; cfg_aggregation_rules := [];
       cfg_poison_pill_threshold := 9 |} |> in
  diff_Empty (computeCaseTypeVersionDiff some_text in_order old_version changed) = true.
Proof. vm_compute. reflexivity. Qed.
