(* ===== verification/SqlTx.v ===== *)
(** * Database transactions

    The services talk to PostgreSQL through transactions: a handler issues SQL
    statements one after the other, returns an error as soon as it meets one, and
    commits at the end ([Repository.WithTransaction]; [BeginTxx] with a deferred
    [Rollback] in the approval package).  A handler is a program [Tx D A] over
    database states [D]: its statements are functions on the state, its Go code
    is the code between them.

    What the server and the driver do is a parameter of the runs: which round
    trips fail, and whether the driver refuses a statement while a row set is
    still open.  A statement that fails aborts the transaction; an aborted
    transaction accepts no statement and cannot be committed. *)

From Stdlib Require Import String ZArith Lia.
From stdpp Require Import base list strings.
From S2P Require Import Prelude.

Open Scope go_scope.

(** ** Programs *)

(** [TxStmt body k]: a statement and what the code does with its result.
    [TxRows]: a query whose row set stays open until [TxClose]. *)
Inductive Tx (D : Type) (A : Type) : Type :=
  | TxRet (r : result A)
  | TxStmt {X : Type} (body : D → result (X * D)) (k : result X → Tx D A)
  | TxRows {X : Type} (query : D → result (list X)) (k : result (list X) → Tx D A)
  | TxClose (k : Tx D A).
Arguments TxRet {D A} r.
Arguments TxStmt {D A X} body k.
Arguments TxRows {D A X} query k.
Arguments TxClose {D A} k.

(** Go code after a result: an [Err] value is passed on, as [return err] does. *)
Fixpoint tx_bind {D A B} (m : Tx D A) (f : A → Tx D B) : Tx D B :=
  match m with
  | TxRet (Ok a) => f a
  | TxRet (Err e) => TxRet (Err e)
  | TxStmt body k => TxStmt body (λ r, tx_bind (k r) f)
  | TxRows q k => TxRows q (λ r, tx_bind (k r) f)
  | TxClose k => TxClose (tx_bind k f)
  end.

(** [r, err := m()]: the caller looks at the error itself. *)
Fixpoint tx_attempt {D A} (m : Tx D A) : Tx D (result A) :=
  match m with
  | TxRet r => TxRet (Ok r)
  | TxStmt body k => TxStmt body (λ r, tx_attempt (k r))
  | TxRows q k => TxRows q (λ r, tx_attempt (k r))
  | TxClose k => TxClose (tx_attempt k)
  end.

#[export] Instance Tx_ret D : MRet (Tx D) := λ A a, TxRet (Ok a).
#[export] Instance Tx_bind D : MBind (Tx D) := λ A B f m, tx_bind m f.

Definition throw {D A} (e : error) : Tx D A := TxRet (Err e).
Definition tx_of {D A} (r : result A) : Tx D A := TxRet r.
Definition stmt {D X} (body : D → result (X * D)) : Tx D X := TxStmt body TxRet.
Definition when {D} (b : bool) (m : Tx D unit) : Tx D unit := if b then m else mret tt.

Fixpoint tx_each {D X} (f : X → Tx D unit) (l : list X) : Tx D unit :=
  match l with
  | [] => mret tt
  | x :: l => f x ≫= λ _, tx_each f l
  end.

(** [rows, err := tx.Query(..); defer rows.Close(); for rows.Next() { .. }] *)
Definition with_rows {D X} (query : D → result (list X)) (f : X → Tx D unit) : Tx D unit :=
  TxRows query (λ r, match r with
    | Err e => throw e
    | Ok rows => tx_attempt (tx_each f rows) ≫= λ r, TxClose (tx_of r)
    end).

#[global] Arguments Nat.ltb : simpl never.

(** ** Runs *)

Record driver := {
  round_trip_fails : nat → bool;
  busy_while_open : bool;
}.

Record session (D : Type) := Session {
  s_db : D;
  s_aborted : bool;
  s_open : nat;
  s_trip : nat;
}.
Arguments Session {D} s_db s_aborted s_open s_trip.
Arguments s_db {D} s.
Arguments s_aborted {D} s.
Arguments s_open {D} s.
Arguments s_trip {D} s.

(** One round trip: refused on the client side while the connection is busy and
    on the server side after an abort.  A query that finds no row is no server
    error; any other failure aborts the transaction. *)
Definition round_trip {D X} (drv : driver) (body : D → result (X * D)) (s : session D)
    : result X * session D :=
  if busy_while_open drv && (0 <? s_open s)%nat then (Err ErrConnBusy, s)
  else if s_aborted s then (Err ErrTxAborted, s)
  else if round_trip_fails drv (s_trip s)
  then (Err ErrSQL, Session (s_db s) true (s_open s) (S (s_trip s)))
  else match body (s_db s) with
       | Ok (x, db) => (Ok x, Session db false (s_open s) (S (s_trip s)))
       | Err ErrNoRows => (Err ErrNoRows, Session (s_db s) false (s_open s) (S (s_trip s)))
       | Err e => (Err e, Session (s_db s) true (s_open s) (S (s_trip s)))
       end.

Definition query_body {D X} (q : D → result (list X)) : D → result (list X * D) :=
  λ db, match q db with Ok l => Ok (l, db) | Err e => Err e end.

Definition open_rows {D} (s : session D) : session D :=
  Session (s_db s) (s_aborted s) (S (s_open s)) (s_trip s).
Definition close_rows {D} (s : session D) : session D :=
  Session (s_db s) (s_aborted s) (pred (s_open s)) (s_trip s).

Fixpoint run {D A} (drv : driver) (m : Tx D A) (s : session D) : result A * session D :=
  match m with
  | TxRet r => (r, s)
  | TxStmt body k => let '(r, s) := round_trip drv body s in run drv (k r) s
  | TxRows q k =>
      let '(r, s) := round_trip drv (query_body q) s in
      run drv (k r) (if is_Ok r then open_rows s else s)
  | TxClose k => run drv k (close_rows s)
  end.

(** [WithTransaction]: begin, run, commit or roll back. *)
Definition within_tx {D A} (drv : driver) (m : Tx D A) (db : D) : result A * D :=
  if round_trip_fails drv 0 then (Err ErrSQL, db)
  else
    let '(r, s) := run drv m (Session db false 0 1) in
    match r with
    | Err e => (Err e, db)
    | Ok a =>
        if s_aborted s then (Err ErrTxCommitRollback, db)
        else if round_trip_fails drv (s_trip s) then (Err ErrSQL, db)
        else (Ok a, s_db s)
    end.

(** A transaction whose code may also return nil without committing
    ([ReturnWithoutCommit] is that [return nil]; the deferred call rolls back). *)
Definition transact {D} (drv : driver) (m : Tx D unit) (db : D) : result unit * D :=
  match within_tx drv m db with
  | (Err ReturnWithoutCommit, db) => (Ok tt, db)
  | r => r
  end.

(** The same code given the pool instead of a transaction: every statement is a
    transaction of its own on some connection, and a failure undoes nothing but itself. *)
Fixpoint pooled {D A} (drv : driver) (m : Tx D A) (db : D) (n : nat) : result A * D * nat :=
  match m with
  | TxRet r => (r, db, n)
  | TxStmt body k =>
      if round_trip_fails drv n then pooled drv (k (Err ErrSQL)) db (S n)
      else match body db with
           | Ok (x, db) => pooled drv (k (Ok x)) db (S n)
           | Err e => pooled drv (k (Err e)) db (S n)
           end
  | TxRows q k =>
      if round_trip_fails drv n then pooled drv (k (Err ErrSQL)) db (S n)
      else pooled drv (k (q db)) db (S n)
  | TxClose k => pooled drv k db n
  end.
Definition on_pool {D A} (drv : driver) (m : Tx D A) (db : D) : result A * D :=
  fst (pooled drv m db 0).

(** A driver and a server with nothing in the way. *)
Definition reliable (busy : bool) : driver :=
  {| round_trip_fails := λ _, false; busy_while_open := busy |}.

(** ** What a committed transaction has done

    [exec busy m o db]: the run of [m] in which no round trip fails by accident,
    from [db] with [o] open row sets; [None] when a statement violates a
    constraint, which aborts the transaction. *)

Fixpoint exec {D A} (busy : bool) (m : Tx D A) (o : nat) (db : D)
    : option (result A * nat * D) :=
  match m with
  | TxRet r => Some (r, o, db)
  | TxStmt body k =>
      if busy && (0 <? o)%nat then exec busy (k (Err ErrConnBusy)) o db
      else match body db with
           | Ok (x, db') => exec busy (k (Ok x)) o db'
           | Err ErrNoRows => exec busy (k (Err ErrNoRows)) o db
           | Err _ => None
           end
  | TxRows q k =>
      if busy && (0 <? o)%nat then exec busy (k (Err ErrConnBusy)) o db
      else match q db with
           | Ok l => exec busy (k (Ok l)) (S o) db
           | Err ErrNoRows => exec busy (k (Err ErrNoRows)) o db
           | Err _ => None
           end
  | TxClose k => exec busy k (pred o) db
  end.

(** The value and the state [m] commits, if it can commit at all. *)
Definition commits {D A} (busy : bool) (m : Tx D A) (db : D) : option (A * D) :=
  match exec busy m 0 db with
  | Some (Ok a, _, db') => Some (a, db')
  | _ => None
  end.

Section Runs.
Context {D : Type}.
Implicit Types (drv : driver) (s : session D) (db : D).

Lemma round_trip_cases {X} drv (body : D → result (X * D)) s r s' :
  round_trip drv body s = (r, s') →
  s_aborted s' = false →
  s_aborted s = false ∧ s_open s' = s_open s ∧
  (busy_while_open drv && (0 <? s_open s)%nat = true ∧ r = Err ErrConnBusy ∧ s' = s
   ∨ busy_while_open drv && (0 <? s_open s)%nat = false ∧
     ((∃ x, r = Ok x ∧ body (s_db s) = Ok (x, s_db s'))
      ∨ r = Err ErrNoRows ∧ body (s_db s) = Err ErrNoRows ∧ s_db s' = s_db s)).
Proof.
  unfold round_trip. destruct (busy_while_open drv && _) eqn:Eb.
  { intros [= <- <-] ?. naive_solver. }
  destruct (s_aborted s) eqn:Ea; [intros [= <- <-]; congruence|].
  destruct (round_trip_fails drv (s_trip s)); [intros [= <- <-]; done|].
  destruct (body (s_db s)) as [[x db]|e].
  - intros [= <- <-] _. naive_solver.
  - destruct e; intros [= <- <-]; cbn; naive_solver.
Qed.

Lemma round_trip_aborted {X} drv (body : D → result (X * D)) s :
  s_aborted s = true → s_aborted (round_trip drv body s).2 = true.
Proof.
  unfold round_trip. intros E. rewrite E. by destruct (_ && _).
Qed.

Lemma run_aborted {A} drv (m : Tx D A) : ∀ s,
  s_aborted s = true → s_aborted (run drv m s).2 = true.
Proof.
  induction m as [r|X body k IH|X q k IH|k IH]; intros s Hs; cbn.
  - done.
  - pose proof (round_trip_aborted drv body s Hs).
    destruct (round_trip drv body s) as [r s']; auto.
  - pose proof (round_trip_aborted drv (query_body q) s Hs).
    destruct (round_trip drv (query_body q) s) as [r s']; apply IH.
    by destruct (is_Ok r).
  - by apply IH.
Qed.

(** A run that ends without an abort has gone the way [exec] goes. *)
Lemma run_exec {A} drv (m : Tx D A) : ∀ s r s',
  run drv m s = (r, s') → s_aborted s' = false →
  exec (busy_while_open drv) m (s_open s) (s_db s) = Some (r, s_open s', s_db s').
Proof.
  induction m as [r0|X body k IH|X q k IH|k IH]; intros s r s' Hrun Ha; cbn in *.
  - by injection Hrun as <- <-.
  - destruct (round_trip drv body s) as [x s1] eqn:Et.
    assert (Ha1 : s_aborted s1 = false).
    { destruct (s_aborted s1) eqn:E; [|done].
      pose proof (run_aborted drv (k x) s1 E) as H. rewrite Hrun in H. cbn in H. congruence. }
    destruct (round_trip_cases drv body s x s1 Et Ha1) as (_ & Ho & H).
    specialize (IH _ _ _ _ Hrun Ha). rewrite Ho in IH.
    destruct H as [(-> & -> & ->)|(-> & [(y & -> & ->)|(-> & -> & Hd)])]; [done|done|].
    by rewrite <- Hd.
  - destruct (round_trip drv (query_body q) s) as [x s1] eqn:Et.
    assert (Ha1 : s_aborted s1 = false).
    { destruct (s_aborted s1) eqn:E; [|done].
      pose proof (run_aborted drv (k x) (if is_Ok x then open_rows s1 else s1)) as H.
      rewrite Hrun in H. cbn in H. rewrite H in Ha; [done|]. by destruct (is_Ok x). }
    destruct (round_trip_cases _ _ _ _ _ Et Ha1) as (_ & Ho & H).
    specialize (IH _ _ _ _ Hrun Ha). unfold query_body in H.
    destruct H as [(-> & -> & ->)|(-> & [(y & -> & H)|(-> & H & Hd)])]; [done| |].
    + destruct (q (s_db s)) as [l|e]; [|done]. injection H as -> Hdb.
      cbn in IH. by rewrite <- Ho, Hdb.
    + destruct (q (s_db s)) as [l|e]; [done|]. injection H as ->. cbn in IH.
      by rewrite <- Ho, <- Hd.
  - apply (IH _ _ _ Hrun Ha).
Qed.

Lemma exec_run {A} busy (m : Tx D A) : ∀ o db n r o' db',
  exec busy m o db = Some (r, o', db') →
  ∃ n', run (reliable busy) m (Session db false o n) = (r, Session db' false o' n').
Proof.
  induction m as [r0|X body k IH|X q k IH|k IH]; intros o db n r o' db' H; cbn in *.
  - injection H as -> -> ->. by eexists.
  - unfold round_trip. cbn. destruct (busy && (0 <? o)%nat); [by apply IH|].
    destruct (body db) as [[x db1]|e]; [by apply IH|]. destruct e; try done. by apply IH.
  - unfold round_trip, query_body. cbn. destruct (busy && (0 <? o)%nat); [by apply IH|].
    destruct (q db) as [x|e]; [by apply IH|]. destruct e; try done. by apply IH.
  - by apply IH.
Qed.

(** Atomicity: an error leaves the database as it was, whatever has failed. *)
Lemma within_tx_rollback {A} drv (m : Tx D A) db e db' :
  within_tx drv m db = (Err e, db') → db' = db.
Proof.
  unfold within_tx. destruct (round_trip_fails drv 0); [by intros [= _ <-]|].
  destruct (run drv m _) as [[a|e'] s]; [|by intros [= _ <-]].
  destruct (s_aborted s); [by intros [= _ <-]|].
  destruct (round_trip_fails drv (s_trip s)); [by intros [= _ <-]|done].
Qed.

(** A commit, whatever the server did on the way, is the commit [commits] predicts. *)
Lemma within_tx_commits {A} drv (m : Tx D A) db a db' :
  within_tx drv m db = (Ok a, db') →
  commits (busy_while_open drv) m db = Some (a, db').
Proof.
  unfold within_tx, commits. destruct (round_trip_fails drv 0); [done|].
  destruct (run drv m _) as [[a'|e'] s] eqn:Er; [|done].
  destruct (s_aborted s) eqn:Ea; [done|].
  destruct (round_trip_fails drv (s_trip s)); [done|]. intros [= <- <-].
  apply run_exec in Er; [|done]. cbn in Er. by rewrite Er.
Qed.

Lemma commits_within_tx {A} busy (m : Tx D A) db a db' :
  commits busy m db = Some (a, db') → within_tx (reliable busy) m db = (Ok a, db').
Proof.
  unfold within_tx, commits. cbn. intros H.
  destruct (exec busy m 0 db) as [[[[a'|e] o'] db1]|] eqn:E; [|done..].
  injection H as -> ->. destruct (exec_run busy m 0 db 1 _ _ _ E) as (n' & ->). done.
Qed.

(** A transaction that cannot commit fails, and leaves no trace. *)
Lemma within_tx_no_commit {A} drv (m : Tx D A) db :
  commits (busy_while_open drv) m db = None →
  ∃ e, within_tx drv m db = (Err e, db).
Proof.
  intros H. destruct (within_tx drv m db) as [[a|e] db'] eqn:E.
  - apply within_tx_commits in E. congruence.
  - apply within_tx_rollback in E as Hdb. exists e. congruence.
Qed.

End Runs.

(** ** Sequencing *)

Section Sequencing.
Context {D : Type}.

Lemma exec_bind {A B} busy (m : Tx D A) (f : A → Tx D B) : ∀ o db,
  exec busy (m ≫= f) o db =
    match exec busy m o db with
    | Some (Ok a, o', db') => exec busy (f a) o' db'
    | Some (Err e, o', db') => Some (Err e, o', db')
    | None => None
    end.
Proof.
  induction m as [[a|e]|X body k IH|X q k IH|k IH]; intros o db; cbn.
  - done.
  - done.
  - destruct (busy && _); [apply IH|]. destruct (body db) as [[x db1]|[]]; try apply IH; done.
  - destruct (busy && _); [apply IH|]. destruct (q db) as [x|[]]; try apply IH; done.
  - apply IH.
Qed.

Lemma exec_attempt {A} busy (m : Tx D A) : ∀ o db,
  exec busy (tx_attempt m) o db =
    match exec busy m o db with
    | Some (r, o', db') => Some (Ok r, o', db')
    | None => None
    end.
Proof.
  induction m as [r|X body k IH|X q k IH|k IH]; intros o db; cbn.
  - done.
  - destruct (busy && _); [apply IH|]. destruct (body db) as [[x db1]|[]]; try apply IH; done.
  - destruct (busy && _); [apply IH|]. destruct (q db) as [x|[]]; try apply IH; done.
  - apply IH.
Qed.

Lemma exec_stmt {X} busy (body : D → result (X * D)) db :
  exec busy (stmt body) 0 db =
    match body db with
    | Ok (x, db') => Some (Ok x, 0%nat, db')
    | Err ErrNoRows => Some (Err ErrNoRows, 0%nat, db)
    | Err _ => None
    end.
Proof.
  unfold stmt. cbn. rewrite andb_false_r. by destruct (body db) as [[x db1]|[]].
Qed.

(** ** Relations every step respects *)

(** Every statement of [m], whatever the results before it, takes a state [db] to
    a state [R]-related to it. *)
Fixpoint tx_all {A} (R : D → D → Prop) (m : Tx D A) : Prop :=
  match m with
  | TxRet _ => True
  | TxStmt body k =>
      (∀ db x db', body db = Ok (x, db') → R db db') ∧ ∀ r, tx_all R (k r)
  | TxRows q k => ∀ r, tx_all R (k r)
  | TxClose k => tx_all R k
  end.

Lemma tx_all_mono {A} (R R' : D → D → Prop) (m : Tx D A) :
  (∀ db db', R db db' → R' db db') → tx_all R m → tx_all R' m.
Proof.
  intros HR. induction m as [r|X body k IH|X q k IH|k IH]; cbn; [done| | |done].
  - intros [Hb Hk]. split; [|auto]. intros db x db' E. by eapply HR, Hb.
  - auto.
Qed.

Lemma tx_all_exec {A} busy (R : D → D → Prop) `{!PreOrder R} (m : Tx D A) : ∀ o db r o' db',
  tx_all R m → exec busy m o db = Some (r, o', db') → R db db'.
Proof.
  induction m as [r0|X body k IH|X q k IH|k IH]; intros o db r o' db' Hm H; cbn in *.
  - by injection H as -> -> ->.
  - destruct Hm as [Hb Hk]. destruct (busy && _); [by eapply IH|].
    destruct (body db) as [[x db1]|e] eqn:E.
    + etransitivity; [by eapply Hb|by eapply IH].
    + destruct e; try done. by eapply IH.
  - destruct (busy && _); [by eapply IH|].
    destruct (q db) as [x|e]; [by eapply IH|]. destruct e; try done. by eapply IH.
  - by eapply IH.
Qed.

Lemma tx_all_bind {A B} R (m : Tx D A) (f : A → Tx D B) :
  tx_all R m → (∀ a, tx_all R (f a)) → tx_all R (m ≫= f).
Proof.
  intros Hm Hf. induction m as [[a|e]|X body k IH|X q k IH|k IH]; cbn in *; naive_solver.
Qed.

Lemma tx_all_attempt {A} R (m : Tx D A) : tx_all R m → tx_all R (tx_attempt m).
Proof. induction m; cbn; naive_solver. Qed.

Lemma tx_all_stmt {X} (R : D → D → Prop) (body : D → result (X * D)) :
  (∀ db x db', body db = Ok (x, db') → R db db') → tx_all R (stmt body).
Proof. intros H. by split. Qed.

Lemma tx_all_each {X} R (f : X → Tx D unit) l :
  (∀ x, tx_all R (f x)) → tx_all R (tx_each f l).
Proof. intros Hf. induction l as [|x l IH]; cbn; [done|]. by apply tx_all_bind. Qed.

Lemma tx_all_with_rows {X} R (q : D → result (list X)) f :
  (∀ x, tx_all R (f x)) → tx_all R (with_rows q f).
Proof.
  intros Hf [rows|e]; cbn; [|done].
  apply (tx_all_bind R (tx_attempt (tx_each f rows)) (λ r, TxClose (tx_of r))); [|done].
  by apply tx_all_attempt, tx_all_each.
Qed.

Lemma tx_all_when R b (m : Tx D unit) : tx_all R m → tx_all R (when b m).
Proof. by destruct b. Qed.

Lemma commits_all {A} busy (R : D → D → Prop) `{!PreOrder R} (m : Tx D A) db a db' :
  tx_all R m → commits busy m db = Some (a, db') → R db db'.
Proof.
  unfold commits. intros Hm H.
  destruct (exec busy m 0 db) as [[[[a'|e] o'] db1]|] eqn:E; [|done..].
  injection H as -> ->. by eapply tx_all_exec.
Qed.

End Sequencing.

(** ** Programs on the pool *)

Section Pool.
Context {D : Type}.

Lemma pooled_bind {A B} drv (m : Tx D A) (f : A → Tx D B) : ∀ db n,
  pooled drv (m ≫= f) db n =
    match pooled drv m db n with
    | (Ok a, db', n') => pooled drv (f a) db' n'
    | (Err e, db', n') => (Err e, db', n')
    end.
Proof.
  induction m as [[a|e]|X body k IH|X q k IH|k IH]; intros db n; cbn; [done..| | |apply IH].
  - destruct (round_trip_fails drv n); [apply IH|]. destruct (body db) as [[x db']|e]; apply IH.
  - destruct (round_trip_fails drv n); apply IH.
Qed.

Lemma pooled_attempt {A} drv (m : Tx D A) : ∀ db n,
  pooled drv (tx_attempt m) db n =
    match pooled drv m db n with (r, db', n') => (Ok r, db', n') end.
Proof.
  induction m as [r|X body k IH|X q k IH|k IH]; intros db n; cbn; [done| | |apply IH].
  - destruct (round_trip_fails drv n); [apply IH|]. destruct (body db) as [[x db']|e]; apply IH.
  - destruct (round_trip_fails drv n); apply IH.
Qed.

Lemma pooled_stmt {X} drv (body : D → result (X * D)) db n x db' n' :
  pooled drv (stmt body) db n = (Ok x, db', n') → body db = Ok (x, db').
Proof.
  unfold stmt. cbn. destruct (round_trip_fails drv n); [done|].
  destruct (body db) as [[y db1]|e]; [by intros [= -> -> _]|done].
Qed.

(** The same as relations, to follow a run in a hypothesis. *)
Lemma pooled_bind_inv {A B} drv (m : Tx D A) (f : A → Tx D B) db n r db' n' :
  pooled drv (m ≫= f) db n = (r, db', n') →
  ∃ r1 db1 n1, pooled drv m db n = (r1, db1, n1) ∧
    match r1 with
    | Ok a => pooled drv (f a) db1 n1 = (r, db', n')
    | Err e => r = Err e ∧ db' = db1
    end.
Proof.
  rewrite pooled_bind. destruct (pooled drv m db n) as [[[a|e] db1] n1]; intros H.
  - by exists (Ok a), db1, n1.
  - injection H as <- <- _. by exists (Err e), db1, n1.
Qed.

Lemma pooled_attempt_inv {A} drv (m : Tx D A) db n r db' n' :
  pooled drv (tx_attempt m) db n = (r, db', n') →
  ∃ r1, r = Ok r1 ∧ pooled drv m db n = (r1, db', n').
Proof.
  rewrite pooled_attempt. destruct (pooled drv m db n) as [[r1 db1] n1].
  intros [= <- <- <-]. by exists r1.
Qed.

Lemma pooled_stmt_inv {X} drv (body : D → result (X * D)) db n r db' n' :
  pooled drv (stmt body) db n = (r, db', n') →
  (∃ x, r = Ok x ∧ body db = Ok (x, db')) ∨
  ∃ e, r = Err e ∧ db' = db ∧ (e = ErrSQL ∨ body db = Err e).
Proof.
  unfold stmt. cbn. destruct (round_trip_fails drv n); [intros [= <- <- _]; eauto 6|].
  destruct (body db) as [[x d]|e]; intros [= <- <- _]; eauto 6.
Qed.

Lemma pooled_all {A} drv (R : D → D → Prop) `{!PreOrder R} (m : Tx D A) : ∀ db n r db' n',
  tx_all R m → pooled drv m db n = (r, db', n') → R db db'.
Proof.
  induction m as [r0|X body k IH|X q k IH|k IH]; intros db n r db' n' Hm H; cbn in *.
  - by injection H as _ <- _.
  - destruct Hm as [Hb Hk]. destruct (round_trip_fails drv n); [by eapply IH|].
    destruct (body db) as [[x db1]|e] eqn:E; [|by eapply IH].
    etransitivity; [by eapply Hb|by eapply IH].
  - destruct (round_trip_fails drv n); by eapply IH.
  - by eapply IH.
Qed.
End Pool.

(** ** Programs that close the row sets they open *)

Definition Balanced {D A} (m : Tx D A) : Prop :=
  ∀ busy o db r o' db', exec busy m o db = Some (r, o', db') → o' = o.

Section Balance.
Context {D : Type}.

Lemma balanced_ret {A} (r : result A) : Balanced (TxRet (D := D) r).
Proof. by intros busy o db r' o' db' [= _ <- _]. Qed.
Lemma balanced_mret {A} (a : A) : Balanced (D := D) (mret a).
Proof. apply balanced_ret. Qed.
Lemma balanced_throw {A} e : Balanced (D := D) (A := A) (throw e).
Proof. apply balanced_ret. Qed.
Lemma balanced_of {A} (r : result A) : Balanced (D := D) (tx_of r).
Proof. apply balanced_ret. Qed.

Lemma balanced_stmt {X} (body : D → result (X * D)) : Balanced (stmt body).
Proof.
  intros busy o db r o' db'. unfold stmt. cbn.
  destruct (busy && _); [by intros [= _ <- _]|].
  destruct (body db) as [[x db1]|[]]; by intros [= _ <- _].
Qed.

Lemma balanced_bind {A B} (m : Tx D A) (f : A → Tx D B) :
  Balanced m → (∀ a, Balanced (f a)) → Balanced (m ≫= f).
Proof.
  intros Hm Hf busy o db r o' db'. rewrite exec_bind.
  destruct (exec busy m o db) as [[[[a|e] o1] db1]|] eqn:E; [|by intros [= _ <- _]; eapply Hm|done].
  apply Hm in E as ->. by intros H%Hf.
Qed.

Lemma balanced_attempt {A} (m : Tx D A) : Balanced m → Balanced (tx_attempt m).
Proof.
  intros Hm busy o db r o' db'. rewrite exec_attempt.
  destruct (exec busy m o db) as [[[r1 o1] db1]|] eqn:E; [|done].
  apply Hm in E as ->. by intros [= _ <- _].
Qed.

Lemma balanced_each {X} (f : X → Tx D unit) l :
  (∀ x, Balanced (f x)) → Balanced (tx_each f l).
Proof. intros Hf. induction l as [|x l IH]; cbn; [apply balanced_mret|]. by apply balanced_bind. Qed.

Lemma balanced_when b (m : Tx D unit) : Balanced m → Balanced (when b m).
Proof. intros Hm. destruct b; [done|apply balanced_mret]. Qed.

Lemma balanced_with_rows {X} (q : D → result (list X)) (f : X → Tx D unit) :
  (∀ x, Balanced (f x)) → Balanced (with_rows q f).
Proof.
  intros Hf busy o db r o' db'. unfold with_rows. cbn.
  destruct (busy && _); [by intros [= _ <- _]|].
  destruct (q db) as [rows|[]]; cbn; try by intros [= _ <- _].
  change (tx_bind (tx_attempt (tx_each f rows)) (λ r, TxClose (tx_of r)))
    with (tx_attempt (tx_each f rows) ≫= λ r, TxClose (D := D) (tx_of r)).
  rewrite exec_bind, exec_attempt.
  destruct (exec busy (tx_each f rows) (S o) db) as [[[r1 o1] db1]|] eqn:E; [|done].
  apply balanced_each in E as ->; [|done]. cbn. by intros [= _ <- _].
Qed.

(** Sequencing, for committed runs. *)
Lemma commits_bind {A B} busy (m : Tx D A) (f : A → Tx D B) db :
  Balanced m →
  commits busy (m ≫= f) db =
    match commits busy m db with
    | Some (a, db1) => commits busy (f a) db1
    | None => None
    end.
Proof.
  intros Hm. unfold commits. rewrite exec_bind.
  destruct (exec busy m 0 db) as [[[[a|e] o1] db1]|] eqn:E; [|done..].
  by apply Hm in E as ->.
Qed.

Lemma commits_bind_inv {A B} busy (m : Tx D A) (f : A → Tx D B) db p :
  Balanced m → commits busy (m ≫= f) db = Some p →
  ∃ a db1, commits busy m db = Some (a, db1) ∧ commits busy (f a) db1 = Some p.
Proof.
  intros Hm. rewrite commits_bind by done.
  destruct (commits busy m db) as [[a db1]|]; [eauto|done].
Qed.

Lemma commits_stmt {X} busy (body : D → result (X * D)) db :
  commits busy (stmt body) db = match body db with Ok p => Some p | Err _ => None end.
Proof. unfold commits. rewrite exec_stmt. by destruct (body db) as [[x db1]|[]]. Qed.

Lemma commits_of {A} busy (r : result A) (db : D) :
  commits busy (tx_of r) db = match r with Ok a => Some (a, db) | Err _ => None end.
Proof. by destruct r. Qed.

Lemma commits_mret {A} busy (a : A) (db : D) : commits busy (mret a) db = Some (a, db).
Proof. done. Qed.

Lemma commits_throw {A} busy e (db : D) : commits busy (throw (A := A) e) db = None.
Proof. done. Qed.

Lemma commits_attempt {A} busy (m : Tx D A) db :
  commits busy (tx_attempt m) db =
    match exec busy m 0 db with Some (r, _, db1) => Some (r, db1) | None => None end.
Proof.
  unfold commits. rewrite exec_attempt. by destruct (exec busy m 0 db) as [[[r o] db1]|].
Qed.

End Balance.

Create HintDb balance discriminated.
#[export] Hint Constants Opaque : balance.
#[export] Hint Resolve balanced_ret balanced_mret balanced_throw balanced_of balanced_stmt : balance.

(** Follow the structure of a program; [balance] knows the named operations. *)
Ltac balance :=
  intros; cbv beta;
  lazymatch goal with
  | |- Balanced (mbind _ _) => apply balanced_bind; balance
  | |- Balanced (tx_attempt _) => apply balanced_attempt; balance
  | |- Balanced (tx_each _ _) => apply balanced_each; balance
  | |- Balanced (when _ _) => apply balanced_when; balance
  | |- Balanced (with_rows _ _) => apply balanced_with_rows; balance
  | |- Balanced (match ?x with _ => _ end) => destruct x; balance
  | |- Balanced _ => solve [auto with balance]
  end.

(** ** Tables

    A table is a list of rows in insertion order; a statement names the rows it
    is about by a predicate. *)

Definition sql_update {R} (p : R → bool) (f : R → R) (rows : list R) : list R :=
  map (λ r, if p r then f r else r) rows.

Definition sql_select {R} (p : R → bool) (rows : list R) : list R := List.filter p rows.

Definition sql_count {R} (p : R → bool) (rows : list R) : Z :=
  Z.of_nat (length (List.filter p rows)).

(** A query for one row: the first, or [sql.ErrNoRows]. *)
Definition sql_get {R} (p : R → bool) (rows : list R) : result R :=
  match List.filter p rows with r :: _ => Ok r | [] => Err ErrNoRows end.

(** An update is refused when a new row violates the table's CHECK constraints. *)
Definition update_rows {R} (check : R → bool) (p : R → bool) (f : R → R) (rows : list R)
    : result (Z * list R) :=
  if forallb (λ r, negb (p r) || check (f r)) rows
  then Ok (sql_count p rows, sql_update p f rows) else Err ErrSQL.

(** An insert is refused when the row violates a CHECK or a unique constraint. *)
Definition insert_row {R} (check : R → bool) (conflict : R → R → bool) (r : R) (rows : list R)
    : result (list R) :=
  if check r && negb (existsb (conflict r) rows) then Ok (rows ++ [r]) else Err ErrSQL.

Lemma insert_row_Ok {R} check conflict (r : R) rows rows' :
  insert_row check conflict r rows = Ok rows' → rows' = rows ++ [r].
Proof. unfold insert_row. destruct (_ && _); [by intros [= <-]|done]. Qed.

Lemma insert_row_inv {R} check conflict (r : R) rows rows' :
  insert_row check conflict r rows = Ok rows' →
  rows' = rows ++ [r] ∧ check r = true ∧ ∀ r', r' ∈ rows → conflict r r' = false.
Proof.
  unfold insert_row. destruct (check r); [|done]. cbn.
  destruct (existsb (conflict r) rows) eqn:E; [done|]. intros [= <-]. split_and!; [done..|].
  intros r' Hr'. apply not_true_is_false. intros Hc.
  rewrite (proj2 (existsb_exists _ _)) in E; [done|]. exists r'. by rewrite <- list_elem_of_In.
Qed.

Lemma insert_row_Err {R} check conflict (r : R) rows e :
  insert_row check conflict r rows = Err e → e = ErrSQL.
Proof. unfold insert_row. destruct (_ && _); [done|by intros [= <-]]. Qed.

Lemma sql_update_length {R} p f (rows : list R) : length (sql_update p f rows) = length rows.
Proof. apply length_map. Qed.

Lemma sql_update_map {R B} (g : R → B) p f (rows : list R) :
  (∀ r, g (f r) = g r) → map g (sql_update p f rows) = map g rows.
Proof.
  intros Hg. unfold sql_update. rewrite map_map. apply map_ext. intros r.
  by destruct (p r).
Qed.

Lemma sql_update_forall {R} (P : R → Prop) p f (rows : list R) :
  (∀ r, P r → p r = true → P (f r)) → Forall P rows → Forall P (sql_update p f rows).
Proof.
  intros Hf. induction 1 as [|r rows Hr _ IH]; cbn; constructor; [|done].
  destruct (p r) eqn:E; auto.
Qed.

Lemma sql_update_none {R} p f (rows : list R) :
  (∀ r, r ∈ rows → p r = false) → sql_update p f rows = rows.
Proof.
  intros Hp. induction rows as [|r rows IH]; cbn; [done|].
  rewrite (Hp r) by (by left). f_equal. apply IH. intros x Hx. apply Hp. by right.
Qed.

Lemma Forall2_compose {A B C} (P : A → B → Prop) (Q : B → C → Prop) (S : A → C → Prop) l1 l2 l3 :
  (∀ a b c, P a b → Q b c → S a c) → Forall2 P l1 l2 → Forall2 Q l2 l3 → Forall2 S l1 l3.
Proof.
  intros HS H. revert l3. induction H as [|a b l1 l2 Hab _ IH]; intros l3 H3.
  - apply Forall2_nil_inv_l in H3 as ->. constructor.
  - apply Forall2_cons_inv_l in H3 as (c & l3' & Hbc & H3 & ->). constructor; eauto.
Qed.

(** An update row by row. *)
Lemma sql_update_Forall2 {R} (P : R → R → Prop) (p : R → bool) (f : R → R) (rows : list R) :
  (∀ r, r ∈ rows → P r (if p r then f r else r)) → Forall2 P rows (sql_update p f rows).
Proof.
  intros H. unfold sql_update. apply Forall2_fmap_r, Forall_Forall2_diag.
  apply Forall_forall. exact H.
Qed.

Lemma sql_update_elem {R} p f (rows : list R) r :
  r ∈ sql_update p f rows ↔ ∃ r0, r0 ∈ rows ∧ r = if p r0 then f r0 else r0.
Proof.
  unfold sql_update. rewrite list_elem_of_In, in_map_iff. setoid_rewrite list_elem_of_In.
  naive_solver.
Qed.

Lemma sql_update_app {R} p f (rows1 rows2 : list R) :
  sql_update p f (rows1 ++ rows2) = sql_update p f rows1 ++ sql_update p f rows2.
Proof. apply map_app. Qed.

Lemma sql_get_Ok {R} p (rows : list R) r :
  sql_get p rows = Ok r → r ∈ rows ∧ p r = true.
Proof.
  unfold sql_get. destruct (List.filter p rows) as [|x l] eqn:E; [done|]. intros [= ->].
  assert (In r (List.filter p rows)) as [? ?]%filter_In by (rewrite E; by left).
  by rewrite list_elem_of_In.
Qed.

Lemma sql_get_Err {R} p (rows : list R) e : sql_get p rows = Err e → e = ErrNoRows.
Proof. unfold sql_get. destruct (List.filter _ _); congruence. Qed.

Lemma sql_get_existsb {R} p (rows : list R) : existsb p rows = is_Ok (sql_get p rows).
Proof.
  unfold sql_get. induction rows as [|r rows IH]; cbn; [done|]. by destruct (p r).
Qed.

Lemma sql_get_unique {R} (key : R → string) (rows : list R) r :
  NoDup (map key rows) → r ∈ rows → sql_get (λ x, key x =?s key r) rows = Ok r.
Proof.
  intros Hn Hr. unfold sql_get.
  induction rows as [|x rows IH]; [by apply elem_of_nil in Hr|]. cbn.
  apply NoDup_cons in Hn as [Hx Hn]. apply elem_of_cons in Hr as [->|Hr].
  - by rewrite string_eqb_refl.
  - destruct (String.eqb_spec (key x) (key r)) as [E|E]; [|by apply IH].
    exfalso. apply Hx. rewrite E. apply list_elem_of_In, in_map, list_elem_of_In. done.
Qed.

(** A lookup by key after an update that keeps the key. *)
Lemma sql_get_update {R} (key : R → string) x p f (rows : list R) :
  (∀ r, key (f r) = key r) →
  sql_get (λ r, key r =?s x) (sql_update p f rows) =
    (λ r, if p r then f r else r) <$> sql_get (λ r, key r =?s x) rows.
Proof.
  intros Hk. unfold sql_get. induction rows as [|r rows IH]; cbn; [done|].
  assert (E : key (if p r then f r else r) = key r) by (by destruct (p r)).
  rewrite E. by destruct (key r =?s x).
Qed.

Lemma sql_count_pos {R} p (rows : list R) r : r ∈ rows → p r = true → 0 < sql_count p rows.
Proof.
  intros Hr Hp. unfold sql_count.
  assert (In r (List.filter p rows)) as Hin by (apply filter_In; by rewrite <- list_elem_of_In).
  destruct (List.filter p rows); [done|]. cbn. lia.
Qed.

Lemma sql_count_nonneg {R} p (rows : list R) : 0 ≤ sql_count p rows.
Proof. unfold sql_count. lia. Qed.

Lemma sql_count_zero {R} p (rows : list R) :
  sql_count p rows = 0 ↔ ∀ r, r ∈ rows → p r = false.
Proof.
  unfold sql_count. split.
  - intros H r Hr. destruct (List.filter p rows) as [|x l] eqn:E; [|cbn in H; lia].
    destruct (p r) eqn:Ep; [|done]. exfalso.
    assert (In r (List.filter p rows)) as Hin by (apply filter_In; by rewrite <- list_elem_of_In).
    by rewrite E in Hin.
  - intros H. replace (List.filter p rows) with (@nil R); [done|].
    induction rows as [|x rows IH]; [done|]. cbn. rewrite (H x) by (by left).
    apply IH. intros r Hr. apply H. by right.
Qed.

Lemma sql_count_existsb {R} p (rows : list R) : (sql_count p rows =? 0) = negb (existsb p rows).
Proof.
  destruct (existsb p rows) eqn:E; cbn.
  - apply existsb_exists in E as (r & Hr%list_elem_of_In & Hp).
    pose proof (sql_count_pos p rows r Hr Hp). lia.
  - apply Z.eqb_eq, sql_count_zero. intros r Hr%list_elem_of_In.
    destruct (p r) eqn:Ep; [|done]. rewrite <- E. symmetry. apply existsb_exists. by exists r.
Qed.

(** Rows that differ in a key are different rows. *)
Lemma key_unique {R K} (key : R → K) (rows : list R) x y :
  NoDup (map key rows) → x ∈ rows → y ∈ rows → key x = key y → x = y.
Proof.
  induction rows as [|r rows IH]; intros Hn Hx Hy E; [by apply elem_of_nil in Hx|].
  cbn in Hn. apply NoDup_cons in Hn as [Hr Hn].
  apply elem_of_cons in Hx as [->|Hx]; apply elem_of_cons in Hy as [->|Hy]; auto.
  - destruct Hr. apply list_elem_of_fmap. by exists y.
  - destruct Hr. apply list_elem_of_fmap. by exists x.
Qed.

(** An update of rows that are not selected, and are not selected afterwards. *)
Lemma filter_update_other {R} (q p : R → bool) f (rows : list R) :
  (∀ r, r ∈ rows → p r = true → q r = false ∧ q (f r) = false) →
  List.filter q (sql_update p f rows) = List.filter q rows.
Proof.
  induction rows as [|r rows IH]; intros H; cbn; [done|].
  change (map _ rows) with (sql_update p f rows).
  rewrite IH by (intros x Hx; apply H; by right).
  destruct (p r) eqn:Ep; [|done]. destruct (H r) as [-> ->]; [by left|done|done].
Qed.

Lemma sql_select_elem {R} p (rows : list R) r : r ∈ sql_select p rows ↔ r ∈ rows ∧ p r = true.
Proof. unfold sql_select. rewrite !list_elem_of_In. apply filter_In. Qed.

#[export] Hint Resolve tx_all_bind tx_all_attempt tx_all_each tx_all_with_rows tx_all_when : golib.
