(* ===== verification/Schema.v ===== *)
(** * The database of the workflow engine

    The tables the modelled services read and write, one record per table with
    the columns they use (db/migrations), the constraints the writes meet, and
    what an operation finds around it: the clocks, the identifiers the server
    generates and the request context. *)

From Stdlib Require Import Ascii String ZArith Lia.
From stdpp Require Import base list strings.
From S2P Require Import Prelude Float64 SqlTx ApprovalExpr RetryPolicy CaseConfig VersionDiff.

Open Scope Z_scope.
Open Scope go_scope.

(** ** Rows

    Instants are nanoseconds; a nullable column is an [option]; amounts are in
    hundredths; a JSON column is its decoded value. *)

(** One hop of a delegation chain. *)
Record delegation_hop := {
  hop_from : string; hop_to : string; hop_by : option string; hop_at : Z;
}.

(** A row of [cases]. *)
Record case_row := {
  c_id : string; c_tenant_id : string; c_case_type_id : string;
  c_source_case_id : option string; c_current_stage_code : option string;
  c_current_stage_ordinal : Z; c_status : string; c_metadata : value;
  c_assigned_to : option string; c_assigned_user_id : option string; c_rework_count : Z;
  c_max_rework_attempts : Z; c_row_version : Z; c_created_at : Z; c_completed_at : option Z;
  c_suspend_reason : option string; c_resume_at : option Z;
  c_withdrawal_reason : option string; c_emergency_closed_at : option Z;
  c_emergency_reason : option string; c_supervisor_id : option string;
  c_effective_start_time : option Z; c_due_at : option Z; c_sla_duration_ms : option Z;
  c_sla_calendar_id : option string; c_sla_warning_issued_at : option Z;
  c_sla_critical_issued_at : option Z;
  c_parent_case_id : option string; c_case_type_version_id : option string;
  c_exception_at : option Z; c_exception_reason : option string;
  c_exception_task_id : option string; c_exception_severity : option string;
  c_case_complexity : option string; c_required_skills : option (list string);
}.
#[export] Instance case_row_eta : Eta case_row := λ x,
  {| c_id := c_id x; c_tenant_id := c_tenant_id x; c_case_type_id := c_case_type_id x;
     c_source_case_id := c_source_case_id x; c_current_stage_code := c_current_stage_code x;
     c_current_stage_ordinal := c_current_stage_ordinal x; c_status := c_status x;
     c_metadata := c_metadata x; c_assigned_to := c_assigned_to x;
     c_assigned_user_id := c_assigned_user_id x; c_rework_count := c_rework_count x;
     c_max_rework_attempts := c_max_rework_attempts x; c_row_version := c_row_version x;
     c_created_at := c_created_at x; c_completed_at := c_completed_at x;
     c_suspend_reason := c_suspend_reason x; c_resume_at := c_resume_at x;
     c_withdrawal_reason := c_withdrawal_reason x;
     c_emergency_closed_at := c_emergency_closed_at x;
     c_emergency_reason := c_emergency_reason x; c_supervisor_id := c_supervisor_id x;
     c_effective_start_time := c_effective_start_time x; c_due_at := c_due_at x;
     c_sla_duration_ms := c_sla_duration_ms x; c_sla_calendar_id := c_sla_calendar_id x;
     c_sla_warning_issued_at := c_sla_warning_issued_at x;
     c_sla_critical_issued_at := c_sla_critical_issued_at x;
     c_parent_case_id := c_parent_case_id x; c_case_type_version_id := c_case_type_version_id x;
     c_exception_at := c_exception_at x; c_exception_reason := c_exception_reason x;
     c_exception_task_id := c_exception_task_id x;
     c_exception_severity := c_exception_severity x;
     c_case_complexity := c_case_complexity x; c_required_skills := c_required_skills x |}.

(** A row of [tasks]. *)
Record task_row := {
  t_id : string; t_case_id : string; t_task_definition_code : string; t_activity_code : string;
  t_stage_code : string; t_status : string; t_priority : Z; t_assigned_service : option string;
  t_assignee_id : option string; t_assigned_at : option Z; t_last_heartbeat_at : option Z;
  t_completed_at : option Z; t_version : Z; t_created_at : Z; t_workbasket_id : option string;
  t_effective_start_time : option Z; t_due_at : option Z; t_task_due_at : option Z;
  t_sla_duration_ms : option Z; t_sla_calendar_id : option string;
  t_sla_warning_issued_at : option Z; t_sla_critical_issued_at : option Z; t_max_retries : Z;
  t_idempotency_key : string; t_error_reason : option string; t_requires_approval : bool;
  t_approval_gate_id : option string; t_approval_amount : option Z;
  t_tenant_id : string;
  t_assigned_team_id : option string;
  t_is_document_verification : bool;
  t_started_at : option Z;
  t_retry_count : Z;
  t_total_failure_count : Z;
  t_next_retry_at : option Z;
  t_input_payload : value;
  t_output_payload : value;
  t_error_detail : option value;
  t_last_error_code : option string;
  t_last_error_class : option string;
  t_is_poison_pill : bool;
  t_poison_pill_quarantined_at : option Z;
  t_poison_pill_reason : option string;
  t_sla_warning_pct : option Z;
  t_sla_critical_pct : option Z;
  t_sla_breach_action : option string;
  t_assigned_user_id : option string;
  t_required_skills : option (list (string * string));   (* code, least proficiency *)
}.
#[export] Instance task_row_eta : Eta task_row := λ x,
  {| t_id := t_id x; t_case_id := t_case_id x;
     t_task_definition_code := t_task_definition_code x; t_activity_code := t_activity_code x;
     t_stage_code := t_stage_code x; t_status := t_status x; t_priority := t_priority x;
     t_assigned_service := t_assigned_service x; t_assignee_id := t_assignee_id x;
     t_assigned_at := t_assigned_at x; t_last_heartbeat_at := t_last_heartbeat_at x;
     t_completed_at := t_completed_at x; t_version := t_version x;
     t_created_at := t_created_at x; t_workbasket_id := t_workbasket_id x;
     t_effective_start_time := t_effective_start_time x; t_due_at := t_due_at x;
     t_task_due_at := t_task_due_at x; t_sla_duration_ms := t_sla_duration_ms x;
     t_sla_calendar_id := t_sla_calendar_id x;
     t_sla_warning_issued_at := t_sla_warning_issued_at x;
     t_sla_critical_issued_at := t_sla_critical_issued_at x; t_max_retries := t_max_retries x;
     t_idempotency_key := t_idempotency_key x; t_error_reason := t_error_reason x;
     t_requires_approval := t_requires_approval x; t_approval_gate_id := t_approval_gate_id x;
     t_approval_amount := t_approval_amount x;
     t_tenant_id := t_tenant_id x;
     t_assigned_team_id := t_assigned_team_id x;
     t_is_document_verification := t_is_document_verification x;
     t_started_at := t_started_at x;
     t_retry_count := t_retry_count x;
     t_total_failure_count := t_total_failure_count x;
     t_next_retry_at := t_next_retry_at x;
     t_input_payload := t_input_payload x;
     t_output_payload := t_output_payload x;
     t_error_detail := t_error_detail x;
     t_last_error_code := t_last_error_code x;
     t_last_error_class := t_last_error_class x;
     t_is_poison_pill := t_is_poison_pill x;
     t_poison_pill_quarantined_at := t_poison_pill_quarantined_at x;
     t_poison_pill_reason := t_poison_pill_reason x;
     t_sla_warning_pct := t_sla_warning_pct x;
     t_sla_critical_pct := t_sla_critical_pct x;
     t_sla_breach_action := t_sla_breach_action x;
     t_assigned_user_id := t_assigned_user_id x;
     t_required_skills := t_required_skills x |}.

(** A row of [approval_gates]. *)
Record gate_row := {
  g_id : string; g_task_id : string; g_case_id : string; g_policy : string; g_required : Z;
  g_selection : string; g_approvers : list string; g_timeout_hours : Z;
  g_on_timeout_action : string; g_rejection_behavior : string; g_rework_target : option string;
  g_fallback_role : option string; g_dynamic_rule : option string;
  g_authority_limit : option Z; g_amount : option Z; g_chain : list tier_def;
  g_status : string; g_opened_at : option Z; g_closed_at : option Z; g_version : Z;
}.
#[export] Instance gate_row_eta : Eta gate_row := λ x,
  {| g_id := g_id x; g_task_id := g_task_id x; g_case_id := g_case_id x;
     g_policy := g_policy x; g_required := g_required x; g_selection := g_selection x;
     g_approvers := g_approvers x; g_timeout_hours := g_timeout_hours x;
     g_on_timeout_action := g_on_timeout_action x;
     g_rejection_behavior := g_rejection_behavior x; g_rework_target := g_rework_target x;
     g_fallback_role := g_fallback_role x; g_dynamic_rule := g_dynamic_rule x;
     g_authority_limit := g_authority_limit x; g_amount := g_amount x; g_chain := g_chain x;
     g_status := g_status x; g_opened_at := g_opened_at x; g_closed_at := g_closed_at x;
     g_version := g_version x |}.

(** A row of [approval_requests]. *)
Record request_row := {
  r_id : string; r_gate_id : string; r_approver_id : string; r_tier : option Z;
  r_status : string; r_decision : option string; r_evidence : list string;
  r_decided_at : option Z; r_decided_by : option string; r_expires_at : Z;
  r_delegated_to_id : option string; r_delegated_at : option Z;
  r_delegation_chain : list delegation_hop; r_version : Z;
}.
#[export] Instance request_row_eta : Eta request_row := λ x,
  {| r_id := r_id x; r_gate_id := r_gate_id x; r_approver_id := r_approver_id x;
     r_tier := r_tier x; r_status := r_status x; r_decision := r_decision x;
     r_evidence := r_evidence x; r_decided_at := r_decided_at x;
     r_decided_by := r_decided_by x; r_expires_at := r_expires_at x;
     r_delegated_to_id := r_delegated_to_id x; r_delegated_at := r_delegated_at x;
     r_delegation_chain := r_delegation_chain x; r_version := r_version x |}.

(** A row of [approval_chain_state]. *)
Record chain_row := {
  ch_id : string; ch_case_id : string; ch_gate_id : string; ch_definition : list tier_def;
  ch_current_tier : Z; ch_tier_status : string; ch_chain_status : string;
  ch_tier_started_at : option Z; ch_tier_completed_at : option Z;
}.
#[export] Instance chain_row_eta : Eta chain_row := λ x,
  {| ch_id := ch_id x; ch_case_id := ch_case_id x; ch_gate_id := ch_gate_id x;
     ch_definition := ch_definition x; ch_current_tier := ch_current_tier x;
     ch_tier_status := ch_tier_status x; ch_chain_status := ch_chain_status x;
     ch_tier_started_at := ch_tier_started_at x;
     ch_tier_completed_at := ch_tier_completed_at x |}.

(** A row of [approval_audit_log]. *)
Record audit_row := {
  al_request_id : string; al_event_type : string; al_actor_id : string;
  al_decision_text : option string; al_previous_state : string; al_new_state : string;
}.
#[export] Instance audit_row_eta : Eta audit_row := λ x,
  {| al_request_id := al_request_id x; al_event_type := al_event_type x;
     al_actor_id := al_actor_id x; al_decision_text := al_decision_text x;
     al_previous_state := al_previous_state x; al_new_state := al_new_state x |}.

(** A row of [case_stage_transitions]. *)
Record transition_row := {
  st_case_id : string; st_from_code : option string; st_from_ordinal : option Z; st_to_code : string;
  st_to_ordinal : Z; st_is_regression : bool; st_reason : option string; st_triggered_by : string;
}.
#[export] Instance transition_row_eta : Eta transition_row := λ x,
  {| st_case_id := st_case_id x; st_from_code := st_from_code x;
     st_from_ordinal := st_from_ordinal x; st_to_code := st_to_code x;
     st_to_ordinal := st_to_ordinal x; st_is_regression := st_is_regression x;
     st_reason := st_reason x; st_triggered_by := st_triggered_by x |}.

(** A row of [sla_pause_log]. *)
Record pause_row := {
  pl_entity_type : string; pl_entity_id : string; pl_paused_at : Z; pl_resumed_at : option Z;
  pl_reason : string; pl_elapsed_ms : Z; pl_action : string; pl_created_at : Z;
}.
#[export] Instance pause_row_eta : Eta pause_row := λ x,
  {| pl_entity_type := pl_entity_type x; pl_entity_id := pl_entity_id x;
     pl_paused_at := pl_paused_at x; pl_resumed_at := pl_resumed_at x;
     pl_reason := pl_reason x; pl_elapsed_ms := pl_elapsed_ms x; pl_action := pl_action x;
     pl_created_at := pl_created_at x |}.

(** A row of [four_eyes_tokens]. *)
Record token_row := {
  fe_token : string; fe_case_id : string; fe_issuer_id : string; fe_expires_at : Z;
  fe_consumed_at : option Z; fe_consumed_by : option string;
}.
#[export] Instance token_row_eta : Eta token_row := λ x,
  {| fe_token := fe_token x; fe_case_id := fe_case_id x; fe_issuer_id := fe_issuer_id x;
     fe_expires_at := fe_expires_at x; fe_consumed_at := fe_consumed_at x;
     fe_consumed_by := fe_consumed_by x |}.

(** A row of [users]. *)
Record user_row := {
  u_id : string; u_role_code : string; u_manager_id : option string; u_status : string;
  u_created_at : Z; u_user_id : string; u_tenant_id : string; u_username : string;
  u_email : string; u_display_name : string; u_auth_provider : string;
  u_external_id : option string; u_timezone : string; u_locale : string;
}.
#[export] Instance user_row_eta : Eta user_row := λ x,
  {| u_id := u_id x; u_role_code := u_role_code x; u_manager_id := u_manager_id x;
     u_status := u_status x; u_created_at := u_created_at x; u_user_id := u_user_id x;
     u_tenant_id := u_tenant_id x; u_username := u_username x; u_email := u_email x;
     u_display_name := u_display_name x; u_auth_provider := u_auth_provider x;
     u_external_id := u_external_id x; u_timezone := u_timezone x; u_locale := u_locale x |}.

(** A row of [document_types]. *)
Record doctype_row := {
  dt_case_type_code : string; dt_case_type_version : Z; dt_code : string;
  dt_required_at_stage : option string; dt_required_count_min : Z; dt_required_count_max : Z;
}.
(** A row of [document_requests]. *)
Record docreq_row := {
  dr_case_id : string; dr_case_type_code : string; dr_case_type_version : Z; dr_code : string;
  dr_required_at_stage : string; dr_required_count_min : Z; dr_required_count_max : Z;
  dr_current_count : Z; dr_status : string;
}.

(** A row of [audit_trail]. *)
Record trail_row := {
  tr_case_id : string; tr_action : string; tr_entity_type : string; tr_entity_id : option string;
  tr_actor_id : string; tr_actor_type : string; tr_delta : list (string * value);
}.

(** A row of [events_outbox], and the [model.Event] it is written from. *)
Record event_row := {
  ev_tenant_id : string; ev_case_id : option string; ev_task_id : option string;
  ev_type : string; ev_payload : list (string * value); ev_status : string;
  ev_target_service : string; ev_max_attempts : Z; ev_partition_key : option string;
  ev_trace_id : option string; ev_attempts : Z; ev_last_attempted_at : option Z;
  ev_delivered_at : option Z;
}.
#[export] Instance event_row_eta : Eta event_row := λ x,
  {| ev_tenant_id := ev_tenant_id x; ev_case_id := ev_case_id x; ev_task_id := ev_task_id x;
     ev_type := ev_type x; ev_payload := ev_payload x; ev_status := ev_status x;
     ev_target_service := ev_target_service x; ev_max_attempts := ev_max_attempts x;
     ev_partition_key := ev_partition_key x; ev_trace_id := ev_trace_id x;
     ev_attempts := ev_attempts x; ev_last_attempted_at := ev_last_attempted_at x;
     ev_delivered_at := ev_delivered_at x |}.

(** A row of [webhook_subscriptions]. *)
Record subscription_row := {
  ws_id : string; ws_tenant_id : string; ws_status : string; ws_event_types : list string;
  ws_max_failures : Z;
}.
#[export] Instance subscription_row_eta : Eta subscription_row := λ x,
  {| ws_id := ws_id x; ws_tenant_id := ws_tenant_id x; ws_status := ws_status x;
     ws_event_types := ws_event_types x; ws_max_failures := ws_max_failures x |}.

(** A row of [webhook_delivery_queue]. *)
Record delivery_row := {
  wd_subscription_id : string; wd_tenant_id : string; wd_event_type : string;
  wd_payload : list (string * value); wd_status : string; wd_attempts : Z; wd_max_attempts : Z;
  wd_scheduled_at : Z;
}.
#[export] Instance delivery_row_eta : Eta delivery_row := λ x,
  {| wd_subscription_id := wd_subscription_id x; wd_tenant_id := wd_tenant_id x;
     wd_event_type := wd_event_type x; wd_payload := wd_payload x; wd_status := wd_status x;
     wd_attempts := wd_attempts x; wd_max_attempts := wd_max_attempts x;
     wd_scheduled_at := wd_scheduled_at x |}.


(** A row of [teams]. *)
Record team_row := {
  tm_id : string; tm_tenant_id : string; tm_code : string; tm_status : string;
  tm_display_name : string; tm_type : string; tm_parent_id : option string;
  tm_manager_id : option string;
}.
#[export] Instance team_row_eta : Eta team_row := λ x,
  {| tm_id := tm_id x; tm_tenant_id := tm_tenant_id x; tm_code := tm_code x;
     tm_status := tm_status x; tm_display_name := tm_display_name x; tm_type := tm_type x;
     tm_parent_id := tm_parent_id x; tm_manager_id := tm_manager_id x |}.

(** A row of [circuit_breaker_state]. *)
Record breaker_row := {
  cb_channel : string; cb_state : string; cb_failure_count : Z; cb_success_count : Z;
  cb_last_failure_at : option Z; cb_opened_at : option Z; cb_half_open_at : option Z;
  cb_threshold_failures : Z; cb_cooldown_seconds : Z;
}.
#[export] Instance breaker_row_eta : Eta breaker_row := λ x,
  {| cb_channel := cb_channel x; cb_state := cb_state x; cb_failure_count := cb_failure_count x;
     cb_success_count := cb_success_count x; cb_last_failure_at := cb_last_failure_at x;
     cb_opened_at := cb_opened_at x; cb_half_open_at := cb_half_open_at x;
     cb_threshold_failures := cb_threshold_failures x;
     cb_cooldown_seconds := cb_cooldown_seconds x |}.

(** A row of [user_authority]: what a user may approve, in hundredths. *)
Record authority_row := {
  ua_user_id : string; ua_max_amount : Z; ua_expires_at : option Z; ua_revoked_at : option Z;
}.

(** A row of [workbaskets], and of [worker_availability] with its worker: the time the
    worker is out of office. *)
Record workbasket_row := {
  wb_id : string; wb_type : string; wb_strategy : string; wb_cursor : option string;
}.
#[export] Instance workbasket_row_eta : Eta workbasket_row := λ x,
  {| wb_id := wb_id x; wb_type := wb_type x; wb_strategy := wb_strategy x;
     wb_cursor := wb_cursor x |}.
(** Rows of [workers], [workbasket_members] and [worker_skills]. *)
Record worker_row := { wk_id : string; wk_max_concurrent_tasks : Z; wk_status : string }.
Record member_row := { bm_workbasket_id : string; bm_worker_id : string }.
Record skill_row := { sk_worker_id : string; sk_code : string; sk_proficiency : string }.
(** Rows of [team_members], [roles] and [user_roles]. *)
Record team_member_row := {
  mb_team_id : string; mb_user_id : string; mb_tenant_id : string; mb_role : string;
  mb_added_by : string;
}.
#[export] Instance team_member_row_eta : Eta team_member_row := λ x,
  {| mb_team_id := mb_team_id x; mb_user_id := mb_user_id x; mb_tenant_id := mb_tenant_id x;
     mb_role := mb_role x; mb_added_by := mb_added_by x |}.
Record role_row := {
  ro_id : string; ro_tenant_id : string; ro_code : string; ro_is_system : bool;
  ro_permissions : list string;
}.
#[export] Instance role_row_eta : Eta role_row := λ x,
  {| ro_id := ro_id x; ro_tenant_id := ro_tenant_id x; ro_code := ro_code x;
     ro_is_system := ro_is_system x; ro_permissions := ro_permissions x |}.
Record user_role_row := {
  ur_user_id : string; ur_role_id : string; ur_tenant_id : string; ur_assigned_by : string;
}.
Record absence_row := { wa_worker_id : string; wa_from : Z; wa_until : Z }.

(** A row of [sla_breach_log]. *)
Record breach_row := {
  bl_task_id : option string; bl_case_id : option string; bl_original_due_at : option Z;
  bl_detected_at : Z; bl_assignee : option string; bl_elapsed_percentage : option Z;
}.

(** A row of [task_retry_history]. *)
Record retry_row := {
  rh_task_id : string; rh_case_id : string; rh_attempt_number : Z; rh_retry_count_before : Z;
  rh_max_retries : Z; rh_backoff_strategy : string; rh_base_interval_seconds : Z;
  rh_max_interval_seconds : Z; rh_computed_interval_seconds : Z; rh_scheduled_at : Z;
  rh_next_attempt_at : option Z; rh_error_code : string; rh_error_class : string;
  rh_error_detail : value; rh_source_service : string; rh_outcome : string;
}.

(** A row of [task_dlq]. *)
Record dlq_row := {
  dl_id : string; dl_task_id : string; dl_case_id : string; dl_failure_reason : string;
  dl_error_detail : value; dl_moved_at : Z; dl_requeue_count : Z; dl_last_requeue_at : option Z;
  dl_is_poison_pill : bool; dl_quarantine_released_at : option Z; dl_soft_deleted_at : option Z;
}.
#[export] Instance dlq_row_eta : Eta dlq_row := λ x,
  {| dl_id := dl_id x; dl_task_id := dl_task_id x; dl_case_id := dl_case_id x;
     dl_failure_reason := dl_failure_reason x; dl_error_detail := dl_error_detail x;
     dl_moved_at := dl_moved_at x; dl_requeue_count := dl_requeue_count x;
     dl_last_requeue_at := dl_last_requeue_at x; dl_is_poison_pill := dl_is_poison_pill x;
     dl_quarantine_released_at := dl_quarantine_released_at x;
     dl_soft_deleted_at := dl_soft_deleted_at x |}.

(** A row of [task_compensations]. *)
Record compensation_row := {
  tc_id : string; tc_case_id : string; tc_failed_task_id : string; tc_failed_code : string;
  tc_compensating_code : string; tc_compensating_task_id : option string; tc_status : string;
  tc_started_at : Z; tc_completed_at : option Z; tc_error_detail : option value;
}.
#[export] Instance compensation_row_eta : Eta compensation_row := λ x,
  {| tc_id := tc_id x; tc_case_id := tc_case_id x; tc_failed_task_id := tc_failed_task_id x;
     tc_failed_code := tc_failed_code x; tc_compensating_code := tc_compensating_code x;
     tc_compensating_task_id := tc_compensating_task_id x; tc_status := tc_status x;
     tc_started_at := tc_started_at x; tc_completed_at := tc_completed_at x;
     tc_error_detail := tc_error_detail x |}.

(** A row of [activity_definitions]. *)
Record activity_row := {
  af_case_type_id : string; af_case_type_version : Z; af_stage_code : string;
  af_activity_code : string;
}.

(** A row of [case_type_audit_log]; a value is a configuration, an object or the names of
    fields. *)
Inductive audit_value :=
  | AuditConfig (c : CaseTypeConfig)
  | AuditObject (m : list (string * value))
  | AuditFields (fields : list string).
Record ct_audit_row := {
  ca_case_type_id : string; ca_action : string; ca_actor : string;
  ca_changed_fields : option audit_value; ca_previous_value : option audit_value;
  ca_new_value : option audit_value; ca_occurred_at : Z;
}.

(** A row of [case_type_version_diffs]. *)
Record ct_diff_row := {
  cd_id : string; cd_code : string; cd_from : string; cd_to : string; cd_from_version : Z;
  cd_to_version : Z; cd_diff : CaseTypeVersionDiff; cd_computed_by : string; cd_computed_at : Z;
}.

(** The configuration of a tenant (multitenancy/types.go). *)
Record TenantFeatureFlags := {
  CompensationEnabled : bool; DLQRequeueEnabled : bool; NotificationEnabled : bool;
  SubCaseEnabled : bool; SLAEnforcement : bool;
}.
Record TenantConfig := {
  MaxActiveCases : Z; MaxConcurrentTasks : Z; MaxCasesPerMinute : Z;
  AllowedCaseTypeCodes : list string; FeatureFlags : TenantFeatureFlags;
  SLAMultiplier : float64;
}.
#[export] Instance TenantConfig_eta : Eta TenantConfig := λ x,
  {| MaxActiveCases := MaxActiveCases x; MaxConcurrentTasks := MaxConcurrentTasks x;
     MaxCasesPerMinute := MaxCasesPerMinute x;
     AllowedCaseTypeCodes := AllowedCaseTypeCodes x; FeatureFlags := FeatureFlags x;
     SLAMultiplier := SLAMultiplier x |}.

(** A row of [tenants]; [None] is a configuration that is no [TenantConfig]. *)
Record tenant_row := {
  tn_id : string; tn_code : string; tn_name : string; tn_status : string; tn_tier : string;
  tn_config : option TenantConfig;
}.
#[export] Instance tenant_row_eta : Eta tenant_row := λ x,
  {| tn_id := tn_id x; tn_code := tn_code x; tn_name := tn_name x; tn_status := tn_status x;
     tn_tier := tn_tier x; tn_config := tn_config x |}.

(** A row of [tenant_rate_limit_counters]. *)
Record counter_row := { rl_tenant_id : string; rl_window_start : Z; rl_case_count : Z }.
#[export] Instance counter_row_eta : Eta counter_row := λ x,
  {| rl_tenant_id := rl_tenant_id x; rl_window_start := rl_window_start x;
     rl_case_count := rl_case_count x |}.

(** Rows of [getnext_weights] (the weights in ten thousandths: NUMERIC(5,4)), of
    [getnext_claims], of [case_allocation_transitions] and of the materialized view
    [case_user_affinity]. *)
Record weights_row := {
  gw_tenant_id : string; gw_case_type_code : string; gw_sla : Z; gw_skill : Z; gw_age : Z;
  gw_complexity : Z; gw_value : Z; gw_affinity : Z; gw_workload : Z;
}.
Record claim_row := {
  gc_tenant_id : string; gc_user_id : string; gc_case_id : option string; gc_action : string;
  gc_skip_reason : option string; gc_skip_notes : string; gc_queue_depth : Z;
  gc_user_active_cases : Z; gc_claimed_at : Z;
}.
Record allocation_row := {
  al_tenant_id : string; al_case_id : string; al_entered_at : Z; al_exited_at : option Z;
  al_is_current : bool;
}.
#[export] Instance allocation_row_eta : Eta allocation_row := λ x,
  {| al_tenant_id := al_tenant_id x; al_case_id := al_case_id x;
     al_entered_at := al_entered_at x; al_exited_at := al_exited_at x;
     al_is_current := al_is_current x |}.
Record affinity_row := {
  af_tenant_id : string; af_case_id : string; af_user_id : string; af_score : Z;
}.

(** The tables, and the position in the stream of generated identifiers. *)
Record database := {
  cases : list case_row; tasks : list task_row; gates : list gate_row;
  requests : list request_row; chains : list chain_row; approval_log : list audit_row;
  transitions : list transition_row; pause_log : list pause_row; tokens : list token_row;
  users : list user_row; case_types : list case_type_row; outbox : list event_row;
  subscriptions : list subscription_row; deliveries : list delivery_row;
  doctypes : list doctype_row; docreqs : list docreq_row; audit_trail : list trail_row;
  breakers : list breaker_row; teams : list team_row; uuid_pos : nat;
  authorities : list authority_row; workbaskets : list workbasket_row;
  absences : list absence_row; breach_log : list breach_row; retry_history : list retry_row;
  task_dlq : list dlq_row; compensations : list compensation_row;
  workers : list worker_row; basket_members : list member_row; worker_skills : list skill_row;
  team_members : list team_member_row; roles : list role_row; user_roles : list user_role_row;
  activity_defs : list activity_row; case_type_audit : list ct_audit_row;
  case_type_diffs : list ct_diff_row; tenants : list tenant_row;
  rate_counters : list counter_row; getnext_weights : list weights_row;
  getnext_claims : list claim_row; allocations : list allocation_row;
  affinities : list affinity_row; cases_archive : list case_row; tasks_archive : list task_row;
}.
#[export] Instance database_eta : Eta database := λ x,
  {| cases := cases x; tasks := tasks x; gates := gates x; requests := requests x;
     chains := chains x; approval_log := approval_log x; transitions := transitions x;
     pause_log := pause_log x; tokens := tokens x; users := users x;
     case_types := case_types x; outbox := outbox x; subscriptions := subscriptions x;
     deliveries := deliveries x; doctypes := doctypes x; docreqs := docreqs x;
     audit_trail := audit_trail x; breakers := breakers x; teams := teams x; uuid_pos := uuid_pos x;
     authorities := authorities x; workbaskets := workbaskets x; absences := absences x;
     breach_log := breach_log x; retry_history := retry_history x; task_dlq := task_dlq x;
     compensations := compensations x; workers := workers x;
     basket_members := basket_members x; worker_skills := worker_skills x;
     team_members := team_members x; roles := roles x; user_roles := user_roles x;
     activity_defs := activity_defs x; case_type_audit := case_type_audit x;
     case_type_diffs := case_type_diffs x; tenants := tenants x;
     rate_counters := rate_counters x; getnext_weights := getnext_weights x;
     getnext_claims := getnext_claims x; allocations := allocations x;
     affinities := affinities x; cases_archive := cases_archive x;
     tasks_archive := tasks_archive x |}.


(** The tenant of rows written without one. *)
Definition DefaultTenantID : string := "00000000-0000-0000-0000-000000000000".

(** ** What surrounds an operation *)

(** A [context.Context]: the tenant and the actor under the keys of the packages
    multitenancy and versioning, and the string values under plain string keys (values of
    other types are not kept: the code skips them). *)
Record go_context := {
  ctx_tenant_key : option string;
  ctx_actor_key : option string;
  ctx_values : list (string * string);
}.

Class Env := {
  env_now : Z;                          (* now(), fixed in a transaction *)
  env_clock : Z;                        (* time.Now() *)
  env_ctx : go_context;
  env_uuid : nat → string;              (* gen_random_uuid(), as a stream *)
  env_case_statuses : list string;      (* cases_status_check *)
  env_sprint : value → string;          (* fmt.Sprint of a composite value *)
}.

(** What the services ask of the business calendar ([sla.AddBusinessHours] and
    [sla.BusinessHoursElapsed]), which reads it on a connection of its own. *)
Class BusinessClock := {
  bc_add : string → Z → Z → result Z;         (* calendar, start, duration *)
  bc_elapsed : string → Z → Z → result Z;     (* calendar, from, to *)
}.

Definition by_id {R} (id : R → string) (x : string) : R → bool := λ r, id r =?s x.

(** Looking up the row an update by identifier has changed. *)
Lemma by_id_update {R} (key : R → string) x (f : R → R) rows r :
  (∀ r, key (f r) = key r) → sql_get (by_id key x) rows = Ok r →
  sql_get (by_id key x) (sql_update (by_id key x) f rows) = Ok (f r).
Proof.
  unfold by_id. intros Hf Hr. rewrite (sql_get_update key), Hr by done. cbn.
  apply sql_get_Ok in Hr as [_ Hr]. by rewrite Hr.
Qed.

(** [cases_status_check] as migrations 000022, 000025 and 000035 leave it in turn. *)
Definition case_statuses_22 : list string :=
  ["OPEN"; "IN_PROGRESS"; "COMPLETED"; "CANCELLED"; "SUSPENDED"; "REJECTED"; "CLONED"].
Definition case_statuses_25 : list string := case_statuses_22 ++ ["EXCEPTION"].
Definition case_statuses_35 : list string :=
  ["OPEN"; "IN_PROGRESS"; "COMPLETED"; "CANCELLED"; "SUSPENDED"; "ALLOCATABLE"].

Definition str_mem (s : string) (l : list string) : bool := existsb (String.eqb s) l.
#[global] Arguments str_mem : simpl never.

Lemma str_mem_elem s l : str_mem s l = true ↔ s ∈ l.
Proof.
  unfold str_mem. rewrite existsb_exists. setoid_rewrite String.eqb_eq.
  setoid_rewrite <- list_elem_of_In. naive_solver.
Qed.


Definition case_check `{Env} (c : case_row) : bool :=
  str_mem (c_status c) env_case_statuses && (0 <=? c_rework_count c).
(** A non-negative INT. *)
Definition int4 (z : Z) : bool := (0 <=? z) && (z <? 2 ^ 31).
Definition retry_check (h : retry_row) : bool :=
  int4 (rh_attempt_number h) && int4 (rh_retry_count_before h) && int4 (rh_max_retries h) &&
  str_mem (rh_backoff_strategy h) ["FIXED"; "LINEAR"; "EXPONENTIAL"] &&
  (0 <? rh_base_interval_seconds h) && int4 (rh_base_interval_seconds h) &&
  (0 <? rh_max_interval_seconds h) && int4 (rh_max_interval_seconds h) &&
  int4 (rh_computed_interval_seconds h) &&
  str_mem (rh_error_class h) ["TRANSIENT"; "PERMANENT"; "UNKNOWN"] &&
  (String.length (rh_error_code h) <=? 100)%nat &&
  str_mem (rh_outcome h) ["RETRY_SCHEDULED"; "FAILED_TERMINAL"; "DLQ_REQUEUED"].
Definition dlq_check (d : dlq_row) : bool :=
  (0 <=? dl_requeue_count d) &&
  match dl_soft_deleted_at d with Some t => dl_moved_at d <=? t | None => true end.
Definition compensation_check (c : compensation_row) : bool :=
  str_mem (tc_status c) ["PENDING"; "IN_PROGRESS"; "COMPLETED"; "FAILED"] &&
  (String.length (tc_failed_code c) <=? 100)%nat &&
  (String.length (tc_compensating_code c) <=? 100)%nat.
Definition task_check (t : task_row) : bool :=
  str_mem (t_status t) ["PENDING"; "ASSIGNED"; "IN_PROGRESS"; "AWAITING_EXTERNAL";
                        "COMPLETED"; "FAILED"; "CANCELLED"; "SKIPPED"] &&
  (1 <=? t_priority t) && (t_priority t <=? 4).
Definition gate_check (g : gate_row) : bool :=
  str_mem (g_policy g) ["SINGLE_APPROVER"; "ALL_MUST_APPROVE"; "ANY_CAN_APPROVE";
                        "MAJORITY"; "CONSENSUS"] &&
  (0 <? g_required g) &&
  str_mem (g_selection g) ["EXPLICIT_LIST"; "ROLE_BASED"; "REPORTING_CHAIN"; "DYNAMIC_RULE"] &&
  (0 <? g_timeout_hours g) &&
  str_mem (g_on_timeout_action g) ["AUTO_APPROVE"; "AUTO_REJECT"; "ESCALATE"] &&
  str_mem (g_rejection_behavior g) ["SEND_TO_REWORK"; "TERMINAL_FAIL"] &&
  str_mem (g_status g) ["PENDING"; "ACTIVE"; "SATISFIED"; "FAILED"; "REJECTED";
                        "REJECTED_REWORK_INITIATED"; "EXPIRED"; "CANCELLED"] &&
  (negb (g_rejection_behavior g =?s "SEND_TO_REWORK") || bool_decide (is_Some (g_rework_target g))).
Definition request_check (r : request_row) : bool :=
  str_mem (r_status r) ["PENDING"; "APPROVED"; "REJECTED"; "EXPIRED"; "DELEGATED"] &&
  (negb (str_mem (r_status r) ["APPROVED"; "REJECTED"]) ||
   bool_decide (is_Some (r_decision r)) && bool_decide (is_Some (r_decided_at r))) &&
  (negb (r_status r =?s "DELEGATED") || bool_decide (is_Some (r_delegated_to_id r))).
Definition chain_check (c : chain_row) : bool :=
  str_mem (ch_tier_status c) ["PENDING"; "APPROVED"; "REJECTED"; "SKIPPED"] &&
  str_mem (ch_chain_status c) ["PENDING"; "IN_PROGRESS"; "COMPLETED"; "FAILED"].
Definition pause_check (p : pause_row) : bool :=
  str_mem (pl_entity_type p) ["CASE"; "STAGE"; "ACTIVITY"; "TASK"] &&
  (0 <=? pl_elapsed_ms p) && str_mem (pl_action p) ["PAUSE"; "RESUME"] &&
  match pl_resumed_at p with Some t => pl_paused_at p <=? t | None => true end.
Definition event_check (e : event_row) : bool :=
  str_mem (ev_status e) ["PENDING"; "PROCESSING"; "DELIVERED"; "FAILED"].

Definition breaker_check (b : breaker_row) : bool :=
  let count z := (0 <=? z) && (z <? 2 ^ 31) in
  str_mem (cb_channel b) ["EMAIL"; "SMS"; "PUSH"; "IN_APP"; "WEBHOOK"] &&
  str_mem (cb_state b) ["CLOSED"; "OPEN"; "HALF_OPEN"] &&
  count (cb_failure_count b) && count (cb_success_count b) &&
  (0 <? cb_threshold_failures b) && (cb_threshold_failures b <? 2 ^ 31) &&
  (0 <? cb_cooldown_seconds b) && (cb_cooldown_seconds b <? 2 ^ 31).

(** At most one PENDING request per gate, approver and tier. *)
Definition request_conflict (r r' : request_row) : bool :=
  (r_id r =?s r_id r') ||
  ((r_status r =?s "PENDING") && (r_status r' =?s "PENDING") &&
   (r_gate_id r =?s r_gate_id r') && (r_approver_id r =?s r_approver_id r') &&
   (default 0 (r_tier r) =? default 0 (r_tier r'))).

Definition task_conflict (t t' : task_row) : bool :=
  (t_id t =?s t_id t') || (t_idempotency_key t =?s t_idempotency_key t').

(** ** Statements *)

(** [UPDATE tbl SET f WHERE p]: the number of rows affected. *)
Definition update_in {R} (tbl : database → list R) `{!FieldSetter tbl}
    (check : R → bool) (p : R → bool) (f : R → R) : Tx database Z :=
  stmt (λ db, match update_rows check p f (tbl db) with
              | Ok (n, rows) => Ok (n, db <| tbl := rows |>)
              | Err e => Err e
              end).

Definition insert_in {R} (tbl : database → list R) `{!FieldSetter tbl}
    (check : R → bool) (conflict : R → R → bool) (r : R) : Tx database unit :=
  stmt (λ db, match insert_row check conflict r (tbl db) with
              | Ok rows => Ok (tt, db <| tbl := rows |>)
              | Err e => Err e
              end).

(** [DELETE FROM tbl WHERE p]: the number of rows affected. *)
Definition delete_in {R} (tbl : database → list R) `{!FieldSetter tbl} (p : R → bool)
    : Tx database Z :=
  stmt (λ db, Ok (sql_count p (tbl db), db <| tbl := List.filter (λ r, negb (p r)) (tbl db) |>)).

(** An insert of a row with a generated identifier, which it returns. *)
Definition insert_with_id `{Env} {R} (tbl : database → list R) `{!FieldSetter tbl}
    (check : R → bool) (conflict : R → R → bool) (mk : string → R) : Tx database string :=
  stmt (λ db, let id := env_uuid (uuid_pos db) in
              match insert_row check conflict (mk id) (tbl db) with
              | Ok rows => Ok (id, db <| tbl := rows |> <| uuid_pos ::= S |>)
              | Err e => Err e
              end).

Definition query {X} (q : database → result X) : Tx database X :=
  stmt (λ db, match q db with Ok x => Ok (x, db) | Err e => Err e end).

Definition get_in {R} (tbl : database → list R) (p : R → bool) : Tx database R :=
  query (λ db, sql_get p (tbl db)).

Definition never_conflict {R} (_ _ : R) : bool := false.
Definition no_check {R} (_ : R) : bool := true.

(** The triggers of migration 000028: a row of a case that is written without a tenant
    gets the default one, which must be the tenant of the case. *)
Definition default_tenant (db : database) (caseID : string) : bool :=
  match sql_get (by_id c_id caseID) (cases db) with
  | Ok c => c_tenant_id c =?s DefaultTenantID
  | Err _ => true
  end.

Definition insert_transition (r : transition_row) : Tx database unit :=
  stmt (λ db, if default_tenant db (st_case_id r)
              then Ok (tt, db <| transitions := transitions db ++ [r] |>) else Err ErrSQL).

(** ** Stepping through a transaction *)

Section Statements.
Context (busy : bool).

Lemma commits_query {X} (q : database → result X) db :
  commits busy (query q) db = match q db with Ok x => Some (x, db) | Err _ => None end.
Proof. unfold query. rewrite commits_stmt. by destruct (q db). Qed.

Lemma commits_get {R} (tbl : database → list R) p db :
  commits busy (get_in tbl p) db =
    match sql_get p (tbl db) with Ok x => Some (x, db) | Err _ => None end.
Proof. unfold get_in. by rewrite commits_query. Qed.

Lemma commits_update {R} (tbl : database → list R) `{!FieldSetter tbl} check p f db :
  commits busy (update_in tbl check p f) db =
    if forallb (λ r, negb (p r) || check (f r)) (tbl db)
    then Some (sql_count p (tbl db), db <| tbl := sql_update p f (tbl db) |>) else None.
Proof.
  unfold update_in. rewrite commits_stmt. unfold update_rows. by destruct (forallb _ _).
Qed.

Lemma commits_insert {R} (tbl : database → list R) `{!FieldSetter tbl} check conflict r db :
  commits busy (insert_in tbl check conflict r) db =
    if check r && negb (existsb (conflict r) (tbl db))
    then Some (tt, db <| tbl := tbl db ++ [r] |>) else None.
Proof.
  unfold insert_in. rewrite commits_stmt. unfold insert_row. by destruct (_ && _).
Qed.

Lemma commits_query_inv {X} (q : database → result X) db x db' :
  commits busy (query q) db = Some (x, db') → q db = Ok x ∧ db' = db.
Proof. rewrite commits_query. destruct (q db); [by intros [= -> ->]|done]. Qed.

Lemma commits_get_inv {R} (tbl : database → list R) p db x db' :
  commits busy (get_in tbl p) db = Some (x, db') → sql_get p (tbl db) = Ok x ∧ db' = db.
Proof. exact (commits_query_inv (λ db, sql_get p (tbl db)) db x db'). Qed.

Lemma commits_update_inv {R} (tbl : database → list R) `{!FieldSetter tbl} check p f db n db' :
  commits busy (update_in tbl check p f) db = Some (n, db') →
  n = sql_count p (tbl db) ∧ db' = db <| tbl := sql_update p f (tbl db) |> ∧
  (∀ r, r ∈ tbl db → p r = true → check (f r) = true).
Proof.
  rewrite commits_update. destruct (forallb _ _) eqn:Hf; [|done]. intros [= <- <-].
  split_and!; [done..|]. intros r Hr Hp. rewrite forallb_forall in Hf.
  specialize (Hf r). rewrite <- list_elem_of_In, Hp in Hf. by apply Hf.
Qed.

Lemma commits_delete_inv {R} (tbl : database → list R) `{!FieldSetter tbl} p db n db' :
  commits busy (delete_in tbl p) db = Some (n, db') →
  n = sql_count p (tbl db) ∧ db' = db <| tbl := List.filter (λ r, negb (p r)) (tbl db) |>.
Proof. unfold delete_in. rewrite commits_stmt. by intros [= <- <-]. Qed.

Lemma commits_insert_inv {R} (tbl : database → list R) `{!FieldSetter tbl} check conflict r db u db' :
  commits busy (insert_in tbl check conflict r) db = Some (u, db') →
  db' = db <| tbl := tbl db ++ [r] |> ∧ check r = true ∧ existsb (conflict r) (tbl db) = false.
Proof.
  rewrite commits_insert. destruct (check r); [|done]. cbn.
  destruct (existsb _ _); [done|]. by intros [= <-].
Qed.

Lemma commits_transition r db :
  commits busy (insert_transition r) db =
    if default_tenant db (st_case_id r)
    then Some (tt, db <| transitions := transitions db ++ [r] |>) else None.
Proof. unfold insert_transition. rewrite commits_stmt. by destruct (default_tenant _ _). Qed.

End Statements.

Lemma pooled_query {X} drv (q : database → result X) db n r db' n' :
  pooled drv (query q) db n = (r, db', n') → db' = db ∧ (r = q db ∨ r = Err ErrSQL).
Proof.
  unfold query, stmt. cbn. destruct (round_trip_fails drv n); [intros [= <- <- _]; auto|].
  destruct (q db); intros [= <- <- _]; auto.
Qed.

Lemma pooled_get {R} drv (tbl : database → list R) p db n r db' n' :
  pooled drv (get_in tbl p) db n = (r, db', n') →
  db' = db ∧ (r = sql_get p (tbl db) ∨ r = Err ErrSQL).
Proof. exact (pooled_query drv (λ db, sql_get p (tbl db)) db n r db' n'). Qed.

Lemma pooled_update {R} drv (tbl : database → list R) `{!FieldSetter tbl} check p f db n r db' n' :
  pooled drv (update_in tbl check p f) db n = (r, db', n') →
  r = Ok (sql_count p (tbl db)) ∧ db' = db <| tbl := sql_update p f (tbl db) |> ∧
    (∀ x, x ∈ tbl db → p x = true → check (f x) = true)
  ∨ r = Err ErrSQL ∧ db' = db.
Proof.
  intros H. apply pooled_stmt_inv in H as [(x & -> & Hb)|(e & -> & -> & Hb)].
  - left. unfold update_rows in Hb. destruct (forallb _ _) eqn:E; [|done].
    injection Hb as <- <-. split_and!; [done..|]. intros y Hy Hp.
    rewrite forallb_forall in E. specialize (E y). rewrite <- list_elem_of_In in E.
    specialize (E Hy). rewrite Hp in E. by destruct (check (f y)).
  - right. unfold update_rows in Hb. destruct Hb as [->|Hb]; [done|].
    destruct (forallb _ _); [done|]. by injection Hb as <-.
Qed.

Lemma pooled_insert {R} drv (tbl : database → list R) `{!FieldSetter tbl} check c x db n r db' n' :
  pooled drv (insert_in tbl check c x) db n = (r, db', n') →
  r = Ok tt ∧ db' = db <| tbl := tbl db ++ [x] |> ∨ r = Err ErrSQL ∧ db' = db.
Proof.
  intros H. apply pooled_stmt_inv in H as [(u & -> & Hb)|(e & -> & -> & Hb)].
  - left. destruct (insert_row check c x (tbl db)) as [rows|e] eqn:E; [|done].
    apply insert_row_Ok in E as ->. injection Hb as <- <-. done.
  - right. destruct Hb as [->|Hb]; [done|].
    destruct (insert_row check c x (tbl db)) as [rows|e'] eqn:E; [done|].
    apply insert_row_Err in E as ->. by injection Hb as <-.
Qed.

Lemma balanced_transition r : Balanced (insert_transition r).
Proof. apply balanced_stmt. Qed.
Lemma balanced_query {X} (q : database → result X) : Balanced (query q).
Proof. apply balanced_stmt. Qed.
Lemma balanced_get {R} (tbl : database → list R) p : Balanced (get_in tbl p).
Proof. apply balanced_stmt. Qed.
Lemma balanced_update {R} (tbl : database → list R) `{!FieldSetter tbl} check p f :
  Balanced (update_in tbl check p f).
Proof. apply balanced_stmt. Qed.
Lemma balanced_delete {R} (tbl : database → list R) `{!FieldSetter tbl} p :
  Balanced (delete_in tbl p).
Proof. apply balanced_stmt. Qed.
Lemma balanced_insert {R} (tbl : database → list R) `{!FieldSetter tbl} check c r :
  Balanced (insert_in tbl check c r).
Proof. apply balanced_stmt. Qed.
Lemma balanced_insert_id `{Env} {R} (tbl : database → list R) `{!FieldSetter tbl}
    check c mk : Balanced (insert_with_id tbl check c mk).
Proof. apply balanced_stmt. Qed.

#[export] Hint Resolve balanced_transition balanced_query balanced_get balanced_update balanced_delete balanced_insert
  balanced_insert_id : balance.

Create Rewrite HintDb gotx.
#[export] Hint Rewrite @commits_query @commits_get @commits_update @commits_insert @commits_of
  @commits_mret @commits_throw @commits_stmt : gotx.

(** One step of the transaction in [H : commits busy m db = Some _]. *)
Ltac tx_step H :=
  first
    [ rewrite commits_bind in H by balance
    | rewrite commits_query in H | rewrite commits_get in H | rewrite commits_update in H
    | rewrite commits_insert in H | rewrite commits_transition in H | rewrite commits_of in H | rewrite commits_mret in H
    | rewrite commits_throw in H | rewrite commits_stmt in H | rewrite commits_attempt in H ].

(** The run of [m] in [H : commits busy (m ≫= f) db = Some p] is [E : commits busy m db =
    Some (x, d)]. *)
Ltac tx_bind_inv H x d E :=
  apply commits_bind_inv in H; [destruct H as (x & d & E & H)|balance].

(** One step of a run on the pool in [H : pooled drv (m ≫= f) db n = (r, db', n')]: the run
    of [m] is [E : pooled drv m db n = (x, d, k)]. *)
Ltac pool_bind H x d k E :=
  apply pooled_bind_inv in H as (x & d & k & E & H).

(** ** Relations kept by statements *)

Section Kept.
Context (R : database → database → Prop) `{!PreOrder R}.

Lemma tx_all_query {X} (q : database → result X) : tx_all R (query q).
Proof. apply tx_all_stmt. intros db x db'. destruct (q db); [by intros [= _ <-]|done]. Qed.

Lemma tx_all_get {A} (tbl : database → list A) p : tx_all R (get_in tbl p).
Proof. apply tx_all_query. Qed.

Lemma tx_all_update {A} (tbl : database → list A) `{!FieldSetter tbl} check p f :
  (∀ db, R db (db <| tbl := sql_update p f (tbl db) |>)) →
  tx_all R (update_in tbl check p f).
Proof.
  intros HR. apply tx_all_stmt. intros db x db'. unfold update_rows.
  destruct (forallb _ _); [by intros [= _ <-]|done].
Qed.

Lemma tx_all_delete {A} (tbl : database → list A) `{!FieldSetter tbl} p :
  (∀ db, R db (db <| tbl := List.filter (λ r, negb (p r)) (tbl db) |>)) →
  tx_all R (delete_in tbl p).
Proof. intros HR. apply tx_all_stmt. by intros db x db' [= _ <-]. Qed.

Lemma tx_all_insert {A} (tbl : database → list A) `{!FieldSetter tbl} check c r :
  (∀ db, R db (db <| tbl := tbl db ++ [r] |>)) → tx_all R (insert_in tbl check c r).
Proof.
  intros HR. apply tx_all_stmt. intros db x db'. unfold insert_row.
  destruct (_ && _); [by intros [= _ <-]|done].
Qed.

Lemma tx_all_insert_id `{Env} {A} (tbl : database → list A) `{!FieldSetter tbl} check c mk :
  (∀ db, R db (db <| tbl := tbl db ++ [mk (env_uuid (uuid_pos db))] |> <| uuid_pos ::= S |>)) →
  tx_all R (insert_with_id tbl check c mk).
Proof.
  intros HR. apply tx_all_stmt. intros db x db'. cbv zeta. unfold insert_row.
  destruct (_ && _); [by intros [= _ <-]|done].
Qed.

Lemma tx_all_transition r :
  (∀ db, R db (db <| transitions := transitions db ++ [r] |>)) → tx_all R (insert_transition r).
Proof.
  intros HR. apply tx_all_stmt. intros db x db'.
  destruct (default_tenant _ _); [by intros [= _ <-]|done].
Qed.
End Kept.

Create HintDb kept discriminated.

(** Follow the structure of a program down to its statements; the relation is left
    to prove for each statement. *)
Ltac tx_head m := lazymatch m with ?f _ => tx_head f | ?f => f end.
Ltac kept_steps :=
  intros;
  lazymatch goal with
  | |- tx_all _ (mbind _ _) => apply tx_all_bind; kept_steps
  | |- tx_all _ (mret _) => exact I
  | |- tx_all _ (throw _) => exact I
  | |- tx_all _ (tx_of _) => exact I
  | |- tx_all _ (tx_attempt _) => apply tx_all_attempt; kept_steps
  | |- tx_all _ (tx_each _ _) => apply tx_all_each; kept_steps
  | |- tx_all _ (when _ _) => apply tx_all_when; kept_steps
  | |- tx_all _ (with_rows _ _) => apply tx_all_with_rows; kept_steps
  | |- tx_all _ (query _) => apply tx_all_query; exact _
  | |- tx_all _ (get_in _ _) => apply tx_all_get; exact _
  | |- tx_all _ (update_in _ _ _ _) => apply tx_all_update; intros
  | |- tx_all _ (delete_in _ _) => apply tx_all_delete; intros
  | |- tx_all _ (insert_in _ _ _ _) => apply tx_all_insert; intros
  | |- tx_all _ (insert_transition _) => apply tx_all_transition; intros
  | |- tx_all _ (insert_with_id _ _ _ _) => apply tx_all_insert_id; intros
  | |- tx_all _ (stmt _) => apply tx_all_stmt; intros ??? ?
  | |- tx_all _ (match ?x with _ => _ end) => destruct x; kept_steps
  | |- tx_all _ (let '_ := _ in _) => cbv zeta; kept_steps
  | |- tx_all _ ?m =>
      first [ solve [auto with kept] | let h := tx_head m in unfold h; kept_steps ]
  end.

(** ** A concrete environment and an empty database, for evaluating *)

Definition sample_env (statuses : list string) : Env :=
  {| env_now := 1000 * Hour; env_clock := 1000 * Hour;
     env_ctx := {| ctx_tenant_key := Some "acme"; ctx_actor_key := None; ctx_values := [] |};
     env_uuid := λ n, "uuid-" +:+ Itoa_N (N.of_nat n);
     env_case_statuses := statuses; env_sprint := λ _, "" |}.

Lemma sample_uuid_inj statuses i j :
  env_uuid (Env := sample_env statuses) i = env_uuid (Env := sample_env statuses) j → i = j.
Proof. intros H. apply Nat2N.inj, Itoa_N_inj. by injection H. Qed.

Definition empty_db : database :=
  {| cases := []; tasks := []; gates := []; requests := []; chains := [];
     approval_log := []; transitions := []; pause_log := []; tokens := []; users := [];
     case_types := []; outbox := []; subscriptions := []; deliveries := [];
     doctypes := []; docreqs := []; audit_trail := []; breakers := []; teams := []; uuid_pos := 0;
     authorities := []; workbaskets := []; absences := []; breach_log := []; retry_history := [];
     task_dlq := []; compensations := []; workers := []; basket_members := [];
     worker_skills := []; team_members := []; roles := []; user_roles := [];
     activity_defs := []; case_type_audit := []; case_type_diffs := []; tenants := [];
     rate_counters := []; getnext_weights := []; getnext_claims := []; allocations := [];
     affinities := []; cases_archive := []; tasks_archive := [] |}.

(** A user, a task and a case with nothing special about them. *)
Definition blank_user (id : string) : user_row :=
  {| u_id := id; u_role_code := "USER"; u_manager_id := None; u_status := "ACTIVE";
     u_created_at := 0; u_user_id := id; u_tenant_id := DefaultTenantID; u_username := id;
     u_email := id; u_display_name := id; u_auth_provider := "LOCAL"; u_external_id := None;
     u_timezone := "UTC"; u_locale := "en-US" |}.
Definition blank_task (id caseID code status : string) : task_row :=
  {| t_id := id; t_case_id := caseID; t_task_definition_code := code;
     t_activity_code := "CREDIT"; t_stage_code := "REVIEW"; t_status := status;
     t_priority := 2; t_assigned_service := None; t_assignee_id := None; t_assigned_at := None;
     t_last_heartbeat_at := None; t_completed_at := None; t_version := 1; t_created_at := 0;
     t_workbasket_id := None; t_effective_start_time := None; t_due_at := None;
     t_task_due_at := None; t_sla_duration_ms := None; t_sla_calendar_id := None;
     t_sla_warning_issued_at := None; t_sla_critical_issued_at := None; t_max_retries := 3;
     t_idempotency_key := id; t_error_reason := None; t_requires_approval := false;
     t_approval_gate_id := None; t_approval_amount := None; t_tenant_id := DefaultTenantID;
     t_assigned_team_id := None; t_is_document_verification := false; t_started_at := None;
     t_retry_count := 0; t_total_failure_count := 0; t_next_retry_at := None;
     t_input_payload := VMap []; t_output_payload := VMap [];
     t_error_detail := None; t_last_error_code := None; t_last_error_class := None;
     t_is_poison_pill := false; t_poison_pill_quarantined_at := None;
     t_poison_pill_reason := None; t_sla_warning_pct := None; t_sla_critical_pct := None;
     t_sla_breach_action := None; t_assigned_user_id := None;
     t_required_skills := Some [] |}.

Definition blank_case (id status : string) : case_row :=
  {| c_id := id; c_tenant_id := DefaultTenantID; c_case_type_id := "loan";
     c_source_case_id := None; c_current_stage_code := Some "REVIEW";
     c_current_stage_ordinal := 1; c_status := status; c_metadata := VMap [];
     c_assigned_to := None; c_assigned_user_id := None; c_rework_count := 0;
     c_max_rework_attempts := 3; c_row_version := 1; c_created_at := 0; c_completed_at := None;
     c_suspend_reason := None; c_resume_at := None; c_withdrawal_reason := None;
     c_emergency_closed_at := None; c_emergency_reason := None; c_supervisor_id := None;
     c_effective_start_time := None; c_due_at := None; c_sla_duration_ms := None;
     c_sla_calendar_id := None; c_sla_warning_issued_at := None;
     c_sla_critical_issued_at := None; c_parent_case_id := None;
     c_case_type_version_id := None; c_exception_at := None; c_exception_reason := None;
     c_exception_task_id := None; c_exception_severity := None; c_case_complexity := None;
     c_required_skills := None |}.
