(* ===== verification/Operations.v ===== *)
(** * The shape of a service's operation

    Most operations check their arguments, look some rows up, and run one transaction.
    What such an operation can have done: nothing, or what its transaction committed. *)

From Stdlib Require Import String ZArith Lia.
From stdpp Require Import base list strings.
From S2P Require Import Prelude SqlTx Schema.

Open Scope Z_scope.
Open Scope go_scope.

(** ** Arguments first, then a transaction *)

Definition then_tx {D A B} (first : result A * D) (drv : driver) (m : A → Tx D B)
    : result B * D :=
  match first with
  | (Ok a, db) => within_tx drv (m a) db
  | (Err e, db) => (Err e, db)
  end.

(** A query whose [sql.ErrNoRows] the code replaces. *)
Definition query_or {X} (e : error) (q : database → result X) : Tx database X :=
  r ← tx_attempt (query q);
  match r with
  | Ok x => mret x
  | Err ErrNoRows => throw e
  | Err e' => throw e'
  end.
Definition get_or {R} (e : error) (tbl : database → list R) (p : R → bool) : Tx database R :=
  query_or e (λ db, sql_get p (tbl db)).

Definition exists_in {R} (tbl : database → list R) (p : R → bool) : Tx database bool :=
  query (λ db, Ok (existsb p (tbl db))).

(** [if s == "" { return fmt.Errorf(..) }] *)
Definition required (s msg : string) : result unit :=
  if s =?s "" then Err (ErrMsg msg) else Ok tt.

(** Arguments, then lookups on the pool, then a transaction. *)
Definition with_checks {A B} (arguments : result A) (pool drv : driver)
    (checks : A → Tx database unit) (m : A → Tx database B) (db : database)
    : result B * database :=
  match arguments with
  | Err e => (Err e, db)
  | Ok a => then_tx (on_pool pool (checks a) db) drv (λ _, m a)
  end.

(** ** Rows *)

Lemma existsb_none {R} (p : R → bool) (rows : list R) :
  existsb p rows = false ↔ ∀ r, r ∈ rows → p r = false.
Proof.
  rewrite <- not_true_iff_false, existsb_exists. setoid_rewrite <- list_elem_of_In. split.
  - intros H r Hr. apply not_true_iff_false. eauto.
  - intros H (r & Hr & E). by rewrite H in E.
Qed.

Lemma existsb_update {R} (q p : R → bool) f (rows : list R) :
  (∀ r, q (f r) = q r) → existsb q (sql_update p f rows) = existsb q rows.
Proof.
  intros Hq. induction rows as [|r rows IH]; cbn; [done|]. rewrite <- IH. f_equal.
  by destruct (p r).
Qed.

Lemma sql_get_grow {R} p (l l' : list R) r : sql_get p l = Ok r → sql_get p (l ++ l') = Ok r.
Proof.
  unfold sql_get. induction l as [|x l IH]; cbn; [done|]. by destruct (p x).
Qed.

Lemma sql_get_exists {R} p (l : list R) : existsb p l = true → ∃ r, sql_get p l = Ok r.
Proof.
  unfold sql_get. induction l as [|r l IH]; cbn; [done|]. destruct (p r); [by exists r|auto].
Qed.

Lemma sql_get_nothing {R} p (l : list R) : existsb p l = false → sql_get p l = Err ErrNoRows.
Proof.
  unfold sql_get. induction l as [|r l IH]; cbn; [done|]. by destruct (p r).
Qed.

Lemma sql_get_later {R} p (l l' : list R) :
  existsb p l = false → sql_get p (l ++ l') = sql_get p l'.
Proof. unfold sql_get. induction l as [|r l IH]; cbn; [done|]. by destruct (p r). Qed.

(** ** What an operation has done *)

Section Facts.
Implicit Types (db : database).

Lemma balanced_query_or {X} e (q : database → result X) : Balanced (query_or e q).
Proof. unfold query_or. balance. Qed.
Lemma balanced_get_or {R} e (tbl : database → list R) p : Balanced (get_or e tbl p).
Proof. apply balanced_query_or. Qed.
Lemma balanced_exists_in {R} (tbl : database → list R) p : Balanced (exists_in tbl p).
Proof. apply balanced_query. Qed.

(** What the query of a lookup sees. *)
Lemma exec_query_or {X} busy e (q : database → result X) db :
  exec busy (query_or e q) 0 db =
    match q db with
    | Ok x => Some (Ok x, 0%nat, db)
    | Err ErrNoRows => Some (Err e, 0%nat, db)
    | Err _ => None
    end.
Proof.
  unfold query_or. rewrite exec_bind, exec_attempt. unfold query. rewrite exec_stmt.
  by destruct (q db) as [x|[]].
Qed.

Lemma commits_query_or {X} busy e (q : database → result X) db x db' :
  commits busy (query_or e q) db = Some (x, db') → q db = Ok x ∧ db' = db.
Proof.
  unfold commits. rewrite exec_query_or.
  destruct (q db) as [y|[]]; try done. by intros [= -> ->].
Qed.
Lemma attempt_query_or {X} busy e (q : database → result X) db r db' :
  commits busy (tx_attempt (query_or e q)) db = Some (r, db') →
  db' = db ∧ (r = q db ∧ is_Ok r = true ∨ r = Err e ∧ q db = Err ErrNoRows).
Proof.
  rewrite commits_attempt, exec_query_or.
  destruct (q db) as [x|[]]; try discriminate; intros [= <- <-]; split; auto.
Qed.
Lemma commits_get_or {R} busy e (tbl : database → list R) p db x db' :
  commits busy (get_or e tbl p) db = Some (x, db') → sql_get p (tbl db) = Ok x ∧ db' = db.
Proof. exact (commits_query_or busy e (λ db, sql_get p (tbl db)) db x db'). Qed.

Lemma commits_exists_in {R} busy (tbl : database → list R) p db b db' :
  commits busy (exists_in tbl p) db = Some (b, db') → b = existsb p (tbl db) ∧ db' = db.
Proof. intros H. apply commits_query_inv in H as [[= <-] ->]. done. Qed.

Lemma pooled_get_or {R} drv e (tbl : database → list R) p db n r db' n' :
  pooled drv (get_or e tbl p) db n = (r, db', n') →
  db' = db ∧ ∀ x, r = Ok x → sql_get p (tbl db) = Ok x.
Proof.
  unfold get_or, query_or. intros H. pool_bind H a d k E.
  apply pooled_attempt_inv in E as (r' & -> & E). apply pooled_get in E as [-> Hr'].
  destruct r' as [y|e'].
  - injection H as <- <- _. split; [done|]. intros x [= <-]. destruct Hr'; [done|discriminate].
  - destruct e'; injection H as <- <- _; by split.
Qed.

Lemma then_tx_Ok {A B} (first : result A * database) drv (m : A → Tx database B) b db' :
  then_tx first drv m = (Ok b, db') →
  ∃ a db, first = (Ok a, db) ∧ within_tx drv (m a) db = (Ok b, db').
Proof. destruct first as [[a|e] db]; cbn; [eauto|done]. Qed.

Lemma then_tx_Err {A B} (first : result A * database) drv (m : A → Tx database B) e db' :
  then_tx first drv m = (Err e, db') → db' = snd first.
Proof.
  destruct first as [[a|e'] db]; cbn; [apply within_tx_rollback|by intros [= _ <-]].
Qed.

(** A transaction after lookups that write nothing: no change, or a commit. *)
Lemma then_tx_result {A B} (first : result A * database) drv (m : A → Tx database B) r db' :
  then_tx first drv m = (r, db') →
  db' = snd first ∨
  ∃ a b, fst first = Ok a ∧ commits (busy_while_open drv) (m a) (snd first) = Some (b, db').
Proof.
  destruct first as [[a|e] db]; cbn; [|intros [= _ <-]; by left]. intros H.
  destruct r as [b|e].
  - right. exists a, b. split; [done|]. by apply within_tx_commits.
  - left. by apply within_tx_rollback in H.
Qed.

Lemma with_checks_outcome {A B} args pool drv checks (m : A → Tx database B) db r db' :
  (∀ a, tx_all (=) (checks a)) → with_checks args pool drv checks m db = (r, db') →
  match r with
  | Ok b => ∃ a k, args = Ok a ∧ pooled pool (checks a) db 0 = (Ok tt, db, k) ∧
              commits (busy_while_open drv) (m a) db = Some (b, db')
  | Err _ => db' = db
  end.
Proof.
  unfold with_checks. intros Hq. destruct args as [a|e]; [|by intros [= <- <-]].
  unfold on_pool. destruct (pooled pool (checks a) db 0) as [[rc d] k] eqn:E.
  assert (db = d) as <-.
  { apply (pooled_all pool (=) (checks a) db 0 rc d k); [apply Hq|done]. }
  destruct rc as [[]|e]; cbn; [|by intros [= <- <-]]. intros H. destruct r as [b|e].
  - exists a, k. split_and!; [done..|]. by apply within_tx_commits.
  - by apply within_tx_rollback in H.
Qed.

(** After the arguments: nothing, or a commit. *)
Lemma then_commits {A B} args drv (m : A → Tx database B) db (P : database → Prop) :
  P db →
  (∀ a b db', args = Ok a → commits (busy_while_open drv) (m a) db = Some (b, db') → P db') →
  P (snd (then_tx (args, db) drv m)).
Proof.
  intros H0 Hm. destruct (then_tx (args, db) drv m) as [r db'] eqn:E.
  apply then_tx_result in E as [->|(a & b & Ha & Hc)]; [done|]. cbn. by eapply Hm.
Qed.

Lemma with_checks_commits {A B} args pool drv checks (m : A → Tx database B) db
    (P : database → Prop) :
  (∀ a, tx_all (=) (checks a)) → P db →
  (∀ a b db' k, args = Ok a → pooled pool (checks a) db 0 = (Ok tt, db, k) →
     commits (busy_while_open drv) (m a) db = Some (b, db') → P db') →
  P (snd (with_checks args pool drv checks m db)).
Proof.
  intros Hq H0 Hm. destruct (with_checks args pool drv checks m db) as [r db'] eqn:E.
  apply with_checks_outcome in E; [|done]. cbn. destruct r as [b|e]; [|by subst].
  destruct E as (a & k & Ha & Hp & Hc). by eapply Hm.
Qed.

(** A step of a transaction of which every statement respects [R]. *)
Lemma kept_then {A B} R `{!PreOrder R} args drv (m : A → Tx database B) db :
  (∀ a, tx_all R (m a)) → R db (snd (then_tx (args, db) drv m)).
Proof.
  intros Hm. apply (then_commits args drv m db (R db)); [done|]. intros a b db' _ H.
  by apply (commits_all _ R) in H.
Qed.

Lemma kept_checked {A B} R `{!PreOrder R} args pool drv checks (m : A → Tx database B) db :
  (∀ a, tx_all (=) (checks a)) → (∀ a, tx_all R (m a)) →
  R db (snd (with_checks args pool drv checks m db)).
Proof.
  intros Hq Hm. apply (with_checks_commits args pool drv checks m db (R db)); [done..|].
  intros a b db' k _ _ H. by apply (commits_all _ R) in H.
Qed.

Lemma kept_within R `{!PreOrder R} drv (m : Tx database unit) db :
  tx_all R m → R db (snd (within_tx drv m db)).
Proof.
  intros Hm. destruct (within_tx drv m db) as [[u|e] db'] eqn:E; cbn.
  - apply within_tx_commits in E. by apply (commits_all _ R) in E.
  - apply within_tx_rollback in E. by rewrite E.
Qed.

(** A step that changes nothing, or one that runs a single update. *)
Lemma when_update_commits {R} busy (c : bool) (tbl : database → list R) `{!FieldSetter tbl}
    check p f db u db' :
  commits busy (if c then (_ ← update_in tbl check p f; mret tt) else mret tt) db = Some (u, db') →
  db' = db ∨ c = true ∧ db' = db <| tbl := sql_update p f (tbl db) |> ∧
             ∀ r, r ∈ tbl db → p r = true → check (f r) = true.
Proof.
  destruct c; [|by injection 1; left]. intros H. right. tx_bind_inv H n d E.
  apply commits_update_inv in E as (_ & -> & Hc). by injection H as _ <-.
Qed.

Lemma balanced_when_update {R} (c : bool) (tbl : database → list R) `{!FieldSetter tbl} check p f :
  Balanced (if c then (_ ← update_in tbl check p f; mret tt) else mret tt).
Proof. destruct c; balance. Qed.

Lemma commits_guard busy (c : bool) e db u db' :
  commits busy (if c then throw e else mret tt) db = Some (u, db') → c = false ∧ db' = db.
Proof. destruct c; [done|]. by injection 1 as _ <-. Qed.

Lemma balanced_guard (c : bool) (e : error) : Balanced (if c then throw e else mret tt : Tx database unit).
Proof. destruct c; balance. Qed.

Lemma commits_unless busy (c : bool) e db u db' :
  commits busy (if c then mret tt else throw e) db = Some (u, db') → c = true ∧ db' = db.
Proof. destruct c; [|done]. by injection 1 as _ <-. Qed.

Lemma balanced_unless (c : bool) (e : error) : Balanced (if c then mret tt else throw e : Tx database unit).
Proof. destruct c; balance. Qed.
End Facts.
#[export] Hint Resolve balanced_query_or balanced_get_or balanced_exists_in balanced_when_update balanced_guard
  balanced_unless : balance.
