(* ===== verification/Outbox.v ===== *)
(** * Tenants and the event outbox

    The tenant of a request context (internal/multitenancy/context.go), the
    enrichment of an event with its tenant (multitenancy/service.go), the three
    variants of [PublishEvent] (repository/event_repo.go, approval/events.go,
    multitenancy/events.go) and the webhook queue they feed
    (integration/webhook.go). *)

From Stdlib Require Import Ascii String ZArith Lia.
From stdpp Require Import base list strings.
From S2P Require Import Prelude SqlTx ApprovalExpr CaseConfig Schema.

Open Scope Z_scope.
Open Scope go_scope.

(** ** The tenant of a context *)

Fixpoint str_assoc {A} (l : list (string * A)) (k : string) : option A :=
  match l with
  | [] => None
  | (k', v) :: l => if k =?s k' then Some v else str_assoc l k
  end.

Definition WithTenant (ctx : go_context) (tenantID : string) : go_context :=
  let tenantID := TrimSpace tenantID in
  if tenantID =?s "" then ctx
  else {| ctx_tenant_key := Some tenantID; ctx_actor_key := ctx_actor_key ctx;
          ctx_values := ctx_values ctx |}.

(** The first non-blank value, trimmed. *)
Fixpoint first_nonblank (l : list (option string)) : option string :=
  match l with
  | [] => None
  | None :: l => first_nonblank l
  | Some s :: l =>
      let s := TrimSpace s in
      if s =?s "" then first_nonblank l else Some s
  end.

(** [None] is [ErrTenantNotFound]. *)
Definition TenantFromContext (ctx : go_context) : option string :=
  first_nonblank
    (ctx_tenant_key ctx ::
     map (str_assoc (ctx_values ctx)) ["tenant_id"; "tenantID"; "x_tenant_id"]).

Definition UserIDFromContext (ctx : go_context) : string :=
  default "" (first_nonblank
    (map (str_assoc (ctx_values ctx)) ["actor_user_id"; "user_id"; "userID"; "x_user_id"])).

Definition TenantFromPayload `{Env} (payload : list (string * value)) : string :=
  match str_assoc payload "tenant_id" with
  | None | Some VNil => ""
  | Some raw => TrimSpace (Sprint env_sprint raw)
  end.

Definition orElse (s : string) (t : string) : string := if s =?s "" then t else s.

Definition EnsureTenantContextForEvent `{Env} (ctx : go_context) (event : event_row)
    : go_context :=
  match TenantFromContext ctx with
  | Some _ => ctx
  | None =>
      WithTenant ctx
        (orElse (orElse (TrimSpace (ev_tenant_id event)) (TenantFromPayload (ev_payload event)))
                DefaultTenantID)
  end.

#[global] Arguments TenantFromContext : simpl never.
#[global] Arguments TenantFromPayload : simpl never.
#[global] Arguments orElse : simpl never.
#[global] Arguments TrimSpace : simpl never.

(** ** Events *)

(** A [model.Event] literal: fields left out have their zero value. *)
Definition new_event (event_type : string) (case_id task_id : option string)
    (payload : list (string * value)) : event_row :=
  {| ev_tenant_id := ""; ev_case_id := case_id; ev_task_id := task_id; ev_type := event_type;
     ev_payload := payload; ev_status := "PENDING"; ev_target_service := "";
     ev_max_attempts := 0; ev_partition_key := None; ev_trace_id := None; ev_attempts := 0;
     ev_last_attempted_at := None; ev_delivered_at := None |}.

(** [payloadMap[k] = v] *)
Fixpoint set_key (l : list (string * value)) (k : string) (v : value) : list (string * value) :=
  match l with
  | [] => [(k, v)]
  | (k', v') :: l => if k =?s k' then (k, v) :: l else (k', v') :: set_key l k v
  end.

Definition PrepareEventForPublish `{Env} (ctx : go_context) (event : event_row) : event_row :=
  let tenantID :=
    orElse (orElse (orElse (TrimSpace (ev_tenant_id event))
                           (default "" (TenantFromContext ctx)))
                   (TenantFromPayload (ev_payload event)))
           DefaultTenantID in
  event <| ev_payload ::= λ p, set_key p "tenant_id" (VString tenantID) |>
        <| ev_tenant_id := tenantID |>.

(** ** The webhook queue *)

Definition subscribed (tenantID event_type : string) (w : subscription_row) : bool :=
  (ws_tenant_id w =?s tenantID) && (ws_status w =?s "ACTIVE") &&
  (Nat.eqb (length (ws_event_types w)) 0 || str_mem event_type (ws_event_types w)).

Definition delivery `{Env} (tenantID event_type : string) (payload : list (string * value))
    (w : subscription_row) : delivery_row :=
  {| wd_subscription_id := ws_id w; wd_tenant_id := tenantID; wd_event_type := event_type;
     wd_payload := payload; wd_status := "PENDING"; wd_attempts := 0;
     wd_max_attempts := ws_max_failures w; wd_scheduled_at := env_now |}.

(** Both [EnqueueWebhookDeliveries] and its pgx variant. *)
Definition EnqueueWebhookDeliveries `{Env} (ctx : go_context) (tenantID : string)
    (event : event_row) : Tx database unit :=
  let tenantID :=
    orElse (orElse (TrimSpace tenantID) (TrimSpace (ev_tenant_id event)))
           (default "" (TenantFromContext ctx)) in
  if tenantID =?s "" then throw (ErrMsg "tenant_id is required")
  else if TrimSpace (ev_type event) =?s "" then throw (ErrMsg "event type is required")
  else stmt (λ db, Ok (tt, db <| deliveries ::= λ q, q ++
         map (delivery tenantID (ev_type event) (ev_payload event))
             (List.filter (subscribed tenantID (ev_type event)) (subscriptions db)) |>)).

(** ** Publishing *)

Definition some_or {A} (o o' : option A) : option A := match o with Some _ => o | None => o' end.

Definition insert_event (event : event_row) : Tx database unit :=
  insert_in outbox event_check never_conflict event.

(** [Repository.PublishEvent]. *)
Definition PublishEvent `{Env} (event : event_row) : Tx database unit :=
  let event := event <| ev_status ::= λ s, orElse s "PENDING" |>
                     <| ev_max_attempts ::= λ n, if n =? 0 then 5 else n |> in
  let event := PrepareEventForPublish env_ctx event in
  let event := event <| ev_partition_key ::= λ k, some_or k (ev_case_id event) |> in
  insert_event event ≫= λ _,
  EnqueueWebhookDeliveries env_ctx (ev_tenant_id event) event.

Definition ensure_publishable (event : event_row) : event_row :=
  event <| ev_status ::= λ s, orElse s "PENDING" |>
        <| ev_target_service ::= λ s, orElse s "case-orchestrator" |>
        <| ev_max_attempts ::= λ n, if n =? 0 then 5 else n |>.

(** [approval.PublishEvent]. *)
Definition approval_PublishEvent `{Env} (event : event_row) : Tx database unit :=
  if ev_type event =?s "" then throw (ErrMsg "event type is required")
  else
    let event := PrepareEventForPublish env_ctx (ensure_publishable event) in
    let event := event <| ev_partition_key ::= λ k, some_or k (ev_case_id event) |> in
    insert_event event ≫= λ _,
    EnqueueWebhookDeliveries env_ctx (ev_tenant_id event) event.

(** [multitenancy.PublishEvent]: keyed by the task first, and no webhooks. *)
Definition multitenancy_PublishEvent `{Env} (event : event_row) : Tx database unit :=
  if ev_type event =?s "" then throw (ErrMsg "event type is required")
  else
    let event := PrepareEventForPublish env_ctx (ensure_publishable event) in
    let event := event <| ev_partition_key ::=
                   λ k, some_or k (some_or (ev_task_id event) (ev_case_id event)) |> in
    insert_event event.

(** [sla.PublishEvent]: the statements of [approval.PublishEvent] once more. *)
Definition sla_PublishEvent `{Env} (event : event_row) : Tx database unit :=
  if ev_type event =?s "" then throw (ErrMsg "event type is required")
  else
    let event := PrepareEventForPublish env_ctx (ensure_publishable event) in
    let event := event <| ev_partition_key ::= λ k, some_or k (ev_case_id event) |> in
    insert_event event ≫= λ _,
    EnqueueWebhookDeliveries env_ctx (ev_tenant_id event) event.

(** ** What publishing does to the database *)

Section Publishing.
Context `{Env}.
Implicit Types (event : event_row) (db : database).

(** The row [Repository.PublishEvent] and [approval.PublishEvent] write. *)
Definition published_row event : event_row :=
  PrepareEventForPublish env_ctx
      (event <| ev_status ::= λ s, orElse s "PENDING" |>
             <| ev_max_attempts ::= λ n, if n =? 0 then 5 else n |>)
    <| ev_partition_key ::= λ k, some_or k (ev_case_id event) |>.
Definition approval_row event : event_row :=
  PrepareEventForPublish env_ctx (ensure_publishable event)
    <| ev_partition_key ::= λ k, some_or k (ev_case_id event) |>.

(** The state after the row [row] is published. *)
Definition outbox_with (row : event_row) db : database :=
  db <| outbox ::= λ l, l ++ [row] |>
     <| deliveries ::= λ q, q ++
          map (delivery (ev_tenant_id row) (ev_type row) (ev_payload row))
              (List.filter (subscribed (ev_tenant_id row) (ev_type row)) (subscriptions db)) |>.

Lemma TrimSpace_empty_iff s : TrimSpace (TrimSpace s) = "" ↔ TrimSpace s = "".
Proof. by rewrite TrimSpace_idem. Qed.

(** A trimmed text with something in it. *)
Definition tenant_text (s : string) : Prop := s ≠ "" ∧ TrimSpace s = s.

Lemma first_nonblank_text l s : first_nonblank l = Some s → tenant_text s.
Proof.
  induction l as [|[t|] l IH]; cbn; [done| |done].
  destruct (String.eqb_spec (TrimSpace t) "") as [E|E]; [done|].
  intros [= <-]. split; [done|]. apply TrimSpace_idem.
Qed.

Lemma orElse_text s t : (s = "" ∨ tenant_text s) → tenant_text t → tenant_text (orElse s t).
Proof.
  unfold orElse. intros Hs Ht. destruct (String.eqb_spec s ""); [done|].
  by destruct Hs.
Qed.

Lemma orElse_blank_text s t :
  (s = "" ∨ tenant_text s) → (t = "" ∨ tenant_text t) →
  orElse s t = "" ∨ tenant_text (orElse s t).
Proof. unfold orElse. intros Hs Ht. by destruct (String.eqb_spec s ""). Qed.

Lemma TrimSpace_blank_text s : TrimSpace s = "" ∨ tenant_text (TrimSpace s).
Proof.
  destruct (decide (TrimSpace s = "")); [by left|right]. split; [done|apply TrimSpace_idem].
Qed.

Lemma TenantFromPayload_text p : TenantFromPayload p = "" ∨ tenant_text (TenantFromPayload p).
Proof.
  unfold TenantFromPayload. destruct (str_assoc p "tenant_id") as [[]|];
    auto using TrimSpace_blank_text.
Qed.

Lemma TenantFromContext_text ctx :
  default "" (TenantFromContext ctx) = "" ∨ tenant_text (default "" (TenantFromContext ctx)).
Proof.
  destruct (TenantFromContext ctx) as [s|] eqn:E; [right|by left].
  by apply first_nonblank_text in E.
Qed.

Lemma prepared_tenant ctx event : tenant_text (ev_tenant_id (PrepareEventForPublish ctx event)).
Proof.
  cbn. apply orElse_text; [|by vm_compute].
  auto using orElse_blank_text, TrimSpace_blank_text, TenantFromContext_text,
    TenantFromPayload_text.
Qed.

Lemma str_assoc_set_key l k v : str_assoc (set_key l k v) k = Some v.
Proof.
  induction l as [|[k' v'] l IH]; cbn; [by rewrite string_eqb_refl|].
  destruct (k =?s k') eqn:E; cbn; [by rewrite string_eqb_refl|]. by rewrite E.
Qed.

Lemma str_assoc_set_key_other l k k' v : k' ≠ k → str_assoc (set_key l k v) k' = str_assoc l k'.
Proof.
  intros Hk. induction l as [|[k1 v1] l IH]; cbn.
  - by destruct (String.eqb_spec k' k).
  - destruct (String.eqb_spec k k1) as [<-|]; cbn; [by destruct (String.eqb_spec k' k)|].
    by destruct (k' =?s k1).
Qed.

Lemma orElse_nonempty s t : s ≠ "" → orElse s t = s.
Proof. unfold orElse. by destruct (String.eqb_spec s ""). Qed.

Lemma exec_EnqueueWebhookDeliveries busy ctx event db :
  tenant_text (ev_tenant_id event) → TrimSpace (ev_type event) ≠ "" →
  exec busy (EnqueueWebhookDeliveries ctx (ev_tenant_id event) event) 0 db =
    Some (Ok tt, 0%nat, db <| deliveries ::= λ q, q ++
      map (delivery (ev_tenant_id event) (ev_type event) (ev_payload event))
        (List.filter (subscribed (ev_tenant_id event) (ev_type event)) (subscriptions db)) |>).
Proof.
  intros [Hne Ht] Htype. unfold EnqueueWebhookDeliveries. rewrite Ht.
  rewrite !orElse_nonempty by (rewrite ?orElse_nonempty; done).
  destruct (String.eqb_spec (ev_tenant_id event) ""); [done|].
  destruct (String.eqb_spec (TrimSpace (ev_type event)) ""); [done|].
  by rewrite exec_stmt.
Qed.

Lemma exec_insert_event busy event db :
  event_check event = true →
  exec busy (insert_event event) 0 db = Some (Ok tt, 0%nat, db <| outbox ::= λ l, l ++ [event] |>).
Proof.
  intros Hc. unfold insert_event, insert_in. rewrite exec_stmt. unfold insert_row. rewrite Hc.
  replace (existsb (never_conflict event) (outbox db)) with false; [done|].
  symmetry. by induction (outbox db).
Qed.

Lemma balanced_publish_event event : Balanced (PublishEvent event).
Proof. unfold PublishEvent, insert_event, EnqueueWebhookDeliveries. cbv zeta. balance. Qed.
Lemma balanced_sla event : Balanced (sla_PublishEvent event).
Proof. unfold sla_PublishEvent, insert_event, EnqueueWebhookDeliveries. cbv zeta. balance. Qed.

Definition pending_event event : Prop :=
  ev_status event = "PENDING" ∧ TrimSpace (ev_type event) ≠ "".

Lemma exec_PublishEvent busy event db :
  pending_event event →
  exec busy (PublishEvent event) 0 db =
    Some (Ok tt, 0%nat, outbox_with (published_row event) db).
Proof.
  intros [Hs Ht]. unfold PublishEvent. rewrite exec_bind, exec_insert_event.
  - cbv zeta. apply (exec_EnqueueWebhookDeliveries busy env_ctx (published_row event)); [|done].
    apply (prepared_tenant env_ctx).
  - unfold event_check. cbn. by rewrite Hs.
Qed.

Lemma pooled_EnqueueWebhookDeliveries drv ctx event db n r db' n' :
  tenant_text (ev_tenant_id event) → TrimSpace (ev_type event) ≠ "" →
  pooled drv (EnqueueWebhookDeliveries ctx (ev_tenant_id event) event) db n = (r, db', n') →
  r = Ok tt ∧ db' = db <| deliveries ::= λ q, q ++
      map (delivery (ev_tenant_id event) (ev_type event) (ev_payload event))
        (List.filter (subscribed (ev_tenant_id event) (ev_type event)) (subscriptions db)) |>
  ∨ (∃ e, r = Err e) ∧ db' = db.
Proof.
  intros [Hne Ht] Htype. unfold EnqueueWebhookDeliveries. rewrite Ht.
  rewrite !orElse_nonempty by (rewrite ?orElse_nonempty; done).
  destruct (String.eqb_spec (ev_tenant_id event) ""); [done|].
  destruct (String.eqb_spec (TrimSpace (ev_type event)) ""); [done|]. intros Hrun.
  apply pooled_stmt_inv in Hrun as [([] & -> & [= <-])|(e & -> & -> & _)]; eauto.
Qed.

(** On the pool the event and its deliveries are two transactions. *)
Lemma pooled_PublishEvent drv event db n r db' n' :
  pending_event event → pooled drv (PublishEvent event) db n = (r, db', n') →
  r = Ok tt ∧ db' = outbox_with (published_row event) db ∨
  (∃ e, r = Err e) ∧
    (db' = db ∨ db' = db <| outbox := outbox db ++ [published_row event] |>).
Proof.
  intros [Hs Ht] Hrun. unfold PublishEvent in Hrun.
  apply pooled_bind_inv in Hrun as (r1 & d & k & E & Hrun).
  apply pooled_insert in E as [[-> ->]|[-> ->]]; [|destruct Hrun as [-> ->]; right; eauto].
  cbv zeta in Hrun.
  apply (pooled_EnqueueWebhookDeliveries drv env_ctx (published_row event)) in Hrun; [|apply (prepared_tenant env_ctx)|done].
  destruct Hrun as [[-> ->]|[He ->]]; [by left|right; eauto].
Qed.

Lemma exec_approval_PublishEvent busy event db :
  pending_event event →
  exec busy (approval_PublishEvent event) 0 db =
    Some (Ok tt, 0%nat, outbox_with (approval_row event) db).
Proof.
  intros [Hs Ht]. unfold approval_PublishEvent.
  destruct (String.eqb_spec (ev_type event) "") as [E|_]; [by rewrite E in Ht|].
  rewrite exec_bind, exec_insert_event.
  - cbv zeta. apply (exec_EnqueueWebhookDeliveries busy env_ctx (approval_row event)); [|done].
    apply (prepared_tenant env_ctx).
  - unfold event_check. cbn. by rewrite Hs.
Qed.

End Publishing.

#[export] Hint Resolve balanced_publish_event : balance.
#[export] Hint Extern 2 (pending_event _) => (split; [reflexivity|vm_compute; discriminate]) : golib.

(** ** Tenant isolation *)

(** The outbox row and the deliveries of one publication. *)
Definition published_for `{Env} (row : event_row) (db db' : database) : Prop :=
  outbox db' = outbox db ++ [row] ∧
  ∃ new, deliveries db' = deliveries db ++ new ∧
    (∀ d, d ∈ new ↔ ∃ w, w ∈ subscriptions db ∧
       ws_tenant_id w = ev_tenant_id row ∧ ws_status w = "ACTIVE" ∧
       (ws_event_types w = [] ∨ ev_type row ∈ ws_event_types w) ∧
       d = delivery (ev_tenant_id row) (ev_type row) (ev_payload row) w).

Lemma subscribed_spec tenantID event_type w :
  subscribed tenantID event_type w = true ↔
  ws_tenant_id w = tenantID ∧ ws_status w = "ACTIVE" ∧
  (ws_event_types w = [] ∨ event_type ∈ ws_event_types w).
Proof.
  unfold subscribed. rewrite !andb_true_iff, orb_true_iff, !String.eqb_eq, str_mem_elem,
    Nat.eqb_eq, length_zero_iff_nil. naive_solver.
Qed.

Lemma outbox_with_for `{Env} row db : published_for row db (outbox_with row db).
Proof.
  split; [done|]. eexists. split; [reflexivity|]. intros d.
  rewrite list_elem_of_In, in_map_iff. setoid_rewrite filter_In.
  setoid_rewrite subscribed_spec. setoid_rewrite <- list_elem_of_In. naive_solver.
Qed.

(** C39. Publishing an event in a committed transaction writes one outbox row and
    one delivery per active subscription of its tenant to its type; the tenant of
    the row is never blank and is the [tenant_id] of its payload, so no event
    reaches the webhooks of another tenant. *)
Theorem PublishEvent_tenant_isolated `{Env} busy event db db' :
  ev_status event = "PENDING" → TrimSpace (ev_type event) ≠ "" →
  commits busy (PublishEvent event) db = Some (tt, db') →
  ∃ row, published_for row db db' ∧ tenant_text (ev_tenant_id row) ∧
    str_assoc (ev_payload row) "tenant_id" = Some (VString (ev_tenant_id row)) ∧
    (TrimSpace (ev_tenant_id event) ≠ "" → ev_tenant_id row = TrimSpace (ev_tenant_id event)) ∧
    (TrimSpace (ev_tenant_id event) = "" → ∀ t,
       TenantFromContext env_ctx = Some t → ev_tenant_id row = t) ∧
    (∀ d, d ∈ deliveries db' → d ∈ deliveries db ∨ wd_tenant_id d = ev_tenant_id row).
Proof.
  intros Hs Ht. unfold commits. rewrite exec_PublishEvent by done. intros [= <-].
  exists (published_row event). pose proof (outbox_with_for (published_row event) db) as Hp.
  split_and!; [done|apply (prepared_tenant env_ctx)|apply str_assoc_set_key| | |].
  - intros Hne. cbn. by rewrite !(orElse_nonempty (TrimSpace (ev_tenant_id event))).
  - intros E t Hc. cbn. rewrite E, Hc. cbn.
    assert (t ≠ "") by (apply first_nonblank_text in Hc; apply Hc).
    by rewrite !(orElse_nonempty t).
  - intros d. destruct Hp as (_ & new & -> & Hnew). rewrite elem_of_app.
    intros [?|Hd]; [by left|right]. apply Hnew in Hd as (w & _ & _ & _ & _ & ->). done.
Qed.

Definition sample_subscriptions : list subscription_row :=
  [ {| ws_id := "w1"; ws_tenant_id := "acme"; ws_status := "ACTIVE"; ws_event_types := [];
       ws_max_failures := 3 |};
    {| ws_id := "w2"; ws_tenant_id := "other"; ws_status := "ACTIVE"; ws_event_types := [];
       ws_max_failures := 3 |} ].

Lemma PublishEvent_tenant_isolated_witness :
  let env := sample_env case_statuses_35 in
  let event := new_event "CASE_CREATED" (Some "case-1") None [] in
  let db := empty_db <| subscriptions := sample_subscriptions |> in
  let db' := outbox_with (published_row event) db in
  map wd_subscription_id (deliveries db') = ["w1"%string] ∧
  ∃ row, published_for row db db' ∧ ev_tenant_id row = "acme".
Proof.
  intros env event db db'. split; [vm_compute; reflexivity|].
  destruct (PublishEvent_tenant_isolated false event db db') as (row & H1 & _ & _ & _ & H2 & _).
  - reflexivity.
  - vm_compute. discriminate.
  - vm_compute. reflexivity.
  - exists row. split; [exact H1|]. apply H2; vm_compute; reflexivity.
Defined.
