(* ===== verification/TenantScope.v ===== *)
(** * Statements scoped to a tenant (internal/multitenancy/service.go)

    [AssertTenantScope] adds a tenant condition to the text of an SQL statement.  Here
    it is with the order of clauses that PostgreSQL asks of a statement; the texts it
    is applied to stand with the operations that use them. *)

From Stdlib Require Import Ascii String ZArith Lia.
From stdpp Require Import base list strings.
From S2P Require Import Prelude ApprovalExpr SqlTx Schema Outbox.

Open Scope Z_scope.
Open Scope go_scope.

(** ** Strings *)

(** [strings.Index]; [None] is -1. *)
Fixpoint Index (s sub : string) : option nat :=
  if HasPrefix s sub then Some 0%nat
  else match s with
       | EmptyString => None
       | String _ r => S <$> Index r sub
       end.

(** [strings.TrimRight] with a set of characters. *)
Fixpoint TrimRight (p : ascii → bool) (s : string) : string :=
  match s with
  | EmptyString => EmptyString
  | String c r =>
      match TrimRight p r with
      | EmptyString => if p c then EmptyString else String c EmptyString
      | r' => String c r'
      end
  end.

Definition HasSuffix (s suffix : string) : bool :=
  (String.length suffix <=? String.length s)%nat &&
  (String.substring (String.length s - String.length suffix) (String.length suffix) s =?s suffix).
Definition TrimSuffix (s suffix : string) : string :=
  if HasSuffix s suffix
  then String.substring 0 (String.length s - String.length suffix) s else s.

(** ** The scoped statement *)

Definition hasTenantPredicate (query : string) : bool :=
  let upper := ToUpper query in
  Contains upper "TENANT_ID =" || Contains upper "TENANT_ID=".

(** [TENANT_SCOPE_ENFORCEMENT] *)
Definition shouldPanicOnMissingTenantScope (enforcement : string) : bool :=
  ToLower (TrimSpace enforcement) =?s "panic".

Definition tail_keywords : list string :=
  [" FOR UPDATE"; " RETURNING"; " ORDER BY"; " LIMIT"; " GROUP BY"].

(** Where the earliest of the keywords starts. *)
Definition insert_index (upper : string) : nat :=
  fold_left (λ i kw, match Index upper kw with
                     | Some j => if (j <? i)%nat then j else i
                     | None => i
                     end) tail_keywords (String.length upper).

Definition cut_set (c : ascii) : bool :=
  let n := byte_of c in ((n =? 32) || (n =? 10) || (n =? 9) || (n =? 13))%N.

(** The statement with its condition on the tenant as parameter number [n]. *)
Definition with_tenant_condition (scopedQuery : string) (n : nat) : string :=
  let hasSemicolon := HasSuffix scopedQuery ";" in
  let scopedQuery := TrimSuffix scopedQuery ";" in
  let i := insert_index (ToUpper scopedQuery) in
  let head := TrimRight cut_set (String.substring 0 i scopedQuery) in
  let tail := String.substring i (String.length scopedQuery - i) scopedQuery in
  let placeholder := "$" +:+ Itoa (Z.of_nat n) in
  let head :=
    head +:+ (if Contains (ToUpper head) " WHERE " then " AND " else " WHERE ") +:+
    "tenant_id = " +:+ placeholder in
  head +:+ tail +:+ (if hasSemicolon then ";" else "").

Definition AssertTenantScope (enforcement : string) (ctx : go_context) (query : string)
    (args : list value) : result (string * list value) :=
  match TenantFromContext ctx with
  | None =>
      if shouldPanicOnMissingTenantScope enforcement
      then Err (ErrMsg "tenant scope missing from context")
      else Err (ErrMsg "AssertTenantScope: tenant not found")
  | Some tenantID =>
      let scopedQuery := TrimSpace query in
      if scopedQuery =?s "" then Err (ErrMsg "AssertTenantScope: query is empty")
      else if hasTenantPredicate scopedQuery then Ok (scopedQuery, args)
      else Ok (with_tenant_condition scopedQuery (S (length args)), args ++ [VString tenantID])
  end.

(** ** The order of clauses *)

(** The words of a statement outside parentheses and quotes, in upper case. *)
Record lexer := { lx_word : string; lx_depth : nat; lx_quoted : bool; lx_words : list string }.
Definition end_word (l : lexer) : lexer :=
  {| lx_word := ""; lx_depth := lx_depth l; lx_quoted := lx_quoted l;
     lx_words := if (lx_word l =?s "") || negb (lx_depth l =? 0)%nat then lx_words l
                 else lx_words l ++ [lx_word l] |}.
Definition lex_char (l : lexer) (c : ascii) : lexer :=
  if lx_quoted l then
    {| lx_word := lx_word l; lx_depth := lx_depth l;
       lx_quoted := negb (Ascii.eqb c "'"); lx_words := lx_words l |}
  else if Ascii.eqb c "'" then
    {| lx_word := lx_word l; lx_depth := lx_depth l; lx_quoted := true; lx_words := lx_words l |}
  else if Ascii.eqb c "(" then
    let l := end_word l in
    {| lx_word := ""; lx_depth := S (lx_depth l); lx_quoted := false; lx_words := lx_words l |}
  else if Ascii.eqb c ")" then
    let l := end_word l in
    {| lx_word := ""; lx_depth := pred (lx_depth l); lx_quoted := false; lx_words := lx_words l |}
  else if is_space c || Ascii.eqb c "," then end_word l
  else {| lx_word := lx_word l +:+ String (upper_char c) ""; lx_depth := lx_depth l;
          lx_quoted := false; lx_words := lx_words l |}.
Definition sql_words (s : string) : list string :=
  lx_words (end_word (fold_left lex_char (string_chars s)
    {| lx_word := ""; lx_depth := 0; lx_quoted := false; lx_words := [] |})).

(** PostgreSQL takes a WHERE clause at most once, and not after one of the clauses that
    follow it in its grammar. *)
Fixpoint where_in_order (allowed : bool) (words : list string) : bool :=
  match words with
  | [] => true
  | w :: words =>
      if w =?s "WHERE" then allowed && where_in_order false words
      else if str_mem w ["GROUP"; "ORDER"; "LIMIT"; "FOR"; "RETURNING"]
      then where_in_order false words
      else where_in_order allowed words
  end.
Definition parses (s : string) : bool := where_in_order true (sql_words s).

(** A statement as the server takes it: refused when it does not parse. *)
Definition parsed {X} (text : string) (body : database → result (X * database))
    : Tx database X :=
  stmt (λ db, if parses text then body db else Err ErrSQL).

Lemma balanced_parsed {X} text (body : database → result (X * database)) :
  Balanced (parsed text body).
Proof. apply balanced_stmt. Qed.
#[export] Hint Resolve balanced_parsed : balance.

Lemma commits_parsed {X} busy text (body : database → result (X * database)) db :
  commits busy (parsed text body) db =
    if parses text then match body db with Ok p => Some p | Err _ => None end else None.
Proof. unfold parsed. rewrite commits_stmt. by destruct (parses text). Qed.
