(* ===== verification/EventQueue.v ===== *)
(** * Consuming the event outbox (internal/repository/repository.go and event_repo.go,
    internal/engine/worker.go)

    An event is named by its position in the outbox, which only grows at its end; its
    identifier in the database is generated.  Statements are given with their text, as
    the tenant condition is added to the text. *)

From Stdlib Require Import Ascii String ZArith Lia.
From stdpp Require Import base list strings.
From S2P Require Import Prelude ApprovalExpr SqlTx Schema Outbox TenantScope.

Open Scope Z_scope.
Open Scope go_scope.

(** ** The texts *)

Definition poll_pending_text : string := "
		SELECT id::text AS id, tenant_id::text AS tenant_id, case_id::text AS case_id, task_id::text AS task_id, event_type, payload, status, created_at, attempts
		FROM events_outbox
		WHERE status = $1
		ORDER BY created_at ASC
		LIMIT $2
		FOR UPDATE SKIP LOCKED"%string.

Definition claim_pending_text : string := "
		UPDATE events_outbox
		SET status = 'PROCESSING',
		    last_attempted_at = now()
		WHERE id = ANY($1::uuid[])"%string.

Definition update_status_text : string := "
        UPDATE events_outbox
        SET status = $1::text, delivered_at = $2::timestamptz, attempts = CASE WHEN $1::text = 'FAILED' THEN attempts + 1 ELSE attempts END
        WHERE id = $3::uuid
          AND status NOT IN ('DELIVERED', 'FAILED')"%string.

Definition poll_events_text : string := "
		SELECT id::text AS id, case_id::text AS case_id, task_id::text AS task_id, event_type, payload,
		       tenant_id::text AS tenant_id,
		       status, target_service,
		       attempts, max_attempts, last_attempted_at,
		       partition_key, trace_id,
		       created_at, delivered_at
		FROM events_outbox
		WHERE target_service = $1
		  AND status = 'PENDING'
		  AND attempts < max_attempts
		ORDER BY created_at ASC
		LIMIT $2
		FOR UPDATE SKIP LOCKED"%string.

Definition claim_events_text : string := "
		UPDATE events_outbox
		SET status = 'PROCESSING',
		    last_attempted_at = now(),
		    attempts = attempts + 1
		WHERE id = ANY($1::uuid[])"%string.

Definition ack_event_text : string := "
		UPDATE events_outbox
		SET status       = 'DELIVERED',
		    delivered_at  = $1,
		    attempts      = attempts + 1,
		    last_attempted_at = $1
		WHERE id = $2::uuid
		  AND status IN ('PENDING', 'PROCESSING')"%string.

Definition nack_event_text : string := "
		UPDATE events_outbox
		SET attempts          = attempts + 1,
		    last_attempted_at = $1,
		    status            = CASE
		                            WHEN attempts + 1 >= max_attempts THEN 'FAILED'
		                            ELSE 'PENDING'
		                        END,
		    payload           = jsonb_set(
		                            COALESCE(payload, '{}'),
		                            '{_last_error}',
		                            to_jsonb($2::text)
		                        )
		WHERE id = $3::uuid
		  AND status IN ('PENDING', 'PROCESSING')"%string.

(** ** Statements over positions *)

Definition events_at (p : nat → event_row → bool) (rows : list event_row)
    : list (nat * event_row) :=
  List.filter (λ x, p x.1 x.2) (imap pair rows).

Definition update_events (p : nat → event_row → bool) (f : event_row → event_row)
    (db : database) : result (Z * database) :=
  if forallb (λ x, negb (p x.1 x.2) || event_check (f x.2)) (imap pair (outbox db))
  then Ok (Z.of_nat (length (events_at p (outbox db))),
           db <| outbox ::= imap (λ i e, if p i e then f e else e) |>)
  else Err ErrSQL.

(** The condition [AssertTenantScope] adds. *)
Definition of_tenant (tenant : option string) (e : event_row) : bool :=
  match tenant with Some t => ev_tenant_id e =?s t | None => true end.

(** [return nil, nil] before the commit, which leaves the rollback to the deferred call. *)
Definition nothing_to_do {A} (r : result (list A) * database) : result (list A) * database :=
  match r with
  | (Err ReturnWithoutCommit, db) => (Ok [], db)
  | r => r
  end.

Section Queue.
Context `{env : Env} (enforcement : string).

Definition scoped_text (ctx : go_context) (text : string) (args : list value)
    : result string :=
  fst <$> AssertTenantScope enforcement ctx text args.
(** [if _, err := TenantFromContext(ctx); err == nil { .. }] *)
Definition scope_if_tenant (ctx : go_context) (text : string) (args : list value)
    : result string :=
  match TenantFromContext ctx with
  | Some _ => scoped_text ctx text args
  | None => Ok text
  end.
(** A list argument stands as an opaque value. *)
Definition position_list (ids : list nat) : value := VOther (Z.of_nat (length ids)).

(** ** repository.go *)

Definition poll_pending_tx (ctx : go_context) (limit : Z)
    : Tx database (list (nat * event_row)) :=
  let limit := if limit <=? 0 then 10 else limit in
  text ← tx_of (scope_if_tenant ctx poll_pending_text [VString "PENDING"; VInt limit]);
  events ← parsed text (λ db,
    Ok (take (Z.to_nat limit)
          (events_at (λ _ e, (ev_status e =?s "PENDING") && of_tenant (TenantFromContext ctx) e)
             (outbox db)), db));
  match events with
  | [] => throw ReturnWithoutCommit
  | _ =>
      let ids := map fst events in
      text ← tx_of (scope_if_tenant ctx claim_pending_text [position_list ids]);
      _ ← parsed text (update_events
        (λ i e, bool_decide (i ∈ ids) && of_tenant (TenantFromContext ctx) e)
        (λ e, e <| ev_status := "PROCESSING" |> <| ev_last_attempted_at := Some env_now |>));
      mret events
  end.
Definition PollPendingEvents (drv : driver) (ctx : go_context) (limit : Z) (db : database)
    : result (list (nat * event_row)) * database :=
  nothing_to_do (within_tx drv (poll_pending_tx ctx limit) db).

Definition UpdateEventStatus (ctx : go_context) (eventID : nat) (status : string)
    : Tx database unit :=
  text ← tx_of (scope_if_tenant ctx update_status_text
                  [VString status; VOther env_clock; VInt (Z.of_nat eventID)]);
  n ← parsed text (update_events
    (λ i e, Nat.eqb i eventID && negb (str_mem (ev_status e) ["DELIVERED"; "FAILED"]) &&
            of_tenant (TenantFromContext ctx) e)
    (λ e, e <| ev_status := status |> <| ev_delivered_at := Some env_clock |>
            <| ev_attempts ::= λ n, if status =?s "FAILED" then n + 1 else n |>));
  if n =? 0 then throw (ErrMsg "event not found or already in terminal state") else mret tt.

(** ** event_repo.go *)

Definition or_default_tenant (ctx : go_context) : go_context :=
  match TenantFromContext ctx with
  | Some _ => ctx
  | None => WithTenant ctx DefaultTenantID
  end.

Definition poll_events_tx (ctx : go_context) (service : string) (batchSize : Z)
    : Tx database (list (nat * event_row)) :=
  let ctx := or_default_tenant ctx in
  let batchSize := if batchSize <=? 0 then 10 else batchSize in
  text ← tx_of (scoped_text ctx poll_events_text [VString service; VInt batchSize]);
  events ← parsed text (λ db,
    Ok (take (Z.to_nat batchSize)
          (events_at (λ _ e, (ev_target_service e =?s service) && (ev_status e =?s "PENDING") &&
                             (ev_attempts e <? ev_max_attempts e) &&
                             of_tenant (TenantFromContext ctx) e)
             (outbox db)), db));
  match events with
  | [] => throw ReturnWithoutCommit
  | _ =>
      let ids := map fst events in
      text ← tx_of (scoped_text ctx claim_events_text [position_list ids]);
      _ ← parsed text (update_events
        (λ i e, bool_decide (i ∈ ids) && of_tenant (TenantFromContext ctx) e)
        (λ e, e <| ev_status := "PROCESSING" |> <| ev_last_attempted_at := Some env_now |>
                <| ev_attempts ::= Z.succ |>));
      mret events
  end.
Definition PollEvents (drv : driver) (ctx : go_context) (service : string) (batchSize : Z)
    (db : database) : result (list (nat * event_row)) * database :=
  nothing_to_do (within_tx drv (poll_events_tx ctx service batchSize) db).

Definition open_event (eventID : nat) (tenant : option string) (i : nat) (e : event_row) : bool :=
  Nat.eqb i eventID && str_mem (ev_status e) ["PENDING"; "PROCESSING"] && of_tenant tenant e.

Definition AckEvent (ctx : go_context) (eventID : nat) : Tx database unit :=
  let ctx := or_default_tenant ctx in
  text ← tx_of (scoped_text ctx ack_event_text [VOther env_clock; VInt (Z.of_nat eventID)]);
  n ← parsed text (update_events (open_event eventID (TenantFromContext ctx))
    (λ e, e <| ev_status := "DELIVERED" |> <| ev_delivered_at := Some env_clock |>
            <| ev_attempts ::= Z.succ |> <| ev_last_attempted_at := Some env_clock |>));
  if n =? 0 then throw (ErrMsg "event not found or already delivered") else mret tt.

Definition NackEvent (ctx : go_context) (eventID : nat) (errMsg : string)
    : Tx database unit :=
  let ctx := or_default_tenant ctx in
  text ← tx_of (scoped_text ctx nack_event_text
                  [VOther env_clock; VString errMsg; VInt (Z.of_nat eventID)]);
  n ← parsed text (update_events (open_event eventID (TenantFromContext ctx))
    (λ e, e <| ev_status := if ev_max_attempts e <=? ev_attempts e + 1 then "FAILED"
                            else "PENDING" |>
            <| ev_attempts ::= Z.succ |> <| ev_last_attempted_at := Some env_clock |>
            <| ev_payload ::= λ p, set_key p "_last_error" (VString errMsg) |>));
  if n =? 0 then throw (ErrMsg "event not found or not in PENDING state") else mret tt.

(** ** db/postgres.go *)

(** One statement claims the oldest pending events, of any tenant; it stamps the time of delivery. *)
Definition fetched (now : Z) (e : event_row) : event_row :=
  e <| ev_status := "PROCESSING" |> <| ev_delivered_at := Some now |>.
Definition FetchPendingEvents (limit : nat) : Tx database (list (nat * event_row)) :=
  stmt (λ db,
    let ids := map fst (take limit (events_at (λ _ e, ev_status e =?s "PENDING") (outbox db))) in
    '(_, db') ← update_events (λ i _, bool_decide (i ∈ ids)) (fetched env_now) db;
    Ok (events_at (λ i _, bool_decide (i ∈ ids)) (outbox db'), db')).

(** ** engine/worker.go *)

(** [processEvent], with what the event types and the observers do as [business]; the
    failure is written outside the transaction. *)
Definition processEvent (drv pool : driver) (business : event_row → Tx database unit)
    (eventID : nat) (event : event_row) (db : database) : result unit * database :=
  let eventCtx := WithTenant env_ctx (TrimSpace (ev_tenant_id event)) in
  match within_tx drv
          (_ ← business event; UpdateEventStatus eventCtx eventID "DELIVERED") db with
  | (Ok _, db) => (Ok tt, db)
  | (Err e, db) => (Err e, snd (on_pool pool (UpdateEventStatus eventCtx eventID "FAILED") db))
  end.
End Queue.

(** ** Refused statements *)

(** A text, and a number of arguments, that the tenant condition spoils: as it stands it
    parses, but not with the condition. *)
Definition spoiled (text : string) (n : nat) : bool :=
  parses text && negb (hasTenantPredicate (TrimSpace text)) && negb (TrimSpace text =?s "") &&
  negb (parses (with_tenant_condition (TrimSpace text) (S n))).

Section Refused.
Context `{env : Env} (enforcement : string).

Lemma spoiled_scoped ctx text args scoped :
  spoiled text (length args) = true →
  scoped_text enforcement ctx text args = Ok scoped → parses scoped = false.
Proof.
  unfold spoiled, scoped_text, AssertTenantScope. intros Hs.
  apply andb_prop in Hs as [Hs Hp]. apply andb_prop in Hs as [Hs He].
  apply andb_prop in Hs as [_ Ht]. apply negb_true_iff in Ht, He, Hp.
  destruct (TenantFromContext ctx); [|by destruct (shouldPanicOnMissingTenantScope _)].
  rewrite He, Ht. cbn [fmap result_fmap fst]. by intros [= <-].
Qed.

Lemma spoiled_poll {X A} drv ctx text args (body : database → result (X * database))
    (k : X → Tx database (list A)) db :
  spoiled text (length args) = true →
  ∃ e, nothing_to_do (within_tx drv (scoped ← tx_of (scoped_text enforcement ctx text args);
                                     x ← parsed scoped body; k x) db) = (Err e, db).
Proof.
  intros Hs. unfold within_tx. destruct (round_trip_fails drv 0); [by exists ErrSQL|].
  destruct (scoped_text enforcement ctx text args) as [scoped|e] eqn:E.
  - apply spoiled_scoped in E; [|done]. exists ErrSQL.
    cbn -[parses]. unfold round_trip. cbn -[parses].
    rewrite andb_false_r. destruct (round_trip_fails drv 1); [done|]. by rewrite E.
  - exists e. unfold scoped_text, AssertTenantScope in E.
    assert (e ≠ ReturnWithoutCommit) as Hne; [|by destruct e].
    intros ->. destruct (TenantFromContext ctx);
      [|by destruct (shouldPanicOnMissingTenantScope _)].
    destruct (_ =?s ""); [done|]. by destruct (hasTenantPredicate _).
Qed.

Lemma spoiled_pooled {X A} drv ctx text args (body : database → result (X * database))
    (k : X → Tx database A) db :
  spoiled text (length args) = true →
  ∃ e, on_pool drv (scoped ← tx_of (scoped_text enforcement ctx text args);
                    x ← parsed scoped body; k x) db = (Err e, db).
Proof.
  intros Hs. unfold on_pool. rewrite pooled_bind. cbn [tx_of pooled].
  destruct (scoped_text _ _ _ _) as [scoped|e] eqn:E; [|by exists e].
  apply spoiled_scoped in E; [|done]. rewrite pooled_bind. unfold parsed, stmt. cbn [pooled].
  destruct (round_trip_fails drv 0); [by eexists|]. rewrite E. by eexists.
Qed.

Lemma PollEvents_refused drv ctx service batchSize db :
  ∃ e, PollEvents enforcement drv ctx service batchSize db = (Err e, db).
Proof. by apply spoiled_poll. Qed.
Lemma AckEvent_refused drv ctx eventID db :
  ∃ e, on_pool drv (AckEvent enforcement ctx eventID) db = (Err e, db).
Proof. by apply spoiled_pooled. Qed.
Lemma NackEvent_refused drv ctx eventID msg db :
  ∃ e, on_pool drv (NackEvent enforcement ctx eventID msg) db = (Err e, db).
Proof. by apply spoiled_pooled. Qed.
End Refused.

(** C24. Every statement of the event repository that [AssertTenantScope] scopes is
    refused by the server: polling for a service, acknowledging and rejecting an event
    always fail and change nothing, and so does polling in the context of a tenant. *)
Theorem scoped_event_statements_are_refused `{env : Env} (enforcement : string) (drv : driver)
    (ctx : go_context) (db : database) :
  (∀ service batchSize, ∃ e, PollEvents enforcement drv ctx service batchSize db = (Err e, db)) ∧
  (∀ eventID, ∃ e, on_pool drv (AckEvent enforcement ctx eventID) db = (Err e, db)) ∧
  (∀ eventID msg, ∃ e, on_pool drv (NackEvent enforcement ctx eventID msg) db = (Err e, db)) ∧
  (∀ limit, TenantFromContext ctx ≠ None →
     ∃ e, PollPendingEvents enforcement drv ctx limit db = (Err e, db)).
Proof.
  split_and!.
  - intros service batchSize. apply PollEvents_refused.
  - intros eventID. apply AckEvent_refused.
  - intros eventID msg. apply NackEvent_refused.
  - intros limit Ht. unfold PollPendingEvents, poll_pending_tx, scope_if_tenant. cbv zeta.
    destruct (TenantFromContext ctx) as [t|]; [|done]. by apply spoiled_poll.
Qed.

(** ** What polling does *)

Lemma events_at_elem p rows i e :
  (i, e) ∈ events_at p rows ↔ rows !! i = Some e ∧ p i e = true.
Proof.
  unfold events_at. rewrite list_elem_of_In, filter_In, <- list_elem_of_In. cbn.
  enough ((i, e) ∈ imap pair rows ↔ rows !! i = Some e) by tauto.
  rewrite list_elem_of_lookup. setoid_rewrite list_lookup_imap. split.
  - intros (j & H). destruct (rows !! j) eqn:E; [|done]. by injection H as -> ->.
  - intros H. exists i. by rewrite H.
Qed.

Lemma events_at_NoDup p rows : NoDup (map fst (events_at p rows)).
Proof.
  unfold events_at. assert (NoDup (map fst (imap pair rows))) as Hn.
  { replace (map fst (imap pair rows)) with (seq 0 (length rows)); [apply NoDup_seq|].
    apply list_eq. intros j. change (map fst ?l) with (fst <$> l).
    rewrite list_lookup_fmap, list_lookup_imap.
    destruct (rows !! j) as [e|] eqn:E; cbn.
    - rewrite lookup_seq_lt; [done|]. by eapply lookup_lt_Some.
    - apply lookup_seq_ge. by apply lookup_ge_None. }
  induction (imap pair rows) as [|x l IH]; [done|]. cbn in *. apply NoDup_cons in Hn as [Hx Hn].
  destruct (p x.1 x.2); [|by apply IH]. cbn. constructor; [|by apply IH].
  intros H. apply Hx. revert H. rewrite !list_elem_of_In, !in_map_iff.
  setoid_rewrite filter_In. naive_solver.
Qed.

Definition claimed (ids : list nat) (now : Z) (i : nat) (e : event_row) : event_row :=
  if bool_decide (i ∈ ids)
  then e <| ev_status := "PROCESSING" |> <| ev_last_attempted_at := Some now |> else e.

Definition first_pending (limit : Z) (db : database) : list (nat * event_row) :=
  take (Z.to_nat (if limit <=? 0 then 10 else limit))
    (events_at (λ _ e, ev_status e =?s "PENDING") (outbox db)).

Section Polling.
Context `{env : Env} (enforcement : string).

Lemma events_at_ext p q rows :
  (∀ i e, p i e = q i e) → events_at p rows = events_at q rows.
Proof. intros H. unfold events_at. apply filter_ext. intros [i e]. apply H. Qed.

Lemma poll_commits busy ctx limit db events db' :
  commits busy (poll_pending_tx enforcement ctx limit) db = Some (events, db') →
  events = first_pending limit db ∧
  db' = db <| outbox ::= imap (claimed (map fst events) env_now) |>.
Proof.
  unfold poll_pending_tx. intros H. cbv zeta in H.
  rewrite commits_bind, commits_of in H by balance. unfold scope_if_tenant in H.
  destruct (TenantFromContext ctx) as [t|] eqn:Et.
  { destruct (scoped_text _ _ poll_pending_text _) as [s|] eqn:Es; [|done].
    apply spoiled_scoped in Es; [|by vm_compute].
    rewrite commits_bind, commits_parsed, Es in H by balance. done. }
  rewrite commits_bind, commits_parsed in H by balance.
  change (parses poll_pending_text) with true in H. cbv iota in H.
  rewrite (events_at_ext _ (λ _ e, ev_status e =?s "PENDING")) in H
    by (intros; cbn; apply andb_true_r).
  fold (first_pending limit db) in H. destruct (first_pending limit db) as [|e es] eqn:Ef; [done|].
  rewrite commits_bind, commits_of in H by balance.
  rewrite commits_bind, commits_parsed in H by balance.
  change (parses claim_pending_text) with true in H. cbv iota in H.
  unfold update_events in H. destruct (forallb _ _); [|done]. rewrite commits_mret in H.
  injection H as <- <-. split; [done|].
  match goal with |- db <| outbox ::= ?f |> = db <| outbox ::= ?g |> =>
    change (db <| outbox := f (outbox db) |> = db <| outbox := g (outbox db) |>);
    enough (f (outbox db) = g (outbox db)) as -> by done end.
  apply imap_ext. intros i x _. unfold claimed, of_tenant. by rewrite andb_true_r.
Qed.

Lemma PollPendingEvents_cases drv ctx limit db events db' :
  PollPendingEvents enforcement drv ctx limit db = (Ok events, db') →
  events = [] ∧ db' = db ∨
  events = first_pending limit db ∧
  db' = db <| outbox ::= imap (claimed (map fst events) env_now) |>.
Proof.
  unfold PollPendingEvents, nothing_to_do. intros H.
  destruct (within_tx _ _ _) as [[evs|e] db1] eqn:E.
  - injection H as -> ->. apply within_tx_commits, poll_commits in E. by right.
  - apply within_tx_rollback in E as ->. destruct e; try done. injection H as <- <-. by left.
Qed.
End Polling.

(** ** The life of an event *)

(** From PENDING to PROCESSING, from either to DELIVERED or FAILED, and never back. *)
Definition event_over (s : string) : bool := str_mem s ["DELIVERED"; "FAILED"].
Definition event_edge (s s' : string) : Prop :=
  s' = s ∨ event_over s = false ∧ event_over s' = true ∨ s = "PENDING" ∧ s' = "PROCESSING".

Definition advanced (db db' : database) : Prop :=
  ∀ i e, outbox db !! i = Some e →
    ∃ e', outbox db' !! i = Some e' ∧ event_edge (ev_status e) (ev_status e').

#[export] Instance event_edge_preorder : PreOrder event_edge.
Proof.
  split; [by left|]. intros s1 s2 s3.
  intros [->|[[H1 H2]|[-> ->]]] [->|[[H3 H4]|[H3 ->]]]; unfold event_edge; try congruence; auto.
  subst. done.
Qed.
#[export] Instance advanced_preorder : PreOrder advanced.
Proof.
  split; [intros db i e H; exists e; split; [done|reflexivity]|].
  intros db1 db2 db3 H1 H2 i e H. apply H1 in H as (e1 & H & He1).
  apply H2 in H as (e2 & H & He2). exists e2. split; [done|]. by transitivity (ev_status e1).
Qed.

(** What publishing, and any other code that only appends to the outbox, does. *)
Definition outbox_grows (db db' : database) : Prop := ∃ new, outbox db' = outbox db ++ new.
#[export] Instance outbox_grows_preorder : PreOrder outbox_grows.
Proof.
  split; [intros db; exists []; by rewrite app_nil_r|].
  intros db1 db2 db3 [l1 E1] [l2 E2]. exists (l1 ++ l2). by rewrite E2, E1, app_assoc.
Qed.

Lemma grows_advanced db db' : outbox_grows db db' → advanced db db'.
Proof.
  intros [new E] i e H. exists e. split; [|reflexivity]. rewrite E. by apply lookup_app_l_Some.
Qed.

Lemma imap_advanced f db db' :
  outbox db' = imap f (outbox db) →
  (∀ i e, outbox db !! i = Some e → event_edge (ev_status e) (ev_status (f i e))) → advanced db db'.
Proof.
  intros E Hf i e H. exists (f i e). split; [|by apply Hf]. by rewrite E, list_lookup_imap, H.
Qed.

Lemma first_pending_elem limit db i e :
  (i, e) ∈ first_pending limit db → outbox db !! i = Some e ∧ ev_status e = "PENDING".
Proof.
  unfold first_pending. intros H%elem_of_take. destruct H as (j & H & _).
  apply list_elem_of_lookup_2, events_at_elem in H as [H Hs]. split; [done|].
  by apply String.eqb_eq in Hs.
Qed.

Lemma first_pending_NoDup limit db : NoDup (map fst (first_pending limit db)).
Proof.
  unfold first_pending. change (map fst ?l) with (fst <$> l). rewrite fmap_take.
  eapply sublist_NoDup; [apply events_at_NoDup|]. apply sublist_take.
Qed.

Section Steps.
Context (enforcement : string).

Lemma status_advanced `{env : Env} ctx id status :
  status ∈ ["DELIVERED"; "FAILED"] → tx_all advanced (UpdateEventStatus enforcement ctx id status).
Proof.
  intros Hs. unfold UpdateEventStatus. apply tx_all_bind; [done|]. intros text.
  apply tx_all_bind; [|intros n; by destruct (n =? 0)].
  apply tx_all_stmt. intros db n db'. destruct (parses text); [|done].
  unfold update_events. destruct (forallb _ _); [|done]. intros [= _ <-].
  eapply imap_advanced; [reflexivity|]. intros i e _. cbn beta.
  destruct (_ && of_tenant _ e) eqn:E; [|reflexivity].
  apply andb_prop in E as [E _]. apply andb_prop in E as [_ E]. apply negb_true_iff in E.
  change (event_edge (ev_status e) status).
  right; left. split; [done|]. by apply str_mem_elem.
Qed.

Lemma process_advanced `{env : Env} drv pool business id event db r db' :
  tx_all outbox_grows (business event) →
  processEvent enforcement drv pool business id event db = (r, db') → advanced db db'.
Proof.
  intros Hb. unfold processEvent. destruct (within_tx _ _ _) as [[u|e] db1] eqn:E.
  - intros [= _ <-]. apply within_tx_commits in E.
    eapply (commits_all _ advanced) in E; [done|]. apply tx_all_bind.
    + eapply tx_all_mono; [|exact Hb]. apply grows_advanced.
    + intros _. apply status_advanced. apply elem_of_cons. by left.
  - intros [= _ <-]. apply within_tx_rollback in E as ->. unfold on_pool.
    destruct (pooled pool _ db 0) as [[r' db2] n] eqn:E. cbn.
    eapply (pooled_all pool advanced); [|exact E]. apply status_advanced.
    apply elem_of_cons. right. apply elem_of_cons; by left.
Qed.
End Steps.

(** ** Processing one event *)

Definition settled_event (status : string) (now : Z) (e : event_row) : event_row :=
  e <| ev_status := status |> <| ev_delivered_at := Some now |>
    <| ev_attempts ::= λ n, if status =?s "FAILED" then n + 1 else n |>.
Definition settle (status : string) (now : Z) (id : nat) (db : database) : database :=
  db <| outbox := alter (settled_event status now) id (outbox db) |>.

Lemma imap_one (c : event_row → bool) (f : event_row → event_row) id rows :
  imap (λ i e, if Nat.eqb i id && c e then f e else e) rows =
    match rows !! id with Some e => if c e then alter f id rows else rows | None => rows end.
Proof.
  apply list_eq. intros i. rewrite list_lookup_imap.
  destruct (rows !! id) as [e|] eqn:Eid.
  - destruct (c e) eqn:Ec.
    + destruct (Nat.eqb_spec i id) as [->|Hne].
      * rewrite list_lookup_alter, decide_True, Eid by done. cbn. by rewrite Ec.
      * rewrite list_lookup_alter_ne by done. by destruct (rows !! i).
    + destruct (rows !! i) as [x|] eqn:Ei; [|done]. cbn.
      destruct (Nat.eqb_spec i id) as [->|]; [|done]. rewrite Eid in Ei. injection Ei as <-.
      by rewrite Ec.
  - destruct (rows !! i) as [x|] eqn:Ei; [|done]. cbn.
    destruct (Nat.eqb_spec i id) as [->|]; [congruence|done].
Qed.

Section Processing.
Context `{env : Env} (enforcement : string).

(** The statement of [UpdateEventStatus] settles an open event, or affects no row. *)
Definition may_settle ctx id (i : nat) (e : event_row) : bool :=
  Nat.eqb i id && negb (str_mem (ev_status e) ["DELIVERED"; "FAILED"]) &&
  of_tenant (TenantFromContext ctx) e.

Lemma settle_statement ctx id status db n db' :
  update_events (may_settle ctx id) (settled_event status env_clock) db = Ok (n, db') →
  n = 0 ∧ db' = db ∨
  n ≠ 0 ∧ (∃ e, outbox db !! id = Some e ∧ event_over (ev_status e) = false) ∧
  db' = settle status env_clock id db.
Proof.
  intros H. unfold update_events in H. destruct (forallb _ _); [|done]. injection H as <- <-.
  set (c := λ e, negb (str_mem (ev_status e) ["DELIVERED"; "FAILED"]) &&
                 of_tenant (TenantFromContext ctx) e).
  assert (imap (λ i e, if may_settle ctx id i e then settled_event status env_clock e else e)
    (outbox db) =
    imap (λ i e, if Nat.eqb i id && c e then settled_event status env_clock e else e) (outbox db))
    as E by (apply imap_ext; intros i e _; unfold may_settle, c; by rewrite andb_assoc).
  rewrite imap_one in E.
  match goal with |- _ ∧ db <| outbox ::= ?g |> = db ∨ _ =>
    change (db <| outbox ::= g |>) with (db <| outbox := g (outbox db) |>) end.
  rewrite E. destruct (outbox db !! id) as [e|] eqn:El; [destruct (c e) eqn:Ec|].
  - right. split; [|split; [|done]].
    + assert ((id, e) ∈ events_at (may_settle ctx id) (outbox db)) as Hin.
      { apply events_at_elem. split; [done|]. unfold may_settle. rewrite Nat.eqb_refl. exact Ec. }
      destruct (events_at _ _); [by apply elem_of_nil in Hin|]. cbn [length]. lia.
    + exists e. split; [done|]. apply andb_prop in Ec as [Ec _]. by apply negb_true_iff in Ec.
  - left. split; [|by destruct db].
    destruct (events_at _ _) as [|[i x] l] eqn:Ev; [done|].
    assert ((i, x) ∈ events_at (may_settle ctx id) (outbox db)) as [Hl Hm]%events_at_elem
      by (rewrite Ev; by left).
    unfold may_settle in Hm. rewrite <- andb_assoc in Hm.
    destruct (Nat.eqb_spec i id) as [->|]; [|done]. rewrite El in Hl. injection Hl as <-.
    cbn in Hm. unfold c in Ec. congruence.
  - left. split; [|by destruct db].
    destruct (events_at _ _) as [|[i x] l] eqn:Ev; [done|].
    assert ((i, x) ∈ events_at (may_settle ctx id) (outbox db)) as [Hl Hm]%events_at_elem
      by (rewrite Ev; by left).
    unfold may_settle in Hm. destruct (Nat.eqb_spec i id) as [->|]; [congruence|done].
Qed.

Lemma status_commits busy ctx id status db db' :
  commits busy (UpdateEventStatus enforcement ctx id status) db = Some (tt, db') →
  (∃ e, outbox db !! id = Some e ∧ event_over (ev_status e) = false) ∧
  db' = settle status env_clock id db.
Proof.
  unfold UpdateEventStatus. intros H. rewrite commits_bind, commits_of in H by balance.
  destruct (scope_if_tenant _ _ _ _) as [text|]; [|done].
  rewrite commits_bind, commits_parsed in H by balance. destruct (parses text); [|done].
  match type of H with match (match ?u with _ => _ end) with _ => _ end = _ =>
    change u with (update_events (may_settle ctx id) (settled_event status env_clock) db) in H end.
  destruct (update_events _ _ _) as [[n db1]|] eqn:E; [|done].
  apply settle_statement in E as [[-> ->]|(Hn & He & ->)]; [done|].
  destruct (Z.eqb_spec n 0); [done|]. rewrite commits_mret in H. by injection H as <-.
Qed.

Lemma status_pooled drv ctx id status db r db' :
  on_pool drv (UpdateEventStatus enforcement ctx id status) db = (r, db') →
  db' = db ∨ db' = settle status env_clock id db.
Proof.
  unfold on_pool, UpdateEventStatus. rewrite pooled_bind. cbn [tx_of pooled].
  destruct (scope_if_tenant _ _ _ _) as [text|e]; [|intros [= _ <-]; by left].
  rewrite pooled_bind. unfold parsed, stmt. cbn [pooled].
  destruct (round_trip_fails drv 0); [intros [= _ <-]; by left|].
  destruct (parses text); [|intros [= _ <-]; by left].
  match goal with |- context [match ?u with Ok _ => _ | Err _ => _ end] =>
    change u with (update_events (may_settle ctx id) (settled_event status env_clock) db) end.
  destruct (update_events _ _ _) as [[n db1]|] eqn:E; [|intros [= _ <-]; by left].
  apply settle_statement in E as [[_ ->]|(_ & _ & ->)]; destruct (n =? 0);
    intros [= _ <-]; first [by left|by right].
Qed.
End Processing.

(** ** Recovery

    What happens to the outbox over time: events are appended and every operation on the queue
    runs, in any order, by any number of engines at any time.  A step carries the events it hands
    out to an engine, and those an engine tries to settle. *)

Definition handed_out {A} (r : result (list (nat * A))) : list nat :=
  match r with Ok events => map fst events | Err _ => [] end.

Inductive queue_step (enforcement : string) : database → list nat → list nat → database → Prop :=
  | step_append db db' : outbox_grows db db' → queue_step enforcement db [] [] db'
  | step_poll (env : Env) drv ctx limit r db db' :
      PollPendingEvents enforcement drv ctx limit db = (r, db') →
      queue_step enforcement db (handed_out r) [] db'
  | step_poll_service (env : Env) drv ctx service batchSize r db db' :
      PollEvents enforcement drv ctx service batchSize db = (r, db') →
      queue_step enforcement db (handed_out r) [] db'
  | step_fetch (env : Env) drv limit r db db' :
      on_pool drv (FetchPendingEvents limit) db = (r, db') →
      queue_step enforcement db (handed_out r) [] db'
  | step_process (env : Env) drv pool business id event r db db' :
      tx_all outbox_grows (business event) →
      processEvent enforcement drv pool business id event db = (r, db') →
      queue_step enforcement db [] [id] db'
  | step_ack (env : Env) drv ctx id r db db' :
      on_pool drv (AckEvent enforcement ctx id) db = (r, db') →
      queue_step enforcement db [] [id] db'
  | step_nack (env : Env) drv ctx id msg r db db' :
      on_pool drv (NackEvent enforcement ctx id msg) db = (r, db') →
      queue_step enforcement db [] [id] db'.

Inductive queue_runs (enforcement : string) : database → list nat → list nat → database → Prop :=
  | runs_none db : queue_runs enforcement db [] [] db
  | runs_step db polled settled db1 more tried db2 :
      queue_runs enforcement db polled settled db1 → queue_step enforcement db1 more tried db2 →
      queue_runs enforcement db (polled ++ more) (settled ++ tried) db2.

Definition has_status (i : nat) (s : string) (db : database) : Prop :=
  ev_status <$> outbox db !! i = Some s.

(** A step hands out pending events only, each once, and leaves them PROCESSING; the status of
    every other event that it does not try to settle stays. *)
Definition queue_sound (db : database) (more tried : list nat) (db' : database) : Prop :=
  advanced db db' ∧ NoDup more ∧
  (∀ i, i ∈ more → has_status i "PENDING" db ∧ has_status i "PROCESSING" db') ∧
  ∀ i s, i ∉ more → i ∉ tried → has_status i s db → has_status i s db'.

Lemma sound_same db tried : queue_sound db [] tried db.
Proof. split_and!; [reflexivity|constructor|by intros i ?%elem_of_nil|done]. Qed.

Lemma sound_append db db' : outbox_grows db db' → queue_sound db [] [] db'.
Proof.
  intros Hg. split_and!; [by apply grows_advanced|constructor|by intros i ?%elem_of_nil|].
  destruct Hg as [new E]. intros i s _ _ H. unfold has_status in *. rewrite E.
  destruct (outbox db !! i) as [e|] eqn:El; [|done]. by rewrite (lookup_app_l_Some _ _ _ _ El).
Qed.

(** Claiming some of the pending events. *)
Lemma sound_claim n ids f db db' :
  ids = map fst (take n (events_at (λ _ e, ev_status e =?s "PENDING") (outbox db))) →
  outbox db' = imap (λ i e, if bool_decide (i ∈ ids) then f e else e) (outbox db) →
  (∀ e, ev_status (f e) = "PROCESSING") → queue_sound db ids [] db'.
Proof.
  intros Hids E Hf.
  assert (Hp : ∀ i, i ∈ ids → has_status i "PENDING" db).
  { intros i Hi. subst ids. apply list_elem_of_In, in_map_iff in Hi as ([j e] & <- & Hin%list_elem_of_In).
    apply elem_of_take in Hin as (k & Hin & _). apply list_elem_of_lookup_2, events_at_elem in Hin.
    destruct Hin as [Hl Hs%String.eqb_eq]. unfold has_status. cbn in *. by rewrite Hl, <- Hs. }
  split_and!.
  - eapply imap_advanced; [exact E|]. intros i e He. cbn beta.
    destruct (bool_decide_reflect (i ∈ ids)) as [Hi|]; [|reflexivity].
    apply Hp in Hi. unfold has_status in Hi. rewrite He in Hi. injection Hi as ->.
    rewrite Hf. by right; right.
  - subst ids. change (map fst ?l) with (fst <$> l). rewrite fmap_take.
    eapply sublist_NoDup; [apply events_at_NoDup|]. apply sublist_take.
  - intros i Hi. split; [by apply Hp|]. pose proof (Hp i Hi) as H. unfold has_status in *.
    rewrite E, list_lookup_imap. destruct (outbox db !! i) as [e|]; [|done]. cbn.
    by rewrite bool_decide_true, Hf.
  - intros i s Hi _ H. unfold has_status in *. rewrite E, list_lookup_imap.
    destruct (outbox db !! i) as [e|]; [|done]. cbn. by rewrite bool_decide_false.
Qed.

Lemma sound_perm db (ids more : list nat) tried db' :
  queue_sound db ids tried db' → (∀ i, i ∈ more ↔ i ∈ ids) → NoDup more →
  queue_sound db more tried db'.
Proof.
  intros (Ha & _ & Hp & Hk) Hiff Hn. split_and!; [done..| |].
  - intros i Hi. by apply Hp, Hiff.
  - intros i s Hi. apply Hk. by rewrite <- Hiff.
Qed.

Lemma fetched_ids (ids : list nat) f rows i :
  (∀ j, j ∈ ids → is_Some (rows !! j)) →
  i ∈ map fst (events_at (λ i _, bool_decide (i ∈ ids))
    (imap (λ i e, if bool_decide (i ∈ ids) then f e else e) rows)) ↔ i ∈ ids.
Proof.
  intros Hs. rewrite list_elem_of_In, in_map_iff. split.
  - intros ([j e] & <- & Hin%list_elem_of_In%events_at_elem). destruct Hin as [_ Hin].
    by apply bool_decide_eq_true in Hin.
  - intros Hi. destruct (Hs i Hi) as [e He]. exists (i, f e). split; [done|].
    rewrite <- list_elem_of_In, events_at_elem, list_lookup_imap, He. cbn.
    by rewrite bool_decide_true.
Qed.

Definition keeps_status (i : nat) (db db' : database) : Prop :=
  ∀ s, has_status i s db → has_status i s db'.
#[local] Instance keeps_status_preorder i : PreOrder (keeps_status i).
Proof. split; [by intros db s|]. intros db1 db2 db3 H1 H2 s H. by apply H2, H1. Qed.

Lemma status_keeps_other `{env : Env} enforcement ctx id status i :
  i ≠ id → tx_all (keeps_status i) (UpdateEventStatus enforcement ctx id status).
Proof.
  intros Hne. unfold UpdateEventStatus. apply tx_all_bind; [done|]. intros text.
  apply tx_all_bind; [|intros n; by destruct (n =? 0)].
  apply tx_all_stmt. intros db n db'. destruct (parses text); [|done].
  unfold update_events. destruct (forallb _ _); [|done]. intros [= _ <-] s H.
  unfold has_status in *. change (outbox _) with
    (imap (λ i e, if Nat.eqb i id && negb (str_mem (ev_status e) ["DELIVERED"; "FAILED"]) &&
       of_tenant (TenantFromContext ctx) e then settled_event status env_clock e else e) (outbox db)).
  rewrite list_lookup_imap. destruct (outbox db !! i); [|done]. cbn.
  by destruct (Nat.eqb_spec i id).
Qed.

Lemma sound_process `{env : Env} enforcement drv pool business id event db r db' :
  tx_all outbox_grows (business event) →
  processEvent enforcement drv pool business id event db = (r, db') → queue_sound db [] [id] db'.
Proof.
  intros Hb H. pose proof (process_advanced _ _ _ _ _ _ _ _ _ Hb H) as Ha.
  split_and!; [done|constructor|by intros i ?%elem_of_nil|].
  intros i s _ Hne%not_elem_of_cons Hi. destruct Hne as [Hne _]. revert H.
  unfold processEvent. destruct (within_tx _ _ _) as [[u|e] db1] eqn:E.
  - intros [= _ <-]. apply within_tx_commits in E.
    eapply (commits_all _ (keeps_status i)) in E; [by apply E|]. apply tx_all_bind.
    + eapply tx_all_mono; [|exact Hb]. intros d d' (_ & _ & _ & Hk)%sound_append s'.
      apply Hk; by intros ?%elem_of_nil.
    + intros _. by apply status_keeps_other.
  - intros [= _ <-]. apply within_tx_rollback in E as ->. unfold on_pool.
    destruct (pooled pool _ db 0) as [[r' db2] n] eqn:Ep. cbn.
    eapply (pooled_all pool (keeps_status i)) in Ep; [by apply Ep|by apply status_keeps_other].
Qed.

Lemma step_sound enforcement db more tried db' :
  queue_step enforcement db more tried db' → queue_sound db more tried db'.
Proof.
  destruct 1 as [db db' Hg|env drv ctx limit r db db' H|env drv ctx service n r db db' H
    |env drv limit r db db' H|env drv pool business id event r db db' Hb H
    |env drv ctx id r db db' H|env drv ctx id msg r db db' H].
  - by apply sound_append.
  - destruct r as [events|e].
    + apply PollPendingEvents_cases in H as [[-> ->]|[-> ->]]; [apply sound_same|].
      eapply (sound_claim _ _ _ db); [reflexivity|reflexivity|done].
    + unfold PollPendingEvents, nothing_to_do in H. destruct (within_tx _ _ _) as [[?|e'] d] eqn:E.
      * done.
      * apply within_tx_rollback in E as ->. destruct e'; injection H as _ <-; apply sound_same || done.
  - destruct (PollEvents_refused enforcement drv ctx service n db) as [e E].
    rewrite E in H. injection H as <- <-. apply sound_same.
  - unfold on_pool, FetchPendingEvents, stmt in H. cbn [pooled] in H.
    destruct (round_trip_fails drv 0); [injection H as <- <-; apply sound_same|].
    set (ids := map fst (take limit (events_at _ (outbox db)))) in H.
    unfold update_events in H. destruct (forallb _ _); cbn -[events_at] in H; injection H as <- <-;
      [|apply sound_same]. cbn [handed_out].
    eapply (sound_perm _ ids); [eapply (sound_claim limit ids _ db); reflexivity| |apply events_at_NoDup].
    intros i. apply fetched_ids. intros j Hj. subst ids.
    apply list_elem_of_In, in_map_iff in Hj as ([j' e] & <- & Hin%list_elem_of_In).
    apply elem_of_take in Hin as (k & Hin & _). apply list_elem_of_lookup_2, events_at_elem in Hin.
    exists e; apply Hin.
  - by eapply sound_process.
  - destruct (AckEvent_refused enforcement drv ctx id db) as [e E].
    rewrite E in H. injection H as _ <-. apply sound_same.
  - destruct (NackEvent_refused enforcement drv ctx id msg db) as [e E].
    rewrite E in H. injection H as _ <-. apply sound_same.
Qed.

Definition not_pending (db : database) (i : nat) : Prop :=
  ∃ e, outbox db !! i = Some e ∧ ev_status e ≠ "PENDING".

Lemma not_pending_advanced db db' i : advanced db db' → not_pending db i → not_pending db' i.
Proof.
  intros Ha (e & He & Hs). destruct (Ha i e He) as (e' & He' & Hedge). exists e'. split; [done|].
  destruct Hedge as [->|[[_ H]|[? _]]]; [done| |done]. intros E. by rewrite E in H.
Qed.

Lemma status_not_pending i s db : has_status i s db → s ≠ "PENDING" → not_pending db i.
Proof.
  unfold has_status, not_pending. destruct (outbox db !! i) as [e|]; [|done].
  intros [= <-] Hs. by exists e.
Qed.
Lemma pending_not i db : has_status i "PENDING" db → ¬ not_pending db i.
Proof. unfold has_status. intros H (e & He & Hs). rewrite He in H. by injection H. Qed.

Lemma runs_sound enforcement db polled settled db' :
  queue_runs enforcement db polled settled db' →
  advanced db db' ∧ NoDup polled ∧ (∀ i, i ∈ polled → not_pending db' i ∧ ¬ not_pending db i) ∧
  ∀ i, i ∈ polled → i ∉ settled → has_status i "PROCESSING" db'.
Proof.
  induction 1 as [db|db polled settled db1 more tried db2 _ (Ha & Hn & Hp & Hl) Hstep].
  - split_and!; [reflexivity|constructor|by intros i ?%elem_of_nil..].
  - apply step_sound in Hstep as (Ha' & Hn' & Hp' & Hk'). split_and!.
    + by transitivity db1.
    + apply NoDup_app. split_and!; [done| |done]. intros i Hi Hi'.
      destruct (Hp' i Hi') as [H _]. apply pending_not in H. by apply H, Hp.
    + intros i [Hi|Hi]%elem_of_app.
      * split; [by eapply not_pending_advanced, Hp|by apply Hp].
      * destruct (Hp' i Hi) as [H1 H2]. split; [by eapply status_not_pending|].
        intros Hnp. apply pending_not in H1. by apply H1, (not_pending_advanced db).
    + intros i Hi [Hs Ht]%not_elem_of_app.
      destruct (decide (i ∈ more)) as [Hm|Hm]; [by apply Hp'|].
      apply elem_of_app in Hi as [Hi|]; [|done]. by apply Hk', Hl.
Qed.

(** C25. The recovery that the poller relies on when it shuts down ("they will be retried on next
    startup") does not exist.  Whatever is published, polled, processed, acknowledged and
    rejected, in whatever order: an event that has been claimed is never handed out again, by any
    operation, whether it is PROCESSING, FAILED or DELIVERED; so every event gets one attempt at
    most, and an event that was claimed but that no engine tried to settle stays PROCESSING. *)
Theorem claimed_events_are_lost (enforcement : string) (db : database)
    (polled settled : list nat) (db' : database) :
  queue_runs enforcement db polled settled db' →
  NoDup polled ∧
  (∀ i, i ∈ polled → i ∉ settled → ev_status <$> outbox db' !! i = Some "PROCESSING") ∧
  (∀ i e, outbox db !! i = Some e → ∃ e', outbox db' !! i = Some e' ∧
     event_edge (ev_status e) (ev_status e') ∧
     (event_over (ev_status e) = true → ev_status e' = ev_status e) ∧
     (ev_status e ≠ "PENDING" → i ∉ polled)).
Proof.
  intros (Ha & Hn & Hp & Hl)%runs_sound. split_and!; [done|exact Hl|]. intros i e He.
  destruct (Ha i e He) as (e' & He' & Hedge). exists e'. split_and!; [done..| |].
  - intros Ho. destruct Hedge as [->|[[Hf _]|[Hpe _]]]; [done|congruence|by rewrite Hpe in Ho].
  - intros Hs Hi. destruct (Hp i Hi) as [_ H]. apply H. by exists e.
Qed.

(** Processing an event is atomic: either everything its handlers wrote is there and
    the event is DELIVERED, or nothing of it is, and the event is as it was or FAILED
    with one attempt more. *)
Theorem processEvent_outcome `{env : Env} (enforcement : string) (drv pool : driver)
    (business : event_row → Tx database unit) (id : nat) (event : event_row)
    (db : database) (r : result unit) (db' : database) :
  (∀ e, Balanced (business e)) →
  processEvent enforcement drv pool business id event db = (r, db') →
  (r = Ok tt ∧ ∃ db1 e, commits (busy_while_open drv) (business event) db = Some (tt, db1) ∧
     outbox db1 !! id = Some e ∧ event_over (ev_status e) = false ∧
     db' = settle "DELIVERED" env_clock id db1) ∨
  (is_Ok r = false ∧ (db' = db ∨ db' = settle "FAILED" env_clock id db)).
Proof.
  intros Hb. unfold processEvent. destruct (within_tx _ _ _) as [[[]|e] db1] eqn:E.
  - intros [= <- <-]. left. split; [done|]. apply within_tx_commits in E.
    rewrite commits_bind in E by apply Hb.
    destruct (commits _ (business event) db) as [[[] db2]|]; [|done].
    apply status_commits in E as ((e & He & Ho) & ->). by exists db2, e.
  - intros [= <- <-]. right. split; [done|]. apply within_tx_rollback in E as ->.
    destruct (on_pool pool _ db) as [r db2] eqn:Ep. by apply status_pooled in Ep.
Qed.

(** ** Concrete runs *)

Definition queue_env : Env := sample_env case_statuses_22.
Definition no_tenant : go_context := {| ctx_tenant_key := None; ctx_actor_key := None; ctx_values := [] |}.
Definition sample_event (type : string) : event_row :=
  new_event type (Some "case-1") None [] <| ev_tenant_id := DefaultTenantID |>.
Definition two_events : database :=
  empty_db <| outbox := [sample_event "CASE_CREATED"; sample_event "TASK_QUEUED"] |>.

Lemma scoped_event_statements_are_refused_witness :
  ∃ e, PollPendingEvents (env := queue_env) "" (reliable true)
    (WithTenant no_tenant "acme") 10 two_events = (Err e, two_events).
Proof.
  apply (scoped_event_statements_are_refused (env := queue_env) "" (reliable true)
    (WithTenant no_tenant "acme") two_events). vm_compute. discriminate.
Defined.

Definition poll_one (db : database) : result (list (nat * event_row)) * database :=
  PollPendingEvents (env := queue_env) "" (reliable true) no_tenant 1 db.
Definition after_poll : database := snd (poll_one two_events).
Definition after_polls : database := snd (poll_one after_poll).

(** The first of two polled events is processed; the engine stops before the second is. *)
Definition nothing_else (event : event_row) : Tx database unit := mret tt.
Definition after_stop : database :=
  snd (processEvent (env := queue_env) "" (reliable true) (reliable true) nothing_else 0
         (sample_event "CASE_CREATED") after_polls).

Lemma claimed_events_are_lost_witness :
  queue_runs "" two_events [0%nat; 1%nat] [0%nat] after_stop ∧
  ev_status <$> outbox after_stop !! 0%nat = Some "DELIVERED" ∧
  ev_status <$> outbox after_stop !! 1%nat = Some "PROCESSING".
Proof.
  assert (queue_runs "" two_events [0%nat; 1%nat] [0%nat] after_stop) as H.
  { change (queue_runs "" two_events ((([] ++ [0%nat]) ++ [1%nat]) ++ []) ((([] ++ []) ++ []) ++ [0%nat])
      after_stop).
    apply runs_step with after_polls; [apply runs_step with after_poll;
      [apply runs_step with two_events; [constructor|]|]|].
    - apply (step_poll "" queue_env (reliable true) no_tenant 1 (Ok [(0%nat, sample_event "CASE_CREATED")])).
      vm_compute. reflexivity.
    - apply (step_poll "" queue_env (reliable true) no_tenant 1 (Ok [(1%nat, sample_event "TASK_QUEUED")])).
      vm_compute. reflexivity.
    - apply (step_process "" queue_env (reliable true) (reliable true) nothing_else 0
        (sample_event "CASE_CREATED") (Ok tt)); [done|vm_compute; reflexivity]. }
  split; [exact H|]. split; [vm_compute; reflexivity|].
  apply (claimed_events_are_lost "" two_events [0%nat; 1%nat] [0%nat] after_stop H);
    [right; left|apply not_elem_of_cons; split; [discriminate|apply not_elem_of_nil]].
Defined.

Definition failing (event : event_row) : Tx database unit :=
  _ ← PublishEvent (H := queue_env) (sample_event "CASE_WITHDRAWN"); throw (ErrMsg "no such case").

Lemma processEvent_outcome_witness :
  let run := processEvent (env := queue_env) "" (reliable true) (reliable true) failing 0
               (sample_event "CASE_CREATED") after_poll in
  map ev_status (outbox (snd run)) = ["FAILED"; "PENDING"] ∧
  map ev_attempts (outbox (snd run)) = [1; 0] ∧
  (snd run = after_poll ∨ snd run = settle "FAILED" (1000 * Hour) 0 after_poll).
Proof.
  intros run. split; [vm_compute; reflexivity|]. split; [vm_compute; reflexivity|].
  destruct (processEvent_outcome (env := queue_env) "" (reliable true) (reliable true) failing 0
    (sample_event "CASE_CREATED") after_poll (fst run) (snd run)) as [[H _]|[_ H]].
  - intros e. unfold failing. apply balanced_bind; [apply balanced_publish_event|].
    intros []. apply balanced_throw.
  - apply surjective_pairing.
  - exfalso. revert H. vm_compute. discriminate.
  - exact H.
Defined.
