(* ===== verification/ApprovalPolicy.v ===== *)
(** * Approval policies (internal/approval/evaluator.go, transition_guard.go)

    The pure part of approval gates: the counts of a gate's requests, the verdict
    of each policy on them, the tiers of a chain, and the transitions a request
    may make. *)

From Stdlib Require Import Ascii String ZArith Lia.
From stdpp Require Import base list strings sets.
From S2P Require Import Prelude Float64 FloatQuotient SqlTx CaseConfig Schema.

Open Scope Z_scope.
Open Scope go_scope.

(** ** Counts *)

Record requestCounts := {
  rc_Total : Z; rc_Approved : Z; rc_Rejected : Z; rc_Pending : Z; rc_Expired : Z;
}.
#[export] Instance requestCounts_eta : Eta requestCounts := λ x,
  {| rc_Total := rc_Total x; rc_Approved := rc_Approved x; rc_Rejected := rc_Rejected x;
     rc_Pending := rc_Pending x; rc_Expired := rc_Expired x |}.

Definition zero_counts : requestCounts :=
  {| rc_Total := 0; rc_Approved := 0; rc_Rejected := 0; rc_Pending := 0; rc_Expired := 0 |}.

(** [SELECT status, COUNT( * ) .. GROUP BY status]: a pair per status present. *)
Fixpoint count_status (s : string) (groups : list (string * Z)) : list (string * Z) :=
  match groups with
  | [] => [(s, 1)]
  | (s', n) :: groups =>
      if s =?s s' then (s', n + 1) :: groups else (s', n) :: count_status s groups
  end.
Definition group_by_status (rows : list request_row) : list (string * Z) :=
  fold_right (λ r, count_status (r_status r)) [] rows.

(** The loop over the groups: a status sets its counter, every group adds to the
    total. *)
Definition add_group (counts : requestCounts) (g : string * Z) : requestCounts :=
  let '(status, n) := g in
  let counts :=
    if status =?s "PENDING" then counts <| rc_Pending := n |>
    else if status =?s "APPROVED" then counts <| rc_Approved := n |>
    else if status =?s "REJECTED" then counts <| rc_Rejected := n |>
    else if status =?s "EXPIRED" then counts <| rc_Expired := n |>
    else counts in
  counts <| rc_Total ::= λ t, t + n |>.
Definition counts_of_groups (groups : list (string * Z)) : requestCounts :=
  fold_left add_group groups zero_counts.

Definition in_gate (gateID : string) (r : request_row) : bool :=
  (r_gate_id r =?s gateID) && negb (r_status r =?s "DELEGATED").
Definition in_tier (gateID : string) (tier : Z) (r : request_row) : bool :=
  in_gate gateID r && match r_tier r with Some t => t =? tier | None => false end.

(** [loadRequestCounts] and [loadTierCounts], on the table. *)
Definition loadRequestCounts (gateID : string) (rows : list request_row) : requestCounts :=
  counts_of_groups (group_by_status (sql_select (in_gate gateID) rows)).
Definition loadTierCounts (gateID : string) (tier : Z) (rows : list request_row)
    : requestCounts :=
  counts_of_groups (group_by_status (sql_select (in_tier gateID tier) rows)).

(** ** Verdicts *)

Inductive verdict := Undecided | Satisfied | Failed.

#[export] Instance verdict_eq_dec : EqDecision verdict.
Proof. solve_decision. Defined.

Definition satisfied_if (b : bool) : verdict := if b then Satisfied else Undecided.

(** The constant 0.66 and the share of [n] in [total], as float64. *)
Definition requiredPct : float64 := of_ratio false 66 100.
Definition share (n total : Z) : float64 := fdiv (of_int n) (of_int total).

Definition evaluatePolicyCounts (policy : string) (required : Z) (counts : requestCounts)
    : result verdict :=
  let total := rc_Total counts in
  let approved := rc_Approved counts in
  let rejected := rc_Rejected counts in
  let pending := rc_Pending counts in
  if total =? 0 then Ok Undecided
  else if policy =?s "SINGLE_APPROVER" then Ok (satisfied_if (1 <=? approved))
  else if policy =?s "ALL_MUST_APPROVE" then
    if 0 <? rejected then Ok Failed else Ok (satisfied_if (approved =? total))
  else if policy =?s "ANY_CAN_APPROVE" then
    let needed := if 1 <? required then required else 1 in
    if needed <=? approved then Ok Satisfied
    else if (rejected =? total) || (approved + pending <? needed) then Ok Failed
    else Ok Undecided
  else if policy =?s "MAJORITY" then
    let threshold := int_div total 2 in
    if threshold <? approved then Ok Satisfied
    else if threshold <? rejected then Ok Failed
    else Ok (satisfied_if ((0 <? required) && (required <=? approved)))
  else if policy =?s "CONSENSUS" then
    if fltb requiredPct (share approved total) then Ok Satisfied
    else if fleb (share (approved + pending) total) requiredPct then Ok Failed
    else Ok (satisfied_if ((0 <? required) && (required <=? approved)))
  else Err (ErrMsg "unsupported policy").

(** ** Tiers *)

Fixpoint find_tier_from (i : Z) (tiers : list tier_def) (tier : Z) : option (tier_def * Z) :=
  match tiers with
  | [] => None
  | t :: tiers => if tier_no t =? tier then Some (t, i) else find_tier_from (i + 1) tiers tier
  end.
(** [None] is the [(nil, -1)] result. *)
Definition findTierDefinition (tiers : list tier_def) (tier : Z) : option (tier_def * Z) :=
  find_tier_from 0 tiers tier.

Definition zlength {A} (l : list A) : Z := Z.of_nat (length l).
Definition tier_at (tiers : list tier_def) (i : Z) : Z :=
  match nth_error tiers (Z.to_nat i) with Some t => tier_no t | None => 0 end.

Definition nextTierValue (tiers : list tier_def) (index : Z) : Z :=
  if (index <? 0) || (zlength tiers <=? index + 1) then
    if zlength tiers =? 0 then 0 else tier_at tiers (zlength tiers - 1)
  else tier_at tiers (index + 1).

(** ** Request transitions *)

Record Actor := {
  a_ID : string; a_IsSystem : bool; a_IsSupervisor : bool; a_IsApprover : bool;
  a_IsDelegate : bool; a_IsOriginalApprover : bool; a_DecisionText : string;
  a_EvidenceRefs : option (list string); a_DelegatedToID : option string;
}.
#[export] Instance Actor_eta : Eta Actor := λ x,
  {| a_ID := a_ID x; a_IsSystem := a_IsSystem x; a_IsSupervisor := a_IsSupervisor x;
     a_IsApprover := a_IsApprover x; a_IsDelegate := a_IsDelegate x;
     a_IsOriginalApprover := a_IsOriginalApprover x; a_DecisionText := a_DecisionText x;
     a_EvidenceRefs := a_EvidenceRefs x; a_DelegatedToID := a_DelegatedToID x |}.

Definition unauthorized : result unit := Err ErrUnauthorizedApprovalActor.
Definition invalid_transition : result unit := Err ErrInvalidApprovalTransition.

(** Decision text and evidence (a nil slice is absent evidence). *)
Definition decision_complete (actor : Actor) : result unit :=
  if a_DecisionText actor =?s "" then invalid_transition
  else match a_EvidenceRefs actor with None => invalid_transition | Some _ => Ok tt end.

Definition is_decision (s : string) : bool := (s =?s "APPROVED") || (s =?s "REJECTED").

Definition ValidateApprovalTransition (current requested : string) (actor : Actor)
    : result unit :=
  if a_ID actor =?s "" then unauthorized
  else if current =?s requested then invalid_transition
  else if is_decision current then invalid_transition
  else if current =?s "PENDING" then
    if is_decision requested then
      if negb (a_IsApprover actor) then unauthorized
      else if a_IsSystem actor then unauthorized
      else decision_complete actor
    else if requested =?s "DELEGATED" then
      if negb (a_IsApprover actor) then unauthorized
      else match a_DelegatedToID actor with
           | None | Some EmptyString => invalid_transition
           | Some _ => Ok tt
           end
    else if requested =?s "EXPIRED" then
      if negb (a_IsSystem actor) then unauthorized else Ok tt
    else invalid_transition
  else if current =?s "DELEGATED" then
    if is_decision requested then
      if negb (a_IsDelegate actor) || a_IsOriginalApprover actor then unauthorized
      else decision_complete actor
    else invalid_transition
  else if current =?s "EXPIRED" then
    if is_decision requested || (requested =?s "PENDING") then
      if negb (a_IsSystem actor) then unauthorized else Ok tt
    else invalid_transition
  else invalid_transition.

(** ** Counting *)

Fixpoint group_sum (groups : list (string * Z)) : Z :=
  match groups with [] => 0 | (_, n) :: groups => n + group_sum groups end.
Fixpoint group_of (s : string) (groups : list (string * Z)) : Z :=
  match groups with
  | [] => 0
  | (s', n) :: groups => if s =?s s' then n else group_of s groups
  end.

Lemma count_status_sum s groups : group_sum (count_status s groups) = group_sum groups + 1.
Proof.
  induction groups as [|[s' n] groups IH]; cbn; [done|].
  destruct (s =?s s'); cbn; lia.
Qed.

Lemma count_status_of s s' groups :
  group_of s (count_status s' groups) = group_of s groups + if s =?s s' then 1 else 0.
Proof.
  induction groups as [|[t n] groups IH]; cbn; [by destruct (s =?s s')|].
  destruct (String.eqb_spec s' t) as [->|Ht]; cbn.
  - by destruct (s =?s t); lia.
  - destruct (String.eqb_spec s t) as [->|]; [|done].
    destruct (String.eqb_spec t s'); [done|lia].
Qed.

Lemma count_status_fst s groups :
  map fst (count_status s groups) =
    if existsb (String.eqb s) (map fst groups) then map fst groups else map fst groups ++ [s].
Proof.
  induction groups as [|[t n] groups IH]; cbn; [done|].
  destruct (s =?s t); cbn; [done|]. rewrite IH. by destruct (existsb _ _).
Qed.

Lemma group_by_status_cons r rows :
  group_by_status (r :: rows) = count_status (r_status r) (group_by_status rows).
Proof. done. Qed.

Lemma group_by_status_NoDup rows : NoDup (map fst (group_by_status rows)).
Proof.
  induction rows as [|r rows IH]; [constructor|].
  rewrite group_by_status_cons, count_status_fst.
  destruct (existsb _ _) eqn:E; [done|]. apply NoDup_app. split_and!; [done| |apply NoDup_singleton].
  intros s Hs ->%list_elem_of_singleton.
  assert (str_mem (r_status r) (map fst (group_by_status rows)) = true).
  { apply existsb_exists. exists (r_status r). split; [by apply list_elem_of_In|].
    apply string_eqb_refl. }
  unfold str_mem in *. congruence.
Qed.

Lemma sql_count_cons {R} p (r : R) rows :
  sql_count p (r :: rows) = (if p r then 1 else 0) + sql_count p rows.
Proof. unfold sql_count. cbn. destruct (p r); cbn; lia. Qed.

Lemma group_by_status_of s rows :
  group_of s (group_by_status rows) = sql_count (λ r, r_status r =?s s) rows.
Proof.
  induction rows as [|r rows IH]; [done|].
  rewrite sql_count_cons, group_by_status_cons, count_status_of, IH, (string_eqb_sym s). lia.
Qed.

Lemma group_by_status_sum rows : group_sum (group_by_status rows) = zlength rows.
Proof.
  unfold zlength. induction rows as [|r rows IH]; [done|].
  rewrite group_by_status_cons, count_status_sum, IH. cbn. lia.
Qed.

Lemma fold_total groups : ∀ c,
  rc_Total (fold_left add_group groups c) = rc_Total c + group_sum groups.
Proof.
  induction groups as [|[s n] groups IH]; intros c; cbn -[add_group]; [lia|].
  rewrite IH. unfold add_group. repeat case_match; cbn; lia.
Qed.

Section Field.
Context (field : requestCounts → Z) (name : string).
Hypothesis field_step : ∀ c s n, field (add_group c (s, n)) = if name =?s s then n else field c.

Lemma fold_field groups : ∀ c,
  NoDup (map fst groups) →
  field (fold_left add_group groups c) =
    if existsb (String.eqb name) (map fst groups) then group_of name groups else field c.
Proof.
  induction groups as [|[s n] groups IH]; intros c Hn; cbn -[add_group]; [done|].
  cbn in Hn. apply NoDup_cons in Hn as [Hs Hn]. rewrite IH, field_step by done.
  destruct (String.eqb_spec name s) as [->|Hne]; cbn; [|done].
  destruct (existsb (String.eqb s) (map fst groups)) eqn:E; [|done].
  exfalso. apply Hs. apply existsb_exists in E as (t & Ht & E).
  apply String.eqb_eq in E. subst. by apply list_elem_of_In.
Qed.

Lemma group_of_absent groups :
  existsb (String.eqb name) (map fst groups) = false → group_of name groups = 0.
Proof.
  induction groups as [|[s n] groups IH]; cbn; [done|].
  destruct (name =?s s); [done|]. exact IH.
Qed.

Lemma counts_field rows :
  field zero_counts = 0 →
  field (counts_of_groups (group_by_status rows)) = sql_count (λ r, r_status r =?s name) rows.
Proof.
  intros Hz. unfold counts_of_groups.
  rewrite fold_field, <- group_by_status_of by apply group_by_status_NoDup.
  destruct (existsb _ _) eqn:E; [done|]. by rewrite Hz, group_of_absent.
Qed.
End Field.

(** The counts of a table of requests, each by a query of its own. *)
Definition counts_of (p : request_row → bool) (rows : list request_row) : requestCounts :=
  let n s := sql_count (λ r, r_status r =?s s) (sql_select p rows) in
  {| rc_Total := zlength (sql_select p rows); rc_Approved := n "APPROVED";
     rc_Rejected := n "REJECTED"; rc_Pending := n "PENDING"; rc_Expired := n "EXPIRED" |}.

(** One counter at a time: [add_group] is a chain of string tests. *)
Ltac counter_step :=
  intros [] s n; unfold add_group;
  repeat match goal with
  | |- context [?a =?s ?b] => destruct (String.eqb_spec a b); subst; try done
  end.

Lemma counts_of_groups_spec rows :
  counts_of_groups (group_by_status rows) =
    let n s := sql_count (λ r, r_status r =?s s) rows in
    {| rc_Total := zlength rows; rc_Approved := n "APPROVED"; rc_Rejected := n "REJECTED";
       rc_Pending := n "PENDING"; rc_Expired := n "EXPIRED" |}.
Proof.
  assert (E : ∀ c, c = {| rc_Total := rc_Total c; rc_Approved := rc_Approved c;
    rc_Rejected := rc_Rejected c; rc_Pending := rc_Pending c; rc_Expired := rc_Expired c |})
    by (by intros []).
  rewrite (E (counts_of_groups _)). f_equal.
  - unfold counts_of_groups. by rewrite fold_total, group_by_status_sum.
  - apply counts_field; [counter_step|done].
  - apply counts_field; [counter_step|done].
  - apply counts_field; [counter_step|done].
  - apply counts_field; [counter_step|done].
Qed.

Lemma loadRequestCounts_spec gateID rows :
  loadRequestCounts gateID rows = counts_of (in_gate gateID) rows.
Proof. apply counts_of_groups_spec. Qed.

Lemma loadTierCounts_spec gateID tier rows :
  loadTierCounts gateID tier rows = counts_of (in_tier gateID tier) rows.
Proof. apply counts_of_groups_spec. Qed.

(** ** The verdicts in integers *)

(** 0.66 as a float64, and the number of requests of one gate up to which a share compares
    with it as the fractions do. *)
Definition max_requests : Z := 2 ^ 40.

Lemma required_constant : constant 5944751508129055 53 66 100.
Proof. by constructor. Qed.

Lemma share_exact t n :
  0 < t ≤ max_requests → 0 ≤ n ≤ t →
  fltb requiredPct (share n t) = (66 * t <? 100 * n) ∧
  fleb (share n t) requiredPct = (100 * n <=? 66 * t).
Proof.
  unfold max_requests. intros Ht Hn.
  destruct (quotient_ltb _ _ _ _ n t required_constant) as (H1 & H2 & _); [unfold whole; lia..|].
  by split.
Qed.

Record counts_wf (c : requestCounts) : Prop := {
  cw_approved : 0 ≤ rc_Approved c;
  cw_rejected : 0 ≤ rc_Rejected c;
  cw_pending : 0 ≤ rc_Pending c;
  cw_expired : 0 ≤ rc_Expired c;
  cw_total : rc_Total c = rc_Approved c + rc_Rejected c + rc_Pending c + rc_Expired c;
  cw_bound : rc_Total c ≤ max_requests;
}.

Definition known_policy (p : string) : Prop :=
  p ∈ ["SINGLE_APPROVER"; "ALL_MUST_APPROVE"; "ANY_CAN_APPROVE"; "MAJORITY"; "CONSENSUS"]%string.

(** What a policy asks for, and when it can no longer be met, as arithmetic. *)
Definition quorum_met (p : string) (required : Z) (c : requestCounts) : Prop :=
  let t := rc_Total c in let a := rc_Approved c in let r := rc_Rejected c in
  if p =?s "SINGLE_APPROVER" then 1 ≤ a
  else if p =?s "ALL_MUST_APPROVE" then a = t
  else if p =?s "ANY_CAN_APPROVE" then Z.max 1 required ≤ a
  else if p =?s "MAJORITY" then t / 2 < a ∨ (r ≤ t / 2 ∧ 0 < required ≤ a)
  else 66 * t < 100 * a ∨ (66 * t < 100 * (a + rc_Pending c) ∧ 0 < required ≤ a).
Definition quorum_lost (p : string) (required : Z) (c : requestCounts) : Prop :=
  let t := rc_Total c in let a := rc_Approved c in let r := rc_Rejected c in
  if p =?s "SINGLE_APPROVER" then False
  else if p =?s "ALL_MUST_APPROVE" then 0 < r
  else if p =?s "ANY_CAN_APPROVE" then r = t ∨ a + rc_Pending c < Z.max 1 required
  else if p =?s "MAJORITY" then t / 2 < r
  else 100 * (a + rc_Pending c) ≤ 66 * t.

(** The verdict [v] is right for a quorum met by [met] and lost by [lost]. *)
Definition right_verdict (v : verdict) (met lost : Prop) : Prop :=
  (v = Satisfied ↔ met) ∧ (v = Failed ↔ lost) ∧ ¬ (met ∧ lost).

Lemma right_satisfied (met lost : Prop) : met → ¬ lost → right_verdict Satisfied met lost.
Proof. unfold right_verdict. naive_solver. Qed.
Lemma right_failed (met lost : Prop) : ¬ met → lost → right_verdict Failed met lost.
Proof. unfold right_verdict. naive_solver. Qed.
Lemma right_undecided (met lost : Prop) : ¬ met → ¬ lost → right_verdict Undecided met lost.
Proof. unfold right_verdict. naive_solver. Qed.

Lemma satisfied_if_right (b : bool) (met lost : Prop) :
  (b = true ↔ met) → ¬ lost → right_verdict (satisfied_if b) met lost.
Proof.
  intros Hb Hl. destruct b; cbn; [apply right_satisfied|apply right_undecided]; naive_solver.
Qed.

Section Verdict.
Context (required : Z) (c : requestCounts) (Hc : counts_wf c) (Hpos : 0 < rc_Total c).
#[local] Abbreviation verdict_is p v :=
  (evaluatePolicyCounts p required c = Ok v ∧
   right_verdict v (quorum_met p required c) (quorum_lost p required c)).

Lemma nonempty_counts : (rc_Total c =? 0) = false.
Proof. apply Z.eqb_neq. lia. Qed.

Lemma single_approver_spec : ∃ v, verdict_is "SINGLE_APPROVER" v.
Proof.
  eexists. split; [unfold evaluatePolicyCounts; rewrite nonempty_counts; reflexivity|].
  apply satisfied_if_right; cbn; [apply Z.leb_le|tauto].
Qed.

Lemma all_must_approve_spec : ∃ v, verdict_is "ALL_MUST_APPROVE" v.
Proof.
  destruct Hc. unfold evaluatePolicyCounts. rewrite nonempty_counts.
  cbn [String.eqb Ascii.eqb Bool.eqb].
  destruct (Z.ltb_spec 0 (rc_Rejected c)); (eexists; split; [reflexivity|]).
  - apply right_failed; cbn; lia.
  - apply satisfied_if_right; cbn; [apply Z.eqb_eq|lia].
Qed.

Lemma any_can_approve_spec : ∃ v, verdict_is "ANY_CAN_APPROVE" v.
Proof.
  destruct Hc. unfold evaluatePolicyCounts. rewrite nonempty_counts.
  cbn [String.eqb Ascii.eqb Bool.eqb].
  replace (if 1 <? required then required else 1) with (Z.max 1 required)
    by (destruct (Z.ltb_spec 1 required); lia). cbv zeta.
  destruct (Z.leb_spec (Z.max 1 required) (rc_Approved c)).
  { eexists. split; [reflexivity|]. apply right_satisfied; cbn; lia. }
  destruct (Z.eqb_spec (rc_Rejected c) (rc_Total c)); cbn [orb].
  { eexists. split; [reflexivity|]. apply right_failed; cbn; lia. }
  destruct (Z.ltb_spec (rc_Approved c + rc_Pending c) (Z.max 1 required));
    (eexists; split; [reflexivity|]).
  - apply right_failed; cbn; lia.
  - apply right_undecided; cbn; lia.
Qed.

Lemma required_given : (0 <? required) && (required <=? rc_Approved c) = true ↔
  0 < required ≤ rc_Approved c.
Proof. rewrite andb_true_iff, Z.ltb_lt, Z.leb_le. lia. Qed.

Lemma majority_spec : ∃ v, verdict_is "MAJORITY" v.
Proof.
  destruct Hc. unfold evaluatePolicyCounts. rewrite nonempty_counts.
  cbn [String.eqb Ascii.eqb Bool.eqb]. unfold int_div. rewrite Z.quot_div_nonneg by lia.
  pose proof (Z.div_mod (rc_Total c) 2). pose proof (Z.mod_pos_bound (rc_Total c) 2).
  destruct (Z.ltb_spec (rc_Total c / 2) (rc_Approved c)).
  { eexists. split; [reflexivity|]. apply right_satisfied; cbn -[Z.div]; lia. }
  destruct (Z.ltb_spec (rc_Total c / 2) (rc_Rejected c)); (eexists; split; [reflexivity|]).
  - apply right_failed; cbn -[Z.div]; lia.
  - apply satisfied_if_right; cbn -[Z.div Z.ltb Z.leb]; [rewrite required_given; lia|lia].
Qed.

Lemma consensus_spec : ∃ v, verdict_is "CONSENSUS" v.
Proof.
  destruct Hc. unfold evaluatePolicyCounts. rewrite nonempty_counts.
  cbn [String.eqb Ascii.eqb Bool.eqb].
  rewrite (proj1 (share_exact (rc_Total c) (rc_Approved c) ltac:(lia) ltac:(lia))).
  rewrite (proj2 (share_exact (rc_Total c) (rc_Approved c + rc_Pending c)
    ltac:(lia) ltac:(lia))).
  destruct (Z.ltb_spec (66 * rc_Total c) (100 * rc_Approved c)).
  { eexists. split; [reflexivity|]. apply right_satisfied; cbn -[Z.mul]; lia. }
  destruct (Z.leb_spec (100 * (rc_Approved c + rc_Pending c)) (66 * rc_Total c));
    (eexists; split; [reflexivity|]).
  - apply right_failed; cbn -[Z.mul]; lia.
  - apply satisfied_if_right; cbn -[Z.mul Z.ltb Z.leb]; [rewrite required_given; lia|lia].
Qed.

Lemma policy_verdict p : known_policy p → ∃ v, verdict_is p v.
Proof.
  unfold known_policy. intros Hp.
  repeat (apply elem_of_cons in Hp as [->|Hp]); [..|by apply elem_of_nil in Hp].
  - apply single_approver_spec.
  - apply all_must_approve_spec.
  - apply any_can_approve_spec.
  - apply majority_spec.
  - apply consensus_spec.
Qed.
End Verdict.

(** C28. The verdict of every policy, as arithmetic on the counts, which are not negative and
    add up to the total. A gate without requests is undecided whatever its policy. With at least
    one request, and at most 2^40 (the code has no limit; beyond it float64 division may blur the
    comparison of CONSENSUS), Satisfied is given exactly when the quorum is met, Failed exactly
    when it is lost, the two never hold together, and CONSENSUS decides as the exact fraction
    66/100 does. A policy the code does not know is an error. *)
Theorem evaluatePolicyCounts_spec p required c :
  counts_wf c →
  (rc_Total c = 0 → evaluatePolicyCounts p required c = Ok Undecided) ∧
  (0 < rc_Total c → known_policy p →
   ∃ v, evaluatePolicyCounts p required c = Ok v ∧
    (v = Satisfied ↔ quorum_met p required c) ∧
    (v = Failed ↔ quorum_lost p required c) ∧
    ¬ (quorum_met p required c ∧ quorum_lost p required c)) ∧
  (0 < rc_Total c → ¬ known_policy p →
   evaluatePolicyCounts p required c = Err (ErrMsg "unsupported policy")).
Proof.
  intros Hc. split_and!; [|intros Hpos Hp; by apply policy_verdict|].
  - intros H. unfold evaluatePolicyCounts. by rewrite H.
  - intros Hpos Hp. unfold evaluatePolicyCounts. rewrite nonempty_counts by done.
    repeat (rewrite (proj2 (String.eqb_neq p _)) by 
      (intros ->; apply Hp; unfold known_policy; set_solver)).
    done.
Qed.

Lemma evaluatePolicyCounts_failed p required c :
  known_policy p → counts_wf c → 0 < rc_Total c →
  evaluatePolicyCounts p required c = Ok Failed ↔ quorum_lost p required c.
Proof.
  intros Hp Hc Hpos. destruct (policy_verdict required c Hc Hpos p Hp)
    as (v & -> & _ & Hl & _). rewrite <- Hl. split; [by intros [= ->]|by intros ->].
Qed.

Lemma evaluatePolicyCounts_satisfied p required c :
  known_policy p → counts_wf c → 0 < rc_Total c →
  evaluatePolicyCounts p required c = Ok Satisfied ↔ quorum_met p required c.
Proof.
  intros Hp Hc Hpos. destruct (policy_verdict required c Hc Hpos p Hp)
    as (v & -> & Hm & _). rewrite <- Hm. split; [by intros [= ->]|by intros ->].
Qed.

Lemma evaluatePolicyCounts_undecided p required c :
  known_policy p → counts_wf c → 0 < rc_Total c →
  evaluatePolicyCounts p required c = Ok Undecided ↔
    ¬ quorum_met p required c ∧ ¬ quorum_lost p required c.
Proof.
  intros Hp Hc Hpos. destruct (policy_verdict required c Hc Hpos p Hp)
    as (v & -> & Hm & Hl & _). destruct v; naive_solver.
Qed.

(** ** Decisions over time *)

(** Later counts of the same gate: requests are only decided, or expire. *)
Definition later (c c' : requestCounts) : Prop :=
  rc_Total c' = rc_Total c ∧ rc_Approved c ≤ rc_Approved c' ∧
  rc_Rejected c ≤ rc_Rejected c' ∧ rc_Expired c ≤ rc_Expired c'.

(** Failing fast is sound: once a policy has failed, no way the remaining
    requests are decided changes the verdict. *)
Theorem policy_failure_is_final p required c c' :
  known_policy p → counts_wf c → counts_wf c' → 0 < rc_Total c → later c c' →
  evaluatePolicyCounts p required c = Ok Failed →
  evaluatePolicyCounts p required c' = Ok Failed.
Proof.
  intros Hp Hc Hc' Hpos Hl. assert (0 < rc_Total c') by (destruct Hl as [-> _]; done).
  rewrite !evaluatePolicyCounts_failed by done.
  destruct Hc, Hc', Hl as (Ht & Ha & Hr & He). unfold quorum_lost. rewrite Ht.
  repeat case_match; lia || done.
Qed.

(** Which policies can be left without a verdict when no request is pending
    any more: SINGLE_APPROVER when nobody approved, even if everybody rejected;
    ALL_MUST_APPROVE when requests expired and none was rejected; MAJORITY on a
    tie or for want of voters. ANY_CAN_APPROVE and CONSENSUS always decide. *)
Theorem policy_stuck_iff p required c :
  known_policy p → counts_wf c → 0 < rc_Total c → rc_Pending c = 0 →
  evaluatePolicyCounts p required c = Ok Undecided ↔
    (p = "SINGLE_APPROVER" ∧ rc_Approved c = 0) ∨
    (p = "ALL_MUST_APPROVE" ∧ rc_Rejected c = 0 ∧ 0 < rc_Expired c) ∨
    (p = "MAJORITY" ∧ rc_Approved c ≤ rc_Total c / 2 ∧ rc_Rejected c ≤ rc_Total c / 2 ∧
       (required ≤ 0 ∨ rc_Approved c < required)).
Proof.
  intros Hp Hc Hpos Hw. rewrite evaluatePolicyCounts_undecided by done.
  destruct Hc. unfold quorum_met, quorum_lost, known_policy in *.
  repeat (apply elem_of_cons in Hp as [->|Hp]); [..|by apply elem_of_nil in Hp];
    cbn -[Z.div Z.mul].
  - split; [intros; left; split; [done|lia]|].
    intros [(_ & ?)|[(? & _)|(? & _)]]; done || lia.
  - split; [intros; right; left; split; [done|lia]|].
    intros [(? & _)|[(_ & ?)|(? & _)]]; done || lia.
  - split; [lia|]. intros [(? & _)|[(? & _)|(? & _)]]; done.
  - split; [intros; right; right; split; [done|lia]|].
    intros [(? & _)|[(? & _)|(_ & ?)]]; done || lia.
  - split; [lia|]. intros [(? & _)|[(? & _)|(? & _)]]; done.
Qed.

(** The required count of a gate is at least one (it defaults to one and the
    table checks it), and MAJORITY and CONSENSUS accept that many approvals
    instead of their quorum: with the default a single approval satisfies either
    policy among any number of approvers. *)
Theorem majority_single_approval p required c :
  p = "MAJORITY" ∨ p = "CONSENSUS" →
  counts_wf c → required = 1 → 1 ≤ rc_Approved c → rc_Rejected c = 0 → rc_Expired c = 0 →
  evaluatePolicyCounts p required c = Ok Satisfied.
Proof.
  intros Hp Hc Hreq Ha Hr He. destruct Hc as [? ? ? ? Ht ?] eqn:E.
  assert (known_policy p) by (unfold known_policy; destruct Hp as [->| ->]; set_solver).
  apply evaluatePolicyCounts_satisfied; [done|done|lia|].
  unfold quorum_met. subst required.
  pose proof (Z.div_pos (rc_Total c) 2).
  destruct Hp as [->| ->]; cbn -[Z.div Z.mul]; lia.
Qed.

(** ** Request transitions *)

Definition decided (s : string) : Prop := s = "APPROVED" ∨ s = "REJECTED".
Definition reasoned (actor : Actor) : Prop :=
  a_DecisionText actor ≠ "" ∧ is_Some (a_EvidenceRefs actor).

(** The life of a request: who may take it from where to where. *)
Inductive may_transition (actor : Actor) : string → string → Prop :=
  | decide_pending s : decided s → a_IsApprover actor = true → a_IsSystem actor = false →
      reasoned actor → may_transition actor "PENDING" s
  | delegate_pending d : a_IsApprover actor = true → a_DelegatedToID actor = Some d → d ≠ "" →
      may_transition actor "PENDING" "DELEGATED"
  | expire_pending : a_IsSystem actor = true → may_transition actor "PENDING" "EXPIRED"
  | decide_delegated s : decided s → a_IsDelegate actor = true →
      a_IsOriginalApprover actor = false → reasoned actor → may_transition actor "DELEGATED" s
  | decide_expired s : decided s → a_IsSystem actor = true → may_transition actor "EXPIRED" s
  | reopen_expired : a_IsSystem actor = true → may_transition actor "EXPIRED" "PENDING".

Lemma is_decision_spec s : is_decision s = true ↔ decided s.
Proof. unfold is_decision, decided. by rewrite orb_true_iff, !String.eqb_eq. Qed.

Lemma decision_complete_spec actor : decision_complete actor = Ok tt ↔ reasoned actor.
Proof.
  unfold decision_complete, reasoned.
  destruct (String.eqb_spec (a_DecisionText actor) ""); [naive_solver|].
  destruct (a_EvidenceRefs actor); split; try done; naive_solver.
Qed.

Lemma transition_sound current requested actor :
  ValidateApprovalTransition current requested actor = Ok tt →
  a_ID actor ≠ "" ∧ may_transition actor current requested.
Proof.
  unfold ValidateApprovalTransition.
  destruct (String.eqb_spec (a_ID actor) ""); [done|].
  destruct (String.eqb_spec current requested); [done|].
  destruct (is_decision current); [done|].
  destruct (is_decision requested) eqn:Ed.
  - apply is_decision_spec in Ed.
    destruct (String.eqb_spec current "PENDING") as [->|].
    { destruct (a_IsApprover actor) eqn:?; [|done]. destruct (a_IsSystem actor) eqn:?; [done|].
      intros ?%decision_complete_spec. split; [done|]. by constructor. }
    destruct (String.eqb_spec current "DELEGATED") as [->|].
    { destruct (a_IsDelegate actor) eqn:?, (a_IsOriginalApprover actor) eqn:?; try done.
      intros ?%decision_complete_spec. split; [done|]. by constructor. }
    destruct (String.eqb_spec current "EXPIRED") as [->|]; [|done].
    destruct (a_IsSystem actor) eqn:?; [|done]. intros _. split; [done|]. by constructor.
  - destruct (String.eqb_spec current "PENDING") as [->|].
    { destruct (String.eqb_spec requested "DELEGATED") as [->|].
      - destruct (a_IsApprover actor) eqn:?; [|done].
        destruct (a_DelegatedToID actor) as [[|ch d]|] eqn:?; [done| |done].
        intros _. split; [done|]. by eapply delegate_pending.
      - destruct (String.eqb_spec requested "EXPIRED") as [->|]; [|done].
        destruct (a_IsSystem actor) eqn:?; [|done]. intros _. split; [done|]. by constructor. }
    destruct (String.eqb_spec current "DELEGATED"); [done|].
    destruct (String.eqb_spec current "EXPIRED") as [->|]; [|done].
    destruct (String.eqb_spec requested "PENDING") as [->|]; [|done].
    destruct (a_IsSystem actor) eqn:?; [|done]. intros _. split; [done|]. by constructor.
Qed.

Lemma transition_complete current requested actor :
  a_ID actor ≠ "" → may_transition actor current requested →
  ValidateApprovalTransition current requested actor = Ok tt.
Proof.
  intros Hid H. unfold ValidateApprovalTransition.
  destruct (String.eqb_spec (a_ID actor) ""); [done|].
  destruct H as [s [->| ->] Hap Hsys Hr%decision_complete_spec|d Hap Hd Hne|Hsys
    |s [->| ->] Hdel Hor Hr%decision_complete_spec|s [->| ->] Hsys|Hsys];
    cbn; rewrite ?Hap, ?Hsys, ?Hdel, ?Hor, ?Hd, ?Hr; cbn; try done.
  by destruct d.
Qed.

(** The transition guard accepts exactly the transitions of the request life
    cycle: a decision needs an approver (or the delegate of a delegated request)
    with a text and evidence, only the system expires a request or acts on an
    expired one, and a decided request is final. *)
Theorem ValidateApprovalTransition_iff current requested actor :
  (ValidateApprovalTransition current requested actor = Ok tt ↔
     a_ID actor ≠ "" ∧ may_transition actor current requested) ∧
  (decided current → ValidateApprovalTransition current requested actor ≠ Ok tt).
Proof.
  assert (Hiff : ValidateApprovalTransition current requested actor = Ok tt ↔
     a_ID actor ≠ "" ∧ may_transition actor current requested).
  { split; [apply transition_sound|]. intros [? ?]. by apply transition_complete. }
  split; [done|]. intros [->| ->]; rewrite Hiff; intros [_ H]; inversion H.
Qed.

(** ** Evaluation on concrete counts *)

Definition sample_counts (t a r p e : Z) : requestCounts :=
  {| rc_Total := t; rc_Approved := a; rc_Rejected := r; rc_Pending := p; rc_Expired := e |}.

Lemma sample_counts_wf t a r p e :
  0 ≤ a → 0 ≤ r → 0 ≤ p → 0 ≤ e → t = a + r + p + e → t ≤ max_requests →
  counts_wf (sample_counts t a r p e).
Proof. by constructor. Qed.

Ltac by_sample_counts := apply sample_counts_wf; unfold max_requests; lia.
Ltac by_known_policy := vm_compute; repeat first [left | right].

Lemma evaluatePolicyCounts_spec_witness :
  ∃ v, evaluatePolicyCounts "CONSENSUS" 0 (sample_counts 300 199 101 0 0) = Ok v ∧ v = Satisfied.
Proof.
  destruct (evaluatePolicyCounts_spec "CONSENSUS" 0 (sample_counts 300 199 101 0 0))
    as (_ & H & _); [by_sample_counts|].
  destruct H as (v & Hv & Hm & _); [reflexivity|by_known_policy|].
  exists v. split; [exact Hv|]. apply Hm. left. reflexivity.
Defined.

Lemma policy_failure_is_final_witness :
  evaluatePolicyCounts "CONSENSUS" 0 (sample_counts 3 1 1 1 0) = Ok Undecided ∧
  evaluatePolicyCounts "CONSENSUS" 0 (sample_counts 3 1 2 0 0) = Ok Failed.
Proof.
  split; [vm_compute; reflexivity|].
  apply (policy_failure_is_final "CONSENSUS" 0 (sample_counts 3 0 2 1 0));
    [by_known_policy|by_sample_counts|by_sample_counts|reflexivity|unfold later; cbn; lia|].
  vm_compute. reflexivity.
Defined.

Lemma policy_stuck_iff_witness :
  evaluatePolicyCounts "SINGLE_APPROVER" 1 (sample_counts 2 0 2 0 0) = Ok Undecided.
Proof.
  apply policy_stuck_iff;
    [by_known_policy|by_sample_counts|reflexivity|reflexivity|left; split; reflexivity].
Defined.

Lemma majority_single_approval_witness :
  evaluatePolicyCounts "MAJORITY" 1 (sample_counts 9 1 0 8 0) = Ok Satisfied.
Proof.
  apply majority_single_approval;
    [left; reflexivity|by_sample_counts|reflexivity|vm_compute; discriminate|reflexivity|reflexivity].
Defined.

Definition sample_approver : Actor :=
  {| a_ID := "alice"; a_IsSystem := false; a_IsSupervisor := false; a_IsApprover := true;
     a_IsDelegate := false; a_IsOriginalApprover := false; a_DecisionText := "fine";
     a_EvidenceRefs := Some []; a_DelegatedToID := None |}.

Lemma ValidateApprovalTransition_iff_witness :
  ValidateApprovalTransition "PENDING" "APPROVED" sample_approver = Ok tt ∧
  ValidateApprovalTransition "APPROVED" "REJECTED" sample_approver ≠ Ok tt.
Proof.
  split.
  - apply ValidateApprovalTransition_iff. split; [discriminate|].
    constructor; [left; reflexivity|reflexivity|reflexivity|].
    split; [discriminate|]. exists []. reflexivity.
  - apply ValidateApprovalTransition_iff. left. reflexivity.
Defined.
