(* ===== verification/ApprovalService.v ===== *)
(** * Approval gates (internal/approval/service.go, evaluator.go, sweep_job.go)

    The life of an approval gate as transactions over the database: its creation,
    the decision and the delegation of a request, the evaluation of the gate and
    of its tiered chain, what a rejection does to the case, and the sweep over
    expired requests. *)

From Stdlib Require Import Ascii String ZArith Lia.
From stdpp Require Import base list strings sets.
From S2P Require Import Prelude Float64 ApprovalExpr SqlTx CaseConfig Schema Outbox ApprovalPolicy.

Open Scope Z_scope.
Open Scope go_scope.

(** ** Rows and payloads *)

(** [json:",omitempty"] on text fields. *)
Definition omitempty (fields : list (string * string)) : list (string * value) :=
  map (λ f, (f.1, VString f.2)) (List.filter (λ f, negb (f.2 =?s "")) fields).

Definition value_of (o : option string) : value :=
  match o with Some s => VString s | None => VNil end.

Definition valueOrEmpty (v : option string) : string := default "" v.
Definition nullIfEmpty (v : string) : option string := if v =?s "" then None else Some v.

Section Service.
Context `{env : Env} `{clock : BusinessClock}.

(** The statements on tasks that approval uses. *)
Definition unblock_task (t : task_row) : task_row :=
let external := t_status t =?s "AWAITING_EXTERNAL" in
t <| t_status ::= λ s, if external then "PENDING" else s |>
  <| t_assigned_service ::= λ v, if external then None else v |>
  <| t_assigned_at ::= λ v, if external then None else v |>
  <| t_last_heartbeat_at ::= λ v, if external then None else v |>
  <| t_version ::= Z.succ |>.

Definition is_open_task (t : task_row) : bool :=
negb (str_mem (t_status t) ["COMPLETED"; "CANCELLED"; "SKIPPED"; "FAILED"]).

Definition cancel_task (reason : string) (t : task_row) : task_row :=
t <| t_status := "CANCELLED" |> <| t_completed_at := Some env_now |>
  <| t_error_reason := Some reason |> <| t_version ::= Z.succ |>.

Definition close_gate_as (status : string) (g : gate_row) : gate_row :=
g <| g_status := status |> <| g_closed_at := Some env_now |> <| g_version ::= Z.succ |>.

Definition update_case (p : case_row → bool) (f : case_row → case_row) : Tx database Z :=
update_in cases case_check p f.
Definition update_tasks (p : task_row → bool) (f : task_row → task_row) : Tx database Z :=
update_in tasks task_check p f.
Definition update_gates (p : gate_row → bool) (f : gate_row → gate_row) : Tx database Z :=
update_in gates gate_check p f.
Definition update_requests (p : request_row → bool) (f : request_row → request_row)
  : Tx database Z := update_in requests request_check p f.
Definition update_chains (p : chain_row → bool) (f : chain_row → chain_row) : Tx database Z :=
update_in chains chain_check p f.

(** [insertApprovalAuditLog]: the request id is a foreign key. *)
Definition insertApprovalAuditLog (in_ : audit_row) : Tx database unit :=
stmt (λ db,
  if existsb (by_id r_id (al_request_id in_)) (requests db)
  then Ok (tt, db <| approval_log ::= λ l, l ++ [in_] |>) else Err ErrSQL).

(** ** Evaluating a gate *)

Definition closeGate (gateID : string) (currentVersion : Z) (status : string) (now : Z)
  : Tx database bool :=
rows ← update_gates
  (λ g, (g_id g =?s gateID) && (g_version g =? currentVersion) &&
        str_mem (g_status g) ["PENDING"; "ACTIVE"])
  (λ g, g <| g_status := status |> <| g_closed_at := Some now |> <| g_version ::= Z.succ |>);
mret (0 <? rows).

Definition decision_text (counts : requestCounts) : string :=
"approved=" +:+ Itoa (rc_Approved counts) +:+ " rejected=" +:+ Itoa (rc_Rejected counts)
+:+ " pending=" +:+ Itoa (rc_Pending counts) +:+ " total=" +:+ Itoa (rc_Total counts).

Definition publishGateEvent (gate : gate_row) (eventType status : string)
  (counts : requestCounts) (reason : string) : Tx database unit :=
approval_PublishEvent (new_event eventType (Some (g_case_id gate)) (Some (g_task_id gate))
  (omitempty [("gate_id", g_id gate); ("case_id", g_case_id gate);
              ("task_id", g_task_id gate); ("policy", g_policy gate);
              ("gate_status", status); ("reason", reason);
              ("decision_text", decision_text counts)])).

Definition EvaluateApprovalPolicy (gateID : string) : Tx database bool :=
gate ← get_in gates (by_id g_id gateID);
if g_status gate =?s "SATISFIED" then mret true
else if str_mem (g_status gate) ["FAILED"; "REJECTED"; "CANCELLED"] then mret false
else
  counts ← query (λ db, Ok (loadRequestCounts gateID (requests db)));
  v ← tx_of (evaluatePolicyCounts (g_policy gate) (g_required gate) counts);
  match v with
  | Failed =>
      updated ← closeGate (g_id gate) (g_version gate) "FAILED" env_clock;
      _ ← when updated
        (publishGateEvent gate "APPROVAL_GATE_FAILED" "FAILED" counts "policy_fail_fast");
      mret false
  | Satisfied =>
      updated ← closeGate (g_id gate) (g_version gate) "SATISFIED" env_clock;
      _ ← when updated
        (_ ← update_tasks (by_id t_id (g_task_id gate)) unblock_task;
         publishGateEvent gate "APPROVAL_GATE_SATISFIED" "SATISFIED" counts
           "policy_satisfied");
      mret true
  | Undecided => mret false
  end.

(** ** Tiered chains *)

Definition case_metadata (c : case_row) : result (list (string * value)) :=
match c_metadata c with
| VMap m => Ok m
| VNil => Ok []
| _ => Err (ErrMsg "parse case metadata")
end.

Definition chain_event (eventType : string) (chain : chain_row) (status : string) (tier : Z)
  (reason : string) : event_row :=
new_event eventType (Some (ch_case_id chain)) None
  (omitempty [("gate_id", ch_gate_id chain); ("case_id", ch_case_id chain)] ++
   [("tier", VInt tier)] ++ omitempty [("gate_status", status); ("reason", reason)]).

(** Leave the tier at index [idx] with [tier_status] for the tier [next]. *)
Definition leave_tier (chain : chain_row) (idx next : Z) (status : string) : Tx database Z :=
update_chains (by_id ch_id (ch_id chain))
  (λ c, c <| ch_tier_status := status |> <| ch_tier_completed_at := Some env_now |>
          <| ch_current_tier := next |>
          <| ch_chain_status :=
               if idx =? zlength (ch_definition chain) - 1 then "COMPLETED"
               else "IN_PROGRESS" |>).

(** An optional condition of a tier: [None] when the tier has none. *)
Definition tier_condition (cond : string) (metadata : list (string * value))
  : result (option bool) :=
if cond =?s "" then Ok None else Some <$> Evaluate env_sprint metadata cond.

Definition judge_tier (chain : chain_row) (tierDef : tier_def) (idx : Z) : Tx database unit :=
counts ← query (λ db, Ok (loadTierCounts (ch_gate_id chain) (tier_no tierDef) (requests db)));
policy ←
  (if tier_policy tierDef =?s "" then
     gate ← get_in gates (by_id g_id (ch_gate_id chain)); mret (g_policy gate)
   else mret (tier_policy tierDef));
v ← tx_of (evaluatePolicyCounts policy 0 counts);
match v with
| Failed =>
    _ ← update_chains (by_id ch_id (ch_id chain))
      (λ c, c <| ch_tier_status := "REJECTED" |>
              <| ch_tier_completed_at := Some env_now |> <| ch_chain_status := "FAILED" |>);
    _ ← update_gates (by_id g_id (ch_gate_id chain)) (close_gate_as "FAILED");
    approval_PublishEvent (chain_event "APPROVAL_GATE_FAILED" chain "FAILED"
      (tier_no tierDef) "approval_chain_tier_failed")
| Satisfied =>
    _ ← leave_tier chain idx (nextTierValue (ch_definition chain) idx) "APPROVED";
    when (idx =? zlength (ch_definition chain) - 1)
      (_ ← update_gates (by_id g_id (ch_gate_id chain)) (close_gate_as "SATISFIED");
       approval_PublishEvent (chain_event "APPROVAL_GATE_SATISFIED" chain "SATISFIED"
         (tier_no tierDef) "approval_chain_completed"))
| Undecided => mret tt
end.

Definition EvaluateApprovalChain (chainID : string) : Tx database unit :=
chain ← get_in chains (by_id ch_id chainID);
if str_mem (ch_chain_status chain) ["COMPLETED"; "FAILED"] then mret tt
else
  let tiers := ch_definition chain in
  if zlength tiers =? 0 then mret tt
  else
    c ← get_in cases (by_id c_id (ch_case_id chain));
    metadata ← tx_of (case_metadata c);
    match findTierDefinition tiers (ch_current_tier chain) with
    | None =>
        _ ← update_chains (by_id ch_id (ch_id chain))
          (λ c, c <| ch_chain_status := "COMPLETED" |> <| ch_tier_status := "APPROVED" |>
                  <| ch_tier_completed_at := Some env_now |>);
        mret tt
    | Some (tierDef, idx) =>
        skip ← tx_of (tier_condition (tier_can_skip_if tierDef) metadata);
        if bool_decide (skip = Some true) then
          let next := nextTierValue tiers idx in
          _ ← leave_tier chain idx (if next =? 0 then ch_current_tier chain else next)
                "SKIPPED";
          mret tt
        else
          required ← tx_of (tier_condition (tier_required_if tierDef) metadata);
          if bool_decide (required = Some false) then
            _ ← leave_tier chain idx (nextTierValue tiers idx) "SKIPPED"; mret tt
          else judge_tier chain tierDef idx
    end.

(** ** What a rejection does *)

Definition publish_case_event (eventType caseID : string) (payload : list (string * value))
  : Tx database unit :=
approval_PublishEvent (new_event eventType (Some caseID) None payload).

Definition cancel_open_tasks (caseID reason : string) : Tx database Z :=
update_tasks (λ t, (t_case_id t =?s caseID) && is_open_task t) (cancel_task reason).

Definition rejectCaseTerminally (caseID gateID reason rejectedBy : string)
  : Tx database unit :=
_ ← update_case (by_id c_id caseID)
  (λ c, c <| c_status := "REJECTED" |> <| c_completed_at := Some env_now |>
          <| c_row_version ::= Z.succ |>);
_ ← cancel_open_tasks caseID "CASE_REJECTED";
_ ← update_gates (by_id g_id gateID) (close_gate_as "FAILED");
publish_case_event "CASE_REJECTED" caseID
  [("case_id", VString caseID); ("rejected_by", VString rejectedBy);
   ("reason", VString reason); ("source", VString "APPROVAL_REJECTED")].

(** The sequence order of a configured stage of the case's type. *)
Definition stage_ordinal (db : database) (caseID stage : string) : result Z :=
c ← sql_get (by_id c_id caseID) (cases db);
ct ← sql_get (by_id ct_id (c_case_type_id c)) (case_types db);
st ← sql_get (λ s, s.1 =?s stage) (ct_stages ct);
Ok st.2.

Definition reject_for_rework_limit (caseID gateID : string) (newReworkCount : Z)
  : Tx database unit :=
_ ← update_case (by_id c_id caseID)
  (λ c, c <| c_status := "REJECTED" |> <| c_completed_at := Some env_now |>
          <| c_rework_count := newReworkCount |> <| c_row_version ::= Z.succ |>);
_ ← cancel_open_tasks caseID "CASE_MAX_REWORK_EXCEEDED";
publish_case_event "CASE_MAX_REWORK_EXCEEDED" caseID
  (omitempty [("gate_id", gateID); ("case_id", caseID);
              ("reason", "case_max_rework_exceeded")]).

Definition regress_case (c : case_row) (gateID reworkTargetStage : string)
  (toOrdinal newReworkCount : Z) (reason rejectedBy : string) : Tx database unit :=
let caseID := c_id c in
let currentStageCode := valueOrEmpty (c_current_stage_code c) in
_ ← update_case (λ c', (c_id c' =?s caseID) && (c_row_version c' =? c_row_version c))
  (λ c, c <| c_current_stage_code := Some reworkTargetStage |>
          <| c_current_stage_ordinal := toOrdinal |> <| c_rework_count := newReworkCount |>
          <| c_status := "IN_PROGRESS" |> <| c_row_version ::= Z.succ |>);
_ ← insert_transition
  {| st_case_id := caseID; st_from_code := nullIfEmpty currentStageCode;
     st_from_ordinal := Some (c_current_stage_ordinal c); st_to_code := reworkTargetStage;
     st_to_ordinal := toOrdinal; st_is_regression := true; st_reason := Some reason;
     st_triggered_by := rejectedBy |};
_ ← update_tasks
  (λ t, (t_case_id t =?s caseID) && (t_stage_code t =?s currentStageCode) && is_open_task t)
  (cancel_task "APPROVAL_REJECTED");
_ ← update_gates (by_id g_id gateID) (close_gate_as "REJECTED_REWORK_INITIATED");
_ ← publish_case_event "CASE_STAGE_CHANGED" caseID
  [("case_id", VString caseID); ("from_stage", VString currentStageCode);
   ("to_stage", VString reworkTargetStage); ("to_stage_order", VInt toOrdinal)];
publish_case_event "CASE_SENT_TO_REWORK" caseID
  [("case_id", VString caseID); ("from_stage", VString currentStageCode);
   ("to_stage", VString reworkTargetStage); ("rejection_reason", VString reason);
   ("rejected_by", VString rejectedBy); ("rejected_at", VOther env_clock)].

Definition sendCaseToRework (caseID gateID reworkTargetStage reason rejectedBy : string)
  : Tx database unit :=
c ← get_in cases (by_id c_id caseID);
let newReworkCount := c_rework_count c + 1 in
if (0 <? c_max_rework_attempts c) && (c_max_rework_attempts c <? newReworkCount)
then reject_for_rework_limit caseID gateID newReworkCount
else
  toOrdinal ← query (λ db, stage_ordinal db caseID reworkTargetStage);
  regress_case c gateID reworkTargetStage toOrdinal newReworkCount reason rejectedBy.

Definition executeRejectionBehavior (gate : gate_row) (decisionText actorID : string)
  : Tx database unit :=
if g_rejection_behavior gate =?s "SEND_TO_REWORK" then
  match g_rework_target gate with
  | None | Some EmptyString => throw (ErrMsg "rework_target_stage_code is required")
  | Some target =>
      sendCaseToRework (g_case_id gate) (g_id gate) target decisionText actorID
  end
else if g_rejection_behavior gate =?s "TERMINAL_FAIL" then
  rejectCaseTerminally (g_case_id gate) (g_id gate) decisionText actorID
else mret tt.

(** ** Deciding and delegating a request *)

(** The join of a request and its gate, both locked. *)
Definition request_and_gate (requestID : string) : Tx database (request_row * gate_row) :=
query (λ db,
  r ← sql_get (by_id r_id requestID) (requests db);
  g ← sql_get (by_id g_id (r_gate_id r)) (gates db);
  Ok (r, g)).

Record DecideRequestInput := {
di_RequestID : string; di_Actor : Actor; di_DecisionText : string;
di_EvidenceRefs : option (list string);
}.

(** The actor the guard sees: on a delegated request the code itself decides who
  the delegate and who the original approver is. *)
Definition deciding_actor (input : DecideRequestInput) (r : request_row) : Actor :=
let actor := di_Actor input <| a_DecisionText := di_DecisionText input |>
                            <| a_EvidenceRefs := di_EvidenceRefs input |> in
if r_status r =?s "DELEGATED" then
  actor <| a_IsDelegate := a_ID actor =?s valueOrEmpty (r_delegated_to_id r) |>
        <| a_IsOriginalApprover := a_ID actor =?s r_approver_id r |>
else actor.

Definition record_decision (input : DecideRequestInput) (target actorID : string) (r : request_row)
  : request_row :=
r <| r_status := target |> <| r_decision := Some (di_DecisionText input) |>
  <| r_evidence := default [] (di_EvidenceRefs input) |>
  <| r_decided_at := Some env_now |> <| r_decided_by := Some actorID |>
  <| r_version ::= Z.succ |>.

(** [ReturnWithoutCommit] is the [return nil] that leaves the rollback to the
  deferred call. *)
Definition decideRequest_tx (input : DecideRequestInput) (target : string)
  : Tx database unit :=
'(r, gate) ← request_and_gate (di_RequestID input);
let actor := deciding_actor input r in
_ ← tx_of (ValidateApprovalTransition (r_status r) target actor);
affected ← update_requests (by_id r_id (di_RequestID input))
  (record_decision input target (a_ID actor));
if affected =? 0 then throw ReturnWithoutCommit
else
  let rejected := target =?s "REJECTED" in
  _ ← insertApprovalAuditLog
    {| al_request_id := di_RequestID input;
       al_event_type := if rejected then "REJECTED" else "APPROVED";
       al_actor_id := a_ID actor; al_decision_text := Some (di_DecisionText input);
       al_previous_state := r_status r; al_new_state := target |};
  _ ← approval_PublishEvent (new_event
    (if rejected then "APPROVAL_REJECTED" else "APPROVAL_GRANTED")
    (Some (g_case_id gate)) (Some (g_task_id gate))
    (omitempty [("gate_id", g_id gate); ("request_id", di_RequestID input);
                ("case_id", g_case_id gate); ("task_id", g_task_id gate);
                ("approver_id", a_ID actor); ("request_status", target);
                ("decision_text", di_DecisionText input)]));
  satisfied ← EvaluateApprovalPolicy (g_id gate);
  chain ← tx_attempt (get_in chains (λ c, ch_gate_id c =?s g_id gate));
  _ ← match chain with
      | Ok c => EvaluateApprovalChain (ch_id c)
      | Err ErrNoRows => mret tt
      | Err e => throw e
      end;
  when (rejected && negb satisfied)
    (executeRejectionBehavior gate (di_DecisionText input) (a_ID actor)).

Definition decideRequest (drv : driver) (input : DecideRequestInput) (target : string) :=
transact drv (decideRequest_tx input target).
Definition ApproveRequest (drv : driver) (input : DecideRequestInput) :=
decideRequest drv input "APPROVED".
Definition RejectRequest (drv : driver) (input : DecideRequestInput) :=
decideRequest drv input "REJECTED".

(** ** Sequencing *)

Lemma balanced_publish event : Balanced (approval_PublishEvent event).
Proof. unfold approval_PublishEvent, insert_event, EnqueueWebhookDeliveries. balance. Qed.
#[local] Hint Resolve balanced_publish : balance.
Lemma balanced_update_case p f : Balanced (update_case p f).
Proof. apply balanced_update. Qed.
#[local] Hint Resolve balanced_update_case : balance.
Lemma balanced_update_tasks p f : Balanced (update_tasks p f).
Proof. apply balanced_update. Qed.
#[local] Hint Resolve balanced_update_tasks : balance.
Lemma balanced_update_gates p f : Balanced (update_gates p f).
Proof. apply balanced_update. Qed.
#[local] Hint Resolve balanced_update_gates : balance.
Lemma balanced_update_requests p f : Balanced (update_requests p f).
Proof. apply balanced_update. Qed.
#[local] Hint Resolve balanced_update_requests : balance.
Lemma balanced_update_chains p f : Balanced (update_chains p f).
Proof. apply balanced_update. Qed.
#[local] Hint Resolve balanced_update_chains : balance.
Lemma balanced_audit row : Balanced (insertApprovalAuditLog row).
Proof. apply balanced_stmt. Qed.
#[local] Hint Resolve balanced_audit : balance.
Lemma balanced_gate_event g e s c r : Balanced (publishGateEvent g e s c r).
Proof. apply balanced_publish. Qed.
#[local] Hint Resolve balanced_gate_event : balance.
Lemma balanced_closeGate g v s n : Balanced (closeGate g v s n).
Proof. unfold closeGate. balance. Qed.
#[local] Hint Resolve balanced_closeGate : balance.
Lemma balanced_policy gateID : Balanced (EvaluateApprovalPolicy gateID).
Proof. unfold EvaluateApprovalPolicy. balance. Qed.
#[local] Hint Resolve balanced_policy : balance.
Lemma balanced_judge chain tierDef idx : Balanced (judge_tier chain tierDef idx).
Proof. unfold judge_tier, leave_tier. balance. Qed.
#[local] Hint Resolve balanced_judge : balance.
Lemma balanced_chain chainID : Balanced (EvaluateApprovalChain chainID).
Proof. unfold EvaluateApprovalChain, leave_tier. balance. Qed.
#[local] Hint Resolve balanced_chain : balance.
Lemma balanced_case_event e c p : Balanced (publish_case_event e c p).
Proof. apply balanced_publish. Qed.
#[local] Hint Resolve balanced_case_event : balance.
Lemma balanced_terminal c g r b : Balanced (rejectCaseTerminally c g r b).
Proof. unfold rejectCaseTerminally, cancel_open_tasks. balance. Qed.
#[local] Hint Resolve balanced_terminal : balance.
Lemma balanced_rework c g t r b : Balanced (sendCaseToRework c g t r b).
Proof.
  unfold sendCaseToRework, reject_for_rework_limit, regress_case, cancel_open_tasks. balance.
Qed.
#[local] Hint Resolve balanced_rework : balance.
Lemma balanced_rejection g d a : Balanced (executeRejectionBehavior g d a).
Proof. unfold executeRejectionBehavior. balance. Qed.
#[local] Hint Resolve balanced_rejection : balance.
Lemma balanced_join id : Balanced (request_and_gate id).
Proof. apply balanced_query. Qed.
#[local] Hint Resolve balanced_join : balance.

(** The steps after the request's row is written keep the requests and their
    audit trail. *)
Definition keeps_requests (db db' : database) : Prop :=
  requests db' = requests db ∧ approval_log db' = approval_log db.

#[export] Instance keeps_requests_preorder : PreOrder keeps_requests.
Proof. split; [done|]. intros ??? [] []. split; congruence. Qed.

Lemma keeps_publish event : tx_all keeps_requests (approval_PublishEvent event).
Proof. kept_steps; simplify_eq; done. Qed.
#[local] Hint Resolve keeps_publish : kept.
Lemma keeps_policy gateID : tx_all keeps_requests (EvaluateApprovalPolicy gateID).
Proof. kept_steps; done. Qed.
Lemma keeps_chain chainID : tx_all keeps_requests (EvaluateApprovalChain chainID).
Proof. kept_steps; done. Qed.
Lemma keeps_rejection g d a : tx_all keeps_requests (executeRejectionBehavior g d a).
Proof. kept_steps; done. Qed.
#[local] Hint Resolve keeps_policy keeps_chain keeps_rejection : kept.

(** ** Gate evaluation *)

Lemma commits_publish busy event db :
  pending_event event →
  commits busy (approval_PublishEvent event) db =
    Some (tt, outbox_with (approval_row event) db).
Proof. intros Hp. unfold commits. by rewrite exec_approval_PublishEvent. Qed.

Definition gate_open (g : gate_row) : bool := str_mem (g_status g) ["PENDING"; "ACTIVE"].

(** The status of a gate after its policy has given the verdict [v]. *)
Definition status_after (g : gate_row) (v : verdict) : string :=
  if gate_open g then
    match v with Undecided => g_status g | Satisfied => "SATISFIED" | Failed => "FAILED" end
  else g_status g.

(** What one evaluation of gate [g] changes. *)
Record gate_evaluated (g : gate_row) (v : verdict) (b : bool) (db db' : database) : Prop := {
  ge_result : b = bool_decide (v = Satisfied);
  ge_gate : ∃ g', sql_get (by_id g_id (g_id g)) (gates db') = Ok g' ∧
    g_status g' = status_after g v;
  ge_others : ∀ id, id ≠ g_id g →
    sql_get (by_id g_id id) (gates db') = sql_get (by_id g_id id) (gates db);
  ge_tasks : tasks db' =
    if gate_open g && bool_decide (v = Satisfied)
    then sql_update (by_id t_id (g_task_id g)) unblock_task (tasks db) else tasks db;
  ge_events : ∃ new, outbox db' = outbox db ++ new ∧
    length new = if gate_open g && negb (bool_decide (v = Undecided)) then 1%nat else 0%nat;
  ge_rest : cases db' = cases db ∧ requests db' = requests db ∧ chains db' = chains db;
}.

Lemma gate_unchanged g v db :
  sql_get (by_id g_id (g_id g)) (gates db) = Ok g →
  v = Undecided ∨ gate_open g = false →
  gate_evaluated g v (bool_decide (v = Satisfied)) db db.
Proof.
  intros Hg Hv. assert (Ho : gate_open g && bool_decide (v = Satisfied) = false ∧
    gate_open g && negb (bool_decide (v = Undecided)) = false).
  { destruct Hv as [->| ->]; cbn; rewrite ?andb_false_r; done. }
  destruct Ho as [H1 H2]. constructor; rewrite ?H1, ?H2; try done.
  - exists g. split; [done|]. unfold status_after. destruct Hv as [->| ->]; [|done].
    by destruct (gate_open g).
  - exists []. by rewrite app_nil_r.
Qed.

Definition closing (g : gate_row) (g' : gate_row) : bool :=
  (g_id g' =?s g_id g) && (g_version g' =? g_version g) && gate_open g'.

Lemma closing_self g : closing g g = gate_open g.
Proof. unfold closing. by rewrite string_eqb_refl, Z.eqb_refl. Qed.

Lemma closing_count g db :
  sql_get (by_id g_id (g_id g)) (gates db) = Ok g → gate_open g = true →
  0 <? sql_count (closing g) (gates db) = true.
Proof.
  intros [Hin _]%sql_get_Ok Ho. apply Z.ltb_lt, (sql_count_pos _ _ g); [done|].
  by rewrite closing_self.
Qed.

Lemma closing_none g db :
  gate_open g = false → NoDup (map g_id (gates db)) →
  sql_get (by_id g_id (g_id g)) (gates db) = Ok g →
  sql_count (closing g) (gates db) = 0.
Proof.
  intros Ho Hn Hg. apply sql_count_zero. intros r Hr. unfold closing.
  destruct (String.eqb_spec (g_id r) (g_id g)) as [E|]; [|done].
  pose proof (sql_get_unique g_id (gates db) r Hn Hr) as H1.
  unfold by_id in Hg. rewrite E in H1. rewrite Hg in H1. injection H1 as ->.
  rewrite Ho. apply andb_false_r.
Qed.

Lemma closed_gate g (status : string) (now : Z) (rows : list gate_row) :
  let f := λ g : gate_row,
    g <| g_status := status |> <| g_closed_at := Some now |> <| g_version ::= Z.succ |> in
  sql_get (by_id g_id (g_id g)) rows = Ok g → gate_open g = true →
  sql_get (by_id g_id (g_id g)) (sql_update (closing g) f rows) = Ok (f g) ∧
  (∀ id, id ≠ g_id g →
     sql_get (by_id g_id id) (sql_update (closing g) f rows) = sql_get (by_id g_id id) rows).
Proof.
  intros f Hg Ho. unfold by_id in *. split.
  - rewrite sql_get_update by done. rewrite Hg. cbn. by rewrite closing_self, Ho.
  - intros id Hne. rewrite sql_get_update by done.
    destruct (sql_get (λ r, g_id r =?s id) rows) as [r|e] eqn:E; [|done]. cbn.
    apply sql_get_Ok in E as [_ E]. apply String.eqb_eq in E. unfold closing.
    destruct (String.eqb_spec (g_id r) (g_id g)) as [E'|]; [congruence|done].
Qed.

(** The status update of a gate and what follows when it has matched a row. *)
Definition set_status (status : string) (now : Z) (g : gate_row) : gate_row :=
  g <| g_status := status |> <| g_closed_at := Some now |> <| g_version ::= Z.succ |>.

Lemma commits_closeGate busy g status db b db' :
  NoDup (map g_id (gates db)) → sql_get (by_id g_id (g_id g)) (gates db) = Ok g →
  commits busy (closeGate (g_id g) (g_version g) status env_clock) db = Some (b, db') →
  b = gate_open g ∧
  db' = if gate_open g
        then db <| gates := sql_update (closing g) (set_status status env_clock) (gates db) |>
        else db.
Proof.
  intros Hn Hg H. unfold closeGate, update_gates in H. tx_step H. tx_step H.
  destruct (forallb _ _); [|done]. tx_step H. injection H as <- <-.
  change (λ g0 : gate_row, (g_id g0 =?s g_id g) && (g_version g0 =? g_version g) &&
    str_mem (g_status g0) ["PENDING"; "ACTIVE"]) with (closing g).
  destruct (gate_open g) eqn:Ho; [by rewrite closing_count|].
  pose proof (closing_none g db Ho Hn Hg) as Hz. split; [by rewrite Hz|].
  rewrite sql_update_none; [by destruct db|]. by apply sql_count_zero.
Qed.

Lemma gate_failed busy g counts db b db1 db' :
  NoDup (map g_id (gates db)) → sql_get (by_id g_id (g_id g)) (gates db) = Ok g →
  commits busy (closeGate (g_id g) (g_version g) "FAILED" env_clock) db = Some (b, db1) →
  commits busy (when b (publishGateEvent g "APPROVAL_GATE_FAILED" "FAILED" counts
    "policy_fail_fast")) db1 = Some (tt, db') →
  gate_evaluated g Failed false db db'.
Proof.
  intros Hn Hg H1 H2. apply commits_closeGate in H1 as [-> ->]; [|done..].
  destruct (gate_open g) eqn:Ho; cbn [when] in H2.
  - unfold publishGateEvent in H2. rewrite commits_publish in H2 by auto with golib.
    injection H2 as <-. destruct (closed_gate g "FAILED" env_clock (gates db) Hg Ho) as [Hc Hf].
    constructor; rewrite ?Ho; try done.
    + eexists. split; [exact Hc|]. unfold status_after. by rewrite Ho.
    + by eexists [_].
  - injection H2 as <-. apply (gate_unchanged g Failed); [done|by right].
Qed.

Lemma gate_satisfied busy g counts db b db1 db' :
  NoDup (map g_id (gates db)) → sql_get (by_id g_id (g_id g)) (gates db) = Ok g →
  commits busy (closeGate (g_id g) (g_version g) "SATISFIED" env_clock) db = Some (b, db1) →
  commits busy (when b (_ ← update_tasks (by_id t_id (g_task_id g)) unblock_task;
     publishGateEvent g "APPROVAL_GATE_SATISFIED" "SATISFIED" counts "policy_satisfied")) db1
    = Some (tt, db') →
  gate_evaluated g Satisfied true db db'.
Proof.
  intros Hn Hg H1 H2. apply commits_closeGate in H1 as [-> ->]; [|done..].
  destruct (gate_open g) eqn:Ho; cbn [when] in H2.
  - tx_step H2. unfold update_tasks in H2. tx_step H2. destruct (forallb _ _); [|done].
    unfold publishGateEvent in H2. rewrite commits_publish in H2 by auto with golib.
    injection H2 as <-.
    destruct (closed_gate g "SATISFIED" env_clock (gates db) Hg Ho) as [Hc Hf].
    constructor; rewrite ?Ho; try done.
    + eexists. split; [exact Hc|]. unfold status_after. by rewrite Ho.
    + by eexists [_].
  - injection H2 as <-. apply (gate_unchanged g Satisfied); [done|by right].
Qed.

Lemma policy_commits busy gateID db b db' :
  NoDup (map g_id (gates db)) →
  commits busy (EvaluateApprovalPolicy gateID) db = Some (b, db') →
  ∃ g, sql_get (by_id g_id gateID) (gates db) = Ok g ∧
   ((str_mem (g_status g) ["SATISFIED"; "FAILED"; "REJECTED"; "CANCELLED"] = true ∧
     b = (g_status g =?s "SATISFIED") ∧ db' = db) ∨
    (str_mem (g_status g) ["SATISFIED"; "FAILED"; "REJECTED"; "CANCELLED"] = false ∧
     ∃ v, evaluatePolicyCounts (g_policy g) (g_required g)
            (counts_of (in_gate gateID) (requests db)) = Ok v ∧
          gate_evaluated g v b db db')).
Proof.
  intros Hn H. unfold EvaluateApprovalPolicy in H. tx_step H. tx_step H.
  destruct (sql_get (by_id g_id gateID) (gates db)) as [g|] eqn:Hg; [|done].
  exists g. split; [done|].
  assert (g_id g = gateID) as <-
    by (apply sql_get_Ok in Hg as [_ Hg]; by apply String.eqb_eq in Hg).
  unfold str_mem. cbn [existsb] in *. destruct (g_status g =?s "SATISFIED") eqn:Hs.
  { rewrite commits_mret in H. injection H as <- <-. by left. }
  unfold str_mem in H. cbn [existsb] in H. destruct (_ || _) eqn:Hc.
  { rewrite commits_mret in H. injection H as <- <-. left. by rewrite ?Hc. }
  right. split; [done|]. tx_step H. tx_step H. tx_step H. rewrite commits_of in H.
  rewrite loadRequestCounts_spec in H.
  destruct (evaluatePolicyCounts _ _ _) as [v|]; [|done]. exists v. split; [done|].
  destruct v; cbn beta iota in H.
  - rewrite commits_mret in H. injection H as <- <-.
    apply (gate_unchanged g Undecided); [done|by left].
  - tx_step H. destruct (commits busy (closeGate _ _ _ _) db) as [[b1 db1]|] eqn:H1; [|done].
    tx_step H. destruct (commits busy (when _ _) db1) as [[[] db2]|] eqn:H2; [|done].
    rewrite commits_mret in H. injection H as <- <-. by eapply gate_satisfied.
  - tx_step H. destruct (commits busy (closeGate _ _ _ _) db) as [[b1 db1]|] eqn:H1; [|done].
    tx_step H. destruct (commits busy (when _ _) db1) as [[[] db2]|] eqn:H2; [|done].
    rewrite commits_mret in H. injection H as <- <-. by eapply gate_failed.
Qed.

(** C32. One evaluation of a gate: a closed gate is reported and left alone; for an
    open gate the policy's verdict on the counted requests is carried out: the gate
    is closed with its verdict or stays open, no other gate is touched, its task is
    unblocked exactly when the gate becomes satisfied, one event is published
    exactly when its status changes, and the case and the requests are untouched. *)
Theorem EvaluateApprovalPolicy_spec drv gateID db b db' :
  NoDup (map g_id (gates db)) →
  within_tx drv (EvaluateApprovalPolicy gateID) db = (Ok b, db') →
  ∃ g, sql_get (by_id g_id gateID) (gates db) = Ok g ∧
    (g_status g ∈ ["SATISFIED"; "FAILED"; "REJECTED"; "CANCELLED"]%string →
       b = (g_status g =?s "SATISFIED") ∧ db' = db) ∧
    (g_status g ∉ ["SATISFIED"; "FAILED"; "REJECTED"; "CANCELLED"]%string →
       ∃ v, evaluatePolicyCounts (g_policy g) (g_required g)
              (counts_of (in_gate gateID) (requests db)) = Ok v ∧
            gate_evaluated g v b db db').
Proof.
  intros Hn H%within_tx_commits. apply policy_commits in H as (g & Hg & H); [|done].
  exists g. rewrite <- !str_mem_elem. split; [done|].
  destruct H as [(-> & ? & ?)|(-> & ?)]; split; done.
Qed.

(** ** Deciding a request *)

Definition request_of (db : database) (id : string) : option request_row :=
  match sql_get (by_id r_id id) (requests db) with Ok r => Some r | Err _ => None end.
Definition gate_of_id (db : database) (id : string) : option gate_row :=
  match sql_get (by_id g_id id) (gates db) with Ok g => Some g | Err _ => None end.

Definition decision_audit (input : DecideRequestInput) (target from actorID : string)
    : audit_row :=
  {| al_request_id := di_RequestID input;
     al_event_type := if target =?s "REJECTED" then "REJECTED" else "APPROVED";
     al_actor_id := actorID; al_decision_text := Some (di_DecisionText input);
     al_previous_state := from; al_new_state := target |}.

Lemma commits_join busy id db :
  commits busy (request_and_gate id) db =
    match request_of db id with
    | Some r => match gate_of_id db (r_gate_id r) with
                | Some g => Some ((r, g), db)
                | None => None
                end
    | None => None
    end.
Proof.
  unfold request_and_gate, request_of, gate_of_id. rewrite commits_query. cbn.
  destruct (sql_get _ (requests db)); cbn; [|done]. by destruct (sql_get _ (gates db)).
Qed.

Lemma request_of_Some db id r : request_of db id = Some r → r ∈ requests db ∧ r_id r = id.
Proof.
  unfold request_of. intros H. destruct (sql_get _ _) as [x|] eqn:E; [|done].
  injection H as ->. apply sql_get_Ok in E as [? E]. split; [done|]. by apply String.eqb_eq.
Qed.

Lemma gate_of_id_Some db id g :
  gate_of_id db id = Some g → sql_get (by_id g_id id) (gates db) = Ok g ∧ g_id g = id.
Proof.
  unfold gate_of_id. intros H. destruct (sql_get _ _) as [x|] eqn:E; [|done].
  injection H as ->. split; [done|]. apply sql_get_Ok in E as [_ E]. by apply String.eqb_eq.
Qed.

(** The last step of [decideRequest], after the policies are evaluated. *)
Definition after_decision (gate : gate_row) (input : DecideRequestInput) (actorID : string)
    (rejected satisfied : bool) : Tx database unit :=
  when (rejected && negb satisfied)
    (executeRejectionBehavior gate (di_DecisionText input) actorID).

Definition evaluate_chain_of (gate : gate_row) : Tx database unit :=
  chain ← tx_attempt (get_in chains (λ c, ch_gate_id c =?s g_id gate));
  match chain with
  | Ok c => EvaluateApprovalChain (ch_id c)
  | Err ErrNoRows => mret tt
  | Err e => throw e
  end.

Lemma balanced_chain_of gate : Balanced (evaluate_chain_of gate).
Proof. unfold evaluate_chain_of. balance. Qed.
Lemma keeps_chain_of gate : tx_all keeps_requests (evaluate_chain_of gate).
Proof. kept_steps. Qed.

(** A committed decision: the guard has accepted it, the row carries it, one audit
    entry records it; then the gate, its chain and the rejection follow. *)
Lemma decide_commits busy input target db db' :
  commits busy (decideRequest_tx input target) db = Some (tt, db') →
  ∃ r g b db2 db3,
    request_of db (di_RequestID input) = Some r ∧
    gate_of_id db (r_gate_id r) = Some g ∧
    let actor := deciding_actor input r in
    ValidateApprovalTransition (r_status r) target actor = Ok tt ∧
    let db1 := db <| requests := sql_update (by_id r_id (di_RequestID input))
                       (record_decision input target (a_ID actor)) (requests db) |>
                  <| approval_log ::= λ l,
                       l ++ [decision_audit input target (r_status r) (a_ID actor)] |> in
    (∃ row, commits busy (EvaluateApprovalPolicy (g_id g)) (outbox_with row db1) = Some (b, db2)) ∧
    commits busy (evaluate_chain_of g) db2 = Some (tt, db3) ∧
    commits busy (after_decision g input (a_ID actor) (target =?s "REJECTED") b) db3 =
      Some (tt, db').
Proof.
  unfold decideRequest_tx. intros H. tx_step H. rewrite commits_join in H.
  destruct (request_of db (di_RequestID input)) as [r|] eqn:Hr; [|done].
  destruct (gate_of_id db (r_gate_id r)) as [g|] eqn:Hg; [|done]. cbv zeta in H.
  tx_step H. rewrite commits_of in H.
  destruct (ValidateApprovalTransition _ _ _) as [[]|] eqn:Hv; [|done].
  tx_step H. unfold update_requests in H. rewrite commits_update in H.
  destruct (forallb _ _); [|done]. destruct (_ =? 0); [done|].
  tx_step H. unfold insertApprovalAuditLog in H. rewrite commits_stmt in H.
  destruct (existsb _ _); [|done]. tx_step H.
  rewrite commits_publish in H by (destruct (target =?s "REJECTED"); auto with golib).
  tx_step H. destruct (commits busy (EvaluateApprovalPolicy _) _) as [[b db2]|] eqn:He; [|done].
  assert (Hc : commits busy (evaluate_chain_of g ≫= λ _,
    after_decision g input (a_ID (deciding_actor input r)) (target =?s "REJECTED") b) db2
    = Some (tt, db')).
  { rewrite commits_bind by apply balanced_chain_of. unfold evaluate_chain_of.
    rewrite commits_bind by balance. rewrite commits_bind in H by balance.
    destruct (commits busy (tx_attempt _) db2) as [[c dbc]|]; [|done].
    by rewrite commits_bind in H by balance. }
  rewrite commits_bind in Hc by apply balanced_chain_of.
  destruct (commits busy (evaluate_chain_of g) db2) as [[[] db3]|] eqn:Hch; [|done].
  exists r, g, b, db2, db3. split_and!; try done. eexists. exact He.
Qed.

Lemma decide_keeps_rest busy input target db db' :
  commits busy (decideRequest_tx input target) db = Some (tt, db') →
  ∃ r, request_of db (di_RequestID input) = Some r ∧
    let actor := deciding_actor input r in
    ValidateApprovalTransition (r_status r) target actor = Ok tt ∧
    requests db' = sql_update (by_id r_id (di_RequestID input))
      (record_decision input target (a_ID actor)) (requests db) ∧
    approval_log db' =
      approval_log db ++ [decision_audit input target (r_status r) (a_ID actor)].
Proof.
  intros H. apply decide_commits in H as (r & g & b & db2 & db3 & Hr & Hg & Hv & [row H1] & H2 & H3).
  exists r. split; [done|]. cbv zeta. split; [done|].
  apply (commits_all _ keeps_requests) in H1 as [R1 A1]; [|apply keeps_policy].
  apply (commits_all _ keeps_requests) in H2 as [R2 A2]; [|apply keeps_chain_of].
  apply (commits_all _ keeps_requests) in H3 as [R3 A3];
    [|apply tx_all_when, keeps_rejection].
  by rewrite R3, R2, R1, A3, A2, A1.
Qed.

(** A decision that is committed, whatever the server did on the way, was
    accepted by the transition guard; the request then carries the status, the
    text, the evidence and the actor of the decision, every other request is as
    before, and the audit trail has grown by exactly the entry of this
    transition. *)
Theorem decideRequest_recorded drv input target db db' :
  within_tx drv (decideRequest_tx input target) db = (Ok tt, db') →
  ∃ r r', request_of db (di_RequestID input) = Some r ∧
    request_of db' (di_RequestID input) = Some r' ∧
    ValidateApprovalTransition (r_status r) target (deciding_actor input r) = Ok tt ∧
    r_status r' = target ∧ r_decision r' = Some (di_DecisionText input) ∧
    r_decided_by r' = Some (a_ID (di_Actor input)) ∧
    (∀ id, id ≠ di_RequestID input → request_of db' id = request_of db id) ∧
    ∃ entry, approval_log db' = approval_log db ++ [entry] ∧
      al_request_id entry = di_RequestID input ∧ al_previous_state entry = r_status r ∧
      al_new_state entry = target.
Proof.
  intros H%within_tx_commits. apply decide_keeps_rest in H as (r & Hr & Hv & HR & HA).
  exists r, (record_decision input target (a_ID (deciding_actor input r)) r).
  assert (Hid : ∀ id, sql_get (by_id r_id id) (requests db') =
    (λ x, if by_id r_id (di_RequestID input) x
          then record_decision input target (a_ID (deciding_actor input r)) x else x) <$>
    sql_get (by_id r_id id) (requests db)).
  { intros id. rewrite HR. by apply sql_get_update. }
  split_and!; try done.
  - unfold request_of in *. rewrite Hid.
    destruct (sql_get _ (requests db)) as [x|] eqn:E; [|done]. injection Hr as ->. cbn.
    apply sql_get_Ok in E as [_ E]. by rewrite E.
  - cbn. unfold deciding_actor. by destruct (r_status r =?s "DELEGATED").
  - intros id Hne. unfold request_of. rewrite Hid.
    destruct (sql_get _ (requests db)) as [x|] eqn:E; [|done]. cbn.
    apply sql_get_Ok in E as [_ E]. unfold by_id in *. apply String.eqb_eq in E.
    destruct (String.eqb_spec (r_id x) (di_RequestID input)) as [E'|]; [congruence|done].
  - exists (decision_audit input target (r_status r) (a_ID (deciding_actor input r))).
    rewrite HA. done.
Qed.

Lemma guard_final current requested actor :
  decided current → ValidateApprovalTransition current requested actor ≠ Ok tt.
Proof. intros Hd H. apply transition_sound in H as [_ H]. destruct Hd as [-> | ->]; inversion H. Qed.

(** A decided request is final: deciding it again fails and leaves the database
    untouched, whoever asks and whatever the server does. *)
Theorem decided_request_is_final drv input target db r :
  request_of db (di_RequestID input) = Some r → decided (r_status r) →
  ∃ e, within_tx drv (decideRequest_tx input target) db = (Err e, db).
Proof.
  intros Hr Hd. apply within_tx_no_commit.
  destruct (commits _ _ _) as [[[] db']|] eqn:E; [|done].
  apply decide_keeps_rest in E as (r' & Hr' & Hv & _). simplify_eq.
  by apply guard_final in Hv.
Qed.

(** ** Terminal rejection *)

Definition keeps_cases (db db' : database) : Prop := cases db' = cases db.
#[export] Instance keeps_cases_preorder : PreOrder keeps_cases.
Proof. split; [done|]. intros ????. unfold keeps_cases. congruence. Qed.

Lemma chain_keeps_cases gate : tx_all keeps_cases (evaluate_chain_of gate).
Proof. kept_steps; by simplify_eq. Qed.

(** The requests of a gate as the decision leaves them. *)
Definition decided_requests (db : database) (input : DecideRequestInput) (target : string)
    (r : request_row) : list request_row :=
  sql_update (by_id r_id (di_RequestID input))
    (record_decision input target (a_ID (deciding_actor input r))) (requests db).

(** The policy of the gate is not satisfied by the decision. *)
Definition not_satisfied_by db input target r g : Prop :=
  g_status g ≠ "SATISFIED" ∧
  evaluatePolicyCounts (g_policy g) (g_required g)
    (counts_of (in_gate (g_id g)) (decided_requests db input target r)) ≠ Ok Satisfied.

Lemma rejection_reached busy input db db' r g :
  NoDup (map g_id (gates db)) →
  request_of db (di_RequestID input) = Some r →
  gate_of_id db (r_gate_id r) = Some g →
  g_rejection_behavior g = "TERMINAL_FAIL" →
  not_satisfied_by db input "REJECTED" r g →
  commits busy (decideRequest_tx input "REJECTED") db = Some (tt, db') →
  ∃ db3, cases db3 = cases db ∧
    commits busy (rejectCaseTerminally (g_case_id g) (g_id g) (di_DecisionText input)
      (a_ID (deciding_actor input r))) db3 = Some (tt, db').
Proof.
  intros Hn Hr Hg Hb [Hs Hp] H.
  apply decide_commits in H as (r' & g' & b & db2 & db3 & Hr' & Hg' & _ & [row H1] & H2 & H3).
  rewrite Hr in Hr'. injection Hr' as <-. rewrite Hg in Hg'. injection Hg' as <-.
  apply gate_of_id_Some in Hg as [Hg Hid].
  apply policy_commits in H1 as (g' & Hg' & H1); [|exact Hn]. cbn in Hg'. rewrite <- Hid in Hg.
  unfold by_id in *. rewrite Hg in Hg'. injection Hg' as <-.
  assert (b = false ∧ cases db2 = cases db) as [-> Hc2].
  { destruct H1 as [(_ & -> & ->)|(_ & v & Hv & [-> _ _ _ _ [-> _]])].
    - split; [|done]. by apply String.eqb_neq.
    - split; [|done]. apply bool_decide_eq_false. intros ->. by apply Hp. }
  apply (commits_all _ keeps_cases) in H2; [|apply chain_keeps_cases].
  exists db3. split; [unfold keeps_cases in H2; congruence|].
  unfold after_decision in H3. cbn in H3. unfold executeRejectionBehavior in H3.
  by rewrite Hb in H3.
Qed.

Definition terminal_case (c : case_row) : case_row :=
  c <| c_status := "REJECTED" |> <| c_completed_at := Some env_now |>
    <| c_row_version ::= Z.succ |>.

Lemma terminal_commits busy caseID gateID reason by_ db db' :
  commits busy (rejectCaseTerminally caseID gateID reason by_) db = Some (tt, db') →
  forallb (λ c, negb (by_id c_id caseID c) || case_check (terminal_case c)) (cases db) = true ∧
  cases db' = sql_update (by_id c_id caseID) terminal_case (cases db) ∧
  tasks db' = sql_update (λ t, (t_case_id t =?s caseID) && is_open_task t)
    (cancel_task "CASE_REJECTED") (tasks db) ∧
  gates db' = sql_update (by_id g_id gateID) (close_gate_as "FAILED") (gates db).
Proof.
  unfold rejectCaseTerminally, update_case, cancel_open_tasks, update_tasks, update_gates,
    publish_case_event. intros H.
  tx_step H. tx_step H. destruct (forallb _ (cases db)) eqn:Hc; [|done].
  tx_step H. tx_step H. destruct (forallb _ (tasks _)); [|done].
  tx_step H. tx_step H. destruct (forallb _ (gates _)); [|done].
  rewrite commits_publish in H by auto with golib. injection H as <-. done.
Qed.

Lemma cancelled_not_open reason t : is_open_task (cancel_task reason t) = false.
Proof. done. Qed.

Lemma all_closed caseID reason (rows : list task_row) t :
  t ∈ sql_update (λ t, (t_case_id t =?s caseID) && is_open_task t) (cancel_task reason) rows →
  t_case_id t = caseID → is_open_task t = false.
Proof.
  intros (t0 & _ & ->)%sql_update_elem Hc.
  destruct (String.eqb_spec (t_case_id t0) caseID) as [E|E]; cbn in *; [|done].
  by destruct (is_open_task t0) eqn:Ho.
Qed.

(** A rejection acts on the case before the policy has: when the gate's policy
    is not satisfied by the rejection, even if it is still undecided and other
    approvers could satisfy it, a committed rejection on a TERMINAL_FAIL gate
    leaves the case REJECTED with no open task. *)
Theorem one_rejection_ends_the_case drv input db db' r g :
  NoDup (map g_id (gates db)) →
  request_of db (di_RequestID input) = Some r →
  gate_of_id db (r_gate_id r) = Some g →
  g_rejection_behavior g = "TERMINAL_FAIL" →
  not_satisfied_by db input "REJECTED" r g →
  within_tx drv (decideRequest_tx input "REJECTED") db = (Ok tt, db') →
  (∀ c, c ∈ cases db' → c_id c = g_case_id g → c_status c = "REJECTED") ∧
  (∀ t, t ∈ tasks db' → t_case_id t = g_case_id g → is_open_task t = false) ∧
  (∀ g', g' ∈ gates db' → g_id g' = g_id g → g_status g' = "FAILED").
Proof.
  intros Hn Hr Hg Hb Hp H%within_tx_commits.
  destruct (rejection_reached _ _ _ _ _ _ Hn Hr Hg Hb Hp H) as (db3 & _ & H3).
  apply terminal_commits in H3 as (_ & -> & -> & ->). split_and!.
  - intros c (c0 & _ & ->)%sql_update_elem. unfold by_id.
    by destruct (String.eqb_spec (c_id c0) (g_case_id g)).
  - intros t. apply all_closed.
  - intros g' (g0 & _ & ->)%sql_update_elem. unfold by_id.
    by destruct (String.eqb_spec (g_id g0) (g_id g)).
Qed.

(** Migration 000035 rebuilds cases_status_check without REJECTED: under it no
    rejection on a TERMINAL_FAIL gate can be committed unless the policy is
    satisfied anyway; every attempt fails and leaves the request pending. *)
Theorem terminal_rejection_impossible drv input db r g c :
  "REJECTED" ∉ env_case_statuses →
  NoDup (map g_id (gates db)) →
  request_of db (di_RequestID input) = Some r →
  gate_of_id db (r_gate_id r) = Some g →
  c ∈ cases db → c_id c = g_case_id g →
  g_rejection_behavior g = "TERMINAL_FAIL" →
  not_satisfied_by db input "REJECTED" r g →
  ∃ e, within_tx drv (decideRequest_tx input "REJECTED") db = (Err e, db).
Proof.
  intros Hst Hn Hr Hg Hc Hid Hb Hp. apply within_tx_no_commit.
  destruct (commits _ _ _) as [[[] db']|] eqn:E; [|done].
  destruct (rejection_reached _ _ _ _ _ _ Hn Hr Hg Hb Hp E) as (db3 & Hc3 & H3).
  apply terminal_commits in H3 as (Hck & _). rewrite Hc3, forallb_forall in Hck.
  specialize (Hck c). rewrite <- list_elem_of_In in Hck. specialize (Hck Hc).
  unfold by_id, case_check in Hck. rewrite Hid, string_eqb_refl in Hck. cbn in Hck.
  apply andb_prop in Hck as [Hm _]. by apply str_mem_elem in Hm.
Qed.

(** ** Rework *)

Definition rework_exhausted (c : case_row) : Prop :=
  0 < c_max_rework_attempts c < c_rework_count c + 1.

(** The case found under its id after an update by id and version. *)
Lemma case_after_update (p : case_row → bool) (f : case_row → case_row) db c :
  (∀ r, c_id (f r) = c_id r) →
  sql_get (by_id c_id (c_id c)) (cases db) = Ok c → p c = true →
  sql_get (by_id c_id (c_id c)) (sql_update p f (cases db)) = Ok (f c).
Proof.
  intros Hf Hc Hp. unfold by_id in *. rewrite sql_get_update by done. rewrite Hc. cbn.
  by rewrite Hp.
Qed.

Lemma limit_commits busy c gateID n db db' :
  sql_get (by_id c_id (c_id c)) (cases db) = Ok c →
  commits busy (reject_for_rework_limit (c_id c) gateID n) db = Some (tt, db') →
  (∃ c', sql_get (by_id c_id (c_id c)) (cases db') = Ok c' ∧
     c_status c' = "REJECTED" ∧ c_rework_count c' = n) ∧
  (∀ t, t ∈ tasks db' → t_case_id t = c_id c → is_open_task t = false) ∧
  transitions db' = transitions db.
Proof.
  intros Hc H. unfold reject_for_rework_limit, update_case, cancel_open_tasks, update_tasks,
    publish_case_event in H.
  tx_step H. tx_step H. destruct (forallb _ (cases db)); [|done].
  tx_step H. tx_step H. destruct (forallb _ (tasks _)); [|done].
  rewrite commits_publish in H by auto with golib. injection H as <-. split_and!; [| |done].
  - eexists. split; [apply case_after_update; [done|exact Hc|apply string_eqb_refl]|done].
  - intros t. apply all_closed.
Qed.

Lemma regress_commits busy c gateID target ord n reason by_ db db' :
  sql_get (by_id c_id (c_id c)) (cases db) = Ok c →
  commits busy (regress_case c gateID target ord n reason by_) db = Some (tt, db') →
  (∃ c', sql_get (by_id c_id (c_id c)) (cases db') = Ok c' ∧
     c_status c' = "IN_PROGRESS" ∧ c_current_stage_code c' = Some target ∧
     c_current_stage_ordinal c' = ord ∧ c_rework_count c' = n) ∧
  (∀ t, t ∈ tasks db' → t_case_id t = c_id c →
     t_stage_code t = valueOrEmpty (c_current_stage_code c) → is_open_task t = false) ∧
  (∃ tr, transitions db' = transitions db ++ [tr] ∧ st_case_id tr = c_id c ∧
     st_to_code tr = target ∧ st_to_ordinal tr = ord ∧ st_is_regression tr = true).
Proof.
  intros Hc H. unfold regress_case, update_case, update_tasks, update_gates,
    publish_case_event in H. cbv zeta in H.
  tx_step H. tx_step H. destruct (forallb _ (cases db)); [|done].
  tx_step H. tx_step H. destruct (default_tenant _ _); [|done].
  tx_step H. tx_step H. destruct (forallb _ (tasks _)); [|done].
  tx_step H. tx_step H. destruct (forallb _ (gates _)); [|done].
  tx_step H. rewrite commits_publish in H by auto with golib.
  rewrite commits_publish in H by auto with golib. injection H as <-. split_and!.
  - eexists. split; [apply case_after_update; [done|exact Hc|]|done].
    by rewrite string_eqb_refl, Z.eqb_refl.
  - intros t Ht Hid Hst. cbn in Ht. apply sql_update_elem in Ht as (t0 & _ & ->).
    destruct (String.eqb_spec (t_case_id t0) (c_id c)) as [E|E]; cbn in *; [|done].
    destruct (String.eqb_spec (t_stage_code t0) (valueOrEmpty (c_current_stage_code c)));
      cbn in *; [|done].
    by destruct (is_open_task t0) eqn:Ho.
  - eexists. by split_and!.
Qed.

(** Sending a case to rework, once committed: beyond its rework limit the case
    is REJECTED with no open task; otherwise it is at the target stage with its
    configured ordinal, one rework more, a regression recorded and no open task
    left in the stage it came from. The status of the case is not looked at: a
    case that was closed in the meantime is IN_PROGRESS again. *)
Theorem sendCaseToRework_spec drv caseID gateID target reason by_ db db' :
  within_tx drv (sendCaseToRework caseID gateID target reason by_) db = (Ok tt, db') →
  ∃ c c', sql_get (by_id c_id caseID) (cases db) = Ok c ∧
    sql_get (by_id c_id caseID) (cases db') = Ok c' ∧
    c_rework_count c' = c_rework_count c + 1 ∧
    (rework_exhausted c → c_status c' = "REJECTED" ∧ transitions db' = transitions db ∧
       ∀ t, t ∈ tasks db' → t_case_id t = caseID → is_open_task t = false) ∧
    (¬ rework_exhausted c → c_status c' = "IN_PROGRESS" ∧
       stage_ordinal db caseID target = Ok (c_current_stage_ordinal c') ∧
       c_current_stage_code c' = Some target ∧
       (∃ tr, transitions db' = transitions db ++ [tr] ∧ st_is_regression tr = true ∧
          st_to_code tr = target) ∧
       ∀ t, t ∈ tasks db' → t_case_id t = caseID →
         t_stage_code t = valueOrEmpty (c_current_stage_code c) → is_open_task t = false).
Proof.
  intros H%within_tx_commits. unfold sendCaseToRework in H. tx_step H. tx_step H.
  destruct (sql_get (by_id c_id caseID) (cases db)) as [c|] eqn:Hc; [|done].
  exists c. assert (caseID = c_id c) as -> by
    (apply sql_get_Ok in Hc as [_ E]; symmetry; by apply String.eqb_eq).
  cbv zeta in H. destruct (_ && _) eqn:Hx.
  - assert (rework_exhausted c) by
      (apply andb_prop in Hx as [? ?]; unfold rework_exhausted; Z_tests; lia).
    apply limit_commits in H as ((c' & Hc' & Hs & Hn) & Ht & Htr); [|done].
    exists c'. split_and!; try done.
  - assert (¬ rework_exhausted c) by
      (intros [? ?]; apply andb_false_iff in Hx as [?|?]; Z_tests; lia).
    tx_step H. rewrite commits_query in H.
    destruct (stage_ordinal db (c_id c) target) as [ord|] eqn:Ho; [|done].
    apply regress_commits in H as ((c' & Hc' & Hs & Hst & Hor & Hn) & Ht & tr & Htr & ? & ? & ? & ?);
      [|done].
    exists c'. split_and!; try done. intros _. split_and!; try done.
    + by rewrite Hor.
    + by exists tr.
Qed.

End Service.

#[export] Hint Resolve balanced_closeGate balanced_publish balanced_update_case balanced_update_tasks balanced_update_gates balanced_update_requests balanced_update_chains balanced_audit balanced_gate_event balanced_policy balanced_judge balanced_chain balanced_case_event balanced_terminal balanced_rework balanced_rejection balanced_join : balance.

(** ** A concrete gate *)

Definition sample_case (status : string) : case_row :=
  {| c_id := "case-1"; c_tenant_id := DefaultTenantID; c_case_type_id := "loan";
     c_source_case_id := None; c_current_stage_code := Some "REVIEW";
     c_current_stage_ordinal := 2; c_status := status; c_metadata := VMap [];
     c_assigned_to := None; c_assigned_user_id := None; c_rework_count := 0; c_max_rework_attempts := 3;
     c_row_version := 1; c_created_at := 0; c_completed_at := None; c_suspend_reason := None;
     c_resume_at := None; c_withdrawal_reason := None; c_emergency_closed_at := None;
     c_emergency_reason := None; c_supervisor_id := None; c_effective_start_time := None;
     c_due_at := None; c_sla_duration_ms := None; c_sla_calendar_id := None;
     c_sla_warning_issued_at := None; c_sla_critical_issued_at := None;
     c_parent_case_id := None; c_case_type_version_id := None; c_exception_at := None;
     c_exception_reason := None; c_exception_task_id := None; c_exception_severity := None;
     c_case_complexity := None; c_required_skills := None |}.

Definition sample_task (id status : string) : task_row :=
  blank_task id "case-1" "CREDIT_CHECK" status
    <| t_assignee_id := Some "worker" |> <| t_assigned_at := Some 0 |>
    <| t_requires_approval := true |> <| t_approval_gate_id := Some "gate-1" |>.

Definition sample_gate (policy rejection : string) (required : Z) (chain : list tier_def)
    : gate_row :=
  {| g_id := "gate-1"; g_task_id := "task-1"; g_case_id := "case-1"; g_policy := policy;
     g_required := required; g_selection := "EXPLICIT_LIST"; g_approvers := [];
     g_timeout_hours := 2400; g_on_timeout_action := "ESCALATE";
     g_rejection_behavior := rejection; g_rework_target := Some "INTAKE";
     g_fallback_role := None; g_dynamic_rule := None; g_authority_limit := None;
     g_amount := None; g_chain := chain; g_status := "ACTIVE"; g_opened_at := Some 0;
     g_closed_at := None; g_version := 2 |}.

Definition sample_request (id approver status : string) (tier : option Z) : request_row :=
  {| r_id := id; r_gate_id := "gate-1"; r_approver_id := approver; r_tier := tier;
     r_status := status; r_decision := None; r_evidence := []; r_decided_at := None;
     r_decided_by := None; r_expires_at := 999 * Hour; r_delegated_to_id := None;
     r_delegated_at := None; r_delegation_chain := []; r_version := 1 |}.

Definition sample_chain (tiers : list tier_def) : chain_row :=
  {| ch_id := "chain-1"; ch_case_id := "case-1"; ch_gate_id := "gate-1";
     ch_definition := tiers; ch_current_tier := 1; ch_tier_status := "PENDING";
     ch_chain_status := "PENDING"; ch_tier_started_at := Some 0; ch_tier_completed_at := None |}.

Definition sample_db (gate : gate_row) (chains_ : list chain_row) (rs : list request_row)
    : database :=
  empty_db <| cases := [sample_case "IN_PROGRESS"] |>
           <| tasks := [sample_task "task-1" "AWAITING_EXTERNAL"; sample_task "task-2" "PENDING"] |>
           <| gates := [gate] |> <| chains := chains_ |> <| requests := rs |>
           <| case_types := [blank_case_type "loan" "LOAN" 1
    (plain_config [plain_stage "INTAKE" 1 []; plain_stage "REVIEW" 2 []])] |>.

Definition decision_by (actor requestID text : string) : DecideRequestInput :=
  {| di_RequestID := requestID; di_Actor := sample_approver <| a_ID := actor |>;
     di_DecisionText := text; di_EvidenceRefs := Some [] |}.

(** Five approvers, a majority of three needed, none has decided. *)
Definition five_approvers : database :=
  sample_db (sample_gate "MAJORITY" "TERMINAL_FAIL" 3 []) []
    (map (λ i, sample_request ("r" +:+ Itoa i) ("approver-" +:+ Itoa i) "PENDING" None)
       [1; 2; 3; 4; 5]).

#[local] Abbreviation env25 := (sample_env case_statuses_25).
#[local] Abbreviation env35 := (sample_env case_statuses_35).

Ltac unique_ids := vm_compute; repeat (constructor; [set_solver|]); constructor.

Lemma decideRequest_recorded_witness :
  ∃ db' r', within_tx (reliable true)
      (decideRequest_tx (env := env25) (decision_by "approver-1" "r1" "too risky") "REJECTED")
      five_approvers = (Ok tt, db') ∧
    request_of db' "r1" = Some r' ∧ r_status r' = "REJECTED".
Proof.
  eexists. destruct (decideRequest_recorded (env := env25) (reliable true)
    (decision_by "approver-1" "r1" "too risky") "REJECTED" five_approvers
    (within_tx (reliable true)
      (decideRequest_tx (env := env25) (decision_by "approver-1" "r1" "too risky") "REJECTED")
      five_approvers).2) as (r & r' & _ & Hr' & _ & Hs & _).
  - vm_compute. reflexivity.
  - exists r'. split; [vm_compute; reflexivity|]. split; [|exact Hs].
    rewrite <- Hr'. reflexivity.
Defined.

Lemma decided_request_is_final_witness :
  let db := sample_db (sample_gate "MAJORITY" "TERMINAL_FAIL" 3 []) []
              [sample_request "r1" "approver-1" "REJECTED" None] in
  ∃ e, within_tx (reliable true)
      (decideRequest_tx (env := env25) (decision_by "approver-1" "r1" "yes") "APPROVED") db
    = (Err e, db).
Proof.
  intros db. apply (decided_request_is_final (env := env25) (reliable true)
    (decision_by "approver-1" "r1" "yes") "APPROVED" db
    (sample_request "r1" "approver-1" "REJECTED" None)).
  - reflexivity.
  - right. reflexivity.
Defined.

Definition five_gate : gate_row := sample_gate "MAJORITY" "TERMINAL_FAIL" 3 [].
Definition first_request : request_row := sample_request "r1" "approver-1" "PENDING" None.

Lemma one_rejection_ends_the_case_witness :
  let input := decision_by "approver-1" "r1" "too risky" in
  ∃ db', within_tx (reliable true) (decideRequest_tx (env := env25) input "REJECTED")
           five_approvers = (Ok tt, db') ∧
    evaluatePolicyCounts "MAJORITY" 3
      (counts_of (in_gate "gate-1")
         (decided_requests (env := env25) five_approvers input "REJECTED" first_request))
      = Ok Undecided ∧
    (∀ c, c ∈ cases db' → c_id c = "case-1" → c_status c = "REJECTED").
Proof.
  intros input. eexists. split; [vm_compute; reflexivity|]. split; [vm_compute; reflexivity|].
  apply (one_rejection_ends_the_case (env := env25) (reliable true) input five_approvers _
    first_request five_gate).
  - unique_ids.
  - vm_compute. reflexivity.
  - vm_compute. reflexivity.
  - reflexivity.
  - split; [discriminate|]. vm_compute. discriminate.
  - vm_compute. reflexivity.
Defined.

Lemma terminal_rejection_impossible_witness :
  let input := decision_by "approver-1" "r1" "too risky" in
  ∃ e, within_tx (reliable true) (decideRequest_tx (env := env35) input "REJECTED")
         five_approvers = (Err e, five_approvers).
Proof.
  intros input. apply (terminal_rejection_impossible (env := env35) (reliable true) input
    five_approvers first_request five_gate (sample_case "IN_PROGRESS")).
  - vm_compute. intros H. repeat (apply elem_of_cons in H as [H|H]; [discriminate|]).
    by apply elem_of_nil in H.
  - unique_ids.
  - vm_compute. reflexivity.
  - vm_compute. reflexivity.
  - left.
  - reflexivity.
  - reflexivity.
  - split; [discriminate|]. vm_compute. discriminate.
Defined.

Lemma sendCaseToRework_spec_witness :
  let db := five_approvers <| cases := [sample_case "CANCELLED"] |> in
  ∃ db' c', within_tx (reliable true)
      (sendCaseToRework (env := env35) "case-1" "gate-1" "INTAKE" "redo" "approver-1") db
      = (Ok tt, db') ∧
    sql_get (by_id c_id "case-1") (cases db') = Ok c' ∧ c_status c' = "IN_PROGRESS".
Proof.
  intros db.
  destruct (sendCaseToRework_spec (env := env35) (reliable true) "case-1" "gate-1" "INTAKE"
    "redo" "approver-1" db
    (within_tx (reliable true)
      (sendCaseToRework (env := env35) "case-1" "gate-1" "INTAKE" "redo" "approver-1") db).2)
    as (c & c' & Hc & Hc' & _ & _ & Hn).
  - vm_compute. reflexivity.
  - eexists. exists c'. split; [vm_compute; reflexivity|]. split; [exact Hc'|].
    apply Hn. injection Hc as <-. vm_compute. intros [_ ?]. discriminate.
Defined.

Lemma EvaluateApprovalPolicy_spec_witness :
  let db := five_approvers <| requests ::= map (λ r, r <| r_status := "REJECTED" |>) |> in
  ∃ db' g', within_tx (reliable true) (EvaluateApprovalPolicy (env := env25) "gate-1") db
      = (Ok false, db') ∧
    sql_get (by_id g_id "gate-1") (gates db') = Ok g' ∧ g_status g' = "FAILED".
Proof.
  intros db. eexists.
  destruct (EvaluateApprovalPolicy_spec (env := env25) (reliable true) "gate-1" db false
    (within_tx (reliable true) (EvaluateApprovalPolicy (env := env25) "gate-1") db).2)
    as (g & Hg & _ & Ho).
  - unique_ids.
  - vm_compute. reflexivity.
  - assert (Eg : g = five_gate) by (injection Hg as <-; reflexivity). subst g.
    destruct Ho as (v & Hv & He).
    + vm_compute. intros H. repeat (apply elem_of_cons in H as [H|H]; [discriminate|]).
      by apply elem_of_nil in H.
    + assert (v = Failed) as -> by (vm_compute in Hv; congruence).
      destruct (ge_gate _ _ _ _ _ He) as (g' & Hg' & Hs).
      exists g'. split; [vm_compute; reflexivity|]. split; [exact Hg'|exact Hs].
Defined.
