(* ===== verification/ApprovalSweep.v ===== *)
(** * Creating, delegating and expiring approvals (internal/approval/service.go,
    sweep_job.go)

    The creation of a gate for a task, the delegation of a request by its
    approver, and the sweep that expires overdue requests and takes their timeout
    action, all candidates in one transaction. *)

From Stdlib Require Import Ascii String ZArith Lia.
From stdpp Require Import base list strings sets.
From S2P Require Import Prelude Float64 ApprovalExpr SqlTx CaseConfig Schema Outbox ApprovalPolicy ApprovalService.

Open Scope Z_scope.
Open Scope go_scope.

Section Gates.
Context `{env : Env} `{clock : BusinessClock}.

(** ** Creating a gate *)

Record CreateGateRequest := {
  cg_TaskID : string; cg_CaseID : string; cg_Approval : ApprovalDefinition;
  cg_ApprovalAmount : option Z; cg_ApprovalChain : list tier_def;
  cg_FallbackSupervisorRole : string;
}.

(** The definition with its defaults filled in. *)
Definition approval_defaults (req : CreateGateRequest) : ApprovalDefinition :=
  let a := cg_Approval req in
  {| ad_policy := orElse (ad_policy a) "SINGLE_APPROVER";
     ad_required := if ad_required a <=? 0 then 1 else ad_required a;
     ad_selection := orElse (ad_selection a) "EXPLICIT_LIST";
     ad_approvers := ad_approvers a; ad_authority_limit := ad_authority_limit a; ad_amount_field := ad_amount_field a;
     ad_timeout_hours := if ad_timeout_hours a <=? 0 then 2400 else ad_timeout_hours a;
     ad_on_timeout := orElse (ad_on_timeout a) "ESCALATE";
     ad_rejection := orElse (ad_rejection a) "SEND_TO_REWORK";
     ad_rework_target := ad_rework_target a;
     ad_fallback_role := orElse (cg_FallbackSupervisorRole req) (ad_fallback_role a);
     ad_dynamic_rule := ad_dynamic_rule a |}.

Definition gate_of (req : CreateGateRequest) (a : ApprovalDefinition) (id : string) : gate_row :=
  {| g_id := id; g_task_id := cg_TaskID req; g_case_id := cg_CaseID req;
     g_policy := ad_policy a; g_required := ad_required a; g_selection := ad_selection a;
     g_approvers := ad_approvers a; g_timeout_hours := ad_timeout_hours a;
     g_on_timeout_action := ad_on_timeout a; g_rejection_behavior := ad_rejection a;
     g_rework_target := ad_rework_target a; g_fallback_role := nullIfEmpty (ad_fallback_role a);
     g_dynamic_rule := nullIfEmpty (ad_dynamic_rule a);
     g_authority_limit := ad_authority_limit a; g_amount := cg_ApprovalAmount req;
     g_chain := cg_ApprovalChain req; g_status := "PENDING"; g_opened_at := None;
     g_closed_at := None; g_version := 1 |}.

(** [ON CONFLICT (task_id) DO UPDATE]: the columns of the old row that stay. *)
Definition merge_gate (new old : gate_row) : gate_row :=
  new <| g_id := g_id old |> <| g_task_id := g_task_id old |> <| g_case_id := g_case_id old |>
      <| g_amount := g_amount new |> <| g_status := g_status old |>
      <| g_opened_at := g_opened_at old |> <| g_closed_at := g_closed_at old |>
      <| g_version := g_version old + 1 |>.

Definition upsert_gate (req : CreateGateRequest) (a : ApprovalDefinition) : Tx database string :=
  stmt (λ db,
    let new := gate_of req a (env_uuid (uuid_pos db)) in
    match sql_get (by_id g_task_id (cg_TaskID req)) (gates db) with
    | Ok old =>
        match update_rows gate_check (by_id g_task_id (cg_TaskID req)) (merge_gate new)
                (gates db) with
        | Ok (_, rows) => Ok (g_id old, db <| gates := rows |> <| uuid_pos ::= S |>)
        | Err e => Err e
        end
    | Err _ =>
        match insert_row gate_check (λ g g', g_id g =?s g_id g') new (gates db) with
        | Ok rows => Ok (g_id new, db <| gates := rows |> <| uuid_pos ::= S |>)
        | Err e => Err e
        end
    end).

(** [INSERT INTO approval_chain_state .. ON CONFLICT (approval_gate_id) DO NOTHING] *)
Definition insert_chain (caseID gateID : string) (tiers : list tier_def) (first : Z)
    : Tx database unit :=
  stmt (λ db,
    if existsb (by_id ch_gate_id gateID) (chains db) then Ok (tt, db)
    else
      let c := {| ch_id := env_uuid (uuid_pos db); ch_case_id := caseID; ch_gate_id := gateID;
                  ch_definition := tiers; ch_current_tier := first; ch_tier_status := "PENDING";
                  ch_chain_status := "PENDING"; ch_tier_started_at := Some env_now;
                  ch_tier_completed_at := None |} in
      Ok (tt, db <| chains ::= λ l, l ++ [c] |> <| uuid_pos ::= S |>)).

Definition CreateApprovalGate (req : CreateGateRequest) : Tx database string :=
  if (cg_TaskID req =?s "") || (cg_CaseID req =?s "")
  then throw (ErrMsg "task_id and case_id are required")
  else
    let a := approval_defaults req in
    gateID ← upsert_gate req a;
    _ ← update_tasks (by_id t_id (cg_TaskID req))
      (λ t, t <| t_requires_approval := true |> <| t_approval_gate_id := Some gateID |>
              <| t_approval_amount := cg_ApprovalAmount req |> <| t_version ::= Z.succ |>);
    _ ← match cg_ApprovalChain req with
        | [] => mret tt
        | first :: _ => insert_chain (cg_CaseID req) gateID (cg_ApprovalChain req) (tier_no first)
        end;
    _ ← approval_PublishEvent (new_event "APPROVAL_GATE_CREATED"
      (Some (cg_CaseID req)) (Some (cg_TaskID req))
      (omitempty [("gate_id", gateID); ("case_id", cg_CaseID req); ("task_id", cg_TaskID req);
                  ("policy", ad_policy a); ("gate_status", "PENDING");
                  ("reason", "approval_gate_created")]));
    mret gateID.

(** ** Delegating a request *)

Record DelegateRequestInput := {
  dg_RequestID : string; dg_Actor : Actor; dg_DelegatedToID : string; dg_Reason : string;
}.

Definition pending_request (gateID approverID : string) (tier : option Z) (expires_at : Z)
    (chain : list delegation_hop) (id : string) : request_row :=
  {| r_id := id; r_gate_id := gateID; r_approver_id := approverID; r_tier := tier;
     r_status := "PENDING"; r_decision := None; r_evidence := []; r_decided_at := None;
     r_decided_by := None; r_expires_at := expires_at; r_delegated_to_id := None;
     r_delegated_at := None; r_delegation_chain := chain; r_version := 1 |}.

Definition insert_request (mk : string → request_row) : Tx database string :=
  insert_with_id requests request_check request_conflict mk.

Definition mark_delegated (input : DelegateRequestInput) (r : request_row) : request_row :=
  r <| r_status := "DELEGATED" |> <| r_delegated_to_id := Some (dg_DelegatedToID input) |>
    <| r_delegated_at := Some env_now |> <| r_decided_at := Some env_now |>
    <| r_decided_by := Some (a_ID (dg_Actor input)) |>
    <| r_decision := Some (dg_Reason input) |> <| r_version ::= Z.succ |>.

Definition DelegateRequest_tx (input : DelegateRequestInput) : Tx database unit :=
  '(r, gate) ← request_and_gate (dg_RequestID input);
  let actor := dg_Actor input <| a_DelegatedToID := Some (dg_DelegatedToID input) |> in
  _ ← tx_of (ValidateApprovalTransition (r_status r) "DELEGATED" actor);
  affected ← update_requests (by_id r_id (dg_RequestID input)) (mark_delegated input);
  if affected =? 0 then throw ReturnWithoutCommit
  else
    let hop := {| hop_from := r_approver_id r; hop_to := dg_DelegatedToID input;
                  hop_by := Some (a_ID actor); hop_at := env_clock |} in
    newRequestID ← insert_request
      (pending_request (r_gate_id r) (dg_DelegatedToID input) (r_tier r) (r_expires_at r)
         (r_delegation_chain r ++ [hop]));
    _ ← insertApprovalAuditLog
      {| al_request_id := dg_RequestID input; al_event_type := "DELEGATED";
         al_actor_id := a_ID actor; al_decision_text := Some (dg_Reason input);
         al_previous_state := r_status r; al_new_state := "DELEGATED" |};
    approval_PublishEvent (new_event "APPROVAL_DELEGATED"
      (Some (g_case_id gate)) (Some (g_task_id gate))
      (omitempty [("gate_id", r_gate_id r); ("request_id", newRequestID);
                  ("case_id", g_case_id gate); ("task_id", g_task_id gate);
                  ("approver_id", r_approver_id r);
                  ("delegated_to_id", dg_DelegatedToID input);
                  ("request_status", "DELEGATED"); ("reason", dg_Reason input)])).

Definition DelegateRequest (drv : driver) (input : DelegateRequestInput) :=
  transact drv (DelegateRequest_tx input).

(** ** Expiring overdue requests *)

(** A PENDING request past its expiry, with its gate and case. *)
Record expiryCandidate := {
  ec_request : request_row; ec_gate : gate_row; ec_calendar : option string;
}.

Definition join_candidate (db : database) (r : request_row) : list expiryCandidate :=
  match sql_get (by_id g_id (r_gate_id r)) (gates db) with
  | Err _ => []
  | Ok g =>
      match sql_get (by_id c_id (g_case_id g)) (cases db) with
      | Err _ => []
      | Ok c => [{| ec_request := r; ec_gate := g; ec_calendar := c_sla_calendar_id c |}]
      end
  end.

Definition overdue (r : request_row) : bool :=
  (r_status r =?s "PENDING") && (r_expires_at r <? env_now).

Definition expiry_candidates (batchSize : nat) (db : database) : list expiryCandidate :=
  take batchSize (order_by (λ c, r_expires_at (ec_request c))
    (flat_map (join_candidate db) (sql_select overdue (requests db)))).

(** The users table behind an escalation: the manager, or the oldest active user
    of the fallback role. *)
Definition oldest_active (role : string) (us : list user_row) : result user_row :=
  match order_by u_created_at
          (sql_select (λ u, (u_role_code u =?s role) && (u_status u =?s "ACTIVE")) us) with
  | u :: _ => Ok u
  | [] => Err ErrNoRows
  end.

Definition nonempty_text (o : option string) : option string :=
  match o with Some EmptyString => None | _ => o end.

Definition resolveEscalationTarget (approverID : string) (fallbackRole : option string)
    : Tx database string :=
  manager ← tx_attempt (get_in users (by_id u_id approverID));
  managerID ← match manager with
    | Ok u => mret (u_manager_id u)
    | Err ErrNoRows => mret None
    | Err e => throw e
    end;
  match nonempty_text managerID with
  | Some m => mret m
  | None =>
      match nonempty_text fallbackRole with
      | None => mret ""
      | Some role =>
          fallback ← tx_attempt (query (λ db, oldest_active role (users db)));
          match fallback with
          | Ok u => mret (u_id u)
          | Err ErrNoRows => mret ""
          | Err e => throw e
          end
      end
  end.

(** [time.Duration(hours * float64(time.Hour))], for hours in hundredths. *)
Definition hours_duration (hundredths : Z) : Z :=
  trunc (fmul (of_scaled false hundredths 10 (-2)) (of_int Hour)).

Definition computeEscalatedExpiry (start timeoutHours : Z) (calendarID : option string)
    : result Z :=
  let d := hours_duration timeoutHours in
  let d := if d <=? 0 then Hour else d in
  match nonempty_text calendarID with
  | Some cal => bc_add cal start d
  | None => Ok (start + d)
  end.

(** [autoApprove] and [autoReject]: the EXPIRED request is decided by the system. *)
Definition auto_decide (now : Z) (status decision actor event : string) (c : expiryCandidate)
    : Tx database unit :=
  let id := r_id (ec_request c) in
  affected ← update_requests (λ r, (r_id r =?s id) && (r_status r =?s "EXPIRED"))
    (λ r, r <| r_status := status |> <| r_decision ::= λ d, some_or d (Some decision) |>
            <| r_decided_at := Some now |> <| r_decided_by := Some actor |>
            <| r_version ::= Z.succ |>);
  if affected =? 0 then mret tt
  else insertApprovalAuditLog
    {| al_request_id := id; al_event_type := event; al_actor_id := actor;
       al_decision_text := Some decision; al_previous_state := "EXPIRED";
       al_new_state := status |}.

Definition autoApprove (now : Z) : expiryCandidate → Tx database unit :=
  auto_decide now "APPROVED" "AUTO_APPROVED: timeout reached" "SYSTEM_AUTO_APPROVE"
    "AUTO_APPROVED".
Definition autoReject (now : Z) : expiryCandidate → Tx database unit :=
  auto_decide now "REJECTED" "AUTO_REJECTED: timeout reached" "SYSTEM_AUTO_REJECT"
    "AUTO_REJECTED".

Definition escalate (now : Z) (c : expiryCandidate) : Tx database unit :=
  let r := ec_request c in
  escalatedTo ← resolveEscalationTarget (r_approver_id r) (g_fallback_role (ec_gate c));
  if escalatedTo =?s "" then throw (ErrMsg "no escalation target found")
  else
    affected ← update_requests
      (λ r', (r_id r' =?s r_id r) && (r_status r' =?s "EXPIRED"))
      (λ r', r' <| r_status := "DELEGATED" |> <| r_delegated_to_id := Some escalatedTo |>
                <| r_delegated_at := Some now |> <| r_version ::= Z.succ |>);
    if affected =? 0 then mret tt
    else
      newExpiry ← tx_of (computeEscalatedExpiry now (g_timeout_hours (ec_gate c))
                           (ec_calendar c));
      let hop := {| hop_from := r_approver_id r; hop_to := escalatedTo; hop_by := None;
                    hop_at := now |} in
      _ ← insert_request (pending_request (g_id (ec_gate c)) escalatedTo (r_tier r) newExpiry
                            [hop]);
      insertApprovalAuditLog
        {| al_request_id := r_id r; al_event_type := "ESCALATED"; al_actor_id := "SYSTEM";
           al_decision_text := Some "ESCALATED: timeout reached";
           al_previous_state := "EXPIRED"; al_new_state := "DELEGATED" |}.

Definition timeout_action (now : Z) (c : expiryCandidate) : Tx database unit :=
  let action := g_on_timeout_action (ec_gate c) in
  if action =?s "AUTO_APPROVE" then autoApprove now c
  else if action =?s "AUTO_REJECT" then autoReject now c
  else if action =?s "ESCALATE" then escalate now c
  else throw (ErrMsg "unsupported timeout action").

Definition processCandidate (now : Z) (c : expiryCandidate) : Tx database unit :=
  let r := ec_request c in
  let g := ec_gate c in
  affected ← update_requests (λ r', (r_id r' =?s r_id r) && (r_status r' =?s "PENDING"))
    (λ r', r' <| r_status := "EXPIRED" |> <| r_decided_at := Some now |>
              <| r_decided_by := Some "SYSTEM" |> <| r_version ::= Z.succ |>);
  if affected =? 0 then mret tt
  else
    _ ← insertApprovalAuditLog
      {| al_request_id := r_id r; al_event_type := "EXPIRED"; al_actor_id := "SYSTEM";
         al_decision_text := None; al_previous_state := "PENDING"; al_new_state := "EXPIRED" |};
    _ ← timeout_action now c;
    _ ← approval_PublishEvent (new_event "APPROVAL_EXPIRED"
      (Some (g_case_id g)) (Some (g_task_id g))
      (omitempty [("gate_id", g_id g); ("request_id", r_id r); ("case_id", g_case_id g);
                  ("task_id", g_task_id g); ("approver_id", r_approver_id r);
                  ("request_status", "EXPIRED"); ("timeout_action", g_on_timeout_action g);
                  ("reason", "approval_request_expired")]));
    _ ← EvaluateApprovalPolicy (g_id g);
    mret tt.

(** [Run]: a candidate that fails is logged and passed over, in the transaction of
    all the others. *)
Definition sweep_tx (batchSize : nat) : Tx database unit :=
  candidates ← query (λ db, Ok (expiry_candidates batchSize db));
  tx_each (λ c, _ ← tx_attempt (processCandidate env_clock c); mret tt) candidates.

Definition sweep (drv : driver) (batchSize : nat) := within_tx drv (sweep_tx batchSize).

(** ** What the sweep does to requests *)

(** The life of one row: it keeps its identity, never becomes PENDING again, and
    a decision stays. *)
Definition row_kept (r r' : request_row) : Prop :=
  r_id r' = r_id r ∧ (r_status r ≠ "PENDING" → r_status r' ≠ "PENDING") ∧
  (decided (r_status r) → r_status r' = r_status r).

#[export] Instance row_kept_preorder : PreOrder row_kept.
Proof.
  split; [done|]. intros r1 r2 r3 (I1 & P1 & D1) (I2 & P2 & D2). split_and!.
  - congruence.
  - auto.
  - intros Hd. rewrite D2; [by apply D1|]. by rewrite D1.
Qed.

(** Requests are only appended, and the ones there are kept in this sense. *)
Definition requests_kept (db db' : database) : Prop :=
  ∃ old new, requests db' = old ++ new ∧ Forall2 row_kept (requests db) old.

Lemma requests_kept_same db db' : requests db' = requests db → requests_kept db db'.
Proof. intros E. exists (requests db), []. rewrite app_nil_r. split; [done|]. reflexivity. Qed.

#[export] Instance requests_kept_preorder : PreOrder requests_kept.
Proof.
  split; [intros db; by apply requests_kept_same|].
  intros db1 db2 db3 (o1 & n1 & E1 & F1) (o2 & n2 & E2 & F2).
  rewrite E1 in F2. apply Forall2_app_inv_l in F2 as (o21 & o22 & F21 & F22 & ->).
  exists o21, (o22 ++ n2). split; [by rewrite E2, app_assoc|]. by etransitivity.
Qed.

Lemma requests_kept_update p f db :
  (∀ r, p r = true → row_kept r (f r)) →
  requests_kept db (db <| requests := sql_update p f (requests db) |>).
Proof.
  intros Hf. exists (sql_update p f (requests db)), []. rewrite app_nil_r. split; [done|].
  unfold sql_update. apply Forall2_fmap_r, Forall_Forall2_diag, Forall_true.
  intros r. cbn. destruct (p r) eqn:E; [by apply Hf|reflexivity].
Qed.

Lemma requests_kept_insert r db :
  requests_kept db (db <| requests := requests db ++ [r] |>).
Proof. exists (requests db), [r]. split; [done|]. reflexivity. Qed.

(** The three updates of the sweep only take rows that are not decided. *)
Lemma undecided_kept id s r r' :
  s = "PENDING" ∨ s = "EXPIRED" → r_id r' = r_id r → r_status r' ≠ "PENDING" →
  (r_id r =?s id) && (r_status r =?s s) = true → row_kept r r'.
Proof.
  intros Hs Hid Hp [_ Hr]%andb_prop. apply String.eqb_eq in Hr.
  split_and!; [done|done|]. rewrite Hr. by destruct Hs as [-> | ->]; intros [].
Qed.

Lemma same_requests R_ (m : Tx database R_) :
  tx_all keeps_requests m → tx_all requests_kept m.
Proof.
  induction m as [r|X body k IH|X q k IH|k IH]; cbn; [done| | |done].
  - intros [Hb Hk]. split; [|auto]. intros db x db' E. apply Hb in E as [E _].
    by apply requests_kept_same.
  - auto.
Qed.

Lemma sweep_publish event : tx_all requests_kept (approval_PublishEvent event).
Proof. apply same_requests, keeps_publish. Qed.
Lemma sweep_policy gateID : tx_all requests_kept (EvaluateApprovalPolicy gateID).
Proof. apply same_requests, keeps_policy. Qed.
Lemma sweep_audit row : tx_all requests_kept (insertApprovalAuditLog row).
Proof.
  apply tx_all_stmt. intros db x db'. destruct (existsb _ _); [|done]. intros [= _ <-].
  by apply requests_kept_same.
Qed.
Lemma sweep_target a f : tx_all requests_kept (resolveEscalationTarget a f).
Proof. kept_steps. Qed.
#[local] Hint Resolve sweep_publish sweep_policy sweep_audit sweep_target : kept.

Lemma sweep_insert mk : tx_all requests_kept (insert_request mk).
Proof.
  apply tx_all_insert_id. intros db. etransitivity; [apply requests_kept_insert|].
  by apply requests_kept_same.
Qed.
#[local] Hint Resolve sweep_insert : kept.

Lemma sweep_auto now s d a e c : s ≠ "PENDING" → tx_all requests_kept (auto_decide now s d a e c).
Proof. intros Hs. kept_steps. apply requests_kept_update. intros r. by apply undecided_kept; [right|..]. Qed.

Lemma sweep_escalate now c : tx_all requests_kept (escalate now c).
Proof. kept_steps. apply requests_kept_update. intros r. by apply undecided_kept; [right|..]. Qed.

Lemma sweep_action now c : tx_all requests_kept (timeout_action now c).
Proof.
  unfold timeout_action, autoApprove, autoReject.
  repeat case_match; [by apply sweep_auto..|apply sweep_escalate|exact I].
Qed.
#[local] Hint Resolve sweep_action : kept.

Lemma sweep_candidate now c : tx_all requests_kept (processCandidate now c).
Proof. kept_steps. apply requests_kept_update. intros r. by apply undecided_kept; [left|..]. Qed.

(** A candidate that was taken up is not PENDING any more, failed or not. *)
Definition not_pending (id : string) (db : database) (i : nat) : Prop :=
  ∀ r, requests db !! i = Some r → r_id r = id → r_status r ≠ "PENDING".

Lemma not_pending_kept id db db' i :
  requests_kept db db' → (i < length (requests db))%nat →
  not_pending id db i → not_pending id db' i.
Proof.
  intros (old & new & E & HF) Hi Hn r Hr Hid. rewrite E, lookup_app_l in Hr by
    (by rewrite <- (Forall2_length _ _ _ HF)).
  destruct (Forall2_lookup_r _ _ _ _ _ HF Hr) as (r0 & Hr0 & Hk).
  destruct Hk as (Hid0 & Hp & _). apply Hp, (Hn r0 Hr0). congruence.
Qed.

Lemma requests_kept_length db db' :
  requests_kept db db' → (length (requests db) ≤ length (requests db'))%nat.
Proof.
  intros (old & new & -> & HF). rewrite length_app, (Forall2_length _ _ _ HF). lia.
Qed.

Lemma candidate_taken busy now c db r o db' i :
  exec busy (processCandidate now c) 0 db = Some (r, o, db') →
  (i < length (requests db))%nat → not_pending (r_id (ec_request c)) db' i.
Proof.
  intros H Hi. unfold processCandidate in H. rewrite exec_bind in H.
  unfold update_requests, update_in in H. rewrite exec_stmt in H. unfold update_rows in H.
  destruct (forallb _ _); [|done].
  assert (Hn : ∀ f, (∀ r, r_status (f r) ≠ "PENDING"%string) → not_pending (r_id (ec_request c))
    (db <| requests := sql_update (λ r' : request_row,
       (r_id r' =?s r_id (ec_request c)) && (r_status r' =?s "PENDING")) f (requests db) |>) i).
  { intros f Hf r' Hr' Hid. cbn in Hr'. unfold sql_update in Hr'.
    rewrite list_lookup_fmap in Hr'. destruct (requests db !! i) as [r0|]; [|done].
    cbn in Hr'. injection Hr' as <-. revert Hid.
    destruct (String.eqb_spec (r_id r0) (r_id (ec_request c))) as [E|E]; cbn; [|done].
    destruct (String.eqb_spec (r_status r0) "PENDING") as [E'|E']; cbn; [intros _; apply Hf|done]. }
  eapply not_pending_kept; [| |apply Hn].
  - eapply tx_all_exec; [| |exact H]; [exact _|]. kept_steps.
  - cbn. by rewrite sql_update_length.
  - done.
Qed.

Definition sweep_one (now : Z) (c : expiryCandidate) : Tx database unit :=
  _ ← tx_attempt (processCandidate now c); mret tt.

Lemma balanced_target a f : Balanced (resolveEscalationTarget a f).
Proof. unfold resolveEscalationTarget. balance. Qed.
#[local] Hint Resolve balanced_target : balance.
Lemma balanced_insert_request mk : Balanced (insert_request mk).
Proof. apply balanced_insert_id. Qed.
#[local] Hint Resolve balanced_insert_request : balance.
Lemma balanced_action now c : Balanced (timeout_action now c).
Proof. unfold timeout_action, autoApprove, autoReject, auto_decide, escalate. balance. Qed.
#[local] Hint Resolve balanced_action : balance.
Lemma balanced_candidate now c : Balanced (processCandidate now c).
Proof. unfold processCandidate. balance. Qed.

Lemma sweep_one_kept now c : tx_all requests_kept (sweep_one now c).
Proof. unfold sweep_one. apply tx_all_bind; [apply tx_all_attempt, sweep_candidate|done]. Qed.

Lemma candidates_taken busy now l : ∀ db r o db' c i,
  exec busy (tx_each (sweep_one now) l) 0 db = Some (r, o, db') →
  c ∈ l → (i < length (requests db))%nat → not_pending (r_id (ec_request c)) db' i.
Proof.
  induction l as [|c0 l IH]; intros db r o db' c i H Hc Hi; [by apply elem_of_nil in Hc|].
  cbn [tx_each] in H. rewrite exec_bind in H. unfold sweep_one at 1 in H.
  rewrite exec_bind, exec_attempt in H.
  destruct (exec busy (processCandidate now c0) 0 db) as [[[r1 o1] db1]|] eqn:E1; [|done].
  pose proof (balanced_candidate _ _ _ _ _ _ _ _ E1) as ->. cbn in H.
  assert (Hk1 : requests_kept db db1) by
    (eapply tx_all_exec; [exact _|apply sweep_candidate|exact E1]).
  assert (Hi1 : (i < length (requests db1))%nat) by
    (apply requests_kept_length in Hk1; lia).
  apply elem_of_cons in Hc as [->|Hc]; [|by eapply IH].
  eapply not_pending_kept; [|exact Hi1|by eapply candidate_taken].
  eapply tx_all_exec; [exact _| |exact H]. apply tx_all_each. intros. apply sweep_one_kept.
Qed.

(** A committed sweep leaves none of its candidates pending: each is expired
    and decided, escalated, or at least expired, even when its timeout action
    failed; no request becomes pending again, no decision is changed, and
    requests are only added. *)
Theorem sweep_takes_every_candidate drv batchSize db db' :
  sweep drv batchSize db = (Ok tt, db') →
  (∀ c i r, c ∈ expiry_candidates batchSize db → requests db !! i = Some r →
     r_id r = r_id (ec_request c) →
     ∃ r', requests db' !! i = Some r' ∧ r_id r' = r_id r ∧ r_status r' ≠ "PENDING") ∧
  (∀ i r, requests db !! i = Some r →
     ∃ r', requests db' !! i = Some r' ∧ r_id r' = r_id r ∧
       (decided (r_status r) → r_status r' = r_status r)).
Proof.
  intros H%within_tx_commits. unfold sweep_tx in H.
  rewrite commits_bind, commits_query in H by balance.
  assert (Hk : requests_kept db db').
  { eapply (commits_all (busy_while_open drv)); [exact _| |exact H].
    apply tx_all_each. intros c. apply (sweep_one_kept env_clock). }
  pose proof Hk as (old & new & E & HF).
  assert (Hold : ∀ i r, requests db !! i = Some r →
    ∃ r', requests db' !! i = Some r' ∧ row_kept r r').
  { intros i r Hr. destruct (Forall2_lookup_l _ _ _ _ _ HF Hr) as (r' & Hr' & Hrk).
    exists r'. rewrite E. split; [|done]. by apply lookup_app_l_Some. }
  split.
  - intros c i r Hc Hr Hid. destruct (Hold i r Hr) as (r' & Hr' & Hrk & _ & _).
    exists r'. split_and!; [done|done|].
    unfold commits in H. destruct (exec _ _ 0 db) as [[[[[]|e] o] dbx]|] eqn:Ex; [|done..].
    injection H as ->.
    refine (candidates_taken _ env_clock _ db _ _ _ c i Ex Hc _ r' Hr' _).
    + by eapply lookup_lt_Some.
    + congruence.
  - intros i r Hr. destruct (Hold i r Hr) as (r' & Hr' & Hid & _ & Hd). by exists r'.
Qed.

End Gates.

(** ** Runs on concrete gates *)

Definition no_calendar : BusinessClock :=
  {| bc_add := λ _ s d, Ok (s + d); bc_elapsed := λ _ s e, Ok (e - s) |}.

#[local] Abbreviation env25 := (sample_env case_statuses_25).

Definition request_status (db : database) (id : string) : string :=
  match request_of db id with Some r => r_status r | None => "" end.
Definition gate_status (db : database) : list string := map g_status (gates db).
Definition event_types (db : database) : list string := map ev_type (outbox db).

(** Three overdue requests: one to approve, one to escalate to a manager, one with
    nobody to escalate to. *)
Definition overdue_db : database :=
  let g := sample_gate "ALL_MUST_APPROVE" "TERMINAL_FAIL" 1 [] in
  sample_db g [] [sample_request "r1" "alice" "PENDING" None;
                  sample_request "r2" "bob" "PENDING" None]
    <| users := [blank_user "alice" <| u_manager_id := Some "carol"%string |>;
                 blank_user "bob"] |>.

Definition swept_db : database :=
  (sweep (env := env25) (clock := no_calendar) (reliable true) 500 overdue_db).2.

Lemma sweep_takes_every_candidate_witness :
  (sweep (env := env25) (clock := no_calendar) (reliable true) 500 overdue_db).1 = Ok tt ∧
  (∃ r', requests swept_db !! 0%nat = Some r' ∧ r_id r' = "r1" ∧ r_status r' ≠ "PENDING").
Proof.
  split; [vm_compute; reflexivity|].
  destruct (expiry_candidates (env := env25) 500 overdue_db) as [|c l] eqn:E;
    [vm_compute in E; discriminate|].
  apply (sweep_takes_every_candidate (env := env25) (clock := no_calendar)
           (reliable true) 500 overdue_db swept_db) with (c := c) (r := sample_request "r1" "alice" "PENDING" None).
  - vm_compute. reflexivity.
  - rewrite E. left.
  - reflexivity.
  - vm_compute in E. injection E as <- _. reflexivity.
Defined.

(** A request whose escalation finds nobody stays EXPIRED for good: its expiry
    is committed with the rest of the sweep, but the gate is not evaluated, no
    APPROVAL_EXPIRED event is published, and later sweeps, which look for PENDING
    requests only, pass it over; the gate stays open with nobody left to decide. *)
Theorem stranded_escalation :
  let sweep := sweep (env := env25) (clock := no_calendar) (reliable true) 500 in
  let db1 := overdue_db <| requests := [sample_request "r2" "bob" "PENDING" None] |> in
  let db2 := (sweep db1).2 in
  request_status db2 "r2" = "EXPIRED" ∧ gate_status db2 = ["ACTIVE"%string] ∧
  event_types db2 = [] ∧ length (approval_log db2) = 1%nat ∧ sweep db2 = (Ok tt, db2).
Proof. vm_compute. repeat split. Qed.

(** The tiers of a chain do not hold a gate back: the gate's own policy counts
    the requests of the first tier only, so one approval there satisfies the gate
    and unblocks its task while the chain still waits for its second tier. *)
Theorem first_tier_satisfies_gate :
  let tiers := [{| tier_no := 1; tier_policy := ""; tier_can_skip_if := "";
                   tier_required_if := "" |};
                {| tier_no := 2; tier_policy := ""; tier_can_skip_if := "";
                   tier_required_if := "" |}] in
  let db := sample_db (sample_gate "ALL_MUST_APPROVE" "TERMINAL_FAIL" 1 tiers)
              [sample_chain tiers] [sample_request "r1" "alice" "PENDING" (Some 1)] in
  let '(r, db') := ApproveRequest (env := env25) (reliable true)
                     (decision_by "alice" "r1" "fine") db in
  r = Ok tt ∧ gate_status db' = ["SATISFIED"%string] ∧
  map (λ c, (ch_current_tier c, ch_chain_status c)) (chains db') = [(2, "IN_PROGRESS"%string)] ∧
  map t_status (tasks db') = ["PENDING"; "PENDING"]%string ∧ length (requests db') = 1%nat.
Proof. vm_compute. repeat split. Qed.

(** One person can fill a quorum of two: the delegate of a request may decide
    both the request delegated to him and the new one created for him, and the two
    approvals count twice; the second approver is never heard. *)
Theorem delegate_counts_twice :
  let db0 := sample_db (sample_gate "ANY_CAN_APPROVE" "TERMINAL_FAIL" 2 []) []
               [sample_request "r1" "alice" "PENDING" None;
                sample_request "r2" "carol" "PENDING" None] in
  let delegation := {| dg_RequestID := "r1"; dg_Actor := sample_approver;
                       dg_DelegatedToID := "bob"; dg_Reason := "leave" |} in
  let '(s1, db1) := DelegateRequest (env := env25) (reliable true) delegation db0 in
  let '(s2, db2) := ApproveRequest (env := env25) (reliable true)
                      (decision_by "bob" "uuid-0" "fine") db1 in
  let '(s3, db3) := ApproveRequest (env := env25) (reliable true)
                      (decision_by "bob" "r1" "fine") db2 in
  (s1, s2, s3) = (Ok tt, Ok tt, Ok tt) ∧ gate_status db2 = ["ACTIVE"%string] ∧
  gate_status db3 = ["SATISFIED"%string] ∧ request_status db3 "r2" = "PENDING" ∧
  map r_decided_by (List.filter (λ r, r_status r =?s "APPROVED") (requests db3)) =
    [Some "bob"; Some "bob"]%string.
Proof. vm_compute. repeat split. Qed.
