(* ===== verification/CaseLifecycle.v ===== *)
(** * The life cycle of a case (internal/engine/lifecycle.go, with the case
    statements of internal/repository/case_repo.go)

    Suspending, resuming, releasing, withdrawing, force-closing and cloning a case,
    each one transaction over the database, with the pause and resume records of
    its SLA clocks. *)

From Stdlib Require Import Ascii String ZArith Lia.
From stdpp Require Import base list strings sets.
From S2P Require Import Prelude ApprovalExpr SqlTx CaseConfig Schema Outbox.

Open Scope Z_scope.
Open Scope go_scope.

(** ** The state machine *)

Definition lifecycle_targets (currentStatus : string) : list string :=
  if currentStatus =?s "OPEN" then ["IN_PROGRESS"; "CANCELLED"; "SUSPENDED"]
  else if currentStatus =?s "IN_PROGRESS" then
    ["COMPLETED"; "CANCELLED"; "SUSPENDED"; "ALLOCATABLE"]
  else if currentStatus =?s "SUSPENDED" then ["IN_PROGRESS"; "CANCELLED"]
  else if currentStatus =?s "CLONED" then ["OPEN"; "IN_PROGRESS"]
  else [].

Definition ValidateLifecycleTransition (currentStatus requestedStatus initiatedBy : string)
    : result unit :=
  if str_mem requestedStatus (lifecycle_targets currentStatus) then Ok tt
  else Err (ErrInvalidStateTransition currentStatus requestedStatus).

(** [CaseInstance.IsTerminal] *)
Definition IsTerminal (c : case_row) : bool :=
  (c_status c =?s "COMPLETED") || (c_status c =?s "CANCELLED") || (c_status c =?s "REJECTED").

(** ** Column updates

    [UpdateCaseLifecycle] takes a map from column names to values and builds the
    statement from it; only listed columns are let through. *)

Inductive colval :=
  | ColNull | ColText (s : string) | ColTime (t : Z) | ColInt (n : Z) | ColJson (v : value).

Definition allowedCaseColumns : list string :=
  ["suspend_reason"; "resume_at"; "withdrawal_reason"; "emergency_reason";
   "emergency_closed_at"; "supervisor_id"; "completed_at"; "metadata"; "assigned_to";
   "current_stage_code"; "current_stage_ordinal"].

Definition text_or_null (v : colval) : option (option string) :=
  match v with ColNull => Some None | ColText s => Some (Some s) | _ => None end.
Definition time_or_null (v : colval) : option (option Z) :=
  match v with ColNull => Some None | ColTime t => Some (Some t) | _ => None end.

(** [SET col = v]: [None] when the value does not have the column's type. *)
Definition set_column (col : string) (v : colval) (c : case_row) : option case_row :=
  if col =?s "suspend_reason" then (λ x, c <| c_suspend_reason := x |>) <$> text_or_null v
  else if col =?s "resume_at" then (λ x, c <| c_resume_at := x |>) <$> time_or_null v
  else if col =?s "withdrawal_reason" then
    (λ x, c <| c_withdrawal_reason := x |>) <$> text_or_null v
  else if col =?s "emergency_reason" then
    (λ x, c <| c_emergency_reason := x |>) <$> text_or_null v
  else if col =?s "emergency_closed_at" then
    (λ x, c <| c_emergency_closed_at := x |>) <$> time_or_null v
  else if col =?s "supervisor_id" then (λ x, c <| c_supervisor_id := x |>) <$> text_or_null v
  else if col =?s "completed_at" then (λ x, c <| c_completed_at := x |>) <$> time_or_null v
  else if col =?s "metadata" then
    match v with ColJson j => Some (c <| c_metadata := j |>) | _ => None end
  else if col =?s "assigned_to" then (λ x, c <| c_assigned_to := x |>) <$> text_or_null v
  else if col =?s "current_stage_code" then
    (λ x, c <| c_current_stage_code := x |>) <$> text_or_null v
  else if col =?s "current_stage_ordinal" then
    match v with ColInt n => Some (c <| c_current_stage_ordinal := n |>) | _ => None end
  else None.

Fixpoint set_columns (updates : list (string * colval)) (c : case_row) : option case_row :=
  match updates with
  | [] => Some c
  | (col, v) :: updates => set_column col v c ≫= set_columns updates
  end.

(** The repository behind the engine: the services write SLA logs only when it is
    the concrete one, and ask the calendar only when it has a second handle. *)
Record repo_kind := { repo_concrete : bool; repo_has_sqlx : bool }.

Section Lifecycle.
Context `{env : Env} `{clock : BusinessClock} (repo : repo_kind).

Definition update_case_row (p : case_row → bool) (f : case_row → case_row) : Tx database Z :=
  update_in cases case_check p f.
Definition update_task_rows (p : task_row → bool) (f : task_row → task_row) : Tx database Z :=
  update_in tasks task_check p f.

Definition UpdateCaseLifecycle (caseID status : string) (updates : list (string * colval))
    : Tx database unit :=
  if negb (forallb (λ u, str_mem u.1 allowedCaseColumns) updates)
  then throw (ErrMsg "disallowed column")
  else
    n ← stmt (λ db,
      let set_row c := default c (set_columns updates
            (c <| c_status := status |> <| c_row_version ::= Z.succ |>)) in
      if forallb (λ c, negb (by_id c_id caseID c) ||
                       bool_decide (is_Some (set_columns updates c))) (cases db)
      then match update_rows case_check (by_id c_id caseID) set_row (cases db) with
           | Ok (n, rows) => Ok (n, db <| cases := rows |>)
           | Err e => Err e
           end
      else Err ErrSQL);
    if n =? 0 then throw (ErrMsg "case not found") else mret tt.

(** [GetCaseInstance] and [GetCaseInstanceWithLock]. *)
Definition GetCaseInstance (caseID : string) : Tx database case_row :=
  get_in cases (by_id c_id caseID).

Definition in_flight (t : task_row) : bool :=
  str_mem (t_status t) ["PENDING"; "ASSIGNED"; "IN_PROGRESS"; "AWAITING_EXTERNAL"].
Definition case_in_flight (caseID : string) (t : task_row) : bool :=
  (t_case_id t =?s caseID) && in_flight t.

(** Back to PENDING, without an owner. *)
Definition reset_task (t : task_row) : task_row :=
  t <| t_status := "PENDING" |> <| t_assigned_service := None |> <| t_assignee_id := None |>
    <| t_assigned_at := None |> <| t_version ::= Z.succ |>.

Definition unfinished (t : task_row) : bool :=
  negb (str_mem (t_status t) ["COMPLETED"; "CANCELLED"; "SKIPPED"; "FAILED"]).
Definition cancel_unfinished (caseID : string) : Tx database Z :=
  update_task_rows (λ t, (t_case_id t =?s caseID) && unfinished t)
    (λ t, t <| t_status := "CANCELLED" |> <| t_completed_at := Some env_now |>
            <| t_version ::= Z.succ |>).

(** ** SLA pause and resume records *)

(** [Duration.Milliseconds()] *)
Definition milliseconds (d : Z) : Z := int_div d Millisecond.

(** Business time spent so far, in milliseconds; 0 without a calendar. *)
Definition elapsed_ms (calendar : option string) (start now : Z) : result Z :=
  match calendar with
  | Some cal =>
      if repo_has_sqlx repo && negb (cal =?s "")
      then milliseconds <$> bc_elapsed cal start now else Ok 0
  | None => Ok 0
  end.

Definition log_pause (entity_type entity_id : string) (paused_at : Z) (resumed_at : option Z)
    (reason : string) (elapsed : Z) (action : string) : Tx database unit :=
  insert_in pause_log pause_check never_conflict
    {| pl_entity_type := entity_type; pl_entity_id := entity_id; pl_paused_at := paused_at;
       pl_resumed_at := resumed_at; pl_reason := reason; pl_elapsed_ms := elapsed;
       pl_action := action; pl_created_at := env_now |}.

Definition publish_sla (eventType caseID reason : string) (taskID : option string)
    : Tx database unit :=
  PublishEvent (new_event eventType (Some caseID) taskID
    ([("entity_type", VString (match taskID with Some _ => "TASK" | None => "CASE" end));
      ("entity_id", VString (default caseID taskID)); ("case_id", VString caseID)] ++
     match taskID with Some id => [("task_id"%string, VString id)] | None => [] end ++
     [("reason"%string, VString reason)])).

Definition sql_rows {R} (tbl : database → list R) (p : R → bool) (db : database)
    : result (list R) := Ok (sql_select p (tbl db)).

Definition pause_task (caseID reason : string) (t : task_row) : Tx database unit :=
  elapsed ← tx_of (elapsed_ms (t_sla_calendar_id t)
                     (default (t_created_at t) (t_effective_start_time t)) env_clock);
  _ ← log_pause "TASK" (t_id t) env_clock None reason elapsed "PAUSE";
  publish_sla "SLA_PAUSED" caseID reason (Some (t_id t)).

Definition appendCaseSLAPauseLogs (caseID reason : string) : Tx database unit :=
  if negb (repo_concrete repo) then mret tt
  else
    c ← GetCaseInstance caseID;
    elapsed ← tx_of (elapsed_ms (c_sla_calendar_id c)
                       (default (c_created_at c) (c_effective_start_time c)) env_clock);
    _ ← log_pause "CASE" caseID env_clock None reason elapsed "PAUSE";
    _ ← publish_sla "SLA_PAUSED" caseID reason None;
    with_rows (sql_rows tasks (case_in_flight caseID)) (pause_task caseID reason).

(** The latest PAUSE record of an entity ([ORDER BY created_at DESC LIMIT 1]). *)
Definition is_pause (entity_type entity_id : string) (p : pause_row) : bool :=
  (pl_entity_type p =?s entity_type) && (pl_entity_id p =?s entity_id) &&
  (pl_action p =?s "PAUSE").
Definition later_pause (best : option pause_row) (p : pause_row) : option pause_row :=
  match best with
  | Some b => if pl_created_at b <=? pl_created_at p then Some p else best
  | None => Some p
  end.
Definition latest_pause (entity_type entity_id : string) (db : database) : option pause_row :=
  fold_left later_pause (sql_select (is_pause entity_type entity_id) (pause_log db)) None.

(** The time left of a duration, and the new due date. *)
Definition remaining (duration_ms elapsed : Z) : Z :=
  let r := wrap64 ((duration_ms - elapsed) * Millisecond) in if r <? 0 then 0 else r.
Definition new_due (calendar : option string) (now left : Z) : result Z :=
  match calendar with
  | Some cal =>
      if repo_has_sqlx repo && negb (cal =?s "") then bc_add cal now left
      else Ok (now + left)
  | None => Ok (now + left)
  end.

Definition resume_case_clock (caseID : string) (c : case_row) (elapsed : Z) : Tx database unit :=
  match c_sla_duration_ms c with
  | Some duration =>
      if 0 <? duration then
        due ← tx_of (new_due (c_sla_calendar_id c) env_clock (remaining duration elapsed));
        _ ← update_case_row (by_id c_id caseID)
          (λ c, c <| c_effective_start_time := Some env_clock |> <| c_due_at := Some due |>
                  <| c_sla_warning_issued_at := None |> <| c_sla_critical_issued_at := None |>
                  <| c_row_version ::= Z.succ |>);
        mret tt
      else mret tt
  | None => mret tt
  end.

Definition resume_task_clock (t : task_row) (elapsed : Z) : Tx database unit :=
  match t_sla_duration_ms t with
  | Some duration =>
      if 0 <? duration then
        due ← tx_of (new_due (t_sla_calendar_id t) env_clock (remaining duration elapsed));
        _ ← update_task_rows (by_id t_id (t_id t))
          (λ t, t <| t_effective_start_time := Some env_clock |> <| t_task_due_at := Some due |>
                  <| t_due_at := Some due |> <| t_sla_warning_issued_at := None |>
                  <| t_sla_critical_issued_at := None |> <| t_version ::= Z.succ |>);
        mret tt
      else mret tt
  | None => mret tt
  end.

(** A pause record that cannot be read counts as a pause without elapsed time. *)
Definition resume_task (caseID reason : string) (t : task_row) : Tx database unit :=
  pause ← tx_attempt (query (λ db,
    match latest_pause "TASK" (t_id t) db with
    | Some p => Ok (pl_paused_at p, pl_elapsed_ms p)
    | None => Err ErrNoRows
    end));
  let '(pausedAt, elapsed) := match pause with Ok p => p | Err _ => (env_clock, 0) end in
  _ ← resume_task_clock t elapsed;
  _ ← log_pause "TASK" (t_id t) pausedAt (Some env_clock) reason elapsed "RESUME";
  publish_sla "SLA_RESUMED" caseID reason (Some (t_id t)).

Definition appendCaseSLAResumeLogs (caseID reason : string) : Tx database unit :=
  if negb (repo_concrete repo) then mret tt
  else
    '(c, pausedAt, elapsed) ← query (λ db,
      c ← sql_get (by_id c_id caseID) (cases db);
      match latest_pause "CASE" caseID db with
      | Some p => Ok (c, pl_paused_at p, pl_elapsed_ms p)
      | None => Ok (c, env_now, 0)
      end);
    _ ← resume_case_clock caseID c elapsed;
    _ ← log_pause "CASE" caseID pausedAt (Some env_clock) reason elapsed "RESUME";
    _ ← publish_sla "SLA_RESUMED" caseID reason None;
    with_rows (sql_rows tasks (case_in_flight caseID)) (resume_task caseID reason).

(** ** The operations *)

Definition lifecycle_event (eventType caseID : string) (payload : list (string * value))
    : Tx database unit :=
  PublishEvent (new_event eventType (Some caseID) None payload).

Definition time_value (t : option Z) : value :=
  match t with Some t => VOther t | None => VNil end.

Definition SuspendCase_tx (caseID reason : string) (resumeAt : option Z) : Tx database unit :=
  c ← GetCaseInstance caseID;
  _ ← tx_of (ValidateLifecycleTransition (c_status c) "SUSPENDED" "system");
  _ ← UpdateCaseLifecycle caseID "SUSPENDED"
    [("suspend_reason"%string, ColText reason);
     ("resume_at"%string, match resumeAt with Some t => ColTime t | None => ColNull end)];
  _ ← update_task_rows (case_in_flight caseID) reset_task;
  _ ← appendCaseSLAPauseLogs caseID "CASE_SUSPENDED";
  lifecycle_event "CASE_SUSPENDED" caseID
    [("case_id", VString caseID); ("reason", VString reason); ("resume_at", time_value resumeAt)].

Definition queued (caseID : string) (t : task_row) : bool :=
  (t_case_id t =?s caseID) && (t_status t =?s "PENDING") &&
  match t_workbasket_id t with Some _ => true | None => false end.
Definition requeue (caseID : string) (t : task_row) : Tx database unit :=
  PublishEvent (new_event "TASK_QUEUED" (Some caseID) (Some (t_id t))
    [("task_id", VString (t_id t));
     ("workbasket_id", match t_workbasket_id t with Some w => VString w | None => VNil end)]).

Definition ResumeCase_tx (caseID : string) : Tx database unit :=
  c ← GetCaseInstance caseID;
  _ ← tx_of (ValidateLifecycleTransition (c_status c) "IN_PROGRESS" "system");
  _ ← UpdateCaseLifecycle caseID "IN_PROGRESS"
    [("resume_at"%string, ColNull); ("suspend_reason"%string, ColNull)];
  _ ← update_task_rows (λ t, (t_case_id t =?s caseID) && (t_status t =?s "PENDING"))
    (λ t, t <| t_version ::= Z.succ |>);
  _ ← with_rows (sql_rows tasks (queued caseID)) (requeue caseID);
  _ ← appendCaseSLAResumeLogs caseID "CASE_RESUMED";
  lifecycle_event "CASE_RESUMED" caseID [].

Definition ReleaseCase_tx (caseID userID : string) : Tx database unit :=
  c ← GetCaseInstance caseID;
  _ ← tx_of (ValidateLifecycleTransition (c_status c) "ALLOCATABLE" userID);
  _ ← update_case_row (by_id c_id caseID)
    (λ c, c <| c_status := "ALLOCATABLE" |> <| c_assigned_user_id := None |>
            <| c_row_version ::= Z.succ |>);
  _ ← update_task_rows
    (λ t, (t_case_id t =?s caseID) &&
          str_mem (t_status t) ["ASSIGNED"; "IN_PROGRESS"; "AWAITING_EXTERNAL"]) reset_task;
  lifecycle_event "CASE_RELEASED" caseID
    [("case_id", VString caseID); ("released_by", VString userID);
     ("released_at", VOther env_clock)].

Definition WithdrawCase_tx (caseID reason : string) : Tx database unit :=
  c ← GetCaseInstance caseID;
  _ ← tx_of (ValidateLifecycleTransition (c_status c) "CANCELLED" "applicant");
  _ ← UpdateCaseLifecycle caseID "CANCELLED"
    [("withdrawal_reason"%string, ColText reason); ("completed_at"%string, ColTime env_clock)];
  _ ← cancel_unfinished caseID;
  lifecycle_event "CASE_WITHDRAWN" caseID
    [("case_id", VString caseID); ("reason", VString reason)].

Definition valid_token (token : string) (k : token_row) : bool :=
  (fe_token k =?s token) && (env_now <? fe_expires_at k) &&
  match fe_consumed_at k with None => true | Some _ => false end.

Definition EmergencyClose_tx (caseID reason supervisorID fourEyesToken : string)
    : Tx database unit :=
  found ← tx_attempt (get_in tokens (valid_token fourEyesToken));
  match found with
  | Err _ => throw ErrFourEyesTokenInvalid
  | Ok k =>
      if negb (fe_case_id k =?s caseID) then throw ErrFourEyesTokenInvalid
      else if fe_issuer_id k =?s supervisorID then throw ErrFourEyesSameSupervisor
      else
        _ ← update_in tokens no_check (by_id fe_token fourEyesToken)
          (λ k, k <| fe_consumed_at := Some env_now |> <| fe_consumed_by := Some supervisorID |>);
        c ← GetCaseInstance caseID;
        if IsTerminal c then throw ErrCaseTerminal
        else
          _ ← tx_of (ValidateLifecycleTransition (c_status c) "CANCELLED" supervisorID);
          _ ← UpdateCaseLifecycle caseID "CANCELLED"
            [("emergency_reason"%string, ColText reason);
             ("supervisor_id"%string, ColText supervisorID);
             ("emergency_closed_at"%string, ColTime env_clock);
             ("completed_at"%string, ColTime env_clock)];
          _ ← cancel_unfinished caseID;
          lifecycle_event "CASE_EMERGENCY_CLOSED" caseID
            [("case_id", VString caseID); ("reason", VString reason);
             ("supervisor_id", VString supervisorID); ("approver_id", VString (fe_issuer_id k));
             ("four_eyes_token", VString fourEyesToken)]
  end.

(** The statements of [Repository.CloneCase]. *)
Definition cloned_case (source : case_row) (id : string) : case_row :=
  source <| c_id := id |> <| c_source_case_id := Some (c_id source) |> <| c_status := "CLONED" |>
         <| c_assigned_to := None |> <| c_assigned_user_id := None |>
         <| c_rework_count := 0 |> <| c_max_rework_attempts := 3 |> <| c_row_version := 1 |>
         <| c_created_at := env_now |> <| c_completed_at := None |>
         <| c_suspend_reason := None |> <| c_resume_at := None |>
         <| c_withdrawal_reason := None |> <| c_emergency_closed_at := None |>
         <| c_emergency_reason := None |> <| c_supervisor_id := None |>
         <| c_effective_start_time := None |> <| c_due_at := None |>
         <| c_sla_duration_ms := None |> <| c_sla_calendar_id := None |>
         <| c_sla_warning_issued_at := None |> <| c_sla_critical_issued_at := None |>
         <| c_case_type_version_id := Some (default (c_case_type_id source) (c_case_type_version_id source)) |>
         <| c_exception_at := None |> <| c_exception_reason := None |>
         <| c_exception_task_id := None |> <| c_exception_severity := None |>.

Definition cloned_task (caseID : string) (source : task_row) (id : string) : task_row :=
  source <| t_id := id |> <| t_case_id := caseID |> <| t_status := "PENDING" |>
         <| t_assigned_service := None |> <| t_assignee_id := None |> <| t_assigned_at := None |>
         <| t_last_heartbeat_at := None |> <| t_completed_at := None |> <| t_version := 1 |>
         <| t_created_at := env_now |> <| t_workbasket_id := None |>
         <| t_effective_start_time := None |> <| t_task_due_at := None |>
         <| t_sla_duration_ms := None |> <| t_sla_calendar_id := None |>
         <| t_sla_warning_issued_at := None |> <| t_sla_critical_issued_at := None |>
         <| t_idempotency_key ::= λ k, "cloned-" +:+ caseID +:+ "-" +:+ k |>
         <| t_error_reason := None |> <| t_requires_approval := false |>
         <| t_approval_gate_id := None |> <| t_approval_amount := None |>
         <| t_tenant_id := DefaultTenantID |> <| t_assigned_team_id := None |>
         <| t_is_document_verification := false |> <| t_started_at := None |>
         <| t_retry_count := 0 |> <| t_total_failure_count := 0 |> <| t_next_retry_at := None |>
         <| t_output_payload := VMap [] |> <| t_error_detail := None |>
         <| t_last_error_code := None |> <| t_last_error_class := None |>
         <| t_is_poison_pill := false |> <| t_poison_pill_quarantined_at := None |>
         <| t_poison_pill_reason := None |> <| t_sla_warning_pct := None |>
         <| t_sla_critical_pct := None |> <| t_sla_breach_action := None |>
         <| t_assigned_user_id := None |> <| t_required_skills := Some [] |>.

Fixpoint clone_tasks (caseID : string) (sources : list task_row) (n : nat) : list task_row :=
  match sources with
  | [] => []
  | t :: sources => cloned_task caseID t (env_uuid n) :: clone_tasks caseID sources (S n)
  end.

(** An insert of several rows: all or none. *)
Fixpoint insert_rows {R} (check : R → bool) (conflict : R → R → bool) (rs rows : list R)
    : result (list R) :=
  match rs with
  | [] => Ok rows
  | r :: rs => insert_row check conflict r rows ≫= insert_rows check conflict rs
  end.

Definition insert_cloned_case (sourceCaseID : string) : Tx database string :=
  stmt (λ db,
    source ← sql_get (by_id c_id sourceCaseID) (cases db);
    let id := env_uuid (uuid_pos db) in
    rows ← insert_row case_check (λ c c', c_id c =?s c_id c') (cloned_case source id) (cases db);
    Ok (id, db <| cases := rows |> <| uuid_pos ::= S |>)).

Definition repository_CloneCase (sourceCaseID : string) : Tx database string :=
  newCaseID ← insert_cloned_case sourceCaseID;
  _ ← stmt (λ db,
    let sources := sql_select (by_id t_case_id sourceCaseID) (tasks db) in
    rows ← insert_rows (λ t, task_check t && default_tenant db (t_case_id t)) task_conflict
             (clone_tasks newCaseID sources (uuid_pos db)) (tasks db);
    Ok (tt, db <| tasks := rows |> <| uuid_pos ::= λ n, n + length sources |>%nat));
  mret newCaseID.

Definition CloneCase_tx (sourceCaseID : string) : Tx database string :=
  _ ← GetCaseInstance sourceCaseID;
  newCaseID ← repository_CloneCase sourceCaseID;
  _ ← lifecycle_event "CASE_CLONED" newCaseID
    [("source_case_id", VString sourceCaseID); ("new_case_id", VString newCaseID);
     ("cloned_at", VOther env_clock)];
  mret newCaseID.

End Lifecycle.

(** ** The engine's methods *)

Section Engine.
Context `{env : Env} `{clock : BusinessClock} (repo : repo_kind) (drv : driver).

Definition SuspendCase caseID reason resumeAt :=
  within_tx drv (SuspendCase_tx repo caseID reason resumeAt).
Definition ResumeCase caseID := within_tx drv (ResumeCase_tx repo caseID).
Definition ReleaseCase caseID userID := within_tx drv (ReleaseCase_tx caseID userID).
Definition WithdrawCase caseID reason := within_tx drv (WithdrawCase_tx caseID reason).
Definition CloneCase sourceCaseID := within_tx drv (CloneCase_tx sourceCaseID).
Definition EmergencyClose (caseID reason supervisorID fourEyesToken : string) (db : database)
    : result unit * database :=
  if fourEyesToken =?s "" then (Err ErrFourEyesTokenRequired, db)
  else within_tx drv (EmergencyClose_tx caseID reason supervisorID fourEyesToken) db.
End Engine.

(** ** Structure of the programs *)

Section Structure.
Context `{env : Env} `{clock : BusinessClock} (repo : repo_kind).

Lemma balanced_lifecycle_event e c p : Balanced (lifecycle_event e c p).
Proof. unfold lifecycle_event. balance. Qed.
#[local] Hint Resolve balanced_lifecycle_event : balance.
Lemma balanced_update_case_row p f : Balanced (update_case_row p f).
Proof. apply balanced_update. Qed.
Lemma balanced_update_task_rows p f : Balanced (update_task_rows p f).
Proof. apply balanced_update. Qed.
#[local] Hint Resolve balanced_update_case_row balanced_update_task_rows : balance.
Lemma balanced_GetCaseInstance id : Balanced (GetCaseInstance id).
Proof. apply balanced_get. Qed.
#[local] Hint Resolve balanced_GetCaseInstance : balance.
Lemma balanced_UpdateCaseLifecycle id s u : Balanced (UpdateCaseLifecycle id s u).
Proof. unfold UpdateCaseLifecycle. balance. Qed.
#[local] Hint Resolve balanced_UpdateCaseLifecycle : balance.
Lemma balanced_cancel_unfinished id : Balanced (cancel_unfinished id).
Proof. unfold cancel_unfinished. balance. Qed.
#[local] Hint Resolve balanced_cancel_unfinished : balance.
Lemma balanced_log_pause a b c d e f g : Balanced (log_pause a b c d e f g).
Proof. apply balanced_insert. Qed.
Lemma balanced_publish_sla a b c d : Balanced (publish_sla a b c d).
Proof. apply balanced_publish_event. Qed.
#[local] Hint Resolve balanced_log_pause balanced_publish_sla : balance.
Lemma balanced_pause_logs id r : Balanced (appendCaseSLAPauseLogs repo id r).
Proof. unfold appendCaseSLAPauseLogs, pause_task. balance. Qed.
Lemma balanced_resume_task id r t : Balanced (resume_task repo id r t).
Proof. unfold resume_task, resume_task_clock. balance. Qed.
#[local] Hint Resolve balanced_resume_task : balance.
Lemma balanced_resume_case_clock id c e : Balanced (resume_case_clock repo id c e).
Proof. unfold resume_case_clock. balance. Qed.
#[local] Hint Resolve balanced_resume_case_clock : balance.
Lemma balanced_requeue id t : Balanced (requeue id t).
Proof. apply balanced_publish_event. Qed.
Lemma balanced_resume_logs id r : Balanced (appendCaseSLAResumeLogs repo id r).
Proof. unfold appendCaseSLAResumeLogs. balance. Qed.
End Structure.

#[export] Hint Resolve balanced_lifecycle_event balanced_update_case_row
  balanced_update_task_rows balanced_GetCaseInstance balanced_UpdateCaseLifecycle
  balanced_cancel_unfinished balanced_log_pause balanced_publish_sla balanced_pause_logs
  balanced_resume_task balanced_resume_case_clock balanced_resume_logs balanced_requeue : balance.

(** ** What the steps keep *)

Definition case_of (db : database) (id : string) : result case_row :=
  sql_get (by_id c_id id) (cases db).

Section Kept.
Context `{env : Env} `{clock : BusinessClock} (repo : repo_kind) (caseID : string).

(** The statuses of all cases, and every other case, are as before. *)
Definition statuses_kept (db db' : database) : Prop :=
  (∀ id, c_status <$> case_of db' id = c_status <$> case_of db id) ∧
  (∀ id, id ≠ caseID → case_of db' id = case_of db id).

#[export] Instance statuses_kept_preorder : PreOrder statuses_kept.
Proof.
  split; [by split|]. intros db1 db2 db3 [S1 O1] [S2 O2]. split; intros.
  - by rewrite S2.
  - by rewrite O2, O1.
Qed.

Lemma statuses_kept_same db db' : cases db' = cases db → statuses_kept db db'.
Proof. unfold statuses_kept, case_of. by intros ->. Qed.

Lemma case_of_update p f db id :
  (∀ c, c_id (f c) = c_id c) →
  case_of (db <| cases := sql_update p f (cases db) |>) id =
    (λ c, if p c then f c else c) <$> case_of db id.
Proof. intros Hf. unfold case_of, by_id. by apply sql_get_update. Qed.

Lemma case_of_id db id c : case_of db id = Ok c → c_id c = id.
Proof. intros [_ H]%sql_get_Ok. by apply String.eqb_eq. Qed.

Lemma statuses_kept_update f db :
  (∀ c, c_id (f c) = c_id c) → (∀ c, c_status (f c) = c_status c) →
  statuses_kept db (db <| cases := sql_update (by_id c_id caseID) f (cases db) |>).
Proof.
  intros Hid Hst. split; intros id.
  - rewrite case_of_update by done. destruct (case_of db id) as [c|]; cbn; [|done].
    by destruct (by_id c_id caseID c); rewrite ?Hst.
  - intros Hne. rewrite case_of_update by done.
    destruct (case_of db id) as [c|] eqn:E; cbn; [|done].
    apply case_of_id in E. unfold by_id. rewrite E.
    by destruct (String.eqb_spec id caseID).
Qed.

Lemma statuses_publish event : tx_all statuses_kept (PublishEvent event).
Proof. kept_steps; simplify_eq; by apply statuses_kept_same. Qed.
#[local] Hint Resolve statuses_publish : kept.

Lemma statuses_pause reason : tx_all statuses_kept (appendCaseSLAPauseLogs repo caseID reason).
Proof. kept_steps; by apply statuses_kept_same. Qed.

Lemma statuses_resume reason : tx_all statuses_kept (appendCaseSLAResumeLogs repo caseID reason).
Proof. kept_steps; try (by apply statuses_kept_same). by apply statuses_kept_update. Qed.

Lemma statuses_tasks p f : tx_all statuses_kept (update_task_rows p f).
Proof. kept_steps. by apply statuses_kept_same. Qed.

(** The tasks are as before, up to their SLA clocks. *)
Definition task_core (t : task_row) : string * string * string * option string :=
  (t_id t, t_case_id t, t_status t, t_assignee_id t).
Definition tasks_kept (db db' : database) : Prop :=
  map task_core (tasks db') = map task_core (tasks db).

#[export] Instance tasks_kept_preorder : PreOrder tasks_kept.
Proof. split; [done|]. intros ????. unfold tasks_kept. congruence. Qed.

Lemma tasks_kept_same db db' : tasks db' = tasks db → tasks_kept db db'.
Proof. unfold tasks_kept. by intros ->. Qed.

Lemma tasks_publish event : tx_all tasks_kept (PublishEvent event).
Proof. kept_steps; simplify_eq; by apply tasks_kept_same. Qed.
#[local] Hint Resolve tasks_publish : kept.

Lemma tasks_pause reason : tx_all tasks_kept (appendCaseSLAPauseLogs repo caseID reason).
Proof. kept_steps; by apply tasks_kept_same. Qed.
Lemma tasks_resume reason : tx_all tasks_kept (appendCaseSLAResumeLogs repo caseID reason).
Proof.
  kept_steps; try (by apply tasks_kept_same). by apply sql_update_map.
Qed.

(** A property of the core of every task is kept. *)
Lemma tasks_kept_elem db db' (P : string * string * string * option string → Prop) :
  tasks_kept db db' →
  (∀ t, t ∈ tasks db → P (task_core t)) → (∀ t, t ∈ tasks db' → P (task_core t)).
Proof.
  intros Hk HP t Ht.
  assert (task_core t ∈ map task_core (tasks db)) as Hin.
  { rewrite <- Hk. apply list_elem_of_In, in_map, list_elem_of_In. done. }
  apply list_elem_of_In, in_map_iff in Hin as (t0 & <- & Ht0).
  apply HP, list_elem_of_In. done.
Qed.
End Kept.

#[export] Hint Resolve statuses_publish statuses_pause statuses_resume statuses_tasks
  tasks_publish tasks_pause tasks_resume : kept.

(** ** The update of a case row *)

(** What the SLA clock of a case is computed from, and its due date. *)
Definition sla_clock (c : case_row)
    : option string * option Z * option Z * Z * option Z :=
  (c_sla_calendar_id c, c_sla_duration_ms c, c_effective_start_time c, c_created_at c, c_due_at c).

Definition row_key (c : case_row) := (c_id c, c_status c, c_row_version c, sla_clock c).

Lemma set_column_key col v c c' : set_column col v c = Some c' → row_key c' = row_key c.
Proof.
  unfold set_column, text_or_null, time_or_null. intros H.
  repeat match type of H with
  | (if ?b then _ else _) = _ => destruct b
  | (_ <$> match ?x with _ => _ end) = _ => destruct x
  | match ?x with _ => _ end = _ => destruct x
  end; cbn in H; by simplify_eq.
Qed.

Lemma set_columns_key updates : ∀ c c',
  set_columns updates c = Some c' → row_key c' = row_key c.
Proof.
  induction updates as [|[col v] updates IH]; intros c c' H; cbn in H; [by simplify_eq|].
  destruct (set_column col v c) as [c1|] eqn:E; cbn in H; [|done].
  apply set_column_key in E. apply IH in H. congruence.
Qed.

Section Updates.
Context `{env : Env} `{clock : BusinessClock} (repo : repo_kind).

Definition lifecycle_row (status : string) (updates : list (string * colval)) (c : case_row)
    : case_row :=
  default c (set_columns updates (c <| c_status := status |> <| c_row_version ::= Z.succ |>)).

Lemma lifecycle_row_id status updates c : c_id (lifecycle_row status updates c) = c_id c.
Proof.
  unfold lifecycle_row. destruct (set_columns _ _) as [c'|] eqn:E; [|done].
  apply set_columns_key in E. unfold row_key in E. by injection E.
Qed.

Lemma lifecycle_row_clock status updates c :
  sla_clock (lifecycle_row status updates c) = sla_clock c.
Proof.
  unfold lifecycle_row. destruct (set_columns _ _) as [c'|] eqn:E; [|done].
  by apply set_columns_key, (f_equal snd) in E.
Qed.

(** Whether the values have the types of their columns does not depend on the row. *)
Lemma set_column_total col v c1 c2 :
  is_Some (set_column col v c1) → is_Some (set_column col v c2).
Proof.
  unfold set_column. intros H.
  repeat match type of H with
  | is_Some (if ?b then _ else _) => destruct b
  | is_Some (match ?x with _ => _ end) => destruct x
  end; try done; apply fmap_is_Some; by apply fmap_is_Some in H.
Qed.

Lemma set_columns_total updates : ∀ c1 c2,
  is_Some (set_columns updates c1) → is_Some (set_columns updates c2).
Proof.
  induction updates as [|[col v] updates IH]; intros c1 c2 H; cbn in *; [done|].
  destruct (set_column col v c1) as [c1'|] eqn:E1; cbn in H; [|by destruct H].
  destruct (set_column_total col v c1 c2) as [c2' E2]; [by rewrite E1|].
  rewrite E2. cbn. by eapply IH.
Qed.

Lemma lifecycle_update_commits busy caseID status updates db db' :
  commits busy (UpdateCaseLifecycle caseID status updates) db = Some (tt, db') →
  db' = db <| cases := sql_update (by_id c_id caseID) (lifecycle_row status updates) (cases db) |> ∧
  str_mem status env_case_statuses = true ∧
  ∃ c, case_of db caseID = Ok c ∧ is_Some (set_columns updates c).
Proof.
  unfold UpdateCaseLifecycle. intros H. destruct (negb _); [done|].
  tx_step H. rewrite commits_stmt in H. destruct (forallb _ (cases db)) eqn:Hty; [|done].
  unfold update_rows in H. destruct (forallb (λ r, _ || case_check _) (cases db)) eqn:Hck; [|done].
  destruct (Z.eqb_spec (sql_count (by_id c_id caseID) (cases db)) 0) as [E|E]; [done|].
  rewrite commits_mret in H. injection H as <-. split; [done|].
  assert (∃ c, case_of db caseID = Ok c) as [c Hc].
  { unfold case_of, sql_get. unfold sql_count in E.
    destruct (List.filter _ (cases db)) as [|c l]; [done|]. by exists c. }
  pose proof (sql_get_Ok _ _ _ Hc) as [Hin Hid].
  rewrite forallb_forall in Hty, Hck. specialize (Hty c). specialize (Hck c).
  rewrite <- list_elem_of_In in Hty, Hck. specialize (Hty Hin). specialize (Hck Hin).
  rewrite Hid in Hty, Hck. cbn [negb orb] in Hty, Hck. apply bool_decide_eq_true in Hty.
  split; [|by exists c].
  unfold case_check in Hck. apply andb_prop in Hck as [Hck _].
  destruct (set_columns_total updates c
    (c <| c_status := status |> <| c_row_version ::= Z.succ |>) Hty) as [c' Hc'].
  unfold by_id in *. rewrite Hc' in Hck. cbn in Hck.
  apply set_columns_key in Hc'. by injection Hc' as _ <- _ _.
Qed.

Lemma lifecycle_row_status status updates c :
  is_Some (set_columns updates c) → c_status (lifecycle_row status updates c) = status.
Proof.
  intros Ht. unfold lifecycle_row.
  destruct (set_columns_total updates c (c <| c_status := status |> <| c_row_version ::= Z.succ |>) Ht)
    as [c' E].
  rewrite E. cbn. apply set_columns_key in E. by injection E.
Qed.

(** ** Moves along the edges *)

Definition case_moved (caseID target : string) (db db' : database) : Prop :=
  (∃ c c', case_of db caseID = Ok c ∧ case_of db' caseID = Ok c' ∧
     target ∈ lifecycle_targets (c_status c) ∧ c_status c' = target) ∧
  (∀ id, id ≠ caseID → case_of db' id = case_of db id).

(** An update of the case alone, followed by steps that keep the statuses. *)
Lemma moved_by_update caseID target f db db1 db' c :
  case_of db caseID = Ok c →
  (∀ c, c_id (f c) = c_id c) → c_status (f c) = target →
  target ∈ lifecycle_targets (c_status c) →
  db1 = db <| cases := sql_update (by_id c_id caseID) f (cases db) |> →
  statuses_kept caseID db1 db' →
  case_moved caseID target db db'.
Proof.
  intros Hc Hid Hst Ht -> [HS HO].
  assert (H1 : case_of (db <| cases := sql_update (by_id c_id caseID) f (cases db) |>) caseID
    = Ok (f c)).
  { rewrite case_of_update, Hc by done. cbn. unfold by_id.
    apply case_of_id in Hc. by rewrite Hc, string_eqb_refl. }
  specialize (HS caseID). rewrite H1 in HS. cbn in HS. split.
  - destruct (case_of db' caseID) as [c'|] eqn:E; [|done]. injection HS as HS.
    exists c, c'. split_and!; congruence.
  - intros id Hne. rewrite HO, case_of_update by done.
    destruct (case_of db id) as [x|] eqn:E; cbn; [|done]. apply case_of_id in E.
    unfold by_id. rewrite E. by destruct (String.eqb_spec id caseID).
Qed.

Lemma validate_Ok from to_ by_ :
  ValidateLifecycleTransition from to_ by_ = Ok tt ↔ to_ ∈ lifecycle_targets from.
Proof.
  unfold ValidateLifecycleTransition. rewrite <- str_mem_elem.
  by destruct (str_mem _ _).
Qed.

(** The start every operation on a case has: load, validate. *)
Lemma validated_start {A} busy caseID target by_ (k : case_row → Tx database A) db a db' :
  (∀ c, Balanced (k c)) →
  commits busy (c ← GetCaseInstance caseID;
                _ ← tx_of (ValidateLifecycleTransition (c_status c) target by_); k c) db
    = Some (a, db') →
  ∃ c, case_of db caseID = Ok c ∧ target ∈ lifecycle_targets (c_status c) ∧
    commits busy (k c) db = Some (a, db').
Proof.
  intros Hk H. rewrite commits_bind in H by balance.
  unfold GetCaseInstance in H. rewrite commits_get in H. fold (case_of db caseID) in H.
  destruct (case_of db caseID) as [c|]; [|done].
  rewrite commits_bind, commits_of in H by balance.
  destruct (ValidateLifecycleTransition _ _ _) as [[]|] eqn:Hv; [|done].
  apply validate_Ok in Hv. by exists c.
Qed.
End Updates.

(** ** The five operations *)

Inductive lifecycle_op :=
  | Suspend (reason : string) (resumeAt : option Z)
  | Resume
  | Release (userID : string)
  | Withdraw (reason : string)
  | Emergency (reason supervisorID fourEyesToken : string).

Definition op_target (op : lifecycle_op) : string :=
  match op with
  | Suspend _ _ => "SUSPENDED" | Resume => "IN_PROGRESS" | Release _ => "ALLOCATABLE"
  | Withdraw _ | Emergency _ _ _ => "CANCELLED"
  end.

Section Operations.
Context `{env : Env} `{clock : BusinessClock} (repo : repo_kind).

Definition op_tx (op : lifecycle_op) (caseID : string) : Tx database unit :=
  match op with
  | Suspend reason resumeAt => SuspendCase_tx repo caseID reason resumeAt
  | Resume => ResumeCase_tx repo caseID
  | Release userID => ReleaseCase_tx caseID userID
  | Withdraw reason => WithdrawCase_tx caseID reason
  | Emergency reason supervisorID token => EmergencyClose_tx caseID reason supervisorID token
  end.

(** A run that has loaded and validated the case and then updates its row. *)
Lemma moved_after_lifecycle busy caseID target updates (k : Tx database unit) db db' c :
  Balanced k → case_of db caseID = Ok c → target ∈ lifecycle_targets (c_status c) →
  tx_all (statuses_kept caseID) k →
  commits busy (_ ← UpdateCaseLifecycle caseID target updates; k) db = Some (tt, db') →
  case_moved caseID target db db' ∧
  ∃ db1, tasks db1 = tasks db ∧ commits busy k db1 = Some (tt, db').
Proof.
  intros Hb Hc Ht Hk H. rewrite commits_bind in H by balance.
  destruct (commits busy (UpdateCaseLifecycle _ _ _) db) as [[[] db1]|] eqn:E; [|done].
  apply lifecycle_update_commits in E as (E & _ & c0 & Hc0 & Hs).
  rewrite Hc in Hc0. injection Hc0 as <-. split.
  - eapply moved_by_update; [exact Hc|apply lifecycle_row_id| |exact Ht|exact E|].
    + by apply lifecycle_row_status.
    + by eapply commits_all; [exact _|exact Hk|exact H].
  - exists db1. split; [by rewrite E|done].
Qed.



Lemma suspend_commits busy caseID reason resumeAt db db' :
  commits busy (SuspendCase_tx repo caseID reason resumeAt) db = Some (tt, db') →
  case_moved caseID "SUSPENDED" db db' ∧
  tasks_kept (db <| tasks := sql_update (case_in_flight caseID) reset_task (tasks db) |>) db'.
Proof.
  intros H. unfold SuspendCase_tx in H. apply validated_start in H as (c & Hc & Ht & H);
    [|intros; balance].
  apply (moved_after_lifecycle _ _ _ _ _ _ _ c) in H as [Hm (db1 & Htk & H)];
    [|balance|done|done|kept_steps; by apply statuses_kept_same].
  split; [done|]. tx_step H. unfold update_task_rows in H. rewrite commits_update in H.
  destruct (forallb _ (tasks db1)); [|done]. rewrite Htk in H.
  eapply (commits_all busy tasks_kept) in H.
  - etransitivity; [|exact H]. done.
  - apply tx_all_bind; [apply tasks_pause|]. intros. apply tasks_publish.
Qed.

Lemma resume_commits busy caseID db db' :
  commits busy (ResumeCase_tx repo caseID) db = Some (tt, db') →
  case_moved caseID "IN_PROGRESS" db db' ∧ tasks_kept db db'.
Proof.
  intros H. unfold ResumeCase_tx in H. apply validated_start in H as (c & Hc & Ht & H);
    [|intros; balance].
  apply (moved_after_lifecycle _ _ _ _ _ _ _ c) in H as [Hm (db1 & Htk & H)];
    [|balance|done|done|kept_steps; by apply statuses_kept_same].
  split; [done|]. eapply (commits_all busy tasks_kept) in H.
  - unfold tasks_kept in *. by rewrite <- Htk.
  - kept_steps; [by apply sql_update_map|solve [auto with kept]..].
Qed.

Lemma release_commits busy caseID userID db db' :
  commits busy (ReleaseCase_tx caseID userID) db = Some (tt, db') →
  case_moved caseID "ALLOCATABLE" db db' ∧
  tasks_kept (db <| tasks := sql_update (λ t, (t_case_id t =?s caseID) &&
     str_mem (t_status t) ["ASSIGNED"; "IN_PROGRESS"; "AWAITING_EXTERNAL"]) reset_task
     (tasks db) |>) db'.
Proof.
  intros H. unfold ReleaseCase_tx in H. apply validated_start in H as (c & Hc & Ht & H);
    [|intros; balance].
  tx_step H. unfold update_case_row in H. rewrite commits_update in H.
  destruct (forallb _ (cases db)); [|done]. tx_step H.
  unfold update_task_rows in H. rewrite commits_update in H.
  destruct (forallb _ (tasks _)); [|done]. split.
  - refine (moved_by_update _ _ (λ c, c <| c_status := "ALLOCATABLE" |>
      <| c_assigned_user_id := None |> <| c_row_version ::= Z.succ |>) db _ db' c
      Hc _ _ Ht eq_refl _); [done|done|].
    eapply (commits_all busy (statuses_kept caseID)) in H; [exact H|apply statuses_publish].
  - eapply (commits_all busy tasks_kept) in H; [exact H|apply tasks_publish].
Qed.

Lemma cancel_commits busy caseID e p db db' :
  commits busy (_ ← cancel_unfinished caseID; lifecycle_event e caseID p) db = Some (tt, db') →
  tasks_kept (db <| tasks := sql_update (λ t, (t_case_id t =?s caseID) && unfinished t)
    (λ t, t <| t_status := "CANCELLED" |> <| t_completed_at := Some env_now |>
            <| t_version ::= Z.succ |>) (tasks db) |>) db'.
Proof.
  intros H. tx_step H. unfold cancel_unfinished, update_task_rows in H.
  rewrite commits_update in H. destruct (forallb _ (tasks db)); [|done].
  eapply (commits_all busy tasks_kept) in H; [exact H|apply tasks_publish].
Qed.

Definition no_unfinished (caseID : string) (db : database) : Prop :=
  ∀ t, t ∈ tasks db → t_case_id t = caseID → unfinished t = false.

Lemma cancelled_none_unfinished caseID db db' :
  tasks_kept (db <| tasks := sql_update (λ t, (t_case_id t =?s caseID) && unfinished t)
    (λ t, t <| t_status := "CANCELLED" |> <| t_completed_at := Some env_now |>
            <| t_version ::= Z.succ |>) (tasks db) |>) db' →
  no_unfinished caseID db'.
Proof.
  intros Hk. pose proof (tasks_kept_elem _ _ (λ x, x.1.1.2 = caseID →
    negb (str_mem x.1.2 ["COMPLETED"; "CANCELLED"; "SKIPPED"; "FAILED"]) = false) Hk) as H.
  intros t Ht Hid. refine (H _ t Ht Hid). clear t Ht Hid H Hk.
  intros t (t0 & _ & ->)%sql_update_elem. cbn.
  destruct (String.eqb_spec (t_case_id t0) caseID) as [E|E]; cbn; [|done].
  by destruct (unfinished t0) eqn:Hu; cbn.
Qed.

Lemma withdraw_commits busy caseID reason db db' :
  commits busy (WithdrawCase_tx caseID reason) db = Some (tt, db') →
  case_moved caseID "CANCELLED" db db' ∧ no_unfinished caseID db'.
Proof.
  intros H. unfold WithdrawCase_tx in H. apply validated_start in H as (c & Hc & Ht & H);
    [|intros; balance].
  apply (moved_after_lifecycle _ _ _ _ _ _ _ c) in H as [Hm (db1 & Htk & H)];
    [|balance|done|done|kept_steps; by apply statuses_kept_same].
  split; [done|]. apply cancel_commits in H. by eapply cancelled_none_unfinished.
Qed.

Definition tokens_kept (db db' : database) : Prop := tokens db' = tokens db.
#[export] Instance tokens_kept_preorder : PreOrder tokens_kept.
Proof. split; [done|]. intros ????. unfold tokens_kept. congruence. Qed.

(** A token that authorises [supervisor] to close [caseID]. *)
Definition token_valid (db : database) (token caseID supervisor : string) (k : token_row) : Prop :=
  k ∈ tokens db ∧ fe_token k = token ∧ fe_case_id k = caseID ∧ fe_issuer_id k ≠ supervisor ∧
  env_now < fe_expires_at k ∧ fe_consumed_at k = None.

Lemma emergency_commits busy caseID reason supervisor token db db' :
  commits busy (EmergencyClose_tx caseID reason supervisor token) db = Some (tt, db') →
  (∃ k, token_valid db token caseID supervisor k) ∧
  case_moved caseID "CANCELLED" db db' ∧ no_unfinished caseID db' ∧
  tokens db' = sql_update (by_id fe_token token)
    (λ k, k <| fe_consumed_at := Some env_now |> <| fe_consumed_by := Some supervisor |>)
    (tokens db).
Proof.
  intros H. unfold EmergencyClose_tx in H. rewrite commits_bind, commits_attempt in H by balance.
  destruct (exec busy (get_in tokens (valid_token token)) 0 db) as [[[r o] db0]|] eqn:E; [|done].
  assert (r = sql_get (valid_token token) (tokens db) ∧ db0 = db) as [-> ->].
  { unfold get_in, query in E. rewrite exec_stmt in E. unfold sql_get in *.
    destruct (List.filter _ (tokens db)); simplify_eq/=; done. }
  destruct (sql_get (valid_token token) (tokens db)) as [k|] eqn:Hk; [|done].
  apply sql_get_Ok in Hk as [Hin Hv]. unfold valid_token in Hv.
  apply andb_prop in Hv as [Hv Hc0]. apply andb_prop in Hv as [Htok Hexp].
  apply String.eqb_eq in Htok. apply Z.ltb_lt in Hexp.
  destruct (String.eqb_spec (fe_case_id k) caseID) as [Hcase|]; [|done]. cbn [negb] in H.
  destruct (String.eqb_spec (fe_issuer_id k) supervisor) as [|Hiss]; [done|].
  tx_step H. rewrite commits_update in H. destruct (forallb _ (tokens db)); [|done].
  rewrite commits_bind in H by balance.
  set (db1 := db <| tokens := _ |>) in H.
  destruct (commits busy (GetCaseInstance caseID) db1) as [[c dbx]|] eqn:Eg; [|done].
  unfold GetCaseInstance in Eg. rewrite commits_get in Eg.
  destruct (sql_get _ (cases db1)) as [c0|] eqn:Hc; [|done]. injection Eg as -> <-.
  destruct (IsTerminal c); [done|]. rewrite commits_bind, commits_of in H by balance.
  destruct (ValidateLifecycleTransition _ _ _) as [[]|] eqn:Hva; [|done].
  apply validate_Ok in Hva.
  split; [exists k; split_and!; try done; by destruct (fe_consumed_at k)|].
  pose proof H as Hrun.
  apply (moved_after_lifecycle _ _ _ _ _ _ _ c) in H as [Hm (db2 & Htk2 & H)];
    [|balance|exact Hc|done|kept_steps; by apply statuses_kept_same].
  split; [exact Hm|]. split.
  - apply cancel_commits in H. by eapply cancelled_none_unfinished.
  - eapply (commits_all busy tokens_kept) in Hrun; [exact Hrun|].
    kept_steps; unfold tokens_kept; try done;
      repeat match goal with
      | E : (if ?b then _ else _) = Ok _ |- _ => destruct b
      | E : match ?x with _ => _ end = Ok _ |- _ => destruct x as [[]|]
      end; by simplify_eq/=.
Qed.
End Operations.

(** ** The engine's methods, together *)

Section Methods.
Context `{env : Env} `{clock : BusinessClock} (repo : repo_kind) (drv : driver).

Definition lifecycle_method (op : lifecycle_op) (caseID : string) (db : database)
    : result unit * database :=
  match op with
  | Suspend reason resumeAt => SuspendCase repo drv caseID reason resumeAt db
  | Resume => ResumeCase repo drv caseID db
  | Release userID => ReleaseCase drv caseID userID db
  | Withdraw reason => WithdrawCase drv caseID reason db
  | Emergency reason supervisorID token =>
      EmergencyClose drv caseID reason supervisorID token db
  end.

(** A method either fails and leaves everything as it was, or commits its transaction. *)
Lemma method_cases op caseID db :
  (∃ e, lifecycle_method op caseID db = (Err e, db)) ∨
  ∃ db', lifecycle_method op caseID db = (Ok tt, db') ∧
    commits (busy_while_open drv) (op_tx repo op caseID) db = Some (tt, db').
Proof.
  assert (H : ∀ m : Tx database unit, (∃ e, within_tx drv m db = (Err e, db)) ∨
    ∃ db', within_tx drv m db = (Ok tt, db') ∧
      commits (busy_while_open drv) m db = Some (tt, db')).
  { intros m. destruct (within_tx drv m db) as [[[]|e] db'] eqn:E.
    - right. exists db'. split; [done|]. by apply within_tx_commits.
    - left. apply within_tx_rollback in E. exists e. congruence. }
  destruct op; cbn [lifecycle_method op_tx]; [apply H..|]. unfold EmergencyClose.
  destruct (_ =?s ""); [left; by eexists|apply H].
Qed.

Lemma op_commits busy op caseID db db' :
  commits busy (op_tx repo op caseID) db = Some (tt, db') →
  case_moved caseID (op_target op) db db' ∧
  (op_target op = "CANCELLED" → no_unfinished caseID db').
Proof.
  destruct op; cbn [op_tx op_target]; intros H.
  - apply suspend_commits in H as [? _]. by split.
  - apply resume_commits in H as [? _]. by split.
  - apply release_commits in H as [? _]. by split.
  - apply withdraw_commits in H as []. by split.
  - apply emergency_commits in H as (_ & ? & ? & _). by split.
Qed.

(** A method whose transaction cannot commit fails. *)
Lemma method_refused op caseID db :
  commits (busy_while_open drv) (op_tx repo op caseID) db = None →
  ∃ e, lifecycle_method op caseID db = (Err e, db).
Proof.
  intros H. destruct (method_cases op caseID db) as [?|(db' & _ & Hc)]; [done|congruence].
Qed.
End Methods.

(** C33. The life cycle's methods move a case along the edges of the state machine
    only: a call either fails and leaves the database as it was, or takes the case,
    and no other, from a status with that edge to the status the method stands for. *)
Theorem lifecycle_moves_along_edges `{env : Env} `{clock : BusinessClock}
    (repo : repo_kind) (drv : driver) (op : lifecycle_op) (caseID : string) (db : database) :
  match lifecycle_method repo drv op caseID db with
  | (Ok _, db') => case_moved caseID (op_target op) db db'
  | (Err _, db') => db' = db
  end.
Proof.
  destruct (method_cases repo drv op caseID db) as [[e ->]|(db' & -> & H)]; [done|].
  by apply op_commits in H as [? _].
Qed.

(** Withdrawing or force-closing a case leaves none of its tasks open. *)
Theorem closing_leaves_no_open_task `{env : Env} `{clock : BusinessClock}
    (repo : repo_kind) (drv : driver) (op : lifecycle_op) (caseID : string) (db db' : database) :
  op_target op = "CANCELLED" →
  lifecycle_method repo drv op caseID db = (Ok tt, db') →
  no_unfinished caseID db' ∧ c_status <$> case_of db' caseID = Ok "CANCELLED".
Proof.
  intros Ht E. destruct (method_cases repo drv op caseID db) as [[e H]|(db1 & H & Hc)].
  { by rewrite E in H. }
  rewrite E in H. injection H as <-. apply op_commits in Hc as [[(c & c' & _ & Hc' & _ & Hs) _] Hn].
  split; [by apply Hn|]. rewrite Hc'. cbn. congruence.
Qed.

(** ** Four eyes *)

Lemma emergency_refused `{env : Env} busy caseID reason supervisor token db :
  (∀ k, k ∈ tokens db → fe_token k = token → fe_consumed_at k ≠ None) →
  commits busy (EmergencyClose_tx caseID reason supervisor token) db = None.
Proof.
  intros Hk. destruct (commits _ _ _) as [[[] db']|] eqn:E; [|done].
  apply emergency_commits in E as [(k & Hin & Htok & _ & _ & _ & Hc) _]. by destruct (Hk k).
Qed.

(** C34. A case is force-closed only with a token that a different supervisor issued
    for this very case and that is neither expired nor used; the call uses the token
    up: no later force-close, of whatever case and by whomever, succeeds with it. *)
Theorem EmergencyClose_four_eyes `{env : Env} `{clock : BusinessClock} (repo : repo_kind)
    (drv : driver) (caseID reason supervisorID token : string) (db db' : database) :
  lifecycle_method repo drv (Emergency reason supervisorID token) caseID db = (Ok tt, db') →
  token ≠ "" ∧ (∃ k, token_valid db token caseID supervisorID k) ∧
  ∀ (env' : Env) drv' caseID' reason' supervisorID',
    ∃ e, EmergencyClose (env := env') drv' caseID' reason' supervisorID' token db' = (Err e, db').
Proof.
  intros H. destruct (method_cases repo drv (Emergency reason supervisorID token) caseID db)
    as [[e E]|(db1 & E & Hc)]; [by rewrite E in H|]. rewrite E in H. injection H as ->.
  assert (Hne : token ≠ "").
  { intros ->. unfold lifecycle_method, EmergencyClose in E. discriminate. }
  apply emergency_commits in Hc as (Hv & _ & _ & Htok). split_and!; [done..|].
  intros. refine (method_refused (env := env') repo drv'
    (Emergency reason' supervisorID' token) caseID' db' _).
  apply (emergency_refused (env := env')). intros k Hin Hk. rewrite Htok in Hin.
  apply sql_update_elem in Hin as (k0 & _ & ->). unfold by_id in *.
  destruct (String.eqb_spec (fe_token k0) token); done.
Qed.

(** ** Suspended work *)

(** After a suspension every task of the case that is still in flight waits
    unassigned: no worker goes on holding a task of a suspended case. *)
Theorem SuspendCase_parks_the_tasks `{env : Env} `{clock : BusinessClock} (repo : repo_kind)
    (drv : driver) (caseID reason : string) (resumeAt : option Z) (db db' : database) (t : task_row) :
  SuspendCase repo drv caseID reason resumeAt db = (Ok tt, db') →
  t ∈ tasks db' → t_case_id t = caseID → in_flight t = true →
  t_status t = "PENDING" ∧ t_assignee_id t = None.
Proof.
  intros H Ht Hid Hf. apply within_tx_commits, suspend_commits in H as [_ Hk].
  pose proof (tasks_kept_elem _ _ (λ x, x.1.1.2 = caseID →
    str_mem x.1.2 ["PENDING"; "ASSIGNED"; "IN_PROGRESS"; "AWAITING_EXTERNAL"] = true →
    x.1.2 = "PENDING" ∧ x.2 = None) Hk) as H.
  refine (H _ t Ht Hid Hf). clear t Ht Hid Hf H Hk.
  intros t (t0 & _ & ->)%sql_update_elem. cbn. unfold case_in_flight.
  destruct (String.eqb_spec (t_case_id t0) caseID) as [E|E]; cbn; [|done].
  destruct (in_flight t0) eqn:Hu; cbn; [done|]. intros _ Hm. unfold in_flight in Hu. congruence.
Qed.

(** ** One connection, two row sets *)

(** A program that does not get through while one row set is open. *)
Definition stuck_at {A} (m : Tx database A) (db : database) : Prop :=
  match exec true m 1 db with Some (Ok _, _, _) => False | _ => True end.

(** A body that needs the connection, over a non-empty row set, on a driver that
    refuses a second statement while the first row set is open. *)
Lemma with_rows_busy {X} (q : database → result (list X)) f x l db :
  (∀ x, stuck_at (f x) db) →
  q db = Ok (x :: l) → commits true (with_rows q f) db = None.
Proof.
  intros Hf Hq. unfold commits, with_rows. cbn. rewrite Hq.
  change (tx_bind ?m ?g) with (m ≫= g). rewrite exec_bind, exec_attempt. cbn [tx_each].
  rewrite exec_bind. specialize (Hf x). unfold stuck_at in Hf.
  by destruct (exec true (f x) 1 db) as [[[[[]|e] o] db1]|].
Qed.

(** What fails on a busy connection. *)
Lemma stuck_stmt {X B} (body : database → result (X * database)) (f : X → Tx database B) db :
  stuck_at (stmt body ≫= f) db.
Proof. unfold stuck_at. by rewrite exec_bind. Qed.

Lemma stuck_after {X B} (m : Tx database X) (f : X → Tx database B) db :
  Balanced m → (∀ x db', stuck_at (f x) db') → stuck_at (m ≫= f) db.
Proof.
  intros Hb Hf. unfold stuck_at. rewrite exec_bind.
  destruct (exec true m 1 db) as [[[[x|e] o] db']|] eqn:E; [|done..].
  apply Hb in E as ->. apply Hf.
Qed.

Section Busy.
Context `{env : Env} `{clock : BusinessClock} (repo : repo_kind) (caseID : string).
Hypothesis concrete : repo_concrete repo = true.

Definition has_in_flight (db : database) : Prop := ∃ t, t ∈ tasks db ∧ case_in_flight caseID t = true.

Lemma sql_rows_in_flight db : has_in_flight db →
  ∃ t l, sql_rows tasks (case_in_flight caseID) db = Ok (t :: l).
Proof.
  intros (t & Ht & Hf). unfold sql_rows, sql_select.
  assert (In t (List.filter (case_in_flight caseID) (tasks db))) as Hin
    by (apply filter_In; by rewrite <- list_elem_of_In).
  destruct (List.filter _ (tasks db)) as [|x l]; [done|]. by exists x, l.
Qed.

Lemma in_flight_kept db db' : tasks_kept db db' → has_in_flight db → has_in_flight db'.
Proof.
  intros Hk (t & Ht & Hf). unfold tasks_kept in Hk.
  assert (task_core t ∈ map task_core (tasks db')) as Hin.
  { rewrite Hk. apply list_elem_of_In, in_map, list_elem_of_In. done. }
  apply list_elem_of_In, in_map_iff in Hin as (t' & E & Ht'). apply list_elem_of_In in Ht'.
  exists t'. split; [done|]. unfold task_core in E. injection E as _ E1 E2 _.
  unfold case_in_flight, in_flight in *. by rewrite E1, E2.
Qed.

(** Statements before the loop that keep the tasks lead to the loop. *)
Lemma before_loop {A B} (m : Tx database A) (f : A → Tx database B) db :
  Balanced m → tx_all tasks_kept m → has_in_flight db →
  (∀ a db', has_in_flight db' → commits true (f a) db' = None) →
  commits true (m ≫= f) db = None.
Proof.
  intros Hb Hm Hd Hf. rewrite commits_bind by done.
  destruct (commits true m db) as [[a db']|] eqn:E; [|done]. apply Hf.
  eapply in_flight_kept; [|exact Hd]. by eapply (commits_all true tasks_kept).
Qed.

Lemma pause_logs_busy reason db : has_in_flight db →
  commits true (appendCaseSLAPauseLogs repo caseID reason) db = None.
Proof.
  intros Hd. unfold appendCaseSLAPauseLogs. rewrite concrete. cbn [negb].
  apply before_loop; [balance|kept_steps|done|]. intros c db1 Hd1.
  apply before_loop; [balance|kept_steps|done|]. intros e db2 Hd2.
  apply before_loop; [balance|kept_steps; by apply tasks_kept_same|done|]. intros [] db3 Hd3.
  apply before_loop; [balance|apply tasks_publish|done|]. intros [] db4 Hd4.
  destruct (sql_rows_in_flight db4 Hd4) as (t & l & E).
  eapply with_rows_busy; [|exact E]. intros x. unfold pause_task.
  apply stuck_after; [balance|]. intros. apply stuck_stmt.
Qed.

Lemma resume_logs_busy reason db : has_in_flight db →
  commits true (appendCaseSLAResumeLogs repo caseID reason) db = None.
Proof.
  intros Hd. unfold appendCaseSLAResumeLogs. rewrite concrete. cbn [negb].
  apply before_loop; [balance|kept_steps|done|]. intros [[c a] e] db1 Hd1.
  apply before_loop; [balance|kept_steps; by apply tasks_kept_same|done|]. intros [] db2 Hd2.
  apply before_loop; [balance|kept_steps; by apply tasks_kept_same|done|]. intros [] db3 Hd3.
  apply before_loop; [balance|apply tasks_publish|done|]. intros [] db4 Hd4.
  destruct (sql_rows_in_flight db4 Hd4) as (t & l & E).
  eapply with_rows_busy; [|exact E]. intros x. unfold resume_task, resume_task_clock.
  apply stuck_after; [balance|]. intros p ?. cbv beta. destruct (match p with Ok _ => _ | Err _ => _ end).
  apply stuck_after; [balance|]. intros. apply stuck_stmt.
Qed.

Lemma case_update_keeps_tasks status updates : tx_all tasks_kept (UpdateCaseLifecycle caseID status updates).
Proof.
  kept_steps. repeat match goal with
    | E : (if ?b then _ else _) = Ok _ |- _ => destruct b
    | E : match ?x with _ => _ end = Ok _ |- _ => destruct x as [[]|]
    end; by simplify_eq/=.
Qed.

Lemma suspend_busy reason resumeAt db : has_in_flight db →
  commits true (SuspendCase_tx repo caseID reason resumeAt) db = None.
Proof.
  intros Hd. unfold SuspendCase_tx.
  apply before_loop; [balance|kept_steps|done|]. intros c db1 Hd1.
  apply before_loop; [balance|kept_steps|done|]. intros [] db2 Hd2.
  apply before_loop; [balance|apply case_update_keeps_tasks|done|]. intros [] db3 Hd3.
  rewrite commits_bind by balance. unfold update_task_rows. rewrite commits_update.
  destruct (forallb _ _); [|done]. rewrite commits_bind by balance.
  rewrite pause_logs_busy; [done|].
  destruct Hd3 as (t & Ht & Hf). exists (reset_task t). split.
  - apply sql_update_elem. exists t. by rewrite Hf.
  - unfold case_in_flight in *. apply andb_prop in Hf as [Hid _].
    change (t_case_id (reset_task t)) with (t_case_id t). by rewrite Hid.
Qed.

Lemma resume_busy db : has_in_flight db → commits true (ResumeCase_tx repo caseID) db = None.
Proof.
  intros Hd. unfold ResumeCase_tx.
  apply before_loop; [balance|kept_steps|done|]. intros c db1 Hd1.
  apply before_loop; [balance|kept_steps|done|]. intros [] db2 Hd2.
  apply before_loop; [balance|apply case_update_keeps_tasks|done|]. intros [] db3 Hd3.
  apply before_loop; [balance|kept_steps; by apply sql_update_map|done|]. intros n db4 Hd4.
  apply before_loop; [balance|kept_steps|done|]. intros [] db5 Hd5.
  rewrite commits_bind by balance. by rewrite resume_logs_busy.
Qed.
End Busy.

(** On a driver with one open row set per connection, as the engine's is, a case
    with a task in flight can be neither suspended nor resumed: the loop over its
    tasks writes their SLA records while the query it reads them from is still open. *)
Theorem in_flight_case_cannot_be_suspended `{env : Env} `{clock : BusinessClock}
    (repo : repo_kind) (drv : driver) (op : lifecycle_op) (caseID : string) (db : database) :
  busy_while_open drv = true → repo_concrete repo = true →
  op_target op = "SUSPENDED" ∨ op_target op = "IN_PROGRESS" →
  has_in_flight caseID db →
  ∃ e, lifecycle_method repo drv op caseID db = (Err e, db).
Proof.
  intros Hb Hr Ht Hd. apply method_refused. rewrite Hb. destruct op; cbn in Ht; try naive_solver.
  - by apply suspend_busy.
  - by apply resume_busy.
Qed.

(** ** The SLA clock across suspensions *)

Section Clock.
Context `{env : Env} `{clock : BusinessClock} (repo : repo_kind) (caseID : string).
Hypothesis concrete : repo_concrete repo = true.

Definition case_pauses (db : database) : list pause_row :=
  sql_select (is_pause "CASE" caseID) (pause_log db).

Definition clock_kept (db db' : database) : Prop :=
  sla_clock <$> case_of db' caseID = sla_clock <$> case_of db caseID ∧
  case_pauses db' = case_pauses db.

#[export] Instance clock_kept_preorder : PreOrder clock_kept.
Proof. split; [by split|]. intros db1 db2 db3 [] []. split; congruence. Qed.

Lemma clock_kept_same db db' :
  cases db' = cases db → pause_log db' = pause_log db → clock_kept db db'.
Proof. unfold clock_kept, case_of, case_pauses. by intros -> ->. Qed.

Lemma clock_kept_log row db :
  is_pause "CASE" caseID row = false →
  clock_kept db (db <| pause_log := pause_log db ++ [row] |>).
Proof.
  intros Hr. split; [done|]. unfold case_pauses, sql_select. cbn.
  rewrite List.filter_app. cbn. by rewrite Hr, app_nil_r.
Qed.

Lemma clock_kept_update p f db :
  (∀ c, c_id (f c) = c_id c) → (∀ c, sla_clock (f c) = sla_clock c) →
  clock_kept db (db <| cases := sql_update p f (cases db) |>).
Proof.
  intros Hid Hs. split; [|done]. rewrite case_of_update by done.
  destruct (case_of db caseID) as [c|]; [|done]. cbn. destruct (p c); [|done].
  f_equal. apply Hs.
Qed.

Lemma clock_publish event : tx_all clock_kept (PublishEvent event).
Proof. kept_steps; simplify_eq; by apply clock_kept_same. Qed.
#[local] Hint Resolve clock_publish : kept.

Lemma clock_pause_task reason t : tx_all clock_kept (pause_task repo caseID reason t).
Proof. kept_steps. by apply clock_kept_log. Qed.
Lemma clock_resume_task reason t : tx_all clock_kept (resume_task repo caseID reason t).
Proof. kept_steps; first [by apply clock_kept_log|by apply clock_kept_same]. Qed.
#[local] Hint Resolve clock_pause_task clock_resume_task : kept.

Definition pause_record (reason : string) (elapsed : Z) : pause_row :=
  {| pl_entity_type := "CASE"; pl_entity_id := caseID; pl_paused_at := env_clock;
     pl_resumed_at := None; pl_reason := reason; pl_elapsed_ms := elapsed;
     pl_action := "PAUSE"; pl_created_at := env_now |}.

(** A pause writes down the business time spent since the clock was last started. *)
Lemma pause_logs_commits busy reason db db' :
  commits busy (appendCaseSLAPauseLogs repo caseID reason) db = Some (tt, db') →
  ∃ c e, case_of db caseID = Ok c ∧
    elapsed_ms repo (c_sla_calendar_id c)
      (default (c_created_at c) (c_effective_start_time c)) env_clock = Ok e ∧
    sla_clock <$> case_of db' caseID = Ok (sla_clock c) ∧
    case_pauses db' = case_pauses db ++ [pause_record reason e].
Proof.
  unfold appendCaseSLAPauseLogs. rewrite concrete. cbn [negb]. intros H.
  rewrite commits_bind in H by balance. unfold GetCaseInstance in H. rewrite commits_get in H.
  fold (case_of db caseID) in H. destruct (case_of db caseID) as [c|] eqn:Hc; [|done].
  tx_step H. rewrite commits_of in H. destruct (elapsed_ms _ _ _ _) as [e|] eqn:He; [|done].
  tx_step H. unfold log_pause in H. rewrite commits_insert in H.
  destruct (pause_check _ && _); [|done].
  eapply (commits_all busy clock_kept) in H; [|unfold pause_task; kept_steps; by apply clock_kept_log].
  destruct H as [H1 H2]. exists c, e. split_and!; [done..| |].
  - rewrite H1. change (case_of (db <| pause_log := _ |>) caseID) with (case_of db caseID).
    by rewrite Hc.
  - rewrite H2. unfold case_pauses, sql_select. cbn. rewrite List.filter_app. cbn.
    unfold is_pause. cbn. by rewrite string_eqb_refl.
Qed.

(** A resumption restarts the clock now, with what the pause record leaves of the
    duration. *)
Lemma resume_logs_commits busy reason db db' c d p :
  commits busy (appendCaseSLAResumeLogs repo caseID reason) db = Some (tt, db') →
  case_of db caseID = Ok c → c_sla_duration_ms c = Some d → 0 < d →
  latest_pause "CASE" caseID db = Some p →
  ∃ due, new_due repo (c_sla_calendar_id c) env_clock (remaining d (pl_elapsed_ms p)) = Ok due ∧
    sla_clock <$> case_of db' caseID =
      Ok (c_sla_calendar_id c, Some d, Some env_clock, c_created_at c, Some due) ∧
    case_pauses db' = case_pauses db.
Proof.
  unfold appendCaseSLAResumeLogs. rewrite concrete. cbn [negb]. intros H Hc Hd Hpos Hp.
  rewrite commits_bind in H by balance. rewrite commits_query in H.
  fold (case_of db caseID) in H. rewrite Hc in H. cbn [mbind result_bind] in H.
  rewrite Hp in H. cbn [result_bind] in H. rewrite commits_bind in H by balance.
  unfold resume_case_clock in H. rewrite Hd in H.
  destruct (Z.ltb_spec 0 d); [|lia]. tx_step H. rewrite commits_of in H.
  destruct (new_due _ _ _ _) as [due|]; [|done]. tx_step H.
  unfold update_case_row in H. rewrite commits_update in H.
  destruct (forallb _ (cases db)); [|done]. rewrite commits_mret in H.
  eapply (commits_all busy clock_kept) in H;
    [|kept_steps; apply clock_kept_log; apply andb_false_r].
  destruct H as [H1 H2]. exists due. split_and!; [done| |by rewrite H2].
  rewrite H1, case_of_update, Hc by done. cbn. unfold by_id.
  apply case_of_id in Hc. rewrite Hc, string_eqb_refl. unfold sla_clock. cbn. by rewrite Hd.
Qed.

(** The same for the two operations. *)
Lemma suspend_clock busy reason resumeAt db db' :
  commits busy (SuspendCase_tx repo caseID reason resumeAt) db = Some (tt, db') →
  ∃ c e, case_of db caseID = Ok c ∧
    elapsed_ms repo (c_sla_calendar_id c)
      (default (c_created_at c) (c_effective_start_time c)) env_clock = Ok e ∧
    sla_clock <$> case_of db' caseID = Ok (sla_clock c) ∧
    case_pauses db' = case_pauses db ++ [pause_record "CASE_SUSPENDED" e].
Proof.
  intros H. unfold SuspendCase_tx in H. apply validated_start in H as (c & Hc & Ht & H);
    [|intros; balance].
  rewrite commits_bind in H by balance.
  destruct (commits busy (UpdateCaseLifecycle _ _ _) db) as [[[] db1]|] eqn:E; [|done].
  apply lifecycle_update_commits in E as (E & _ & _).
  assert (Hk1 : clock_kept db db1).
  { rewrite E. apply clock_kept_update; [apply lifecycle_row_id|apply lifecycle_row_clock]. }
  rewrite commits_bind in H by balance.
  destruct (commits busy (update_task_rows _ _) db1) as [[n db2]|] eqn:E2; [|done].
  eapply (commits_all busy clock_kept) in E2; [|kept_steps; by apply clock_kept_same].
  rewrite commits_bind in H by balance.
  destruct (commits busy (appendCaseSLAPauseLogs _ _ _) db2) as [[[] db3]|] eqn:E3; [|done].
  apply pause_logs_commits in E3 as (c2 & e & Hc2 & He & Hs & Hp).
  eapply (commits_all busy clock_kept) in H; [|apply clock_publish].
  destruct Hk1 as [Hk1 Hp1], E2 as [Hk2 Hp2], H as [Hk3 Hp3].
  rewrite Hk1, Hc, Hc2 in Hk2. cbn in Hk2. injection Hk2 as K1 K2 K3 K4 K5.
  exists c, e. split_and!; [done| | |].
  - by rewrite <- K1, <- K3, <- K4.
  - rewrite Hk3, Hs. unfold sla_clock. congruence.
  - by rewrite Hp3, Hp, Hp2, Hp1.
Qed.

Lemma resume_clock busy db db' c d p :
  commits busy (ResumeCase_tx repo caseID) db = Some (tt, db') →
  case_of db caseID = Ok c → c_sla_duration_ms c = Some d → 0 < d →
  latest_pause "CASE" caseID db = Some p →
  ∃ due, new_due repo (c_sla_calendar_id c) env_clock (remaining d (pl_elapsed_ms p)) = Ok due ∧
    sla_clock <$> case_of db' caseID =
      Ok (c_sla_calendar_id c, Some d, Some env_clock, c_created_at c, Some due) ∧
    case_pauses db' = case_pauses db.
Proof.
  intros H Hc0 Hd Hpos Hp. unfold ResumeCase_tx in H.
  apply validated_start in H as (c' & Hc & Ht & H); [|intros; balance].
  rewrite Hc0 in Hc. injection Hc as <-.
  rewrite commits_bind in H by balance.
  destruct (commits busy (UpdateCaseLifecycle _ _ _) db) as [[[] db1]|] eqn:E; [|done].
  apply lifecycle_update_commits in E as (E & _ & _).
  assert (Hk1 : clock_kept db db1).
  { rewrite E. apply clock_kept_update; [apply lifecycle_row_id|apply lifecycle_row_clock]. }
  rewrite commits_bind in H by balance.
  destruct (commits busy (update_task_rows _ _) db1) as [[n db2]|] eqn:E2; [|done].
  eapply (commits_all busy clock_kept) in E2; [|kept_steps; by apply clock_kept_same].
  rewrite commits_bind in H by balance.
  destruct (commits busy (with_rows _ _) db2) as [[[] db3]|] eqn:E3; [|done].
  eapply (commits_all busy clock_kept) in E3; [|kept_steps].
  rewrite commits_bind in H by balance.
  destruct (commits busy (appendCaseSLAResumeLogs _ _ _) db3) as [[[] db4]|] eqn:E4; [|done].
  eapply (commits_all busy clock_kept) in H; [|apply clock_publish].
  assert (Hk : clock_kept db db3) by (do 2 (etransitivity; [eassumption|]); done).
  destruct Hk as [Hk Hpk], H as [Hk4 Hp4]. rewrite Hc0 in Hk.
  destruct (case_of db3 caseID) as [c3|] eqn:Hc3; [|done]. injection Hk as K1 K2 K3 K4 K5.
  apply (resume_logs_commits _ _ _ _ c3 d p) in E4 as (due & Hdue & Hs & Hp'); try congruence.
  - exists due. split_and!; [congruence| |congruence]. rewrite Hk4, Hs. congruence.
  - unfold latest_pause. fold (case_pauses db3). by rewrite Hpk.
Qed.

(** The latest record is the one just appended. *)
Lemma latest_appended db ps p :
  case_pauses db = ps ++ [p] → Forall (λ q, pl_created_at q ≤ pl_created_at p) ps →
  latest_pause "CASE" caseID db = Some p.
Proof.
  intros H Hps. unfold latest_pause. fold (case_pauses db). rewrite H, fold_left_app. cbn.
  assert (Hl : ∀ l best, Forall (λ q, pl_created_at q ≤ pl_created_at p) l →
    match best with Some b => pl_created_at b ≤ pl_created_at p | None => True end →
    match fold_left later_pause l best with
    | Some b => pl_created_at b ≤ pl_created_at p | None => True end).
  { induction l as [|q l IH]; intros best Hf Hb; [done|]. inversion_clear Hf as [|?? Hq Hl].
    cbn. apply IH; [done|]. destruct best as [b|]; cbn; [|done].
    by destruct (Z.leb_spec (pl_created_at b) (pl_created_at q)). }
  specialize (Hl ps None Hps I). destruct (fold_left later_pause ps None) as [b|]; cbn; [|done].
  by destruct (Z.leb_spec (pl_created_at b) (pl_created_at p)); [|lia].
Qed.
End Clock.

Definition started (c : case_row) : Z := default (c_created_at c) (c_effective_start_time c).

(** A suspension at [env1], followed by a resumption at [env2]. *)
Lemma suspension_cycle `{clock : BusinessClock} (env1 env2 : Env) repo caseID busy reason resumeAt
    db db1 db2 c d :
  repo_concrete repo = true →
  commits busy (SuspendCase_tx (env := env1) repo caseID reason resumeAt) db = Some (tt, db1) →
  commits busy (ResumeCase_tx (env := env2) repo caseID) db1 = Some (tt, db2) →
  case_of db caseID = Ok c → c_sla_duration_ms c = Some d → 0 < d →
  Forall (λ p, pl_created_at p ≤ env_now (Env := env1)) (case_pauses caseID db) →
  ∃ e due,
    elapsed_ms repo (c_sla_calendar_id c) (started c) (env_clock (Env := env1)) = Ok e ∧
    new_due repo (c_sla_calendar_id c) (env_clock (Env := env2)) (remaining d e) = Ok due ∧
    sla_clock <$> case_of db2 caseID =
      Ok (c_sla_calendar_id c, Some d, Some (env_clock (Env := env2)), c_created_at c, Some due) ∧
    case_pauses caseID db2 =
      case_pauses caseID db ++ [pause_record (env := env1) caseID "CASE_SUSPENDED" e].
Proof.
  intros Hr H1 H2 Hc Hd Hpos Hp.
  apply (suspend_clock (env := env1) repo caseID Hr) in H1 as (c' & e & Hc' & He & Hs & Hps).
  rewrite Hc in Hc'. injection Hc' as <-.
  destruct (case_of db1 caseID) as [c1|] eqn:Hc1; [|done]. injection Hs as K1 K2 K3 K4 K5.
  apply (resume_clock (env := env2) repo caseID Hr _ _ _ c1 d
    (pause_record (env := env1) caseID "CASE_SUSPENDED" e)) in H2
    as (due & Hdue & Hs2 & Hp2); try congruence.
  - exists e, due. split_and!; [done|by rewrite <- K1|by rewrite Hs2, K1, K4|by rewrite Hp2].
  - by eapply latest_appended.
Qed.

Lemma remaining_clamped d e :
  in_int64 ((d - e) * Millisecond) → remaining d e = Z.max 0 ((d - e) * Millisecond).
Proof.
  intros Hin. unfold remaining. rewrite wrap64_id by done.
  destruct (Z.ltb_spec ((d - e) * Millisecond) 0); lia.
Qed.

(** Suspending a case and resuming it gives the case a due date as far from the resumption, in
    business time, as its duration less the business time that had run since its clock was last
    (re)started when it was suspended; the clock restarts.  For a case that was never suspended
    before that is all the time that had run. *)
Theorem suspension_keeps_the_time_left `{clock : BusinessClock} (env1 env2 : Env)
    (repo : repo_kind) (drv : driver) (caseID reason : string) (resumeAt : option Z)
    (db db1 db2 : database) (c : case_row) (d : Z) :
  repo_concrete repo = true →
  SuspendCase (env := env1) repo drv caseID reason resumeAt db = (Ok tt, db1) →
  ResumeCase (env := env2) repo drv caseID db1 = (Ok tt, db2) →
  case_of db caseID = Ok c → c_sla_duration_ms c = Some d → 0 < d →
  Forall (λ p, pl_created_at p ≤ env_now (Env := env1)) (case_pauses caseID db) →
  ∃ e due c2,
    elapsed_ms repo (c_sla_calendar_id c) (started c) (env_clock (Env := env1)) = Ok e ∧
    (in_int64 ((d - e) * Millisecond) →
     new_due repo (c_sla_calendar_id c) (env_clock (Env := env2))
       (Z.max 0 ((d - e) * Millisecond)) = Ok due) ∧
    case_of db2 caseID = Ok c2 ∧ c_due_at c2 = Some due ∧
    started c2 = env_clock (Env := env2) ∧ c_status c2 = "IN_PROGRESS".
Proof.
  intros Hr H1%within_tx_commits H2%within_tx_commits Hc Hd Hpos Hp.
  pose proof (resume_commits (env := env2) _ _ _ _ _ H2) as [[(x & c2 & _ & Hc2 & _ & Hst) _] _].
  destruct (suspension_cycle env1 env2 repo caseID _ _ _ _ _ _ c d Hr H1 H2 Hc Hd Hpos Hp)
    as (e & due & He & Hdue & Hs & _).
  rewrite Hc2 in Hs. injection Hs as K1 K2 K3 K4 K5.
  exists e, due, c2. split_and!; try done.
  - intros Hin. rewrite <- Hdue. by rewrite remaining_clamped.
  - unfold started. by rewrite K3.
Qed.

(** C35. A second suspension gives back the time spent before the first.  Of a case that is
    suspended and resumed twice, [e1] of its duration [d] had run before the first suspension and
    [e2] between the first resumption and the second suspension; but its final due date leaves it
    [d - e2] of business time from the second resumption, and not [d - e1 - e2]. *)
Theorem second_suspension_gives_time_back `{clock : BusinessClock} (env1 env2 env3 env4 : Env)
    (repo : repo_kind) (drv : driver) (caseID r1 r2 : string) (at1 at2 : option Z)
    (db db1 db2 db3 db4 : database) (c : case_row) (d : Z) :
  repo_concrete repo = true →
  SuspendCase (env := env1) repo drv caseID r1 at1 db = (Ok tt, db1) →
  ResumeCase (env := env2) repo drv caseID db1 = (Ok tt, db2) →
  SuspendCase (env := env3) repo drv caseID r2 at2 db2 = (Ok tt, db3) →
  ResumeCase (env := env4) repo drv caseID db3 = (Ok tt, db4) →
  case_of db caseID = Ok c → c_sla_duration_ms c = Some d → 0 < d →
  Forall (λ p, pl_created_at p ≤ env_now (Env := env1)) (case_pauses caseID db) →
  env_now (Env := env1) ≤ env_now (Env := env3) →
  ∃ e1 e2 due c4,
    elapsed_ms repo (c_sla_calendar_id c) (started c) (env_clock (Env := env1)) = Ok e1 ∧
    elapsed_ms repo (c_sla_calendar_id c) (env_clock (Env := env2)) (env_clock (Env := env3)) = Ok e2 ∧
    (in_int64 ((d - e2) * Millisecond) →
     new_due repo (c_sla_calendar_id c) (env_clock (Env := env4))
       (Z.max 0 ((d - e2) * Millisecond)) = Ok due) ∧
    case_of db4 caseID = Ok c4 ∧ c_due_at c4 = Some due ∧ c_sla_duration_ms c4 = Some d.
Proof.
  intros Hr H1%within_tx_commits H2%within_tx_commits H3%within_tx_commits H4%within_tx_commits
    Hc Hd Hpos Hp Hle.
  destruct (suspension_cycle env1 env2 repo caseID _ _ _ _ _ _ c d Hr H1 H2 Hc Hd Hpos Hp)
    as (e & due & He & _ & Hs & Hps).
  destruct (case_of db2 caseID) as [c2|] eqn:Hc2; [|done]. injection Hs as K1 K2 K3 K4 K5.
  destruct (suspension_cycle env3 env4 repo caseID _ _ _ _ _ _ c2 d Hr H3 H4 Hc2 K2 Hpos)
    as (e' & due' & He' & Hdue' & Hs' & _).
  { rewrite Hps. apply Forall_app. split; [|by repeat constructor].
    eapply Forall_impl; [exact Hp|]. cbn. lia. }
  destruct (case_of db4 caseID) as [c4|] eqn:Hc4; [|done]. injection Hs' as K1' K2' K3' K4' K5'.
  exists e, e', due', c4. unfold started in He'. rewrite K1, K3 in He'. rewrite K1 in Hdue'.
  split_and!; try done. intros Hin. rewrite <- Hdue'. by rewrite remaining_clamped.
Qed.

(** ** Cloning *)

Lemma insert_rows_Ok {R} check conflict (rs : list R) : ∀ rows rows',
  insert_rows check conflict rs rows = Ok rows' → rows' = rows ++ rs.
Proof.
  induction rs as [|r rs IH]; intros rows rows' H; cbn in H.
  - injection H as <-. by rewrite app_nil_r.
  - unfold insert_row in H. destruct (_ && _); [|done]. apply IH in H as ->.
    by rewrite <- app_assoc.
Qed.

Lemma clone_tasks_map `{env : Env} {B} (g : task_row → B) caseID :
  (∀ t id, g (cloned_task caseID t id) = g t) →
  ∀ sources n, map g (clone_tasks caseID sources n) = map g sources.
Proof. intros Hg. induction sources as [|t l IH]; intros n; cbn; [done|]. by rewrite Hg, IH. Qed.

Lemma clone_tasks_forall `{env : Env} caseID : ∀ sources n,
  Forall (λ t, t_case_id t = caseID ∧ t_status t = "PENDING" ∧ t_assignee_id t = None ∧
               t_assigned_service t = None) (clone_tasks caseID sources n).
Proof. induction sources as [|t l IH]; intros n; constructor; [done|apply IH]. Qed.

Definition copies (db db' : database) (sourceCaseID newCaseID : string) (ts : list task_row) : Prop :=
  tasks db' = tasks db ++ ts ∧
  map t_task_definition_code ts =
    map t_task_definition_code (sql_select (by_id t_case_id sourceCaseID) (tasks db)) ∧
  Forall (λ t, t_case_id t = newCaseID ∧ t_status t = "PENDING" ∧ t_assignee_id t = None ∧
               t_assigned_service t = None) ts.

Definition rows_kept (db db' : database) : Prop := cases db' = cases db ∧ tasks db' = tasks db.
#[export] Instance rows_kept_preorder : PreOrder rows_kept.
Proof. split; [by split|]. intros db1 db2 db3 [] []. split; congruence. Qed.

Lemma clone_commits `{env : Env} busy sourceCaseID db id db' :
  commits busy (CloneCase_tx sourceCaseID) db = Some (id, db') →
  str_mem "CLONED" env_case_statuses = true ∧
  ∃ source ts, case_of db sourceCaseID = Ok source ∧
    (∀ c, c ∈ cases db → c_id c ≠ id) ∧
    cases db' = cases db ++ [cloned_case source id] ∧ copies db db' sourceCaseID id ts.
Proof.
  unfold CloneCase_tx, repository_CloneCase, insert_cloned_case. intros H.
  tx_step H. unfold GetCaseInstance in H. rewrite commits_get in H. fold (case_of db sourceCaseID) in H.
  destruct (case_of db sourceCaseID) as [source|] eqn:Hs; [|done].
  rewrite !commits_bind, commits_stmt in H by balance.
  unfold case_of in Hs. rewrite Hs in H. cbn [mbind result_bind] in H. cbv zeta in H.
  unfold insert_row at 1 in H. destruct (_ && _) eqn:Hck; [|done]. cbn [mbind result_bind] in H.
  rewrite commits_bind, commits_stmt in H by balance.
  destruct (insert_rows _ _ _ _) as [rows|] eqn:Hr; [|done].
  cbn [mbind result_bind] in H. rewrite commits_mret, commits_bind in H by balance.
  destruct (commits busy (lifecycle_event _ _ _) _) as [[[] db1]|] eqn:Hp; [|done].
  rewrite commits_mret in H. injection H as <- <-.
  eapply (commits_all busy rows_kept) in Hp as [Hp1 Hp2]; [|kept_steps; by simplify_eq].
  apply insert_rows_Ok in Hr. cbn in Hp1, Hp2, Hr. apply andb_prop in Hck as [Hck Hno].
  unfold case_check in Hck. apply andb_prop in Hck as [Hck _]. split; [done|].
  exists source. eexists. split_and!; [done| |exact Hp1|].
  - intros c Hc E. apply negb_true_iff in Hno.
    assert (Hin : existsb (λ c', c_id (cloned_case source (env_uuid (uuid_pos db))) =?s c_id c')
      (cases db) = true); [|congruence].
    apply existsb_exists. exists c. rewrite <- list_elem_of_In. split; [done|].
    cbn. rewrite E. apply string_eqb_refl.
  - split_and!; [by rewrite Hp2, Hr|by apply clone_tasks_map|apply clone_tasks_forall].
Qed.

(** Cloning adds one case, a copy of the source that remembers it and starts over,
    under an identifier no case had, and a fresh unassigned task for each task of the
    source; no existing case or task changes. *)
Theorem CloneCase_copies `{env : Env} (drv : driver) (sourceCaseID id : string)
    (db db' : database) :
  CloneCase drv sourceCaseID db = (Ok id, db') →
  ∃ source ts, case_of db sourceCaseID = Ok source ∧
    (∀ c, c ∈ cases db → c_id c ≠ id) ∧
    cases db' = cases db ++ [cloned_case source id] ∧ copies db db' sourceCaseID id ts.
Proof. by intros [_ H]%within_tx_commits%clone_commits. Qed.

(** Under the status constraint the last migration leaves on the table of cases
    no case can be cloned: the status of a clone is not among those it lists. *)
Theorem no_case_can_be_cloned `{env : Env} (drv : driver) (sourceCaseID : string) (db : database) :
  env_case_statuses = case_statuses_35 →
  ∃ e, CloneCase drv sourceCaseID db = (Err e, db).
Proof.
  intros E. apply within_tx_no_commit.
  destruct (commits _ _ _) as [[id db']|] eqn:H; [|done].
  apply clone_commits in H as [H _]. by rewrite E in H.
Qed.

(** ** Concrete runs *)

Definition life_case (status : string) : case_row :=
  {| c_id := "case-1"; c_tenant_id := DefaultTenantID; c_case_type_id := "loan";
     c_source_case_id := None; c_current_stage_code := Some "REVIEW";
     c_current_stage_ordinal := 2; c_status := status; c_metadata := VMap [];
     c_assigned_to := None; c_assigned_user_id := Some "officer"; c_rework_count := 0;
     c_max_rework_attempts := 3; c_row_version := 1; c_created_at := 980 * Hour;
     c_completed_at := None; c_suspend_reason := None; c_resume_at := None;
     c_withdrawal_reason := None; c_emergency_closed_at := None; c_emergency_reason := None;
     c_supervisor_id := None; c_effective_start_time := Some (990 * Hour);
     c_due_at := Some (1014 * Hour); c_sla_duration_ms := Some (24 * 3600000);
     c_sla_calendar_id := Some "cal"; c_sla_warning_issued_at := None;
     c_sla_critical_issued_at := None;
     c_parent_case_id := None; c_case_type_version_id := None; c_exception_at := None;
     c_exception_reason := None; c_exception_task_id := None; c_exception_severity := None;
     c_case_complexity := None; c_required_skills := None |}.

Definition life_task (id status : string) : task_row :=
  blank_task id "case-1" "CREDIT_CHECK" status
    <| t_assignee_id := Some "worker" |> <| t_assigned_at := Some 0 |>.

Definition life_token : token_row :=
  {| fe_token := "tok"; fe_case_id := "case-1"; fe_issuer_id := "boss"; fe_expires_at := 2000 * Hour;
     fe_consumed_at := None; fe_consumed_by := None |}.

Definition life_db (status : string) (ts : list string) : database :=
  empty_db <| cases := [life_case status] |> <| tokens := [life_token] |>
    <| tasks := map (λ s, life_task ("task-" +:+ s) s) ts |>.

(** A calendar that never closes. *)
Definition always_open : BusinessClock :=
  {| bc_add := λ _ t d, Ok (t + d); bc_elapsed := λ _ from to, Ok (to - from) |}.
Definition life_repo : repo_kind := {| repo_concrete := true; repo_has_sqlx := true |}.

(** The environment [h] hours into the epoch. *)
Definition env_at (h : Z) : Env :=
  {| env_now := h * Hour; env_clock := h * Hour;
     env_ctx := env_ctx (Env := sample_env case_statuses_35);
     env_uuid := env_uuid (Env := sample_env case_statuses_35);
     env_case_statuses := case_statuses_35; env_sprint := λ _, "" |}.

(** The state a method leaves behind. *)
Definition withdrawn_db : database :=
  snd (lifecycle_method (env := env_at 1000) (clock := always_open) life_repo (reliable true)
    (Withdraw "changed my mind") "case-1" (life_db "IN_PROGRESS" ["ASSIGNED"; "COMPLETED"])).

Lemma closing_leaves_no_open_task_witness :
  no_unfinished "case-1" withdrawn_db ∧
  c_status <$> case_of withdrawn_db "case-1" = Ok "CANCELLED".
Proof.
  apply (closing_leaves_no_open_task (env := env_at 1000) (clock := always_open) life_repo
    (reliable true) (Withdraw "changed my mind") "case-1"
    (life_db "IN_PROGRESS" ["ASSIGNED"; "COMPLETED"])); [reflexivity|vm_compute; reflexivity].
Defined.

Definition force_closed_db : database :=
  snd (lifecycle_method (env := env_at 1000) (clock := always_open) life_repo (reliable true)
    (Emergency "fraud" "chief" "tok") "case-1" (life_db "IN_PROGRESS" ["ASSIGNED"])).

Lemma EmergencyClose_four_eyes_witness : ∃ e,
  EmergencyClose (env := env_at 1001) (reliable true) "case-1" "fraud" "chief" "tok" force_closed_db =
    (Err e, force_closed_db).
Proof.
  destruct (EmergencyClose_four_eyes (env := env_at 1000) (clock := always_open) life_repo
    (reliable true) "case-1" "fraud" "chief" "tok" (life_db "IN_PROGRESS" ["ASSIGNED"])
    force_closed_db) as (_ & _ & Hr); [vm_compute; reflexivity|].
  exact (Hr (env_at 1001) (reliable true) "case-1" "fraud" "chief").
Defined.

Definition suspended_db : database :=
  snd (SuspendCase (env := env_at 1000) (clock := always_open) life_repo (reliable false) "case-1"
    "documents" None (life_db "IN_PROGRESS" ["IN_PROGRESS"])).
Definition parked_task : task_row := reset_task (life_task "task-IN_PROGRESS" "IN_PROGRESS").

Lemma SuspendCase_parks_the_tasks_witness :
  t_status parked_task = "PENDING" ∧ t_assignee_id parked_task = None.
Proof.
  apply (SuspendCase_parks_the_tasks (env := env_at 1000) (clock := always_open) life_repo
    (reliable false) "case-1" "documents" None (life_db "IN_PROGRESS" ["IN_PROGRESS"])
    suspended_db); [vm_compute; reflexivity|vm_compute; constructor|reflexivity|reflexivity].
Defined.

Lemma in_flight_case_cannot_be_suspended_witness : ∃ e,
  lifecycle_method (env := env_at 1000) (clock := always_open) life_repo (reliable true)
    (Suspend "documents" None) "case-1" (life_db "IN_PROGRESS" ["IN_PROGRESS"]) =
    (Err e, life_db "IN_PROGRESS" ["IN_PROGRESS"]).
Proof.
  apply (in_flight_case_cannot_be_suspended (env := env_at 1000) (clock := always_open));
    [reflexivity|reflexivity|by left|].
  eexists. split; [apply list_elem_of_here|reflexivity].
Defined.

(** Suspended ten hours after its clock was started, resumed six hours later, and so
    again: without tasks in flight, as the driver asks for. *)
Definition paused_once : database :=
  snd (SuspendCase (env := env_at 1000) (clock := always_open) life_repo (reliable true) "case-1"
    "documents" None (life_db "IN_PROGRESS" ["COMPLETED"])).
Definition resumed_once : database :=
  snd (ResumeCase (env := env_at 1006) (clock := always_open) life_repo (reliable true) "case-1"
    paused_once).
Definition paused_twice : database :=
  snd (SuspendCase (env := env_at 1010) (clock := always_open) life_repo (reliable true) "case-1"
    "documents" None resumed_once).
Definition resumed_twice : database :=
  snd (ResumeCase (env := env_at 1012) (clock := always_open) life_repo (reliable true) "case-1"
    paused_twice).

Lemma suspension_keeps_the_time_left_witness :
  c_due_at <$> case_of resumed_once "case-1" = Ok (Some (1020 * Hour)).
Proof.
  destruct (suspension_keeps_the_time_left (clock := always_open) (env_at 1000) (env_at 1006)
    life_repo (reliable true) "case-1" "documents" None (life_db "IN_PROGRESS" ["COMPLETED"])
    paused_once resumed_once (life_case "IN_PROGRESS") (24 * 3600000))
    as (e & due & c2 & He & Hdue & Hc2 & Hd2 & _);
    [reflexivity|vm_compute; reflexivity|vm_compute; reflexivity|reflexivity|reflexivity|lia
    |constructor|].
  vm_compute in He. injection He as <-. specialize (Hdue ltac:(split; vm_compute; discriminate)).
  vm_compute in Hdue. injection Hdue as <-.
  rewrite Hc2. cbn. by rewrite Hd2.
Defined.

(** 24 hours of business time were granted; the case has had 10 of them before the
    first suspension and 4 before the second, and has 20 left. *)
Lemma second_suspension_gives_time_back_witness : ∃ e1 e2,
  e1 = 10 * 3600000 ∧ e2 = 4 * 3600000 ∧
  c_due_at <$> case_of resumed_twice "case-1" = Ok (Some ((1012 + 20) * Hour)).
Proof.
  destruct (second_suspension_gives_time_back (clock := always_open) (env_at 1000) (env_at 1006)
    (env_at 1010) (env_at 1012) life_repo (reliable true) "case-1" "documents" "documents" None None
    (life_db "IN_PROGRESS" ["COMPLETED"]) paused_once resumed_once paused_twice resumed_twice
    (life_case "IN_PROGRESS") (24 * 3600000)) as (e1 & e2 & due & c4 & He1 & He2 & Hdue & Hc4 & Hd4 & _);
    [reflexivity|vm_compute; reflexivity..|reflexivity|reflexivity|lia|constructor
    |vm_compute; discriminate|].
  exists e1, e2. vm_compute in He1, He2. injection He1 as <-. injection He2 as <-.
  split; [reflexivity|]. split; [reflexivity|].
  specialize (Hdue ltac:(split; vm_compute; discriminate)). vm_compute in Hdue. injection Hdue as <-.
  rewrite Hc4. cbn. by rewrite Hd4.
Defined.

Definition env_25 : Env :=
  {| env_now := env_now (Env := env_at 1000); env_clock := env_clock (Env := env_at 1000);
     env_ctx := env_ctx (Env := env_at 1000); env_uuid := env_uuid (Env := env_at 1000);
     env_case_statuses := case_statuses_25; env_sprint := λ _, "" |}.
Definition cloned_db : database :=
  snd (CloneCase (env := env_25) (reliable true) "case-1" (life_db "IN_PROGRESS" ["ASSIGNED"])).

Lemma CloneCase_copies_witness : ∃ ts,
  copies (life_db "IN_PROGRESS" ["ASSIGNED"]) cloned_db "case-1" "uuid-0" ts.
Proof.
  destruct (CloneCase_copies (env := env_25) (reliable true) "case-1" "uuid-0"
    (life_db "IN_PROGRESS" ["ASSIGNED"]) cloned_db) as (source & ts & _ & _ & _ & Hts);
    [vm_compute; reflexivity|].
  exists ts. exact Hts.
Defined.

Lemma no_case_can_be_cloned_witness : ∃ e,
  CloneCase (env := env_at 1000) (reliable true) "case-1" (life_db "IN_PROGRESS" []) =
    (Err e, life_db "IN_PROGRESS" []).
Proof. apply (no_case_can_be_cloned (env := env_at 1000)). reflexivity. Defined.
