(* ===== verification/SlaCalendar.v ===== *)
(** * The business calendar (internal/sla/calendar.go)

    Working hours, working days and holidays of a calendar in its time zone;
    [AddBusinessHours] turns a duration of business time into a due date and
    [BusinessHoursElapsed] measures business time.  Together they implement the
    [BusinessClock] the services use. *)

From Stdlib Require Import Ascii String ZArith Lia.
From stdpp Require Import base list strings.
From S2P Require Import Prelude SqlTx CaseConfig Schema CaseLifecycle.

Open Scope Z_scope.
Open Scope go_scope.

(** ** Civil time

    An instant is in nanoseconds since the epoch.  A [time.Location] is its table of
    offsets, a function from instants to nanoseconds ([tzdata] is data the program
    reads); [time.Date] looks the offset up at the wall clock read as an instant, and
    once more at the instant that gives. *)

Definition Day : Z := 24 * Hour.

Definition location := Z → Z.

Definition wall_clock (loc : location) (t : Z) : Z := t + loc t.
Definition time_Date (loc : location) (wall : Z) : Z := wall - loc (wall - loc wall).

(** The number of the civil day of an instant, 0 for 1970-01-01. *)
Definition day_of (loc : location) (t : Z) : Z := wall_clock loc t / Day.

(** [Weekday]: 0 is Sunday. *)
Definition Weekday (day : Z) : Z := (day + 4) mod 7.

(** Month and day of the month, in the proleptic Gregorian calendar. *)
Definition month_day (day : Z) : Z * Z :=
  let z := day + 719468 in
  let doe := z mod 146097 in
  let yoe := (doe - doe / 1460 + doe / 36524 - doe / 146096) / 365 in
  let doy := doe - (365 * yoe + yoe / 4 - yoe / 100) in
  let mp := (5 * doy + 2) / 153 in
  (if mp <? 10 then mp + 3 else mp - 9, doy - (153 * mp + 2) / 5 + 1).

Example month_day_leap : map month_day [0; 11016; 11017; 20088] = [(1, 1); (2, 29); (3, 1); (12, 31)].
Proof. reflexivity. Qed.

(** ** Calendars *)

(** A row of [business_calendars]; the times of day are in seconds. *)
Record calendar_row := {
  bcal_id : string; bcal_name : string; bcal_tenant_id : string; bcal_timezone : string;
  bcal_start_time : Z; bcal_end_time : Z; bcal_working_days : Z;
}.
(** A row of [holiday_calendars]; the date is the number of its day. *)
Record holiday_row := { hol_calendar_id : string; hol_date : Z; hol_recurring : bool }.

(** What [loadBusinessCalendar] reads. *)
Record calendar_store := {
  store_calendars : list calendar_row;
  store_holidays : list holiday_row;
  store_zones : string → option location;
}.

(** [loadedCalendar], with its location. *)
Record loadedCalendar := {
  StartTime : string; EndTime : string; WorkingDays : Z;
  holidayDateSet : list Z; holidayMonthDay : list (Z * Z);
}.

(** [to_char(t, 'HH24:MI')] *)
Definition two_digits (n : Z) : string :=
  String (digit_char (Z.to_N (n / 10))) (String (digit_char (Z.to_N (n mod 10))) "").
Definition to_char (seconds : Z) : string :=
  two_digits (seconds / 3600) +:+ ":" +:+ two_digits (seconds / 60 mod 60).

(** [time.Parse("15:04", s)]: an hour of one or two digits, two digits of minutes. *)
Definition digit_val (c : ascii) : Z := Z.of_N (byte_of c) - 48.
Definition parse_minutes (hour : Z) (s : string) : result (Z * Z) :=
  match s with
  | String ":" (String a (String b EmptyString)) =>
      let minute := 10 * digit_val a + digit_val b in
      if is_digit a && is_digit b && (hour <? 24) && (minute <? 60)
      then Ok (hour, minute) else Err (ErrMsg "parsing time")
  | _ => Err (ErrMsg "parsing time")
  end.
Definition parseClockHM (s : string) : result (Z * Z) :=
  match s with
  | String a s =>
      if negb (is_digit a) then Err (ErrMsg "parsing time")
      else match s with
           | String b s' =>
               if is_digit b then parse_minutes (10 * digit_val a + digit_val b) s'
               else parse_minutes (digit_val a) s
           | EmptyString => Err (ErrMsg "parsing time")
           end
  | EmptyString => Err (ErrMsg "parsing time")
  end.

Definition weekdayMask (weekday : Z) : Z :=
  if weekday =? 1 then 1 else if weekday =? 2 then 2 else if weekday =? 3 then 4
  else if weekday =? 4 then 8 else if weekday =? 5 then 16 else if weekday =? 6 then 32
  else if weekday =? 0 then 64 else 0.
Definition isWorkingWeekday (weekday bitfield : Z) : bool :=
  negb (Z.land bitfield (weekdayMask weekday) =? 0).

(** The iteration limits of the loops. *)
Definition align_limit : nat := Z.to_nat 20000.
Definition loop_limit : nat := Z.to_nat 50000.
Lemma align_limit_eq : Z.of_nat align_limit = 20000.
Proof. by apply Z2Nat.id. Qed.
Lemma loop_limit_eq : Z.of_nat loop_limit = 50000.
Proof. by apply Z2Nat.id. Qed.
#[global] Opaque align_limit loop_limit.

Section Calendar.
Context (loc : location) (cal : loadedCalendar).

Definition business_day (day : Z) : bool :=
  isWorkingWeekday (Weekday day) (WorkingDays cal) &&
  negb (bool_decide (day ∈ holidayDateSet cal)) &&
  negb (bool_decide (month_day day ∈ holidayMonthDay cal)).
Definition isBusinessDay (t : Z) : bool := business_day (day_of loc t).

(** The instant of a time of day. *)
Definition at_clock (day : Z) (hm : Z * Z) : Z :=
  time_Date loc (day * Day + hm.1 * Hour + hm.2 * Minute).

Definition workingWindow (t : Z) : result (Z * Z) :=
  start ← parseClockHM (StartTime cal);
  finish ← parseClockHM (EndTime cal);
  let dayStart := at_clock (day_of loc t) start in
  let dayEnd := at_clock (day_of loc t) finish in
  if dayStart <? dayEnd then Ok (dayStart, dayEnd)
  else Err (ErrMsg "workingWindow: end_time must be after start_time").

(** [t.AddDate(0, 0, 1)], at the calendar's start. *)
Definition nextDayAtCalendarStart (t : Z) : Z :=
  match parseClockHM (StartTime cal) with
  | Err _ => t + 24 * Hour
  | Ok start => at_clock (day_of loc (time_Date loc (wall_clock loc t + Day))) start
  end.

Fixpoint align_loop (fuel : nat) (current : Z) : result Z :=
  match fuel with
  | O => Err (ErrMsg "alignToWorkingStart: exceeded iteration safety limit")
  | S fuel =>
      if negb (isBusinessDay current) then align_loop fuel (nextDayAtCalendarStart current)
      else
        '(dayStart, dayEnd) ← workingWindow current;
        if current <? dayStart then Ok dayStart
        else if dayEnd <=? current then align_loop fuel (nextDayAtCalendarStart current)
        else Ok current
  end.
Definition alignToWorkingStart : Z → result Z := align_loop align_limit.

Fixpoint add_loop (fuel : nat) (current remaining : Z) : result Z :=
  match fuel with
  | O => Err (ErrMsg "AddBusinessHours: exceeded iteration safety limit")
  | S fuel =>
      if negb (isBusinessDay current) then add_loop fuel (nextDayAtCalendarStart current) remaining
      else
        '(dayStart, dayEnd) ← workingWindow current;
        let current := if current <? dayStart then dayStart else current in
        if dayEnd <=? current then add_loop fuel (nextDayAtCalendarStart current) remaining
        else
          let available := dayEnd - current in
          if remaining <=? available then Ok (current + remaining)
          else add_loop fuel (nextDayAtCalendarStart current) (remaining - available)
  end.

Fixpoint elapsed_loop (fuel : nat) (current target elapsed : Z) : result Z :=
  match fuel with
  | O => Ok elapsed
  | S fuel =>
      if negb (current <? target) then Ok elapsed
      else if negb (isBusinessDay current)
      then elapsed_loop fuel (nextDayAtCalendarStart current) target elapsed
      else
        '(dayStart, dayEnd) ← workingWindow current;
        let current := if current <? dayStart then dayStart else current in
        if dayEnd <=? current
        then elapsed_loop fuel (nextDayAtCalendarStart current) target elapsed
        else
          let segmentEnd := if target <? dayEnd then target else dayEnd in
          let elapsed := if current <? segmentEnd then elapsed + (segmentEnd - current)
                         else elapsed in
          let current := segmentEnd in
          if negb (current <? target) then Ok elapsed
          else elapsed_loop fuel
                 (if dayEnd <=? current then nextDayAtCalendarStart current else current)
                 target elapsed
  end.
End Calendar.

(** ** Loading a calendar *)

Definition by_id_or_name (calendarID : string) (c : calendar_row) : bool :=
  (bcal_id c =?s calendarID) || (bcal_name c =?s calendarID).

(** [ORDER BY CASE WHEN id::text = $1 THEN 0 ELSE 1 END LIMIT 1] *)
Definition find_calendar (store : calendar_store) (calendarID : string) : result calendar_row :=
  match sql_get (by_id bcal_id calendarID) (store_calendars store) with
  | Ok c => Ok c
  | Err _ => sql_get (by_id_or_name calendarID) (store_calendars store)
  end.

Definition load_holidays (loc : location) (rows : list holiday_row) : list Z * list (Z * Z) :=
  let local_day (h : holiday_row) := day_of loc (time_Date loc (hol_date h * Day)) in
  (map local_day (List.filter (λ h, negb (hol_recurring h)) rows),
   map (λ h, month_day (local_day h)) (List.filter hol_recurring rows)).

Definition loadBusinessCalendar (store : calendar_store) (calendarID : string)
    : result (loadedCalendar * location) :=
  if calendarID =?s "" then Err (ErrMsg "calendar id is required")
  else
    row ← find_calendar store calendarID;
    match store_zones store (bcal_timezone row) with
    | None => Err (ErrMsg "loadBusinessCalendar: invalid timezone")
    | Some loc =>
        let holidays := load_holidays loc
          (sql_select (by_id hol_calendar_id (bcal_id row)) (store_holidays store)) in
        Ok ({| StartTime := to_char (bcal_start_time row); EndTime := to_char (bcal_end_time row);
               WorkingDays := bcal_working_days row;
               holidayDateSet := holidays.1; holidayMonthDay := holidays.2 |}, loc)
    end.

Definition AddBusinessHours (store : calendar_store) (start duration : Z) (calendarID : string)
    : result Z :=
  if duration <? 0 then Err (ErrMsg "AddBusinessHours: duration must be non-negative")
  else if duration =? 0 then Ok start
  else
    '(cal, loc) ← loadBusinessCalendar store calendarID;
    current ← alignToWorkingStart loc cal start;
    add_loop loc cal loop_limit current duration.

Definition BusinessHoursElapsed (store : calendar_store) (start finish : Z) (calendarID : string)
    : result Z :=
  if finish <? start then Err (ErrMsg "BusinessHoursElapsed: end is before start")
  else if finish =? start then Ok 0
  else
    '(cal, loc) ← loadBusinessCalendar store calendarID;
    elapsed ← elapsed_loop loc cal loop_limit start finish 0;
    if elapsed <? 0 then Err (ErrMsg "BusinessHoursElapsed: computed negative elapsed duration")
    else Ok elapsed.

(** The calendars are what the services take for a [BusinessClock]. *)
#[export] Instance calendar_clock (store : calendar_store) : BusinessClock :=
  {| bc_add := λ calendarID start duration, AddBusinessHours store start duration calendarID;
     bc_elapsed := λ calendarID start finish, BusinessHoursElapsed store start finish calendarID |}.

(** A calendar for the examples: Monday to Friday, nine to five, in UTC. *)
Definition nine_to_five (holidays : list (Z * bool)) : calendar_store :=
  {| store_calendars := [{| bcal_id := "cal"; bcal_name := "office"; bcal_tenant_id := "acme";
       bcal_timezone := "UTC"; bcal_start_time := 9 * 3600; bcal_end_time := 17 * 3600;
       bcal_working_days := 31 |}];
     store_holidays := map (λ h, {| hol_calendar_id := "cal"; hol_date := h.1;
                                    hol_recurring := h.2 |}) holidays;
     store_zones := λ z, if z =?s "UTC" then Some (λ _, 0) else None |}.

(** The cases of calendar_test.go; 20137 is Tuesday, 2025-02-18. *)
Example calendar_test_add :
  let at_ d h := (20137 + d) * Day + h * Hour in
  AddBusinessHours (nine_to_five []) (at_ 0 10) (3 * Hour) "office" = Ok (at_ 0 13) ∧
  AddBusinessHours (nine_to_five []) (at_ 0 16) (4 * Hour) "office" = Ok (at_ 1 12) ∧
  AddBusinessHours (nine_to_five []) (at_ 3 16) (4 * Hour) "office" = Ok (at_ 6 12) ∧
  AddBusinessHours (nine_to_five [(20138, false)]) (at_ 0 16) (4 * Hour) "office" = Ok (at_ 2 12) ∧
  AddBusinessHours (nine_to_five []) (at_ (-1) 10) (40 * Hour) "office" = Ok (at_ 6 10) ∧
  AddBusinessHours (nine_to_five []) (at_ 0 7) (2 * Hour) "office" = Ok (at_ 0 11) ∧
  BusinessHoursElapsed (nine_to_five []) (at_ 0 16) (at_ 1 11) "office" = Ok (3 * Hour).
Proof. vm_compute. repeat split. Qed.

(** ** Sums over days *)

Fixpoint days_sum (lo : Z) (n : nat) (f : Z → Z) : Z :=
  match n with O => 0 | S n => f lo + days_sum (lo + 1) n f end.

Lemma days_sum_ext f g n : ∀ lo,
  (∀ d, lo ≤ d < lo + Z.of_nat n → f d = g d) → days_sum lo n f = days_sum lo n g.
Proof.
  induction n as [|n IH]; intros lo H; cbn; [done|]. rewrite H by lia. f_equal.
  apply IH. intros d Hd. apply H. lia.
Qed.

Lemma days_sum_add f g n : ∀ lo,
  days_sum lo n (λ d, f d + g d) = days_sum lo n f + days_sum lo n g.
Proof. induction n as [|n IH]; intros lo; cbn; [done|]. rewrite IH. lia. Qed.

Lemma days_sum_zero f n lo :
  (∀ d, lo ≤ d < lo + Z.of_nat n → f d = 0) → days_sum lo n f = 0.
Proof.
  revert lo. induction n as [|n IH]; intros lo H; cbn; [done|]. rewrite H by lia.
  apply IH. intros d Hd. apply H. lia.
Qed.

Lemma days_sum_point day x n : ∀ lo,
  lo ≤ day < lo + Z.of_nat n → days_sum lo n (λ d, if d =? day then x else 0) = x.
Proof.
  induction n as [|n IH]; intros lo H; [lia|]. cbn.
  destruct (Z.eqb_spec lo day) as [->|Hne].
  - rewrite days_sum_zero; [lia|]. intros d Hd. destruct (Z.eqb_spec d day); lia.
  - rewrite IH; lia.
Qed.

(** ** Business time

    What the two loops compute is defined here without them: the sum, over the days
    from [a] to [b], of the part of the working window that lies between [a] and [b]. *)

(** A zone in which the calendar's windows are ordinary: each lies within its day,
    days follow one another, and a day later is the next day.  Zones with fixed
    offsets are; so are zones whose clock changes are away from midnight and from
    the ends of the window. *)
Class RegularZone (loc : location) (cal : loadedCalendar) := {
  rz_start : Z * Z;
  rz_finish : Z * Z;
  rz_parse_start : parseClockHM (StartTime cal) = Ok rz_start;
  rz_parse_finish : parseClockHM (EndTime cal) = Ok rz_finish;
  rz_window : ∀ day, at_clock loc day rz_start < at_clock loc day rz_finish;
  rz_inside : ∀ day t,
    at_clock loc day rz_start ≤ t ≤ at_clock loc day rz_finish → day_of loc t = day;
  rz_monotone : ∀ t t', t ≤ t' → day_of loc t ≤ day_of loc t';
  rz_next_day : ∀ t, day_of loc (time_Date loc (wall_clock loc t + Day)) = day_of loc t + 1;
}.

Section BusinessTime.
Context (loc : location) (cal : loadedCalendar) `{RegularZone loc cal}.

Definition opens (day : Z) : Z := at_clock loc day rz_start.
Definition closes (day : Z) : Z := at_clock loc day rz_finish.

Definition overlap (a b day : Z) : Z :=
  if business_day cal day then Z.max 0 (Z.min b (closes day) - Z.max a (opens day)) else 0.

Definition business_time (a b : Z) : Z :=
  days_sum (day_of loc a) (Z.to_nat (day_of loc b - day_of loc a + 1)) (overlap a b).

Lemma workingWindow_regular t :
  workingWindow loc cal t = Ok (opens (day_of loc t), closes (day_of loc t)).
Proof.
  unfold workingWindow. rewrite rz_parse_start. cbn [mbind result_bind].
  rewrite rz_parse_finish. cbn [mbind result_bind]. cbv zeta.
  pose proof (rz_window (day_of loc t)). by rewrite (proj2 (Z.ltb_lt _ _)).
Qed.

Lemma nextDay_regular t : nextDayAtCalendarStart loc cal t = opens (day_of loc t + 1).
Proof. unfold nextDayAtCalendarStart. by rewrite rz_parse_start, rz_next_day. Qed.

Lemma opens_closes day : opens day < closes day.
Proof. apply rz_window. Qed.
Lemma day_opens day : day_of loc (opens day) = day.
Proof. apply rz_inside. pose proof (opens_closes day). unfold opens, closes in *. lia. Qed.
Lemma day_closes day : day_of loc (closes day) = day.
Proof. apply rz_inside. pose proof (opens_closes day). unfold opens, closes in *. lia. Qed.

Lemma closed_before day t : day < day_of loc t → closes day ≤ t.
Proof.
  intros Hd. destruct (Z.le_gt_cases (closes day) t) as [|Hlt]; [done|].
  destruct (Z.le_gt_cases (opens day) t) as [Hle|Ht].
  - pose proof (rz_inside day t) as Hi. unfold opens, closes in *. lia.
  - pose proof (rz_monotone t (opens day)) as Hm. rewrite day_opens in Hm. lia.
Qed.

Lemma opens_after day t : day_of loc t < day → t < opens day.
Proof.
  intros Hd. destruct (Z.le_gt_cases (opens day) t) as [Hle|]; [|done].
  pose proof (rz_monotone (opens day) t Hle) as Hm. rewrite day_opens in Hm. lia.
Qed.

Lemma opens_le day day' : day ≤ day' → opens day ≤ opens day'.
Proof.
  intros Hd. destruct (Z.eq_dec day day') as [->|]; [lia|].
  pose proof (opens_after day' (opens day)) as Ho. rewrite day_opens in Ho. lia.
Qed.

Lemma closes_opens day : closes day ≤ opens (day + 1).
Proof. apply closed_before. rewrite day_opens. lia. Qed.

Lemma overlap_none a b day : b ≤ a → overlap a b day = 0.
Proof. unfold overlap. destruct (business_day cal day); lia. Qed.

(** From any time of a day, and from the next opening, the later days look the same. *)
Lemma overlap_hop a b day :
  overlap a b day = overlap (opens (day_of loc a + 1)) b day +
    (if day =? day_of loc a then overlap a b day else 0).
Proof.
  pose proof (opens_after (day_of loc a + 1) a ltac:(lia)) as Hn.
  destruct (Z.eqb_spec day (day_of loc a)) as [->|Hne].
  - pose proof (closes_opens (day_of loc a)).
    assert (overlap (opens (day_of loc a + 1)) b (day_of loc a) = 0); [|lia].
    unfold overlap. destruct (business_day cal _); lia.
  - rewrite Z.add_0_r. unfold overlap. destruct (business_day cal day); [|done].
    destruct (Z.lt_ge_cases day (day_of loc a)) as [Hd|Hd].
    + pose proof (closed_before day a Hd). pose proof (opens_closes day). lia.
    + pose proof (opens_after day a ltac:(lia)).
      pose proof (opens_le (day_of loc a + 1) day ltac:(lia)). lia.
Qed.

Section Range.
Context (lo : Z) (n : nat).
Definition spent (a b : Z) : Z := days_sum lo n (overlap a b).

Lemma spent_none a b : b ≤ a → spent a b = 0.
Proof. intros Hle. apply days_sum_zero. intros. by apply overlap_none. Qed.

Lemma spent_hop a b :
  lo ≤ day_of loc a < lo + Z.of_nat n →
  spent a b = spent (opens (day_of loc a + 1)) b + overlap a b (day_of loc a).
Proof.
  intros Hr. unfold spent.
  rewrite (days_sum_ext _ (λ d, overlap (opens (day_of loc a + 1)) b d +
    (if d =? day_of loc a then overlap a b (day_of loc a) else 0))).
  - by rewrite days_sum_add, days_sum_point.
  - intros d _. rewrite overlap_hop at 1. f_equal.
    by destruct (Z.eqb_spec d (day_of loc a)) as [->|].
Qed.

(** The measuring loop. *)
Lemma elapsed_loop_spec fuel : ∀ cur target acc,
  lo ≤ day_of loc cur → day_of loc target < lo + Z.of_nat n →
  (cur < target → day_of loc target - day_of loc cur < Z.of_nat fuel) →
  elapsed_loop loc cal fuel cur target acc = Ok (acc + spent cur target).
Proof.
  induction fuel as [|fuel IH]; intros cur target acc Hlo Hhi Hf; cbn [elapsed_loop].
  { destruct (Z.lt_ge_cases cur target) as [Hlt|Hge].
    - specialize (Hf Hlt). pose proof (rz_monotone cur target ltac:(lia)). lia.
    - rewrite spent_none by done. f_equal. lia. }
  destruct (Z.ltb_spec cur target) as [Hlt|Hge]; cbn [negb].
  2:{ rewrite spent_none by done. f_equal. lia. }
  specialize (Hf Hlt). set (D := day_of loc cur) in *.
  pose proof (rz_monotone cur target ltac:(lia)) as Hm. fold D in Hm.
  assert (Hnext : ∀ acc, elapsed_loop loc cal fuel (opens (D + 1)) target acc =
    Ok (acc + spent (opens (D + 1)) target)).
  { intros acc'. apply IH; [rewrite day_opens; lia|done|].
    intros Hn. rewrite day_opens. pose proof (rz_monotone (opens (D + 1)) target) as Hm'.
    rewrite day_opens in Hm'. lia. }
  pose proof (spent_hop cur target ltac:(fold D; lia)) as Hhop. fold D in Hhop.
  unfold isBusinessDay. fold D. destruct (business_day cal D) eqn:Hb; cbn [negb].
  2:{ rewrite nextDay_regular. fold D. rewrite Hnext, Hhop. unfold overlap. rewrite Hb.
      f_equal. lia. }
  rewrite workingWindow_regular. cbn [mbind result_bind]. fold D. cbv zeta.
  unfold overlap in Hhop. rewrite Hb in Hhop.
  pose proof (opens_closes D) as Hoc. pose proof (closes_opens D) as Hco.
  set (c := if cur <? opens D then opens D else cur).
  assert (Hc : c = Z.max cur (opens D)) by (unfold c; destruct (Z.ltb_spec cur (opens D)); lia).
  assert (Hdc : c < closes D → day_of loc c = D).
  { intros Hcl. unfold c in *. destruct (Z.ltb_spec cur (opens D)); [apply day_opens|done]. }
  destruct (Z.leb_spec (closes D) c) as [Hcl|Hcl].
  { replace c with cur by lia. rewrite nextDay_regular. fold D. rewrite Hnext, Hhop. f_equal. lia. }
  specialize (Hdc Hcl).
  destruct (Z.ltb_spec target (closes D)) as [Ht|Ht].
  - rewrite Z.ltb_irrefl. cbn [negb].
    rewrite (spent_none (opens (D + 1))) in Hhop by lia. rewrite Hhop.
    destruct (Z.ltb_spec c target); f_equal; lia.
  - rewrite (proj2 (Z.ltb_lt c (closes D))) by done.
    destruct (Z.ltb_spec (closes D) target) as [Hlt'|Hge']; cbn [negb].
    + rewrite Z.leb_refl, nextDay_regular, day_closes, Hnext, Hhop. f_equal. lia.
    + rewrite (spent_none (opens (D + 1))) in Hhop by lia. rewrite Hhop. f_equal. lia.
Qed.

(** The adding loop spends exactly the duration it is given. *)
Lemma add_loop_spec fuel : ∀ cur remaining r,
  0 < remaining → lo ≤ day_of loc cur → day_of loc r < lo + Z.of_nat n →
  add_loop loc cal fuel cur remaining = Ok r → cur < r ∧ spent cur r = remaining.
Proof.
  induction fuel as [|fuel IH]; intros cur remaining r Hr Hlo Hhi Ha; cbn [add_loop] in Ha; [done|].
  set (D := day_of loc cur) in *.
  pose proof (opens_after (D + 1) cur ltac:(unfold D; lia)) as Hcn.
  assert (Hnext : ∀ rem, 0 < rem → add_loop loc cal fuel (opens (D + 1)) rem = Ok r →
    opens (D + 1) < r ∧ spent (opens (D + 1)) r = rem).
  { intros rem Hrem Hx. apply (IH _ _ _ Hrem) in Hx; [done|rewrite day_opens; lia|done]. }
  assert (Hhop : cur ≤ r → spent cur r = spent (opens (D + 1)) r + overlap cur r D).
  { intros Hle. apply spent_hop. pose proof (rz_monotone cur r Hle). fold D. lia. }
  unfold isBusinessDay in Ha. fold D in Ha. unfold overlap in Hhop.
  destruct (business_day cal D) eqn:Hb; cbn [negb] in Ha.
  2:{ rewrite nextDay_regular in Ha. fold D in Ha. apply Hnext in Ha as [? Ha]; [|done]. lia. }
  rewrite workingWindow_regular in Ha. cbn [mbind result_bind] in Ha. fold D in Ha. cbv zeta in Ha.
  pose proof (opens_closes D) as Hoc. pose proof (closes_opens D) as Hco.
  set (c := if cur <? opens D then opens D else cur) in *.
  assert (Hc : c = Z.max cur (opens D)) by (unfold c; destruct (Z.ltb_spec cur (opens D)); lia).
  destruct (Z.leb_spec (closes D) c) as [Hcl|Hcl].
  { replace c with cur in Ha by lia. rewrite nextDay_regular in Ha. fold D in Ha.
    apply Hnext in Ha as [? Ha]; [lia|done]. }
  assert (Hdc : day_of loc c = D).
  { unfold c. destruct (Z.ltb_spec cur (opens D)); [apply day_opens|done]. }
  destruct (Z.leb_spec remaining (closes D - c)) as [Hle|Hgt].
  - injection Ha as <-. split; [lia|]. rewrite Hhop by lia. rewrite spent_none by lia. lia.
  - rewrite nextDay_regular, Hdc in Ha. apply Hnext in Ha as [? Ha]; lia.
Qed.
End Range.
End BusinessTime.

(** ** Laws of business time *)

Section Laws.
Context (loc : location) (cal : loadedCalendar) `{RegularZone loc cal}.

Lemma overlap_outside a b day :
  day < day_of loc a ∨ day_of loc b < day → overlap loc cal a b day = 0.
Proof.
  unfold overlap. destruct (business_day cal day); [|done]. intros [Hd|Hd].
  - pose proof (closed_before loc cal day a Hd). lia.
  - pose proof (opens_after loc cal day b Hd). lia.
Qed.

(** The range of the sum does not matter as long as it covers the days in question. *)
Lemma days_sum_shift f n : ∀ m lo, (∀ d, d < lo + Z.of_nat m → f d = 0) →
  days_sum lo (m + n) f = days_sum (lo + Z.of_nat m) n f.
Proof.
  induction m as [|m IH]; intros lo Hf; cbn [days_sum Nat.add]; [by rewrite Z.add_0_r|].
  rewrite Hf by lia. rewrite IH; [|intros; apply Hf; lia]. rewrite Z.add_0_l. f_equal. lia.
Qed.

Lemma days_sum_more f n : ∀ m lo, (∀ d, lo + Z.of_nat n ≤ d → f d = 0) →
  days_sum lo (n + m) f = days_sum lo n f.
Proof.
  induction n as [|n IH]; intros m lo Hf; cbn [days_sum Nat.add].
  - apply days_sum_zero. intros d Hd. apply Hf. lia.
  - f_equal. apply IH. intros d Hd. apply Hf. lia.
Qed.

Lemma spent_business_time lo n a b :
  a ≤ b → lo ≤ day_of loc a → day_of loc b < lo + Z.of_nat n →
  spent loc cal lo n a b = business_time loc cal a b.
Proof.
  intros Hab Hlo Hhi. pose proof (rz_monotone a b Hab). unfold spent, business_time.
  set (w := Z.to_nat (day_of loc b - day_of loc a + 1)).
  set (m := Z.to_nat (day_of loc a - lo)).
  replace n with (m + (w + (n - m - w)))%nat by lia.
  rewrite days_sum_shift.
  - replace (lo + Z.of_nat m) with (day_of loc a) by lia.
    apply days_sum_more. intros d Hd. apply overlap_outside. lia.
  - intros d Hd. apply overlap_outside. lia.
Qed.

(** [n] days from the day of [a] cover the way to [b]. *)
Definition covering (a b : Z) : nat := Z.to_nat (day_of loc b - day_of loc a + 1).
Lemma covering_spec a b : a ≤ b → day_of loc b < day_of loc a + Z.of_nat (covering a b).
Proof. intros Hab. pose proof (rz_monotone a b Hab). unfold covering. lia. Qed.

Lemma business_time_split a b c : a ≤ b → b ≤ c →
  business_time loc cal a c = business_time loc cal a b + business_time loc cal b c.
Proof.
  intros Hab Hbc. pose proof (rz_monotone a b Hab). pose proof (rz_monotone b c Hbc).
  pose proof (covering_spec a c ltac:(lia)).
  rewrite <- (spent_business_time (day_of loc a) (covering a c) a c) by lia.
  rewrite <- (spent_business_time (day_of loc a) (covering a c) a b) by lia.
  rewrite <- (spent_business_time (day_of loc a) (covering a c) b c) by lia.
  unfold spent. rewrite <- days_sum_add. apply days_sum_ext. intros d _.
  unfold overlap. destruct (business_day cal d); [|done].
  pose proof (opens_closes loc cal d). lia.
Qed.

Lemma business_time_nonneg a b : 0 ≤ business_time loc cal a b.
Proof.
  unfold business_time. generalize (Z.to_nat (day_of loc b - day_of loc a + 1)) as n.
  generalize (day_of loc a). intros lo n. revert lo.
  induction n as [|n IH]; intros lo; cbn; [done|]. specialize (IH (lo + 1)).
  assert (0 ≤ overlap loc cal a b lo); [|lia]. unfold overlap. destruct (business_day cal lo); lia.
Qed.

Lemma business_time_refl a b : b ≤ a → business_time loc cal a b = 0.
Proof. intros Hle. apply days_sum_zero. intros. by apply overlap_none. Qed.

(** ** The two operations *)

(** Alignment moves on to working time without spending any. *)
Lemma align_spec fuel : ∀ cur c,
  align_loop loc cal fuel cur = Ok c →
  cur ≤ c ∧ ∀ lo n b, lo ≤ day_of loc cur → day_of loc c < lo + Z.of_nat n →
    spent loc cal lo n cur b = spent loc cal lo n c b.
Proof.
  induction fuel as [|fuel IH]; intros cur c Ha; cbn [align_loop] in Ha; [done|].
  set (D := day_of loc cur) in *.
  pose proof (opens_after loc cal (D + 1) cur ltac:(unfold D; lia)) as Hcn.
  pose proof (opens_closes loc cal D) as Hoc. pose proof (closes_opens loc cal D) as Hco.
  assert (Hnext : ∀ c, (∀ b, overlap loc cal cur b D = 0) →
    align_loop loc cal fuel (opens loc cal (D + 1)) = Ok c →
    cur ≤ c ∧ ∀ lo n b, lo ≤ D → day_of loc c < lo + Z.of_nat n →
      spent loc cal lo n cur b = spent loc cal lo n c b).
  { intros c' Hz Hx. apply IH in Hx as [Hle Hx]. split; [lia|]. intros lo n b Hlo Hhi.
    rewrite day_opens in Hx. rewrite <- Hx by lia.
    pose proof (rz_monotone cur c' ltac:(lia)). rewrite spent_hop by (fold D; lia).
    fold D. rewrite Hz. lia. }
  unfold isBusinessDay in Ha. fold D in Ha. unfold overlap in Hnext.
  destruct (business_day cal D) eqn:Hb; cbn [negb] in Ha.
  2:{ rewrite (nextDay_regular loc cal) in Ha. by apply Hnext. }
  rewrite (workingWindow_regular loc cal) in Ha. cbn [mbind result_bind] in Ha. fold D in Ha.
  destruct (Z.ltb_spec cur (opens loc cal D)) as [Ho|Ho].
  - injection Ha as <-. split; [lia|]. intros lo n b Hlo Hhi. rewrite day_opens in Hhi.
    rewrite (spent_hop loc cal lo n cur), (spent_hop loc cal lo n (opens loc cal D))
      by (rewrite ?day_opens; fold D; lia).
    rewrite day_opens. fold D. f_equal. unfold overlap. rewrite Hb. lia.
  - destruct (Z.leb_spec (closes loc cal D) cur).
    + rewrite (nextDay_regular loc cal) in Ha. apply Hnext in Ha; [done|]. intros b. lia.
    + injection Ha as <-. split; [lia|done].
Qed.

(** The time at which the adding loop stops is working time. *)
Definition in_window (t : Z) : Prop :=
  ∃ day, business_day cal day = true ∧ opens loc cal day < t ≤ closes loc cal day.

Lemma add_loop_window fuel : ∀ cur remaining r,
  0 < remaining → add_loop loc cal fuel cur remaining = Ok r → in_window r.
Proof.
  induction fuel as [|fuel IH]; intros cur remaining r Hr Ha; cbn [add_loop] in Ha; [done|].
  unfold isBusinessDay in Ha. destruct (business_day cal _) eqn:Hb; cbn [negb] in Ha;
    [|by eapply IH].
  rewrite (workingWindow_regular loc cal) in Ha. cbn [mbind result_bind] in Ha. cbv zeta in Ha.
  destruct (Z.leb_spec (closes loc cal (day_of loc cur))
    (if cur <? opens loc cal (day_of loc cur) then opens loc cal (day_of loc cur) else cur));
    [by eapply IH|].
  destruct (Z.leb_spec remaining (closes loc cal (day_of loc cur) -
    (if cur <? opens loc cal (day_of loc cur) then opens loc cal (day_of loc cur) else cur))).
  - injection Ha as <-. exists (day_of loc cur). split; [done|].
    destruct (Z.ltb_spec cur (opens loc cal (day_of loc cur))); lia.
  - eapply IH; [|exact Ha]. lia.
Qed.

Lemma in_window_spends a t : in_window t → a < t → 0 < business_time loc cal a t.
Proof.
  intros (D & Hb & Ho & Hc) Ha.
  assert (HD : day_of loc t = D) by (apply rz_inside; unfold opens, closes in *; lia).
  set (b := Z.max a (opens loc cal D)).
  rewrite (business_time_split a b t) by lia.
  pose proof (business_time_nonneg a b).
  assert (HDb : day_of loc b = D) by (apply rz_inside; unfold opens, closes in *; lia).
  unfold business_time at 2. rewrite HDb, HD.
  replace (Z.to_nat (D - D + 1)) with 1%nat by lia. cbn [days_sum].
  unfold overlap. rewrite Hb. lia.
Qed.

Lemma add_business_time start duration r c fuel_align fuel :
  0 < duration → align_loop loc cal fuel_align start = Ok c →
  add_loop loc cal fuel c duration = Ok r →
  start < r ∧ business_time loc cal start r = duration ∧
  ∀ t, start ≤ t < r → business_time loc cal start t < duration.
Proof.
  intros Hd Hal Ha. pose proof (add_loop_window _ _ _ _ Hd Ha) as Hw.
  apply align_spec in Hal as [Hsc Hal].
  assert (Hcr : c < r).
  { pose (lo := Z.min (day_of loc c) (day_of loc r)).
    pose (n := Z.to_nat (day_of loc r - lo + 1)).
    by apply (add_loop_spec loc cal lo n) in Ha as [? _]; [|unfold n, lo; lia..]. }
  pose proof (covering_spec start r ltac:(lia)) as Hcov.
  pose proof (rz_monotone start c Hsc). pose proof (rz_monotone c r ltac:(lia)).
  apply (add_loop_spec loc cal (day_of loc start) (covering start r)) in Ha as [_ Ha]; [|lia..].
  rewrite <- Hal in Ha by lia. rewrite spent_business_time in Ha by lia.
  split_and!; [lia|done|]. intros t Ht.
  rewrite (business_time_split start t r) in Ha by lia.
  pose proof (in_window_spends t r Hw). lia.
Qed.
End Laws.

(** ** Fixed offsets

    The hypotheses about the zone hold for every calendar in a zone with a fixed
    offset, whatever its hours. *)

Lemma digit_val_bounds c : is_digit c = true → 0 ≤ digit_val c ≤ 9.
Proof.
  unfold is_digit, digit_val. intros [H1 H2]%andb_prop.
  apply N.leb_le in H1, H2. lia.
Qed.

Lemma parse_minutes_bounds hour s h m :
  parse_minutes hour s = Ok (h, m) → h = hour ∧ h < 24 ∧ 0 ≤ m < 60.
Proof.
  unfold parse_minutes. intros H.
  destruct s as [|c s]; [done|]. destruct c as [[] [] [] [] [] [] [] []]; try done.
  destruct s as [|a [|b [|]]]; try done.
  destruct (is_digit a) eqn:H1; [|done]. destruct (is_digit b) eqn:H2; [|done].
  destruct (Z.ltb_spec hour 24); [|done].
  match type of H with context [?x <? 60] => destruct (Z.ltb_spec x 60) end; [|done].
  cbn in H. injection H as <- <-. apply digit_val_bounds in H1, H2. lia.
Qed.

Lemma parseClockHM_bounds s h m : parseClockHM s = Ok (h, m) → 0 ≤ h < 24 ∧ 0 ≤ m < 60.
Proof.
  unfold parseClockHM. intros H. destruct s as [|a [|b s]]; [done| |].
  - by destruct (is_digit a).
  - destruct (is_digit a) eqn:Ha; [|done]. cbn [negb] in H. apply digit_val_bounds in Ha.
    destruct (is_digit b) eqn:Hb; apply parse_minutes_bounds in H as (-> & ? & ?); [|lia].
    apply digit_val_bounds in Hb. lia.
Qed.

Definition fixed_offset (k : Z) : location := λ _, k.

Lemma at_clock_fixed k day hm :
  at_clock (fixed_offset k) day hm = day * Day + hm.1 * Hour + hm.2 * Minute - k.
Proof. done. Qed.

Lemma day_of_fixed k t day : day * Day ≤ t + k < (day + 1) * Day → day_of (fixed_offset k) t = day.
Proof.
  intros Hd. unfold day_of, wall_clock, fixed_offset. symmetry.
  apply (Z.div_unique_pos _ _ _ (t + k - day * Day)); unfold Day, Hour, Minute, Second, Millisecond in *; lia.
Qed.

Lemma fixed_offset_regular k cal start finish :
  parseClockHM (StartTime cal) = Ok start → parseClockHM (EndTime cal) = Ok finish →
  60 * start.1 + start.2 < 60 * finish.1 + finish.2 →
  RegularZone (fixed_offset k) cal.
Proof.
  intros Hs Hf Hlt. destruct start as [h m], finish as [h' m'].
  pose proof (parseClockHM_bounds _ _ _ Hs). pose proof (parseClockHM_bounds _ _ _ Hf).
  cbn in Hlt.
  refine {| rz_start := (h, m); rz_finish := (h', m'); rz_parse_start := Hs; rz_parse_finish := Hf |}.
  - intros day. rewrite !at_clock_fixed. cbn. unfold Hour, Minute, Second, Millisecond. lia.
  - intros day t. rewrite !at_clock_fixed. cbn. intros Ht. apply day_of_fixed.
    unfold Day, Hour, Minute, Second, Millisecond in *. lia.
  - intros t t' Hle. unfold day_of, wall_clock, fixed_offset. apply Z.div_le_mono; [done|lia].
  - intros t. unfold day_of, time_Date, wall_clock, fixed_offset.
    replace (t + k + Day - k + k) with (t + k + 1 * Day) by lia. by rewrite Z.div_add.
Defined.

(** The text the database makes of a time of day is read back to the minute. *)
Lemma to_char_parse seconds : 0 ≤ seconds < 86400 →
  parseClockHM (to_char seconds) = Ok (seconds / 3600, seconds / 60 mod 60).
Proof.
  intros Hs.
  assert (Hall : forallb (λ m, match parseClockHM (to_char (60 * Z.of_nat m)) with
    | Ok (h, m') => (h =? Z.of_nat m / 60) && (m' =? Z.of_nat m mod 60) | Err _ => false end)
    (seq 0 1440) = true) by (vm_compute; reflexivity).
  rewrite forallb_forall in Hall. specialize (Hall (Z.to_nat (seconds / 60))).
  assert (Hm : 0 ≤ seconds / 60 < 1440).
  { split; [by apply Z.div_pos; lia|]. apply Z.div_lt_upper_bound; lia. }
  rewrite in_seq in Hall. specialize (Hall ltac:(lia)). rewrite Z2Nat.id in Hall by lia.
  assert (E : to_char (60 * (seconds / 60)) = to_char seconds).
  { unfold to_char. change 3600 with (60 * 60). rewrite <- !Z.div_div by lia.
    rewrite (Z.mul_comm 60 (seconds / 60)), Z.div_mul by lia. done. }
  rewrite E in Hall. destruct (parseClockHM (to_char seconds)) as [[h m]|]; [|done].
  apply andb_prop in Hall as [H1%Z.eqb_eq H2%Z.eqb_eq]. rewrite H1, H2, Z.div_div by lia. done.
Qed.

(** ** Progress

    A calendar with a business day among any [k] consecutive days. *)

Section Progress.
Context (loc : location) (cal : loadedCalendar) `{RegularZone loc cal}.
Context (k : nat) (w : Z).
Hypothesis recurs : ∀ day, ∃ j : nat, (j < k)%nat ∧ business_day cal (day + Z.of_nat j) = true.
Hypothesis width : ∀ day, w ≤ closes loc cal day - opens loc cal day.
Hypothesis w_pos : 0 < w.

Lemma k_pos : (0 < k)%nat.
Proof. destruct (recurs 0) as (j & ? & _). lia. Qed.

(** One iteration at an opening. *)
Lemma add_step_opening fuel D rem : 0 < rem →
  add_loop loc cal (S fuel) (opens loc cal D) rem =
    if business_day cal D then
      if rem <=? closes loc cal D - opens loc cal D then Ok (opens loc cal D + rem)
      else add_loop loc cal fuel (opens loc cal (D + 1)) (rem - (closes loc cal D - opens loc cal D))
    else add_loop loc cal fuel (opens loc cal (D + 1)) rem.
Proof.
  intros Hr. cbn [add_loop]. unfold isBusinessDay.
  rewrite day_opens. destruct (business_day cal D); cbn [negb];
    [|by rewrite (nextDay_regular loc cal), day_opens].
  rewrite (workingWindow_regular loc cal), day_opens. cbn [mbind result_bind].
  cbv zeta. rewrite Z.ltb_irrefl. pose proof (opens_closes loc cal D).
  destruct (Z.leb_spec (closes loc cal D) (opens loc cal D)); [lia|].
  destruct (rem <=? _); [done|]. by rewrite (nextDay_regular loc cal), day_opens.
Qed.

(** From an opening, [m] windows further on, with [j] days to the next one. *)
Lemma add_from_opening fuel : ∀ D rem (m j : nat),
  0 < rem ≤ Z.of_nat m * w → business_day cal (D + Z.of_nat j) = true →
  (j + 1 + k * (m - 1) ≤ fuel)%nat →
  is_Ok (add_loop loc cal fuel (opens loc cal D) rem) = true.
Proof.
  induction fuel as [|fuel IH]; intros D rem m j Hr Hj Hf; [lia|].
  rewrite add_step_opening by lia. destruct (business_day cal D) eqn:Hb.
  - destruct (Z.leb_spec rem (closes loc cal D - opens loc cal D)) as [|Hgt]; [done|].
    pose proof (width D). destruct m as [|[|m]]; [lia|lia|].
    destruct (recurs (D + 1)) as (j' & Hj' & Hb').
    apply (IH _ _ (S m) j'); [nia|done|]. cbn [Nat.sub] in *. nia.
  - destruct j as [|j]; [rewrite Z.add_0_r in Hj; congruence|].
    apply (IH _ _ m j); [done| |lia]. by replace (D + 1 + Z.of_nat j) with (D + Z.of_nat (S j)) by lia.
Qed.

Lemma add_progress fuel cur rem (m : nat) :
  0 < rem ≤ Z.of_nat m * w → (1 + k * m ≤ fuel)%nat →
  is_Ok (add_loop loc cal fuel cur rem) = true.
Proof.
  intros Hr Hf. destruct fuel as [|fuel]; [lia|].
  assert (Hnext : ∀ D r, 0 < r ≤ rem → is_Ok (add_loop loc cal fuel (opens loc cal D) r) = true).
  { intros D r Hr'. destruct (recurs D) as (j & Hj & Hb).
    apply (add_from_opening _ _ _ m j); [lia|done|]. destruct m as [|m]; [lia|]. cbn [Nat.sub]. nia. }
  cbn [add_loop]. destruct (negb _); [rewrite (nextDay_regular loc cal); apply Hnext; lia|].
  rewrite (workingWindow_regular loc cal). cbn [mbind result_bind]. cbv zeta.
  set (c := if cur <? opens loc cal (day_of loc cur) then _ else _).
  destruct (Z.leb_spec (closes loc cal (day_of loc cur)) c).
  { rewrite (nextDay_regular loc cal). apply Hnext. lia. }
  destruct (Z.leb_spec rem (closes loc cal (day_of loc cur) - c)); [done|].
  rewrite (nextDay_regular loc cal). apply Hnext. lia.
Qed.

Lemma align_from_opening fuel : ∀ D (j : nat),
  business_day cal (D + Z.of_nat j) = true → (j < fuel)%nat →
  is_Ok (align_loop loc cal fuel (opens loc cal D)) = true.
Proof.
  induction fuel as [|fuel IH]; intros D j Hj Hf; [lia|]. cbn [align_loop].
  unfold isBusinessDay. rewrite day_opens. destruct (business_day cal D) eqn:Hb; cbn [negb].
  - rewrite (workingWindow_regular loc cal), day_opens. cbn [mbind result_bind].
    rewrite Z.ltb_irrefl. pose proof (opens_closes loc cal D).
    destruct (Z.leb_spec (closes loc cal D) (opens loc cal D)); [lia|done].
  - rewrite (nextDay_regular loc cal), day_opens.
    destruct j as [|j]; [rewrite Z.add_0_r in Hj; congruence|].
    apply (IH _ j); [|lia]. by replace (D + 1 + Z.of_nat j) with (D + Z.of_nat (S j)) by lia.
Qed.

Lemma align_progress fuel cur : (k < fuel)%nat → is_Ok (align_loop loc cal fuel cur) = true.
Proof.
  intros Hf. destruct fuel as [|fuel]; [lia|].
  assert (Hnext : ∀ D, is_Ok (align_loop loc cal fuel (opens loc cal D)) = true).
  { intros D. destruct (recurs D) as (j & Hj & Hb). apply (align_from_opening _ _ j); [done|lia]. }
  cbn [align_loop]. destruct (negb _); [rewrite (nextDay_regular loc cal); apply Hnext|].
  rewrite (workingWindow_regular loc cal). cbn [mbind result_bind].
  destruct (cur <? _); [done|]. destruct (_ <=? cur); [|done].
  rewrite (nextDay_regular loc cal). apply Hnext.
Qed.
End Progress.

(** ** The properties *)

Section Store.
Context (store : calendar_store) (calendarID : string) (cal : loadedCalendar) (loc : location).
Context `{RegularZone loc cal}.
Hypothesis loaded : loadBusinessCalendar store calendarID = Ok (cal, loc).

Lemma elapsed_is_business_time start finish :
  start ≤ finish → day_of loc finish - day_of loc start < 50000 →
  BusinessHoursElapsed store start finish calendarID = Ok (business_time loc cal start finish).
Proof.
  intros Hle Hdays. unfold BusinessHoursElapsed.
  generalize loop_limit_eq. generalize loop_limit as limit. intros limit Hlimit.
  destruct (Z.ltb_spec finish start); [lia|]. destruct (Z.eqb_spec finish start) as [->|Hne].
  { by rewrite business_time_refl. }
  rewrite loaded. cbn [mbind result_bind].
  rewrite (elapsed_loop_spec loc cal (day_of loc start) (covering loc start finish)).
  - cbn [mbind result_bind].
    rewrite spent_business_time by (try done; by apply (covering_spec loc cal)).
    pose proof (business_time_nonneg loc cal start finish).
    destruct (Z.ltb_spec (0 + business_time loc cal start finish) 0); [lia|]. f_equal.
  - done.
  - by apply (covering_spec loc cal).
  - rewrite Hlimit. lia.
Qed.

Lemma add_is_business_time start duration due :
  AddBusinessHours store start duration calendarID = Ok due →
  start ≤ due ∧ business_time loc cal start due = duration ∧
  ∀ t, start ≤ t < due → business_time loc cal start t < duration.
Proof.
  unfold AddBusinessHours, alignToWorkingStart.
  generalize loop_limit as limit. generalize align_limit as limit'. intros limit' limit Ha.
  destruct (Z.ltb_spec duration 0); [done|]. destruct (Z.eqb_spec duration 0) as [->|Hne].
  { injection Ha as <-. split_and!; [done|by apply business_time_refl|]. intros t Ht. lia. }
  rewrite loaded in Ha. cbn [mbind result_bind] in Ha.
  destruct (align_loop _ _ _ _) as [c|] eqn:Hal; [|done]. cbn [mbind result_bind] in Ha.
  apply (add_business_time loc cal start duration due c limit') in Ha as (? & ? & ?);
    [|lia|exact Hal]. split; [lia|done].
Qed.
End Store.

(** C36. [BusinessHoursElapsed] computes business time: the total length of the parts
    of the working windows of business days that lie between the two instants, for
    intervals of up to 50000 days. *)
Theorem BusinessHoursElapsed_spec (store : calendar_store) (calendarID : string)
    (cal : loadedCalendar) (loc : location) `{RegularZone loc cal} (start finish : Z) :
  loadBusinessCalendar store calendarID = Ok (cal, loc) →
  start ≤ finish → day_of loc finish - day_of loc start < 50000 →
  BusinessHoursElapsed store start finish calendarID = Ok (business_time loc cal start finish).
Proof. intros Hl. by apply elapsed_is_business_time. Qed.

(** C37. [AddBusinessHours] returns the earliest instant by which the given business
    time has passed, and [BusinessHoursElapsed] measures that time exactly: a due date
    and the time left until it are inverse to each other. *)
Theorem AddBusinessHours_inverse (store : calendar_store) (calendarID : string)
    (cal : loadedCalendar) (loc : location) `{RegularZone loc cal} (start duration due : Z) :
  loadBusinessCalendar store calendarID = Ok (cal, loc) →
  AddBusinessHours store start duration calendarID = Ok due →
  day_of loc due - day_of loc start < 50000 →
  start ≤ due ∧
  BusinessHoursElapsed store start due calendarID = Ok duration ∧
  ∀ t, start ≤ t < due →
    ∃ e, BusinessHoursElapsed store start t calendarID = Ok e ∧ e < duration.
Proof.
  intros Hl Ha Hd. apply (add_is_business_time store calendarID cal loc Hl) in Ha as (Hle & Hb & Hm).
  split_and!; [done| |].
  - rewrite (elapsed_is_business_time store calendarID cal loc Hl) by done. by rewrite Hb.
  - intros t Ht. exists (business_time loc cal start t). split; [|by apply Hm].
    apply (elapsed_is_business_time store calendarID cal loc Hl); [lia|].
    pose proof (rz_monotone t due ltac:(lia)). lia.
Qed.

(** Business time is additive: what passes between two instants is what passes up
    to any instant between them and what passes from there. *)
Theorem BusinessHoursElapsed_additive (store : calendar_store) (calendarID : string)
    (cal : loadedCalendar) (loc : location) `{RegularZone loc cal} (a b c : Z) :
  loadBusinessCalendar store calendarID = Ok (cal, loc) →
  a ≤ b ≤ c → day_of loc c - day_of loc a < 50000 →
  ∃ e1 e2, BusinessHoursElapsed store a b calendarID = Ok e1 ∧
    BusinessHoursElapsed store b c calendarID = Ok e2 ∧
    BusinessHoursElapsed store a c calendarID = Ok (e1 + e2).
Proof.
  intros Hl Hle Hd. pose proof (rz_monotone a b ltac:(lia)). pose proof (rz_monotone b c ltac:(lia)).
  exists (business_time loc cal a b), (business_time loc cal b c).
  rewrite <- business_time_split by lia.
  split_and!; apply (elapsed_is_business_time store calendarID cal loc Hl); lia.
Qed.

(** C40. [AddBusinessHours] finds a due date within its iteration limits whenever the
    calendar has a business day among any [k] consecutive days, [m] of its windows
    hold the duration and [k * m] days are within the limit. *)
Theorem AddBusinessHours_total (store : calendar_store) (calendarID : string)
    (cal : loadedCalendar) (loc : location) `{RegularZone loc cal} (k m : nat) (w start duration : Z) :
  loadBusinessCalendar store calendarID = Ok (cal, loc) →
  (∀ day, ∃ j : nat, (j < k)%nat ∧ business_day cal (day + Z.of_nat j) = true) →
  (∀ day, w ≤ closes loc cal day - opens loc cal day) → 0 < w →
  0 ≤ duration ≤ Z.of_nat m * w →
  Z.of_nat k < 20000 → Z.of_nat k * Z.of_nat m < 50000 →
  ∃ due, AddBusinessHours store start duration calendarID = Ok due.
Proof.
  intros Hl Hrec Hw Hpos Hd Hk Hm. unfold AddBusinessHours, alignToWorkingStart.
  generalize align_limit_eq, loop_limit_eq. generalize loop_limit as limit.
  generalize align_limit as limit'. intros limit' limit Hlimit' Hlimit.
  destruct (Z.ltb_spec duration 0); [lia|]. destruct (Z.eqb_spec duration 0); [by eexists|].
  rewrite Hl. cbn [mbind result_bind].
  pose proof (align_progress loc cal k Hrec limit' start ltac:(lia)) as Ha.
  destruct (align_loop _ _ _ _) as [c|]; [|done]. cbn [mbind result_bind].
  pose proof (add_progress loc cal k w Hrec Hw Hpos limit c duration m ltac:(lia) ltac:(lia)) as Hadd.
  destruct (add_loop _ _ _ _ _) as [due|]; [|done]. by exists due.
Qed.

(** The life cycle and the calendar together: a case that is not overdue when it
    is suspended has, by the calendar's own measure, exactly its duration less the
    business time it had used (to the millisecond) between its resumption and its new
    due date. *)
Theorem due_date_is_time_left (store : calendar_store) (cal : loadedCalendar) (loc : location)
    `{RegularZone loc cal} (env1 env2 : Env) (repo : repo_kind) (drv : driver)
    (caseID reason calendarID : string) (resumeAt : option Z) (db db1 db2 : database)
    (c : case_row) (d : Z) :
  repo_concrete repo = true → repo_has_sqlx repo = true →
  SuspendCase (env := env1) (clock := calendar_clock store) repo drv caseID reason resumeAt db
    = (Ok tt, db1) →
  ResumeCase (env := env2) (clock := calendar_clock store) repo drv caseID db1 = (Ok tt, db2) →
  case_of db caseID = Ok c → c_sla_duration_ms c = Some d → 0 < d → d * Millisecond ≤ int64_max →
  Forall (λ p, pl_created_at p ≤ env_now (Env := env1)) (case_pauses caseID db) →
  c_sla_calendar_id c = Some calendarID →
  loadBusinessCalendar store calendarID = Ok (cal, loc) →
  started c ≤ env_clock (Env := env1) →
  day_of loc (env_clock (Env := env1)) - day_of loc (started c) < 50000 →
  let used := business_time loc cal (started c) (env_clock (Env := env1)) in
  used ≤ d * Millisecond →
  ∃ c2 due, case_of db2 caseID = Ok c2 ∧ c_due_at c2 = Some due ∧
    (day_of loc due - day_of loc (env_clock (Env := env2)) < 50000 →
     BusinessHoursElapsed store (env_clock (Env := env2)) due calendarID =
       Ok ((d - used / Millisecond) * Millisecond)).
Proof.
  intros Hr Hx H1%within_tx_commits H2%within_tx_commits Hc Hd Hpos Hmax Hp Hcal Hl Hst Hdays used Hused.
  assert (Hne : (calendarID =?s "") = false).
  { unfold loadBusinessCalendar in Hl. by destruct (calendarID =?s ""). }
  destruct (suspension_cycle (clock := calendar_clock store) env1 env2 repo caseID _ _ _ _ _ _ c d Hr H1 H2 Hc Hd Hpos Hp)
    as (e & due & He & Hdue & Hs & _).
  destruct (case_of db2 caseID) as [c2|]; [|done]. injection Hs as K1 K2 K3 K4 K5.
  exists c2, due. split_and!; [done|done|]. intros Hdd.
  unfold elapsed_ms in He. rewrite Hcal, Hx, Hne in He.
  cbn [bc_elapsed calendar_clock andb negb] in He. rewrite (elapsed_is_business_time store calendarID cal loc Hl) in He by done.
  cbn in He. fold used in He. injection He as <-. unfold milliseconds, int_div in Hdue.
  pose proof (business_time_nonneg loc cal (started c) (env_clock (Env := env1))) as Hnn.
  fold used in Hnn. unfold new_due in Hdue. rewrite Hcal, Hx, Hne in Hdue.
  cbn [bc_add calendar_clock andb negb] in Hdue.
  rewrite Z.quot_div_nonneg in Hdue by (unfold Millisecond; lia).
  assert (Hle : used / Millisecond ≤ d).
  { apply Z.div_le_upper_bound; [done|]. lia. }
  assert (Hge : 0 ≤ used / Millisecond) by (apply Z.div_pos; [lia|done]).
  unfold remaining in Hdue. cbv zeta in Hdue.
  rewrite wrap64_id in Hdue
    by (unfold in_int64, int64_min, int64_max, Millisecond in *; lia).
  destruct (Z.ltb_spec ((d - used / Millisecond) * Millisecond) 0);
    [unfold Millisecond in *; lia|].
  apply (add_is_business_time store calendarID cal loc Hl) in Hdue as (Hle' & Hb & _).
  rewrite (elapsed_is_business_time store calendarID cal loc Hl) by done. by rewrite Hb.
Qed.

(** ** Clock changes at midnight *)

(** Where clocks are put forward at midnight, west of Greenwich, a holiday on the
    day of the change is entered for the day before: [time.Date] answers with 23:00 of
    that day for the missing midnight, and the date is taken from its answer. *)
Theorem holiday_lost_at_clock_change (loc : location) (day change offset : Z) (h : holiday_row) :
  hol_date h = day → change + offset = day * Day → offset ≤ - Hour →
  (∀ t, loc t = if t <? change then offset else offset + Hour) →
  load_holidays loc [h] =
    if hol_recurring h then ([], [month_day (day - 1)]) else ([day - 1], []).
Proof.
  intros Hh Hc Ho Hloc.
  assert (E : day_of loc (time_Date loc (hol_date h * Day)) = day - 1).
  { rewrite Hh. unfold time_Date. rewrite (Hloc (day * Day)).
    unfold Day, Hour, Minute, Second, Millisecond in *.
    destruct (Z.ltb_spec (day * (24 * (60 * (60 * (1000 * 1000000))))) change); [|lia].
    rewrite Hloc. destruct (Z.ltb_spec (day * (24 * (60 * (60 * (1000 * 1000000)))) - offset) change); [lia|].
    unfold day_of, wall_clock. rewrite Hloc.
    match goal with |- context [?x <? change] => destruct (Z.ltb_spec x change) end; [|lia].
    unfold Day, Hour, Minute, Second, Millisecond. symmetry.
    apply (Z.div_unique_pos _ _ _ (23 * (60 * (60 * (1000 * 1000000))))); lia. }
  unfold load_holidays. cbn [List.filter map]. by destruct (hol_recurring h); cbn; rewrite E.
Qed.

(** ** Concrete runs *)

Definition office : loadedCalendar :=
  {| StartTime := "09:00"; EndTime := "17:00"; WorkingDays := 31;
     holidayDateSet := []; holidayMonthDay := [] |}.

#[export] Instance office_regular : RegularZone (fixed_offset 0) office :=
  fixed_offset_regular 0 office (9, 0) (17, 0) eq_refl eq_refl eq_refl.

Lemma office_loaded :
  loadBusinessCalendar (nine_to_five []) "cal" = Ok (office, fixed_offset 0).
Proof. reflexivity. Qed.

(** From Tuesday at four to Wednesday at eleven. *)
Lemma BusinessHoursElapsed_spec_witness :
  BusinessHoursElapsed (nine_to_five []) (20137 * Day + 16 * Hour) (20138 * Day + 11 * Hour) "cal" =
    Ok (business_time (fixed_offset 0) office (20137 * Day + 16 * Hour) (20138 * Day + 11 * Hour)) ∧
  business_time (fixed_offset 0) office (20137 * Day + 16 * Hour) (20138 * Day + 11 * Hour) = 3 * Hour.
Proof.
  split; [|vm_compute; reflexivity].
  apply (BusinessHoursElapsed_spec (nine_to_five []) "cal" office (fixed_offset 0));
    [exact office_loaded|vm_compute; discriminate|vm_compute; reflexivity].
Defined.

(** Four hours from Friday at four: Monday at noon. *)
Lemma AddBusinessHours_inverse_witness :
  AddBusinessHours (nine_to_five []) (20140 * Day + 16 * Hour) (4 * Hour) "cal" =
    Ok (20143 * Day + 12 * Hour) ∧
  BusinessHoursElapsed (nine_to_five []) (20140 * Day + 16 * Hour) (20143 * Day + 12 * Hour) "cal" =
    Ok (4 * Hour).
Proof.
  assert (H : AddBusinessHours (nine_to_five []) (20140 * Day + 16 * Hour) (4 * Hour) "cal" =
    Ok (20143 * Day + 12 * Hour)) by (vm_compute; reflexivity).
  split; [exact H|].
  apply (AddBusinessHours_inverse (nine_to_five []) "cal" office (fixed_offset 0)
    _ _ _ office_loaded H). vm_compute. reflexivity.
Defined.

Lemma BusinessHoursElapsed_additive_witness :
  ∃ e1 e2, BusinessHoursElapsed (nine_to_five []) (20137 * Day) (20139 * Day) "cal" = Ok (e1 + e2) ∧
    e1 = 4 * Hour.
Proof.
  destruct (BusinessHoursElapsed_additive (nine_to_five []) "cal" office (fixed_offset 0)
    (20137 * Day) (20137 * Day + 13 * Hour) (20139 * Day)) as (e1 & e2 & H1 & _ & H3);
    [exact office_loaded|split; vm_compute; discriminate|vm_compute; reflexivity|].
  exists e1, e2. split; [exact H3|]. vm_compute in H1. injection H1 as <-. reflexivity.
Defined.

(** Among three days in a row one is not in a weekend. *)
Lemma office_recurs day : ∃ j : nat, (j < 3)%nat ∧ business_day office (day + Z.of_nat j) = true.
Proof.
  pose proof (Z.mod_pos_bound (day + 4) 7 eq_refl) as Hr.
  assert (Hd : ∀ j, Weekday (day + Z.of_nat j) = (Weekday day + Z.of_nat j) mod 7).
  { intros j. unfold Weekday. rewrite Z.add_mod_idemp_l by done. f_equal. lia. }
  assert (Hb : ∀ j, business_day office (day + Z.of_nat j) =
    isWorkingWeekday ((Weekday day + Z.of_nat j) mod 7) 31).
  { intros j. unfold business_day. cbn [holidayDateSet holidayMonthDay office WorkingDays].
    rewrite Hd, !bool_decide_eq_false_2 by apply not_elem_of_nil. cbn. by rewrite !andb_true_r. }
  setoid_rewrite Hb. fold (Weekday day) in Hr.
  assert (Weekday day = 0 ∨ Weekday day = 1 ∨ Weekday day = 2 ∨ Weekday day = 3 ∨
    Weekday day = 4 ∨ Weekday day = 5 ∨ Weekday day = 6) as Hc by lia.
  destruct Hc as [-> |[-> |[-> |[-> |[-> |[-> | ->]]]]]];
    first [exists 0%nat; split; [lia|reflexivity] | exists 1%nat; split; [lia|reflexivity]
          | exists 2%nat; split; [lia|reflexivity]].
Qed.

(** Five weeks of office hours from any instant on. *)
Lemma AddBusinessHours_total_witness :
  ∃ due, AddBusinessHours (nine_to_five []) (20137 * Day) (200 * Hour) "cal" = Ok due.
Proof.
  apply (AddBusinessHours_total (nine_to_five []) "cal" office (fixed_offset 0) 3 25 (8 * Hour)).
  - exact office_loaded.
  - exact office_recurs.
  - intros day. unfold closes, opens. rewrite !at_clock_fixed. cbn [rz_start rz_finish office_regular
      fixed_offset_regular fst snd]. unfold Hour, Minute, Second, Millisecond. lia.
  - reflexivity.
  - split; vm_compute; discriminate.
  - reflexivity.
  - reflexivity.
Defined.

(** The case of the life cycle's examples, on office hours: 7 of its 24 hours were
    used when it was suspended on a Wednesday at four. *)
Definition office_suspended : database :=
  snd (SuspendCase (env := env_at 1000) (clock := calendar_clock (nine_to_five [])) life_repo
    (reliable true) "case-1" "documents" None (life_db "IN_PROGRESS" [])).
Definition office_resumed : database :=
  snd (ResumeCase (env := env_at 1006) (clock := calendar_clock (nine_to_five [])) life_repo
    (reliable true) "case-1" office_suspended).

Lemma due_date_is_time_left_witness : ∃ c2 due,
  case_of office_resumed "case-1" = Ok c2 ∧ c_due_at c2 = Some due ∧
  BusinessHoursElapsed (nine_to_five []) (1006 * Hour) due "cal" = Ok (17 * Hour).
Proof.
  destruct (due_date_is_time_left (nine_to_five []) office (fixed_offset 0) (env_at 1000) (env_at 1006)
    life_repo (reliable true) "case-1" "documents" "cal" None (life_db "IN_PROGRESS" [])
    office_suspended office_resumed (life_case "IN_PROGRESS") (24 * 3600000))
    as (c2 & due & Hc2 & Hd & He);
    [reflexivity|reflexivity|vm_compute; reflexivity|vm_compute; reflexivity|reflexivity|reflexivity
    |reflexivity|vm_compute; discriminate|constructor|reflexivity|exact office_loaded
    |vm_compute; discriminate|vm_compute; reflexivity|vm_compute; discriminate|].
  exists c2, due. split; [exact Hc2|]. split; [exact Hd|].
  vm_compute in Hc2. injection Hc2 as <-. vm_compute in Hd. injection Hd as <-.
  apply He. vm_compute. reflexivity.
Defined.

(** Sao Paulo on 2018-11-04, day 17839: three hours west, clocks forward at midnight. *)
Definition forward_at_midnight : location :=
  λ t, if t <? 17839 * Day + 3 * Hour then - (3 * Hour) else - (2 * Hour).

Lemma holiday_lost_at_clock_change_witness :
  load_holidays forward_at_midnight
    [{| hol_calendar_id := "cal"; hol_date := 17839; hol_recurring := false |}] = ([17838], []).
Proof.
  apply (holiday_lost_at_clock_change forward_at_midnight 17839 (17839 * Day + 3 * Hour) (- (3 * Hour))
    {| hol_calendar_id := "cal"; hol_date := 17839; hol_recurring := false |});
    [reflexivity|reflexivity|vm_compute; discriminate|].
  intros t. unfold forward_at_midnight. by destruct (t <? _).
Defined.
