(* ===== verification/Orchestrator.v ===== *)
(** * The case orchestrator (internal/engine/orchestrator.go, with
    internal/repository/stage_transition.go and the counting and completing
    statements of case_repo.go)

    What happens when the last task of an activity and the last activity of a stage
    are done: the case moves to the next configured stage, and is completed after
    the last. *)

From Stdlib Require Import Ascii String ZArith Lia.
From stdpp Require Import base list strings sets.
From S2P Require Import Prelude ApprovalExpr SqlTx CaseConfig Schema Outbox CaseLifecycle.

Open Scope Z_scope.
Open Scope go_scope.

(** ** Configuration and payloads *)

Definition findStage (config : CaseTypeConfig) (stageCode : string) : option stage_def :=
  find (λ s, sd_code s =?s stageCode) (cfg_stages config).
(** The first stage in the order of the configuration with a greater sequence order. *)
Definition findNextStage (config : CaseTypeConfig) (currentOrdinal : Z) : option stage_def :=
  find (λ s, currentOrdinal <? sd_order s) (cfg_stages config).

Definition strFromMap (m : list (string * value)) (key : string) : string :=
  match str_assoc m key with Some (VString s) => s | _ => "" end.
Definition extractTaskContext (payload : list (string * value)) : string * string * string :=
  (strFromMap payload "case_id", strFromMap payload "stage_code",
   strFromMap payload "activity_code").

Definition is_done (t : task_row) : bool :=
  str_mem (t_status t) ["COMPLETED"; "SKIPPED"; "CANCELLED"].

(** [CountTasksByActivityAndStatus]: all tasks, and the finished ones. *)
Definition of_activity (caseID stageCode activityCode : string) (t : task_row) : bool :=
  (t_case_id t =?s caseID) && (t_stage_code t =?s stageCode) &&
  (t_activity_code t =?s activityCode).
Definition CountTasksByActivityAndStatus (caseID stageCode activityCode : string)
    (db : database) : Z * Z :=
  (sql_count (of_activity caseID stageCode activityCode) (tasks db),
   sql_count (λ t, of_activity caseID stageCode activityCode t && is_done t) (tasks db)).

(** An activity is complete when it has tasks and all are finished. *)
Definition activity_complete (caseID stageCode : string) (db : database) (a : activity_def) : bool :=
  let '(total, completed) := CountTasksByActivityAndStatus caseID stageCode (ad_code a) db in
  negb ((completed <? total) || (total =? 0)).

(** ** Statements *)

Record TransitionInput := {
  ti_CaseID : string; ti_ToStageCode : string; ti_ToStageOrdinal : Z;
  ti_RegressionReason : option string; ti_TriggeredBy : string;
}.

Definition nilIfZero (v : Z) : option Z := if v =? 0 then None else Some v.

Definition for_request (r : docreq_row) (d : doctype_row) : bool :=
  (dt_case_type_code d =?s dr_case_type_code r) &&
  (dt_case_type_version d =? dr_case_type_version r) && (dt_code d =?s dr_code r).

(** [CheckDocumentRequirements]: the open requests of the stage that have too few
    documents.  It reads on a connection of its own. *)
Definition missing_documents (caseID stageCode : string) (db : database) : list string :=
  if TrimSpace stageCode =?s "" then [] else
  map dr_code (List.filter (λ r,
    (dr_case_id r =?s caseID) && (dr_required_at_stage r =?s TrimSpace stageCode) &&
    negb (str_mem (dr_status r) ["FULFILLED"; "WAIVED"]) &&
    existsb (λ d, for_request r d && (dr_current_count r <? dt_required_count_min d)) (doctypes db))
    (docreqs db)).

(** The requests for the documents a stage asks for; existing ones stay. *)
Definition same_request (r r' : docreq_row) : bool :=
  (dr_case_id r =?s dr_case_id r') && (dr_code r =?s dr_code r') &&
  (dr_required_at_stage r =?s dr_required_at_stage r').
Definition stage_request (caseID stageCode : string) (d : doctype_row) : docreq_row :=
  {| dr_case_id := caseID; dr_case_type_code := dt_case_type_code d;
     dr_case_type_version := dt_case_type_version d; dr_code := dt_code d;
     dr_required_at_stage := stageCode; dr_required_count_min := dt_required_count_min d;
     dr_required_count_max := dt_required_count_max d; dr_current_count := 0;
     dr_status := "PENDING" |}.
Definition wanted_at (ct : case_type_row) (stageCode : string) (d : doctype_row) : bool :=
  (dt_case_type_code d =?s ct_code ct) && (dt_case_type_version d =? ct_version ct) &&
  bool_decide (dt_required_at_stage d = Some stageCode) && (0 <? dt_required_count_min d).
Definition add_request (rows : list docreq_row) (r : docreq_row) : list docreq_row :=
  if existsb (same_request r) rows then rows else rows ++ [r].
Definition open_stage_requests (caseID stageCode : string) (ct : case_type_row)
    : Tx database unit :=
  stmt (λ db, Ok (tt, db <| docreqs ::= λ rows,
    fold_left add_request
      (map (stage_request caseID stageCode) (List.filter (wanted_at ct stageCode) (doctypes db)))
      rows |>)).

Section Orchestrator.
Context `{env : Env} (repo : repo_kind).

Definition case_with_type (caseID : string) (db : database) : result (case_row * case_type_row) :=
  c ← sql_get (by_id c_id caseID) (cases db);
  ct ← sql_get (by_id ct_id (c_case_type_id c)) (case_types db);
  Ok (c, ct).

(** The guard on the documents of the stage that is left; the list of codes in the
    payload stands as an opaque value. *)
Definition require_documents (c : case_row) (toStageCode : string) : Tx database unit :=
  match c_current_stage_code c with
  | Some current =>
      if repo_has_sqlx repo && negb (TrimSpace current =?s "") then
        missing ← query (λ db, Ok (missing_documents (c_id c) current db));
        match missing with
        | [] => mret tt
        | _ =>
            _ ← tx_attempt (PublishEvent (new_event "STAGE_TRANSITION_BLOCKED" (Some (c_id c)) None
              [("case_id", VString (c_id c)); ("from_stage_code", VString current);
               ("to_stage_code", VString toStageCode);
               ("missing_document_types", VOther (Z.of_nat (length missing)));
               ("reason", VString "missing required documents")]));
            throw (ErrMsg "RecordStageTransition: missing required documents")
        end
      else mret tt
  | None => mret tt
  end.

Definition blank_reason (r : option string) : bool :=
  match r with Some r => r =?s "" | None => true end.

(** The row of a case that enters a stage. *)
Definition enter_stage (input : TransitionInput) (c : case_row) : case_row :=
  c <| c_current_stage_code := Some (ti_ToStageCode input) |>
    <| c_current_stage_ordinal := ti_ToStageOrdinal input |>
    <| c_status ::= λ s, if s =?s "OPEN" then "IN_PROGRESS" else s |>
    <| c_row_version ::= Z.succ |>.
Definition transition_of (input : TransitionInput) (c : case_row) : transition_row :=
  {| st_case_id := ti_CaseID input; st_from_code := c_current_stage_code c;
     st_from_ordinal := nilIfZero (c_current_stage_ordinal c);
     st_to_code := ti_ToStageCode input; st_to_ordinal := ti_ToStageOrdinal input;
     st_is_regression := ti_ToStageOrdinal input <? c_current_stage_ordinal c;
     st_reason := ti_RegressionReason input; st_triggered_by := ti_TriggeredBy input |}.
Definition same_stage (input : TransitionInput) (c : case_row) : bool :=
  bool_decide (c_current_stage_code c = Some (ti_ToStageCode input)) &&
  (c_current_stage_ordinal c =? ti_ToStageOrdinal input).

Definition RecordStageTransition (input : TransitionInput) : Tx database unit :=
  '(c, ct) ← query (case_with_type (ti_CaseID input));
  if IsTerminal c then throw (ErrMsg "case is in terminal status")
  else if same_stage input c then mret tt
  else
    _ ← require_documents c (ti_ToStageCode input);
    if (ti_ToStageOrdinal input <? c_current_stage_ordinal c) && blank_reason (ti_RegressionReason input)
    then throw (ErrMsg "regression_reason is required when transitioning backward")
    else
      n ← update_case_row (λ c', (c_id c' =?s ti_CaseID input) && (c_row_version c' =? c_row_version c))
        (enter_stage input);
      if n =? 0 then throw (ErrMsg "optimistic lock failure on case")
      else
        _ ← open_stage_requests (ti_CaseID input) (ti_ToStageCode input) ct;
        insert_transition (transition_of input c).

(** [InsertAuditEntry]; the case must exist. *)
Definition InsertAuditEntry (row : trail_row) : Tx database unit :=
  stmt (λ db, if existsb (by_id c_id (tr_case_id row)) (cases db)
              then Ok (tt, db <| audit_trail := audit_trail db ++ [row] |>) else Err ErrSQL).
(** The code logs a failure of the audit and goes on. *)
Definition audit (caseID action entityType : string) (delta : list (string * value))
    : Tx database unit :=
  _ ← tx_attempt (InsertAuditEntry
    {| tr_case_id := caseID; tr_action := action; tr_entity_type := entityType;
       tr_entity_id := None; tr_actor_id := "case-orchestrator"; tr_actor_type := "SYSTEM";
       tr_delta := delta |});
  mret tt.

Definition CompleteCase (caseID : string) : Tx database unit :=
  n ← update_case_row (λ c, (c_id c =?s caseID) && negb (c_status c =?s "COMPLETED"))
    (λ c, c <| c_status := "COMPLETED" |> <| c_completed_at := Some env_now |>
            <| c_row_version ::= Z.succ |>);
  if n =? 0 then throw (ErrMsg "case not found or already completed") else mret tt.

Definition EvaluateCaseCompletion (caseID : string) : Tx database bool :=
  query (λ db, Ok (sql_count (λ t, (t_case_id t =?s caseID) && negb (is_done t)) (tasks db) =? 0)).

Definition to_service (service : string) (event : event_row) : event_row :=
  event <| ev_target_service := service |>.

(** ** The handlers *)

Definition evaluateAndCompleteCase_tx (caseID : string) : Tx database unit :=
  complete ← EvaluateCaseCompletion caseID;
  if negb complete then throw ReturnWithoutCommit
  else
    _ ← CompleteCase caseID;
    _ ← PublishEvent (to_service "notification-service"
          (new_event "CASE_COMPLETED" (Some caseID) None [("case_id", VString caseID)]));
    audit caseID "CASE_COMPLETED" "CASE" [("case_id", VString caseID)].
Definition evaluateAndCompleteCase (drv : driver) (caseID : string) :=
  transact drv (evaluateAndCompleteCase_tx caseID).

Definition advance_tx (caseID stageCode : string) (next : stage_def) : Tx database unit :=
  let payload := [("case_id", VString caseID); ("from_stage", VString stageCode);
                  ("to_stage", VString (sd_code next)); ("to_stage_order", VInt (sd_order next))] in
  _ ← RecordStageTransition {| ti_CaseID := caseID; ti_ToStageCode := sd_code next;
        ti_ToStageOrdinal := sd_order next; ti_RegressionReason := None;
        ti_TriggeredBy := "case-orchestrator" |};
  _ ← PublishEvent (to_service "case-orchestrator"
        (new_event "CASE_STAGE_CHANGED" (Some caseID) None payload));
  audit caseID "STAGE_CHANGED" "STAGE" payload.

(** The reads before the transaction are statements of their own. *)
Definition onActivityCompleted (drv : driver) (payload : list (string * value)) (db : database)
    : result unit * database :=
  let '(caseID, stageCode, _) := extractTaskContext payload in
  match case_with_type caseID db with
  | Err e => (Err e, db)
  | Ok (c, ct) =>
      match findStage (ct_config ct) stageCode with
      | None => (Err (ErrMsg "stage not found in case_type config"), db)
      | Some stage =>
          if negb (forallb (activity_complete caseID stageCode db) (sd_activities stage))
          then (Ok tt, db)
          else match findNextStage (ct_config ct) (c_current_stage_ordinal c) with
               | None => evaluateAndCompleteCase drv caseID db
               | Some next => transact drv (advance_tx caseID stageCode next) db
               end
      end
  end.

(** The part of [onTaskCompleted] that follows aggregation and compensation. *)
Definition activity_completed_tx (caseID stageCode activityCode : string) : Tx database unit :=
  let payload := [("case_id", VString caseID); ("stage_code", VString stageCode);
                  ("activity_code", VString activityCode)] in
  _ ← PublishEvent (to_service "case-orchestrator"
        (new_event "ACTIVITY_COMPLETED" (Some caseID) None payload));
  audit caseID "ACTIVITY_COMPLETED" "ACTIVITY" payload.
Definition signal_activity (drv : driver) (payload : list (string * value)) (db : database)
    : result unit * database :=
  let '(caseID, stageCode, activityCode) := extractTaskContext payload in
  let '(total, completed) := CountTasksByActivityAndStatus caseID stageCode activityCode db in
  if (total <=? completed) && (0 <? total)
  then transact drv (activity_completed_tx caseID stageCode activityCode) db
  else (Ok tt, db).

(** [onApprovalCaseEvent] for an event that names its case. *)
Definition onApprovalCaseEvent_tx (eventType caseID : string) (payload : list (string * value))
    : Tx database unit :=
  _ ← when (str_mem eventType ["CASE_REJECTED"; "CASE_MAX_REWORK_EXCEEDED"])
    (_ ← update_case_row (by_id c_id caseID)
       (λ c, c <| c_status := "REJECTED" |>
               <| c_completed_at ::= λ t, Some (default env_now t) |>
               <| c_row_version ::= Z.succ |>);
     mret tt);
  _ ← tx_attempt (InsertAuditEntry
    {| tr_case_id := caseID; tr_action := eventType; tr_entity_type := "CASE";
       tr_entity_id := Some (orElse (strFromMap payload "gate_id") caseID);
       tr_actor_id := "approval-service"; tr_actor_type := "SYSTEM"; tr_delta := payload |});
  mret tt.
Definition onApprovalCaseEvent (drv : driver) (eventType : string) (event_case : option string)
    (payload : list (string * value)) (db : database) : result unit * database :=
  let caseID := orElse (default "" event_case) (strFromMap payload "case_id") in
  if caseID =?s "" then (Ok tt, db)
  else within_tx drv (onApprovalCaseEvent_tx eventType caseID payload) db.
End Orchestrator.

(** ** Structure *)

Section Structure.
Context `{env : Env} (repo : repo_kind).

Lemma balanced_require_documents c s : Balanced (require_documents repo c s).
Proof. unfold require_documents. balance. Qed.
#[local] Hint Resolve balanced_require_documents : balance.
Lemma balanced_open_stage_requests a b c : Balanced (open_stage_requests a b c).
Proof. apply balanced_stmt. Qed.
#[local] Hint Resolve balanced_open_stage_requests : balance.
Lemma balanced_RecordStageTransition input : Balanced (RecordStageTransition repo input).
Proof. unfold RecordStageTransition. balance. Qed.
Lemma balanced_trail_audit a b c d : Balanced (audit a b c d).
Proof. unfold audit, InsertAuditEntry. balance. Qed.
Lemma balanced_CompleteCase id : Balanced (CompleteCase id).
Proof. unfold CompleteCase. balance. Qed.
Lemma balanced_EvaluateCaseCompletion id : Balanced (EvaluateCaseCompletion id).
Proof. apply balanced_query. Qed.

(** Publishing and auditing touch neither cases nor tasks nor transitions. *)
Definition work_kept (db db' : database) : Prop :=
  cases db' = cases db ∧ tasks db' = tasks db ∧ transitions db' = transitions db.
#[export] Instance work_kept_preorder : PreOrder work_kept.
Proof. split; [by split|]. intros db1 db2 db3 (? & ? & ?) (? & ? & ?). split_and!; congruence. Qed.

Lemma work_publish event : tx_all work_kept (PublishEvent event).
Proof. kept_steps; by simplify_eq. Qed.
Lemma work_audit a b c d : tx_all work_kept (audit a b c d).
Proof. kept_steps. destruct (existsb _ _); by simplify_eq. Qed.
End Structure.
#[export] Hint Resolve balanced_require_documents balanced_open_stage_requests
  balanced_RecordStageTransition balanced_trail_audit balanced_CompleteCase
  balanced_EvaluateCaseCompletion : balance.
#[export] Hint Resolve work_publish work_audit : kept.

(** ** What committed runs have done *)

Section Commits.
Context `{env : Env} (repo : repo_kind).

Definition documents_present (c : case_row) (db : database) : Prop :=
  repo_has_sqlx repo = true → ∀ current, c_current_stage_code c = Some current →
    missing_documents (c_id c) current db = [].

(** The case has entered the stage; no other case has changed. *)
Definition entered (input : TransitionInput) (c : case_row) (db db' : database) : Prop :=
  case_of db' (ti_CaseID input) = Ok (enter_stage input c) ∧
  (∀ id, id ≠ ti_CaseID input → case_of db' id = case_of db id) ∧
  transitions db' = transitions db ++ [transition_of input c] ∧ tasks db' = tasks db.

Lemma case_with_type_Ok caseID db c ct :
  case_with_type caseID db = Ok (c, ct) → case_of db caseID = Ok c ∧ c_id c = caseID.
Proof.
  unfold case_with_type. fold (case_of db caseID).
  destruct (case_of db caseID) as [c'|] eqn:E; [|done]. cbn.
  destruct (sql_get _ _); [|done]. cbn. intros [= -> _]. split; [done|].
  by eapply case_of_id.
Qed.

Lemma case_with_type_rows caseID db c ct :
  case_with_type caseID db = Ok (c, ct) →
  case_of db caseID = Ok c ∧ sql_get (by_id ct_id (c_case_type_id c)) (case_types db) = Ok ct.
Proof.
  unfold case_with_type. fold (case_of db caseID).
  destruct (case_of db caseID) as [c'|] eqn:E; [|done]. cbn.
  destruct (sql_get _ _) eqn:E'; [|done]. cbn. by intros [= -> ->].
Qed.

Lemma require_documents_commits busy c to db db' :
  commits busy (require_documents repo c to) db = Some (tt, db') →
  db' = db ∧ documents_present c db.
Proof.
  unfold require_documents, documents_present. intros H.
  destruct (c_current_stage_code c) as [current|];
    [|rewrite commits_mret in H; by injection H as <-].
  destruct (repo_has_sqlx repo); cbn [andb] in H;
    [|rewrite commits_mret in H; by injection H as <-].
  destruct (TrimSpace current =?s "") eqn:Eb; cbn [negb] in H.
  { rewrite commits_mret in H. injection H as <-. split; [done|]. intros _ x [= <-]. unfold missing_documents. by rewrite Eb. }
  rewrite commits_bind, commits_query in H by balance.
  destruct (missing_documents (c_id c) current db) eqn:E.
  - rewrite commits_mret in H. injection H as <-. split; [done|]. by intros _ x [= <-].
  - rewrite commits_bind in H by balance. by destruct (commits busy (tx_attempt _) db) as [[? ?]|].
Qed.

Lemma record_commits busy input db db' :
  commits busy (RecordStageTransition repo input) db = Some (tt, db') →
  ∃ c ct, case_with_type (ti_CaseID input) db = Ok (c, ct) ∧ IsTerminal c = false ∧
    (same_stage input c = true ∧ db' = db ∨
     same_stage input c = false ∧ c_tenant_id c = DefaultTenantID ∧ documents_present c db ∧
     (ti_ToStageOrdinal input < c_current_stage_ordinal c →
        blank_reason (ti_RegressionReason input) = false) ∧
     entered input c db db').
Proof.
  unfold RecordStageTransition. intros H. rewrite commits_bind, commits_query in H by balance.
  destruct (case_with_type _ db) as [[c ct]|] eqn:Ec; [|done]. exists c, ct. split; [done|].
  destruct (IsTerminal c); [done|]. split; [done|].
  destruct (same_stage input c); [left; by injection H as <-|right].
  rewrite commits_bind in H by balance.
  destruct (commits busy (require_documents _ _ _) db) as [[[] db1]|] eqn:Er; [|done].
  apply require_documents_commits in Er as [-> Hd].
  destruct (_ && blank_reason _) eqn:Eb; [done|].
  rewrite commits_bind in H by balance. unfold update_case_row in H. rewrite commits_update in H.
  destruct (forallb _ (cases db)); [|done]. destruct (_ =? 0); [done|].
  rewrite commits_bind in H by balance. unfold open_stage_requests in H at 1.
  rewrite commits_stmt in H. rewrite commits_transition in H.
  destruct (default_tenant _ _) eqn:Et; [|done]. injection H as <-.
  destruct (case_with_type_Ok _ _ _ _ Ec) as [Hc Hid]. split_and!; [done| |done| |].
  - unfold default_tenant in Et. cbn [st_case_id transition_of] in Et.
    match type of Et with match sql_get _ (cases ?d) with _ => _ end = _ =>
      change (sql_get _ (cases d)) with (case_of (db <| cases := sql_update (λ c',
        (c_id c' =?s ti_CaseID input) && (c_row_version c' =? c_row_version c))
        (enter_stage input) (cases db) |>) (ti_CaseID input)) in Et end.
    rewrite case_of_update, Hc in Et by done. cbn in Et.
    rewrite Hid, string_eqb_refl, Z.eqb_refl in Et. by apply String.eqb_eq in Et.
  - intros Hlt. destruct (Z.ltb_spec (ti_ToStageOrdinal input) (c_current_stage_ordinal c)); [done|lia].
  - unfold entered. cbn [transitions]. split_and!; try done.
    + change (case_of _ ?id) with (case_of (db <| cases := sql_update (λ c',
        (c_id c' =?s ti_CaseID input) && (c_row_version c' =? c_row_version c))
        (enter_stage input) (cases db) |>) id).
      rewrite case_of_update, Hc by done. cbn. by rewrite Hid, string_eqb_refl, Z.eqb_refl.
    + intros id Hne. change (case_of _ id) with (case_of (db <| cases := sql_update (λ c',
        (c_id c' =?s ti_CaseID input) && (c_row_version c' =? c_row_version c))
        (enter_stage input) (cases db) |>) id) at 1.
      rewrite case_of_update by done. destruct (case_of db id) as [x|] eqn:E; [|done].
      apply case_of_id in E. cbn. rewrite E. by destruct (String.eqb_spec id (ti_CaseID input)).
Qed.

Lemma kept_case_of db db' id : work_kept db db' → case_of db' id = case_of db id.
Proof. intros (H & _ & _). unfold case_of. by rewrite H. Qed.

Lemma entered_kept input c db db1 db' :
  entered input c db db1 → work_kept db1 db' → entered input c db db'.
Proof.
  intros (H1 & H2 & H3 & H4) Hk. unfold entered. destruct Hk as (K1 & K2 & K3).
  split_and!; [|intros id Hne|congruence..]; unfold case_of in *; rewrite K1; auto.
Qed.

Definition stage_input (caseID : string) (next : stage_def) : TransitionInput :=
  {| ti_CaseID := caseID; ti_ToStageCode := sd_code next; ti_ToStageOrdinal := sd_order next;
     ti_RegressionReason := None; ti_TriggeredBy := "case-orchestrator" |}.

Lemma advance_commits busy caseID stageCode next db db' :
  commits busy (advance_tx repo caseID stageCode next) db = Some (tt, db') →
  ∃ c ct, case_with_type caseID db = Ok (c, ct) ∧ IsTerminal c = false ∧
    (same_stage (stage_input caseID next) c = true ∨
     documents_present c db ∧ c_current_stage_ordinal c ≤ sd_order next ∧
     entered (stage_input caseID next) c db db').
Proof.
  unfold advance_tx. intros H. rewrite commits_bind in H by balance.
  destruct (commits busy (RecordStageTransition _ _) db) as [[[] db1]|] eqn:Er; [|done].
  apply record_commits in Er as (c & ct & Hc & Ht & Hcase). exists c, ct. split; [done|].
  split; [done|]. destruct Hcase as [[Hs _]|(_ & _ & Hd & Hreg & He)]; [by left|right].
  eapply (commits_all busy work_kept) in H; [|kept_steps; auto with kept].
  split_and!; [done| |by eapply entered_kept].
  cbn in Hreg. destruct (Z.le_gt_cases (c_current_stage_ordinal c) (sd_order next)) as [|Hgt]; [done|].
  specialize (Hreg Hgt). done.
Qed.

(** A case after its completion at [now]; a case that is COMPLETED stays as it is. *)
Definition completed (now : Z) (c : case_row) : case_row :=
  if c_status c =?s "COMPLETED" then c
  else c <| c_status := "COMPLETED" |> <| c_completed_at := Some now |>
         <| c_row_version ::= Z.succ |>.
Definition complete_rows (caseID : string) (rows : list case_row) : list case_row :=
  sql_update (λ c, (c_id c =?s caseID) && negb (c_status c =?s "COMPLETED"))
    (λ c, c <| c_status := "COMPLETED" |> <| c_completed_at := Some env_now |>
            <| c_row_version ::= Z.succ |>) rows.

(** Completion: whatever the status of the case was, short of COMPLETED. *)
Lemma complete_commits busy caseID db db' :
  commits busy (evaluateAndCompleteCase_tx caseID) db = Some (tt, db') →
  (∀ t, t ∈ tasks db → t_case_id t = caseID → is_done t = true) ∧
  cases db' = complete_rows caseID (cases db) ∧ tasks db' = tasks db.
Proof.
  unfold evaluateAndCompleteCase_tx. intros H.
  rewrite commits_bind in H by balance. unfold EvaluateCaseCompletion in H. rewrite commits_query in H.
  destruct (Z.eqb_spec (sql_count (λ t, (t_case_id t =?s caseID) && negb (is_done t)) (tasks db)) 0)
    as [E|E]; cbn [negb] in H; [|done].
  rewrite sql_count_zero in E. rewrite commits_bind in H by balance.
  destruct (commits busy (CompleteCase caseID) db) as [[[] db1]|] eqn:Ec; [|done].
  eapply (commits_all busy work_kept) in H; [|kept_steps; auto with kept]. destruct H as (Hk & Ht & _).
  unfold CompleteCase in Ec. rewrite commits_bind in Ec by balance.
  unfold update_case_row in Ec. rewrite commits_update in Ec.
  destruct (forallb _ (cases db)); [|done]. destruct (_ =? 0); [done|].
  rewrite commits_mret in Ec. injection Ec as <-. split_and!; [|by rewrite Hk|by rewrite Ht].
  intros t Hin Hid. specialize (E t Hin). rewrite Hid, string_eqb_refl in E. cbn in E.
  by destruct (is_done t).
Qed.

Lemma completed_case_of caseID db db' :
  cases db' = complete_rows caseID (cases db) →
  (∀ c, case_of db caseID = Ok c → case_of db' caseID = Ok (completed env_now c)) ∧
  ∀ id, id ≠ caseID → case_of db' id = case_of db id.
Proof.
  intros Hcs. unfold case_of at 2 3, by_id. rewrite Hcs. unfold complete_rows.
  split; [intros c Hc|intros id Hne]; rewrite sql_get_update by done; fold (by_id c_id).
  - fold (by_id c_id caseID) (case_of db caseID). rewrite Hc. cbn. apply case_of_id in Hc.
    rewrite Hc, string_eqb_refl. unfold completed. by destruct (_ =?s "COMPLETED").
  - fold (by_id c_id id) (case_of db id). destruct (case_of db id) as [c|] eqn:Hc; [|done]. cbn.
    apply case_of_id in Hc. rewrite Hc. by destruct (String.eqb_spec id caseID).
Qed.

(** What a transaction without an error of its own has done. *)
Lemma transact_commits drv (m : Tx database unit) db :
  match transact drv m db with
  | (Err _, db') => db' = db
  | (Ok _, db') => db' = db ∨ commits (busy_while_open drv) m db = Some (tt, db')
  end.
Proof.
  unfold transact. destruct (within_tx drv m db) as [[[]|e] db'] eqn:Ew.
  - right. by apply within_tx_commits.
  - apply within_tx_rollback in Ew as ->. destruct e; auto.
Qed.
End Commits.

(** ** Giving up

    Code that never leaves its transaction to the rollback: when it reports no error it has
    committed. *)

Section GivingUp.
Context {D : Type}.

Definition plain {A} (r : result A) : Prop := r ≠ Err ReturnWithoutCommit.
Fixpoint never_gives_up {A} (m : Tx D A) : Prop :=
  match m with
  | TxRet r => plain r
  | TxStmt body k => (∀ db, plain (body db)) ∧ ∀ r, plain r → never_gives_up (k r)
  | TxRows q k => (∀ db, plain (q db)) ∧ ∀ r, plain r → never_gives_up (k r)
  | TxClose k => never_gives_up k
  end.

Lemma plain_round_trip {X} drv (body : D → result (X * D)) s :
  (∀ db, plain (body db)) → plain (fst (round_trip drv body s)).
Proof.
  intros Hb. unfold round_trip. destruct (busy_while_open drv && _); [done|].
  destruct (s_aborted s); [done|]. destruct (round_trip_fails _ _); [done|].
  specialize (Hb (s_db s)). destruct (body (s_db s)) as [[x db]|e]; [done|]. by destruct e.
Qed.

Lemma never_run {A} drv (m : Tx D A) : ∀ s, never_gives_up m → plain (fst (run drv m s)).
Proof.
  induction m as [r|X body k IH|X q k IH|k IH]; intros s Hm; cbn in *; [done| | |by apply IH].
  - destruct Hm as [Hb Hk]. pose proof (plain_round_trip drv body s Hb) as Hr.
    destruct (round_trip drv body s) as [r s']. by apply IH, Hk.
  - destruct Hm as [Hb Hk]. assert (Hq : ∀ db, plain (query_body q db)).
    { intros db. specialize (Hb db). unfold query_body. destruct (q db); [done|].
      intros [= ->]. by apply Hb. }
    pose proof (plain_round_trip drv _ s Hq) as Hr.
    destruct (round_trip drv (query_body q) s) as [r s']. by apply IH, Hk.
Qed.

Lemma never_within_tx {A} drv (m : Tx D A) db : never_gives_up m → plain (fst (within_tx drv m db)).
Proof.
  intros Hm. unfold within_tx. destruct (round_trip_fails drv 0); [done|].
  pose proof (never_run drv m (Session db false 0 1) Hm) as H.
  destruct (run _ _ _) as [[a|e] s]; [|cbn in *; by intros [= ->]].
  destruct (s_aborted s); [done|]. by destruct (round_trip_fails _ _).
Qed.

Lemma never_transact drv (m : Tx D unit) db :
  never_gives_up m →
  match transact drv m db with
  | (Err _, db') => db' = db
  | (Ok _, db') => commits (busy_while_open drv) m db = Some (tt, db')
  end.
Proof.
  intros Hm. unfold transact. pose proof (never_within_tx drv m db Hm) as H.
  destruct (within_tx drv m db) as [[[]|e] db'] eqn:Ew; [by apply within_tx_commits|].
  apply within_tx_rollback in Ew as ->. by destruct e.
Qed.

Lemma never_bind {A B} (m : Tx D A) (f : A → Tx D B) :
  never_gives_up m → (∀ a, never_gives_up (f a)) → never_gives_up (m ≫= f).
Proof.
  intros Hm Hf. induction m as [[a|e]|X body k IH|X q k IH|k IH]; cbn in *; [done| | | |auto].
  - unfold plain in *. congruence.
  - destruct Hm as [Hb Hk]. split; [done|]. intros r Hr. by apply IH, Hk.
  - destruct Hm as [Hb Hk]. split; [done|]. intros r Hr. by apply IH, Hk.
Qed.
Lemma never_attempt {A} (m : Tx D A) : never_gives_up m → never_gives_up (tx_attempt m).
Proof. induction m; cbn; try done; naive_solver. Qed.
Lemma never_stmt {X} (body : D → result (X * D)) : (∀ db, plain (body db)) → never_gives_up (stmt body).
Proof. by split. Qed.
End GivingUp.

Section Handlers.
Context `{env : Env}.

Lemma never_query {X} (q : database → result X) : (∀ db, plain (q db)) → never_gives_up (query q).
Proof. intros Hq. apply never_stmt. intros db. specialize (Hq db). destruct (q db); [done|].
  intros [= ->]. by apply Hq. Qed.
Lemma never_publish event : never_gives_up (PublishEvent event).
Proof.
  unfold PublishEvent. apply never_bind.
  - unfold insert_event, insert_in. apply never_stmt. intros db. unfold insert_row. by destruct (_ && _).
  - intros _. unfold EnqueueWebhookDeliveries. cbv zeta. destruct (_ =?s ""); [done|].
    destruct (_ =?s ""); [done|]. by apply never_stmt.
Qed.
Lemma never_audit a b c d : never_gives_up (audit a b c d).
Proof.
  unfold audit, InsertAuditEntry. apply never_bind; [|done]. apply never_attempt, never_stmt.
  intros db. by destruct (existsb _ _).
Qed.
Lemma never_update_case p f : never_gives_up (update_case_row p f).
Proof.
  unfold update_case_row, update_in. apply never_stmt. intros db. unfold update_rows.
  by destruct (forallb _ _).
Qed.
Lemma plain_case_with_type caseID db : plain (case_with_type caseID db).
Proof.
  unfold case_with_type, sql_get. destruct (List.filter _ (cases db)); [done|]. cbn.
  by destruct (List.filter _ (case_types db)).
Qed.
End Handlers.
#[export] Hint Resolve never_publish never_audit never_update_case : never.

Lemma never_transition `{env : Env} repo input : never_gives_up (RecordStageTransition repo input).
Proof.
  unfold RecordStageTransition. apply never_bind; [apply never_query, plain_case_with_type|].
  intros [c ct]. destruct (IsTerminal c); [done|]. destruct (same_stage input c); [done|].
  apply never_bind.
  { unfold require_documents. destruct (c_current_stage_code c); [|done]. destruct (_ && _); [|done].
    apply never_bind; [by apply never_query|]. intros [|]; [done|].
    apply never_bind; [|done]. apply never_attempt, never_publish. }
  intros _. destruct (_ && _); [done|]. apply never_bind; [auto with never|]. intros n.
  destruct (n =? 0); [done|]. apply never_bind; [by apply never_stmt|]. intros _.
  apply never_stmt. intros db. by destruct (default_tenant _ _).
Qed.

Lemma never_advance `{env : Env} repo caseID stageCode next :
  never_gives_up (advance_tx repo caseID stageCode next).
Proof.
  unfold advance_tx. apply never_bind; [apply never_transition|]. intros _.
  apply never_bind; auto with never.
Qed.

(** Completion gives up only when a task of the case is left open. *)
Lemma completion_transact `{env : Env} drv caseID db :
  match evaluateAndCompleteCase drv caseID db with
  | (Err _, db') => db' = db
  | (Ok _, db') =>
      db' = db ∧ (∃ t, t ∈ tasks db ∧ t_case_id t = caseID ∧ is_done t = false) ∨
      commits (busy_while_open drv) (evaluateAndCompleteCase_tx caseID) db = Some (tt, db')
  end.
Proof.
  unfold evaluateAndCompleteCase, evaluateAndCompleteCase_tx, EvaluateCaseCompletion.
  set (open := λ t, (t_case_id t =?s caseID) && negb (is_done t)).
  destruct (Z.eqb_spec (sql_count open (tasks db)) 0) as [E|E].
  - set (rest := _ ← CompleteCase caseID; _).
    assert (Hn : never_gives_up rest).
    { subst rest. apply never_bind; [|intros _; apply never_bind; auto with never].
      unfold CompleteCase. apply never_bind; [auto with never|]. intros n. by destruct (n =? 0). }
    clearbody rest. unfold transact.
    assert (H : plain (fst (within_tx drv (complete ← query (λ db, Ok (sql_count open (tasks db) =? 0));
      if negb complete then throw ReturnWithoutCommit else rest) db))).
    { unfold within_tx. destruct (round_trip_fails drv 0); [done|].
      cbn [run mbind Tx_bind tx_bind query stmt]. unfold round_trip. cbn [s_open s_aborted s_trip s_db].
      rewrite andb_false_r. destruct (round_trip_fails drv 1); [done|]. rewrite E. cbn.
      match goal with |- context [run drv ?m ?s] =>
        pose proof (never_run drv m s ltac:(exact Hn)) as H; destruct (run drv m s) as [[a|e] s'] end.
      - destruct (s_aborted s'); [done|]. by destruct (round_trip_fails _ _).
      - cbn in *. by intros [= ->]. }
    destruct (within_tx drv _ db) as [[[]|e] db'] eqn:Ew.
    + right. by apply within_tx_commits in Ew.
    + apply within_tx_rollback in Ew as ->. by destruct e.
  - pose proof (transact_commits drv (complete ← query (λ db, Ok (sql_count open (tasks db) =? 0));
      if negb complete then throw ReturnWithoutCommit
      else _ ← CompleteCase caseID;
        _ ← PublishEvent (to_service "notification-service"
              (new_event "CASE_COMPLETED" (Some caseID) None [("case_id", VString caseID)]));
        audit caseID "CASE_COMPLETED" "CASE" [("case_id", VString caseID)]) db) as H.
    fold open. destruct (transact _ _ _) as [[[]|e] db']; [|done]. destruct H as [->|H]; [|by right].
    left. split; [done|]. unfold sql_count in E.
    destruct (List.filter open (tasks db)) as [|t l] eqn:El; [done|].
    assert (Hin : In t (t :: l)) by (by left). rewrite <- El in Hin. apply filter_In in Hin as [Hin Ho].
    apply andb_prop in Ho as [Ho1 Ho2]. exists t. rewrite list_elem_of_In.
    split_and!; [done|by apply String.eqb_eq|by apply negb_true_iff].
Qed.

(** ** Counting *)

Lemma count_both {R} (p q : R → bool) (rows : list R) :
  sql_count (λ r, p r && q r) rows ≤ sql_count p rows.
Proof.
  unfold sql_count. induction rows as [|r rows IH]; cbn; [done|].
  destruct (p r), (q r); cbn; lia.
Qed.

Lemma count_all {R} (p q : R → bool) (rows : list R) :
  sql_count p rows ≤ sql_count (λ r, p r && q r) rows →
  ∀ r, r ∈ rows → p r = true → q r = true.
Proof.
  induction rows as [|x rows IH]; intros H r Hr Hp; [by apply elem_of_nil in Hr|].
  pose proof (count_both p q rows) as Hle. unfold sql_count in *. cbn in H.
  apply elem_of_cons in Hr as [->|Hr].
  - rewrite Hp in H. cbn in H. destruct (q x); [done|]. cbn in H. lia.
  - apply IH; try done. destruct (p x), (q x); cbn in H; lia.
Qed.

(** What [activity_complete] computes. *)
Definition finished (caseID stageCode : string) (db : database) (a : activity_def) : Prop :=
  (∃ t, t ∈ tasks db ∧ of_activity caseID stageCode (ad_code a) t = true) ∧
  ∀ t, t ∈ tasks db → of_activity caseID stageCode (ad_code a) t = true → is_done t = true.

Lemma activity_complete_finished caseID stageCode db a :
  activity_complete caseID stageCode db a = true ↔ finished caseID stageCode db a.
Proof.
  unfold activity_complete, CountTasksByActivityAndStatus, finished.
  rewrite negb_true_iff, orb_false_iff, Z.ltb_ge, Z.eqb_neq.
  set (p := of_activity caseID stageCode (ad_code a)). split.
  - intros [H1 H2]. split; [|by apply count_all]. unfold sql_count in H2.
    destruct (List.filter p (tasks db)) as [|t l] eqn:E; [done|].
    exists t. rewrite list_elem_of_In. apply filter_In. rewrite E. by left.
  - intros [(t & Ht & Hp) Hd]. split.
    + unfold sql_count. apply Z.eq_le_incl. do 2 f_equal. apply List.filter_ext_in.
      intros t' Ht'. destruct (p t') eqn:E; [|done]. by rewrite (Hd t') by (done || by apply list_elem_of_In).
    + pose proof (sql_count_pos p (tasks db) t Ht Hp). lia.
Qed.

Lemma unfinished_activity caseID stageCode db activities :
  forallb (activity_complete caseID stageCode db) activities = false →
  ∃ a, a ∈ activities ∧ ¬ finished caseID stageCode db a.
Proof.
  induction activities as [|a l IH]; [done|]. cbn [forallb]. rewrite andb_false_iff. intros [H|H].
  - exists a. split; [by left|]. intros Hf%activity_complete_finished. by rewrite Hf in H.
  - apply IH in H as (a' & Ha & Hf). exists a'. split; [by right|done].
Qed.

(** A committed stage transition was made by a case that is not terminal and left
    no document outstanding; it moves that case alone, gives a reason when it goes
    back, and leaves one record that says whether it went back.  A transition to the
    stage the case is in changes nothing. *)
Theorem RecordStageTransition_spec `{env : Env} (repo : repo_kind) (drv : driver)
    (input : TransitionInput) (db db' : database) :
  within_tx drv (RecordStageTransition repo input) db = (Ok tt, db') →
  ∃ c, case_of db (ti_CaseID input) = Ok c ∧ IsTerminal c = false ∧
    (same_stage input c = true ∧ db' = db ∨
     documents_present repo c db ∧ entered input c db db' ∧
     (st_is_regression (transition_of input c) = true →
        ti_ToStageOrdinal input < c_current_stage_ordinal c ∧
        ∃ reason, ti_RegressionReason input = Some reason ∧ reason ≠ "")).
Proof.
  intros H%within_tx_commits%record_commits. destruct H as (c & ct & Hc & Ht & Hcase).
  apply case_with_type_Ok in Hc as [Hc _]. exists c. split; [done|]. split; [done|].
  destruct Hcase as [?|(_ & _ & Hd & Hr & He)]; [by left|right]. split_and!; [done|done|].
  cbn. intros Hlt%Z.ltb_lt. split; [done|]. specialize (Hr Hlt). unfold blank_reason in Hr.
  destruct (ti_RegressionReason input) as [r|]; [|done]. exists r. split; [done|].
  by apply String.eqb_neq.
Qed.


(** C18. What handling the completion of an activity does, for a case of the table and the case
    type its row names.  While an activity that this type configures for the stage has no task or
    an unfinished one, nothing.  Otherwise, if no error is reported, either the case, which is not
    terminal and has no document of its stage outstanding, has entered the next stage of the type,
    of a greater ordinal; or the type has none, and the case is completed, or a task of the case is
    still open and nothing has changed.  No other case ever changes, and an error changes nothing. *)
Theorem onActivityCompleted_spec `{env : Env} (repo : repo_kind) (drv : driver)
    (payload : list (string * value)) (db : database) :
  let '(caseID, stageCode, _) := extractTaskContext payload in
  match onActivityCompleted repo drv payload db with
  | (Err _, db') => db' = db
  | (Ok _, db') =>
      ∃ c ct stage, case_of db caseID = Ok c ∧
        sql_get (by_id ct_id (c_case_type_id c)) (case_types db) = Ok ct ∧
        findStage (ct_config ct) stageCode = Some stage ∧
        ((∃ a, a ∈ sd_activities stage ∧ ¬ finished caseID stageCode db a) ∧ db' = db ∨
         (∀ a, a ∈ sd_activities stage → finished caseID stageCode db a) ∧
         (∀ id, id ≠ caseID → case_of db' id = case_of db id) ∧ tasks db' = tasks db ∧
         match findNextStage (ct_config ct) (c_current_stage_ordinal c) with
         | Some next =>
             c_current_stage_ordinal c < sd_order next ∧ IsTerminal c = false ∧
             documents_present repo c db ∧ entered (stage_input caseID next) c db db'
         | None =>
             (∃ t, t ∈ tasks db ∧ t_case_id t = caseID ∧ is_done t = false) ∧ db' = db ∨
             (∀ t, t ∈ tasks db → t_case_id t = caseID → is_done t = true) ∧
             case_of db' caseID = Ok (completed env_now c)
         end)
  end.
Proof.
  unfold onActivityCompleted. destruct (extractTaskContext payload) as [[caseID stageCode] activity].
  destruct (case_with_type caseID db) as [[c ct]|] eqn:Ec; [|done].
  destruct (findStage (ct_config ct) stageCode) as [stage|] eqn:Es; [|done].
  destruct (case_with_type_rows _ _ _ _ Ec) as [Hc Hct].
  destruct (forallb _ (sd_activities stage)) eqn:Ea; cbn [negb].
  2: { exists c, ct, stage. split_and!; [done..|left]. split; [|done].
       by apply unfinished_activity. }
  assert (Hfin : ∀ a, a ∈ sd_activities stage → finished caseID stageCode db a).
  { intros a Ha. rewrite forallb_forall in Ea. apply activity_complete_finished, Ea.
    by apply list_elem_of_In. }
  destruct (findNextStage (ct_config ct) (c_current_stage_ordinal c)) as [next|] eqn:En.
  - pose proof (never_transact drv _ db (never_advance repo caseID stageCode next)) as H.
    destruct (transact _ _ _) as [[[]|e] db']; [|done]. exists c, ct, stage.
    rewrite En. split_and!; [done..|right].
    apply find_some in En as Hn. destruct Hn as [_ Hn%Z.ltb_lt].
    apply advance_commits in H as (c' & ct' & Hc' & Ht & Hcase). rewrite Ec in Hc'.
    injection Hc' as <- <-. destruct Hcase as [Hs|(Hd & _ & He)].
    + unfold same_stage in Hs. apply andb_prop in Hs as [_ Hs%Z.eqb_eq]. cbn in Hs. lia.
    + destruct He as (H1 & H2 & H3 & H4). by split_and!.
  - pose proof (completion_transact drv caseID db) as H.
    destruct (evaluateAndCompleteCase _ _ _) as [[[]|e] db']; [|done].
    exists c, ct, stage. rewrite En. split_and!; [done..|right]. split; [done|].
    destruct H as [[-> Ho]|H]; [split_and!; [done..|by left]|].
    apply complete_commits in H as (Hd & Hcs & Htk).
    apply completed_case_of in Hcs as [H1 H2]. split_and!; [done..|right]. split; [done|by apply H1].
Qed.

(** ** Concrete runs *)

(** Three stages; the first has two activities, the case has finished both. *)
Definition loan_type : case_type_row :=
  blank_case_type "loan" "LOAN" 1
    (plain_config
       [plain_stage "REVIEW" 1 [plain_activity "CREDIT" []; plain_activity "INCOME" []];
        plain_stage "DECISION" 2 [plain_activity "UNDERWRITE" []];
        plain_stage "FUNDING" 3 [plain_activity "PAY" []]]).

Definition review_case : case_row :=
  life_case "IN_PROGRESS" <| c_current_stage_code := Some "REVIEW" |>
    <| c_current_stage_ordinal := 1 |>.
Definition review_task (id activity status : string) : task_row :=
  life_task id status <| t_activity_code := activity |>.
Definition review_db : database :=
  empty_db <| cases := [review_case] |> <| case_types := [loan_type] |>
    <| tasks := [review_task "t1" "CREDIT" "COMPLETED"; review_task "t2" "INCOME" "COMPLETED"] |>.

Definition activity_event (activity : string) : list (string * value) :=
  [("case_id", VString "case-1"); ("stage_code", VString "REVIEW");
   ("activity_code", VString activity)]%string.

Definition handle (event : list (string * value)) (db : database) : result unit * database :=
  onActivityCompleted (env := env_at 1000) life_repo (reliable true) event db.
Definition after_first : database := snd (handle (activity_event "CREDIT") review_db).
Definition after_second : database := snd (handle (activity_event "INCOME") after_first).

Definition to_decision : TransitionInput :=
  {| ti_CaseID := "case-1"; ti_ToStageCode := "DECISION"; ti_ToStageOrdinal := 2;
     ti_RegressionReason := None; ti_TriggeredBy := "case-orchestrator" |}.

Lemma RecordStageTransition_spec_witness : ∃ c,
  case_of review_db "case-1" = Ok c ∧ IsTerminal c = false.
Proof.
  destruct (RecordStageTransition_spec (env := env_at 1000) life_repo (reliable true) to_decision
    review_db (snd (within_tx (reliable true)
      (RecordStageTransition (env := env_at 1000) life_repo to_decision) review_db)))
    as (c & Hc & Ht & _); [vm_compute; reflexivity|].
  exists c. split; [exact Hc|exact Ht].
Defined.

(** The two activities of a stage each announce their completion; when both are
    finished before the first announcement is handled, the case is moved on twice:
    it passes through the stage DECISION, for which not a single task exists, into
    the stage after it. *)
Theorem two_announcements_skip_a_stage :
  handle (activity_event "CREDIT") review_db = (Ok tt, after_first) ∧
  handle (activity_event "INCOME") after_first = (Ok tt, after_second) ∧
  c_current_stage_code <$> case_of after_first "case-1" = Ok (Some "DECISION") ∧
  c_current_stage_code <$> case_of after_second "case-1" = Ok (Some "FUNDING") ∧
  sql_count (λ t, t_stage_code t =?s "DECISION") (tasks after_second) = 0.
Proof. vm_compute. repeat split. Qed.

(** A case in its last stage, one activity of which is finished. *)
Definition funding_db : database :=
  empty_db
    <| cases := [review_case <| c_current_stage_code := Some "FUNDING" |>
                             <| c_current_stage_ordinal := 3 |>] |>
    <| case_types := [loan_type] |>
    <| tasks := [review_task "t3" "PAY" "COMPLETED" <| t_stage_code := "FUNDING" |>;
                 review_task "t4" "NOTIFY" "PENDING" <| t_stage_code := "FUNDING" |>] |>.
Definition withdrawn : database :=
  snd (WithdrawCase (env := env_at 1000) (reliable true) "case-1" "other lender" funding_db).
Definition funding_event : list (string * value) :=
  [("case_id", VString "case-1"); ("stage_code", VString "FUNDING");
   ("activity_code", VString "PAY")]%string.

(** Completion does not look at the status of the case: when the announcement of a
    finished activity of the last stage is handled after the applicant has withdrawn,
    the withdrawn case becomes COMPLETED and a CASE_COMPLETED event is sent. *)
Theorem withdrawn_case_is_completed :
  WithdrawCase (env := env_at 1000) (reliable true) "case-1" "other lender" funding_db =
    (Ok tt, withdrawn) ∧
  c_status <$> case_of withdrawn "case-1" = Ok "CANCELLED" ∧
  fst (handle funding_event withdrawn) = Ok tt ∧
  c_status <$> case_of (snd (handle funding_event withdrawn)) "case-1" = Ok "COMPLETED" ∧
  map ev_type (outbox (snd (handle funding_event withdrawn))) =
    ["CASE_WITHDRAWN"; "CASE_COMPLETED"].
Proof. vm_compute. repeat split. Qed.

(** A stage whose documents are outstanding. *)
Definition blocked_db : database :=
  review_db
    <| doctypes := [{| dt_case_type_code := "LOAN"; dt_case_type_version := 1; dt_code := "PAYSLIP";
         dt_required_at_stage := Some "REVIEW"; dt_required_count_min := 1;
         dt_required_count_max := 3 |}] |>
    <| docreqs := [{| dr_case_id := "case-1"; dr_case_type_code := "LOAN"; dr_case_type_version := 1;
         dr_code := "PAYSLIP"; dr_required_at_stage := "REVIEW"; dr_required_count_min := 1;
         dr_required_count_max := 3; dr_current_count := 0; dr_status := "PENDING" |}] |>.

(** The event that a transition is blocked is published in the transaction the error
    rolls back: nobody ever receives it. *)
Theorem blocked_transition_is_silent :
  handle (activity_event "CREDIT") blocked_db =
    (Err (ErrMsg "RecordStageTransition: missing required documents"), blocked_db).
Proof. vm_compute. reflexivity. Qed.
