(* ===== verification/SlaDefinition.v ===== *)
(** * The SLA of a task (internal/sla/definition.go)

    An SLA can be given for the case, the stage, the activity and the task, each in
    the element itself and again in the maps of the SLA section.
    [ResolveEffectiveSLADefinition] merges what applies; [resolve_layers] says what
    that means: every field is taken from the most specific layer that sets it. *)

From Stdlib Require Import Ascii String ZArith Lia SpecFloat.
From stdpp Require Import base list strings.
From S2P Require Import Prelude Float64 ApprovalExpr RetryPolicy CaseConfig SqlTx Schema Outbox.

Open Scope Z_scope.
Open Scope go_scope.

Definition positive (f : float64) : bool := fltb (S754_zero false) f.

Definition mergeSLADefinitions (base override : SLADefinition) : SLADefinition :=
  {| DurationHours :=
       if positive (DurationHours override) then DurationHours override else DurationHours base;
     WarningThresholdPct :=
       if positive (WarningThresholdPct override) then WarningThresholdPct override
       else WarningThresholdPct base;
     CriticalThresholdPct :=
       if positive (CriticalThresholdPct override) then CriticalThresholdPct override
       else CriticalThresholdPct base;
     BreachAction :=
       if negb (BreachAction override =?s "") then BreachAction override else BreachAction base;
     CalendarID :=
       if negb (CalendarID override =?s "") then CalendarID override else CalendarID base |}.

Definition findStageDef (stages : list stage_def) (code : string) : option stage_def :=
  find (λ s, sd_code s =?s code) stages.
Definition findActivityDef (activities : list activity_def) (code : string) : option activity_def :=
  find (λ a, ad_code a =?s code) activities.
Definition findTaskDef (tasks : list TaskDefinitionV2) (code : string)
    : option TaskDefinitionV2 :=
  find (λ t, task_code t =?s code) tasks.

(** The zero value of the struct. *)
Definition zero_sla : SLADefinition :=
  {| DurationHours := S754_zero false; WarningThresholdPct := S754_zero false;
     CriticalThresholdPct := S754_zero false; BreachAction := ""; CalendarID := "" |}.

(** [resolved] and [found] as the code carries them along. *)
Definition merge_into (o : option SLADefinition) (st : SLADefinition * bool)
    : SLADefinition * bool :=
  match o with
  | Some d => (mergeSLADefinitions st.1 d, true)
  | None => st
  end.

(** [if m, ok := config.SLA.X[code]; ok && m != nil] *)
Definition sla_entry (pick : SLAHierarchyConfig → list (string * option SLADefinition))
    (config : CaseTypeConfig) (code : string) : option SLADefinition :=
  match cfg_sla config with
  | None => None
  | Some h => match str_assoc (pick h) code with Some o => o | None => None end
  end.

Definition ResolveEffectiveSLADefinition (config : CaseTypeConfig)
    (stageCode activityCode taskCode : string) : result (option SLADefinition) :=
  let st :=
    match cfg_sla config with
    | Some h => match sh_case h with Some d => (d, true) | None => (zero_sla, false) end
    | None => (zero_sla, false)
    end in
  let st :=
    match findStageDef (cfg_stages config) stageCode with
    | None => st
    | Some stageDef =>
        let st := merge_into (sd_sla stageDef) st in
        let st := merge_into (sla_entry sh_stages config stageCode) st in
        match findActivityDef (sd_activities stageDef) activityCode with
        | None => st
        | Some activityDef =>
            let st := merge_into (ad_sla activityDef) st in
            let st := merge_into (sla_entry sh_activities config activityCode) st in
            match findTaskDef (ad_tasks activityDef) taskCode with
            | None => st
            | Some taskDef =>
                let st := merge_into (td_sla taskDef) st in
                merge_into (sla_entry sh_tasks config taskCode) st
            end
        end
    end in
  let '(resolved, found) := st in
  if negb found then Ok None
  else if negb (positive (DurationHours resolved))
  then Err (ErrMsg "duration_hours must be > 0 for resolved SLA")
  else Ok (Some
    {| DurationHours := DurationHours resolved;
       WarningThresholdPct := if positive (WarningThresholdPct resolved)
                              then WarningThresholdPct resolved else of_int 80;
       CriticalThresholdPct := if positive (CriticalThresholdPct resolved)
                               then CriticalThresholdPct resolved else of_int 95;
       BreachAction := orElse (BreachAction resolved) "NOTIFY_ONLY";
       CalendarID := CalendarID resolved |}).

(** [time.Duration(h * float64(time.Hour))] *)
Definition hours_duration (h : float64) : Z := trunc (fmul h (of_int Hour)).

(** The due time, the duration in milliseconds and the calendar. *)
Definition ComputeSLADeadline `{BusinessClock} (start : Z) (defaultCalendarID : string)
    (def : SLADefinition) : result (Z * Z * string) :=
  if negb (positive (DurationHours def)) then Err (ErrMsg "duration_hours must be > 0")
  else
    let calendarID := orElse (CalendarID def) defaultCalendarID in
    if calendarID =?s "" then Err (ErrMsg "calendar_id is required")
    else
      let duration := hours_duration (DurationHours def) in
      dueAt ← bc_add calendarID start duration;
      Ok (dueAt, int_div duration Millisecond, calendarID).

(** ** The most specific layer wins *)

Definition option_list {A} (o : option A) : list A := match o with Some a => [a] | None => [] end.

(** The definitions that apply to a task, from the least to the most specific. *)
Definition layers (config : CaseTypeConfig) (stageCode activityCode taskCode : string)
    : list SLADefinition :=
  option_list (h ← cfg_sla config; sh_case h) ++
  match findStageDef (cfg_stages config) stageCode with
  | None => []
  | Some s =>
      option_list (sd_sla s) ++ option_list (sla_entry sh_stages config stageCode) ++
      match findActivityDef (sd_activities s) activityCode with
      | None => []
      | Some a =>
          option_list (ad_sla a) ++ option_list (sla_entry sh_activities config activityCode) ++
          match findTaskDef (ad_tasks a) taskCode with
          | None => []
          | Some t => option_list (td_sla t) ++ option_list (sla_entry sh_tasks config taskCode)
          end
      end
  end.

(** The last of the values that are set. *)
Definition most_specific {A} (is_set : A → bool) (l : list A) : option A :=
  last (List.filter is_set l).

(** What the layers say of a task. *)
Definition resolve_layers (ls : list SLADefinition) : result (option SLADefinition) :=
  let pct f d := default (of_int d) (most_specific positive (map f ls)) in
  let text f d := default d (most_specific (λ s, negb (s =?s "")) (map f ls)) in
  match ls with
  | [] => Ok None
  | _ =>
      match most_specific positive (map DurationHours ls) with
      | None => Err (ErrMsg "duration_hours must be > 0 for resolved SLA")
      | Some hours =>
          Ok (Some {| DurationHours := hours;
                      WarningThresholdPct := pct WarningThresholdPct 80;
                      CriticalThresholdPct := pct CriticalThresholdPct 95;
                      BreachAction := text BreachAction "NOTIFY_ONLY";
                      CalendarID := text CalendarID "" |})
      end
  end.

(** [v] is what the values [l] have left in a field. *)
Definition tracks {A} (is_set : A → bool) (v : A) (l : list A) : Prop :=
  most_specific is_set l = if is_set v then Some v else None.

Lemma tracks_snoc {A} (is_set : A → bool) v l w :
  tracks is_set v l → tracks is_set (if is_set w then w else v) (l ++ [w]).
Proof.
  unfold tracks, most_specific. rewrite List.filter_app. cbn. intros Hl.
  destruct (is_set w) eqn:E.
  - by rewrite last_snoc, E.
  - by rewrite app_nil_r.
Qed.

Lemma tracks_one {A} (is_set : A → bool) v : tracks is_set v [v].
Proof. unfold tracks, most_specific. cbn. by destruct (is_set v). Qed.

Definition nonempty (s : string) : bool := negb (s =?s "").

(** The state of the merge after the layers [ls]. *)
Record merged (ls : list SLADefinition) (st : SLADefinition * bool) : Prop := {
  merged_found : st.2 = negb (Nat.eqb (length ls) 0);
  merged_hours : tracks positive (DurationHours st.1) (map DurationHours ls);
  merged_warning : tracks positive (WarningThresholdPct st.1) (map WarningThresholdPct ls);
  merged_critical : tracks positive (CriticalThresholdPct st.1) (map CriticalThresholdPct ls);
  merged_action : tracks nonempty (BreachAction st.1) (map BreachAction ls);
  merged_calendar : tracks nonempty (CalendarID st.1) (map CalendarID ls);
}.

Lemma merged_into ls st o : merged ls st → merged (ls ++ option_list o) (merge_into o st).
Proof.
  intros []. destruct o as [d|]; cbn [option_list merge_into]; [|by rewrite app_nil_r].
  split; cbn [fst snd mergeSLADefinitions DurationHours WarningThresholdPct CriticalThresholdPct
    BreachAction CalendarID]; rewrite ?map_app; try by apply (tracks_snoc positive).
  - rewrite length_app. cbn. by destruct (length ls).
  - by apply (tracks_snoc nonempty).
  - by apply (tracks_snoc nonempty).
Qed.

Lemma merged_case (o : option SLADefinition) :
  merged (option_list o) (match o with Some d => (d, true) | None => (zero_sla, false) end).
Proof. destruct o; split; try done; apply tracks_one. Qed.

Lemma tracks_default {A} (is_set : A → bool) v l d :
  tracks is_set v l → default d (most_specific is_set l) = if is_set v then v else d.
Proof. intros ->. by destruct (is_set v). Qed.

Lemma resolved_merged ls st :
  merged ls st →
  (let '(resolved, found) := st in
   if negb found then Ok None
   else if negb (positive (DurationHours resolved))
   then Err (ErrMsg "duration_hours must be > 0 for resolved SLA")
   else Ok (Some
     {| DurationHours := DurationHours resolved;
        WarningThresholdPct := if positive (WarningThresholdPct resolved)
                               then WarningThresholdPct resolved else of_int 80;
        CriticalThresholdPct := if positive (CriticalThresholdPct resolved)
                                then CriticalThresholdPct resolved else of_int 95;
        BreachAction := orElse (BreachAction resolved) "NOTIFY_ONLY";
        CalendarID := CalendarID resolved |})) = resolve_layers ls.
Proof.
  destruct st as [r found]. intros [Hf Hh Hw Hc Ha Hcal]. cbn [fst snd] in *. subst found.
  destruct ls as [|d ls]; [done|]. cbn [length Nat.eqb negb]. unfold resolve_layers.
  rewrite Hh, (tracks_default _ _ _ _ Hw), (tracks_default _ _ _ _ Hc).
  change (λ s : string, negb (s =?s "")) with nonempty.
  rewrite (tracks_default _ _ _ _ Ha), (tracks_default _ _ _ _ Hcal).
  destruct (positive (DurationHours r)); [|done]. cbn [negb]. do 2 f_equal.
  unfold orElse, nonempty.
  by destruct (String.eqb_spec (BreachAction r) ""), (String.eqb_spec (CalendarID r) "") as [->|].
Qed.

(** The SLA of a task takes every field from the most specific definition that
    sets it - the SLA section's entry before the element's own, the task before the
    activity, the activity before the stage, the stage before the case - with
    thresholds of 80 and 95 percent and NOTIFY_ONLY where none does; without any
    definition there is no SLA, and without a positive duration it is an error. *)
Theorem most_specific_sla_wins config stageCode activityCode taskCode :
  ResolveEffectiveSLADefinition config stageCode activityCode taskCode =
    resolve_layers (layers config stageCode activityCode taskCode).
Proof.
  unfold ResolveEffectiveSLADefinition. apply resolved_merged. unfold layers.
  assert (merged (option_list (h ← cfg_sla config; sh_case h))
    (match cfg_sla config with
     | Some h => match sh_case h with Some d => (d, true) | None => (zero_sla, false) end
     | None => (zero_sla, false)
     end)) as H0.
  { destruct (cfg_sla config) as [h|]; [apply (merged_case (sh_case h))|apply (merged_case None)]. }
  destruct (findStageDef _ _) as [s|]; [|by rewrite app_nil_r]. rewrite !app_assoc.
  destruct (findActivityDef _ _) as [a|]; [|rewrite app_nil_r; by repeat apply merged_into].
  rewrite !app_assoc.
  destruct (findTaskDef _ _) as [t|]; [|rewrite app_nil_r; by repeat apply merged_into].
  rewrite !app_assoc. by repeat apply merged_into.
Qed.
