(* ===== verification/JsonPath.v ===== *)
(** * Paths into JSON objects (internal/document/path_utils.go)

    [getByPath], [setByPath] and [deleteByPath] on decoded JSON, and PostgreSQL's
    [jsonb_set], which the aggregation rules use on the stored document.  An object
    is the association list of its keys, the first entry of a key being the one that
    counts; arrays are opaque ([VOther]). *)

From Stdlib Require Import Ascii String ZArith Lia SpecFloat.
From stdpp Require Import base list strings.
From S2P Require Import Prelude Float64 ApprovalExpr RetryPolicy CaseConfig SqlTx Schema Outbox.

Open Scope Z_scope.
Open Scope go_scope.

Abbreviation object := (list (string * value)).

Definition splitPath (path : string) : list string :=
  List.filter (λ s, negb (s =?s "")) (map TrimSpace (split_on "." (TrimSpace path))).

(** [strings.TrimPrefix] *)
Fixpoint drop_string (n : nat) (s : string) : string :=
  match n, s with
  | S n, String _ r => drop_string n r
  | _, _ => s
  end.
Definition TrimPrefix (s prefix : string) : string :=
  if HasPrefix s prefix then drop_string (String.length prefix) s else s.

(** The walk along the segments of a path. *)
Fixpoint get_segments (current : value) (segments : list string) : option value :=
  match segments with
  | [] => Some current
  | segment :: rest =>
      match current with
      | VMap obj =>
          match str_assoc obj segment with
          | Some v => get_segments v rest
          | None => None
          end
      | _ => None
      end
  end.

Definition getByPath (data : object) (path : string) : option value :=
  match data, splitPath path with
  | [], _ => None
  | _, [] => None
  | _, segments => get_segments (VMap data) segments
  end.

(** [current[k] = v] down the path: what is not an object on the way is replaced. *)
Fixpoint set_segments (data : object) (segments : list string) (v : value) : object :=
  match segments with
  | [] => data
  | [leaf] => set_key data leaf v
  | segment :: rest =>
      let inner := match str_assoc data segment with Some (VMap m) => m | _ => [] end in
      set_key data segment (VMap (set_segments inner rest v))
  end.

(** The boolean result is whether the path has a segment. *)
Definition setByPath (data : object) (path : string) (v : value) : object * bool :=
  match splitPath path with
  | [] => (data, false)
  | segments => (set_segments data segments v, true)
  end.

(** [delete(m, k)]: every entry of the key goes. *)
Definition delete_key (data : object) (k : string) : object :=
  List.filter (λ e, negb (e.1 =?s k)) data.

Fixpoint delete_segments (data : object) (segments : list string) : option object :=
  match segments with
  | [] => None
  | [leaf] =>
      match str_assoc data leaf with Some _ => Some (delete_key data leaf) | None => None end
  | segment :: rest =>
      match str_assoc data segment with
      | Some (VMap inner) =>
          match delete_segments inner rest with
          | Some inner' => Some (set_key data segment (VMap inner'))
          | None => None
          end
      | _ => None
      end
  end.

Definition deleteByPath (data : object) (path : string) : object * bool :=
  match delete_segments data (splitPath path) with
  | Some data' => (data', true)
  | None => (data, false)
  end.

(** [safeJSONPathSegment] and [jsonbPathLiteral]: the segments of the literal. *)
Definition safe_segment_char (c : ascii) : bool :=
  is_upper c || is_lower c || is_digit c || Ascii.eqb c "_" || Ascii.eqb c "-".
Fixpoint string_forall (p : ascii → bool) (s : string) : bool :=
  match s with EmptyString => true | String c r => p c && string_forall p r end.
Definition safe_segment (s : string) : bool := negb (s =?s "") && string_forall safe_segment_char s.

Definition jsonbPathLiteral (path : string) : result (list string) :=
  match splitPath path with
  | [] => Err (ErrMsg "jsonbPathLiteral: path is empty")
  | segments =>
      if forallb safe_segment segments then Ok segments
      else Err (ErrMsg "jsonbPathLiteral: unsafe path segment")
  end.

(** [jsonb_set(target, path, new, true)]: the last key is created when it is missing,
    but a missing or scalar value before it leaves the document as it is; a scalar
    document is an error.  What it does with an array is left to [set_in_array]. *)
Section Jsonb.
Variable set_in_array : Z → list string → value → result value.

Fixpoint jsonb_set_path (target : value) (path : list string) (new : value) : result value :=
  match path with
  | [] => Ok target
  | k :: rest =>
      match target with
      | VMap obj =>
          match rest with
          | [] => Ok (VMap (set_key obj k new))
          | _ =>
              match str_assoc obj k with
              | Some inner =>
                  inner' ← jsonb_set_path inner rest new;
                  Ok (VMap (set_key obj k inner'))
              | None => Ok target
              end
          end
      | VOther id => set_in_array id path new
      | _ => Ok target
      end
  end.

Definition jsonb_set (target : value) (path : list string) (new : value) : result value :=
  match target with
  | VMap _ | VOther _ => jsonb_set_path target path new
  | _ => Err ErrSQL
  end.
End Jsonb.

(** ** Reading back what was written *)

Lemma splitPath_nonempty path s : s ∈ splitPath path → s ≠ "".
Proof.
  unfold splitPath. rewrite list_elem_of_In, filter_In. intros [_ H] ->. done.
Qed.

Lemma set_segments_nonempty data segments v : segments ≠ [] → set_segments data segments v ≠ [].
Proof.
  assert (∀ l k w, set_key l k w ≠ []) as Hk.
  { intros [|[k' w'] l] k w; cbn; [done|]. by destruct (k =?s k'). }
  destruct segments as [|s [|s' r]]; [done|..]; intros _; apply Hk.
Qed.

Lemma get_set_segments segments v : ∀ data,
  segments ≠ [] → get_segments (VMap (set_segments data segments v)) segments = Some v.
Proof.
  induction segments as [|s [|s' r] IH]; intros data Hne; [done|..].
  - cbn. by rewrite str_assoc_set_key.
  - change (set_segments data (s :: s' :: r) v) with
      (set_key data s (VMap (set_segments
         (match str_assoc data s with Some (VMap m) => m | _ => [] end) (s' :: r) v))).
    cbn [get_segments]. rewrite str_assoc_set_key. by apply IH.
Qed.

(** Neither path is a beginning of the other. *)
Fixpoint diverge (p q : list string) : Prop :=
  match p, q with
  | a :: p, b :: q => a ≠ b ∨ (a = b ∧ diverge p q)
  | _, _ => False
  end.

Lemma get_set_segments_other p v : ∀ q data,
  diverge p q → is_Some (get_segments (VMap data) q) →
  get_segments (VMap (set_segments data p v)) q = get_segments (VMap data) q.
Proof.
  induction p as [|s [|s' r] IH]; intros [|t q] data Hd Hs; cbn [diverge] in Hd; try tauto.
  - destruct Hd as [Hne|[-> []]]. cbn [set_segments get_segments].
    by rewrite str_assoc_set_key_other by congruence.
  - change (set_segments data (s :: s' :: r) v) with
      (set_key data s (VMap (set_segments
         (match str_assoc data s with Some (VMap m) => m | _ => [] end) (s' :: r) v))).
    destruct Hd as [Hne|[<- Hd]]; cbn [get_segments].
    + by rewrite str_assoc_set_key_other by congruence.
    + rewrite str_assoc_set_key. cbn [get_segments] in Hs.
      destruct (str_assoc data s) as [w|]; [|by apply is_Some_None in Hs].
      destruct w; try (destruct q; [by destruct r|by apply is_Some_None in Hs]).
      by apply IH.
Qed.

Lemma str_assoc_delete_key data k : str_assoc (delete_key data k) k = None.
Proof.
  induction data as [|[k' v] data IH]; cbn; [done|].
  destruct (String.eqb_spec k' k) as [->|Hne]; cbn; [done|].
  by rewrite (proj2 (String.eqb_neq _ _)) by congruence.
Qed.

Lemma get_delete_segments segments : ∀ data data',
  delete_segments data segments = Some data' → get_segments (VMap data') segments = None.
Proof.
  induction segments as [|s [|s' r] IH]; intros data data'; [done|..].
  - cbn. destruct (str_assoc data s); [|done]. intros [= <-]. by rewrite str_assoc_delete_key.
  - change (delete_segments data (s :: s' :: r)) with
      (match str_assoc data s with
       | Some (VMap inner) =>
           match delete_segments inner (s' :: r) with
           | Some inner' => Some (set_key data s (VMap inner'))
           | None => None
           end
       | _ => None
       end).
    destruct (str_assoc data s) as [[]|]; try done.
    destruct (delete_segments _ (s' :: r)) as [inner'|] eqn:E; [|done]. intros [= <-].
    cbn [get_segments]. rewrite str_assoc_set_key. by eapply IH.
Qed.

Lemma delete_segments_found segments : ∀ data,
  segments ≠ [] → is_Some (get_segments (VMap data) segments) →
  is_Some (delete_segments data segments).
Proof.
  induction segments as [|s [|s' r] IH]; intros data Hne Hs; [done|..].
  - cbn [get_segments delete_segments] in *. destruct (str_assoc data s); [by eexists|by destruct Hs].
  - change (delete_segments data (s :: s' :: r)) with
      (match str_assoc data s with
       | Some (VMap inner) =>
           match delete_segments inner (s' :: r) with
           | Some inner' => Some (set_key data s (VMap inner'))
           | None => None
           end
       | _ => None
       end).
    change (get_segments (VMap data) (s :: s' :: r)) with
      (match str_assoc data s with Some v => get_segments v (s' :: r) | None => None end) in Hs.
    destruct (str_assoc data s) as [w|]; [|by destruct Hs].
    destruct w; try by destruct Hs.
    destruct (IH _ ltac:(done) Hs) as [inner' ->]. by eexists.
Qed.

Lemma getByPath_segments data path :
  data ≠ [] → splitPath path ≠ [] → getByPath data path = get_segments (VMap data) (splitPath path).
Proof. unfold getByPath. destruct data, (splitPath path); done. Qed.
