(* ===== verification/TaskInputs.v ===== *)
(** * Inputs of tasks and what tasks leave on the case
    (internal/document/propagation.go, aggregation.go)

    [ResolveTaskInputs] collects the input of a new task from the outputs of completed
    ones; [ApplyAggregationRules] copies fields of a completed task into the metadata
    of its case ([engine.applyAggregationRulesForTask] is the transaction around it). *)

From Stdlib Require Import Ascii String ZArith Lia SpecFloat.
From stdpp Require Import base list strings.
From S2P Require Import Prelude Float64 ApprovalExpr RetryPolicy CaseConfig SqlTx Schema Outbox JsonPath.

Open Scope Z_scope.
Open Scope go_scope.

(** [json.Unmarshal] into a map: null makes it nil ([None]). *)
Definition unmarshal_object (v : value) : result (option object) :=
  match v with
  | VMap m => Ok (Some m)
  | VNil => Ok None
  | _ => Err (ErrMsg "cannot unmarshal into a map")
  end.

(** Reading a map, which may be nil, and writing it, which then panics. *)
Definition map_get (m : option object) (k : string) : option value :=
  match m with Some m => str_assoc m k | None => None end.
Definition map_set (m : option object) (k : string) (v : value) : result (option object) :=
  match m with Some m => Ok (Some (set_key m k v)) | None => Err ErrPanic end.

(** ** Resolving inputs *)

(** [ORDER BY completed_at DESC NULLS LAST, created_at DESC]: [t] before [t']; among
    equals the earlier row of the table stands. *)
Definition ranks_before (t t' : task_row) : bool :=
  match t_completed_at t, t_completed_at t' with
  | Some a, Some b => (b <? a) || (b =? a) && (t_created_at t' <? t_created_at t)
  | Some _, None => true
  | None, Some _ => false
  | None, None => t_created_at t' <? t_created_at t
  end.

Definition first_ranked (rows : list task_row) : option task_row :=
  fold_left (λ best t,
    match best with
    | None => Some t
    | Some b => if ranks_before t b then Some t else Some b
    end) rows None.

(** The row numbered 1 in the partition of a task code. *)
Definition latest_completed (db : database) (caseID code : string) : option task_row :=
  first_ranked (sql_select (λ t, (t_case_id t =?s caseID) && (t_status t =?s "COMPLETED") &&
                                 (t_task_definition_code t =?s code)) (tasks db)).

(** The source tasks named by the inputs, once each. *)
Fixpoint unique_sources (inputs : list TaskInputDefinition) (seen : list string) : list string :=
  match inputs with
  | [] => []
  | input :: inputs =>
      let sourceTask := TrimSpace (in_source_task input) in
      if (sourceTask =?s "") || str_mem sourceTask seen then unique_sources inputs seen
      else sourceTask :: unique_sources inputs (sourceTask :: seen)
  end.

(** [sourceOutputs]: the outputs of the latest completed tasks, by code. *)
Fixpoint source_outputs (db : database) (caseID : string) (codes : list string)
    : result (list (string * option object)) :=
  match codes with
  | [] => Ok []
  | code :: codes =>
      match latest_completed db caseID code with
      | None => source_outputs db caseID codes
      | Some t =>
          payload ← unmarshal_object (t_output_payload t);
          rest ← source_outputs db caseID codes;
          Ok ((code, payload) :: rest)
      end
  end.

Definition source_field (input : TaskInputDefinition) : string :=
  orElse (TrimSpace (in_source_field input)) (TrimSpace (in_field input)).

(** The value a source payload has for an input. *)
Definition payload_value (payload : option object) (sourceField : string) : option value :=
  let payload := default [] payload in
  match getByPath payload sourceField with
  | Some v => Some v
  | None =>
      if HasPrefix sourceField "output_payload."
      then getByPath payload (TrimPrefix sourceField "output_payload.") else None
  end.

Definition missing (required : bool) (e : error) (resolved : option object)
    : result (option object) :=
  if required then Err e else Ok resolved.

Definition resolve_input (taskCode : string) (outputs : list (string * option object))
    (resolved : option object) (input : TaskInputDefinition) : result (option object) :=
  let field := TrimSpace (in_field input) in
  if field =?s "" then Err (ErrMsg "input field is required")
  else
    let sourceTask := TrimSpace (in_source_task input) in
    if sourceTask =?s "" then
      match map_get resolved field with
      | Some _ => Ok resolved
      | None => missing (in_required input) (ErrDependency taskCode field) resolved
      end
    else
      let blocked := missing (in_required input)
                       (ErrDependency sourceTask (source_field input)) resolved in
      match str_assoc outputs sourceTask with
      | None => blocked
      | Some payload =>
          match payload_value payload (source_field input) with
          | None => blocked
          | Some v => map_set resolved field v
          end
      end.

Fixpoint resolve_inputs (taskCode : string) (outputs : list (string * option object))
    (resolved : option object) (inputs : list TaskInputDefinition) : result (option object) :=
  match inputs with
  | [] => Ok resolved
  | input :: inputs =>
      resolved ← resolve_input taskCode outputs resolved input;
      resolve_inputs taskCode outputs resolved inputs
  end.

Definition config_defaults (taskDef : TaskDefinitionV2) : result (option object) :=
  match td_config taskDef with Some v => unmarshal_object v | None => Ok (Some []) end.

(** [db] is the state other transactions have committed: the query has a connection
    of its own. *)
Definition ResolveTaskInputs (db : database) (caseID : string) (taskDef : TaskDefinitionV2)
    : result (option object) :=
  if TrimSpace caseID =?s "" then Err (ErrMsg "caseID is required")
  else
    resolved ← config_defaults taskDef;
    outputs ← source_outputs db caseID (unique_sources (td_inputs taskDef) []);
    resolve_inputs (task_code taskDef) outputs resolved (td_inputs taskDef).

(** ** Aggregation rules *)

Definition resolveAggregationSourceValue (taskInput taskOutput : object) (sourceField : string)
    : option value :=
  let sourceField := TrimSpace sourceField in
  if sourceField =?s "" then None
  else if HasPrefix sourceField "input_payload."
  then getByPath taskInput (TrimPrefix sourceField "input_payload.")
  else if HasPrefix sourceField "output_payload."
  then getByPath taskOutput (TrimPrefix sourceField "output_payload.")
  else match getByPath taskOutput sourceField with
       | Some v => Some v
       | None => getByPath taskInput sourceField
       end.

(** The target of a rule that is about a task. *)
Definition rule_target (taskCode : string) (rule : AggregationRule) : option string :=
  if negb (ar_on_task_complete rule) then None
  else if negb (TrimSpace (ar_source_task rule) =?s TrimSpace taskCode) then None
  else
    let target := TrimPrefix (TrimSpace (ar_target_field rule)) "metadata." in
    if (TrimSpace (ar_target_field rule) =?s "") || (target =?s "") then None else Some target.

Fixpoint aggregation_patches (taskCode : string) (taskInput taskOutput : object)
    (rules : list AggregationRule) : result (list (string * value)) :=
  match rules with
  | [] => Ok []
  | rule :: rules =>
      match rule_target taskCode rule with
      | None => aggregation_patches taskCode taskInput taskOutput rules
      | Some target =>
          match resolveAggregationSourceValue taskInput taskOutput (ar_source_field rule) with
          | None => Err (ErrMsg "source field not found for rule")
          | Some v =>
              patches ← aggregation_patches taskCode taskInput taskOutput rules;
              Ok ((target, v) :: patches)
          end
      end
  end.

Fixpoint patch_paths (patches : list (string * value)) : result (list (list string * value)) :=
  match patches with
  | [] => Ok []
  | (path, v) :: patches =>
      literal ← jsonbPathLiteral path;
      rest ← patch_paths patches;
      Ok ((literal, v) :: rest)
  end.

Section Aggregation.
Variable set_in_array : Z → list string → value → result value.

(** [jsonb_set(jsonb_set(metadata, ..), ..)] *)
Fixpoint patched (metadata : value) (patches : list (list string * value)) : result value :=
  match patches with
  | [] => Ok metadata
  | (path, v) :: patches =>
      metadata ← jsonb_set set_in_array metadata path v;
      patched metadata patches
  end.

Definition patch_case (caseID : string) (patches : list (list string * value)) (c : case_row)
    : result case_row :=
  if by_id c_id caseID c then
    metadata ← patched (c_metadata c) patches;
    Ok (c <| c_metadata := metadata |> <| c_row_version ::= Z.succ |>)
  else Ok c.

Definition update_metadata (caseID : string) (patches : list (list string * value))
    : Tx database unit :=
  stmt (λ db,
    rows ← mapM (patch_case caseID patches) (cases db);
    Ok (tt, db <| cases := rows |>)).

Definition ApplyAggregationRules (caseID : string) (task : task_row)
    (rules : list AggregationRule) : Tx database unit :=
  if TrimSpace caseID =?s "" then throw (ErrMsg "caseID is required")
  else
    taskInput ← tx_of (unmarshal_object (t_input_payload task));
    taskOutput ← tx_of (unmarshal_object (t_output_payload task));
    patches ← tx_of (aggregation_patches (t_task_definition_code task)
                       (default [] taskInput) (default [] taskOutput) rules);
    match patches with
    | [] => mret tt
    | _ =>
        paths ← tx_of (patch_paths patches);
        update_metadata caseID paths
    end.

Definition applyAggregationRulesForTask_tx (caseID taskID : string) : Tx database unit :=
  task ← get_in tasks (by_id t_id taskID);
  c ← get_in cases (by_id c_id caseID);
  ct ← get_in case_types (by_id ct_id (c_case_type_id c));
  match cfg_aggregation_rules (ct_config ct) with
  | [] => mret tt
  | rules => ApplyAggregationRules caseID task rules
  end.

Definition applyAggregationRulesForTask (drv : driver) (caseID taskID : string)
    (db : database) : result unit * database :=
  within_tx drv (applyAggregationRulesForTask_tx caseID taskID) db.
End Aggregation.

(** ** What the inputs of a task are *)

(** The value the latest completed run of its source task has for an input. *)
Definition source_value (db : database) (caseID : string) (input : TaskInputDefinition)
    : option value :=
  if TrimSpace (in_source_task input) =?s "" then None
  else
    match latest_completed db caseID (TrimSpace (in_source_task input)) with
    | Some t =>
        match unmarshal_object (t_output_payload t) with
        | Ok payload => payload_value payload (source_field input)
        | Err _ => None
        end
    | None => None
    end.

(** The last input of field [f] that has a source value. *)
Fixpoint provided_value (db : database) (caseID : string) (inputs : list TaskInputDefinition)
    (f : string) : option value :=
  match inputs with
  | [] => None
  | input :: inputs =>
      match provided_value db caseID inputs f with
      | Some v => Some v
      | None => if TrimSpace (in_field input) =?s f then source_value db caseID input else None
      end
  end.

Section Inputs.
Context (db : database) (caseID : string).
Implicit Types (input : TaskInputDefinition) (inputs : list TaskInputDefinition).

Lemma source_outputs_Ok codes : ∀ outs code,
  source_outputs db caseID codes = Ok outs →
  code ∈ codes →
  str_assoc outs code =
    match latest_completed db caseID code with
    | Some t => match unmarshal_object (t_output_payload t) with Ok p => Some p | Err _ => None end
    | None => None
    end.
Proof.
  induction codes as [|c codes IH]; intros outs code Ho Hin; [by apply elem_of_nil in Hin|].
  cbn [source_outputs] in Ho.
  destruct (latest_completed db caseID c) as [t|] eqn:El.
  - destruct (unmarshal_object _) as [payload|e] eqn:Ep; [|done].
    destruct (source_outputs db caseID codes) as [rest|e] eqn:Er; [|done]. injection Ho as <-. cbn.
    destruct (String.eqb_spec code c) as [->|Hne]; [by rewrite El, Ep|].
    apply elem_of_cons in Hin as [?|Hin]; [done|]. by apply IH.
  - apply elem_of_cons in Hin as [->|Hin]; [|by apply IH]. rewrite El.
    assert (∀ l os, source_outputs db caseID l = Ok os → str_assoc os c = None) as Hnone;
      [|by eapply Hnone].
    clear -El. induction l as [|d l IH]; intros os; cbn; [by intros [= <-]|].
    destruct (latest_completed db caseID d) as [t|] eqn:Ed; [|apply IH].
    destruct (unmarshal_object _) as [p|]; [|done].
    destruct (source_outputs db caseID l) as [rest|]; [|done]. intros [= <-]. cbn.
    destruct (String.eqb_spec c d) as [->|]; [congruence|]. by apply IH.
Qed.

Lemma unique_sources_elem inputs : ∀ seen input,
  input ∈ inputs → TrimSpace (in_source_task input) ≠ "" →
  TrimSpace (in_source_task input) ∈ unique_sources inputs seen ∨
  TrimSpace (in_source_task input) ∈ seen.
Proof.
  induction inputs as [|i inputs IH]; intros seen input Hin Hne; [by apply elem_of_nil in Hin|].
  cbn [unique_sources]. apply elem_of_cons in Hin as [<-|Hin].
  - rewrite (proj2 (String.eqb_neq _ _) Hne). cbn [orb].
    destruct (str_mem _ seen) eqn:E; [right; by apply str_mem_elem|]. left. by left.
  - destruct (_ || _); [by apply IH|].
    destruct (IH (TrimSpace (in_source_task i) :: seen) _ Hin Hne) as [H|H]; [left; by right|].
    apply elem_of_cons in H as [->|H]; [left; by left|by right].
Qed.

(** [outputs] holds what [source_value] asks about. *)
Definition outputs_for (outputs : list (string * option object)) inputs : Prop :=
  ∀ input, input ∈ inputs → TrimSpace (in_source_task input) ≠ "" →
    (p ← str_assoc outputs (TrimSpace (in_source_task input)); payload_value p (source_field input))
    = source_value db caseID input.

Lemma source_outputs_for inputs outputs :
  source_outputs db caseID (unique_sources inputs []) = Ok outputs → outputs_for outputs inputs.
Proof.
  intros Ho input Hin Hne. unfold source_value. rewrite (proj2 (String.eqb_neq _ _) Hne).
  rewrite (source_outputs_Ok _ _ _ Ho).
  - destruct (latest_completed _ _ _) as [t|]; [|done]. by destruct (unmarshal_object _).
  - destruct (unique_sources_elem inputs [] input Hin Hne) as [|H]; [done|by apply elem_of_nil in H].
Qed.

(** What one step does, by cases on the availability of the value. *)
Lemma resolve_input_cases taskCode outputs inputs resolved input :
  outputs_for outputs inputs → input ∈ inputs →
  match resolve_input taskCode outputs resolved input with
  | Ok m =>
      (TrimSpace (in_source_task input) ≠ "" →
       match source_value db caseID input with
       | Some v => map_set resolved (TrimSpace (in_field input)) v = Ok m
       | None => m = resolved ∧ in_required input = false
       end) ∧
      (TrimSpace (in_source_task input) = "" →
       m = resolved ∧ (in_required input = true →
         is_Some (map_get resolved (TrimSpace (in_field input)))))
  | Err (ErrDependency s f) =>
      in_required input = true ∧
      (s = TrimSpace (in_source_task input) ∧ s ≠ "" ∧ f = source_field input ∧
         source_value db caseID input = None
       ∨ TrimSpace (in_source_task input) = "" ∧ s = taskCode ∧ f = TrimSpace (in_field input) ∧
         map_get resolved f = None)
  | Err ErrPanic => resolved = None
  | Err _ => TrimSpace (in_field input) = ""
  end.
Proof.
  intros Ho Hin. unfold resolve_input. cbv zeta.
  destruct (String.eqb_spec (TrimSpace (in_field input)) "") as [E|E]; [done|].
  destruct (String.eqb_spec (TrimSpace (in_source_task input)) "") as [Es|Es].
  - destruct (map_get resolved _) as [v|] eqn:Eg; [naive_solver|].
    unfold missing. destruct (in_required input) eqn:Er; naive_solver.
  - specialize (Ho input Hin Es). destruct (str_assoc outputs _) as [p|]; cbn [mbind option_bind] in Ho.
    + rewrite Ho. destruct (source_value db caseID input) as [v|] eqn:Ev.
      * destruct resolved as [r|]; cbn [map_set]; naive_solver.
      * unfold missing. destruct (in_required input) eqn:Er; naive_solver.
    + rewrite <- Ho. unfold missing. destruct (in_required input) eqn:Er; naive_solver.
Qed.
End Inputs.

Section Resolution.
Context (db : database) (caseID taskCode : string).

(** What a successful resolution gives a task, from the defaults [r]. *)
Definition resolution (r m : object) (inputs : list TaskInputDefinition) : Prop :=
  (∀ f, str_assoc m f = match provided_value db caseID inputs f with
                        | Some v => Some v
                        | None => str_assoc r f
                        end) ∧
  ∀ input, input ∈ inputs → in_required input = true →
    is_Some (str_assoc m (TrimSpace (in_field input))) ∧
    (TrimSpace (in_source_task input) ≠ "" → is_Some (source_value db caseID input)).

Lemma resolution_step r r1 m input inputs :
  (TrimSpace (in_source_task input) ≠ "" →
   match source_value db caseID input with
   | Some v => r1 = set_key r (TrimSpace (in_field input)) v
   | None => r1 = r ∧ in_required input = false
   end) →
  (TrimSpace (in_source_task input) = "" →
   r1 = r ∧ (in_required input = true → is_Some (str_assoc r (TrimSpace (in_field input))))) →
  resolution r1 m inputs → resolution r m (input :: inputs).
Proof.
  intros Hs Hn [Hl Hr].
  assert (Hstep : ∀ f, str_assoc r1 f =
    match (if TrimSpace (in_field input) =?s f then source_value db caseID input else None) with
    | Some v => Some v | None => str_assoc r f end).
  { intros f. destruct (String.eqb_spec (TrimSpace (in_source_task input)) "") as [E|E].
    - destruct (Hn E) as [-> _]. unfold source_value. rewrite E. by destruct (_ =?s f).
    - specialize (Hs E). destruct (source_value db caseID input) as [v|].
      + subst r1. destruct (String.eqb_spec (TrimSpace (in_field input)) f) as [<-|Hne].
        * apply str_assoc_set_key.
        * by apply str_assoc_set_key_other.
      + destruct Hs as [-> _]. by destruct (_ =?s f). }
  split.
  - intros f. rewrite Hl, Hstep. cbn [provided_value].
    by destruct (provided_value db caseID inputs f).
  - intros i [->|Hi]%elem_of_cons Hreq; [|by apply Hr].
    rewrite Hl, Hstep, string_eqb_refl.
    destruct (String.eqb_spec (TrimSpace (in_source_task input)) "") as [E|E].
    + destruct (Hn E) as [-> Hd]. split; [|done]. unfold source_value. rewrite E, string_eqb_refl.
      destruct (provided_value _ _ _ _); [by eexists|by apply Hd].
    + specialize (Hs E). destruct (source_value db caseID input) as [v|].
      * split; [by destruct (provided_value _ _ _ _); eexists|by eexists].
      * destruct Hs as [_ Hf]. congruence.
Qed.

(** A resolution from a map that is not nil. *)
Lemma resolve_inputs_cases outputs all inputs : ∀ r,
  outputs_for db caseID outputs all → (∀ i, i ∈ inputs → i ∈ all) →
  match resolve_inputs taskCode outputs (Some r) inputs with
  | Ok m => ∃ m', m = Some m' ∧ resolution r m' inputs
  | Err (ErrDependency s f) =>
      ∃ input, input ∈ inputs ∧ in_required input = true ∧
        (s = TrimSpace (in_source_task input) ∧ s ≠ "" ∧ f = source_field input ∧
           source_value db caseID input = None
         ∨ TrimSpace (in_source_task input) = "" ∧ s = taskCode ∧ f = TrimSpace (in_field input) ∧
           str_assoc r f = None)
  | Err ErrPanic => False
  | Err _ => ∃ input, input ∈ inputs ∧ TrimSpace (in_field input) = ""
  end.
Proof.
  induction inputs as [|i inputs IH]; intros r Ho Hall; cbn [resolve_inputs].
  { exists r. split; [done|]. split; [done|]. intros ? []%elem_of_nil. }
  assert (Hi : i ∈ all) by (apply Hall; by left).
  pose proof (resolve_input_cases db caseID taskCode outputs all (Some r) i Ho Hi) as Hc.
  destruct (resolve_input taskCode outputs (Some r) i) as [m1|e]; cbn [mbind result_bind].
  - assert (∃ r1, m1 = Some r1 ∧ resolution r r1 [i] ∧
        ∀ m, resolution r1 m inputs → resolution r m (i :: inputs)) as (r1 & -> & H1 & Hstep).
    { destruct Hc as [Hc1 Hc2].
      assert (∃ r1, m1 = Some r1) as [r1 ->].
      { destruct (String.eqb_spec (TrimSpace (in_source_task i)) "") as [E|E].
        - destruct (Hc2 E) as [-> _]. by eexists.
        - specialize (Hc1 E). destruct (source_value _ _ _); cbn [map_set] in Hc1; [|naive_solver].
          injection Hc1 as <-. by eexists. }
      assert (∀ m l, resolution r1 m l → resolution r m (i :: l)) as Hstep.
      { intros m l Hm. eapply resolution_step; [| |exact Hm].
        - intros E. specialize (Hc1 E). destruct (source_value _ _ _); cbn [map_set] in Hc1;
            naive_solver.
        - intros E. destruct (Hc2 E) as [[= ->] ?]. naive_solver. }
      exists r1. split_and!; [done| |by intros; apply Hstep].
      apply Hstep. split; [done|]. intros ? []%elem_of_nil. }
    specialize (IH r1 Ho (λ j Hj, Hall j (list_elem_of_further _ _ _ Hj))).
    assert (Hfield : (∃ j, j ∈ inputs ∧ TrimSpace (in_field j) = "") →
              ∃ j, j ∈ i :: inputs ∧ TrimSpace (in_field j) = "").
    { intros (j & Hj & ?). exists j. split; [by right|done]. }
    destruct (resolve_inputs taskCode outputs (Some r1) inputs) as [m|e];
      [|destruct e; try (by apply Hfield); try done].
    { destruct IH as (m' & -> & Hm). exists m'. split; [done|]. by apply Hstep. }
    destruct IH as (input & Hin & Hreq & Hd). exists input. split; [by right|].
    split; [done|]. destruct Hd as [?|(E1 & E2 & -> & Hn)]; [by left|right]. split_and!; try done.
    destruct H1 as [H1 _]. specialize (H1 (TrimSpace (in_field input))). rewrite Hn in H1.
    by destruct (provided_value _ _ _ _).
  - assert (Hi' : i ∈ i :: inputs) by by left.
    destruct e; first [done|by exists i|exists i; by destruct Hc].
Qed.
End Resolution.

(** A nil map is never filled. *)
Lemma resolve_inputs_nil taskCode outputs inputs m :
  resolve_inputs taskCode outputs None inputs = Ok m → m = None.
Proof.
  induction inputs as [|i inputs IH]; cbn [resolve_inputs]; [by intros [= <-]|].
  destruct (resolve_input taskCode outputs None i) as [m1|] eqn:E; [|done].
  assert (m1 = None) as ->; [|exact IH].
  unfold resolve_input, missing in E. cbn [map_get map_set] in E.
  repeat case_match; by simplify_eq.
Qed.

Lemma source_outputs_error db caseID codes e :
  source_outputs db caseID codes = Err e → e = ErrMsg "cannot unmarshal into a map".
Proof.
  induction codes as [|c l IH]; cbn [source_outputs]; [done|].
  destruct (latest_completed db caseID c) as [t|]; [|apply IH].
  destruct (unmarshal_object (t_output_payload t)) as [p|e'] eqn:Eu; cbn [mbind result_bind].
  - destruct (source_outputs db caseID l) as [|e1]; [done|]. intros [= <-]. by apply IH.
  - intros [= <-]. by destruct (t_output_payload t); simplify_eq/=.
Qed.

Lemma config_defaults_cases taskDef :
  match config_defaults taskDef with
  | Ok (Some _) => True
  | Ok None => td_config taskDef = Some VNil
  | Err e => e = ErrMsg "cannot unmarshal into a map"
  end.
Proof. unfold config_defaults. by destruct (td_config taskDef) as [[]|]. Qed.

(** Resolving the inputs of a task either gives every field the value of its last
    input with a value in the latest completed run of its source task, and the
    configured default otherwise, every required input having a value; or it fails
    naming a required input without one; or an input has no field, a payload or the
    configuration is not an object.  It panics only on a configuration that is the
    JSON null. *)
Theorem ResolveTaskInputs_spec db caseID taskDef :
  let inputs := td_inputs taskDef in
  match ResolveTaskInputs db caseID taskDef with
  | Ok (Some m) => ∃ defaults, config_defaults taskDef = Ok (Some defaults) ∧
      resolution db caseID defaults m inputs
  | Ok None => td_config taskDef = Some VNil
  | Err (ErrDependency s f) => td_config taskDef = Some VNil ∨
      ∃ defaults input, config_defaults taskDef = Ok (Some defaults) ∧ input ∈ inputs ∧
        in_required input = true ∧
        (s = TrimSpace (in_source_task input) ∧ f = source_field input ∧
           source_value db caseID input = None
         ∨ s = task_code taskDef ∧ f = TrimSpace (in_field input) ∧ str_assoc defaults f = None)
  | Err ErrPanic => td_config taskDef = Some VNil
  | Err _ => True
  end.
Proof.
  intros inputs. unfold ResolveTaskInputs. destruct (TrimSpace caseID =?s ""); [done|].
  pose proof (config_defaults_cases taskDef) as Hc.
  destruct (config_defaults taskDef) as [resolved|e]; cbn [mbind result_bind]; [|by subst e].
  destruct (source_outputs db caseID _) as [outputs|e] eqn:Es; cbn [mbind result_bind];
    [|by apply source_outputs_error in Es as ->].
  fold inputs. destruct resolved as [r|].
  - pose proof (resolve_inputs_cases db caseID (task_code taskDef) outputs inputs inputs r
      (source_outputs_for db caseID inputs outputs Es) ltac:(done)) as H.
    destruct (resolve_inputs _ _ _ _) as [m|e].
    + destruct H as (m' & -> & Hm). by exists r.
    + destruct e; try done. destruct H as (input & Hi & Hr & Hd). right. exists r, input.
      split_and!; [done..|]. naive_solver.
  - destruct (resolve_inputs _ _ _ _) as [m|e] eqn:Er; [|destruct e; by auto].
    by apply resolve_inputs_nil in Er as ->.
Qed.

(** ** What an aggregation rule does to the case *)

(** The objects a path goes through are there. *)
Fixpoint parents_exist (obj : object) (path : list string) : bool :=
  match path with
  | [] | [_] => true
  | k :: rest => match str_assoc obj k with Some (VMap m) => parents_exist m rest | _ => false end
  end.

(** No array lies on the path. *)
Fixpoint no_array_on (obj : object) (path : list string) : bool :=
  match path with
  | [] => true
  | k :: rest =>
      match str_assoc obj k with
      | Some (VMap m) => no_array_on m rest
      | Some (VOther _) => Nat.eqb (length rest) 0
      | _ => true
      end
  end.

Lemma set_key_same obj k v : str_assoc obj k = Some v → set_key obj k v = obj.
Proof.
  induction obj as [|[k' v'] obj IH]; cbn; [done|].
  destruct (String.eqb_spec k k') as [->|]; [by intros [= ->]|]. intros H. by rewrite IH.
Qed.

Lemma jsonb_set_path_step sa obj k k' rest v :
  jsonb_set_path sa (VMap obj) (k :: k' :: rest) v =
    match str_assoc obj k with
    | Some inner => inner' ← jsonb_set_path sa inner (k' :: rest) v; Ok (VMap (set_key obj k inner'))
    | None => Ok (VMap obj)
    end.
Proof. done. Qed.

Lemma jsonb_set_path_present sa path v : ∀ obj,
  path ≠ [] → parents_exist obj path = true →
  jsonb_set_path sa (VMap obj) path v = Ok (VMap (set_segments obj path v)).
Proof.
  induction path as [|k [|k' rest] IH]; intros obj Hne Hp; [done..|].
  change (parents_exist obj (k :: k' :: rest)) with
    (match str_assoc obj k with Some (VMap m) => parents_exist m (k' :: rest) | _ => false end) in Hp.
  change (set_segments obj (k :: k' :: rest) v) with
    (set_key obj k (VMap (set_segments
       (match str_assoc obj k with Some (VMap m) => m | _ => [] end) (k' :: rest) v))).
  rewrite jsonb_set_path_step. destruct (str_assoc obj k) as [[]|]; try done.
  by rewrite IH.
Qed.

Lemma jsonb_set_path_absent sa path v : ∀ obj,
  no_array_on obj path = true → parents_exist obj path = false →
  jsonb_set_path sa (VMap obj) path v = Ok (VMap obj).
Proof.
  induction path as [|k [|k' rest] IH]; intros obj Ha Hp; [done..|].
  change (parents_exist obj (k :: k' :: rest)) with
    (match str_assoc obj k with Some (VMap m) => parents_exist m (k' :: rest) | _ => false end) in Hp.
  rewrite jsonb_set_path_step.
  change (no_array_on obj (k :: k' :: rest)) with
    (match str_assoc obj k with
     | Some (VMap m) => no_array_on m (k' :: rest) | Some (VOther _) => false | _ => true end) in Ha.
  destruct (str_assoc obj k) as [w|] eqn:E; [|done].
  assert (jsonb_set_path sa w (k' :: rest) v = Ok w) as ->; [destruct w; try done; by apply IH|].
  cbn [mbind result_bind]. by rewrite set_key_same.
Qed.

Lemma patch_rows_get sa caseID patches c m : ∀ rows rows',
  sql_get (by_id c_id caseID) rows = Ok c →
  patched sa (c_metadata c) patches = Ok m →
  mapM (patch_case sa caseID patches) rows = Ok rows' →
  sql_get (by_id c_id caseID) rows' =
    Ok (c <| c_metadata := m |> <| c_row_version ::= Z.succ |>).
Proof.
  intros rows rows' Hg Hm. revert rows' Hg. unfold sql_get.
  induction rows as [|r rows IH]; intros rows' Hg; [done|]. cbn [mapM].
  cbn [List.filter] in Hg.
  assert (patch_case sa caseID patches r =
    if by_id c_id caseID r then
      metadata ← patched sa (c_metadata r) patches;
      Ok (r <| c_metadata := metadata |> <| c_row_version ::= Z.succ |>)
    else Ok r) as -> by done.
  destruct (by_id c_id caseID r) eqn:Er.
  - injection Hg as ->. rewrite Hm. cbn [mbind result_bind].
    destruct (mapM (patch_case sa caseID patches) rows) as [rest|]; cbn; [|done]. intros [= <-]. cbn.
    unfold by_id in *. cbn. by rewrite Er.
  - cbn [mbind result_bind].
    destruct (mapM (patch_case sa caseID patches) rows) as [rest|]; cbn; [|done].
    intros [= <-]. cbn. rewrite Er. by apply IH.
Qed.

(** A rule that copies a value of a completed task into the metadata of its case
    does so - the value is found at the target, and what lies on other paths stays -
    when the objects the target goes through are there; when one of them is missing
    or a scalar, the rule is dropped without a trace. *)
Theorem aggregation_rule_spec sa busy caseID task rules db db' c obj target path v :
  let rule_input := default [] (match unmarshal_object (t_input_payload task) with Ok m => m | Err _ => None end) in
  let rule_output := default [] (match unmarshal_object (t_output_payload task) with Ok m => m | Err _ => None end) in
  commits busy (ApplyAggregationRules sa caseID task rules) db = Some (tt, db') →
  aggregation_patches (t_task_definition_code task) rule_input rule_output rules = Ok [(target, v)] →
  jsonbPathLiteral target = Ok path →
  sql_get (by_id c_id caseID) (cases db) = Ok c → c_metadata c = VMap obj →
  no_array_on obj path = true →
  ∃ obj', sql_get (by_id c_id caseID) (cases db') =
            Ok (c <| c_metadata := VMap obj' |> <| c_row_version ::= Z.succ |>) ∧
    if parents_exist obj path then
      get_segments (VMap obj') path = Some v ∧
      ∀ q, diverge path q → is_Some (get_segments (VMap obj) q) →
        get_segments (VMap obj') q = get_segments (VMap obj) q
    else obj' = obj.
Proof.
  intros ri ro Hc Hp Hl Hg Hm Ha. unfold ApplyAggregationRules in Hc.
  destruct (TrimSpace caseID =?s ""); [done|]. subst ri ro.
  tx_step Hc. rewrite commits_of in Hc. destruct (unmarshal_object (t_input_payload task)) as [ti|]; [|done].
  tx_step Hc. rewrite commits_of in Hc. destruct (unmarshal_object (t_output_payload task)) as [to|]; [|done].
  rewrite Hp in Hc. cbn [tx_of mbind Tx_bind tx_bind patch_paths result_bind] in Hc. rewrite Hl in Hc.
  cbn [tx_of mbind Tx_bind tx_bind result_bind] in Hc. unfold update_metadata in Hc.
  rewrite commits_stmt in Hc.
  destruct (mapM _ (cases db)) as [rows|] eqn:Er; [|done]. injection Hc as <-.
  assert (path ≠ []) as Hne.
  { intros ->. unfold jsonbPathLiteral in Hl. destruct (splitPath target); [done|]. by case_match. }
  exists (if parents_exist obj path then set_segments obj path v else obj). split.
  - cbn [cases]. eapply patch_rows_get; [exact Hg| |exact Er]. rewrite Hm.
    cbn [patched]. unfold jsonb_set. destruct (parents_exist obj path) eqn:Ep.
    + by rewrite jsonb_set_path_present.
    + by rewrite jsonb_set_path_absent.
  - destruct (parents_exist obj path); [|done]. split; [by apply get_set_segments|].
    intros q Hd Hs. by apply get_set_segments_other.
Qed.

(** ** A rule with a nested target *)

Definition scored_task : task_row :=
  blank_task "task-1" "case-1" "CREDIT_CHECK" "COMPLETED"
    <| t_output_payload := VMap [("score", VInt 700)] |>.

Definition score_rule (target : string) : AggregationRule :=
  {| ar_target_field := target; ar_source_task := "CREDIT_CHECK";
     ar_source_field := "output_payload.score"; ar_on_task_complete := true |}.

(** The score reaches the top level of the metadata, and is lost below a missing key. *)
Lemma aggregation_rule_spec_witness :
  let sa (_ : Z) (_ : list string) (_ : value) := Err ErrSQL in
  let db := empty_db <| cases := [blank_case "case-1" "IN_PROGRESS"] |> in
  let after target := snd (within_tx (reliable true)
    (ApplyAggregationRules sa "case-1" scored_task [score_rule target]) db) in
  (∃ c, sql_get (by_id c_id "case-1") (cases (after "metadata.score")) = Ok c ∧
     c_metadata c = VMap [("score", VInt 700)]) ∧
  (∃ c, sql_get (by_id c_id "case-1") (cases (after "metadata.risk.score")) = Ok c ∧
     c_metadata c = VMap []).
Proof.
  intros sa db after. split.
  { exists (blank_case "case-1" "IN_PROGRESS" <| c_metadata := VMap [("score", VInt 700)] |>
              <| c_row_version := 2 |>). split; vm_compute; reflexivity. }
  destruct (aggregation_rule_spec sa true "case-1" scored_task [score_rule "metadata.risk.score"]
    db (after "metadata.risk.score") (blank_case "case-1" "IN_PROGRESS") [] "risk.score" ["risk"; "score"]%string
    (VInt 700)) as (obj' & Hc & Hp); [vm_compute; reflexivity..|].
  cbn [parents_exist str_assoc] in Hp. subst obj'. eexists. split; [exact Hc|reflexivity].
Defined.
