(* ===== verification/TaskCreation.v ===== *)
(** * The tasks of a stage (internal/engine/orchestrator.go, approval_integration.go,
    internal/repository/task_repo.go)

    When a case enters a stage, [CreateTasksForStage] makes the tasks its
    configuration lists, each with its inputs, its SLA snapshot, its approval gate and
    its default team, in one transaction; [CreateTask] is idempotent in the key of the
    task.  [onCaseStageChanged] is the handler of the event that announces the stage. *)

From Stdlib Require Import Ascii String ZArith Lia SpecFloat.
From stdpp Require Import base list strings.
From S2P Require Import Prelude Float64 ApprovalExpr RetryPolicy CaseConfig SqlTx Schema Outbox.
From S2P Require Import ApprovalService ApprovalSweep CaseLifecycle Orchestrator SlaDefinition.
From S2P Require Import JsonPath TaskInputs.

Open Scope Z_scope.
Open Scope go_scope.

(** What creation asks of libraries: the JSON Schema validator, and how the server
    takes a float64 into a NUMERIC column of that many digits, two of them decimals
    (in hundredths). *)
Class TaskLibraries := {
  schema_ok : object → option object → result unit;
  numeric_of : Z → float64 → result Z;
}.

Section Creation.
Context `{env : Env} `{clock : BusinessClock} `{libs : TaskLibraries} (repo : repo_kind).

(** ** The task repository *)

(** The row an insert makes of a [model.Task]: columns the statement does not list
    have their default. *)
Definition inserted_task (task : task_row) (id : string) : task_row :=
  blank_task id (t_case_id task) (t_task_definition_code task) (t_status task)
    <| t_activity_code := t_activity_code task |> <| t_stage_code := t_stage_code task |>
    <| t_priority := t_priority task |> <| t_assigned_service := t_assigned_service task |>
    <| t_due_at := t_due_at task |> <| t_max_retries := t_max_retries task |>
    <| t_input_payload := t_input_payload task |> <| t_output_payload := t_output_payload task |>
    <| t_idempotency_key := t_idempotency_key task |>
    <| t_requires_approval := t_requires_approval task |>
    <| t_approval_amount := t_approval_amount task |> <| t_created_at := env_now |>.

(** [INSERT .. ON CONFLICT (idempotency_key) DO NOTHING RETURNING id]; the trigger on
    the tenant and the CHECK come before the conflict. *)
Definition insert_task (task : task_row) : Tx database string :=
  stmt (λ db,
    if negb (default_tenant db (t_case_id task) && task_check task) then Err ErrSQL
    else if existsb (by_id t_idempotency_key (t_idempotency_key task)) (tasks db)
    then Err ErrNoRows
    else
      let id := env_uuid (uuid_pos db) in
      rows ← insert_row task_check task_conflict (inserted_task task id) (tasks db);
      Ok (id, db <| tasks := rows |> <| uuid_pos ::= S |>)).

Definition task_defaults (task : task_row) : task_row :=
  task <| t_status ::= λ s, orElse s "PENDING" |>
       <| t_priority ::= λ p, if p =? 0 then 2 else p |>.

Definition existing_task (key : string) (r : result string) : Tx database string :=
  match r with
  | Ok id => mret id
  | Err ErrNoRows =>
      existing ← get_in tasks (by_id t_idempotency_key key);
      mret (t_id existing)
  | Err e => throw e
  end.

(** The identifier of the new task, or of the one that has the key. *)
Definition CreateTask (task : task_row) : Tx database string :=
  r ← tx_attempt (insert_task (task_defaults task));
  existing_task (t_idempotency_key task) r.

(** ** Approval gates *)

Definition metadataLookup (metadata : object) (path : string) : option value :=
  lookupPath metadata path.
Definition coerceFloat (v : value) : option float64 := asFloat v.

Definition resolveApprovalAmountForTask (taskDef : TaskDefinitionV2) (metadata : option object)
    : result (option float64) :=
  match td_approval taskDef with
  | Some a =>
      if negb (td_requires_approval taskDef) then Ok None
      else
        let field := TrimSpace (ad_amount_field a) in
        if field =?s "" then Ok None
        else
          match metadataLookup (default [] metadata) field with
          | None => Ok None
          | Some v =>
              match coerceFloat v with
              | Some f => Ok (Some f)
              | None => Err (ErrMsg "approval amount field is not numeric")
              end
          end
  | None => Ok None
  end.

(** The definition with its defaults, and as it is written. *)
Definition gate_definition (def : ApprovalDefinition) (config : CaseTypeConfig)
    : ApprovalDefinition :=
  {| ad_policy := orElse (ad_policy def) "SINGLE_APPROVER";
     ad_required := if ad_required def <=? 0 then 1 else ad_required def;
     ad_selection := orElse (ad_selection def) "EXPLICIT_LIST";
     ad_approvers := ad_approvers def; ad_authority_limit := ad_authority_limit def;
     ad_amount_field := ad_amount_field def;
     ad_timeout_hours := if ad_timeout_hours def <=? 0 then 2400 else ad_timeout_hours def;
     ad_on_timeout := orElse (ad_on_timeout def) "ESCALATE";
     ad_rejection := orElse (ad_rejection def) "SEND_TO_REWORK";
     ad_rework_target := ad_rework_target def;
     ad_fallback_role := orElse (TrimSpace (ad_fallback_role def))
                                (TrimSpace (cfg_fallback_supervisor_role config));
     ad_dynamic_rule := TrimSpace (ad_dynamic_rule def) |}.

Definition createApprovalGateForTask (caseID taskID : string) (def : ApprovalDefinition)
    (config : CaseTypeConfig) (approvalAmount : option Z) : Tx database string :=
  let def := gate_definition def config in
  let chain := cfg_approval_chain config in
  gateID ← upsert_gate
    {| cg_TaskID := taskID; cg_CaseID := caseID; cg_Approval := def;
       cg_ApprovalAmount := approvalAmount; cg_ApprovalChain := chain;
       cg_FallbackSupervisorRole := "" |} def;
  _ ← match chain with
      | [] => mret tt
      | first :: _ => insert_chain caseID gateID chain (tier_no first)
      end;
  _ ← update_tasks (by_id t_id taskID)
    (λ t, t <| t_requires_approval := true |> <| t_approval_gate_id := Some gateID |>
            <| t_approval_amount := approvalAmount |> <| t_version ::= Z.succ |>);
  _ ← PublishEvent (new_event "APPROVAL_GATE_CREATED" (Some caseID) (Some taskID)
    [("gate_id", VString gateID); ("case_id", VString caseID); ("task_id", VString taskID);
     ("policy", VString (ad_policy def)); ("gate_status", VString "PENDING");
     ("event_reason", VString "approval_gate_created")]);
  mret gateID.

(** ** Default teams *)

Definition team_code_in (cfg : object) : option string :=
  match str_assoc cfg "default_team_code" with
  | Some v =>
      let code := ToUpper (TrimSpace (Sprint env_sprint v)) in
      if code =?s "" then None else Some code
  | None => None
  end.

Definition extractDefaultTeamCode (taskDef : TaskDefinitionV2) : string :=
  match td_config taskDef with
  | Some (VMap cfg) =>
      match team_code_in cfg with
      | Some code => code
      | None =>
          match str_assoc cfg "assignment" with
          | Some (VMap assignment) => default "" (team_code_in assignment)
          | _ => ""
          end
      end
  | _ => ""
  end.

(** [UPDATE tasks SET assigned_team_id ..], under the foreign key
    (tenant_id, assigned_team_id) of the table. *)
Definition team_known (db : database) (t : task_row) : bool :=
  match t_assigned_team_id t with
  | None => true
  | Some team => existsb (λ m, (tm_tenant_id m =?s t_tenant_id t) && (tm_id m =?s team)) (teams db)
  end.

Definition assign_team (taskID teamID : string) : Tx database unit :=
  stmt (λ db,
    match update_rows (λ t, task_check t && team_known db t) (by_id t_id taskID)
            (λ t, t <| t_assigned_team_id := Some teamID |> <| t_version ::= Z.succ |>)
            (tasks db) with
    | Ok (_, rows) => Ok (tt, db <| tasks := rows |>)
    | Err e => Err e
    end).

Definition assign_default_team (caseID tenantID taskID : string) (taskDef : TaskDefinitionV2)
    : Tx database unit :=
  let code := extractDefaultTeamCode taskDef in
  if code =?s "" then mret tt
  else
    r ← tx_attempt (get_in teams
      (λ m, (tm_tenant_id m =?s tenantID) && (tm_code m =?s code) && (tm_status m =?s "ACTIVE")));
    match r with
    | Err ErrNoRows => mret tt
    | Err e => throw e
    | Ok team =>
        _ ← assign_team taskID (tm_id team);
        PublishEvent (new_event "TASK_ASSIGNED_TO_TEAM" (Some caseID) (Some taskID)
          [("case_id", VString caseID); ("task_id", VString taskID);
           ("tenant_id", VString tenantID); ("assigned_team_id", VString (tm_id team));
           ("default_team_code", VString code);
           ("source", VString "task_definition.default_team_code")])
    end.

(** ** The tasks of a stage *)

Definition idempotency_key (caseID stageCode activityCode taskCode : string) : string :=
  caseID +:+ ":" +:+ stageCode +:+ ":" +:+ activityCode +:+ ":" +:+ taskCode.

(** The task definitions of a stage in the order of the two loops. *)
Definition stage_tasks (stage : stage_def) : list (string * TaskDefinitionV2) :=
  a ← sd_activities stage; map (pair (ad_code a)) (ad_tasks a).

(** [committed] is what other connections see. *)
Definition task_inputs (committed : database) (caseID : string) (taskDef : TaskDefinitionV2)
    : result (option object) :=
  resolvedInputs ← config_defaults taskDef;
  match td_inputs taskDef with
  | [] => Ok resolvedInputs
  | _ =>
      if negb (repo_has_sqlx repo) then Err (ErrMsg "sqlx db is not configured")
      else ResolveTaskInputs committed caseID taskDef
  end.

Definition ValidateTaskInput (taskDef : TaskDefinitionV2) (payload : option object)
    : result unit :=
  match td_input_schema taskDef with
  | [] => Ok tt
  | schema => schema_ok schema payload
  end.

(** [json.Marshal] of a map, nil or not. *)
Definition marshal_object (m : option object) : value :=
  match m with Some m => VMap m | None => VNil end.

Definition needs_gate (taskDef : TaskDefinitionV2) : option ApprovalDefinition :=
  if td_requires_approval taskDef then td_approval taskDef else None.

Definition new_task (caseID stageCode activityCode : string) (taskDef : TaskDefinitionV2)
    (inputs : option object) (amount : option Z) (dueAt : option Z) : task_row :=
  blank_task "" caseID (task_code taskDef) "PENDING"
    <| t_activity_code := activityCode |> <| t_stage_code := stageCode |>
    <| t_is_document_verification := td_is_document_verification taskDef |>
    <| t_priority := 2 |>
    <| t_max_retries := MaxRetries (ResolveRetryPolicy (td_failure taskDef)) |>
    <| t_input_payload := marshal_object inputs |>
    <| t_idempotency_key := idempotency_key caseID stageCode activityCode (task_code taskDef) |>
    <| t_requires_approval := bool_decide (is_Some (needs_gate taskDef)) |>
    <| t_approval_amount := amount |> <| t_due_at := dueAt |>.

(** The task blocked for want of an input. *)
Definition publish_blocked (caseID stageCode activityCode taskCode reason : string)
    : Tx database unit :=
  PublishEvent (to_service "case-orchestrator"
    (new_event "TASK_CREATION_BLOCKED" (Some caseID) None
       [("case_id", VString caseID); ("stage_code", VString stageCode);
        ("activity_code", VString activityCode); ("task_definition_code", VString taskCode);
        ("reason", VString reason)])).

Definition dependency_reason (sourceTask sourceField : string) : string :=
  "Dependency not satisfied: waiting for " +:+ TrimSpace sourceTask +:+ "."
    +:+ TrimSpace sourceField.

(** The SLA columns as the snapshot writes them, with their CHECK. *)
Definition snapshot_check (t : task_row) : bool :=
  task_check t &&
  match t_sla_breach_action t with
  | Some a => str_mem a ["ESCALATE_TO_SUPERVISOR"; "AUTO_REASSIGN"; "CREATE_EXCEPTION_CASE";
                         "NOTIFY_ONLY"]
  | None => true
  end.

Definition persist_sla (taskID : string) (def : SLADefinition) (dueAt durationMS : Z)
    (calendarID : string) : Tx database unit :=
  warning ← tx_of (numeric_of 5 (WarningThresholdPct def));
  critical ← tx_of (numeric_of 5 (CriticalThresholdPct def));
  _ ← update_in tasks snapshot_check (by_id t_id taskID)
    (λ t, t <| t_task_due_at := Some dueAt |>
            <| t_effective_start_time ::= λ s, Some (default (t_created_at t) s) |>
            <| t_sla_duration_ms := Some durationMS |>
            <| t_sla_warning_pct := Some warning |> <| t_sla_critical_pct := Some critical |>
            <| t_sla_breach_action := Some (BreachAction def) |>
            <| t_sla_calendar_id := Some calendarID |> <| t_version ::= Z.succ |>);
  mret tt.

(** The SLA of the task with its deadline, if it has one. *)
Definition task_sla (config : CaseTypeConfig) (stageCode activityCode taskCode : string)
    : result (option (SLADefinition * (Z * Z * string))) :=
  resolved ← ResolveEffectiveSLADefinition config stageCode activityCode taskCode;
  match resolved with
  | None => Ok None
  | Some def =>
      if negb (repo_has_sqlx repo) then Err (ErrMsg "sqlx db is not configured for SLA")
      else
        deadline ← ComputeSLADeadline env_clock (cfg_default_calendar_id config) def;
        Ok (Some (def, deadline))
  end.

(** Everything that is done for a task once its inputs are there. *)
Definition create_with (caseID stageCode tenantID : string) (config : CaseTypeConfig)
    (metadata : option object) (activityCode : string) (taskDef : TaskDefinitionV2)
    (inputs : option object) : Tx database unit :=
  _ ← tx_of (ValidateTaskInput taskDef inputs);
  approvalAmount ← tx_of (resolveApprovalAmountForTask taskDef metadata);
  sla ← tx_of (task_sla config stageCode activityCode (task_code taskDef));
  amount ← tx_of (match approvalAmount with
                  | Some f => a ← numeric_of 18 f; Ok (Some a)
                  | None => Ok None
                  end);
  taskID ← CreateTask (new_task caseID stageCode activityCode taskDef inputs amount
                         (match sla with Some (_, (dueAt, _, _)) => Some dueAt | None => None end));
  _ ← match sla with
      | Some (def, (dueAt, durationMS, calendarID)) =>
          persist_sla taskID def dueAt durationMS calendarID
      | None => mret tt
      end;
  _ ← match needs_gate taskDef with
      | Some def => _ ← createApprovalGateForTask caseID taskID def config amount; mret tt
      | None => mret tt
      end;
  assign_default_team caseID tenantID taskID taskDef.

(** The body of the loops; 1 for a task that is counted. *)
Definition create_stage_task (committed : database) (caseID stageCode tenantID : string)
    (config : CaseTypeConfig) (metadata : option object)
    (entry : string * TaskDefinitionV2) : Tx database Z :=
  let '(activityCode, taskDef) := entry in
  match task_inputs committed caseID taskDef with
  | Err (ErrDependency sourceTask sourceField) =>
      _ ← publish_blocked caseID stageCode activityCode (task_code taskDef)
            (dependency_reason sourceTask sourceField);
      mret 0
  | Err e => throw e
  | Ok inputs =>
      _ ← create_with caseID stageCode tenantID config metadata activityCode taskDef inputs;
      mret 1
  end.

Fixpoint create_stage_tasks (committed : database) (caseID stageCode tenantID : string)
    (config : CaseTypeConfig) (metadata : option object)
    (entries : list (string * TaskDefinitionV2)) : Tx database Z :=
  match entries with
  | [] => mret 0
  | entry :: entries =>
      n ← create_stage_task committed caseID stageCode tenantID config metadata entry;
      count ← create_stage_tasks committed caseID stageCode tenantID config metadata entries;
      mret (n + count)
  end.

Definition loadCaseMetadataForApproval (caseID : string) : Tx database (option object) :=
  c ← get_in cases (by_id c_id caseID);
  tx_of (unmarshal_object (c_metadata c)).

Definition CreateTasksForStage (committed : database) (caseID stageCode : string)
    (stage : stage_def) (config : CaseTypeConfig) : Tx database Z :=
  metadata ← loadCaseMetadataForApproval caseID;
  c ← get_in cases (by_id c_id caseID);
  create_stage_tasks committed caseID stageCode (c_tenant_id c) config metadata
    (stage_tasks stage).

(** The handler of CASE_STAGE_CHANGED; it reads case and type before it begins its
    transaction. *)
Definition onCaseStageChanged (drv : driver) (payload : list (string * value)) (db : database)
    : result unit * database :=
  let caseID := strFromMap payload "case_id" in
  let toStage := strFromMap payload "to_stage" in
  match case_with_type caseID db with
  | Err e => (Err e, db)
  | Ok (c, ct) =>
      match findStage (ct_config ct) toStage with
      | None => (Err (ErrMsg "stage not found in case_type config"), db)
      | Some stage =>
          within_tx drv
            (_ ← CreateTasksForStage db caseID toStage stage (ct_config ct); mret tt) db
      end
  end.
End Creation.

(** ** What creation leaves alone *)

(** The columns of a task that say which task of the configuration it is and how far
    it has come. *)
Record task_core := {
  k_key : string; k_case : string; k_stage : string; k_activity : string; k_code : string;
  k_status : string;
}.
Definition core (t : task_row) : task_core :=
  {| k_key := t_idempotency_key t; k_case := t_case_id t; k_stage := t_stage_code t;
     k_activity := t_activity_code t; k_code := t_task_definition_code t;
     k_status := t_status t |}.

Definition is_blocked_event (e : event_row) : bool := ev_type e =?s "TASK_CREATION_BLOCKED".

(** Tasks keep their core, cases stay, and nothing is announced as blocked. *)
Definition settled (db db' : database) : Prop :=
  map core (tasks db') = map core (tasks db) ∧ cases db' = cases db ∧
  List.filter is_blocked_event (outbox db') = List.filter is_blocked_event (outbox db).
#[export] Instance settled_preorder : PreOrder settled.
Proof.
  split; [by split|]. intros db1 db2 db3 (? & ? & ?) (? & ? & ?). split_and!; congruence.
Qed.

Section Structure.
Context `{env : Env} `{clock : BusinessClock} `{libs : TaskLibraries} (repo : repo_kind).

Lemma settled_publish event :
  is_blocked_event event = false → tx_all settled (PublishEvent event).
Proof.
  intros He. kept_steps; [|by simplify_eq]. split_and!; [done..|].
  etransitivity; [apply (List.filter_app is_blocked_event (outbox db) [_])|]. cbn [List.filter].
  replace (is_blocked_event _) with false by (symmetry; exact He). apply app_nil_r.
Qed.

Lemma settled_tasks check p f :
  (∀ t, core (f t) = core t) → tx_all settled (update_in tasks check p f).
Proof.
  intros Hf. kept_steps. split_and!; [|done..]. by apply sql_update_map.
Qed.

Lemma settled_upsert_gate req a : tx_all settled (upsert_gate req a).
Proof.
  apply tx_all_stmt. intros db id db'. cbv zeta.
  destruct (sql_get _ (gates db)).
  - destruct (update_rows _ _ _ _) as [[]|]; [|done]. by intros [= <- <-].
  - destruct (insert_row _ _ _ _); [|done]. by intros [= <- <-].
Qed.

Lemma settled_insert_chain caseID gateID tiers first :
  tx_all settled (insert_chain caseID gateID tiers first).
Proof.
  apply tx_all_stmt. intros db [] db'. destruct (existsb _ _); by intros [= <-].
Qed.

Lemma settled_gate caseID taskID def config amount :
  tx_all settled (createApprovalGateForTask caseID taskID def config amount).
Proof.
  unfold createApprovalGateForTask. cbv zeta.
  apply tx_all_bind; [apply settled_upsert_gate|]. intros gateID.
  apply tx_all_bind; [destruct (cfg_approval_chain config); [done|apply settled_insert_chain]|].
  intros []. apply tx_all_bind; [by apply settled_tasks|]. intros _.
  apply tx_all_bind; [by apply settled_publish|]. done.
Qed.

Lemma settled_assign taskID teamID : tx_all settled (assign_team taskID teamID).
Proof.
  apply tx_all_stmt. intros db [] db'.
  destruct (update_rows _ _ _ _) as [[n rows]|] eqn:E; [|done]. intros [= <-].
  unfold update_rows in E. destruct (forallb _ _); [|done]. injection E as <- <-.
  split_and!; [|done..]. by apply sql_update_map.
Qed.

Lemma settled_default_team caseID tenantID taskID taskDef :
  tx_all settled (assign_default_team caseID tenantID taskID taskDef).
Proof.
  unfold assign_default_team. cbv zeta. destruct (_ =?s ""); [done|].
  apply tx_all_bind; [apply tx_all_attempt, tx_all_get, _|]. intros [team|[]]; try done.
  apply tx_all_bind; [apply settled_assign|]. intros _. by apply settled_publish.
Qed.

Lemma settled_persist taskID def dueAt durationMS calendarID :
  tx_all settled (persist_sla taskID def dueAt durationMS calendarID).
Proof.
  unfold persist_sla. apply tx_all_bind; [done|]. intros w. apply tx_all_bind; [done|]. intros c.
  apply tx_all_bind; [by apply settled_tasks|]. done.
Qed.

Lemma balanced_CreateTask task : Balanced (CreateTask task).
Proof. unfold CreateTask, insert_task, existing_task. balance. Qed.
Lemma balanced_gate_for_task a b c d e : Balanced (createApprovalGateForTask a b c d e).
Proof. unfold createApprovalGateForTask, upsert_gate, insert_chain. cbv zeta. balance. Qed.
Lemma balanced_default_team a b c d : Balanced (assign_default_team a b c d).
Proof. unfold assign_default_team, assign_team. cbv zeta. balance. Qed.
Lemma balanced_persist a b c d e : Balanced (persist_sla a b c d e).
Proof. unfold persist_sla. balance. Qed.
#[local] Hint Resolve balanced_CreateTask balanced_gate_for_task balanced_default_team
  balanced_persist : balance.
Lemma balanced_create_with a b c d e f g h : Balanced (create_with repo a b c d e f g h).
Proof. unfold create_with. balance. Qed.
#[local] Hint Resolve balanced_create_with : balance.
Lemma balanced_stage_task a b c d e f g : Balanced (create_stage_task repo a b c d e f g).
Proof. unfold create_stage_task, publish_blocked. balance. Qed.
#[local] Hint Resolve balanced_stage_task : balance.
Lemma balanced_stage_tasks a b c d e f entries :
  Balanced (create_stage_tasks repo a b c d e f entries).
Proof. induction entries; cbn [create_stage_tasks]; balance. Qed.
End Structure.
#[export] Hint Resolve settled_gate settled_default_team settled_persist : kept.
#[export] Hint Resolve balanced_CreateTask balanced_gate_for_task balanced_default_team
  balanced_persist balanced_create_with balanced_stage_task balanced_stage_tasks : balance.

(** ** What creation adds *)

Section Creates.
Context `{env : Env} `{clock : BusinessClock} `{libs : TaskLibraries} (repo : repo_kind).
Context (committed : database) (caseID stageCode : string).
Implicit Types (entry : string * TaskDefinitionV2) (rows : list task_core).

Definition entry_key entry : string :=
  idempotency_key caseID stageCode entry.1 (task_code entry.2).

(** The task of an entry whose inputs are there. *)
Definition entry_core entry : task_core :=
  {| k_key := entry_key entry; k_case := caseID; k_stage := stageCode; k_activity := entry.1;
     k_code := task_code entry.2; k_status := "PENDING" |}.
Definition add_missing rows entry : list task_core :=
  if existsb (λ r, k_key r =?s entry_key entry) rows then rows else rows ++ [entry_core entry].

Definition entry_ready entry : bool := is_Ok (task_inputs repo committed caseID entry.2).

(** The announcement of an entry that lacks an input. *)
Definition blocked_row entry : list event_row :=
  match task_inputs repo committed caseID entry.2 with
  | Err (ErrDependency sourceTask sourceField) =>
      [published_row (to_service "case-orchestrator"
         (new_event "TASK_CREATION_BLOCKED" (Some caseID) None
            [("case_id", VString caseID); ("stage_code", VString stageCode);
             ("activity_code", VString entry.1);
             ("task_definition_code", VString (task_code entry.2));
             ("reason", VString (dependency_reason sourceTask sourceField))]))]
  | _ => []
  end.

Lemma existsb_core key (rows : list task_row) :
  existsb (λ r, k_key r =?s key) (map core rows) = existsb (by_id t_idempotency_key key) rows.
Proof. by induction rows as [|r rows IH]; cbn; [|rewrite IH]. Qed.

Lemma with_task_defaults task :
  t_status task = "PENDING" → t_priority task = 2 →
  task_defaults task = task.
Proof. destruct task. cbn. by intros -> ->. Qed.

Lemma commits_insert_task busy task db :
  commits busy (tx_attempt (insert_task task)) db =
    if default_tenant db (t_case_id task) && task_check task then
      if existsb (by_id t_idempotency_key (t_idempotency_key task)) (tasks db)
      then Some (Err ErrNoRows, db)
      else
        match insert_row task_check task_conflict
                (inserted_task task (env_uuid (uuid_pos db))) (tasks db) with
        | Ok rows =>
            Some (Ok (env_uuid (uuid_pos db)), db <| tasks := rows |> <| uuid_pos ::= S |>)
        | Err _ => None
        end
    else None.
Proof.
  rewrite commits_attempt. unfold insert_task. rewrite exec_stmt.
  destruct (_ && task_check task); [|done]. cbn [negb].
  destruct (existsb _ (tasks db)); [done|]. cbv zeta. destruct (insert_row _ _ _ _) as [|e] eqn:E; [done|].
  by apply insert_row_Err in E as ->.
Qed.
Lemma create_commits busy task db id db' :
  t_status task = "PENDING" → t_priority task = 2 →
  commits busy (CreateTask task) db = Some (id, db') →
  default_tenant db (t_case_id task) = true ∧
  (existsb (by_id t_idempotency_key (t_idempotency_key task)) (tasks db) = true ∧ db' = db ∨
   existsb (by_id t_idempotency_key (t_idempotency_key task)) (tasks db) = false ∧
   db' = db <| tasks := tasks db ++ [inserted_task task id] |> <| uuid_pos ::= S |>).
Proof.
  intros Hs Hp H. unfold CreateTask in H. rewrite with_task_defaults in H by done.
  rewrite commits_bind, commits_insert_task in H by (unfold insert_task; balance).
  destruct (default_tenant db (t_case_id task)); [|done]. split; [done|].
  destruct (task_check task); [|done]. cbn [andb] in H.
  destruct (existsb _ (tasks db)); [left|right]; (split; [done|]).
  - unfold existing_task in H. rewrite commits_bind, commits_get in H by balance.
    destruct (sql_get _ (tasks db)); [|done]. by injection H as _ <-.
  - destruct (insert_row _ _ _ _) as [rows|] eqn:Er; [|done]. apply insert_row_Ok in Er as ->.
    unfold existing_task in H. rewrite commits_mret in H. by injection H as <- <-.
Qed.

(** What a run for one entry does to the tasks. *)
Definition adds entry (db db' : database) : Prop :=
  map core (tasks db') = add_missing (map core (tasks db)) entry ∧ cases db' = cases db ∧
  List.filter is_blocked_event (outbox db') = List.filter is_blocked_event (outbox db).

Lemma adds_settled entry db db1 db' : adds entry db db1 → settled db1 db' → adds entry db db'.
Proof. intros (? & ? & ?) (? & ? & ?). split_and!; congruence. Qed.

Lemma create_with_commits busy tenantID config metadata activityCode taskDef inputs db db' :
  commits busy (create_with repo caseID stageCode tenantID config metadata activityCode taskDef
                  inputs) db = Some (tt, db') →
  default_tenant db caseID = true ∧ adds (activityCode, taskDef) db db'.
Proof.
  unfold create_with. intros H.
  do 4 (rewrite commits_bind, commits_of in H by balance;
        match type of H with match (match ?r with _ => _ end) with _ => _ end = _ =>
          destruct r; [|done] end).
  rewrite commits_bind in H by balance.
  destruct (commits busy (CreateTask _) db) as [[id db1]|] eqn:Ec; [|done].
  apply create_commits in Ec as [Hd Hc]; [|done..]. split; [exact Hd|].
  eapply (commits_all busy settled) in H; cycle 1.
  { apply tx_all_bind; [kept_steps; auto with kept|]. intros [].
    apply tx_all_bind; [|intros []; auto with kept].
    destruct (needs_gate taskDef); [|done].
    apply tx_all_bind; [auto with kept|done]. }
  eapply adds_settled; [|exact H]. unfold adds, add_missing. rewrite existsb_core.
  unfold entry_key. cbn [fst snd].
  destruct Hc as [[Hk ->]|[Hk ->]].
  - replace (existsb _ _) with true by (symmetry; exact Hk). done.
  - replace (existsb _ _) with false by (symmetry; exact Hk). split_and!; [|done..].
    etransitivity; [apply (map_app core (tasks db) [_])|]. by do 2 f_equal.
Qed.

Notation ready := (List.filter entry_ready).

Lemma blocked_published event db :
  is_blocked_event event = true →
  List.filter is_blocked_event (outbox (outbox_with (published_row event) db)) =
    List.filter is_blocked_event (outbox db) ++ [published_row event].
Proof.
  intros He. etransitivity; [apply (List.filter_app is_blocked_event (outbox db) [_])|].
  cbn [List.filter]. by replace (is_blocked_event (published_row event)) with true.
Qed.

Lemma stage_task_commits busy tenantID config metadata entry db n db' :
  commits busy (create_stage_task repo committed caseID stageCode tenantID config metadata entry) db
    = Some (n, db') →
  cases db' = cases db ∧
  (entry_ready entry = true ∧ n = 1 ∧ default_tenant db caseID = true ∧ blocked_row entry = [] ∧
     adds entry db db' ∨
   entry_ready entry = false ∧ n = 0 ∧ map core (tasks db') = map core (tasks db) ∧
     List.filter is_blocked_event (outbox db') =
       List.filter is_blocked_event (outbox db) ++ blocked_row entry).
Proof.
  destruct entry as [activityCode taskDef]. unfold create_stage_task, entry_ready, blocked_row.
  cbn [fst snd]. intros H.
  destruct (task_inputs repo committed caseID taskDef) as [inputs|e].
  - rewrite commits_bind in H by balance.
    destruct (commits busy (create_with _ _ _ _ _ _ _ _ _) db) as [[[] db1]|] eqn:Ec; [|done].
    rewrite commits_mret in H. injection H as <- <-.
    apply create_with_commits in Ec as [Hd Ha]. split; [apply Ha|]. left. by split_and!.
  - destruct e; try done. unfold publish_blocked in H.
    rewrite commits_bind in H by (apply balanced_publish_event). unfold commits at 1 in H.
    rewrite exec_PublishEvent in H by auto with golib. rewrite commits_mret in H. injection H as <- <-.
    split; [done|]. right. split_and!; [done..|]. by apply blocked_published.
Qed.

Lemma stage_tasks_commits busy tenantID config metadata entries : ∀ db n db',
  commits busy (create_stage_tasks repo committed caseID stageCode tenantID config metadata entries)
    db = Some (n, db') →
  cases db' = cases db ∧ n = Z.of_nat (length (ready entries)) ∧
  (ready entries = [] ∨ default_tenant db caseID = true) ∧
  map core (tasks db') = fold_left add_missing (ready entries) (map core (tasks db)) ∧
  List.filter is_blocked_event (outbox db') =
    List.filter is_blocked_event (outbox db) ++ (entries ≫= blocked_row).
Proof.
  induction entries as [|entry entries IH]; intros db n db' H; cbn [create_stage_tasks] in H.
  - rewrite commits_mret in H. injection H as <- <-. cbn. rewrite app_nil_r. auto.
  - rewrite commits_bind in H by balance.
    destruct (commits busy (create_stage_task _ _ _ _ _ _ _ _) db) as [[m db1]|] eqn:Ec; [|done].
    apply stage_task_commits in Ec as (Hcs & Hc). rewrite commits_bind in H by balance.
    destruct (commits busy (create_stage_tasks _ _ _ _ _ _ _ _) db1) as [[m' db2]|] eqn:Er; [|done].
    rewrite commits_mret in H. injection H as <- <-.
    apply IH in Er as (Hcs' & -> & Hd & Ht & Hb). split; [congruence|]. cbn [List.filter].
    destruct Hc as [(-> & -> & Hd1 & Hr & Ha & _ & Hf)|(-> & -> & Ha & Hf)].
    + split_and!; [cbn [length]; lia|by right|by rewrite Ht, Ha|].
      cbn. rewrite Hr. cbn. by rewrite Hb, Hf.
    + split_and!; [done| |by rewrite Ht, Ha|].
      * destruct Hd as [?|Hd]; [by left|right]. revert Hd. unfold default_tenant. by rewrite Hcs.
      * cbn. by rewrite Hb, Hf, <- app_assoc.
Qed.
End Creates.

(** ** What a committed creation has done *)

Section Results.
Context `{env : Env} `{clock : BusinessClock} `{libs : TaskLibraries} (repo : repo_kind).

Lemma stage_creation_commits busy committed caseID stageCode stage config db n db' :
  commits busy (CreateTasksForStage repo committed caseID stageCode stage config) db
    = Some (n, db') →
  let ready := List.filter (entry_ready repo committed caseID) (stage_tasks stage) in
  cases db' = cases db ∧ n = Z.of_nat (length ready) ∧
  (ready = [] ∨ default_tenant db caseID = true) ∧
  map core (tasks db') = fold_left (add_missing caseID stageCode) ready (map core (tasks db)) ∧
  List.filter is_blocked_event (outbox db') = List.filter is_blocked_event (outbox db) ++
    (stage_tasks stage ≫= blocked_row repo committed caseID stageCode).
Proof.
  unfold CreateTasksForStage, loadCaseMetadataForApproval. cbv zeta. intros H.
  rewrite commits_bind in H by balance. rewrite commits_bind, commits_get in H by balance.
  destruct (sql_get _ (cases db)); [|done]. rewrite commits_of in H.
  destruct (unmarshal_object _); [|done]. rewrite commits_bind, commits_get in H by balance.
  destruct (sql_get _ (cases db)); [|done]. by eapply stage_tasks_commits.
Qed.

Lemma add_missing_present caseID stageCode entries rows :
  (∀ entry, entry ∈ entries → ∃ r, r ∈ rows ∧ k_key r = entry_key caseID stageCode entry) →
  fold_left (add_missing caseID stageCode) entries rows = rows.
Proof.
  intros Hin. revert rows Hin. induction entries as [|e entries IH]; intros rows Hin; [done|].
  cbn [fold_left]. unfold add_missing at 2.
  destruct (Hin e) as (r & Hr & Hk); [by left|].
  replace (existsb _ rows) with true; [apply IH; intros e' He'; apply Hin; by right|].
  symmetry. apply existsb_exists. exists r. rewrite <- list_elem_of_In. split; [done|].
  rewrite Hk. apply string_eqb_refl.
Qed.
End Results.

(** C19. The tasks after a committed creation are those before it with their status,
    followed by one PENDING task for every entry of the stage whose inputs could be
    resolved and whose key no task has yet, in the order of the configuration.  An
    entry that lacks a required input is only announced as blocked. *)
Theorem CreateTasksForStage_spec `{env : Env} `{clock : BusinessClock} `{libs : TaskLibraries}
    (repo : repo_kind) (drv : driver) (committed : database) (caseID stageCode : string)
    (stage : stage_def) (config : CaseTypeConfig) (db : database) (n : Z) (db' : database) :
  within_tx drv (CreateTasksForStage repo committed caseID stageCode stage config) db
    = (Ok n, db') →
  let ready := List.filter (entry_ready repo committed caseID) (stage_tasks stage) in
  n = Z.of_nat (length ready) ∧ cases db' = cases db ∧
  map core (tasks db') = fold_left (add_missing caseID stageCode) ready (map core (tasks db)) ∧
  List.filter is_blocked_event (outbox db') = List.filter is_blocked_event (outbox db) ++
    (stage_tasks stage ≫= blocked_row repo committed caseID stageCode).
Proof.
  intros (? & ? & _ & ? & ?)%within_tx_commits%stage_creation_commits ready. by split_and!.
Qed.

(** Announcing a stage all of whose tasks exist, as after a rework, creates no
    task and reopens none: a case whose tasks were all finished has no open task. *)
Theorem reentered_stage_creates_nothing `{env : Env} `{clock : BusinessClock}
    `{libs : TaskLibraries} (repo : repo_kind) (drv : driver)
    (payload : list (string * value)) (db db' : database) (c : case_row) (ct : case_type_row)
    (stage : stage_def) :
  let caseID := strFromMap payload "case_id" in
  let toStage := strFromMap payload "to_stage" in
  onCaseStageChanged repo drv payload db = (Ok tt, db') →
  case_with_type caseID db = Ok (c, ct) →
  findStage (ct_config ct) toStage = Some stage →
  (∀ entry, entry ∈ stage_tasks stage → ∃ t, t ∈ tasks db ∧
     t_idempotency_key t = entry_key caseID toStage entry) →
  map core (tasks db') = map core (tasks db) ∧
  ((∀ t, t ∈ tasks db → t_case_id t = caseID → is_open_task t = false) →
   ∀ t, t ∈ tasks db' → t_case_id t = caseID → is_open_task t = false).
Proof.
  intros caseID toStage H Hc Hs Hk. unfold onCaseStageChanged in H. fold caseID toStage in H.
  rewrite Hc, Hs in H. apply within_tx_commits in H. rewrite commits_bind in H.
  2: { unfold CreateTasksForStage, loadCaseMetadataForApproval. balance. }
  destruct (commits _ (CreateTasksForStage _ _ _ _ _ _) db) as [[n db1]|] eqn:Ec; [|done].
  rewrite commits_mret in H. injection H as <-.
  apply stage_creation_commits in Ec as (_ & _ & _ & Ht & _).
  rewrite add_missing_present in Ht; [split; [done|]|].
  - intros Hdone t Hin Hid.
    assert (core t ∈ map core (tasks db)) as Hin0.
    { rewrite <- Ht. by apply list_elem_of_In, in_map, list_elem_of_In. }
    apply list_elem_of_In, in_map_iff in Hin0 as (t0 & E & Hin0%list_elem_of_In).
    injection E as _ Ecase _ _ _ Est. unfold is_open_task. rewrite <- Est.
    apply (Hdone t0 Hin0). congruence.
  - intros entry He. apply list_elem_of_In, filter_In in He as [He%list_elem_of_In _]. destruct (Hk entry He) as (t & Hin & E).
    exists (core t). split; [by apply list_elem_of_In, in_map, list_elem_of_In|done].
Qed.

(** C23. The engine writes tasks and stage transitions without a tenant, and the
    triggers of migration 000028 refuse the default one on a case of another tenant: no
    such case can be given a task or moved to another stage; every attempt fails and
    leaves no trace. *)
Theorem other_tenants_are_stuck `{env : Env} `{clock : BusinessClock} `{libs : TaskLibraries}
    (repo : repo_kind) (drv : driver) (db : database) (caseID : string) (c : case_row) :
  case_of db caseID = Ok c → c_tenant_id c ≠ DefaultTenantID →
  (∀ committed stageCode stage config entry, entry ∈ stage_tasks stage →
     entry_ready repo committed caseID entry = true →
     ∃ e, within_tx drv (CreateTasksForStage repo committed caseID stageCode stage config) db
       = (Err e, db)) ∧
  (∀ input, ti_CaseID input = caseID → same_stage input c = false →
     ∃ e, within_tx drv (RecordStageTransition repo input) db = (Err e, db)).
Proof.
  intros Hc Hten. split.
  - intros committed stageCode stage config entry Hin Hr. apply within_tx_no_commit.
    destruct (commits _ _ _) as [[n db']|] eqn:E; [|done].
    apply stage_creation_commits in E as (_ & _ & [Hnil|Hd] & _).
    + assert (In entry []) as []. rewrite <- Hnil. apply filter_In.
      by rewrite <- list_elem_of_In.
    + unfold default_tenant in Hd. unfold case_of in Hc. rewrite Hc in Hd.
      by apply String.eqb_eq in Hd.
  - intros input <- Hs. apply within_tx_no_commit.
    destruct (commits _ _ _) as [[[] db']|] eqn:E; [|done].
    apply record_commits in E as (c' & ct & Hc' & _ & [[Hs' _]|(_ & Ht & _)]);
      apply case_with_type_Ok in Hc' as [Hc' _]; congruence.
Qed.

(** ** Concrete runs *)

#[export] Instance sample_libraries : TaskLibraries :=
  {| schema_ok := λ _ _, Ok tt; numeric_of := λ _ f, Ok (trunc (fmul f (of_int 100))) |}.

(** The score needs what the credit report says; both are tasks of one activity. *)
Definition score_task : TaskDefinitionV2 :=
  let plain := plain_task "SCORE" in
  {| td_failure := td_failure plain; td_config := td_config plain; td_sla := td_sla plain;
     td_requires_approval := td_requires_approval plain; td_approval := td_approval plain;
     td_is_document_verification := td_is_document_verification plain;
     td_compensating_task_code := td_compensating_task_code plain;
     td_inputs := [{| in_field := "score"; in_source_task := "PULL_REPORT";
                      in_source_field := "score"; in_required := true |}];
     td_input_schema := td_input_schema plain; td_output_schema := td_output_schema plain |}.

Definition credit_type : case_type_row :=
  blank_case_type "loan" "LOAN" 1
    (plain_config
       [plain_stage "INTAKE" 1 [plain_activity "APPLY" [plain_task "COLLECT"]];
        plain_stage "REVIEW" 2
          [plain_activity "CREDIT" [plain_task "PULL_REPORT"; score_task]];
        plain_stage "DECISION" 3 [plain_activity "DECIDE" [plain_task "UNDERWRITE"]]]).

Definition credit_case (stage : string) (ordinal : Z) : case_row :=
  blank_case "case-1" "IN_PROGRESS" <| c_current_stage_code := Some stage |>
    <| c_current_stage_ordinal := ordinal |>.
Definition at_stage (stage : string) (ordinal : Z) : database :=
  empty_db <| cases := [credit_case stage ordinal] |> <| case_types := [credit_type] |>.

Definition stage_event (stage : string) : list (string * value) :=
  [("case_id", VString "case-1"); ("to_stage", VString stage)]%string.
Definition announce (stage : string) (db : database) : result unit * database :=
  onCaseStageChanged (env := sample_env case_statuses_22) (clock := no_calendar) life_repo
    (reliable true) (stage_event stage) db.
Definition complete_all (db : database) : database :=
  db <| tasks ::= sql_update (λ _, true)
          (λ t, t <| t_status := "COMPLETED" |> <| t_completed_at := Some 5 |>
                  <| t_output_payload := VMap [("score", VInt 700)] |>) |>.
Definition finish_activity (stage activity : string) (db : database) : result unit * database :=
  onActivityCompleted (env := sample_env case_statuses_22) life_repo (reliable true)
    [("case_id", VString "case-1"); ("stage_code", VString stage);
     ("activity_code", VString activity)]%string db.

Definition codes (db : database) : list (string * string) :=
  map (λ t, (t_task_definition_code t, t_status t)) (tasks db).

Definition review_entered : database := snd (announce "REVIEW" (at_stage "REVIEW" 2)).
Definition report_there : database := complete_all review_entered.
Definition moved_on : database := snd (finish_activity "REVIEW" "CREDIT" report_there).

(** A task that needs the output of another task of its stage is never made: when
    the stage is entered it is blocked, nothing handles that announcement, and when the
    report it waited for is there, its activity counts as complete and the case moves
    on without it. *)
Theorem dependent_task_is_skipped :
  announce "REVIEW" (at_stage "REVIEW" 2) = (Ok tt, review_entered) ∧
  codes review_entered = [("PULL_REPORT", "PENDING")] ∧
  map ev_type (outbox review_entered) = ["TASK_CREATION_BLOCKED"] ∧
  is_Ok (task_inputs life_repo report_there "case-1" score_task) = true ∧
  finish_activity "REVIEW" "CREDIT" report_there = (Ok tt, moved_on) ∧
  c_current_stage_code <$> case_of moved_on "case-1" = Ok (Some "DECISION") ∧
  codes (snd (announce "DECISION" moved_on)) =
    [("PULL_REPORT", "COMPLETED"); ("UNDERWRITE", "PENDING")].
Proof. vm_compute. repeat split. Qed.

Lemma CreateTasksForStage_spec_witness :
  let stage := plain_stage "REVIEW" 2 [plain_activity "CREDIT" [plain_task "PULL_REPORT"; score_task]] in
  let db := at_stage "REVIEW" 2 in
  let env := sample_env case_statuses_22 in
  let clock := no_calendar in
  let run := within_tx (reliable true)
    (CreateTasksForStage life_repo db "case-1" "REVIEW" stage (ct_config credit_type)) db in
  run = (Ok 1, snd run) ∧ length (tasks (snd run)) = 1%nat.
Proof.
  intros stage db env clock run. assert (run = (Ok 1, snd run)) as H by (vm_compute; reflexivity).
  split; [exact H|].
  destruct (CreateTasksForStage_spec life_repo (reliable true) db "case-1" "REVIEW" stage
              (ct_config credit_type) db 1 (snd run) H) as (_ & _ & Ht & _).
  rewrite <- (length_map core), Ht. vm_compute. reflexivity.
Defined.

(** The case of the next witness is rejected in review and sent back to the intake. *)
Definition in_review : database :=
  complete_all (snd (announce "INTAKE" (at_stage "INTAKE" 1)))
    <| cases := [credit_case "REVIEW" 2] |>.
Definition sent_back : database :=
  snd (within_tx (reliable true)
    (sendCaseToRework (env := sample_env case_statuses_22) "case-1" "gate-1" "INTAKE"
       "papers missing" "boss") in_review).

Lemma reentered_stage_creates_nothing_witness :
  c_current_stage_code <$> case_of sent_back "case-1" = Ok (Some "INTAKE") ∧
  c_status <$> case_of sent_back "case-1" = Ok "IN_PROGRESS" ∧
  fst (announce "INTAKE" sent_back) = Ok tt ∧
  ∀ t, t ∈ tasks (snd (announce "INTAKE" sent_back)) → t_case_id t = "case-1" →
    is_open_task t = false.
Proof.
  split; [vm_compute; reflexivity|]. split; [vm_compute; reflexivity|].
  split; [vm_compute; reflexivity|].
  refine (proj2 (reentered_stage_creates_nothing (env := sample_env case_statuses_22)
    (clock := no_calendar) life_repo (reliable true) (stage_event "INTAKE") sent_back
    (snd (announce "INTAKE" sent_back))
    (credit_case "INTAKE" 1 <| c_row_version := 2 |> <| c_rework_count := 1 |>) credit_type
    (plain_stage "INTAKE" 1 [plain_activity "APPLY" [plain_task "COLLECT"]]) _ _ _ _) _).
  - vm_compute. reflexivity.
  - vm_compute. reflexivity.
  - vm_compute. reflexivity.
  - assert (forallb (λ entry, existsb (λ t, t_idempotency_key t =?s
      entry_key "case-1" "INTAKE" entry) (tasks sent_back))
      (stage_tasks (plain_stage "INTAKE" 1 [plain_activity "APPLY" [plain_task "COLLECT"]])) = true)
      as Hk by (vm_compute; reflexivity).
    rewrite forallb_forall in Hk. intros entry He%list_elem_of_In. apply Hk in He.
    apply existsb_exists in He as (t & Ht%list_elem_of_In & E%String.eqb_eq). by exists t.
  - assert (forallb (λ t, negb (is_open_task t)) (tasks sent_back) = true) as Hd
      by (vm_compute; reflexivity).
    rewrite forallb_forall in Hd. intros t Ht%list_elem_of_In _. by apply negb_true_iff, Hd.
Defined.

Lemma other_tenants_are_stuck_witness :
  let db := at_stage "INTAKE" 1 <| cases ::= sql_update (λ _, true)
              (λ c, c <| c_tenant_id := "11111111-1111-1111-1111-111111111111" |>) |> in
  (∃ e, within_tx (reliable true) (RecordStageTransition (env := sample_env case_statuses_22)
     life_repo to_decision) db = (Err e, db)).
Proof.
  intros db.
  apply (other_tenants_are_stuck (env := sample_env case_statuses_22) (clock := no_calendar)
    life_repo (reliable true) db "case-1" (credit_case "INTAKE" 1
      <| c_tenant_id := "11111111-1111-1111-1111-111111111111" |>)).
  - vm_compute. reflexivity.
  - vm_compute. discriminate.
  - reflexivity.
  - vm_compute. reflexivity.
Defined.
