(* ===== verification/ApproverSelection.v ===== *)
(** * Selecting the approvers of a gate (internal/approval/selection.go)

    Who is asked to approve: a list of users, the users of given roles, the nearest
    eligible manager of the case's assignee, or the users of the role a rule
    computes from the case's metadata; always among the active users whose
    authority covers the amount.  The queries run on the pool. *)

From Stdlib Require Import Ascii String ZArith Lia SpecFloat.
From stdpp Require Import base list strings sets.
From S2P Require Import Prelude Float64 SqlTx ApprovalExpr CaseConfig Schema.

Open Scope Z_scope.
Open Scope go_scope.

(** ** Lists of users and roles *)

Fixpoint trimmed_seeds (seeds seen : list string) : list string :=
  match seeds with
  | [] => []
  | v :: seeds =>
      let t := TrimSpace v in
      if (t =?s "") || str_mem t seen then trimmed_seeds seeds seen
      else t :: trimmed_seeds seeds (t :: seen)
  end.
Definition decodeApproverSeeds (seeds : list string) : list string := trimmed_seeds seeds [].

(** ** Dynamic rules: [if <condition> then <role> else <role>] *)

(** [\s] and [[A-Za-z0-9_]] of the regular expressions. *)
Definition re_space (c : ascii) : bool :=
  let n := byte_of c in ((n =? 9) || (n =? 10) || (n =? 12) || (n =? 13) || (n =? 32))%N.
Definition word_char (c : ascii) : bool :=
  is_digit c || is_upper c || is_lower c || Ascii.eqb c "_".
Definition newline (c : ascii) : bool := (byte_of c =? 10)%N.

Fixpoint span (p : ascii → bool) (l : list ascii) : list ascii * list ascii :=
  match l with
  | [] => ([], [])
  | c :: r => if p c then let '(a, b) := span p r in (c :: a, b) else ([], l)
  end.
Definition span1 (p : ascii → bool) (l : list ascii) : option (list ascii * list ascii) :=
  match span p l with ([], _) => None | r => Some r end.

(** A literal of the pattern, under [(?i)]. *)
Fixpoint strip_fold (w l : list ascii) : option (list ascii) :=
  match w, l with
  | [], _ => Some l
  | a :: w, c :: l => if Ascii.eqb a (lower_char c) then strip_fold w l else None
  | _ :: _, [] => None
  end.

(** [(.+)] between [\s+] and [\s+], up to the white space around it. *)
Definition rule_condition (rest : list ascii) : option (list ascii) :=
  match span re_space rest, span re_space (rev rest) with
  | (_ :: _, r), (_ :: _, _) =>
      let core := rev (span re_space (rev r)).2 in
      match core with
      | [] => match removelast (tail rest) with
              | [] => None
              | middle => if forallb newline middle then None else Some []
              end
      | _ => if existsb newline core then None else Some core
      end
  | _, _ => None
  end.

(** [dynamicRulePattern.FindStringSubmatch]: the tail of the pattern leaves no choice,
    so it is read from the end of the text. *)
Definition dynamicRulePattern (rule : string) : option (string * string * string) :=
  let l := (span re_space (rev (string_chars rule))).2 in
  '(w2, l) ← span1 word_char l;
  '(_, l) ← span1 re_space l;
  l ← strip_fold ["e"; "s"; "l"; "e"]%char l;
  '(_, l) ← span1 re_space l;
  '(w1, l) ← span1 word_char l;
  '(_, l) ← span1 re_space l;
  l ← strip_fold ["n"; "e"; "h"; "t"]%char l;
  r ← strip_fold ["i"; "f"]%char (span re_space (rev l)).2;
  cond ← rule_condition r;
  Some (chars_string cond, chars_string (rev w1), chars_string (rev w2)).

(** [%.0f]: the exact value rounded to an integer, ties to even. *)
Definition round_even (m : positive) (e : Z) : Z :=
  if 0 <=? e then Zpos m * 2 ^ e
  else
    let d := 2 ^ (- e) in
    let q := Zpos m / d in
    let r := Zpos m mod d in
    if (d <? 2 * r) || ((2 * r =? d) && Z.odd q) then q + 1 else q.
Definition format_f0 (f : float64) : string :=
  match f with
  | S754_zero sg => if sg then "-0" else "0"
  | S754_infinity sg => if sg then "-Inf" else "+Inf"
  | S754_nan => "NaN"
  | S754_finite sg m e => (if sg then "-" else "") +:+ Itoa (round_even m e)
  end.

(** The match of [\b([0-9]+(?:\.[0-9]+)?)k\b] that starts here: the number, the letter,
    and what follows. *)
Definition thousand_at (s : list ascii) : option (list ascii * ascii * list ascii) :=
  '(ds, r) ← span1 is_digit s;
  let '(num, r) :=
    match r with
    | "."%char :: r' => match span1 is_digit r' with
                        | Some (fs, r'') => (ds ++ "."%char :: fs, r'')
                        | None => (ds, r)
                        end
    | _ => (ds, r)
    end in
  match r with
  | k :: rest =>
      if Ascii.eqb (lower_char k) "k" &&
         match rest with c :: _ => negb (word_char c) | [] => true end
      then Some (num, k, rest) else None
  | [] => None
  end.
Definition thousand_text (num : list ascii) (k : ascii) : list ascii :=
  match ParseFloat (ToLower (chars_string num)) with
  | Some n => string_chars (format_f0 (fmul n (of_int 1000)))
  | None => num ++ [k]
  end.
(** [ReplaceAllStringFunc]; [word] says whether the byte before is part of a word. *)
Fixpoint thousands (fuel : nat) (word : bool) (s : list ascii) : list ascii :=
  match fuel, s with
  | S fuel, c :: r =>
      if negb word && is_digit c then
        match thousand_at s with
        | Some (num, k, rest) => thousand_text num k ++ thousands fuel true rest
        | None => c :: thousands fuel true r
        end
      else c :: thousands fuel (word_char c) r
  | _, _ => []
  end.
Definition replace_thousands (condition : string) : string :=
  let l := string_chars condition in chars_string (thousands (length l) false l).

Section Selection.
Context `{env : Env}.

Definition decodeCaseMetadata (raw : value) : result (list (string * value)) :=
  match raw with
  | VMap m => Ok m
  | VNil => Ok []
  | _ => Err (ErrMsg "cannot unmarshal into map[string]interface {}")
  end.

Definition resolveDynamicRole (metadata : list (string * value)) (rule : string) : result string :=
  match dynamicRulePattern rule with
  | None => Err (ErrMsg ("unsupported dynamic rule format: " +:+ rule))
  | Some (cond, trueRole, falseRole) =>
      (λ ok : bool, if ok then TrimSpace trueRole else TrimSpace falseRole) <$>
        Evaluate env_sprint metadata (replace_thousands (TrimSpace cond))
  end.

(** ** Queries *)

Definition covers (amount : Z) (userID : string) (ua : authority_row) : bool :=
  (ua_user_id ua =?s userID) && bool_decide (ua_revoked_at ua = None) &&
  match ua_expires_at ua with Some t => env_now <? t | None => true end &&
  (amount <=? ua_max_amount ua).
(** What a gate without an amount asks of authority: nothing. *)
Definition has_authority (db : database) (userID : string) (amount : option Z) : bool :=
  match amount with
  | Some a => existsb (covers a userID) (authorities db)
  | None => true
  end.

Definition active (u : user_row) : bool := u_status u =?s "ACTIVE".
Definition users_with (p : user_row → bool) (amount : option Z) (db : database) : list string :=
  map u_id (sql_select (λ u, active u && p u && has_authority db (u_id u) amount) (users db)).

Definition selectUsersByRoles (roles : list string) (amount : option Z) : Tx database (list string) :=
  match roles with
  | [] => mret []
  | _ => query (λ db, Ok (users_with (λ u, str_mem (u_role_code u) roles) amount db))
  end.

Definition filterUsersByAuthority (userIDs : list string) (amount : option Z)
    : Tx database (list string) :=
  match userIDs with
  | [] => mret []
  | _ => query (λ db, Ok (users_with (λ u, str_mem (u_id u) userIDs) amount db))
  end.

(** The loop of [findInReportingChain]; [n] iterations are left. *)
Fixpoint reporting_loop (n : nat) (roles : list string) (amount : option Z) (current : string)
    : Tx database (list string) :=
  match n with
  | O => mret []
  | S n =>
      u ← get_in users (by_id u_id current);
      match u_manager_id u with
      | None => mret []
      | Some managerID =>
          if TrimSpace managerID =?s "" then mret []
          else
            mgr ← get_in users (by_id u_id managerID);
            if negb (active mgr) then reporting_loop n roles amount managerID
            else if negb (Nat.eqb (length roles) 0) && negb (str_mem (u_role_code mgr) roles)
            then reporting_loop n roles amount managerID
            else
              match amount with
              | None => mret [u_id mgr]
              | Some a =>
                  count ← query (λ db, Ok (sql_count (covers a (u_id mgr)) (authorities db)));
                  if count =? 0 then reporting_loop n roles amount managerID
                  else mret [u_id mgr]
              end
      end
  end.
Definition findInReportingChain (startUserID : string) (seeds : list string) (amount : option Z)
    : Tx database (list string) :=
  reporting_loop 20 (decodeApproverSeeds seeds) amount startUserID.

Definition eligible_amount (gate : gate_row) : option Z :=
  match g_amount gate with Some a => Some a | None => g_authority_limit gate end.

Definition some_approver (m : Tx database (list string)) : Tx database (list string) :=
  ids ← m;
  match ids with [] => throw ErrNoEligibleApprover | _ => mret ids end.

Definition blank (s : option string) : bool :=
  match s with Some s => TrimSpace s =?s "" | None => true end.

(** The case is given by its assignee and its metadata. *)
Definition SelectApprovers (gate : gate_row) (assignedTo : option string) (metadata : value)
    : Tx database (list string) :=
  let amount := eligible_amount gate in
  let strategy := g_selection gate in
  if strategy =?s "EXPLICIT_LIST" then
    some_approver (filterUsersByAuthority (decodeApproverSeeds (g_approvers gate)) amount)
  else if strategy =?s "ROLE_BASED" then
    some_approver (selectUsersByRoles (decodeApproverSeeds (g_approvers gate)) amount)
  else if strategy =?s "REPORTING_CHAIN" then
    if blank assignedTo then throw ErrNoEligibleApprover
    else some_approver (findInReportingChain (default "" assignedTo) (g_approvers gate) amount)
  else if strategy =?s "DYNAMIC_RULE" then
    if blank (g_dynamic_rule gate) then throw (ErrMsg "dynamic rule expression is required")
    else
      m ← tx_of (decodeCaseMetadata metadata);
      role ← tx_of (resolveDynamicRole m (TrimSpace (default "" (g_dynamic_rule gate))));
      some_approver (selectUsersByRoles [role] amount)
  else throw (ErrMsg ("SelectApprovers: unsupported strategy " +:+ strategy)).
End Selection.

(** ** What is selected *)

Section Spec.
Context `{env : Env}.

(** The manager of a user. *)
Definition manager_of (db : database) (current : string) (mgr : user_row) : Prop :=
  ∃ u managerID, sql_get (by_id u_id current) (users db) = Ok u ∧
    u_manager_id u = Some managerID ∧ TrimSpace managerID ≠ "" ∧
    sql_get (by_id u_id managerID) (users db) = Ok mgr.

(** The first of at most [n] managers up the chain that passes a test. *)
Inductive nearest (db : database) (ok : user_row → bool) : nat → string → user_row → Prop :=
  | nearest_here n current mgr :
      manager_of db current mgr → ok mgr = true → nearest db ok (S n) current mgr
  | nearest_up n current mgr u :
      manager_of db current mgr → ok mgr = false → nearest db ok n (u_id mgr) u →
      nearest db ok (S n) current u.

Definition suitable (db : database) (roles : list string) (amount : option Z) (u : user_row) : bool :=
  active u && (Nat.eqb (length roles) 0 || str_mem (u_role_code u) roles) &&
  has_authority db (u_id u) amount.

(** The user a gate's strategy is about. *)
Inductive chosen (db : database) (gate : gate_row) (assignedTo : option string)
    (metadata : value) (u : user_row) : Prop :=
  | chosen_listed :
      g_selection gate = "EXPLICIT_LIST" → u_id u ∈ decodeApproverSeeds (g_approvers gate) →
      u ∈ users db → suitable db [] (eligible_amount gate) u = true →
      chosen db gate assignedTo metadata u
  | chosen_role :
      g_selection gate = "ROLE_BASED" → decodeApproverSeeds (g_approvers gate) ≠ [] →
      u ∈ users db →
      suitable db (decodeApproverSeeds (g_approvers gate)) (eligible_amount gate) u = true →
      chosen db gate assignedTo metadata u
  | chosen_manager a :
      g_selection gate = "REPORTING_CHAIN" → assignedTo = Some a → TrimSpace a ≠ "" →
      nearest db (suitable db (decodeApproverSeeds (g_approvers gate)) (eligible_amount gate))
        20 a u →
      chosen db gate assignedTo metadata u
  | chosen_rule rule m role :
      g_selection gate = "DYNAMIC_RULE" → g_dynamic_rule gate = Some rule → TrimSpace rule ≠ "" →
      decodeCaseMetadata metadata = Ok m → resolveDynamicRole m (TrimSpace rule) = Ok role →
      u ∈ users db → suitable db [role] (eligible_amount gate) u = true →
      chosen db gate assignedTo metadata u.

Lemma trimmed_seeds_elem x l : ∀ seen,
  x ∈ trimmed_seeds l seen ↔ x ≠ "" ∧ x ∉ seen ∧ ∃ s, s ∈ l ∧ TrimSpace s = x.
Proof.
  induction l as [|s l IH]; intros seen; cbn [trimmed_seeds].
  - split; [by intros ?%elem_of_nil|]. by intros (_ & _ & s & ?%elem_of_nil & _).
  - assert (Hs : (∃ s0, s0 ∈ s :: l ∧ TrimSpace s0 = x) ↔
                 x = TrimSpace s ∨ ∃ s0, s0 ∈ l ∧ TrimSpace s0 = x).
    { setoid_rewrite elem_of_cons. naive_solver. }
    rewrite Hs. destruct (String.eqb_spec (TrimSpace s) "") as [E|E]; cbn [orb].
    + rewrite IH. naive_solver congruence.
    + destruct (str_mem (TrimSpace s) seen) eqn:Es.
      * apply str_mem_elem in Es. rewrite IH. naive_solver congruence.
      * assert (Hn : TrimSpace s ∉ seen) by (rewrite <- str_mem_elem; congruence).
        rewrite elem_of_cons, IH, not_elem_of_cons.
        destruct (decide (x = TrimSpace s)) as [->|Hx]; naive_solver.
Qed.

(** The seeds of a gate are its entries, trimmed; blank ones do not count. *)
Lemma decodeApproverSeeds_elem x l :
  x ∈ decodeApproverSeeds l ↔ x ≠ "" ∧ ∃ s, s ∈ l ∧ TrimSpace s = x.
Proof. unfold decodeApproverSeeds. rewrite trimmed_seeds_elem. pose proof (not_elem_of_nil x). naive_solver. Qed.

Lemma manager_of_det db current m m' :
  manager_of db current m → manager_of db current m' → m = m'.
Proof. intros (u & i & Hu & Hi & _ & Hm) (u' & i' & Hu' & Hi' & _ & Hm'). congruence. Qed.

Lemma nearest_inv db ok n current mgr u :
  nearest db ok n current u → manager_of db current mgr →
  ∃ n', n = S n' ∧ (ok mgr = true ∧ u = mgr ∨ ok mgr = false ∧ nearest db ok n' (u_id mgr) u).
Proof.
  intros [n' c m Hm Hok|n' c m v Hm Hok Hn] Hmgr; pose proof (manager_of_det _ _ _ _ Hm Hmgr) as <-;
    eauto 6.
Qed.

Lemma nearest_det db ok n current u u' :
  nearest db ok n current u → nearest db ok n current u' → u = u'.
Proof.
  induction 1 as [n c m Hm Hok|n c m u Hm Hok _ IH]; intros H;
    destruct (nearest_inv _ _ _ _ _ _ H Hm) as (n' & [= <-] & [[? ->]|[? ?]]); auto; congruence.
Qed.

Lemma nearest_elem db ok n current u : nearest db ok n current u → u ∈ users db.
Proof. induction 1 as [n c m (? & ? & _ & _ & _ & Hg) _|]; [|done]. by apply sql_get_Ok in Hg as []. Qed.

(** The run of a query on the pool, in a hypothesis. *)
Ltac pool_get H r E :=
  rewrite pooled_bind in H;
  match type of H with context [pooled ?drv ?m ?db ?n] =>
    let d := fresh "d" in let k := fresh "k" in
    destruct (pooled drv m db n) as [[r d] k] eqn:E;
    apply pooled_query in E as [-> E]
  end.

Definition chain_outcome (db : database) (ok : user_row → bool) (n : nat) (current : string)
    (r : result (list string)) : Prop :=
  match r with
  | Ok [] => ∀ u, ¬ nearest db ok n current u
  | Ok ids => ∃ u, nearest db ok n current u ∧ ids = [u_id u]
  | Err e => e ≠ ErrNoEligibleApprover
  end.

Lemma chain_outcome_up db ok n current mgr r :
  manager_of db current mgr → ok mgr = false →
  chain_outcome db ok n (u_id mgr) r → chain_outcome db ok (S n) current r.
Proof.
  intros Hm Hok. destruct r as [[|id ids]|e]; cbn; [| |done].
  - intros Hno u H. destruct (nearest_inv _ _ _ _ _ _ H Hm) as (n' & [= <-] & [[? ->]|[? Hn]]);
      [congruence|by eapply Hno].
  - intros (u & Hu & ->). exists u. split; [by eapply nearest_up|done].
Qed.

Lemma chain_outcome_end db ok n current u :
  sql_get (by_id u_id current) (users db) = Ok u → blank (u_manager_id u) = true →
  chain_outcome db ok n current (Ok []).
Proof.
  intros Hu Hb v Hv. assert (∃ m, manager_of db current m) as (m & u' & id & Hu' & Hid & Hne & _)
    by (inversion Hv; eauto).
  assert (u = u') as <- by congruence. rewrite Hid in Hb. cbn in Hb. by apply String.eqb_eq in Hb.
Qed.

Lemma reporting_loop_outcome drv db roles amount n : ∀ current k r db' k',
  pooled drv (reporting_loop n roles amount current) db k = (r, db', k') →
  db' = db ∧ chain_outcome db (suitable db roles amount) n current r.
Proof.
  induction n as [|n IH]; intros current k r db' k' H; cbn [reporting_loop] in H.
  { injection H as <- <- _. split; [done|]. intros u. by inversion 1. }
  pool_get H ru Eu. destruct ru as [u|e]; last first.
  { injection H as <- <- _. split; [done|]. destruct Eu as [Eu|[= ->]]; [|done].
    symmetry in Eu. apply sql_get_Err in Eu as ->. done. }
  destruct Eu as [Eu|?]; [symmetry in Eu|done].
  destruct (u_manager_id u) as [id|] eqn:Eid; last first.
  { injection H as <- <- _. split; [done|]. eapply chain_outcome_end; [done|by rewrite Eid]. }
  destruct (String.eqb_spec (TrimSpace id) "") as [Eb|Eb].
  { injection H as <- <- _. split; [done|]. eapply chain_outcome_end; [done|].
    rewrite Eid. by apply String.eqb_eq. }
  pool_get H rm Em. destruct rm as [mgr|e]; last first.
  { injection H as <- <- _. split; [done|]. destruct Em as [Em|[= ->]]; [|done].
    symmetry in Em. apply sql_get_Err in Em as ->. done. }
  destruct Em as [Em|?]; [symmetry in Em|done].
  assert (Hm : manager_of db current mgr) by (by exists u, id).
  assert (id = u_id mgr) as -> by (apply sql_get_Ok in Em as [_ E]; by apply String.eqb_eq in E).
  assert (Hup : suitable db roles amount mgr = false → ∀ k r db' k',
    pooled drv (reporting_loop n roles amount (u_id mgr)) db k = (r, db', k') →
    db' = db ∧ chain_outcome db (suitable db roles amount) (S n) current r).
  { intros Hs kk rr dd kk' H1. destruct (IH _ _ _ _ _ H1) as [-> Ho].
    split; [done|]. by eapply chain_outcome_up. }
  assert (Hhere : suitable db roles amount mgr = true →
    chain_outcome db (suitable db roles amount) (S n) current (Ok [u_id mgr])).
  { intros Hs. exists mgr. split; [by apply nearest_here|done]. }
  assert (Hs : suitable db roles amount mgr =
    active mgr && (Nat.eqb (length roles) 0 || str_mem (u_role_code mgr) roles) &&
    match amount with Some a => existsb (covers a (u_id mgr)) (authorities db) | None => true end)
    by done.
  rewrite Hs in Hup, Hhere. clear Hs.
  destruct (active mgr), (Nat.eqb (length roles) 0), (str_mem (u_role_code mgr) roles);
    cbn [negb andb orb] in H, Hup, Hhere; try (by eapply Hup);
    destruct amount as [a|]; try (injection H as <- <- _; split; [done|by apply Hhere]).
  all: pool_get H rc Ec; destruct rc as [c|e];
    [destruct Ec as [[= ->]|?]; [|done]; rewrite sql_count_existsb in H;
     destruct (existsb (covers a (u_id mgr)) (authorities db)); cbn [negb] in H;
       [injection H as <- <- _; split; [done|by apply Hhere]|by eapply Hup]
    |injection H as <- <- _; split; [done|]; by destruct Ec as [?|[= ->]]].
Qed.
Lemma users_with_elem p amount db id :
  id ∈ users_with p amount db ↔
    ∃ u, u ∈ users db ∧ u_id u = id ∧ active u && p u && has_authority db (u_id u) amount = true.
Proof.
  unfold users_with. rewrite list_elem_of_fmap. setoid_rewrite sql_select_elem. naive_solver.
Qed.

(** What a lookup answers about the users it is after: [exact] allows an empty answer,
    [outcome] is that of a selection. *)
Definition exact (db : database) (P : user_row → Prop) (r : result (list string)) : Prop :=
  match r with
  | Ok ids => ∀ id, id ∈ ids ↔ ∃ u, u ∈ users db ∧ u_id u = id ∧ P u
  | Err e => e ≠ ErrNoEligibleApprover
  end.
Definition outcome (db : database) (P : user_row → Prop) (r : result (list string)) : Prop :=
  match r with
  | Ok ids => ids ≠ [] ∧ ∀ id, id ∈ ids ↔ ∃ u, u ∈ users db ∧ u_id u = id ∧ P u
  | Err ErrNoEligibleApprover => ∀ u, u ∈ users db → ¬ P u
  | Err _ => True
  end.

Lemma some_approver_outcome drv (m : Tx database (list string)) db P :
  (∀ k r db' k', pooled drv m db k = (r, db', k') → db' = db ∧ exact db P r) →
  ∀ k r db' k', pooled drv (some_approver m) db k = (r, db', k') → db' = db ∧ outcome db P r.
Proof.
  intros Hm k r db' k' H. unfold some_approver in H. rewrite pooled_bind in H.
  destruct (pooled drv m db k) as [[[ids|e] d] k1] eqn:E; apply Hm in E as [-> Hx].
  - destruct ids as [|id ids]; injection H as <- <- _; (split; [done|]); cbn in *.
    + intros u Hu HP. apply (not_elem_of_nil (u_id u)), Hx. eauto.
    + done.
  - injection H as <- <- _. split; [done|]. by destruct e.
Qed.

Lemma role_query_exact drv roles amount db k r db' k' :
  pooled drv (selectUsersByRoles roles amount) db k = (r, db', k') →
  db' = db ∧ exact db (λ u, roles ≠ [] ∧ suitable db roles amount u = true) r.
Proof.
  unfold selectUsersByRoles. destruct roles as [|role roles].
  - intros [= <- <- _]. split; [done|]. intros id. split; [by intros ?%elem_of_nil|].
    by intros (u & _ & _ & Hn & _).
  - intros H. apply pooled_query in H as [-> [-> | ->]]; (split; [done|]); [|done]. intros id.
    rewrite users_with_elem. unfold suitable. naive_solver.
Qed.

Lemma list_query_exact drv userIDs amount db k r db' k' :
  pooled drv (filterUsersByAuthority userIDs amount) db k = (r, db', k') →
  db' = db ∧ exact db (λ u, u_id u ∈ userIDs ∧ suitable db [] amount u = true) r.
Proof.
  unfold filterUsersByAuthority. destruct userIDs as [|i userIDs].
  - intros [= <- <- _]. split; [done|]. intros id. split; [by intros ?%elem_of_nil|].
    by intros (u & _ & _ & ?%elem_of_nil & _).
  - intros H. apply pooled_query in H as [-> [-> | ->]]; (split; [done|]); [|done]. intros id.
    rewrite users_with_elem. apply exist_proper. intros u. rewrite <- str_mem_elem.
    unfold suitable. destruct (active u), (str_mem (u_id u) _); cbn; naive_solver.
Qed.

Lemma chain_exact drv start seeds amount db k r db' k' :
  pooled drv (findInReportingChain start seeds amount) db k = (r, db', k') →
  db' = db ∧ exact db (nearest db (suitable db (decodeApproverSeeds seeds) amount) 20 start) r.
Proof.
  unfold findInReportingChain. generalize 20%nat. intros n [-> Ho]%reporting_loop_outcome.
  split; [done|]. destruct r as [[|i ids]|e]; [| |done].
  - intros id. split; [by intros ?%elem_of_nil|]. intros (u & _ & _ & Hu). by apply Ho in Hu.
  - destruct Ho as (u & Hu & E). rewrite E. intros id. rewrite list_elem_of_singleton. split.
    + intros ->. exists u. eauto using nearest_elem.
    + intros (v & _ & <- & Hv). f_equal. by eapply nearest_det.
Qed.

Lemma outcome_iff db P Q r : (∀ u, u ∈ users db → P u ↔ Q u) → outcome db P r → outcome db Q r.
Proof.
  intros HPQ. destruct r as [ids|e]; cbn.
  - intros [Hne Hx]. split; [done|]. intros id. rewrite Hx. naive_solver.
  - destruct e; try done. intros Hno u Hu. by rewrite <- HPQ; auto.
Qed.

Lemma blank_false s : blank s = false → ∃ t, s = Some t ∧ TrimSpace t ≠ "".
Proof. destruct s as [t|]; [|done]. cbn. intros E%String.eqb_neq. by exists t. Qed.

Lemma blank_true t : TrimSpace t ≠ "" → blank (Some t) = false.
Proof. intros H. by apply String.eqb_neq. Qed.

Lemma selection_outcome drv gate assignedTo metadata db n r1 d1 n1 :
  pooled drv (SelectApprovers gate assignedTo metadata) db n = (r1, d1, n1) →
  d1 = db ∧ outcome db (chosen db gate assignedTo metadata) r1.
Proof.
  unfold SelectApprovers.
  destruct (String.eqb_spec (g_selection gate) "EXPLICIT_LIST") as [E1|E1].
  { intros [-> Ho]%(some_approver_outcome _ _ _ _ (list_query_exact _ _ _ _)). split; [done|].
    eapply outcome_iff, Ho. intros u Hu. split; [intros []; by eapply chosen_listed|].
    inversion 1; auto; congruence. }
  destruct (String.eqb_spec (g_selection gate) "ROLE_BASED") as [E2|E2].
  { intros [-> Ho]%(some_approver_outcome _ _ _ _ (role_query_exact _ _ _ _)). split; [done|].
    eapply outcome_iff, Ho. intros u Hu. split; [intros []; by eapply chosen_role|].
    inversion 1; auto; congruence. }
  destruct (String.eqb_spec (g_selection gate) "REPORTING_CHAIN") as [E3|E3].
  { destruct (blank assignedTo) eqn:Eb.
    - intros [= <- <- _]. split; [done|]. intros u Hu. inversion 1; try congruence.
      subst. by rewrite blank_true in Eb.
    - apply blank_false in Eb as (a & -> & Ha).
      intros [-> Ho]%(some_approver_outcome _ _ _ _ (chain_exact _ _ _ _ _)). split; [done|].
      eapply outcome_iff, Ho. intros u Hu. split; [intros; by eapply chosen_manager|].
      inversion 1 as [| |a' ? Ea|]; [congruence..| |congruence]. by injection Ea as <-. }
  destruct (String.eqb_spec (g_selection gate) "DYNAMIC_RULE") as [E4|E4].
  2:{ by intros [= <- <- _]. }
  destruct (blank (g_dynamic_rule gate)) eqn:Eb; [by intros [= <- <- _]|].
  apply blank_false in Eb as (rule & Er & Hne). rewrite Er. cbn [default].
  assert (Hnone : ∀ e, (∀ m role, decodeCaseMetadata metadata = Ok m →
      resolveDynamicRole m (TrimSpace rule) ≠ Ok role) →
    outcome db (chosen db gate assignedTo metadata) (Err e)).
  { intros e Hno. assert (∀ u, u ∈ users db → ¬ chosen db gate assignedTo metadata u).
    { intros u _. inversion 1; simplify_eq; by eapply Hno. }
    by destruct e. }
  destruct (decodeCaseMetadata metadata) as [m|e] eqn:Em; last first.
  { intros [= <- <- _]. split; [done|]. by apply Hnone. }
  change (pooled drv (r ← tx_of (resolveDynamicRole m (TrimSpace rule));
    some_approver (selectUsersByRoles [r] (eligible_amount gate))) db n = (r1, d1, n1) →
    d1 = db ∧ outcome db (chosen db gate assignedTo metadata) r1).
  destruct (resolveDynamicRole m (TrimSpace rule)) as [role|e] eqn:Erole; last first.
  { intros [= <- <- _]. split; [done|]. apply Hnone. congruence. }
  intros [-> Ho]%(some_approver_outcome _ _ _ _ (role_query_exact _ _ _ _)). split; [done|].
  eapply outcome_iff, Ho. intros u Hu. split; [intros []; by eapply chosen_rule|].
  inversion 1 as [| | |rule' m' role' ? ? ? Hm Hr]; [congruence..|].
  assert (rule' = rule) as -> by congruence. assert (m' = m) as -> by congruence.
  by assert (role' = role) as -> by congruence.
Qed.

(** C26. Whatever fails on the way, [SelectApprovers] writes nothing; when it answers, it
    answers exactly the users the gate's strategy is about (the active users of the list
    or of the roles, the nearest suitable manager within twenty steps, the users of the
    role the rule computes) whose authority, unexpired and not revoked, covers the
    amount; and [ErrNoEligibleApprover] means that there is none. *)
Theorem SelectApprovers_spec drv gate assignedTo metadata db r db' :
  on_pool drv (SelectApprovers gate assignedTo metadata) db = (r, db') →
  db' = db ∧ outcome db (chosen db gate assignedTo metadata) r.
Proof.
  unfold on_pool. destruct (pooled drv _ db 0) as [[r1 d1] n1] eqn:H. intros [= <- <-].
  by eapply selection_outcome.
Qed.
End Spec.

(** ** The text of a dynamic rule *)

Lemma string_chars_app s t : string_chars (s +:+ t) = string_chars s ++ string_chars t.
Proof. induction s as [|c s IH]; [done|]. rewrite string_app_cons. cbn. by rewrite IH. Qed.
Lemma chars_string_chars s : chars_string (string_chars s) = s.
Proof. induction s as [|c s IH]; cbn; congruence. Qed.

Lemma span_stop p l c r :
  forallb p l = true → p c = false → span p (l ++ c :: r) = (l, c :: r).
Proof.
  intros Hl Hc. induction l as [|x l IH]; cbn in *; [by rewrite Hc|].
  apply andb_prop in Hl as [-> Hl]. by rewrite IH.
Qed.
Lemma span1_stop p l c r :
  l ≠ [] → forallb p l = true → p c = false → span1 p (l ++ c :: r) = Some (l, c :: r).
Proof. intros. unfold span1. rewrite span_stop by done. by destruct l. Qed.

Lemma forallb_chars p s : forallb p (string_chars s) = all_chars p s.
Proof. induction s as [|c s IH]; cbn; congruence. Qed.
Lemma forallb_rev {A} (p : A → bool) l : forallb p (rev l) = forallb p l.
Proof.
  induction l as [|x l IH]; [done|]. cbn. rewrite forallb_app, IH. cbn.
  by destruct (p x), (forallb p l).
Qed.

Lemma nonspace_re c : is_space c = false → re_space c = false.
Proof.
  intros H. assert (Hb : implb (re_space c) (is_space c) = true) by (clear H; revert c; by_bytes).
  rewrite H in Hb. by destruct (re_space c).
Qed.
Lemma word_nonspace c : word_char c = true → negb (is_space c) = true.
Proof. apply implb_true_iff. revert c. by_bytes. Qed.

Lemma tight_first c : tight c → ∃ x l, string_chars c = x :: l ∧ re_space x = false.
Proof.
  intros (Hl & _ & Hn). destruct c as [|x c]; [done|]. exists x, (string_chars c).
  split; [done|]. apply nonspace_re. destruct (is_space x) eqn:E; [|done].
  exfalso.
  assert (Hlen : ∀ t, (String.length (trim_left t) ≤ String.length t)%nat).
  { induction t as [|d t IH]; cbn; [lia|]. destruct (is_space d); cbn; lia. }
  cbn in Hl. rewrite E in Hl. specialize (Hlen c). rewrite Hl in Hlen. cbn in Hlen. lia.
Qed.

Lemma tight_last c : tight c → ∃ x l, string_chars c = l ++ [x] ∧ re_space x = false.
Proof.
  intros (_ & Hr & Hn). induction c as [|y c IH]; [done|]. cbn in Hr.
  destruct (trim_right c) as [|z t] eqn:E.
  - destruct (is_space y) eqn:Ey; [done|]. injection Hr as <-. exists y, [].
    split; [done|]. by apply nonspace_re.
  - injection Hr as Hr. destruct IH as (x & l & El & Hx); [congruence|by rewrite <- Hr|].
    exists x, (y :: l). cbn. by rewrite El.
Qed.

(** The condition between one blank on each side. *)
Lemma rule_condition_text c :
  tight c → all_chars (λ x, negb (newline x)) c = true →
  rule_condition (" "%char :: string_chars c ++ [" "%char]) = Some (string_chars c).
Proof.
  intros Ht Hnl. destruct (tight_first c Ht) as (x & l & Ec & Hx).
  destruct (tight_last c Ht) as (y & l' & Ec' & Hy).
  assert (Hs : span re_space (" "%char :: string_chars c ++ [" "%char]) =
    ([" "%char], string_chars c ++ [" "%char])).
  { rewrite Ec. by apply (span_stop re_space [" "%char] x (l ++ [" "%char])). }
  assert (Hr : ∀ m, span re_space (" "%char :: rev (string_chars c) ++ m) =
    ([" "%char], rev (string_chars c) ++ m)).
  { intros m. rewrite Ec', rev_app_distr. by apply (span_stop re_space [" "%char] y (rev l' ++ m)). }
  assert (Hr2 : (span re_space (rev (string_chars c ++ [" "%char]))).2 = rev (string_chars c)).
  { rewrite rev_app_distr. cbn [rev app]. specialize (Hr []). rewrite app_nil_r in Hr. by rewrite Hr. }
  assert (Hr1 : span re_space (rev (" "%char :: string_chars c ++ [" "%char])) =
    ([" "%char], rev (string_chars c) ++ [" "%char])).
  { cbn [rev]. rewrite rev_app_distr. apply Hr. }
  unfold rule_condition. rewrite Hs, Hr1, Hr2, rev_involutive.
  assert (existsb newline (string_chars c) = false) as ->.
  { rewrite <- forallb_chars in Hnl. apply not_true_iff_false. intros (b & Hb & Hbn)%existsb_exists.
    rewrite forallb_forall in Hnl. specialize (Hnl b Hb). by rewrite Hbn in Hnl. }
  by rewrite Ec.
Qed.

Definition rule_text (cond trueRole falseRole : string) : string :=
  "if " +:+ cond +:+ " then " +:+ trueRole +:+ " else " +:+ falseRole.

Lemma word_chars_ne w : w ≠ "" → rev (string_chars w) ≠ [].
Proof. destruct w; [done|]. intros _ H. by apply app_eq_nil in H as []. Qed.

Lemma dynamicRulePattern_text c a b :
  tight c → all_chars (λ x, negb (newline x)) c = true →
  a ≠ "" → all_chars word_char a = true → b ≠ "" → all_chars word_char b = true →
  dynamicRulePattern (rule_text c a b) = Some (c, a, b).
Proof.
  intros Hc Hnl Ha Haw Hb Hbw. unfold dynamicRulePattern, rule_text.
  rewrite !string_chars_app, !rev_app_distr.
  rewrite <- forallb_chars, <- forallb_rev in Haw, Hbw.
  pose proof (word_chars_ne a Ha) as Ha'. pose proof (word_chars_ne b Hb) as Hb'.
  assert (Hsp : ∀ w m, w ≠ [] → forallb word_char w = true → span re_space (w ++ m) = ([], w ++ m)).
  { intros [|x w] m Hw Hx; [done|]. cbn in *. apply andb_prop in Hx as [Hx%word_nonspace _].
    apply negb_true_iff in Hx. by rewrite nonspace_re. }
  change (rev (string_chars " else ")) with (" "::"e"::"s"::"l"::"e"::[" "])%char.
  change (rev (string_chars " then ")) with (" "::"n"::"e"::"h"::"t"::[" "])%char.
  change (rev (string_chars "if ")) with [" "; "f"; "i"]%char.
  rewrite <- !app_assoc. cbn [app].
  assert (Hblank : ∀ m, span re_space m = ([], m) →
    span1 re_space (" "%char :: m) = Some ([" "%char], m)).
  { intros m Hm. unfold span1. cbn. by rewrite Hm. }
  rewrite Hsp by done. cbn [snd]. rewrite span1_stop by done. cbn [mbind option_bind].
  assert (Helse : ∀ m, strip_fold ["e"; "s"; "l"; "e"]%char
    ("e" :: "s" :: "l" :: "e" :: m)%char = Some m) by done.
  assert (Hthen : ∀ m, strip_fold ["n"; "e"; "h"; "t"]%char
    ("n" :: "e" :: "h" :: "t" :: m)%char = Some m) by done.
  rewrite Hblank by done. cbn [mbind option_bind]. rewrite Helse. cbn [mbind option_bind].
  rewrite Hblank by by apply Hsp. cbn [mbind option_bind].
  rewrite span1_stop by done. cbn [mbind option_bind].
  rewrite Hblank by done. cbn [mbind option_bind]. rewrite Hthen. cbn [mbind option_bind].
  change (" "%char :: rev (string_chars c) ++ [" "%char; "f"; "i"]%char)
    with ([" "%char] ++ rev (string_chars c) ++ [" "; "f"; "i"]%char).
  rewrite !rev_app_distr, !rev_involutive.
  change (strip_fold ["i"; "f"]%char _)
    with (Some (" "%char :: string_chars c ++ [" "%char])).
  cbn [mbind option_bind]. rewrite rule_condition_text by done. cbn [mbind option_bind].
  by rewrite !chars_string_chars.
Qed.

Section Rules.
Context `{env : Env}.

(** A rule [if C then A else B] of words [A], [B] chooses between the two by the value of
    [C], with the thousands suffixes of [C] written out; an error of [C] is its error. *)
Theorem resolveDynamicRole_text metadata c a b :
  tight c → all_chars (λ x, negb (newline x)) c = true →
  a ≠ "" → all_chars word_char a = true → b ≠ "" → all_chars word_char b = true →
  resolveDynamicRole metadata (rule_text c a b) =
    (λ ok : bool, if ok then a else b) <$> Evaluate env_sprint metadata (replace_thousands c).
Proof.
  intros Hc Hnl Ha Haw Hb Hbw. unfold resolveDynamicRole. rewrite dynamicRulePattern_text by done.
  assert (Ht : ∀ w, w ≠ "" → all_chars word_char w = true → TrimSpace w = w).
  { intros w Hw Hww. apply tight_TrimSpace, tight_chars; [|done].
    by eapply all_chars_impl, Hww; apply word_nonspace. }
  by rewrite (tight_TrimSpace c), (Ht a), (Ht b).
Qed.
End Rules.

(** ** Examples *)

Example pattern_1 :
  dynamicRulePattern "IF amount > 750k && (risk == 'HIGH')  then DIRECTOR else MANAGER"
  = Some ("amount > 750k && (risk == 'HIGH')", "DIRECTOR", "MANAGER").
Proof. vm_compute. reflexivity. Qed.
Example pattern_2 :
  dynamicRulePattern "if then then A else B" = Some ("then", "A", "B") ∧
  dynamicRulePattern "if  then A else B" = None ∧ dynamicRulePattern "if x then A-1 else B" = None.
Proof. vm_compute. done. Qed.
Example thousands_1 :
  replace_thousands "amount > 750k && x < 1.0015K && y1k == 2k3" =
  "amount > 750000 && x < 1002 && y1k == 2k3".
Proof. vm_compute. reflexivity. Qed.

(** A number followed by the letter is taken for thousands in a string, too: a rule on the
    account type 401k compares with another text. *)
Example string_rewritten :
  resolveDynamicRole (env := sample_env []) [("account_type", VString "401k")]
    "if account_type == '401k' then DIRECTOR else MANAGER" = Ok "MANAGER".
Proof. vm_compute. reflexivity. Qed.

(** ** Witnesses *)

Definition selection_user (id role : string) (manager : option string) : user_row :=
  blank_user id <| u_role_code := role |> <| u_manager_id := manager |>.
Definition selection_db : database :=
  empty_db <| users := [selection_user "clerk" "CLERK" (Some "boss");
                        selection_user "boss" "MANAGER" (Some "head");
                        selection_user "head" "MANAGER" None] |>
           <| authorities := [{| ua_user_id := "boss"; ua_max_amount := 100000;
                                 ua_expires_at := None; ua_revoked_at := None |};
                              {| ua_user_id := "head"; ua_max_amount := 900000;
                                 ua_expires_at := None; ua_revoked_at := None |}] |>.
Definition selection_gate (strategy : string) (approvers : list string) : gate_row :=
  {| g_id := "gate"; g_task_id := "task"; g_case_id := "case"; g_policy := "SINGLE_APPROVER";
     g_required := 1; g_selection := strategy; g_approvers := approvers; g_timeout_hours := 2400;
     g_on_timeout_action := "ESCALATE"; g_rejection_behavior := "TERMINAL_FAIL";
     g_rework_target := None; g_fallback_role := None; g_dynamic_rule := None;
     g_authority_limit := None; g_amount := Some 500000; g_chain := []; g_status := "PENDING";
     g_opened_at := None; g_closed_at := None; g_version := 1 |}.

(** The manager's authority ends below the amount: the next one is asked. *)
Lemma SelectApprovers_spec_witness :
  outcome selection_db
    (chosen (env := sample_env []) selection_db (selection_gate "REPORTING_CHAIN" [" MANAGER "])
       (Some "clerk") VNil) (Ok ["head"%string]).
Proof.
  apply (SelectApprovers_spec (env := sample_env []) (reliable true)
    (selection_gate "REPORTING_CHAIN" [" MANAGER "%string]) (Some "clerk"%string) VNil selection_db
    (Ok ["head"%string]) selection_db).
  vm_compute. reflexivity.
Defined.

Lemma resolveDynamicRole_text_witness :
  resolveDynamicRole (env := sample_env []) [("amount", VInt 750000)]
    (rule_text "amount > 500k" "DIRECTOR" "MANAGER") = Ok "DIRECTOR".
Proof.
  rewrite (resolveDynamicRole_text (env := sample_env [])); try (vm_compute; done).
Defined.
