(* ===== verification/TaskStatus.v ===== *)
(** * The status of a task (internal/repository/task_repo.go)

    [UpdateTaskStatus] moves a task on: terminal tasks stay, a task that requires
    approval is completed only when its gate is satisfied, starting such a task asks
    its approvers ([activateApprovalGate]), output is validated, and waiting and
    resuming are noted for the SLA clock.  Its callers pass the pool, so each statement
    commits by itself and what was done before an error stays. *)

From Stdlib Require Import Ascii String ZArith Lia SpecFloat.
From stdpp Require Import base list strings.
From S2P Require Import Prelude Float64 ApprovalExpr RetryPolicy CaseConfig SqlTx Schema Outbox.
From S2P Require Import ApprovalService ApprovalSweep CaseLifecycle Orchestrator.
From S2P Require Import JsonPath TaskInputs TaskCreation ApproverSelection.

Open Scope Z_scope.
Open Scope go_scope.

Section TaskStatus.
Context `{env : Env} `{clock : BusinessClock} `{libs : TaskLibraries} (repo : repo_kind).

(** [TaskStatus.IsTerminal] *)
Definition terminal (status : string) : bool :=
  str_mem status ["COMPLETED"; "FAILED"; "CANCELLED"; "SKIPPED"].

(** ** The configuration of the case *)

(** [versioning.ResolveCaseTypeConfig]: the pinned version, or the case type. *)
Definition ResolveCaseTypeConfig (caseID : string) : Tx database CaseTypeConfig :=
  let caseID := TrimSpace caseID in
  if caseID =?s "" then throw (ErrMsg "caseID is required")
  else
    r ← tx_attempt (query (λ db,
      c ← sql_get (by_id c_id caseID) (cases db);
      ct ← sql_get (by_id ct_id (default (c_case_type_id c) (c_case_type_version_id c)))
             (case_types db);
      Ok (ct_config ct)));
    match r with
    | Ok config => mret config
    | Err ErrNoRows => throw (ErrMsg ("case " +:+ caseID +:+ " not found"))
    | Err e => throw e
    end.

Definition findTaskDefinitionByCode (config : CaseTypeConfig) (code : string)
    : option TaskDefinitionV2 :=
  head (List.filter (λ td, TrimSpace (task_code td) =?s TrimSpace code)
    (stage ← cfg_stages config; activity ← sd_activities stage; ad_tasks activity)).

(** [json.Unmarshal] into a [map[string]interface{}]. *)
Definition as_object (v : value) : result (option object) :=
  match v with
  | VMap m => Ok (Some m)
  | VNil => Ok None
  | _ => Err (ErrMsg "cannot unmarshal into map")
  end.

Definition ValidateTaskOutput (taskDef : TaskDefinitionV2) (payload : option object)
    : result unit :=
  match td_output_schema taskDef with
  | [] => Ok tt
  | schema => schema_ok schema payload
  end.

(** The output of a task that is to be completed, the stored one without a new one. *)
Definition validate_output (t : task_row) (outputPayload : option value) : Tx database unit :=
  config ← ResolveCaseTypeConfig (t_case_id t);
  match findTaskDefinitionByCode config (t_task_definition_code t) with
  | None => mret tt
  | Some taskDef =>
      source ← match outputPayload with
        | Some v => mret v
        | None => t' ← get_in tasks (by_id t_id (t_id t)); mret (t_output_payload t')
        end;
      payload ← tx_of (as_object source);
      tx_of (ValidateTaskOutput taskDef payload)
  end.

(** ** Approval *)

Definition ensureApprovalGateSatisfied (gateID : string) : Tx database unit :=
  gate ← get_in gates (by_id g_id gateID);
  if g_status gate =?s "SATISFIED" then mret tt
  else throw (ErrMsg ("approval gate is " +:+ g_status gate)).

Definition gate_pending (gateID : string) (r : request_row) : bool :=
  (r_gate_id r =?s gateID) && (r_status r =?s "PENDING").

Definition mark_gate_active (gateID : string) : Tx database unit :=
  _ ← update_gates (by_id g_id gateID)
    (λ g, g <| g_status := "ACTIVE" |> <| g_opened_at ::= λ t, Some (default env_now t) |>
            <| g_version ::= Z.succ |>);
  mret tt.

(** The oldest active user of the fallback role, where the gate names one. *)
Definition fallback_approver (gate : gate_row) : Tx database (option string) :=
  if blank (g_fallback_role gate) then mret None
  else
    r ← tx_attempt (query (λ db,
          oldest_active (TrimSpace (default "" (g_fallback_role gate))) (users db)));
    mret (match r with
          | Ok u => if u_id u =?s "" then None else Some (u_id u)
          | Err _ => None
          end).

Definition no_eligible_event (taskID caseID gateID : string) : event_row :=
  new_event "NO_ELIGIBLE_APPROVER" (Some caseID) (Some taskID)
    [("gate_id", VString gateID); ("case_id", VString caseID); ("task_id", VString taskID);
     ("event_reason", VString "no_eligible_approver")].

(** The approvers of the gate, or its fallback; that there is none is announced. *)
Definition approvers_of (taskID caseID : string) (gate : gate_row) (c : case_row)
    : Tx database (list string) :=
  r ← tx_attempt (SelectApprovers gate (c_assigned_to c) (c_metadata c));
  match r with
  | Ok ids => mret ids
  | Err ErrNoEligibleApprover =>
      fallback ← fallback_approver gate;
      match fallback with
      | Some u => mret [u]
      | None =>
          _ ← tx_attempt (PublishEvent (no_eligible_event taskID caseID (g_id gate)));
          throw ErrNoEligibleApprover
      end
  | Err e => throw e
  end.

Definition approval_expiry (gate : gate_row) (calendarID : option string) : Z :=
  let hours := if g_timeout_hours gate <=? 0 then 2400 else g_timeout_hours gate in
  let d := hours_duration hours in
  let d := if d <=? 0 then 24 * Hour else d in
  let expiresAt := env_clock + d in
  if blank calendarID then expiresAt
  else match bc_add (default "" calendarID) env_clock d with
       | Ok dueAt => dueAt
       | Err _ => expiresAt
       end.

(** An insert that takes a unique violation for done: [None].  On the pool a refused
    insert undoes nothing but itself. *)
Definition insert_request_once (mk : string → request_row) : Tx database (option string) :=
  stmt (λ db,
    let id := env_uuid (uuid_pos db) in
    if negb (request_check (mk id)) then Err ErrSQL
    else if existsb (request_conflict (mk id)) (requests db) then Ok (None, db)
    else Ok (Some id, db <| requests := requests db ++ [mk id] |> <| uuid_pos ::= S |>)).

Definition requested_event (taskID caseID gateID requestID approverID : string) (expiresAt : Z)
    : event_row :=
  new_event "APPROVAL_REQUESTED" (Some caseID) (Some taskID)
    [("gate_id", VString gateID); ("request_id", VString requestID); ("case_id", VString caseID);
     ("task_id", VString taskID); ("approver_id", VString approverID);
     ("request_status", VString "PENDING"); ("event_reason", VString "approval_requested");
     ("approval_expires", VOther expiresAt)].

Definition request_approval (taskID caseID gateID : string) (tier : option Z) (expiresAt : Z)
    (approverID : string) : Tx database unit :=
  id ← insert_request_once (pending_request gateID approverID tier expiresAt []);
  let requestID := default "" id in
  _ ← when (negb (TrimSpace requestID =?s ""))
    (_ ← tx_attempt (insertApprovalAuditLog
       {| al_request_id := requestID; al_event_type := "REQUESTED"; al_actor_id := "SYSTEM";
          al_decision_text := None; al_previous_state := "PENDING"; al_new_state := "PENDING" |});
     mret tt);
  PublishEvent (requested_event taskID caseID gateID requestID approverID expiresAt).

Definition await_approval (t : task_row) : task_row :=
  t <| t_status ::= λ s, if s =?s "IN_PROGRESS" then "AWAITING_EXTERNAL" else s |>
    <| t_version ::= Z.succ |>.

Definition request_approvals (taskID caseID : string) (gate : gate_row) : Tx database unit :=
  c ← get_in cases (by_id c_id caseID);
  if negb (repo_has_sqlx repo) then throw (ErrMsg "sqlx is not configured")
  else
    ids ← approvers_of taskID caseID gate c;
    match ids with
    | [] => throw ErrNoEligibleApprover
    | _ =>
        _ ← tx_each (request_approval taskID caseID (g_id gate)
                       (tier_no <$> head (g_chain gate))
                       (approval_expiry gate (c_sla_calendar_id c))) ids;
        _ ← mark_gate_active (g_id gate);
        _ ← update_tasks (by_id t_id taskID) await_approval;
        mret tt
    end.

Definition activateApprovalGate (taskID caseID gateID : string) : Tx database unit :=
  gate ← get_in gates (by_id g_id gateID);
  if g_status gate =?s "SATISFIED" then mret tt
  else if str_mem (g_status gate) ["FAILED"; "REJECTED"; "REJECTED_REWORK_INITIATED"; "EXPIRED"]
  then throw (ErrMsg "gate is terminal")
  else
    pending ← query (λ db, Ok (sql_count (gate_pending gateID) (requests db)));
    if 0 <? pending then mark_gate_active gateID
    else request_approvals taskID caseID gate.

(** ** The SLA clock of a task that waits *)

Definition resume_wait (t : task_row) : Tx database unit :=
  r ← tx_attempt (query (λ db,
    match latest_pause "TASK" (t_id t) db with
    | Some p => Ok (pl_paused_at p, pl_elapsed_ms p)
    | None => Err ErrNoRows
    end));
  let '(pausedAt, elapsed) := match r with Ok p => p | Err _ => (env_clock, 0) end in
  _ ← resume_task_clock repo t elapsed;
  _ ← log_pause "TASK" (t_id t) pausedAt (Some env_clock) "IN_PROGRESS" 0 "RESUME";
  publish_sla "SLA_RESUMED" (t_case_id t) "IN_PROGRESS" (Some (t_id t)).

Definition pause_wait (t : task_row) : Tx database unit :=
  elapsed ← tx_of (elapsed_ms repo (t_sla_calendar_id t)
                     (default (t_created_at t) (t_effective_start_time t)) env_clock);
  _ ← log_pause "TASK" (t_id t) env_clock None "AWAITING_EXTERNAL" elapsed "PAUSE";
  publish_sla "SLA_PAUSED" (t_case_id t) "AWAITING_EXTERNAL" (Some (t_id t)).

(** ** The update *)

Definition has_gate (t : task_row) : option string :=
  match t_approval_gate_id t with
  | Some g => if TrimSpace g =?s "" then None else Some g
  | None => None
  end.

Definition advanced (newStatus : string) (output errorDetail : option value) (t : task_row)
    : task_row :=
  t <| t_status := newStatus |>
    <| t_output_payload ::= λ v, default v output |>
    <| t_error_detail ::= λ v, some_or errorDetail v |>
    <| t_started_at ::= λ v, if newStatus =?s "IN_PROGRESS" then Some env_clock else v |>
    <| t_completed_at ::= λ v, if terminal newStatus then Some env_clock else v |>
    <| t_version ::= Z.succ |>.

(** The announcement of a task that is done or has failed. *)
Definition outcome_event (t : task_row) (newStatus : string) : event_row :=
  let failed := newStatus =?s "FAILED" in
  to_service "case-orchestrator"
    (new_event (if failed then "TASK_FAILED" else "TASK_COMPLETED")
       (Some (t_case_id t)) (Some (t_id t))
       ([("case_id", VString (t_case_id t)); ("task_id", VString (t_id t));
         ("task_definition_code", VString (t_task_definition_code t));
         ("stage_code", VString (t_stage_code t)); ("activity_code", VString (t_activity_code t));
         ("status", VString newStatus)] ++
        (if failed then
           [("retries_exhausted"%string, VBool (t_max_retries t <=? t_retry_count t));
            ("retry_count"%string, VInt (t_retry_count t));
            ("max_retries"%string, VInt (t_max_retries t))]
         else []))).

Definition completing_guard (t : task_row) (outputPayload : option value) : Tx database unit :=
  _ ← when (t_requires_approval t)
    (match has_gate t with
     | None => throw (ErrMsg "task requires approval but has no approval_gate_id")
     | Some g => ensureApprovalGateSatisfied g
     end);
  when (repo_has_sqlx repo) (validate_output t outputPayload).

(** What follows the update: approval, the SLA clock, the announcement. *)
Definition follow_up (newStatus : string) (t : task_row) : Tx database unit :=
  let starting := newStatus =?s "IN_PROGRESS" in
  let waiting := t_status t =?s "AWAITING_EXTERNAL" in
  _ ← when (starting && t_requires_approval t)
    (match has_gate t with
     | None => throw (ErrMsg "task requires approval but has no approval gate")
     | Some g => activateApprovalGate (t_id t) (t_case_id t) g
     end);
  _ ← when (waiting && starting) (resume_wait t);
  _ ← when (negb waiting && (newStatus =?s "AWAITING_EXTERNAL")) (pause_wait t);
  when (str_mem newStatus ["COMPLETED"; "FAILED"]) (PublishEvent (outcome_event t newStatus)).

(** The row read before the update is the one the identifier names. *)
Definition UpdateTaskStatus (taskID newStatus : string) (outputPayload errorDetail : option value)
    : Tx database unit :=
  t ← get_in tasks (by_id t_id taskID);
  if terminal (t_status t) then throw (ErrMsg "task is in terminal status")
  else
    _ ← when (newStatus =?s "COMPLETED") (completing_guard t outputPayload);
    n ← update_tasks (λ t', (t_id t' =?s taskID) && (t_version t' =? t_version t))
          (advanced newStatus outputPayload errorDetail);
    if n =? 0 then throw (ErrMsg "optimistic lock failure on task") else follow_up newStatus t.
End TaskStatus.

(** ** What the statements do to tasks *)

Section Kept.
Context `{env : Env} `{clock : BusinessClock} `{libs : TaskLibraries} (repo : repo_kind) (id : string).

(** Beyond the update itself a task can only be sent to wait. *)
Definition row_waits (t t' : task_row) : Prop :=
  t_id t' = t_id t ∧ t_requires_approval t' = t_requires_approval t ∧
  t_approval_gate_id t' = t_approval_gate_id t ∧
  (t_status t' = t_status t ∨
   t_id t = id ∧ t_status t = "IN_PROGRESS" ∧ t_status t' = "AWAITING_EXTERNAL").
Definition tasks_wait (db db' : database) : Prop := Forall2 row_waits (tasks db) (tasks db').

#[export] Instance row_waits_preorder : PreOrder row_waits.
Proof.
  split; [intros t; unfold row_waits; auto|].
  intros a b c (I & R & G & S) (I' & R' & G' & S'). split_and!; [congruence..|].
  destruct S as [S|(? & S & S0)], S' as [S'|(? & S' & S0')]; rewrite ?S, ?S0 in *; auto.
  right. split_and!; [congruence|done..].
Qed.
#[export] Instance tasks_wait_preorder : PreOrder tasks_wait.
Proof.
  split; [intros db; unfold tasks_wait; reflexivity|].
  intros a b c. unfold tasks_wait. apply transitivity.
Qed.

Lemma tasks_wait_same db db' : tasks db' = tasks db → tasks_wait db db'.
Proof. unfold tasks_wait. intros ->. apply Forall_Forall2_diag, Forall_true. reflexivity. Qed.

Lemma tasks_wait_update p f db :
  (∀ t, p t = true → row_waits t (f t)) → tasks_wait db (db <| tasks := sql_update p f (tasks db) |>).
Proof. intros Hf. apply sql_update_Forall2. intros t _. destruct (p t) eqn:E; [auto|reflexivity]. Qed.

Lemma row_waits_await t : t_id t = id → row_waits t (await_approval t).
Proof.
  intros Hid. unfold await_approval. split_and!; [done..|]. cbn.
  destruct (String.eqb_spec (t_status t) "IN_PROGRESS"); auto.
Qed.

Lemma waits_publish event : tx_all tasks_wait (PublishEvent event).
Proof. kept_steps; simplify_eq; by apply tasks_wait_same. Qed.
#[local] Hint Resolve waits_publish : kept.

(** Reading changes nothing. *)
Lemma reads_reporting n roles amount : ∀ current,
  tx_all (D := database) eq (reporting_loop n roles amount current).
Proof. induction n as [|n IH]; intros current; cbn [reporting_loop]; kept_steps; apply IH. Qed.
#[local] Hint Resolve reads_reporting : kept.
Lemma reads_selection gate a m : tx_all (D := database) eq (SelectApprovers gate a m).
Proof. kept_steps. Qed.
Lemma reads_guard t out : tx_all (D := database) eq (completing_guard repo t out).
Proof. kept_steps. Qed.

Lemma waits_selection gate a m : tx_all tasks_wait (SelectApprovers gate a m).
Proof. eapply tx_all_mono, reads_selection. by intros db ? <-. Qed.
#[local] Hint Resolve waits_selection : kept.

Lemma waits_request a b c d e x : tx_all tasks_wait (request_approval a b c d e x).
Proof. kept_steps; simplify_eq/=; repeat case_match; simplify_eq/=; by apply tasks_wait_same. Qed.
#[local] Hint Resolve waits_request : kept.

Lemma waits_activation b c : tx_all tasks_wait (activateApprovalGate repo id b c).
Proof.
  kept_steps; simplify_eq/=; try (by apply tasks_wait_same).
  apply tasks_wait_update. intros t Ht%String.eqb_eq. by apply row_waits_await.
Qed.
Lemma waits_resume t : tx_all tasks_wait (resume_wait repo t).
Proof.
  kept_steps; simplify_eq/=; try (by apply tasks_wait_same).
  apply tasks_wait_update. intros t' _. unfold row_waits. auto.
Qed.
Lemma waits_pause t : tx_all tasks_wait (pause_wait repo t).
Proof. kept_steps; simplify_eq/=; by apply tasks_wait_same. Qed.
#[local] Hint Resolve waits_activation waits_resume waits_pause : kept.

Lemma waits_follow_up new t : t_id t = id → tx_all tasks_wait (follow_up repo new t).
Proof.
  intros Hid. unfold follow_up. rewrite Hid. kept_steps.
Qed.

End Kept.

Section Outcomes.
Context `{env : Env} `{clock : BusinessClock} `{libs : TaskLibraries} (repo : repo_kind).

(** The gate of a task is satisfied. *)
Definition approved (db : database) (t : task_row) : Prop :=
  ∃ g row, t_approval_gate_id t = Some g ∧ sql_get (by_id g_id g) (gates db) = Ok row ∧
    g_status row = "SATISFIED".

Lemma guard_ok drv t out db n r db' n' :
  pooled drv (completing_guard repo t out) db n = (r, db', n') →
  db' = db ∧ (r = Ok tt → t_requires_approval t = true → approved db t).
Proof.
  intros H. pose proof (pooled_all drv eq _ _ _ _ _ _ (reads_guard repo t out) H) as <-.
  split; [done|]. intros -> Hr. unfold completing_guard in H. rewrite Hr in H. cbn [when] in H.
  pool_bind H r1 d1 k1 E. destruct r1 as [[]|]; [|by destruct H].
  destruct (has_gate t) as [g|] eqn:Eg; [|by injection E].
  assert (t_approval_gate_id t = Some g) as Et.
  { unfold has_gate in Eg. destruct (t_approval_gate_id t) as [g'|]; [|done].
    destruct (TrimSpace g' =?s ""); congruence. }
  unfold ensureApprovalGateSatisfied in E. pool_bind E r2 d2 k2 E2.
  apply pooled_get in E2 as [-> E2]. destruct r2 as [row|]; [|by destruct E].
  destruct E2 as [E2|]; [|done].
  destruct (String.eqb_spec (g_status row) "SATISFIED") as [Es|]; [|done].
  exists g, row. auto.
Qed.

Definition task_after (db : database) (taskID newStatus : string) (out err : option value)
    (version : Z) : database :=
  db <| tasks := sql_update (λ t', (t_id t' =?s taskID) && (t_version t' =? version))
                   (advanced newStatus out err) (tasks db) |>.

(** The ways of a run: it ends before the update and leaves everything as it was, or the
    update is done and what follows runs on. *)
Lemma UpdateTaskStatus_inv drv id new out err db n r db' n' :
  pooled drv (UpdateTaskStatus repo id new out err) db n = (r, db', n') →
  (∃ e, r = Err e) ∧ db' = db ∨
  ∃ t k, sql_get (by_id t_id id) (tasks db) = Ok t ∧ terminal (t_status t) = false ∧
    (new = "COMPLETED" → t_requires_approval t = true → approved db t) ∧
    pooled drv (follow_up repo new t) (task_after db id new out err (t_version t)) k = (r, db', n').
Proof.
  unfold UpdateTaskStatus. intros H. pool_bind H rt d k E. apply pooled_get in E as [-> E].
  destruct rt as [t|e]; [|destruct H as [-> ->]; eauto].
  destruct E as [E|]; [symmetry in E|done].
  destruct (terminal (t_status t)) eqn:Et; [injection H as <- <- _; eauto|].
  pool_bind H rg d1 k1 Eg.
  assert (d1 = db ∧ (rg = Ok tt → new = "COMPLETED" → t_requires_approval t = true → approved db t))
    as [-> Hg].
  { destruct (String.eqb_spec new "COMPLETED") as [->|Hn]; cbn [when] in Eg.
    - apply guard_ok in Eg as [-> Hg]. auto.
    - by injection Eg as <- <- _. }
  destruct rg as [[]|e]; [|destruct H as [-> ->]; eauto].
  pool_bind H rn d2 k2 En.
  apply pooled_update in En as [(-> & -> & _)|[-> ->]]; [|destruct H as [-> ->]; eauto].
  assert (0 < sql_count (λ t' : task_row, (t_id t' =?s id) && (t_version t' =? t_version t)) (tasks db))
    as Hpos.
  { apply sql_get_Ok in E as [Hin Hid]. eapply sql_count_pos; [exact Hin|]. unfold by_id in Hid.
    rewrite Hid, Z.eqb_refl. done. }
  replace (sql_count _ (tasks db) =? 0) with false in H by lia.
  right. exists t, k2. auto.
Qed.

(** C27. On the pool, where every statement commits by itself, and whatever fails on the way:
    the status of a finished task never changes, and a task that requires approval becomes
    COMPLETED only if its gate is satisfied. *)
Theorem completion_needs_approval drv id new out err db r db' :
  NoDup (map t_id (tasks db)) →
  on_pool drv (UpdateTaskStatus repo id new out err) db = (r, db') →
  Forall2 (λ t t', t_id t' = t_id t ∧
    (terminal (t_status t) = true → t_status t' = t_status t) ∧
    (t_status t' ≠ t_status t → t_id t = id) ∧
    (t_status t' = "COMPLETED" → t_status t ≠ "COMPLETED" → t_requires_approval t = true →
     approved db t)) (tasks db) (tasks db').
Proof.
  intros Hn. unfold on_pool. destruct (pooled drv _ db 0) as [[r1 d1] n1] eqn:H. intros [= <- <-].
  apply UpdateTaskStatus_inv in H as [[_ ->]|(t & k & Et & Hterm & Happ & H)].
  { apply Forall_Forall2_diag, Forall_true. intros x. split_and!; [done|done|done|by intros ->]. }
  pose proof Et as [_ Eid]%sql_get_Ok. apply String.eqb_eq in Eid.
  pose proof (pooled_all drv (tasks_wait id) _ _ _ _ _ _ (waits_follow_up repo id new t Eid) H) as Hw.
  unfold tasks_wait, task_after in Hw. cbn in Hw.
  assert (H1 : Forall2 (λ t0 t1, t1 = t0 ∧ t_id t0 ≠ id ∨ t0 = t ∧ t1 = advanced new out err t ∨
                                t0 = t ∧ t1 = t) (tasks db)
    (sql_update (λ t', (t_id t' =?s id) && (t_version t' =? t_version t)) (advanced new out err)
       (tasks db))).
  { apply sql_update_Forall2. intros t0 Hin.
    destruct (String.eqb_spec (t_id t0) id) as [E|E]; cbn [andb]; [|auto].
    assert (t0 = t) as ->.
    { pose proof (sql_get_unique t_id (tasks db) t0 Hn Hin) as Hu. rewrite E in Hu.
      unfold by_id in Et. congruence. }
    destruct (_ =? _); auto. }
  eapply Forall2_compose, Hw; [|exact H1]. intros t0 t1 t2 Hc (Hid & Hreq & Hgate & Hst).
  assert (Hwait : ∀ s : string, t_status t1 ≠ s → s ≠ "AWAITING_EXTERNAL" → t_status t2 ≠ s).
  { intros s H0 H2. destruct Hst as [|(_ & _ & Hs)]; congruence. }
  assert (Hkeep : terminal (t_status t1) = true → t_status t2 = t_status t1).
  { intros Ht. destruct Hst as [|(_ & Hs & _)]; [done|]. by rewrite Hs in Ht. }
  destruct Hc as [[-> Hne]|[[-> ->]|[-> ->]]].
  - split_and!; [done|done| |].
    + intros Hs. by destruct Hst as [|(? & _)].
    + intros Hc Hnc. by destruct (Hwait "COMPLETED").
  - split_and!; [done|by rewrite Hterm|done|]. intros Hc _ Hr. apply Happ; [|done].
    destruct (String.eqb_spec new "COMPLETED") as [->|Hnew]; [done|]. by destruct (Hwait "COMPLETED").
  - split_and!; [done|by rewrite Hterm|done|].
    intros Hc Hnc. by destruct (Hwait "COMPLETED").
Qed.

(** The configuration the case is pinned to. *)
Definition config_of (db : database) (caseID : string) (config : CaseTypeConfig) : Prop :=
  ∃ c ct, sql_get (by_id c_id (TrimSpace caseID)) (cases db) = Ok c ∧
    sql_get (by_id ct_id (default (c_case_type_id c) (c_case_type_version_id c))) (case_types db)
      = Ok ct ∧ ct_config ct = config.

Lemma ResolveCaseTypeConfig_ok drv caseID db n config d k :
  pooled drv (ResolveCaseTypeConfig caseID) db n = (Ok config, d, k) →
  d = db ∧ config_of db caseID config.
Proof.
  unfold ResolveCaseTypeConfig. cbv zeta. destruct (TrimSpace caseID =?s ""); [done|]. intros H.
  pool_bind H r d1 k1 E. apply pooled_attempt_inv in E as (r1 & -> & E).
  apply pooled_query in E as [-> E]. destruct r1 as [c|e]; [|by destruct e].
  injection H as -> -> _. split; [done|]. destruct E as [E|]; [|done]. symmetry in E.
  apply result_bind_Ok in E as (c & Ec & E). apply result_bind_Ok in E as (ct & Ect & [= <-]).
  by exists c, ct.
Qed.

(** The stored or the given output passes the schema of the task's definition, if its
    configuration has one. *)
Definition output_valid (db : database) (t : task_row) (out : option value) : Prop :=
  ∃ config, config_of db (t_case_id t) config ∧
    ∀ td, findTaskDefinitionByCode config (t_task_definition_code t) = Some td →
      ∃ payload, as_object (default (t_output_payload t) out) = Ok payload ∧
        ValidateTaskOutput td payload = Ok tt.

Lemma validate_output_ok drv t out db n d k :
  NoDup (map t_id (tasks db)) → t ∈ tasks db →
  pooled drv (validate_output t out) db n = (Ok tt, d, k) → output_valid db t out.
Proof.
  intros Hn Hin H. unfold validate_output in H. pool_bind H rc d1 k1 E.
  destruct rc as [config|]; [|by destruct H]. apply ResolveCaseTypeConfig_ok in E as [-> Hc].
  exists config. split; [done|]. intros td Htd. rewrite Htd in H.
  pool_bind H rs d2 k2 Es. destruct rs as [source|]; [|by destruct H].
  assert (source = default (t_output_payload t) out) as ->.
  { destruct out as [v|]; [by injection Es|]. pool_bind Es rt d3 k3 Et.
    apply pooled_get in Et as [-> Et]. destruct rt as [t'|]; [|by destruct Es].
    destruct Et as [Et|]; [|done]. unfold by_id in Et. rewrite sql_get_unique in Et by done.
    injection Et as ->. by injection Es. }
  pool_bind H rp d4 k4 Ep. destruct rp as [payload|]; [|by destruct H].
  injection Ep as Ep <- <-. exists payload. split; [done|]. by injection H.
Qed.

Lemma guard_valid drv t out db n db' n' :
  NoDup (map t_id (tasks db)) → t ∈ tasks db → repo_has_sqlx repo = true →
  pooled drv (completing_guard repo t out) db n = (Ok tt, db', n') → output_valid db t out.
Proof.
  intros Hn Hin Hrepo H. unfold completing_guard in H. rewrite Hrepo in H. cbn [when] in H.
  pool_bind H r1 d1 k1 E. destruct r1 as [[]|]; [|by destruct H].
  assert (d1 = db) as -> by (symmetry; eapply (pooled_all drv eq), E; kept_steps).
  by eapply validate_output_ok.
Qed.

Lemma sql_update_versioned id t new out err (rows : list task_row) :
  NoDup (map t_id rows) → sql_get (by_id t_id id) rows = Ok t →
  sql_update (λ t', (t_id t' =?s id) && (t_version t' =? t_version t)) (advanced new out err) rows =
  sql_update (by_id t_id id) (advanced new out err) rows.
Proof.
  intros Hn Et. unfold sql_update. apply list_fmap_ext. intros i x Hx%list_elem_of_lookup_2.
  unfold by_id. destruct (String.eqb_spec (t_id x) id) as [E|E]; [|done]. cbn [andb].
  pose proof (sql_get_unique t_id rows x Hn Hx) as Hu. rewrite E in Hu. unfold by_id in Et.
  assert (x = t) as -> by congruence. by rewrite Z.eqb_refl.
Qed.

(** A call that answers nil for COMPLETED or FAILED has done the whole of it and nothing
    else, whatever failed on the way: the row of one unfinished task is advanced, its
    output has passed validation (and its gate approval) when it is COMPLETED, and the one
    event is in the outbox with its deliveries. *)
Theorem finished_task_spec drv id new out err db db' :
  NoDup (map t_id (tasks db)) → new = "COMPLETED" ∨ new = "FAILED" →
  on_pool drv (UpdateTaskStatus repo id new out err) db = (Ok tt, db') →
  ∃ t, sql_get (by_id t_id id) (tasks db) = Ok t ∧ terminal (t_status t) = false ∧
    (new = "COMPLETED" → t_requires_approval t = true → approved db t) ∧
    (new = "COMPLETED" → repo_has_sqlx repo = true → output_valid db t out) ∧
    db' = outbox_with (published_row (outcome_event t new))
            (db <| tasks := sql_update (by_id t_id id) (advanced new out err) (tasks db) |>).
Proof.
  intros Hn Hnew. unfold on_pool. destruct (pooled drv _ db 0) as [[r1 d1] n1] eqn:H.
  intros [= -> <-]. pose proof H as Hrun.
  apply UpdateTaskStatus_inv in H as [[[e [=]] _]|(t & k & Et & Hterm & Happ & H)].
  exists t. split_and!; [done..| |].
  - intros -> Hrepo. unfold UpdateTaskStatus in Hrun. pool_bind Hrun rt d k' E.
    apply pooled_get in E as [-> E]. rewrite Et in E. destruct rt as [t'|]; [|by destruct Hrun].
    destruct E as [[= ->]|]; [|done]. rewrite Hterm in Hrun. pool_bind Hrun rg d2 k2 Eg.
    destruct rg as [[]|]; [|by destruct Hrun]. cbn [when] in Eg.
    eapply guard_valid; [done| |done|exact Eg]. by apply sql_get_Ok in Et as [].
  - unfold follow_up in H.
    assert ((new =?s "IN_PROGRESS") = false ∧ (new =?s "AWAITING_EXTERNAL") = false ∧
            str_mem new ["COMPLETED"; "FAILED"] = true) as (E1 & E2 & E3)
      by (destruct Hnew as [-> | ->]; by vm_compute).
    rewrite E1, E2, E3, !andb_false_r in H. cbn [andb when] in H.
    pool_bind H r2 d2 k2 E. injection E as <- <- <-. pool_bind H r3 d3 k3 E.
    injection E as <- <- <-. pool_bind H r4 d4 k4 E. injection E as <- <- <-.
    apply pooled_PublishEvent in H as [[_ ->]|[[e [=]] _]].
    + unfold task_after. by rewrite sql_update_versioned.
    + destruct Hnew as [-> | ->]; (split; [done|]); by vm_compute.
Qed.

(** ** Asking the approvers *)

(** Who is asked: the users of the gate's strategy, or, when there is none, the oldest
    active user of the fallback role. *)
Definition asked_users (db : database) (gate : gate_row) (c : case_row) (ids : list string) : Prop :=
  outcome db (chosen db gate (c_assigned_to c) (c_metadata c)) (Ok ids) ∨
  (∀ u, u ∈ users db → ¬ chosen db gate (c_assigned_to c) (c_metadata c) u) ∧
  ∃ role u, g_fallback_role gate = Some role ∧ TrimSpace role ≠ "" ∧
    oldest_active (TrimSpace role) (users db) = Ok u ∧ ids = [u_id u].

Lemma approvers_of_ok drv taskID caseID gate c db n ids d k :
  pooled drv (approvers_of taskID caseID gate c) db n = (Ok ids, d, k) →
  d = db ∧ asked_users db gate c ids.
Proof.
  unfold approvers_of. intros H. pool_bind H r d1 k1 E.
  apply pooled_attempt_inv in E as (r1 & -> & E). apply selection_outcome in E as [-> Ho].
  destruct r1 as [ids1|e]; [injection H as -> <- _; split; [done|by left]|].
  destruct e; try done. pool_bind H rf d2 k2 Ef. unfold fallback_approver in Ef.
  destruct (blank (g_fallback_role gate)) eqn:Eb.
  { injection Ef as <- <- <-. pool_bind H rx d3 k3 Ex. by destruct rx; [|destruct H]. }
  apply blank_false in Eb as (role & Er & Hne). rewrite Er in Ef.
  change (default "" (Some role)) with role in Ef.
  pool_bind Ef rq d4 k4 Eo. apply pooled_attempt_inv in Eo as (ro & -> & Eo).
  apply pooled_query in Eo as [-> Eo]. injection Ef as <- <- <-.
  assert (Hnone : ∀ x k5, pooled drv (_ ← tx_attempt (PublishEvent
      (no_eligible_event taskID caseID (g_id gate)));
      throw (A := list string) ErrNoEligibleApprover) db k5 ≠ (Ok x, d, k)).
  { intros x k5 Hx. pool_bind Hx rx d3 k3 Ex. by destruct rx; [|destruct Hx]. }
  destruct ro as [u|e]; [|by apply Hnone in H].
  destruct (u_id u =?s ""); [by apply Hnone in H|]. injection H as <- <- _. split; [done|]. right.
  split; [exact Ho|]. exists role, u. destruct Eo as [Eo|]; [|done]. auto.
Qed.

(** The generated identifiers to come are no identifiers of requests. *)
Definition fresh_ids (db : database) : Prop :=
  (∀ i j, env_uuid i = env_uuid j → i = j) ∧
  ∀ n r, (uuid_pos db ≤ n)%nat → r ∈ requests db → r_id r ≠ env_uuid n.

(** What a request to [approverID] leaves unchanged, and what may be new. *)
Definition request_for (gateID : string) (tier : option Z) (expiresAt : Z) (ids : list string)
    (r : request_row) : Prop :=
  r_approver_id r ∈ ids ∧
  ∃ id, r = pending_request gateID (r_approver_id r) tier expiresAt [] id.
Definition extended (gateID : string) (tier : option Z) (expiresAt : Z) (ids : list string)
    (db db' : database) : Prop :=
  tasks db' = tasks db ∧ gates db' = gates db ∧ pause_log db' = pause_log db ∧
  ∃ new, requests db' = requests db ++ new ∧ Forall (request_for gateID tier expiresAt ids) new.
Definition is_asked (gateID : string) (tier : option Z) (db : database) (u : string) : Prop :=
  ∃ r, r ∈ requests db ∧ r_gate_id r = gateID ∧ r_approver_id r = u ∧
    default 0 (r_tier r) = default 0 tier ∧ r_status r = "PENDING".

Lemma extended_asked gateID tier e ids db db' u :
  extended gateID tier e ids db db' → is_asked gateID tier db u → is_asked gateID tier db' u.
Proof.
  intros (_ & _ & _ & new & E & _) (r & Hr & H). exists r. split; [|done]. rewrite E.
  by apply elem_of_app; left.
Qed.

(** Nothing but messages. *)
Definition quiet (db db' : database) : Prop :=
  tasks db' = tasks db ∧ gates db' = gates db ∧ pause_log db' = pause_log db ∧
  requests db' = requests db ∧ uuid_pos db' = uuid_pos db.
#[local] Instance quiet_preorder : PreOrder quiet.
Proof. split; [done|]. unfold quiet. intros ??? (?&?&?&?&?) (?&?&?&?&?). split_and!; congruence. Qed.

Lemma quiet_publish event : tx_all quiet (PublishEvent event).
Proof. by kept_steps; simplify_eq. Qed.
Lemma quiet_audit a : tx_all quiet (insertApprovalAuditLog a).
Proof. by kept_steps; simplify_eq/=; repeat case_match; simplify_eq/=. Qed.
#[local] Hint Resolve quiet_publish quiet_audit : kept.

Lemma request_approval_ok drv taskID caseID gateID tier e u db n d k :
  fresh_ids db →
  pooled drv (request_approval taskID caseID gateID tier e u) db n = (Ok tt, d, k) →
  fresh_ids d ∧ is_asked gateID tier d u ∧ extended gateID tier e [u] db d.
Proof.
  intros [Hinj Hf] H. unfold request_approval in H. pool_bind H ri d1 k1 Ei.
  destruct ri as [oid|]; [|by destruct H].
  assert (Hq : quiet d1 d).
  { eapply (pooled_all drv quiet), H. cbv zeta. kept_steps. }
  destruct Hq as (Qt & Qg & Qp & Qr & Qu). clear H.
  apply pooled_stmt_inv in Ei as [(o & [= <-] & Ei)|(? & [=] & _)].
  cbv zeta in Ei. set (new := pending_request gateID u tier e [] (env_uuid (uuid_pos db))) in Ei.
  destruct (negb (request_check new)); [done|].
  destruct (existsb (request_conflict new) (requests db)) eqn:Ec; injection Ei as <- <-.
  - apply existsb_exists in Ec as (r & Hr%list_elem_of_In & Hc).
    unfold fresh_ids, is_asked, extended. rewrite Qt, Qg, Qp, Qr, Qu. split; [done|]. split.
    + exists r. split; [done|]. unfold request_conflict in Hc. cbn in Hc.
      replace (env_uuid (uuid_pos db) =?s r_id r) with false in Hc
        by (symmetry; apply String.eqb_neq; intros E; by apply (Hf (uuid_pos db) r)).
      cbn in Hc. repeat (apply andb_prop in Hc as [Hc ?]).
      repeat match goal with H : (_ =?s _) = true |- _ => apply String.eqb_eq in H end.
      split_and!; [done..|by symmetry; apply Z.eqb_eq|done].
    + split_and!; [done..|]. exists []. by rewrite app_nil_r.
  - unfold fresh_ids, is_asked, extended. rewrite Qt, Qg, Qp, Qr, Qu. cbn.
    split; [split; [done|]|split].
    + intros n1 r Hn1 [Hr|Hr%list_elem_of_singleton]%elem_of_app; [apply Hf; [lia|done]|].
      subst r. cbn. intros E%Hinj. lia.
    + exists new. split; [apply elem_of_app; right; by apply list_elem_of_singleton|done].
    + split_and!; [done..|]. exists [new]. split; [done|]. apply Forall_singleton.
      split; [by apply list_elem_of_singleton|]. by eexists.
Qed.

Lemma extended_app gateID tier e ids1 ids2 db1 db2 db3 :
  extended gateID tier e ids1 db1 db2 → extended gateID tier e ids2 db2 db3 →
  extended gateID tier e (ids1 ++ ids2) db1 db3.
Proof.
  intros (T & G & P & n1 & E1 & F1) (T' & G' & P' & n2 & E2 & F2).
  split_and!; [congruence..|]. exists (n1 ++ n2). rewrite E2, E1, app_assoc. split; [done|].
  apply Forall_app. split; eapply Forall_impl; [exact F1| |exact F2|];
    intros r [Hr Hx]; (split; [|done]); apply elem_of_app; auto.
Qed.

Lemma request_approvals_each drv taskID caseID gateID tier e ids : ∀ db n d k,
  fresh_ids db →
  pooled drv (tx_each (request_approval taskID caseID gateID tier e) ids) db n = (Ok tt, d, k) →
  (∀ u, u ∈ ids → is_asked gateID tier d u) ∧ extended gateID tier e ids db d.
Proof.
  induction ids as [|u ids IH]; intros db n d k Hf H.
  { injection H as <- _. split; [by intros u ?%elem_of_nil|]. split_and!; [done..|].
    exists []. by rewrite app_nil_r. }
  cbn [tx_each] in H. pool_bind H r1 d1 k1 E. destruct r1 as [[]|]; [|by destruct H].
  apply request_approval_ok in E as (Hf1 & Ha & Hx); [|done].
  apply IH in H as [Has Hxs]; [|done]. split; [|exact (extended_app _ _ _ [u] _ _ _ _ Hx Hxs)].
  intros v [->|Hv]%elem_of_cons; [by eapply extended_asked|auto].
Qed.

Definition activated_gate (g : gate_row) : gate_row :=
  g <| g_status := "ACTIVE" |> <| g_opened_at ::= λ t, Some (default env_now t) |>
    <| g_version ::= Z.succ |>.

Lemma mark_gate_active_ok drv gateID db n d k :
  pooled drv (mark_gate_active gateID) db n = (Ok tt, d, k) →
  d = db <| gates := sql_update (by_id g_id gateID) activated_gate (gates db) |>.
Proof.
  unfold mark_gate_active. intros H. pool_bind H r d1 k1 E.
  apply pooled_update in E as [(-> & -> & _)|[-> ->]]; [by injection H as <- _|by destruct H].
Qed.

Lemma request_approvals_ok drv taskID caseID gate db n d k :
  fresh_ids db → pooled drv (request_approvals repo taskID caseID gate) db n = (Ok tt, d, k) →
  ∃ c ids, let tier := tier_no <$> head (g_chain gate) in
    sql_get (by_id c_id caseID) (cases db) = Ok c ∧ asked_users db gate c ids ∧ ids ≠ [] ∧
    (∀ u, u ∈ ids → is_asked (g_id gate) tier d u) ∧
    (∃ new, requests d = requests db ++ new ∧
       Forall (request_for (g_id gate) tier (approval_expiry gate (c_sla_calendar_id c)) ids) new) ∧
    tasks d = sql_update (by_id t_id taskID) await_approval (tasks db) ∧
    gates d = sql_update (by_id g_id (g_id gate)) activated_gate (gates db) ∧
    pause_log d = pause_log db.
Proof.
  intros Hf H. unfold request_approvals in H. pool_bind H rc d1 k1 Ec.
  apply pooled_get in Ec as [-> Ec]. destruct rc as [c|]; [|by destruct H].
  destruct Ec as [Ec|]; [|done]. destruct (negb (repo_has_sqlx repo)); [done|].
  pool_bind H ri d2 k2 Ei. destruct ri as [ids|]; [|by destruct H].
  apply approvers_of_ok in Ei as [-> Hids]. destruct ids as [|u0 ids0] eqn:Eids; [done|].
  rewrite <- Eids in *. assert (Hne : ids ≠ []) by (by rewrite Eids). clear Eids u0 ids0.
  pool_bind H re d3 k3 Ee. destruct re as [[]|]; [|by destruct H].
  apply request_approvals_each in Ee as (Ha & Ht & Hg & Hp & Hnew); [|done].
  pool_bind H rm d4 k4 Em. destruct rm as [[]|]; [|by destruct H].
  apply mark_gate_active_ok in Em as ->. pool_bind H ru d5 k5 Eu.
  apply pooled_update in Eu as [(-> & -> & _)|[-> ->]]; [|by destruct H]. injection H as <- _.
  exists c, ids. cbn. rewrite Ht, Hg, Hp. split_and!; done.
Qed.

(** Starting a task that needs approval, whatever fails on the way, answers nil only when
    every user it is about, and nobody else, has been asked: a pending request with the
    gate's expiry for each, the gate active and the task waiting.  The SLA clock of the
    task goes on: no pause is logged. *)
Theorem starting_asks_the_approvers drv id db db' t gateID gate :
  fresh_ids db → NoDup (map t_id (tasks db)) →
  sql_get (by_id t_id id) (tasks db) = Ok t → t_requires_approval t = true →
  t_status t ≠ "AWAITING_EXTERNAL" → t_approval_gate_id t = Some gateID →
  sql_get (by_id g_id gateID) (gates db) = Ok gate → g_status gate ≠ "SATISFIED" →
  (∀ r, r ∈ requests db → gate_pending gateID r = false) →
  on_pool drv (UpdateTaskStatus repo id "IN_PROGRESS" None None) db = (Ok tt, db') →
  ∃ c ids t' gate', let tier := tier_no <$> head (g_chain gate) in
    sql_get (by_id c_id (t_case_id t)) (cases db) = Ok c ∧ ids ≠ [] ∧
    asked_users (task_after db id "IN_PROGRESS" None None (t_version t)) gate c ids ∧
    (∀ u, u ∈ ids → is_asked gateID tier db' u) ∧
    (∃ new, requests db' = requests db ++ new ∧
       Forall (request_for gateID tier (approval_expiry gate (c_sla_calendar_id c)) ids) new) ∧
    sql_get (by_id t_id id) (tasks db') = Ok t' ∧ t_status t' = "AWAITING_EXTERNAL" ∧
    sql_get (by_id g_id gateID) (gates db') = Ok gate' ∧ g_status gate' = "ACTIVE" ∧
    pause_log db' = pause_log db.
Proof.
  intros Hf Hn Et Hreq Hst Hgid Eg Hgs Hnone. unfold on_pool.
  destruct (pooled drv _ db 0) as [[r1 d1] n1] eqn:H. intros [= -> <-].
  apply UpdateTaskStatus_inv in H as [[[e [=]] _]|(t0 & k & Et0 & _ & _ & H)].
  assert (t0 = t) as -> by congruence. clear Et0.
  unfold follow_up in H. rewrite Hreq in H. cbn [andb] in H.
  destruct (String.eqb_spec (t_status t) "AWAITING_EXTERNAL") as [|_]; [done|].
  pool_bind H ra d2 k2 Ea. destruct ra as [[]|]; [|by destruct H].
  cbv zeta in H. change (str_mem "IN_PROGRESS" ["COMPLETED"; "FAILED"]) with false in H.
  pool_bind H r3 d3 k3 E3. injection E3 as <- <- <-. pool_bind H r4 d4 k4 E4.
  injection E4 as <- <- <-. injection H as -> _.
  assert (has_gate t = Some gateID) as Eh.
  { unfold has_gate. rewrite Hgid. destruct (String.eqb_spec (TrimSpace gateID) "") as [E|]; [|done].
    exfalso. unfold has_gate in Ea. rewrite Hgid, E in Ea. done. }
  rewrite Eh in Ea. cbn [when] in Ea. unfold activateApprovalGate in Ea.
  pool_bind Ea rg d5 k5 Egg. apply pooled_get in Egg as [-> Egg].
  destruct rg as [gate0|]; [|by destruct Ea]. destruct Egg as [Egg|]; [|done].
  assert (gate0 = gate) as -> by (cbn in Egg; congruence).
  destruct (String.eqb_spec (g_status gate) "SATISFIED"); [done|].
  destruct (str_mem (g_status gate) _); [done|].
  pool_bind Ea rp d6 k6 Ep. apply pooled_query in Ep as [-> Ep].
  destruct rp as [pending|]; [|by destruct Ea]. destruct Ep as [[= ->]|]; [|done].
  replace (sql_count (gate_pending gateID) _) with 0 in Ea
    by (symmetry; by apply sql_count_zero). cbn [Z.ltb] in Ea.
  pose proof Eg as [_ Eid]%sql_get_Ok. apply String.eqb_eq in Eid.
  pose proof Et as [_ Etid]%sql_get_Ok. apply String.eqb_eq in Etid.
  apply request_approvals_ok in Ea as (c & ids & Ec & Hids & Hne & Ha & Hnew & Etasks & Egates & Epause);
    [|exact Hf].
  rewrite Eid in *. exists c, ids, (await_approval (advanced "IN_PROGRESS" None None t)), (activated_gate gate).
  split_and!; try done.
  - rewrite Etasks, Etid. apply by_id_update; [done|].
    assert (tasks (task_after db id "IN_PROGRESS" None None (t_version t)) =
      sql_update (by_id t_id id) (advanced "IN_PROGRESS" None None) (tasks db)) as ->
      by by apply sql_update_versioned.
    by apply by_id_update.
  - rewrite Egates. by apply by_id_update.
Qed.
End Outcomes.

(** ** Witnesses *)

Definition status_repo : repo_kind := {| repo_concrete := true; repo_has_sqlx := true |}.
Definition status_type : case_type_row :=
  blank_case_type "loan" "LOAN" 1
    (plain_config [plain_stage "REVIEW" 1
       [plain_activity "CREDIT" [plain_task "CREDIT_CHECK"]]]).
(** A task that needs the approval of [gate], one that does not, and their case. *)
Definition status_db (gate : gate_row) (status : string) : database :=
  selection_db <| cases := [blank_case "case" "IN_PROGRESS" <| c_assigned_to := Some "clerk" |>] |>
    <| case_types := [status_type] |> <| gates := [gate] |>
    <| tasks := [blank_task "task" "case" "CREDIT_CHECK" status
                   <| t_requires_approval := true |> <| t_approval_gate_id := Some "gate" |>;
                 blank_task "other" "case" "CREDIT_CHECK" "IN_PROGRESS"] |>.
Definition chain_gate : gate_row := selection_gate "REPORTING_CHAIN" ["MANAGER"].
Definition satisfied_gate : gate_row := chain_gate <| g_status := "SATISFIED" |>.
Definition run_status (gate : gate_row) (status id new : string) : result unit * database :=
  on_pool (reliable true)
    (UpdateTaskStatus (env := sample_env case_statuses_35) (clock := always_open) status_repo id new
       None None) (status_db gate status).

Lemma status_tasks_distinct gate status : NoDup (map t_id (tasks (status_db gate status))).
Proof. apply (bool_decide_unpack (NoDup ["task"; "other"]%string)). by vm_compute. Qed.

(** The worker reports the task COMPLETED although its gate is pending. *)
Lemma completion_needs_approval_witness :
  let run := run_status chain_gate "IN_PROGRESS" "task" "COMPLETED" in
  (run.1 = Err (ErrMsg "approval gate is PENDING")) ∧
  Forall2 (λ t t', t_id t' = t_id t ∧
    (terminal (t_status t) = true → t_status t' = t_status t) ∧
    (t_status t' ≠ t_status t → t_id t = "task"%string) ∧
    (t_status t' = "COMPLETED" → t_status t ≠ "COMPLETED" → t_requires_approval t = true →
     approved (status_db chain_gate "IN_PROGRESS") t))
    (tasks (status_db chain_gate "IN_PROGRESS")) (tasks run.2).
Proof.
  split; [by vm_compute|].
  eapply (completion_needs_approval (env := sample_env case_statuses_35) (clock := always_open)
    status_repo (reliable true) "task" "COMPLETED" None None); [apply status_tasks_distinct|].
  apply surjective_pairing.
Defined.

Lemma finished_task_spec_witness :
  ∃ t, sql_get (by_id t_id "task") (tasks (status_db satisfied_gate "IN_PROGRESS")) = Ok t ∧
    approved (status_db satisfied_gate "IN_PROGRESS") t.
Proof.
  destruct (finished_task_spec (env := sample_env case_statuses_35) (clock := always_open)
    status_repo (reliable true) "task" "COMPLETED" None None (status_db satisfied_gate "IN_PROGRESS")
    (run_status satisfied_gate "IN_PROGRESS" "task" "COMPLETED").2) as (t & Et & _ & Ha & _).
  - apply status_tasks_distinct.
  - by left.
  - unfold run_status. apply (pair_fst _ (Ok tt)). by vm_compute.
  - exists t. split; [done|]. apply Ha; [done|]. vm_compute in Et. injection Et as <-. done.
Defined.

Lemma starting_asks_the_approvers_witness :
  let run := run_status chain_gate "ASSIGNED" "task" "IN_PROGRESS" in
  ∃ c ids t' gate',
    sql_get (by_id c_id "case") (cases (status_db chain_gate "ASSIGNED")) = Ok c ∧ ids ≠ [] ∧
    (∀ u, u ∈ ids → is_asked "gate" None run.2 u) ∧
    sql_get (by_id t_id "task") (tasks run.2) = Ok t' ∧ t_status t' = "AWAITING_EXTERNAL" ∧
    sql_get (by_id g_id "gate") (gates run.2) = Ok gate' ∧ g_status gate' = "ACTIVE".
Proof.
  destruct (starting_asks_the_approvers (env := sample_env case_statuses_35) (clock := always_open)
    status_repo (reliable true) "task" (status_db chain_gate "ASSIGNED")
    (run_status chain_gate "ASSIGNED" "task" "IN_PROGRESS").2
    (blank_task "task" "case" "CREDIT_CHECK" "ASSIGNED"
       <| t_requires_approval := true |> <| t_approval_gate_id := Some "gate"%string |>)
    "gate" chain_gate)
    as (c & ids & t' & gate' & H1 & H2 & _ & H3 & _ & H4 & H5 & H6 & H7 & _);
    try (by vm_compute).
  - split; [apply sample_uuid_inj|]. by intros n r _ ?%elem_of_nil.
  - apply status_tasks_distinct.
  - intros r ?%elem_of_nil. done.
  - by exists c, ids, t', gate'.
Defined.

(** Nobody may approve the amount: the call fails, but the task has been started and the
    gate is as it was. *)
Example unapprovable_task_stays_started :
  let gate := chain_gate <| g_amount := Some 99999999 |> in
  let run := run_status gate "ASSIGNED" "task" "IN_PROGRESS" in
  run.1 = Err ErrNoEligibleApprover ∧
  map t_status (tasks run.2) = ["IN_PROGRESS"; "IN_PROGRESS"]%string ∧
  map g_status (gates run.2) = ["PENDING"]%string ∧ requests run.2 = [] ∧
  map ev_type (outbox run.2) = ["NO_ELIGIBLE_APPROVER"]%string.
Proof. by vm_compute. Qed.
