(* ===== verification/FailureHandling.v ===== *)
(** * Handling task failures

    Recording the failure of a task (internal/exception/service.go): a retry or the
    dead-letter queue, the escalation of the case and the compensating task; requeueing
    dead letters and releasing poison pills (internal/exception/dashboard.go); what the
    orchestrator does with the events of finished and failed tasks. *)

From Stdlib Require Import Ascii String ZArith Lia.
From stdpp Require Import base list strings relations.
From S2P Require Import Prelude Float64 SqlTx ApprovalExpr RetryPolicy CaseConfig Schema Outbox.
From S2P Require Import Orchestrator.
From S2P Require Import TaskInputs.

Open Scope Z_scope.
Open Scope go_scope.

(** ** Data *)

(** [TaskFailureInput] with what the handler asks of its error value: the
    stack and the upstream payload it carries, if any. *)
Record TaskFailureInput := {
  fi_TaskID : string; fi_SourceService : string; fi_Err : option GoError;
  fi_RecoveredStack : option string; fi_carried_stack : option string;
  fi_upstream : option value;
}.

(** [model.TaskErrorDetail]; an instant is its number of nanoseconds. *)
Record TaskErrorDetail := {
  ed_ErrorCode : string; ed_ErrorClass : string; ed_Message : string;
  ed_SourceService : string; ed_OccurredAt : Z; ed_StackContext : option string;
  ed_UpstreamError : option value;
}.

Record taskLocation := {
  tl_def : TaskDefinitionV2; tl_activity : string; tl_stage : string;
}.

Definition class_text (c : ErrorClass) : string :=
  match c with
  | ErrorClassTransient => "TRANSIENT"
  | ErrorClassPermanent => "PERMANENT"
  | ErrorClassUnknown => "UNKNOWN"
  end.

Definition detail_json (d : TaskErrorDetail) : value :=
  VMap ([("error_code", VString (ed_ErrorCode d)); ("error_class", VString (ed_ErrorClass d));
         ("message", VString (ed_Message d)); ("source_service", VString (ed_SourceService d));
         ("occurred_at", VInt (ed_OccurredAt d))] ++
        match ed_StackContext d with Some s => [("stack_context", VString s)] | None => [] end ++
        match ed_UpstreamError d with
        | None | Some VNil => []
        | Some v => [("upstream_error", v)]
        end).

Definition nonblank (s : string) : option string :=
  if TrimSpace s =?s "" then None else Some (TrimSpace s).

Definition nonBlankOrDefault (v fallback : string) : string :=
  match nonblank v with Some s => s | None => TrimSpace fallback end.

Definition isTerminalTaskStatus (status : string) : bool :=
  str_mem (TrimSpace (ToUpper status)) ["COMPLETED"; "FAILED"; "CANCELLED"; "SKIPPED"].

Definition findTaskDefinitionWithLocation (config : CaseTypeConfig) (code : string)
    : option taskLocation :=
  let target := TrimSpace code in
  let here s a := match find (λ td, TrimSpace (task_code td) =?s target) (ad_tasks a) with
                  | Some td => Some {| tl_def := td; tl_activity := ad_code a; tl_stage := sd_code s |}
                  | None => None
                  end in
  head (omap (λ s, head (omap (here s) (sd_activities s))) (cfg_stages config)).

Definition task_location (cfg : CaseTypeConfig) (t : task_row) : taskLocation :=
  default {| tl_def := plain_task (t_task_definition_code t); tl_activity := t_activity_code t;
             tl_stage := t_stage_code t |}
          (findTaskDefinitionWithLocation cfg (t_task_definition_code t)).

Section Failures.
Context `{env : Env}.

(** ** Reading the failed task *)

Definition lockFailureContext (taskID : string)
    : Tx database (task_row * option string * CaseTypeConfig * taskLocation) :=
  '(t, c, ct) ← query (λ db,
    t ← sql_get (by_id t_id taskID) (tasks db);
    c ← sql_get (by_id c_id (t_case_id t)) (cases db);
    ct ← sql_get (by_id ct_id (c_case_type_id c)) (case_types db);
    Ok (t, c, ct));
  mret (t, c_parent_case_id c, ct_config ct, task_location (ct_config ct) t).

Definition context_of (t : task_row) : failureContext :=
  {| fc_retry_count := t_retry_count t; fc_max_retries := t_max_retries t;
     fc_total_failure_count := t_total_failure_count t |}.

Definition buildTaskErrorDetail (input : TaskFailureInput) (err : GoError)
    (sourceService errorCode : string) (class : ErrorClass) (occurredAt : Z) : TaskErrorDetail :=
  {| ed_ErrorCode := errorCode; ed_ErrorClass := class_text class;
     ed_Message := orElse (TrimSpace (ge_message err)) "task execution failed";
     ed_SourceService := sourceService; ed_OccurredAt := occurredAt;
     ed_StackContext :=
       match fi_RecoveredStack input ≫= nonblank with
       | Some s => Some s
       | None => fi_carried_stack input ≫= nonblank
       end;
     ed_UpstreamError := fi_upstream input |}.

(** ** What a failure writes *)

(** The update of a task that is retried. *)
Definition retried (d : RetryDecision) (detail : TaskErrorDetail) (nextAttemptAt : Z)
    (f t : task_row) : task_row :=
  t <| t_status := "PENDING" |> <| t_retry_count := t_retry_count f + 1 |>
    <| t_max_retries := MaxRetries (rd_policy d) |>
    <| t_total_failure_count := t_total_failure_count f + 1 |>
    <| t_next_retry_at := Some nextAttemptAt |> <| t_assigned_service := None |>
    <| t_assigned_at := None |> <| t_last_heartbeat_at := None |>
    <| t_error_detail := Some (detail_json detail) |>
    <| t_last_error_code := Some (ed_ErrorCode detail) |>
    <| t_last_error_class := Some (ed_ErrorClass detail) |> <| t_version ::= Z.succ |>.

Definition poison_reason (f : task_row) (threshold : Z) : string :=
  "total failures " +:+ Itoa (t_total_failure_count f + 1) +:+
  " reached poison-pill threshold " +:+ Itoa threshold.

(** The update of a task that has failed for good. *)
Definition dead (d : RetryDecision) (threshold : Z) (detail : TaskErrorDetail) (f t : task_row)
    : task_row :=
  t <| t_status := "FAILED" |> <| t_retry_count := t_retry_count f |>
    <| t_max_retries := MaxRetries (rd_policy d) |>
    <| t_total_failure_count := t_total_failure_count f + 1 |>
    <| t_next_retry_at := None |>
    <| t_completed_at ::= λ o, some_or o (Some (ed_OccurredAt detail)) |>
    <| t_assigned_service := None |> <| t_assigned_at := None |> <| t_last_heartbeat_at := None |>
    <| t_error_detail := Some (detail_json detail) |>
    <| t_last_error_code := Some (ed_ErrorCode detail) |>
    <| t_last_error_class := Some (ed_ErrorClass detail) |>
    <| t_is_poison_pill := rd_poison_pill d |>
    <| t_poison_pill_quarantined_at ::= λ o,
         if rd_poison_pill d then some_or o (Some (ed_OccurredAt detail)) else o |>
    <| t_poison_pill_reason ::= λ o,
         if rd_poison_pill d then Some (poison_reason f threshold) else o |>
    <| t_version ::= Z.succ |>.

Definition update_task (taskID : string) (f : task_row → task_row) : Tx database Z :=
  update_in tasks task_check (by_id t_id taskID) f.

Definition history_row (t : task_row) (d : RetryDecision) (detail : TaskErrorDetail)
    (next : option Z) (outcome : string) : retry_row :=
  {| rh_task_id := t_id t; rh_case_id := t_case_id t;
     rh_attempt_number := rd_attempt_number d; rh_retry_count_before := t_retry_count t;
     rh_max_retries := MaxRetries (rd_policy d);
     rh_backoff_strategy := BackoffStrategy (rd_policy d);
     rh_base_interval_seconds := BaseIntervalSeconds (rd_policy d);
     rh_max_interval_seconds := MaxIntervalSeconds (rd_policy d);
     rh_computed_interval_seconds := Z.quot (rd_computed_backoff d) Second;
     rh_scheduled_at := ed_OccurredAt detail; rh_next_attempt_at := next;
     rh_error_code := ed_ErrorCode detail; rh_error_class := ed_ErrorClass detail;
     rh_error_detail := detail_json detail; rh_source_service := ed_SourceService detail;
     rh_outcome := outcome |}.
Definition insertRetryHistory (h : retry_row) : Tx database unit :=
  insert_in retry_history retry_check never_conflict h.

Definition dead_letter (t : task_row) (d : RetryDecision) (detail : TaskErrorDetail) (id : string)
    : dlq_row :=
  {| dl_id := id; dl_task_id := t_id t; dl_case_id := t_case_id t;
     dl_failure_reason :=
       if TrimSpace (ed_Message detail) =?s "" then "task execution failed" else ed_Message detail;
     dl_error_detail := detail_json detail; dl_moved_at := ed_OccurredAt detail;
     dl_requeue_count := 0; dl_last_requeue_at := None; dl_is_poison_pill := rd_poison_pill d;
     dl_quarantine_released_at := None; dl_soft_deleted_at := None |}.

(** The trigger of migration 000028 lets no entry in for a case of another tenant. *)
Definition insertDLQEntry (t : task_row) (d : RetryDecision) (detail : TaskErrorDetail)
    : Tx database unit :=
  stmt (λ db,
    if negb (default_tenant db (t_case_id t)) then Err ErrSQL
    else
      rows ← insert_row dlq_check (λ e e', dl_id e =?s dl_id e')
               (dead_letter t d detail (env_uuid (uuid_pos db))) (task_dlq db);
      Ok (tt, db <| task_dlq := rows |> <| uuid_pos ::= S |>)).

Definition orchestrator_event (type caseID taskID : string) (payload : list (string * value))
    : event_row :=
  to_service "case-orchestrator" (new_event type (Some caseID) (Some taskID) payload).

Definition failed_event (t : task_row) (d : RetryDecision) (detail : TaskErrorDetail) : event_row :=
  orchestrator_event "TASK_FAILED" (t_case_id t) (t_id t)
    [("case_id", VString (t_case_id t)); ("task_id", VString (t_id t));
     ("task_definition_code", VString (t_task_definition_code t));
     ("stage_code", VString (t_stage_code t)); ("activity_code", VString (t_activity_code t));
     ("status", VString "FAILED"); ("retry_count", VInt (t_retry_count t));
     ("max_retries", VInt (MaxRetries (rd_policy d)));
     ("retries_exhausted", VBool (rd_retries_exhausted d));
     ("error_code", VString (ed_ErrorCode detail)); ("error_class", VString (ed_ErrorClass detail));
     ("poison_pill", VBool (rd_poison_pill d)); ("error_detail", detail_json detail)].
Definition publishTaskFailedEvent t d detail : Tx database unit :=
  sla_PublishEvent (failed_event t d detail).

Definition poison_event (t : task_row) (threshold : Z) (errorCode : string) : event_row :=
  orchestrator_event "TASK_POISON_PILL_DETECTED" (t_case_id t) (t_id t)
    [("case_id", VString (t_case_id t)); ("task_id", VString (t_id t));
     ("task_definition_code", VString (t_task_definition_code t));
     ("error_code", VString errorCode); ("reason", VString (poison_reason t threshold))].
Definition publishPoisonPillEvent t threshold errorCode : Tx database unit :=
  sla_PublishEvent (poison_event t threshold errorCode).

(** ** Escalating the case *)

Definition raise_exception (taskID severity reason : string) (c : case_row) : case_row :=
  c <| c_status := "EXCEPTION" |> <| c_exception_at ::= λ o, some_or o (Some env_now) |>
    <| c_exception_reason := Some reason |> <| c_exception_task_id := Some taskID |>
    <| c_exception_severity := Some severity |> <| c_row_version ::= Z.succ |>.

Definition can_except (caseID : string) (c : case_row) : bool :=
  (c_id c =?s caseID) && negb (str_mem (c_status c) ["COMPLETED"; "CANCELLED"; "REJECTED"]).

Definition exception_event (type caseID taskID severity reason : string) (sub : option string)
    : event_row :=
  orchestrator_event type caseID taskID
    ([("case_id", VString caseID); ("task_id", VString taskID); ("severity", VString severity);
      ("reason", VString reason); ("status", VString "EXCEPTION")] ++
     match sub with Some s => [("sub_case_id", VString s)] | None => [] end).

Definition updateCaseExceptionStatus (caseID taskID severity reason type : string)
    (sub : option string) : Tx database unit :=
  if TrimSpace caseID =?s "" then mret tt
  else
    n ← update_in cases case_check (can_except caseID) (raise_exception taskID severity reason);
    when (negb (n =? 0)) (sla_PublishEvent (exception_event type caseID taskID severity reason sub)).

Definition escalateCaseException (t : task_row) (parent : option string) (def : TaskDef)
    (detail : TaskErrorDetail) : Tx database unit :=
  let severity := ResolveFailureSeverity def in
  let reason := orElse (TrimSpace (ed_Message detail)) "task failed" in
  _ ← updateCaseExceptionStatus (t_case_id t) (t_id t) severity reason
        "CASE_EXCEPTION_RAISED" None;
  match parent ≫= nonblank with
  | None => mret tt
  | Some p =>
      updateCaseExceptionStatus p (t_id t) severity
        ("sub-case " +:+ t_case_id t +:+ " in exception due to task " +:+ t_id t)
        "CASE_EXCEPTION_PROPAGATED" (Some (t_case_id t))
  end.

(** ** Compensation *)

Definition compensation_key (taskID code : string) : string :=
  "compensate:" +:+ taskID +:+ ":" +:+ code.

Definition compensation_task (t : task_row) (loc : taskLocation) (code message id : string)
    : task_row :=
  blank_task id (t_case_id t) code "PENDING"
    <| t_activity_code := nonBlankOrDefault (tl_activity loc) (t_activity_code t) |>
    <| t_stage_code := nonBlankOrDefault (tl_stage loc) (t_stage_code t) |>
    <| t_max_retries := MaxRetries (ResolveRetryPolicy (td_failure (tl_def loc))) |>
    <| t_input_payload := VMap
         [("failed_task_id", VString (t_id t));
          ("failed_task_definition_code", VString (t_task_definition_code t));
          ("reason", VString message); ("source_case_id", VString (t_case_id t))] |>
    <| t_idempotency_key := compensation_key (t_id t) code |> <| t_created_at := env_now |>.

(** One statement: the insert unless the key is taken, and the identifier of the task
    that has it.  Triggers and checks come before the conflict. *)
Definition insert_or_find_task (caseID : string) (mk : string → task_row) : Tx database string :=
  stmt (λ db,
    let new := mk (env_uuid (uuid_pos db)) in
    if negb (default_tenant db caseID && task_check new) then Err ErrSQL
    else match sql_get (by_id t_idempotency_key (t_idempotency_key new)) (tasks db) with
         | Ok old => Ok (t_id old, db <| uuid_pos ::= S |>)
         | Err _ =>
             rows ← insert_row task_check task_conflict new (tasks db);
             Ok (t_id new, db <| tasks := rows |> <| uuid_pos ::= S |>)
         end).

Definition same_compensation (taskID code : string) (c : compensation_row) : bool :=
  (tc_failed_task_id c =?s taskID) && (tc_compensating_code c =?s code).

Definition new_compensation (t : task_row) (code compensatingID message id : string)
    : compensation_row :=
  {| tc_id := id; tc_case_id := t_case_id t; tc_failed_task_id := t_id t;
     tc_failed_code := t_task_definition_code t; tc_compensating_code := code;
     tc_compensating_task_id := Some compensatingID; tc_status := "PENDING";
     tc_started_at := env_now; tc_completed_at := None;
     tc_error_detail := Some (VMap [("source_task_id", VString (t_id t));
                                    ("reason", VString message)]) |}.

(** [INSERT .. ON CONFLICT (failed_task_id, compensating_task_code) DO UPDATE] *)
Definition upsert_compensation (t : task_row) (code compensatingID message : string)
    : Tx database unit :=
  stmt (λ db,
    let new := new_compensation t code compensatingID message (env_uuid (uuid_pos db)) in
    if negb (compensation_check new) then Err ErrSQL
    else if existsb (same_compensation (t_id t) code) (compensations db)
    then Ok (tt, db <| compensations := sql_update (same_compensation (t_id t) code)
                         (λ c, c <| tc_compensating_task_id := Some compensatingID |>)
                         (compensations db) |> <| uuid_pos ::= S |>)
    else Ok (tt, db <| compensations ::= λ l, l ++ [new] |> <| uuid_pos ::= S |>)).

Definition compensation_event (t : task_row) (code compensatingID : string) : event_row :=
  orchestrator_event "COMPENSATION_STARTED" (t_case_id t) compensatingID
    [("case_id", VString (t_case_id t)); ("failed_task_id", VString (t_id t));
     ("failed_task_definition_code", VString (t_task_definition_code t));
     ("compensating_task_code", VString code); ("compensating_task_id", VString compensatingID)].

Definition startCompensation (t : task_row) (cfg : CaseTypeConfig) (failed : taskLocation)
    (detail : TaskErrorDetail) : Tx database unit :=
  let code := TrimSpace (td_compensating_task_code (tl_def failed)) in
  if code =?s "" then mret tt
  else
    let loc := default {| tl_def := plain_task code; tl_activity := tl_activity failed;
                          tl_stage := tl_stage failed |}
                       (findTaskDefinitionWithLocation cfg code) in
    compensatingID ← insert_or_find_task (t_case_id t)
                       (compensation_task t loc code (ed_Message detail));
    _ ← upsert_compensation t code compensatingID (ed_Message detail);
    sla_PublishEvent (compensation_event t code compensatingID).

(** ** Handling a failure *)

Definition failure_detail (input : TaskFailureInput) (err : GoError) : TaskErrorDetail :=
  let errorCode := ExtractErrorCode (Some err) in
  buildTaskErrorDetail input err
    (orElse (TrimSpace (fi_SourceService input)) "unknown-service")
    errorCode (ClassifyErrorCode errorCode) env_clock.

Definition fail_for_good (t : task_row) (parent : option string) (cfg : CaseTypeConfig)
    (loc : taskLocation) (d : RetryDecision) (class : ErrorClass) (detail : TaskErrorDetail)
    : Tx database unit :=
  let def := td_failure (tl_def loc) in
  let threshold := ResolvePoisonPillThreshold def (Some (cfg_poison_pill_threshold cfg)) in
  _ ← update_task (t_id t) (dead d threshold detail t);
  _ ← insertRetryHistory (history_row t d detail None "FAILED_TERMINAL");
  _ ← insertDLQEntry t d detail;
  _ ← publishTaskFailedEvent t d detail;
  _ ← when (rd_poison_pill d) (publishPoisonPillEvent t threshold (ed_ErrorCode detail));
  _ ← when (ShouldEscalateCase def class (rd_retries_exhausted d))
        (escalateCaseException t parent def detail);
  when (negb (TrimSpace (td_compensating_task_code (tl_def loc)) =?s ""))
    (startCompensation t cfg loc detail).

Definition schedule_retry (t : task_row) (d : RetryDecision) (detail : TaskErrorDetail)
    : Tx database unit :=
  let next := ed_OccurredAt detail + rd_computed_backoff d in
  _ ← update_task (t_id t) (retried d detail next t);
  _ ← insertRetryHistory (history_row t d detail (Some next) "RETRY_SCHEDULED");
  publishTaskFailedEvent t d detail.

Definition HandleTaskFailure (input : TaskFailureInput) : Tx database unit :=
  let taskID := TrimSpace (fi_TaskID input) in
  if taskID =?s "" then throw (ErrMsg "taskID is required")
  else match fi_Err input with
  | None => throw (ErrMsg "err is required")
  | Some err =>
      '(t, parent, cfg, loc) ← lockFailureContext taskID;
      if isTerminalTaskStatus (t_status t) then throw (ErrMsg "task already in terminal state")
      else
        let errorCode := ExtractErrorCode (Some err) in
        let class := ClassifyErrorCode errorCode in
        let detail := failure_detail input err in
        d ← tx_of (evaluateRetryDecision (context_of t) (td_failure (tl_def loc))
                     (Some (cfg_poison_pill_threshold cfg)) errorCode class);
        if rd_should_retry d then schedule_retry t d detail
        else fail_for_good t parent cfg loc d class detail
  end.

(** ** The dead-letter queue *)

Definition next_uuid : Tx database string :=
  stmt (λ db, Ok (env_uuid (uuid_pos db), db <| uuid_pos ::= S |>)).

Definition requeued (key : string) (t : task_row) : task_row :=
  t <| t_status := "PENDING" |> <| t_retry_count := 0 |> <| t_next_retry_at := None |>
    <| t_assigned_service := None |> <| t_assigned_at := None |> <| t_started_at := None |>
    <| t_completed_at := None |> <| t_last_heartbeat_at := None |> <| t_error_detail := None |>
    <| t_is_poison_pill := false |> <| t_poison_pill_quarantined_at := None |>
    <| t_poison_pill_reason := None |> <| t_idempotency_key := key |> <| t_version ::= Z.succ |>.

Definition taken_out (e : dlq_row) : dlq_row :=
  e <| dl_soft_deleted_at := Some env_now |> <| dl_requeue_count ::= Z.succ |>
    <| dl_last_requeue_at := Some env_now |>
    <| dl_quarantine_released_at ::= λ o, if dl_is_poison_pill e then Some env_now else o |>.

Definition active_entry (e : dlq_row) : bool :=
  match dl_soft_deleted_at e with None => true | Some _ => false end.

Definition update_dlq (p : dlq_row → bool) (f : dlq_row → dlq_row) : Tx database Z :=
  update_in task_dlq dlq_check p f.

Definition requeue_row (e : dlq_row) (t : task_row) (operatorID key : string) : retry_row :=
  {| rh_task_id := dl_task_id e; rh_case_id := dl_case_id e; rh_attempt_number := 0;
     rh_retry_count_before := t_retry_count t; rh_max_retries := t_max_retries t;
     rh_backoff_strategy := "FIXED"; rh_base_interval_seconds := 1;
     rh_max_interval_seconds := 1; rh_computed_interval_seconds := 0;
     rh_scheduled_at := env_now; rh_next_attempt_at := None; rh_error_code := "DLQ_REQUEUE";
     rh_error_class := "UNKNOWN";
     rh_error_detail := VMap
       [("operator_id", VString operatorID); ("source", VString "DLQ_REQUEUE");
        ("dlq_id", VString (dl_id e)); ("task_id", VString (dl_task_id e));
        ("case_id", VString (dl_case_id e)); ("new_idempotency", VString key)];
     rh_source_service := operatorID; rh_outcome := "DLQ_REQUEUED" |}.

Definition requeued_event (e : dlq_row) (operatorID : string) : event_row :=
  orchestrator_event "TASK_REQUEUED" (dl_case_id e) (dl_task_id e)
    [("case_id", VString (dl_case_id e)); ("task_id", VString (dl_task_id e));
     ("dlq_id", VString (dl_id e)); ("operator_id", VString operatorID);
     ("requeue_count", VInt (dl_requeue_count e + 1));
     ("released_poison_pill", VBool (dl_is_poison_pill e))].

(** The status of the task is read and not looked at. *)
Definition RequeueDLQEntry (dlqID operatorID : string) : Tx database unit :=
  if TrimSpace dlqID =?s "" then throw (ErrMsg "dlqID is required")
  else if TrimSpace operatorID =?s "" then throw (ErrMsg "operatorID is required")
  else
    e ← get_in task_dlq (λ e, (dl_id e =?s dlqID) && active_entry e);
    t ← get_in tasks (by_id t_id (dl_task_id e));
    suffix ← next_uuid;
    let key := "requeue:" +:+ dl_task_id e +:+ ":" +:+ suffix in
    _ ← update_task (dl_task_id e) (requeued key);
    _ ← update_dlq (by_id dl_id dlqID) taken_out;
    _ ← insertRetryHistory (requeue_row e t operatorID key);
    sla_PublishEvent (requeued_event e operatorID).

Definition PoisonPillRelease (taskID : string) : Tx database unit :=
  if TrimSpace taskID =?s "" then throw (ErrMsg "taskID is required")
  else
    _ ← update_task taskID (λ t,
      t <| t_is_poison_pill := false |> <| t_poison_pill_quarantined_at := None |>
        <| t_poison_pill_reason := None |> <| t_version ::= Z.succ |>);
    _ ← update_dlq (λ e, (dl_task_id e =?s taskID) && active_entry e)
      (λ e, e <| dl_quarantine_released_at := Some env_now |>);
    mret tt.

(** ** The events of finished and failed tasks *)

Definition compensation_outcome (status : string) : option (string * string) :=
  if status =?s "COMPLETED" then Some ("COMPLETED", "COMPENSATION_COMPLETED")
  else if status =?s "FAILED" then Some ("FAILED", "COMPENSATION_FAILED")
  else None.

Definition compensates (taskID : string) (c : compensation_row) : bool :=
  match tc_compensating_task_id c with Some i => i =?s taskID | None => false end.

(** [UPDATE .. RETURNING], of which the first row is read. *)
Definition update_compensation (taskID status : string) : Tx database compensation_row :=
  stmt (λ db,
    c ← sql_get (compensates taskID) (compensations db);
    '(_, rows) ← update_rows compensation_check (compensates taskID)
      (λ c, c <| tc_status := status |> <| tc_completed_at := Some env_now |>) (compensations db);
    Ok (c, db <| compensations := rows |>)).

Definition SyncCompensationStateForTask (taskID taskStatus : string) : Tx database unit :=
  if TrimSpace taskID =?s "" then throw (ErrMsg "taskID is required")
  else match compensation_outcome taskStatus with
  | None => mret tt
  | Some (nextStatus, type) =>
      r ← tx_attempt (update_compensation taskID nextStatus);
      match r with
      | Err ErrNoRows => mret tt
      | Err e => throw e
      | Ok c =>
          sla_PublishEvent (orchestrator_event type (tc_case_id c) taskID
            [("case_id", VString (tc_case_id c)); ("task_id", VString taskID);
             ("compensation_id", VString (tc_id c)); ("compensation_status", VString nextStatus)])
      end
  end.

Definition syncCompensationForTask (drv : driver) (repo_has_sqlx : bool) (taskID status : string)
    (db : database) : result unit * database :=
  if repo_has_sqlx then within_tx drv (SyncCompensationStateForTask taskID status) db
  else (Ok tt, db).

Definition escalated_tx (event : event_row) : Tx database unit :=
  let taskID := default "" (ev_task_id event) in
  let payload :=
    [("case_id", match ev_case_id event with Some c => VString c | None => VNil end);
     ("task_id", VString taskID); ("reason", VString "retries_exhausted");
     ("original", VMap (ev_payload event))] in
  _ ← PublishEvent (to_service "escalation-service"
        (new_event "TASK_ESCALATED" (ev_case_id event) (ev_task_id event) payload));
  _ ← tx_attempt (InsertAuditEntry
    {| tr_case_id := default "" (ev_case_id event); tr_action := "TASK_ESCALATED";
       tr_entity_type := "TASK"; tr_entity_id := Some taskID; tr_actor_id := "case-orchestrator";
       tr_actor_type := "SYSTEM"; tr_delta := payload |});
  mret tt.

Definition onTaskFailed (drv : driver) (has_sqlx : bool) (event : event_row) (db : database)
    : result unit * database :=
  let taskID := default "" (ev_task_id event) in
  let '(r, db) := if taskID =?s "" then (Ok tt, db)
                  else syncCompensationForTask drv has_sqlx taskID "FAILED" db in
  match r with
  | Err e => (Err e, db)
  | Ok _ =>
      match str_assoc (ev_payload event) "retries_exhausted" with
      | Some (VBool true) => transact drv (escalated_tx event) db
      | _ => (Ok tt, db)
      end
  end.

Definition onTaskCompleted (set_in_array : Z → list string → value → result value)
    (drv : driver) (has_sqlx : bool) (event : event_row) (db : database)
    : result unit * database :=
  let '(caseID, _, _) := extractTaskContext (ev_payload event) in
  let taskID := orElse (default "" (ev_task_id event)) (strFromMap (ev_payload event) "task_id") in
  let '(r, db) :=
    if (taskID =?s "") || negb has_sqlx then (Ok tt, db)
    else match applyAggregationRulesForTask set_in_array drv caseID taskID db with
         | (Err e, db) => (Err e, db)
         | (Ok _, db) => syncCompensationForTask drv has_sqlx taskID "COMPLETED" db
         end in
  match r with
  | Err e => (Err e, db)
  | Ok _ => signal_activity drv (ev_payload event) db
  end.

End Failures.

(** ** What a committed run has done *)

Section Balances.
Context `{env : Env}.

Lemma balanced_update_task id f : Balanced (update_task id f).
Proof. apply balanced_update. Qed.
Lemma balanced_history h : Balanced (insertRetryHistory h).
Proof. apply balanced_insert. Qed.
Lemma balanced_dlq t d detail : Balanced (insertDLQEntry t d detail).
Proof. apply balanced_stmt. Qed.
#[local] Hint Resolve balanced_sla : balance.
Lemma balanced_exception a b c d e f : Balanced (updateCaseExceptionStatus a b c d e f).
Proof. unfold updateCaseExceptionStatus. balance. Qed.
Lemma balanced_find a b : Balanced (insert_or_find_task a b).
Proof. apply balanced_stmt. Qed.
Lemma balanced_upsert_compensation a b c d : Balanced (upsert_compensation a b c d).
Proof. apply balanced_stmt. Qed.
Lemma balanced_failed t d detail : Balanced (publishTaskFailedEvent t d detail).
Proof. apply balanced_sla. Qed.
Lemma balanced_poison t n code : Balanced (publishPoisonPillEvent t n code).
Proof. apply balanced_sla. Qed.
#[local] Hint Resolve balanced_exception : balance.
Lemma balanced_escalate t parent def detail : Balanced (escalateCaseException t parent def detail).
Proof. unfold escalateCaseException. cbv zeta. balance. Qed.
Lemma balanced_uuid : Balanced next_uuid.
Proof. apply balanced_stmt. Qed.
Lemma balanced_update_dlq p f : Balanced (update_dlq p f).
Proof. apply balanced_update. Qed.
Lemma balanced_lock taskID : Balanced (lockFailureContext taskID).
Proof. unfold lockFailureContext. balance. Qed.
End Balances.
#[export] Hint Resolve balanced_sla balanced_update_task balanced_history balanced_dlq
  balanced_exception balanced_lock balanced_find balanced_upsert_compensation
  balanced_failed balanced_poison balanced_escalate balanced_uuid balanced_update_dlq : balance.

Section Commits.
Context `{env : Env} (busy : bool).

Lemma commits_sla event db :
  pending_event event →
  commits busy (sla_PublishEvent event) db = Some (tt, outbox_with (approval_row event) db).
Proof.
  intros Hp. change (sla_PublishEvent event) with (approval_PublishEvent event).
  unfold commits. by rewrite exec_approval_PublishEvent.
Qed.

Lemma commits_sla_inv event db p :
  pending_event event → commits busy (sla_PublishEvent event) db = Some p →
  p = (tt, outbox_with (approval_row event) db).
Proof. intros Hp. rewrite commits_sla by done. congruence. Qed.

(** [db'] is [db] with events published. *)
Definition announced (db db' : database) (events : list event_row) : Prop :=
  db' = db <| outbox := outbox db ++ events |> <| deliveries := deliveries db' |>.

Lemma announced_one event db : announced db (outbox_with (approval_row event) db) [approval_row event].
Proof. done. Qed.

Lemma announced_fields db db' events :
  announced db db' events →
  tasks db' = tasks db ∧ cases db' = cases db ∧ task_dlq db' = task_dlq db ∧
  retry_history db' = retry_history db ∧ compensations db' = compensations db ∧
  uuid_pos db' = uuid_pos db ∧ outbox db' = outbox db ++ events ∧ users db' = users db ∧
  case_types db' = case_types db.
Proof. unfold announced. intros ->. done. Qed.

(** The cases with one of them in exception; [CHECK] permitting. *)
Definition excepted (caseID taskID severity reason : string) (rows : list case_row) : list case_row :=
  if TrimSpace caseID =?s "" then rows
  else sql_update (can_except caseID) (raise_exception taskID severity reason) rows.
Definition exception_admitted (caseID : string) (rows : list case_row) : Prop :=
  TrimSpace caseID = "" ∨ (∀ c, c ∈ rows → can_except caseID c = false) ∨
  str_mem "EXCEPTION" env_case_statuses = true.
Definition exceptions (type caseID taskID severity reason : string) (sub : option string)
    (rows : list case_row) : list event_row :=
  if (TrimSpace caseID =?s "") || (sql_count (can_except caseID) rows =? 0) then []
  else [approval_row (exception_event type caseID taskID severity reason sub)].

Lemma exception_commits caseID taskID severity reason type sub db u db' :
  TrimSpace type ≠ "" →
  commits busy (updateCaseExceptionStatus caseID taskID severity reason type sub) db
    = Some (u, db') →
  announced (db <| cases := excepted caseID taskID severity reason (cases db) |>) db'
    (exceptions type caseID taskID severity reason sub (cases db)) ∧
  exception_admitted caseID (cases db).
Proof.
  intros Htype. unfold updateCaseExceptionStatus, excepted, exceptions, exception_admitted, announced.
  destruct (String.eqb_spec (TrimSpace caseID) "") as [->|Hid]; cbn [orb].
  { rewrite commits_mret. intros [= _ <-]. rewrite app_nil_r. split; [by destruct db|by left]. }
  intros H. tx_bind_inv H n d E. apply commits_update_inv in E as (-> & -> & Hc).
  destruct (sql_count (can_except caseID) (cases db) =? 0) eqn:E; cbn [negb when] in H.
  - rewrite commits_mret in H. injection H as _ <-. rewrite app_nil_r. split; [by destruct db|].
    right. left. apply Z.eqb_eq in E. by apply sql_count_zero.
  - apply commits_sla_inv in H; [|by split]. injection H as _ ->. split; [done|].
    right. right. destruct (existsb (can_except caseID) (cases db)) eqn:Ex.
    + apply existsb_exists in Ex as (c & Hin%list_elem_of_In & Hp). specialize (Hc c Hin Hp).
      by apply andb_prop in Hc as [Hc _].
    + by rewrite sql_count_existsb, Ex in E.
Qed.

Lemma retry_commits t d detail db u db' :
  commits busy (schedule_retry t d detail) db = Some (u, db') →
  let next := ed_OccurredAt detail + rd_computed_backoff d in
  announced (db <| tasks := sql_update (by_id t_id (t_id t)) (retried d detail next t) (tasks db) |>
                <| retry_history := retry_history db ++
                     [history_row t d detail (Some next) "RETRY_SCHEDULED"] |>) db'
    [approval_row (failed_event t d detail)].
Proof.
  cbv zeta. unfold schedule_retry. intros H. tx_bind_inv H n d1 E.
  apply commits_update_inv in E as (_ & -> & _). tx_bind_inv H v d2 E.
  apply commits_insert_inv in E as (-> & _ & _).
  apply commits_sla_inv in H; [|auto with golib]. by injection H as _ ->.
Qed.
(** What escalating leaves: the case, then its parent. *)
Definition escalated_cases (t : task_row) (parent : option string) (def : TaskDef)
    (detail : TaskErrorDetail) (rows : list case_row) : list case_row :=
  let severity := ResolveFailureSeverity def in
  let rows := excepted (t_case_id t) (t_id t) severity
                (orElse (TrimSpace (ed_Message detail)) "task failed") rows in
  match parent ≫= nonblank with
  | None => rows
  | Some p => excepted p (t_id t) severity
      ("sub-case " +:+ t_case_id t +:+ " in exception due to task " +:+ t_id t) rows
  end.

Definition escalation_event (e : event_row) : Prop :=
  ev_type e = "CASE_EXCEPTION_RAISED" ∨ ev_type e = "CASE_EXCEPTION_PROPAGATED".

Lemma exceptions_types type caseID taskID severity reason sub rows :
  type = "CASE_EXCEPTION_RAISED" ∨ type = "CASE_EXCEPTION_PROPAGATED" →
  Forall escalation_event (exceptions type caseID taskID severity reason sub rows).
Proof. intros [-> | ->]; unfold exceptions; destruct (_ || _); repeat constructor; by vm_compute; auto. Qed.

Lemma escalate_commits t parent def detail db u db' :
  commits busy (escalateCaseException t parent def detail) db = Some (u, db') →
  exception_admitted (t_case_id t) (cases db) ∧
  ∃ events, Forall escalation_event events ∧
    announced (db <| cases := escalated_cases t parent def detail (cases db) |>) db' events.
Proof.
  unfold escalateCaseException, escalated_cases. intros H. tx_bind_inv H n d1 E.
  apply exception_commits in E as (E & Ha); [|by vm_compute]. split; [done|].
  destruct (parent ≫= nonblank) as [p|].
  - apply exception_commits in H as (H & _); [|by vm_compute]. unfold announced in *.
    rewrite E in H. eexists. split; [|rewrite H; cbn; rewrite <- app_assoc; reflexivity].
    apply Forall_app. split; apply exceptions_types; auto.
  - rewrite commits_mret in H. injection H as _ <-. eexists. split; [|exact E].
    apply exceptions_types. auto.
Qed.

(** ** Compensation *)

Definition compensation_code (loc : taskLocation) : string :=
  TrimSpace (td_compensating_task_code (tl_def loc)).
Definition compensation_location (cfg : CaseTypeConfig) (loc : taskLocation) : taskLocation :=
  default {| tl_def := plain_task (compensation_code loc); tl_activity := tl_activity loc;
             tl_stage := tl_stage loc |}
          (findTaskDefinitionWithLocation cfg (compensation_code loc)).

(** The tasks a compensation adds: none when one with its key is there already. *)
Definition compensation_tasks (t : task_row) (cfg : CaseTypeConfig) (loc : taskLocation)
    (detail : TaskErrorDetail) (id : string) (rows : list task_row) : list task_row :=
  if existsb (by_id t_idempotency_key (compensation_key (t_id t) (compensation_code loc))) rows
  then []
  else [compensation_task t (compensation_location cfg loc) (compensation_code loc)
          (ed_Message detail) id].

Lemma insert_or_find_commits caseID mk db id db' :
  commits busy (insert_or_find_task caseID mk) db = Some (id, db') →
  let new := mk (env_uuid (uuid_pos db)) in
  let key := t_idempotency_key new in
  default_tenant db caseID = true ∧
  db' = db <| tasks := tasks db ++
                if existsb (by_id t_idempotency_key key) (tasks db) then [] else [new] |>
           <| uuid_pos ::= S |> ∧
  (existsb (by_id t_idempotency_key key) (tasks db) = false →
     id = t_id new ∧ existsb (task_conflict new) (tasks db) = false) ∧
  (∃ t, t ∈ tasks db' ∧ t_id t = id ∧ t_idempotency_key t = key).
Proof.
  cbv zeta. unfold insert_or_find_task. rewrite commits_stmt. cbv zeta.
  set (new := mk _). destruct (default_tenant db caseID); cbn [negb andb]; [|done].
  destruct (task_check new) eqn:Hc; [|done].
  rewrite sql_get_existsb.
  destruct (sql_get _ (tasks db)) as [old|e] eqn:Eg; cbn.
  - intros [= <- <-]. apply sql_get_Ok in Eg as [Hin Hk]. apply String.eqb_eq in Hk.
    rewrite app_nil_r. split_and!; [done|by destruct db|done|]. by exists old.
  - unfold insert_row. rewrite Hc. cbn [andb].
    destruct (existsb (task_conflict new) (tasks db)) eqn:Ef; [done|]. cbn. intros [= <- <-].
    split_and!; [done..|]. exists new. split; [|done]. apply elem_of_app. right. by left.
Qed.
Lemma compensation_commits t cfg loc detail db u db' :
  compensation_code loc ≠ "" →
  commits busy (startCompensation t cfg loc detail) db = Some (u, db') →
  let code := compensation_code loc in
  let added := compensation_tasks t cfg loc detail (env_uuid (uuid_pos db)) (tasks db) in
  ∃ id, announced
      (db <| tasks := tasks db ++ added |>
          <| compensations := compensations db' |> <| uuid_pos := S (S (uuid_pos db)) |>) db'
      [approval_row (compensation_event t code id)] ∧
    (∃ x, x ∈ tasks db' ∧ t_id x = id ∧ t_idempotency_key x = compensation_key (t_id t) code) ∧
    (∀ new, new ∈ added → existsb (task_conflict new) (tasks db) = false) ∧
    (∃ c, c ∈ compensations db' ∧ same_compensation (t_id t) code c = true ∧
       tc_compensating_task_id c = Some id).
Proof.
  intros Hcode. cbv zeta. unfold startCompensation. fold (compensation_code loc).
  destruct (String.eqb_spec (compensation_code loc) ""); [done|]. cbv zeta.
  fold (compensation_location cfg loc). set (code := compensation_code loc) in *. intros H.
  tx_bind_inv H cid d1 E.
  apply insert_or_find_commits in E as (_ & -> & Hnew & (x & Hx & Hid & Hk)).
  tx_bind_inv H v d2 E.
  unfold upsert_compensation in E. rewrite commits_stmt in E. cbv zeta in E.
  destruct (negb _); [done|]. cbn [compensations] in E.
  apply commits_sla_inv in H; [|auto with golib]. injection H as _ ->. exists cid.
  set (mk := compensation_task _ _ _ _) in *.
  assert (compensation_tasks t cfg loc detail (env_uuid (uuid_pos db)) (tasks db) =
          if existsb (by_id t_idempotency_key (t_idempotency_key (mk (env_uuid (uuid_pos db)))))
               (tasks db) then [] else [mk (env_uuid (uuid_pos db))]) as -> by done.
  split_and!.
  - destruct (existsb (same_compensation _ _) _); injection E as _ <-; done.
  - exists x. split_and!; [|done|done]. destruct (existsb (same_compensation _ _) _);
      by injection E as _ <-.
  - intros new. destruct (existsb _ (tasks db)); [by intros []%elem_of_nil|].
    intros ->%list_elem_of_singleton. by apply Hnew.
  - destruct (existsb (same_compensation _ _) _) eqn:Ex; injection E as _ <-; cbn.
    + apply existsb_exists in Ex as (c & Hc%list_elem_of_In & Hs).
      exists (c <| tc_compensating_task_id := Some cid |>). split_and!; [|done..].
      apply sql_update_elem. exists c. by rewrite Hs.
    + eexists. split_and!; [apply elem_of_app; right; by left| |done].
      unfold same_compensation. cbn. by rewrite !string_eqb_refl.
Qed.

(** What a task that has failed for good leaves. *)
Definition final_events (t : task_row) (d : RetryDecision) (def : TaskDef) (cfg : CaseTypeConfig)
    (detail : TaskErrorDetail) : list event_row :=
  approval_row (failed_event t d detail) ::
  (if rd_poison_pill d
   then [approval_row (poison_event t
           (ResolvePoisonPillThreshold def (Some (cfg_poison_pill_threshold cfg)))
           (ed_ErrorCode detail))] else []).

Record dead_lettered (t : task_row) (parent : option string) (cfg : CaseTypeConfig)
    (loc : taskLocation) (d : RetryDecision) (class : ErrorClass) (detail : TaskErrorDetail)
    (db db' : database) : Prop := {
  dle_tenant : default_tenant db (t_case_id t) = true;
  dle_tasks :
    let threshold := ResolvePoisonPillThreshold (td_failure (tl_def loc))
                       (Some (cfg_poison_pill_threshold cfg)) in
    let failed := sql_update (by_id t_id (t_id t)) (dead d threshold detail t) (tasks db) in
    tasks db' = failed ++
      if compensation_code loc =?s "" then []
      else compensation_tasks t cfg loc detail (env_uuid (S (uuid_pos db))) failed;
  dle_fresh : ∀ x y, x ∈ drop (length (tasks db)) (tasks db') → y ∈ tasks db → t_id x ≠ t_id y;
  dle_history : retry_history db' =
    retry_history db ++ [history_row t d detail None "FAILED_TERMINAL"];
  dle_entry : task_dlq db' = task_dlq db ++ [dead_letter t d detail (env_uuid (uuid_pos db))];
  dle_new : ∀ e, e ∈ task_dlq db → dl_id e ≠ env_uuid (uuid_pos db);
  dle_cases : cases db' =
    if ShouldEscalateCase (td_failure (tl_def loc)) class (rd_retries_exhausted d)
    then escalated_cases t parent (td_failure (tl_def loc)) detail (cases db) else cases db;
  dle_admitted :
    ShouldEscalateCase (td_failure (tl_def loc)) class (rd_retries_exhausted d) = true →
    exception_admitted (t_case_id t) (cases db);
  dle_events : ∃ events, outbox db' =
    outbox db ++ final_events t d (td_failure (tl_def loc)) cfg detail ++ events ∧
    Forall (λ e, escalation_event e ∨ ev_type e = "COMPENSATION_STARTED") events;
  dle_compensation : compensation_code loc ≠ "" → ∃ c x, c ∈ compensations db' ∧
    same_compensation (t_id t) (compensation_code loc) c = true ∧ x ∈ tasks db' ∧
    tc_compensating_task_id c = Some (t_id x) ∧
    t_idempotency_key x = compensation_key (t_id t) (compensation_code loc);
}.
Lemma poison_commits t d threshold code db u db' :
  commits busy (when (rd_poison_pill d) (publishPoisonPillEvent t threshold code)) db = Some (u, db') →
  announced db db' (if rd_poison_pill d then [approval_row (poison_event t threshold code)] else []).
Proof.
  destruct (rd_poison_pill d); cbn [when]; intros H.
  - apply commits_sla_inv in H; [|auto with golib]. by injection H as _ ->.
  - injection H as _ <-. unfold announced. rewrite app_nil_r. by destruct db.
Qed.

Lemma maybe_escalate_commits t parent def class exhausted detail db u db' :
  commits busy (when (ShouldEscalateCase def class exhausted)
    (escalateCaseException t parent def detail)) db = Some (u, db') →
  (ShouldEscalateCase def class exhausted = true → exception_admitted (t_case_id t) (cases db)) ∧
  ∃ events, Forall escalation_event events ∧
    announced (db <| cases := if ShouldEscalateCase def class exhausted
                              then escalated_cases t parent def detail (cases db)
                              else cases db |>) db' events.
Proof.
  destruct (ShouldEscalateCase _ _ _); cbn [when]; intros H.
  - apply escalate_commits in H as (Ha & Hc). split; [by intros _|exact Hc].
  - injection H as _ <-. split; [done|]. exists []. split; [constructor|].
    unfold announced. rewrite app_nil_r. by destruct db.
Qed.

Lemma maybe_compensate_commits t cfg loc detail db u db' :
  commits busy (when (negb (compensation_code loc =?s "")) (startCompensation t cfg loc detail)) db
    = Some (u, db') →
  let added := if compensation_code loc =?s "" then []
               else compensation_tasks t cfg loc detail (env_uuid (uuid_pos db)) (tasks db) in
  (∃ events, Forall (λ e, ev_type e = "COMPENSATION_STARTED") events ∧
     outbox db' = outbox db ++ events) ∧
  tasks db' = tasks db ++ added ∧ cases db' = cases db ∧ task_dlq db' = task_dlq db ∧
  retry_history db' = retry_history db ∧
  (∀ new, new ∈ added → existsb (task_conflict new) (tasks db) = false) ∧
  (compensation_code loc ≠ "" → ∃ c x, c ∈ compensations db' ∧
    same_compensation (t_id t) (compensation_code loc) c = true ∧ x ∈ tasks db' ∧
    tc_compensating_task_id c = Some (t_id x) ∧
    t_idempotency_key x = compensation_key (t_id t) (compensation_code loc)).
Proof.
  cbv zeta. destruct (String.eqb_spec (compensation_code loc) "") as [E|E]; cbn [negb when]; intros H.
  - injection H as _ <-. rewrite app_nil_r. split; [exists []; by rewrite app_nil_r|].
    split_and!; try done. by intros new ?%elem_of_nil.
  - apply compensation_commits in H as (cid & Ha & (x & Hx & Hid & Hk) & Hn & c & Hc & Hs & Hcid); [|done].
    apply announced_fields in Ha as (Et & Ec & Ed & Eh & _ & _ & Eo & _).
    split; [eexists; split; [|exact Eo]; by repeat constructor|].
    split_and!; try done. intros _. exists c, x. rewrite Hid. by split_and!.
Qed.

Lemma final_commits t parent cfg loc d class detail db u db' :
  commits busy (fail_for_good t parent cfg loc d class detail) db = Some (u, db') →
  dead_lettered t parent cfg loc d class detail db db'.
Proof.
  unfold fail_for_good. cbv zeta. set (def := td_failure (tl_def loc)).
  set (threshold := ResolvePoisonPillThreshold _ _). intros H.
  tx_bind_inv H n d1 E. apply commits_update_inv in E as (_ & -> & _).
  tx_bind_inv H u1 d2 E. apply commits_insert_inv in E as (-> & _ & _).
  tx_bind_inv H u2 d3 E. unfold insertDLQEntry in E. rewrite commits_stmt in E.
  destruct (default_tenant _ _) eqn:Et; [|done]. cbn [negb] in E.
  destruct (insert_row _ _ _ _) as [rows|] eqn:Er in E; [|done]. cbn in E. injection E as _ <-.
  tx_bind_inv H u3 d4 E. apply commits_sla_inv in E; [|auto with golib]. injection E as _ ->.
  tx_bind_inv H u4 d5 E. apply poison_commits in E.
  tx_bind_inv H u5 d6 E6. apply maybe_escalate_commits in E6 as (Hadm & events & Hev & E6).
  apply announced_fields in E as (Et5 & Ec5 & Ed5 & Eh5 & _ & Eu5 & Eo5 & _).
  apply announced_fields in E6 as (Et6 & Ec6 & Ed6 & Eh6 & _ & Eu6 & Eo6 & _).
  apply insert_row_inv in Er as (-> & _ & Hnew). cbn in Et5, Ec5, Ed5, Eh5, Eu5, Eo5, Et6, Ec6, Ed6, Eh6, Eu6, Eo6.
  rewrite Et5 in Et6. rewrite Ec5 in Ec6, Hadm. rewrite Ed5 in Ed6. rewrite Eh5 in Eh6.
  rewrite Eu5 in Eu6. rewrite Eo5 in Eo6. clear Et5 Ec5 Ed5 Eh5 Eu5 Eo5.
  apply maybe_compensate_commits in H as
    ((events' & Hev' & Eo) & Etk & Ec & Ed & Eh & Hfresh & Hcomp).
  rewrite Et6, Eu6 in Etk, Hfresh. constructor; fold def threshold.
  - done.
  - done.
  - rewrite Etk. intros x y Hx Hy Hxy. rewrite drop_app_length' in Hx by (symmetry; apply sql_update_length).
    specialize (Hfresh x Hx). apply not_true_iff_false in Hfresh. apply Hfresh, existsb_exists.
    exists (if by_id t_id (t_id t) y then dead d threshold detail t y else y). split.
    + rewrite <- list_elem_of_In. apply sql_update_elem. eauto.
    + unfold task_conflict. assert (t_id (if by_id t_id (t_id t) y then dead d threshold detail t y else y) = t_id y)
        as -> by (by destruct (by_id _ _ y)).
      by rewrite Hxy, string_eqb_refl.
  - by rewrite Eh.
  - by rewrite Ed.
  - intros e He Hid. specialize (Hnew e He). cbn in Hnew. by rewrite Hid, string_eqb_refl in Hnew.
  - by rewrite Ec.
  - done.
  - exists (events ++ events'). split.
    + rewrite Eo, Eo6. unfold final_events. fold threshold. by rewrite <- !app_assoc.
    + apply Forall_app. split; [eapply Forall_impl; [exact Hev|]|eapply Forall_impl; [exact Hev'|]]; auto.
  - done.
Qed.
End Commits.

(** ** The outcome of a failure *)

Section Outcomes.
Context `{env : Env}.

(** The rows a failure is about. *)
Definition failing (db : database) (input : TaskFailureInput) (err : GoError) (t : task_row)
    (c : case_row) (ct : case_type_row) : Prop :=
  fi_Err input = Some err ∧
  sql_get (by_id t_id (TrimSpace (fi_TaskID input))) (tasks db) = Ok t ∧
  sql_get (by_id c_id (t_case_id t)) (cases db) = Ok c ∧
  sql_get (by_id ct_id (c_case_type_id c)) (case_types db) = Ok ct ∧
  isTerminalTaskStatus (t_status t) = false.

Definition decision (t : task_row) (cfg : CaseTypeConfig) (err : GoError) : result RetryDecision :=
  let code := ExtractErrorCode (Some err) in
  evaluateRetryDecision (context_of t) (td_failure (tl_def (task_location cfg t)))
    (Some (cfg_poison_pill_threshold cfg)) code (ClassifyErrorCode code).

Definition retried_later (t : task_row) (d : RetryDecision) (detail : TaskErrorDetail)
    (db db' : database) : Prop :=
  let next := ed_OccurredAt detail + rd_computed_backoff d in
  announced (db <| tasks := sql_update (by_id t_id (t_id t)) (retried d detail next t) (tasks db) |>
                <| retry_history := retry_history db ++
                     [history_row t d detail (Some next) "RETRY_SCHEDULED"] |>) db'
    [approval_row (failed_event t d detail)].

Lemma handle_commits busy input db u db' :
  commits busy (HandleTaskFailure input) db = Some (u, db') →
  ∃ err t c ct d, failing db input err t c ct ∧ decision t (ct_config ct) err = Ok d ∧
    if rd_should_retry d then retried_later t d (failure_detail input err) db db'
    else dead_lettered t (c_parent_case_id c) (ct_config ct) (task_location (ct_config ct) t) d
           (ClassifyErrorCode (ExtractErrorCode (Some err))) (failure_detail input err) db db'.
Proof.
  unfold HandleTaskFailure. cbv zeta. destruct (TrimSpace (fi_TaskID input) =?s ""); [done|].
  destruct (fi_Err input) as [err|] eqn:Ee; [|done]. intros H.
  tx_bind_inv H p d1 E. unfold lockFailureContext in E. tx_bind_inv E q d2 E1.
  apply commits_query_inv in E1 as [E1 ->].
  apply result_bind_Ok in E1 as (t & Et & E1). apply result_bind_Ok in E1 as (c & Ec & E1).
  apply result_bind_Ok in E1 as (ct & Ect & [= <-]). injection E as <- <-.
  destruct (isTerminalTaskStatus (t_status t)) eqn:Hterm; [done|].
  tx_bind_inv H d d3 E. rewrite commits_of in E.
  destruct (evaluateRetryDecision _ _ _ _ _) as [d'|] eqn:Ed; [|done]. injection E as -> <-.
  exists err, t, c, ct, d. split; [by split_and!|]. split; [done|].
  destruct (rd_should_retry d).
  - by eapply retry_commits.
  - by eapply final_commits.
Qed.

(** C29. A failure that is recorded has an error, an unfinished task and a decision.  A
    retry puts the task back with the counters and the backoff of the decision and
    leaves the cases, the dead-letter queue and the compensations alone; a terminal
    failure writes one entry to the queue, fails the task, puts its case and the parent
    case in exception when the policy escalates, and adds one compensating task unless
    its key exists.  Either way the history gets one row and TASK_FAILED is the first
    event published. *)
Theorem HandleTaskFailure_spec drv input db db' :
  within_tx drv (HandleTaskFailure input) db = (Ok tt, db') →
  ∃ err t c ct d, failing db input err t c ct ∧ decision t (ct_config ct) err = Ok d ∧
    if rd_should_retry d then retried_later t d (failure_detail input err) db db'
    else dead_lettered t (c_parent_case_id c) (ct_config ct) (task_location (ct_config ct) t) d
           (ClassifyErrorCode (ExtractErrorCode (Some err))) (failure_detail input err) db db'.
Proof. intros H%within_tx_commits. by eapply handle_commits. Qed.

(** ** Escalation *)

(** C31. Where the schema does not know the status EXCEPTION (migration 000035), a terminal
    failure that escalates the case can never be recorded, whatever the driver does: the
    handler answers an error and the tables are as before. *)
Theorem escalation_cannot_commit drv input db err t c ct d :
  str_mem "EXCEPTION" env_case_statuses = false →
  failing db input err t c ct → decision t (ct_config ct) err = Ok d →
  rd_should_retry d = false →
  ShouldEscalateCase (td_failure (tl_def (task_location (ct_config ct) t)))
    (ClassifyErrorCode (ExtractErrorCode (Some err))) (rd_retries_exhausted d) = true →
  TrimSpace (t_case_id t) ≠ "" → str_mem (c_status c) ["COMPLETED"; "CANCELLED"; "REJECTED"] = false →
  ∃ e, within_tx drv (HandleTaskFailure input) db = (Err e, db).
Proof.
  intros Hs (Hi & Ht & Hc & Hct & _) Hd Hr He Hb Hst. apply within_tx_no_commit.
  destruct (commits _ _ db) as [[u db']|] eqn:E; [|done]. exfalso.
  apply handle_commits in E as (err' & t' & c' & ct' & d' & (Hi' & Ht' & Hc' & Hct' & _) & Hd' & H).
  rewrite Hi in Hi'. injection Hi' as <-. rewrite Ht in Ht'. injection Ht' as <-.
  rewrite Hc in Hc'. injection Hc' as <-. rewrite Hct in Hct'. injection Hct' as <-.
  rewrite Hd in Hd'. injection Hd' as <-. rewrite Hr in H. apply dle_admitted in H as [H|[H|H]]; [done| |congruence|exact He].
  apply sql_get_Ok in Hc as [Hin Hid]. specialize (H c Hin). unfold can_except in H.
  unfold by_id in Hid. by rewrite Hid, Hst in H.
Qed.

End Outcomes.

(** ** The dead-letter queue *)

(** The entries of a task that nobody has requeued. *)
Definition letters (db : database) (taskID : string) : list dlq_row :=
  List.filter (λ e, (dl_task_id e =?s taskID) && active_entry e) (task_dlq db).

(** Exactly the failed tasks have an entry, and they have one. *)
Record dlq_consistent (db : database) : Prop := {
  dq_tasks : NoDup (map t_id (tasks db));
  dq_entries : NoDup (map dl_id (task_dlq db));
  dq_owner : ∀ e, e ∈ task_dlq db → ∃ t, t ∈ tasks db ∧ t_id t = dl_task_id e;
  dq_failed : ∀ t, t ∈ tasks db →
    length (letters db (t_id t)) = if t_status t =?s "FAILED" then 1%nat else 0%nat;
}.

Lemma consistent_update db db' taskID f :
  dlq_consistent db → tasks db' = sql_update (by_id t_id taskID) f (tasks db) →
  (∀ t, t_id (f t) = t_id t) → NoDup (map dl_id (task_dlq db')) →
  (∀ e, e ∈ task_dlq db' → ∃ t, t ∈ tasks db ∧ t_id t = dl_task_id e) →
  (∀ t, t ∈ tasks db → t_id t ≠ taskID → letters db' (t_id t) = letters db (t_id t)) →
  (∀ t, t ∈ tasks db → t_id t = taskID →
     length (letters db' taskID) = if t_status (f t) =?s "FAILED" then 1%nat else 0%nat) →
  dlq_consistent db'.
Proof.
  intros [Hn He Ho Hf] Ht Hid He' Ho' Hother Hself. split; [|done| |].
  - by rewrite Ht, (sql_update_map t_id).
  - intros e (t & Hin & E)%Ho'. exists (if by_id t_id taskID t then f t else t). split.
    + rewrite Ht. apply sql_update_elem. eauto.
    + destruct (by_id _ _ t); by rewrite ?Hid.
  - intros x Hx. rewrite Ht in Hx. apply sql_update_elem in Hx as (t & Hin & ->). unfold by_id.
    destruct (String.eqb_spec (t_id t) taskID) as [E|E].
    + rewrite Hid, E. by apply Hself.
    + rewrite Hother by done. by apply Hf.
Qed.

Lemma consistent_add db db' added :
  dlq_consistent db → tasks db' = tasks db ++ added → task_dlq db' = task_dlq db →
  (length added ≤ 1)%nat → (∀ x, x ∈ added → t_status x ≠ "FAILED") →
  (∀ x y, x ∈ added → y ∈ tasks db → t_id x ≠ t_id y) → dlq_consistent db'.
Proof.
  intros [Hn He Ho Hf] Ht Hd Hl Hs Hfresh. unfold letters in Hf.
  split; unfold letters; rewrite ?Ht, ?Hd; [|done| |].
  - rewrite map_app. apply NoDup_app. split_and!; [done| |].
    + intros i Hi Hj. apply list_elem_of_fmap in Hi as (y & -> & Hy).
      apply list_elem_of_fmap in Hj as (x & E & Hx). by apply (Hfresh x y).
    + destruct added as [|x [|]]; cbn in *; [constructor|apply NoDup_singleton|lia].
  - intros e (t & Hin & E)%Ho. exists t. split; [|done]. apply elem_of_app. by left.
  - intros x [Hx|Hx]%elem_of_app; [by apply Hf|].
    destruct (String.eqb_spec (t_status x) "FAILED") as [E|E]; [by apply Hs in E|].
    rewrite (proj2 (List.length_zero_iff_nil _)); [done|].
    destruct (List.filter _ (task_dlq db)) as [|e l] eqn:Ef; [done|].
    assert (In e (e :: l)) as Hin by (by left). rewrite <- Ef in Hin.
    apply filter_In in Hin as [Hin [Hid _]%andb_prop]. apply list_elem_of_In in Hin.
    apply Ho in Hin as (y & Hy & Hyid). apply String.eqb_eq in Hid.
    destruct (Hfresh x y Hx Hy). congruence.
Qed.

Lemma unfinished_not_failed status :
  isTerminalTaskStatus status = false → (status =?s "FAILED") = false.
Proof. intros H. destruct (String.eqb_spec status "FAILED") as [->|]; [by vm_compute in H|done]. Qed.

Section Queue.
Context `{env : Env}.

Lemma consistent_retried t d detail db db' :
  t ∈ tasks db → isTerminalTaskStatus (t_status t) = false →
  retried_later t d detail db db' → dlq_consistent db → dlq_consistent db'.
Proof.
  intros Ht Hs (Htk & _ & Hd & _)%announced_fields Hc. cbn in Htk, Hd.
  eapply (consistent_update db db' (t_id t)); [done|exact Htk|done|..]; unfold letters; rewrite ?Hd.
  - apply Hc.
  - apply Hc.
  - done.
  - intros x Hx Hid. cbn. pose proof (dq_failed db Hc t Ht) as H.
    by rewrite (unfinished_not_failed _ Hs) in H.
Qed.

Lemma compensation_tasks_bound t cfg loc detail id rows :
  (length (compensation_tasks t cfg loc detail id rows) ≤ 1)%nat ∧
  ∀ x, x ∈ compensation_tasks t cfg loc detail id rows → t_status x ≠ "FAILED".
Proof.
  unfold compensation_tasks. destruct (existsb _ rows); cbn; split; try lia.
  - by intros x ?%elem_of_nil.
  - by intros x ->%list_elem_of_singleton.
Qed.

Lemma consistent_dead t parent cfg loc d class detail db db' :
  t ∈ tasks db → isTerminalTaskStatus (t_status t) = false →
  dead_lettered t parent cfg loc d class detail db db' → dlq_consistent db → dlq_consistent db'.
Proof.
  intros Ht Hs H Hc. pose proof (dle_tasks _ _ _ _ _ _ _ _ _ H) as Htk. cbv zeta in Htk.
  set (failed := sql_update _ _ _) in Htk.
  set (db1 := db <| tasks := failed |> <| task_dlq := task_dlq db' |>).
  assert (Hc1 : dlq_consistent db1).
  { pose proof (dle_entry _ _ _ _ _ _ _ _ _ H) as Hd.
    eapply (consistent_update db db1 (t_id t)); [done|reflexivity|done|..]; unfold letters; cbn;
      rewrite ?Hd.
    - rewrite map_app. apply NoDup_app. split_and!; [apply Hc| |apply NoDup_singleton].
      intros i (e & -> & He)%list_elem_of_fmap Hi%list_elem_of_singleton.
      by apply (dle_new _ _ _ _ _ _ _ _ _ H e He).
    - intros e [He|He]%elem_of_app; [by apply Hc|]. apply list_elem_of_singleton in He as ->. eauto.
    - intros x _ Hx. rewrite List.filter_app. cbn.
      destruct (String.eqb_spec (t_id t) (t_id x)); [congruence|]. apply app_nil_r.
    - intros x _ _. rewrite List.filter_app, length_app. cbn. rewrite string_eqb_refl. cbn.
      pose proof (dq_failed db Hc t Ht) as H0. rewrite (unfinished_not_failed _ Hs) in H0.
      unfold letters in H0. lia. }
  eapply (consistent_add db1); [done|exact Htk|done|..].
  - destruct (compensation_code loc =?s ""); [cbn; lia|apply compensation_tasks_bound].
  - destruct (compensation_code loc =?s ""); [by intros x ?%elem_of_nil|apply compensation_tasks_bound].
  - intros x y Hx Hy. apply sql_update_elem in Hy as (y0 & Hy0 & ->).
    assert (t_id (if by_id t_id (t_id t) y0 then
       dead d (ResolvePoisonPillThreshold (td_failure (tl_def loc))
                 (Some (cfg_poison_pill_threshold cfg))) detail t y0 else y0) = t_id y0) as ->
      by (by destruct (by_id _ _ y0)).
    eapply (dle_fresh _ _ _ _ _ _ _ _ _ H); [|done].
    rewrite Htk, drop_app_length'; [done|]. symmetry. apply sql_update_length.
Qed.

Definition requeue_key (taskID suffix : string) : string :=
  "requeue:" +:+ taskID +:+ ":" +:+ suffix.

Lemma requeue_commits busy dlqID operatorID db u db' :
  commits busy (RequeueDLQEntry dlqID operatorID) db = Some (u, db') →
  ∃ e t, sql_get (λ e, (dl_id e =?s dlqID) && active_entry e) (task_dlq db) = Ok e ∧
    sql_get (by_id t_id (dl_task_id e)) (tasks db) = Ok t ∧
    let key := requeue_key (dl_task_id e) (env_uuid (uuid_pos db)) in
    announced (db <| tasks := sql_update (by_id t_id (dl_task_id e)) (requeued key) (tasks db) |>
                  <| task_dlq := sql_update (by_id dl_id dlqID) taken_out (task_dlq db) |>
                  <| retry_history := retry_history db ++ [requeue_row e t operatorID key] |>
                  <| uuid_pos := S (uuid_pos db) |>) db'
      [approval_row (requeued_event e operatorID)].
Proof.
  unfold RequeueDLQEntry. destruct (TrimSpace dlqID =?s ""); [done|].
  destruct (TrimSpace operatorID =?s ""); [done|]. intros H.
  tx_bind_inv H e d1 E. apply commits_get_inv in E as [Ee ->].
  tx_bind_inv H t d2 E. apply commits_get_inv in E as [Et ->].
  exists e, t. split; [done|]. split; [done|]. cbv zeta.
  tx_bind_inv H sfx d3 E. unfold next_uuid in E. rewrite commits_stmt in E. injection E as <- <-.
  cbv zeta in H. tx_bind_inv H n d4 E. apply commits_update_inv in E as (_ & -> & _).
  tx_bind_inv H m d5 E. apply commits_update_inv in E as (_ & -> & _).
  tx_bind_inv H v d6 E. apply commits_insert_inv in E as (-> & _ & _).
  apply commits_sla_inv in H; [|auto with golib]. by injection H as _ ->.
Qed.

(** The entries of a task after entries are rewritten without changing whose they are. *)
Lemma letters_update p f rows taskID :
  (∀ e, dl_task_id (f e) = dl_task_id e) →
  (∀ e, p e = true → dl_task_id e = taskID → active_entry e = active_entry (f e)) →
  length (List.filter (λ e, (dl_task_id e =?s taskID) && active_entry e) (sql_update p f rows)) =
  length (List.filter (λ e, (dl_task_id e =?s taskID) && active_entry e) rows).
Proof.
  intros Ht Ha. unfold sql_update. induction rows as [|e rows IH]; cbn; [done|].
  destruct (p e) eqn:Ep; cbn.
  - rewrite Ht. destruct (String.eqb_spec (dl_task_id e) taskID) as [E|E]; cbn; [|done].
    rewrite <- Ha by done. destruct (active_entry e); cbn; by rewrite IH.
  - destruct (_ && _); cbn; by rewrite IH.
Qed.

Lemma letters_taken rows e :
  NoDup (map dl_id rows) → e ∈ rows → active_entry e = true →
  S (length (List.filter (λ x, (dl_task_id x =?s dl_task_id e) && active_entry x)
               (sql_update (by_id dl_id (dl_id e)) taken_out rows))) =
  length (List.filter (λ x, (dl_task_id x =?s dl_task_id e) && active_entry x) rows).
Proof.
  intros Hn He Ha. induction rows as [|x rows IH]; [by apply elem_of_nil in He|].
  cbn in Hn. apply NoDup_cons in Hn as [Hx Hn]. cbn [sql_update map]. unfold by_id at 1.
  destruct (String.eqb_spec (dl_id x) (dl_id e)) as [E|E].
  - apply elem_of_cons in He as [<-|He].
    2: { destruct Hx. apply list_elem_of_fmap. exists e. by split. }
    change (map _ rows) with (sql_update (by_id dl_id (dl_id e)) taken_out rows).
    rewrite sql_update_none.
    + cbn. rewrite string_eqb_refl, Ha. cbn. done.
    + intros r Hr. unfold by_id. destruct (String.eqb_spec (dl_id r) (dl_id e)) as [E'|]; [|done].
      destruct Hx. apply list_elem_of_fmap. exists r. by split.
  - apply elem_of_cons in He as [<-|He]; [done|]. specialize (IH Hn He).
    change (map _ rows) with (sql_update (by_id dl_id (dl_id e)) taken_out rows).
    cbn [List.filter]. destruct (_ && _); cbn [length]; by rewrite <- IH.
Qed.

Lemma consistent_requeued busy dlqID operatorID db u db' :
  commits busy (RequeueDLQEntry dlqID operatorID) db = Some (u, db') →
  dlq_consistent db → dlq_consistent db' ∧ ∃ e t, e ∈ task_dlq db ∧ dl_id e = dlqID ∧
    active_entry e = true ∧ t ∈ tasks db ∧ t_id t = dl_task_id e ∧ t_status t = "FAILED" ∧
    letters db' (t_id t) = [].
Proof.
  intros (e & t & Ee & Et & H)%requeue_commits Hc. cbv zeta in H.
  apply announced_fields in H as (Htk & _ & Hd & _). cbn in Htk, Hd.
  apply sql_get_Ok in Ee as [He [Hid Ha]%andb_prop]. apply String.eqb_eq in Hid. subst dlqID.
  apply sql_get_Ok in Et as [Ht Htid%String.eqb_eq].
  pose proof (letters_taken (task_dlq db) e (dq_entries db Hc) He Ha) as Hl.
  pose proof (dq_failed db Hc t Ht) as Hf. unfold letters in Hf. rewrite Htid, <- Hl in Hf.
  destruct (String.eqb_spec (t_status t) "FAILED") as [Hst|]; [|done]. injection Hf as Hf.
  assert (Hnil : letters db' (dl_task_id e) = []).
  { unfold letters. rewrite Hd. by apply List.length_zero_iff_nil. }
  split.
  - eapply (consistent_update db db' (dl_task_id e)); [done|exact Htk|done|..]; rewrite ?Hd.
    + rewrite (sql_update_map dl_id) by done. apply Hc.
    + intros x (y & Hy & ->)%sql_update_elem.
      destruct (dq_owner db Hc y Hy) as (z & Hz & E). exists z. split; [done|].
      rewrite E. by destruct (by_id _ _ y).
    + intros x Hx Hne. unfold letters. rewrite Hd. apply filter_update_other.
      intros y Hy E. change (dl_task_id (taken_out y)) with (dl_task_id y).
      destruct (String.eqb_spec (dl_task_id y) (t_id x)) as [E'|]; [|by split].
      destruct Hne. rewrite <- E'. f_equal. apply (key_unique dl_id (task_dlq db)); [apply Hc|done..|].
      by apply String.eqb_eq.
    + intros x _ _. by rewrite Hnil.
  - exists e, t. by rewrite Htid.
Qed.

Lemma consistent_released busy taskID db u db' :
  commits busy (PoisonPillRelease taskID) db = Some (u, db') →
  dlq_consistent db → dlq_consistent db'.
Proof.
  unfold PoisonPillRelease. destruct (TrimSpace taskID =?s ""); [done|]. intros H Hc.
  tx_bind_inv H n d1 E. apply commits_update_inv in E as (_ & -> & _).
  tx_bind_inv H m d2 E. apply commits_update_inv in E as (_ & -> & _). injection H as _ <-.
  assert (Hsame : ∀ x f, (∀ e, dl_task_id (f e) = dl_task_id e) →
    (∀ e, active_entry (f e) = active_entry e) → ∀ p,
    length (List.filter (λ e, (dl_task_id e =?s x) && active_entry e) (sql_update p f (task_dlq db)))
    = length (letters db x)).
  { intros x f Hf Hf' p. apply letters_update; [done|]. intros e _ _. by rewrite Hf'. }
  destruct Hc as [Hn He Ho Hf]. split; cbn.
  - by rewrite (sql_update_map t_id).
  - by rewrite (sql_update_map dl_id).
  - intros x (y & Hy & ->)%sql_update_elem. destruct (Ho y Hy) as (z & Hz & E).
    eexists. split; [apply sql_update_elem; by exists z|].
    destruct (by_id _ _ z), (_ && _); done.
  - intros x (y & Hy & ->)%sql_update_elem. unfold letters. cbn.
    rewrite (Hsame _ (λ e, e <| dl_quarantine_released_at := Some env_now |>)) by done.
    specialize (Hf y Hy). by destruct (by_id _ _ y).
Qed.
End Queue.

(** One call of the service, in an environment of its own, on any driver. *)
Inductive exception_step (db db' : database) : Prop :=
  | failure_step (env : Env) drv input r :
      within_tx drv (HandleTaskFailure input) db = (r, db') → exception_step db db'
  | requeue_step (env : Env) drv dlqID operatorID r :
      within_tx drv (RequeueDLQEntry dlqID operatorID) db = (r, db') → exception_step db db'
  | release_step (env : Env) drv taskID r :
      within_tx drv (PoisonPillRelease taskID) db = (r, db') → exception_step db db'.

Lemma within_tx_keeps {A} drv (m : Tx database A) (P : database → Prop) db r db' :
  (∀ a, commits (busy_while_open drv) m db = Some (a, db') → P db → P db') →
  within_tx drv m db = (r, db') → P db → P db'.
Proof.
  intros Hm H Hp. destruct r as [a|e].
  - apply within_tx_commits in H. by eapply Hm.
  - by apply within_tx_rollback in H as ->.
Qed.

(** C30. The dead-letter queue holds exactly the failed tasks: over any sequence of
    failures, requeues and releases, whatever fails on the way, a task has one entry
    that is not taken out if it is FAILED and none otherwise. *)
Theorem queue_holds_the_failed_tasks db db' :
  rtc exception_step db db' → dlq_consistent db → dlq_consistent db'.
Proof.
  induction 1 as [|db db1 db' [env drv input r H|env drv dlqID op r H|env drv taskID r H] _ IH];
    [done|..]; intros Hc; apply IH; revert Hc; eapply within_tx_keeps; [|exact H| |exact H| |exact H];
    intros a Hcm Hc.
  - apply handle_commits in Hcm as (err & t & c & ct & d & (_ & Ht & _ & _ & Hs) & _ & Hd).
    apply sql_get_Ok in Ht as [Ht _]. destruct (rd_should_retry d).
    + by eapply consistent_retried.
    + by eapply consistent_dead.
  - by eapply consistent_requeued.
  - by eapply consistent_released.
Qed.

(** ** Requeueing *)

Lemma decision_poison `{env : Env} t cfg err d :
  ResolvePoisonPillThreshold (td_failure (tl_def (task_location cfg t)))
    (Some (cfg_poison_pill_threshold cfg)) ≤ t_total_failure_count t + 1 →
  decision t cfg err = Ok d → rd_poison_pill d = true.
Proof.
  unfold decision, evaluateRetryDecision. set (threshold := ResolvePoisonPillThreshold _ _). intros Hn.
  assert (0 < threshold).
  { subst threshold. unfold ResolvePoisonPillThreshold.
    repeat match goal with |- context [if ?b then _ else _] => destruct b eqn:? end; lia. }
  destruct (MaxRetries _ <? 0); [done|]. intros ([b n] & _ & [= <-])%result_bind_Ok. cbn. lia.
Qed.

(** An entry is requeued once: its task, which had failed, is PENDING again with no
    retries counted and keeps its number of failures, the case keeps the status it has,
    and the entry cannot be requeued a second time.  A poison pill that is requeued is one
    again at its next failure. *)
Theorem RequeueDLQEntry_spec `{env : Env} drv dlqID operatorID db db' :
  dlq_consistent db → within_tx drv (RequeueDLQEntry dlqID operatorID) db = (Ok tt, db') →
  ∃ e t key, e ∈ task_dlq db ∧ dl_id e = dlqID ∧ active_entry e = true ∧
    t ∈ tasks db ∧ t_id t = dl_task_id e ∧ t_status t = "FAILED" ∧
    sql_get (by_id t_id (t_id t)) (tasks db') = Ok (requeued key t) ∧
    letters db' (t_id t) = [] ∧ cases db' = cases db ∧
    (∀ (env' : Env) drv' operatorID' r db'',
       within_tx drv' (RequeueDLQEntry dlqID operatorID') db' = (r, db'') → is_Ok r = false) ∧
    (∀ cfg err d,
       ResolvePoisonPillThreshold (td_failure (tl_def (task_location cfg (requeued key t))))
         (Some (cfg_poison_pill_threshold cfg)) ≤ t_total_failure_count t + 1 →
       decision (requeued key t) cfg err = Ok d →
       rd_poison_pill d = true ∧ rd_should_retry d = false).
Proof.
  intros Hc H%within_tx_commits. pose proof H as Hq.
  apply consistent_requeued in Hq as (_ & e & t & He & Hid & Ha & Ht & Htid & Hst & Hl); [|done].
  apply requeue_commits in H as (e' & t' & Ee & Et & H). cbv zeta in H.
  apply sql_get_Ok in Ee as [He' [Hid'%String.eqb_eq Ha']%andb_prop].
  assert (e' = e) as -> by (apply (key_unique dl_id (task_dlq db)); [apply Hc|done|done|congruence]).
  rewrite <- Htid in Et, H. set (key := requeue_key _ _) in H. apply sql_get_Ok in Et as [Ht' E%String.eqb_eq].
  assert (t' = t) as -> by (apply (key_unique t_id (tasks db)); [apply Hc|done..]).
  apply announced_fields in H as (Htk & Hcs & Hd & _). cbn in Htk, Hcs, Hd.
  exists e, t, key. split_and!; try done.
  - rewrite Htk. apply by_id_update; [done|]. apply (sql_get_unique t_id); [apply Hc|done].
  - intros env' drv' op' r db'' H'. destruct r as [u|]; [|done]. exfalso.
    apply within_tx_commits, requeue_commits in H' as (x & _ & Ex & _).
    apply sql_get_Ok in Ex as [Hx [Hidx%String.eqb_eq Hax]%andb_prop].
    rewrite Hd in Hx. apply sql_update_elem in Hx as (y & Hy & ->). unfold by_id in Hax, Hidx.
    destruct (String.eqb_spec (dl_id y) dlqID) as [Ey|Ey]; [done|congruence].
  - intros cfg err d Hn Hd'. assert (rd_poison_pill d = true) as Hp
      by exact (decision_poison (requeued key t) cfg err d Hn Hd').
    split; [done|]. unfold decision, evaluateRetryDecision in Hd'.
    destruct (MaxRetries _ <? 0); [done|]. apply result_bind_Ok in Hd' as ([b n] & _ & [= <-]). cbn in *.
    rewrite Hp. by rewrite andb_false_r.
Qed.

(** ** Concrete failures *)

Definition failing_type : case_type_row :=
  blank_case_type "loan" "LOAN" 1
    (plain_config
       [plain_stage "REVIEW" 1 [plain_activity "CREDIT"
          [{| td_failure := td_failure (plain_task "BOOK"); td_config := None; td_sla := None;
              td_requires_approval := false; td_approval := None;
              td_is_document_verification := false; td_compensating_task_code := "UNDO";
              td_inputs := []; td_input_schema := []; td_output_schema := [] |};
           plain_task "UNDO"]]]).
Definition failing_db : database :=
  empty_db <| case_types := [failing_type] |>
           <| cases := [blank_case "case-1" "IN_PROGRESS"] |>
           <| tasks := [blank_task "task-1" "case-1" "BOOK" "IN_PROGRESS"] |>.
Definition failure (taskID code : string) : TaskFailureInput :=
  {| fi_TaskID := taskID; fi_SourceService := "booking";
     fi_Err := Some {| ge_code := Some code; ge_deadline_exceeded := false;
                       ge_net_timeout := false; ge_message := "booking failed" |};
     fi_RecoveredStack := None; fi_carried_stack := None; fi_upstream := None |}.
Definition fail_task (statuses : list string) (taskID code : string) (db : database) :=
  within_tx (reliable true) (HandleTaskFailure (env := sample_env statuses) (failure taskID code)) db.
Definition requeue (dlqID : string) (db : database) :=
  within_tx (reliable true)
    (RequeueDLQEntry (env := sample_env case_statuses_25) dlqID "operator") db.
Definition failed_db : database := snd (fail_task case_statuses_25 "task-1" "NOT_FOUND" failing_db).

Example booking_fails :
  map (λ t, (t_task_definition_code t, t_status t)) (tasks failed_db) =
    [("BOOK", "FAILED"); ("UNDO", "PENDING")] ∧
  map c_status (cases failed_db) = ["EXCEPTION"] ∧
  map dl_task_id (task_dlq failed_db) = ["task-1"] ∧
  map ev_type (outbox failed_db) =
    ["TASK_FAILED"; "CASE_EXCEPTION_RAISED"; "COMPENSATION_STARTED"].
Proof. by vm_compute. Qed.

(** The compensating task is created once: when the task fails again after a requeue, no
    second one is, and its start is announced all the same. *)
Example second_failure_is_not_compensated :
  let again := snd (fail_task case_statuses_25 "task-1" "NOT_FOUND"
                 (snd (requeue "uuid-0" failed_db))) in
  map (λ t, (t_task_definition_code t, t_status t)) (tasks again) =
    [("BOOK", "FAILED"); ("UNDO", "PENDING")] ∧
  length (compensations again) = 1%nat ∧
  length (List.filter (λ e, ev_type e =?s "COMPENSATION_STARTED") (outbox again)) = 2%nat.
Proof. by vm_compute. Qed.

(** A compensating task that is to be retried is announced with TASK_FAILED, and the handler
    of that event takes the compensation for failed. *)
Example retried_compensation_counts_as_failed :
  let db := snd (fail_task case_statuses_25 "uuid-1" "DOWNSTREAM_503" failed_db) in
  let after := snd (onTaskFailed (env := sample_env case_statuses_25) (reliable true) true
                 (List.last (outbox db) (new_event "" None None [])) db) in
  map t_status (tasks after) = ["FAILED"; "PENDING"] ∧
  map tc_status (compensations after) = ["FAILED"] ∧
  option_map ev_type (last (outbox after)) = Some "COMPENSATION_FAILED".
Proof. by vm_compute. Qed.

Lemma failing_db_consistent : dlq_consistent failing_db.
Proof.
  constructor; cbn.
  - apply NoDup_singleton.
  - constructor.
  - by intros e ?%elem_of_nil.
  - by intros t ->%list_elem_of_singleton.
Qed.

Lemma HandleTaskFailure_spec_witness :
  let env := sample_env case_statuses_25 in
  let run := within_tx (reliable true) (HandleTaskFailure (failure "task-1" "NOT_FOUND")) failing_db in
  run = (Ok tt, snd run) ∧ length (task_dlq (snd run)) = 1%nat.
Proof.
  intros env run. assert (run = (Ok tt, snd run)) as H by (vm_compute; reflexivity).
  split; [exact H|].
  destruct (HandleTaskFailure_spec (reliable true) (failure "task-1" "NOT_FOUND") failing_db
    (snd run) H) as (err & t & c & ct & d & Hf & Hd & Hr).
  destruct Hf as (He & Ht & Hc & Hct & _). destruct (rd_should_retry d) eqn:Es.
  - exfalso. injection He as <-. injection Ht as <-. injection Hc as <-. injection Hct as <-.
    vm_compute in Hd. injection Hd as <-. done.
  - by rewrite (dle_entry _ _ _ _ _ _ _ _ _ Hr).
Defined.

Lemma escalation_cannot_commit_witness :
  ∃ e, fail_task case_statuses_35 "task-1" "NOT_FOUND" failing_db = (Err e, failing_db).
Proof.
  unfold fail_task. eapply (escalation_cannot_commit (env := sample_env case_statuses_35)).
  - by vm_compute.
  - split_and!; [reflexivity|by vm_compute..].
  - by vm_compute.
  - done.
  - by vm_compute.
  - by vm_compute.
  - by vm_compute.
Defined.

Lemma queue_holds_the_failed_tasks_witness :
  let env := sample_env case_statuses_25 in
  let run1 := within_tx (reliable true) (HandleTaskFailure (failure "task-1" "NOT_FOUND")) failing_db in
  let run2 := within_tx (reliable true) (RequeueDLQEntry "uuid-0" "operator") (snd run1) in
  dlq_consistent failing_db ∧ dlq_consistent (snd run2).
Proof.
  intros env run1 run2. split; [exact failing_db_consistent|].
  apply (queue_holds_the_failed_tasks failing_db); [|exact failing_db_consistent].
  apply (rtc_l _ _ (snd run1)); [|apply rtc_once].
  - exact (failure_step _ _ env (reliable true) _ (fst run1) (surjective_pairing run1)).
  - exact (requeue_step _ _ env (reliable true) _ _ (fst run2) (surjective_pairing run2)).
Defined.

Lemma failed_db_consistent : dlq_consistent failed_db.
Proof.
  constructor.
  - vm_compute. repeat (constructor; [set_solver|]). constructor.
  - vm_compute. apply NoDup_singleton.
  - vm_compute. intros e ->%list_elem_of_singleton. eexists. split; [by left|done].
  - vm_compute. intros t [->|[->|[]%elem_of_nil]%elem_of_cons]%elem_of_cons; reflexivity.
Qed.

Lemma RequeueDLQEntry_spec_witness :
  let env := sample_env case_statuses_25 in
  let run := within_tx (reliable true) (RequeueDLQEntry "uuid-0" "operator") failed_db in
  run = (Ok tt, snd run) ∧ letters (snd run) "task-1" = [].
Proof.
  intros env run. assert (run = (Ok tt, snd run)) as H by (vm_compute; reflexivity).
  split; [exact H|].
  destruct (RequeueDLQEntry_spec (reliable true) "uuid-0" "operator" failed_db (snd run)
    failed_db_consistent H) as (e & t & key & He & _ & _ & _ & Htid & _ & _ & Hl & _).
  vm_compute in He. apply list_elem_of_singleton in He as ->. rewrite Htid in Hl. exact Hl.
Defined.
