(* ===== verification/Assignment.v ===== *)
(** * Assigning tasks to workers (internal/engine/assignment, with the TASK_QUEUED and
    TASK_SLA_BREACHED events of internal/engine/worker.go)

    The strategies that choose a worker of a workbasket, and the operations that hand a
    task to a basket, a user or a team, let a user claim it, and take it back. *)

From Stdlib Require Import Ascii String ZArith Lia.
From stdpp Require Import base list strings sorting.
From S2P Require Import Prelude ApprovalExpr SqlTx Schema Outbox TenantScope EventQueue.

Open Scope Z_scope.
Open Scope go_scope.

(** ** guard.go *)

Definition assignment_table : list (string * list (string * list string)) :=
  [ ("UNASSIGNED",
      [ ("WORKBASKET_QUEUED", ["SYSTEM"; "SUPERVISOR"]);
        ("ASSIGNED", ["SYSTEM"; "SUPERVISOR"]) ]);
    ("WORKBASKET_QUEUED", [ ("ASSIGNED", ["WORKER"; "SYSTEM"; "SUPERVISOR"]) ]);
    ("ASSIGNED",
      [ ("DELEGATED", ["WORKER"; "SUPERVISOR"; "SYSTEM"]);
        ("REASSIGNED", ["SUPERVISOR"]);
        ("WORKBASKET_QUEUED", ["SUPERVISOR"]);
        ("UNASSIGNED", ["SUPERVISOR"]) ]);
    ("DELEGATED", [ ("ASSIGNED", ["WORKER"]) ]) ]%string.

Definition ValidateAssignmentTransition (current requested initiatedBy role : string)
    : result unit :=
  match str_assoc assignment_table current with
  | None => Err (ErrInvalidStateTransition current requested)
  | Some targets =>
      match str_assoc targets requested with
      | None => Err (ErrInvalidStateTransition current requested)
      | Some allowed =>
          if str_mem role allowed then Ok tt
          else Err (ErrInvalidStateTransition current requested)
      end
  end.

(** ** strategies.go *)

(** The fields of a [model.Task] the package reads. *)
Record Task := {
  at_ID : string; at_WorkbasketID : option string;
  at_RequiredSkills : option (list (string * string)); at_TenantID : string;
}.

Section Strategies.
Context `{env : Env}.

(** [SELECT COUNT] over the tasks in the hands of a worker. *)
Definition load (db : database) (worker : string) : Z :=
  sql_count (λ t, bool_decide (t_assignee_id t = Some worker) && (t_status t =?s "IN_PROGRESS"))
    (tasks db).

(** A row of [worker_availability] that covers now is an absence. *)
Definition out_of_office (db : database) (worker : string) : bool :=
  existsb (λ a, (wa_worker_id a =?s worker) && (wa_from a <=? env_now) && (env_now <=? wa_until a))
    (absences db).

Definition may_work (db : database) (worker : string) : bool :=
  existsb (λ w, (wk_id w =?s worker) && (wk_status w =?s "ACTIVE") &&
                (load db worker <? wk_max_concurrent_tasks w)) (workers db) &&
  negb (out_of_office db worker).

(** The members of a basket the queries leave, in the order of the table. *)
Definition eligible_members (db : database) (basket : string) : list string :=
  map bm_worker_id
    (List.filter (λ m, (bm_workbasket_id m =?s basket) && may_work db (bm_worker_id m))
       (basket_members db)).

Definition one_row {A} (o : option A) : result A :=
  match o with Some x => Ok x | None => Err ErrNoRows end.

Definition with_basket {A} (task : Task) (f : string → Tx database A) : Tx database A :=
  match at_WorkbasketID task with
  | None => throw (ErrMsg "task has no workbasket ID")
  | Some basket => f basket
  end.

(** [RoundRobinAssignmentEngine.FindCandidate] *)
Definition after_cursor (basket : string) (db : database) : result string :=
  wb ← sql_get (by_id wb_id basket) (workbaskets db);
  one_row (best String.leb
    (List.filter (λ w, String.ltb (default "" (wb_cursor wb)) w) (eligible_members db basket))).
Definition first_member (basket : string) (db : database) : result string :=
  one_row (best String.leb (eligible_members db basket)).

Definition round_robin (task : Task) : Tx database string :=
  with_basket task (λ basket,
    r ← tx_attempt (query (after_cursor basket));
    workerID ← match r with
      | Ok w => mret w
      | Err _ =>
          r ← tx_attempt (query (first_member basket));
          match r with Ok w => mret w | Err _ => throw ErrNoEligibleWorker end
      end;
    _ ← update_in workbaskets no_check (by_id wb_id basket)
          (λ wb, wb <| wb_cursor := Some workerID |>);
    mret workerID).

(** A query whose every error is taken for an empty answer. *)
Definition candidate (q : database → option string) : Tx database string :=
  r ← tx_attempt (query (λ db, one_row (q db)));
  match r with Ok w => mret w | Err _ => throw ErrNoEligibleWorker end.

(** [LeastLoadedAssignmentEngine.FindCandidate] *)
Definition least_loaded (task : Task) : Tx database string :=
  with_basket task (λ basket,
    candidate (λ db, best (by_key (load db) id) (eligible_members db basket))).

(** [SkillScoreAssignmentEngine.FindCandidate] *)
Definition proficiency_weight (p : string) : Z :=
  if p =?s "BEGINNER" then 1 else if p =?s "COMPETENT" then 2
  else if p =?s "EXPERT" then 3 else 0.
Definition meets (min_prof p : string) : bool :=
  if min_prof =?s "EXPERT" then p =?s "EXPERT"
  else if min_prof =?s "COMPETENT" then str_mem p ["COMPETENT"; "EXPERT"]
  else true.
(** The rows [task_reqs] and [worker_skills] join to for a worker. *)
Definition matched (db : database) (reqs : list (string * string)) (worker : string)
    : list skill_row :=
  flat_map (λ r, List.filter (λ s, (sk_worker_id s =?s worker) && (sk_code s =?s r.1) &&
                                   meets r.2 (sk_proficiency s)) (worker_skills db)) reqs.
Definition score (db : database) (reqs : list (string * string)) (worker : string) : Z :=
  foldr Z.add 0 (map (λ s, proficiency_weight (sk_proficiency s)) (matched db reqs worker)).
(** A worker without a match is in no group. *)
Definition skilled (db : database) (reqs : list (string * string)) (worker : string) : bool :=
  negb (Nat.eqb (length (matched db reqs worker)) 0) &&
  Nat.eqb (length (matched db reqs worker)) (length reqs).

Definition skill_score (task : Task) : Tx database string :=
  with_basket task (λ basket,
    match at_RequiredSkills task with
    | None => throw (ErrMsg "task has no required skills")
    | Some reqs =>
        candidate (λ db, best (by_key (λ w, - score db reqs w) id)
          (List.filter (skilled db reqs) (eligible_members db basket)))
    end).

Definition FindCandidate (strategy : string) (task : Task) : Tx database string :=
  if strategy =?s "ROUND_ROBIN" then round_robin task
  else if strategy =?s "LEAST_LOADED" then least_loaded task
  else if strategy =?s "SKILL_SCORE" then skill_score task
  else round_robin task.
End Strategies.

(** ** manager.go *)

Section Manager.
Context `{env : Env}.

(** [Repository.InsertOutboxEvent] *)
Definition outbox_event (ctx : go_context) (event_type : string)
    (payload : list (string * value)) : event_row :=
  let targetService :=
    match str_assoc payload "_target_service" with
    | Some (VString ts) => orElse ts "case-orchestrator"
    | _ => "case-orchestrator"%string
    end in
  PrepareEventForPublish ctx
    (new_event event_type None None payload <| ev_target_service := targetService |>
                                            <| ev_max_attempts := 5 |>).
Definition InsertOutboxEvent (ctx : go_context) (event_type : string)
    (payload : list (string * value)) : Tx database unit :=
  let prepared := outbox_event ctx event_type payload in
  _ ← insert_event (prepared <| ev_partition_key := Some (ev_tenant_id prepared) |>);
  EnqueueWebhookDeliveries ctx (ev_tenant_id prepared) prepared.

(** A cast to uuid of a text that comes from outside the database: the empty text is
    none. *)
Definition uuid_text (s : string) : bool := negb (s =?s "").

(** The foreign keys of [tasks] on users and teams, within the tenant of the task. *)
Definition assignees_exist (db : database) (t : task_row) : bool :=
  match t_assigned_user_id t with
  | Some u => existsb (λ r, (u_user_id r =?s u) && (u_tenant_id r =?s t_tenant_id t)) (users db)
  | None => true
  end &&
  match t_assigned_team_id t with
  | Some m => existsb (λ r, (tm_id r =?s m) && (tm_tenant_id r =?s t_tenant_id t)) (teams db)
  | None => true
  end.

(** An update of the assignment of tasks, with the texts it casts to uuid. *)
Definition update_tasks (casts : list string) (p : task_row → bool) (f : task_row → task_row)
    : Tx database Z :=
  stmt (λ db,
    if forallb uuid_text casts then
      match update_rows (λ t, task_check t && assignees_exist db t) p f (tasks db) with
      | Ok (n, rows) => Ok (n, db <| tasks := rows |>)
      | Err e => Err e
      end
    else Err ErrSQL).

Definition task_of (taskID tenantID : string) (t : task_row) : bool :=
  (t_id t =?s taskID) && (t_tenant_id t =?s tenantID).

Definition AssignToWorkbasket (ctx : go_context) (taskID workbasketID : string)
    : Tx database unit :=
  _ ← update_tasks [workbasketID; taskID] (by_id t_id taskID)
        (λ t, t <| t_workbasket_id := Some workbasketID |> <| t_assignee_id := None |>
                <| t_status := "PENDING" |>);
  InsertOutboxEvent ctx "TASK_QUEUED"
    [("task_id", VString taskID); ("workbasket_id", VString workbasketID)].

Definition AssignTaskToUser (ctx : go_context) (taskID userID tenantID assignedBy : string)
    : Tx database unit :=
  n ← update_tasks [userID; taskID; tenantID]
        (λ t, task_of taskID tenantID t &&
              str_mem (t_status t) ["PENDING"; "ASSIGNED"; "IN_PROGRESS"])
        (λ t, t <| t_assigned_user_id := Some userID |> <| t_status := "IN_PROGRESS" |>
                <| t_assigned_at := Some env_now |>);
  if n =? 0 then throw ErrTaskNotAssignable
  else InsertOutboxEvent ctx "TASK_ASSIGNED"
         [("task_id", VString taskID); ("user_id", VString userID);
          ("assigned_by", VString assignedBy)].

Definition AssignTaskToTeam (ctx : go_context) (taskID teamID tenantID assignedBy : string)
    : Tx database unit :=
  n ← update_tasks [teamID; taskID; tenantID]
        (λ t, task_of taskID tenantID t && (t_status t =?s "PENDING"))
        (λ t, t <| t_assigned_team_id := Some teamID |> <| t_status := "PENDING" |>);
  if n =? 0 then throw ErrTaskNotAssignable
  else InsertOutboxEvent ctx "TASK_ASSIGNED_TO_TEAM"
         [("task_id", VString taskID); ("team_id", VString teamID);
          ("assigned_by", VString assignedBy)].

Definition is_team_member (tenantID teamID userID : string) (db : database) : bool :=
  existsb (λ m, (mb_team_id m =?s teamID) && (mb_user_id m =?s userID) &&
                (mb_tenant_id m =?s tenantID)) (team_members db).
(** A query that casts texts to uuid. *)
Definition query_uuid {X} (casts : list string) (q : database → result X) : Tx database X :=
  query (λ db, if forallb uuid_text casts then q db else Err ErrSQL).

Definition ClaimTask (ctx : go_context) (taskID userID tenantID : string) : Tx database unit :=
  task ← query_uuid [taskID; tenantID] (λ db, sql_get (task_of taskID tenantID) (tasks db));
  _ ← match t_assigned_team_id task with
      | None => mret tt
      | Some team =>
          isMember ← query_uuid [team; userID; tenantID]
                       (λ db, Ok (is_team_member tenantID team userID db));
          (if isMember : bool then mret tt else throw ErrUserNotTeamMember)
      end;
  n ← update_tasks [userID; taskID; tenantID]
        (λ t, task_of taskID tenantID t && bool_decide (t_assigned_user_id t = None) &&
              (t_version t =? t_version task))
        (λ t, t <| t_assigned_user_id := Some userID |> <| t_status := "IN_PROGRESS" |>
                <| t_assigned_at := Some env_now |> <| t_version ::= Z.succ |>);
  if n =? 0 then throw ErrTaskAlreadyClaimed
  else InsertOutboxEvent ctx "TASK_CLAIMED"
         [("task_id", VString taskID); ("user_id", VString userID)].

Definition UnassignTask (ctx : go_context) (taskID tenantID unassignedBy reason : string)
    : Tx database unit :=
  n ← update_tasks [taskID; tenantID]
        (λ t, task_of taskID tenantID t && bool_decide (is_Some (t_assigned_user_id t)))
        (λ t, t <| t_assigned_user_id := None |>
                <| t_status ::= λ s, if s =?s "IN_PROGRESS" then "PENDING" else s |>
                <| t_version ::= Z.succ |>);
  if n =? 0 then throw ErrTaskNotAssignable
  else InsertOutboxEvent ctx "TASK_UNASSIGNED"
         [("task_id", VString taskID); ("unassigned_by", VString unassignedBy);
          ("reason", VString reason)].

Definition ReassignTask (ctx : go_context)
    (taskID toUserID tenantID reassignedBy reason : string) : Tx database unit :=
  n ← update_tasks [toUserID; taskID; tenantID] (task_of taskID tenantID)
        (λ t, t <| t_assigned_user_id := Some toUserID |> <| t_status := "IN_PROGRESS" |>
                <| t_assigned_at := Some env_now |> <| t_version ::= Z.succ |>);
  if n =? 0 then throw ErrTaskNotFound
  else InsertOutboxEvent ctx "TASK_REASSIGNED"
         [("task_id", VString taskID); ("to_user_id", VString toUserID);
          ("reassigned_by", VString reassignedBy); ("reason", VString reason)].

Definition AutoAssign (ctx : go_context) (task : Task) : Tx database unit :=
  wb ← get_in workbaskets
         (λ wb, match at_WorkbasketID task with Some b => wb_id wb =?s b | None => false end);
  r ← tx_attempt (FindCandidate (wb_strategy wb) task);
  match r with
  | Err ErrNoEligibleWorker => mret tt
  | Err e => throw e
  | Ok workerID =>
      AssignTaskToUser ctx (at_ID task) workerID (at_TenantID task) "auto_distributor"
  end.

(** ** The events of engine/worker.go that assign *)

(** [SELECT id, workbasket_id, required_skills] into a [model.Task]. *)
Definition scanned (t : task_row) : Task :=
  {| at_ID := t_id t; at_WorkbasketID := t_workbasket_id t;
     at_RequiredSkills := t_required_skills t; at_TenantID := "" |}.

Definition on_task_queued (ctx : go_context) (event : event_row) : Tx database unit :=
  match str_assoc (ev_payload event) "task_id" with
  | Some (VString taskID) =>
      r ← tx_attempt (query_uuid [taskID] (λ db, sql_get (by_id t_id taskID) (tasks db)));
      match r with Ok t => AutoAssign ctx (scanned t) | Err _ => mret tt end
  | _ => mret tt
  end.

Definition on_task_breached (ctx : go_context) (event : event_row) : Tx database unit :=
  match str_assoc (ev_payload event) "task_id" with
  | Some (VString taskID) =>
      r ← tx_attempt (get_in workbaskets (λ wb, wb_type wb =?s "ESCALATION"));
      match r with
      | Ok wb => AssignToWorkbasket ctx taskID (wb_id wb)
      | Err _ => mret tt
      end
  | _ => mret tt
  end.

(** [HandleTenantConfigUpdatedEvent]: what it forgets is a cache. *)
Definition HandleTenantConfigUpdatedEvent (event : event_row) : Tx database unit :=
  if TenantFromPayload (ev_payload event) =?s ""
  then throw (ErrMsg "tenant_id missing in payload") else mret tt.

(** [GetCaseWithLock] reads [workflow_definition_id], [global_status] and
    [current_stage_id] of [cases], which no migration creates: the server refuses it. *)
Definition GetCaseWithLock (caseID : string) : Tx database unit :=
  query (λ _, Err ErrSQL).
Definition handleTaskCompleted (event : event_row) : Tx database unit :=
  match str_assoc (ev_payload event) "case_id" with
  | Some (VString caseID) => GetCaseWithLock caseID
  | _ => throw (ErrMsg "missing case_id in payload")
  end.

Definition isNotificationInternalOutboxEvent (event_type : string) : bool :=
  let normalized := ToUpper (TrimSpace event_type) in
  (normalized =?s "CIRCUIT_BREAKER_OPENED") || HasPrefix normalized "NOTIFICATION_".

(** What [processEvent] does with an event before it marks it: [observer] is the
    [EventObserver] the engine is wired with, if any. *)
Definition engine_business (observer : option (go_context → event_row → Tx database unit))
    (event : event_row) : Tx database unit :=
  let eventCtx := WithTenant env_ctx (TrimSpace (ev_tenant_id event)) in
  _ ← (if ev_type event =?s "TASK_COMPLETED" then handleTaskCompleted event
       else if ev_type event =?s "TASK_QUEUED" then on_task_queued eventCtx event
       else if ev_type event =?s "TASK_SLA_BREACHED" then on_task_breached eventCtx event
       else if ev_type event =?s "TENANT_CONFIG_UPDATED"
       then HandleTenantConfigUpdatedEvent event
       else mret tt);
  match observer with
  | Some handle =>
      if isNotificationInternalOutboxEvent (ev_type event) then mret tt
      else handle (EnsureTenantContextForEvent eventCtx event) event
  | None => mret tt
  end.
End Manager.

(** ** Taking turns *)

(** The first identifier after the cursor, or the first of all. *)
Definition in_turn (cursor : string) (l : list string) : option string :=
  match best String.leb (List.filter (String.ltb cursor) l) with
  | Some w => Some w
  | None => best String.leb l
  end.
Fixpoint turns (n : nat) (cursor : string) (l : list string) : list string :=
  match n with
  | O => []
  | S n => match in_turn cursor l with
           | Some w => w :: turns n w l
           | None => []
           end
  end.

Definition string_lt (s t : string) : Prop := String.ltb s t = true.

Lemma leb_refl s : String.leb s s = true.
Proof. by destruct (String.leb_total s s). Qed.

Lemma ltb_leb s t : String.ltb s t = true ↔ String.leb t s = false.
Proof. rewrite leb_not_ltb. by destruct (String.ltb s t). Qed.

Lemma ltb_leb_neq s t : String.ltb s t = true ↔ String.leb s t = true ∧ s ≠ t.
Proof.
  rewrite ltb_leb. split.
  - intros H. split; [by destruct (String.leb_total s t); [|congruence]|]. intros ->.
    by rewrite leb_refl in H.
  - intros [Hle Hne]. destruct (String.leb t s) eqn:E; [|done].
    by destruct Hne; apply String.leb_antisym.
Qed.

Lemma string_lt_leb s t : string_lt s t → String.leb s t = true.
Proof. intros H. by apply ltb_leb_neq in H as [H _]. Qed.

Lemma best_leb_unique l x :
  x ∈ l → (∀ y, y ∈ l → String.leb x y = true) → best String.leb l = Some x.
Proof. apply best_unique; [exact _|]. apply String.leb_antisym. Qed.

Lemma best_leb_perm l l' : l ≡ₚ l' → best String.leb l = best String.leb l'.
Proof.
  intros Hp. destruct (best String.leb l') as [x|] eqn:E.
  - apply best_Some in E as [Hx Hle]; [|exact _]. apply best_leb_unique.
    + by rewrite Hp.
    + intros y Hy. apply Hle. by rewrite Hp in Hy.
  - apply best_None in E as ->. apply Permutation_nil_r in Hp as ->. done.
Qed.

Lemma filter_perm {A} (f : A → bool) l l' :
  l ≡ₚ l' → List.filter f l ≡ₚ List.filter f l'.
Proof.
  induction 1 as [|x l l' _ IH|x y l|l1 l2 l3 _ IH1 _ IH2]; cbn.
  - done.
  - destruct (f x); by rewrite IH.
  - destruct (f x), (f y); first [apply perm_swap|reflexivity].
  - by etrans.
Qed.

Lemma in_turn_perm cursor l l' : l ≡ₚ l' → in_turn cursor l = in_turn cursor l'.
Proof.
  intros Hp. unfold in_turn. rewrite (best_leb_perm _ _ (filter_perm (String.ltb cursor) _ _ Hp)).
  by rewrite (best_leb_perm _ _ Hp).
Qed.

Lemma turns_perm_eq n : ∀ cursor l l', l ≡ₚ l' → turns n cursor l = turns n cursor l'.
Proof.
  induction n as [|n IH]; intros cursor l l' Hp; cbn; [done|].
  rewrite (in_turn_perm cursor l l') by done. destruct (in_turn cursor l'); [|done].
  f_equal. by apply IH.
Qed.

(** In an ascending list the next in turn is the one after the cursor. *)
Lemma in_turn_next p x q cursor :
  StronglySorted string_lt (p ++ x :: q) →
  (∀ y, y ∈ p → String.leb y cursor = true) → String.ltb cursor x = true →
  in_turn cursor (p ++ x :: q) = Some x.
Proof.
  intros Hs Hp Hx. unfold in_turn. rewrite (best_leb_unique _ x); [done| |].
  - rewrite list_elem_of_In, filter_In, <- list_elem_of_In. split; [|done].
    apply elem_of_app. right. left.
  - intros y. rewrite list_elem_of_In, filter_In, <- list_elem_of_In.
    intros [[Hy|[->|Hy]%elem_of_cons]%elem_of_app Hc].
    + apply Hp in Hy. apply ltb_leb in Hc. congruence.
    + apply leb_refl.
    + apply StronglySorted_app_1_r in Hs. apply StronglySorted_inv in Hs as [_ Hs].
      rewrite Forall_forall in Hs. by apply string_lt_leb, Hs.
Qed.

Lemma in_turn_wraps x q cursor :
  StronglySorted string_lt (x :: q) → (∀ y, y ∈ x :: q → String.leb y cursor = true) →
  in_turn cursor (x :: q) = Some x.
Proof.
  intros Hs Hle. unfold in_turn.
  replace (List.filter (String.ltb cursor) (x :: q)) with (@nil string).
  - apply best_leb_unique; [left|]. intros y [->|Hy]%elem_of_cons.
    + apply leb_refl.
    + apply StronglySorted_inv in Hs as [_ Hs]. rewrite Forall_forall in Hs.
      by apply string_lt_leb, Hs.
  - symmetry. destruct (List.filter _ _) as [|y l] eqn:E; [done|].
    assert (Hy : y ∈ List.filter (String.ltb cursor) (x :: q)) by (rewrite E; left).
    rewrite list_elem_of_In, filter_In, <- list_elem_of_In in Hy.
    destruct Hy as [Hy Hc]. apply Hle in Hy. apply ltb_leb in Hc. congruence.
Qed.

Lemma last_cons_default {A} (q : list A) x d : List.last (x :: q) d = List.last q x.
Proof.
  revert x. induction q as [|y q IH]; intros x; [done|].
  change (List.last (y :: q) d = List.last (y :: q) x). destruct q; [done|]. apply (IH x).
Qed.

Lemma last_app_cons {A} (p q : list A) z d : List.last (p ++ z :: q) d = List.last (z :: q) d.
Proof. induction p as [|w p IH]; [done|]. rewrite <- IH. by destruct p. Qed.

Lemma last_elem {A} (q : list A) x d : List.last (x :: q) d ∈ x :: q.
Proof.
  revert x. induction q as [|y q IH]; intros x; [left|]. right. apply (IH y).
Qed.

Lemma sorted_last l d y :
  StronglySorted string_lt l → y ∈ l → String.leb y (List.last l d) = true.
Proof.
  induction 1 as [|x l Hs IH Hx]; [by intros H; inversion H|]. destruct l as [|z l].
  - intros ->%list_elem_of_singleton. apply leb_refl.
  - intros [->|Hy]%elem_of_cons; [|by apply IH].
    rewrite Forall_forall in Hx. apply string_lt_leb, Hx, (last_elem l z d).
Qed.

(** Walking from the cursor to the end, and from the start on. *)
Lemma turns_walk q : ∀ p r cursor n,
  StronglySorted string_lt (p ++ q ++ r) →
  (∀ y, y ∈ p → String.leb y cursor = true) → (∀ y, y ∈ q → String.ltb cursor y = true) →
  turns (length q + n) cursor (p ++ q ++ r) = q ++ turns n (List.last q cursor) (p ++ q ++ r).
Proof.
  induction q as [|x q IH]; intros p r cursor n Hs Hp Hq; [done|].
  cbn [length Nat.add turns]. cbn [app]. rewrite in_turn_next; [|done|done|apply Hq; left].
  f_equal. change (p ++ x :: q ++ r) with (p ++ [x] ++ q ++ r).
  change ((x :: q) ++ r) with ([x] ++ q ++ r) in Hs. rewrite (assoc_L (++) p [x]) in *.
  rewrite IH; [by rewrite last_cons_default|done|..].
  - intros y [Hy|Hy%list_elem_of_singleton]%elem_of_app.
    + rewrite <- (assoc_L (++)) in Hs. apply StronglySorted_app_1_elem_of with (x1 := y) (x2 := x) in Hs.
      * by apply string_lt_leb.
      * done.
      * left.
    + subst. apply leb_refl.
  - intros y Hy. rewrite <- (assoc_L (++)) in Hs. apply StronglySorted_app_1_r in Hs. cbn in Hs.
    apply StronglySorted_inv in Hs as [_ Hs]. rewrite Forall_forall in Hs. apply Hs.
    apply elem_of_app. by left.
Qed.

Lemma sorted_split s cursor :
  StronglySorted string_lt s →
  ∃ p q, s = p ++ q ∧ (∀ y, y ∈ p → String.leb y cursor = true) ∧
         (∀ y, y ∈ q → String.ltb cursor y = true).
Proof.
  induction 1 as [|x s Hs IH Hx].
  { exists [], []. split_and!; [done|intros ? H; inversion H..]. }
  destruct (String.leb x cursor) eqn:E.
  - destruct IH as (p & q & -> & Hlo & Hhi). exists (x :: p), q. split_and!; [done| |done].
    intros y [->|Hy]%elem_of_cons; auto.
  - exists [], (x :: s). split_and!; [done|intros ? H; inversion H|].
    intros y [->|Hy]%elem_of_cons; [by apply ltb_leb|]. rewrite Forall_forall in Hx.
    apply Hx, string_lt_leb in Hy. apply ltb_leb, not_true_is_false. intros Hc.
    rewrite (ranking_trans (before := String.leb) x y cursor) in E; done.
Qed.

Lemma turns_sorted s cursor :
  StronglySorted string_lt s → turns (length s) cursor s ≡ₚ s.
Proof.
  intros Hs. destruct (sorted_split s cursor Hs) as (p & q & -> & Hlo & Hhi).
  rewrite length_app, Nat.add_comm.
  pose proof (turns_walk q p [] cursor (length p)) as Hw. rewrite app_nil_r in Hw.
  rewrite Hw by done. etrans; [|apply Permutation_app_comm]. f_equiv.
  destruct p as [|x p]; [done|]. cbn [length turns]. cbn [app].
  rewrite in_turn_wraps; [|done|].
  - f_equiv. rewrite <- (Nat.add_0_r (length p)).
    change (x :: p ++ q) with ([x] ++ p ++ q). rewrite turns_walk.
    + cbn. by rewrite app_nil_r.
    + done.
    + intros y ->%list_elem_of_singleton. apply leb_refl.
    + intros y Hy. apply StronglySorted_inv in Hs as [_ Hs]. rewrite Forall_forall in Hs.
      apply Hs, elem_of_app. by left.
  - intros y Hy. destruct q as [|z q]; [apply Hlo; by rewrite app_nil_r in Hy|].
    rewrite last_cons_default, <- (last_cons_default q z cursor).
    rewrite <- (last_app_cons (x :: p)). by apply sorted_last.
Qed.

(** From any cursor, as many turns as there are members give every member one. *)
Lemma turns_permutation l cursor : NoDup l → turns (length l) cursor l ≡ₚ l.
Proof.
  intros Hl. pose proof (merge_sort_Permutation String.le l) as Hp.
  rewrite (turns_perm_eq _ _ _ _ (symmetry Hp)), <- (Permutation_length Hp).
  etrans; [|exact Hp]. apply turns_sorted.
  assert (Hss : StronglySorted String.le (merge_sort String.le l))
    by (apply Sorted_StronglySorted, Sorted_merge_sort; apply _).
  assert (Hn : NoDup (merge_sort String.le l)) by by rewrite Hp.
  clear Hp. induction Hss as [|x s Hss IH Hx]; [constructor|].
  apply NoDup_cons in Hn as [Hxs Hn]. constructor; [by apply IH|].
  rewrite Forall_forall in Hx |- *. intros y Hy. apply ltb_leb_neq. split.
  - by apply leb_String_le, Hx.
  - by intros ->.
Qed.

(** ** Who may be chosen, and who is preferred *)

Section Specification.
Context `{env : Env}.
Implicit Types (db : database) (basket worker : string).

Definition member_of db basket worker : Prop :=
  ∃ m, m ∈ basket_members db ∧ bm_workbasket_id m = basket ∧ bm_worker_id m = worker.
Definition on_duty db worker : Prop :=
  (∃ w, w ∈ workers db ∧ wk_id w = worker ∧ wk_status w = "ACTIVE"%string ∧
        load db worker < wk_max_concurrent_tasks w) ∧
  ∀ a, a ∈ absences db → wa_worker_id a = worker → ¬ (wa_from a ≤ env_now ≤ wa_until a).

Definition level (p : string) : Z :=
  if p =?s "EXPERT" then 3 else if p =?s "COMPETENT" then 2 else 0.
(** Every requirement is met by a skill of the worker. *)
Definition has_skills db (reqs : list (string * string)) worker : Prop :=
  reqs ≠ [] ∧ ∀ code least, (code, least) ∈ reqs → ∃ s, s ∈ worker_skills db ∧
    sk_worker_id s = worker ∧ sk_code s = code ∧ level least ≤ proficiency_weight (sk_proficiency s).

Definition qualified strategy db basket (task : Task) worker : Prop :=
  member_of db basket worker ∧ on_duty db worker ∧
  (strategy = "SKILL_SCORE"%string → has_skills db (default [] (at_RequiredSkills task)) worker).

(** In the cyclic order that starts after the cursor. *)
Definition sooner (cursor x y : string) : Prop :=
  String.ltb cursor x = true ∧ (String.leb x y = true ∨ String.leb y cursor = true) ∨
  String.leb x cursor = true ∧ String.leb y cursor = true ∧ String.leb x y = true.
Definition cursor_of db basket : string :=
  match sql_get (by_id wb_id basket) (workbaskets db) with
  | Ok wb => default "" (wb_cursor wb)
  | Err _ => ""
  end.
Definition no_worse (key : string → Z) (x y : string) : Prop :=
  key x < key y ∨ key x = key y ∧ String.leb x y = true.
Definition preferred strategy db basket (task : Task) (x y : string) : Prop :=
  if strategy =?s "LEAST_LOADED" then no_worse (load db) x y
  else if strategy =?s "SKILL_SCORE"
  then no_worse (λ w, - score db (default [] (at_RequiredSkills task)) w) x y
  else sooner (cursor_of db basket) x y.

Definition moved_cursor strategy basket worker db : database :=
  if str_mem strategy ["LEAST_LOADED"; "SKILL_SCORE"] then db
  else db <| workbaskets := sql_update (by_id wb_id basket)
                              (λ wb, wb <| wb_cursor := Some worker |>) (workbaskets db) |>.

Lemma may_work_spec db worker : may_work db worker = true ↔ on_duty db worker.
Proof.
  unfold may_work, on_duty, out_of_office. rewrite andb_true_iff, negb_true_iff, existsb_exists.
  setoid_rewrite <- list_elem_of_In. setoid_rewrite andb_true_iff. setoid_rewrite andb_true_iff.
  setoid_rewrite String.eqb_eq. setoid_rewrite Z.ltb_lt. split; intros [Hw Ha]; split.
  - naive_solver.
  - intros a Hin Hid [Hf Hu]. apply not_true_iff_false in Ha. apply Ha, existsb_exists.
    exists a. rewrite <- list_elem_of_In, !andb_true_iff, String.eqb_eq, !Z.leb_le. done.
  - naive_solver.
  - apply not_true_is_false. rewrite existsb_exists. intros (a & Hin & Ht).
    rewrite <- list_elem_of_In in Hin.
    rewrite !andb_true_iff, String.eqb_eq, !Z.leb_le in Ht. naive_solver.
Qed.

Lemma eligible_members_spec db basket worker :
  worker ∈ eligible_members db basket ↔ member_of db basket worker ∧ on_duty db worker.
Proof.
  unfold eligible_members, member_of. rewrite list_elem_of_In, in_map_iff.
  setoid_rewrite filter_In. setoid_rewrite <- list_elem_of_In. setoid_rewrite andb_true_iff.
  setoid_rewrite may_work_spec. setoid_rewrite String.eqb_eq. naive_solver.
Qed.

(** Exactly one skill row per worker and code, as the primary key has it. *)
Definition skills_keyed db : Prop :=
  NoDup (map (λ s, (sk_worker_id s, sk_code s)) (worker_skills db)) ∧
  Forall (λ s, sk_proficiency s ∈ ["BEGINNER"; "COMPETENT"; "EXPERT"]%string) (worker_skills db).

Lemma meets_spec least p :
  p ∈ ["BEGINNER"; "COMPETENT"; "EXPERT"]%string →
  meets least p = true ↔ level least ≤ proficiency_weight p.
Proof.
  intros Hp. unfold meets, level. repeat (apply elem_of_cons in Hp as [->|Hp]); [..|by inversion Hp];
    destruct (least =?s "EXPERT"), (least =?s "COMPETENT"); vm_compute; intuition congruence.
Qed.

Lemma filter_key_once {R K} (key : R → K) (p : R → bool) (rows : list R) k :
  NoDup (map key rows) → (∀ r, p r = true → key r = k) →
  (length (List.filter p rows) ≤ 1)%nat.
Proof.
  intros Hn Hk. induction rows as [|r rows IH]; cbn; [lia|].
  apply NoDup_cons in Hn as [Hr Hn]. destruct (p r) eqn:E; [|by apply IH]. cbn.
  destruct (List.filter p rows) as [|r' l] eqn:El; [done|]. destruct Hr.
  assert (Hin : r' ∈ List.filter p rows) by (rewrite El; left).
  rewrite list_elem_of_In, filter_In in Hin. destruct Hin as [Hin Hp'].
  rewrite (Hk r), <- (Hk r') by done. rewrite list_elem_of_In. by apply in_map.
Qed.

Lemma length_flat_map_once {A B} (f : A → list B) l :
  (∀ x, x ∈ l → (length (f x) ≤ 1)%nat) →
  (length (flat_map f l) ≤ length l)%nat ∧
  (length (flat_map f l) = length l ↔ ∀ x, x ∈ l → f x ≠ []).
Proof.
  induction l as [|x l IH]; intros Hf; cbn.
  { split; [lia|]. split; [|done]. intros _ x Hx. inversion Hx. }
  destruct IH as [Hle Hiff]; [intros y Hy; apply Hf; by right|]. rewrite length_app.
  pose proof (Hf x ltac:(left)) as Hx. split; [lia|]. split.
  - intros E. assert (Hall : length (flat_map f l) = length l) by lia.
    rewrite Hiff in Hall. intros y [->|Hy]%elem_of_cons; [|by apply Hall].
    intros E'. rewrite E' in E. cbn in E. lia.
  - intros Hall. replace (length (flat_map f l)) with (length l).
    + specialize (Hall x ltac:(left)). destruct (f x) as [|? [|]]; cbn in *; [done|lia..].
    + symmetry. apply Hiff. intros y Hy. apply Hall. by right.
Qed.

Lemma skilled_spec db reqs worker :
  skills_keyed db → skilled db reqs worker = true ↔ has_skills db reqs worker.
Proof.
  intros [Hk Hp]. unfold skilled, has_skills, matched.
  rewrite andb_true_iff, negb_true_iff, Nat.eqb_neq, Nat.eqb_eq.
  set (f := λ r : string * string, _).
  destruct (length_flat_map_once f reqs) as [_ ->].
  { intros [code least] _. apply (filter_key_once (λ s, (sk_worker_id s, sk_code s)) _ _
      (worker, code) Hk).
    intros s. cbn. rewrite !andb_true_iff, !String.eqb_eq. naive_solver. }
  assert (Hf : ∀ code least, f (code, least) ≠ [] ↔ ∃ s, s ∈ worker_skills db ∧
    sk_worker_id s = worker ∧ sk_code s = code ∧
    level least ≤ proficiency_weight (sk_proficiency s)).
  { intros code least.
    assert (Hin : ∀ s, s ∈ f (code, least) ↔ s ∈ worker_skills db ∧ sk_worker_id s = worker ∧
      sk_code s = code ∧ level least ≤ proficiency_weight (sk_proficiency s)).
    { intros s. unfold f. rewrite list_elem_of_In, filter_In, <- list_elem_of_In.
      rewrite !andb_true_iff, !String.eqb_eq. cbn. rewrite Forall_forall in Hp.
      split; intros [Hs Ht]; specialize (Hp s Hs); apply (meets_spec least) in Hp; naive_solver. }
    setoid_rewrite <- Hin. destruct (f (code, least)) as [|s l].
    - split; [done|]. intros (s & Hs). inversion Hs.
    - split; [|done]. intros _. exists s. left. }
  split.
  - intros [Hne Hall]. split; [by intros ->|]. intros code least Hr. apply Hf. by apply Hall.
  - intros [Hne Hall]. split.
    + destruct reqs as [|[code least] reqs]; [done|]. cbn. rewrite length_app.
      specialize (Hall code least ltac:(left)). apply Hf in Hall. destruct (f (code, least)); [done|cbn; lia].
    + intros [code least] Hr. apply Hf. by apply Hall.
Qed.

Lemma by_key_spec (key : string → Z) x y : by_key key id x y = true ↔ no_worse key x y.
Proof. unfold by_key, no_worse. by rewrite orb_true_iff, andb_true_iff, Z.ltb_lt, Z.eqb_eq. Qed.

Lemma in_turn_spec cursor l x :
  in_turn cursor l = Some x → x ∈ l ∧ ∀ y, y ∈ l → sooner cursor x y.
Proof.
  unfold in_turn, sooner. destruct (best String.leb (List.filter _ _)) as [w|] eqn:E.
  - intros [= <-]. apply best_Some in E as [Hw Hmin]; [|exact _].
    rewrite list_elem_of_In, filter_In, <- list_elem_of_In in Hw. destruct Hw as [Hw Hc].
    split; [done|]. intros y Hy. left. split; [done|].
    destruct (String.ltb cursor y) eqn:Ey; [left|right].
    + apply Hmin. by rewrite list_elem_of_In, filter_In, <- list_elem_of_In.
    + rewrite leb_not_ltb. by rewrite Ey.
  - intros H. apply best_Some in H as [Hx Hmin]; [|exact _]. split; [done|].
    apply best_None in E.
    assert (Hall : ∀ y, y ∈ l → String.leb y cursor = true).
    { intros y Hy. rewrite leb_not_ltb. destruct (String.ltb cursor y) eqn:Ey; [|done].
      assert (Hin : y ∈ List.filter (String.ltb cursor) l)
        by by rewrite list_elem_of_In, filter_In, <- list_elem_of_In.
      rewrite E in Hin. inversion Hin. }
    intros y Hy. right. auto.
Qed.
End Specification.

(** ** What choosing does *)

Section Choosing.
Context `{env : Env}.
Implicit Types (db : database) (basket worker : string).

Definition choice strategy db basket (task : Task) : result string :=
  let none o := match o with Some w => Ok w | None => Err ErrNoEligibleWorker end in
  if strategy =?s "LEAST_LOADED"
  then none (best (by_key (load db) id) (eligible_members db basket))
  else if strategy =?s "SKILL_SCORE"
  then match at_RequiredSkills task with
       | None => Err (ErrMsg "task has no required skills")
       | Some reqs => none (best (by_key (λ w, - score db reqs w) id)
                              (List.filter (skilled db reqs) (eligible_members db basket)))
       end
  else none (in_turn (cursor_of db basket) (eligible_members db basket)).

Lemma exec_query busy {X} (q : database → result X) db :
  exec busy (query q) 0 db =
    match q db with
    | Ok x => Some (Ok x, 0%nat, db)
    | Err ErrNoRows => Some (Err ErrNoRows, 0%nat, db)
    | Err _ => None
    end.
Proof. unfold query. rewrite exec_stmt. by destruct (q db) as [|[]]. Qed.

Lemma exec_candidate busy (q : database → option string) db :
  exec busy (candidate q) 0 db =
    Some (match q db with Some w => Ok w | None => Err ErrNoEligibleWorker end, 0%nat, db).
Proof.
  unfold candidate. rewrite exec_bind, exec_attempt, exec_query. by destruct (q db).
Qed.

Lemma exec_round_robin busy task basket wb db :
  at_WorkbasketID task = Some basket → sql_get (by_id wb_id basket) (workbaskets db) = Ok wb →
  exec busy (round_robin task) 0 db =
    match in_turn (cursor_of db basket) (eligible_members db basket) with
    | Some w => Some (Ok w, 0%nat, db <| workbaskets := sql_update (by_id wb_id basket)
                  (λ wb, wb <| wb_cursor := Some w |>) (workbaskets db) |>)
    | None => Some (Err ErrNoEligibleWorker, 0%nat, db)
    end.
Proof.
  intros Hb Hwb. unfold round_robin, with_basket. rewrite Hb.
  rewrite exec_bind, exec_attempt, exec_query. unfold in_turn, after_cursor, cursor_of.
  rewrite Hwb. cbn [mbind result_bind].
  assert (Hupd : ∀ w, exec busy (update_in workbaskets no_check (by_id wb_id basket)
                   (λ wb, wb <| wb_cursor := Some w |>)) 0 db =
    Some (Ok (sql_count (by_id wb_id basket) (workbaskets db)), 0%nat,
      db <| workbaskets := sql_update (by_id wb_id basket)
                  (λ wb, wb <| wb_cursor := Some w |>) (workbaskets db) |>)).
  { intros w. unfold update_in. rewrite exec_stmt. unfold update_rows.
    replace (forallb _ _) with true; [done|]. symmetry. apply forallb_forall. intros r _.
    apply orb_true_r. }
  destruct (best String.leb (List.filter _ _)) as [w|]; cbn [one_row].
  - rewrite exec_bind. cbn [exec mret Tx_ret]. rewrite exec_bind, Hupd. done.
  - rewrite exec_bind, exec_bind, exec_attempt, exec_query. unfold first_member.
    destruct (best String.leb (eligible_members db basket)) as [w|]; cbn [one_row exec mret Tx_ret throw]; [|done].
    rewrite exec_bind, Hupd. done.
Qed.

Lemma exec_FindCandidate busy strategy task basket wb db :
  at_WorkbasketID task = Some basket → sql_get (by_id wb_id basket) (workbaskets db) = Ok wb →
  exec busy (FindCandidate strategy task) 0 db =
    match choice strategy db basket task with
    | Ok w => Some (Ok w, 0%nat, moved_cursor strategy basket w db)
    | Err e => Some (Err e, 0%nat, db)
    end.
Proof.
  intros Hb Hwb. unfold FindCandidate, choice, moved_cursor, str_mem. cbn [existsb].
  pose proof (exec_round_robin busy task basket wb db Hb Hwb) as Hrr.
  destruct (String.eqb_spec strategy "ROUND_ROBIN") as [->|_]; cbn.
  { rewrite Hrr. by destruct (in_turn _ _). }
  destruct (String.eqb_spec strategy "LEAST_LOADED") as [->|_]; cbn.
  { unfold least_loaded, with_basket. rewrite Hb, exec_candidate. by destruct (best _ _). }
  destruct (String.eqb_spec strategy "SKILL_SCORE") as [->|_]; cbn.
  { unfold skill_score, with_basket. rewrite Hb. destruct (at_RequiredSkills task); [|done].
    rewrite exec_candidate. by destruct (best _ _). }
  rewrite Hrr. by destruct (in_turn _ _).
Qed.

Lemma choice_Ok strategy db basket task w :
  skills_keyed db → choice strategy db basket task = Ok w →
  qualified strategy db basket task w ∧
  ∀ w', qualified strategy db basket task w' → preferred strategy db basket task w w'.
Proof.
  intros Hk. unfold choice, qualified, preferred.
  destruct (String.eqb_spec strategy "LEAST_LOADED") as [->|Hl].
  { destruct (best _ _) as [x|] eqn:E; [|done]. intros [= ->].
    apply best_Some in E as [Hw Hmin]; [|exact _]. rewrite eligible_members_spec in Hw.
    split; [naive_solver|]. intros w' (Hm & Hd & _). apply by_key_spec, Hmin.
    by apply eligible_members_spec. }
  destruct (String.eqb_spec strategy "SKILL_SCORE") as [->|Hs].
  { destruct (at_RequiredSkills task) as [reqs|]; [|done]. cbn [default].
    destruct (best _ _) as [x|] eqn:E; [|done]. intros [= ->].
    apply best_Some in E as [Hw Hmin]; [|exact _].
    rewrite list_elem_of_In, filter_In, <- list_elem_of_In, eligible_members_spec,
      skilled_spec in Hw by done.
    split; [naive_solver|]. intros w' (Hm & Hd & Hr). apply by_key_spec, Hmin.
    rewrite list_elem_of_In, filter_In, <- list_elem_of_In, eligible_members_spec, skilled_spec
      by done. naive_solver. }
  destruct (in_turn _ _) as [x|] eqn:E; [|done]. intros [= ->].
  apply in_turn_spec in E as [Hw Hmin]. rewrite eligible_members_spec in Hw.
  split; [naive_solver|]. intros w' (Hm & Hd & _). apply Hmin. by apply eligible_members_spec.
Qed.

Lemma choice_Err strategy db basket task e :
  skills_keyed db → choice strategy db basket task = Err e →
  e = ErrNoEligibleWorker ∧ (∀ w, ¬ qualified strategy db basket task w) ∨
  strategy = "SKILL_SCORE"%string ∧ at_RequiredSkills task = None ∧
  e = ErrMsg "task has no required skills".
Proof.
  intros Hk. unfold choice, qualified.
  destruct (String.eqb_spec strategy "LEAST_LOADED") as [->|Hl].
  { destruct (best _ _) eqn:E; [done|]. intros [= <-]. left. split; [done|].
    intros w (Hm & Hd & _). apply best_None in E.
    pose proof (proj2 (eligible_members_spec db basket w) (conj Hm Hd)) as Hin.
    rewrite E in Hin. inversion Hin. }
  destruct (String.eqb_spec strategy "SKILL_SCORE") as [->|Hs].
  { destruct (at_RequiredSkills task) as [reqs|]; [|intros [= <-]; by right]. cbn [default].
    destruct (best _ _) eqn:E; [done|]. intros [= <-]. left. split; [done|].
    intros w (Hm & Hd & Hr). apply best_None in E.
    assert (Hin : w ∈ List.filter (skilled db reqs) (eligible_members db basket)).
    { rewrite list_elem_of_In, filter_In, <- list_elem_of_In, eligible_members_spec,
        skilled_spec by done. naive_solver. }
    rewrite E in Hin. inversion Hin. }
  destruct (in_turn _ _) eqn:E; [done|]. intros [= <-]. left. split; [done|].
  intros w (Hm & Hd & _). unfold in_turn in E. destruct (best _ (List.filter _ _)); [done|].
  apply best_None in E.
  pose proof (proj2 (eligible_members_spec db basket w) (conj Hm Hd)) as Hin.
  rewrite E in Hin. inversion Hin.
Qed.
End Choosing.

(** C6. Whatever the strategy of a workbasket, [FindCandidate] never fails by itself on a
    task that waits there, and chooses exactly as promised: a member who is active, not out
    of office, below the limit of concurrent tasks and, for SKILL_SCORE, has every required
    skill at its level; among those, the least loaded, the one with the highest score, or
    the next one after the cursor, which only ROUND_ROBIN moves.  It reports that there is
    no eligible worker only when there is none. *)
Theorem FindCandidate_spec `{env : Env} busy strategy task basket wb db :
  at_WorkbasketID task = Some basket →
  sql_get (by_id wb_id basket) (workbaskets db) = Ok wb → skills_keyed db →
  ∃ r db', commits busy (tx_attempt (FindCandidate strategy task)) db = Some (r, db') ∧
    match r with
    | Ok w => qualified strategy db basket task w ∧
        (∀ w', qualified strategy db basket task w' → preferred strategy db basket task w w') ∧
        db' = moved_cursor strategy basket w db
    | Err ErrNoEligibleWorker => db' = db ∧ ∀ w, ¬ qualified strategy db basket task w
    | Err _ => db' = db ∧ strategy = "SKILL_SCORE"%string ∧ at_RequiredSkills task = None
    end.
Proof.
  intros Hb Hwb Hk. rewrite commits_attempt, (exec_FindCandidate busy strategy task basket wb) by done.
  destruct (choice strategy db basket task) as [w|e] eqn:E.
  - eexists _, _. split; [done|]. apply choice_Ok in E as [Hq Hp]; done.
  - eexists _, _. split; [done|]. apply choice_Err in E as [[-> Hn]|(-> & Hn & ->)]; done.
Qed.

Section Assigning.
Context `{env : Env}.
Implicit Types (db : database) (ctx : go_context).

Lemma balanced_assigning_update casts p f : Balanced (update_tasks casts p f).
Proof. apply balanced_stmt. Qed.
Lemma balanced_query_uuid {X} casts (q : database → result X) : Balanced (query_uuid casts q).
Proof. apply balanced_stmt. Qed.
Lemma balanced_InsertOutboxEvent ctx type payload : Balanced (InsertOutboxEvent ctx type payload).
Proof.
  unfold InsertOutboxEvent, insert_event, EnqueueWebhookDeliveries. cbv zeta. balance.
Qed.
Lemma balanced_FindCandidate strategy task : Balanced (FindCandidate strategy task).
Proof.
  unfold FindCandidate, round_robin, least_loaded, skill_score, with_basket, candidate.
  balance.
Qed.

Lemma commits_update_tasks busy casts p f db n db' :
  commits busy (update_tasks casts p f) db = Some (n, db') →
  forallb uuid_text casts = true ∧ n = sql_count p (tasks db) ∧
  db' = db <| tasks := sql_update p f (tasks db) |> ∧
  ∀ t, t ∈ tasks db → p t = true → task_check (f t) = true ∧ assignees_exist db (f t) = true.
Proof.
  unfold update_tasks. rewrite commits_stmt. destruct (forallb uuid_text casts); [|done].
  unfold update_rows. destruct (forallb _ (tasks db)) eqn:E; [|done]. intros [= <- <-].
  split_and!; [done..|]. intros t Ht Hp. rewrite forallb_forall in E.
  specialize (E t (proj1 (list_elem_of_In _ _) Ht)). rewrite Hp in E. cbn in E. by bool_simpl.
Qed.

(** The row [InsertOutboxEvent] writes. *)
Definition outbox_row ctx (type : string) (payload : list (string * value)) : event_row :=
  let prepared := outbox_event ctx type payload in
  prepared <| ev_partition_key := Some (ev_tenant_id prepared) |>.

Lemma commits_InsertOutboxEvent busy ctx type payload db :
  TrimSpace type ≠ "" →
  commits busy (InsertOutboxEvent ctx type payload) db =
    Some (tt, outbox_with (outbox_row ctx type payload) db).
Proof.
  intros Ht. unfold commits, InsertOutboxEvent. cbv zeta.
  rewrite exec_bind, exec_insert_event by reflexivity.
  rewrite exec_EnqueueWebhookDeliveries; [done|apply (prepared_tenant ctx)|done].
Qed.

(** The task [taskID] of the tenant, in a status from which it is assigned. *)
Definition assignable (taskID tenantID : string) (t : task_row) : bool :=
  task_of taskID tenantID t && str_mem (t_status t) ["PENDING"; "ASSIGNED"; "IN_PROGRESS"].
Definition in_hand (userID : string) (t : task_row) : task_row :=
  t <| t_assigned_user_id := Some userID |> <| t_status := "IN_PROGRESS" |>
    <| t_assigned_at := Some env_now |>.

Lemma AssignTaskToUser_commits busy ctx taskID userID tenantID by_whom db db' :
  commits busy (AssignTaskToUser ctx taskID userID tenantID by_whom) db = Some (tt, db') →
  tenantID ≠ "" ∧ (∃ t, t ∈ tasks db ∧ assignable taskID tenantID t = true) ∧
  db' = outbox_with (outbox_row ctx "TASK_ASSIGNED"
          [("task_id", VString taskID); ("user_id", VString userID);
           ("assigned_by", VString by_whom)])
        (db <| tasks := sql_update (assignable taskID tenantID) (in_hand userID) (tasks db) |>).
Proof.
  unfold AssignTaskToUser. intros H. apply commits_bind_inv in H as (n & d & E & H); [|apply balanced_assigning_update].
  apply commits_update_tasks in E as (Hc & -> & -> & _).
  destruct (sql_count _ _ =? 0) eqn:E0; [done|].
  rewrite commits_InsertOutboxEvent in H by (vm_compute; discriminate). injection H as <-.
  cbn in Hc. unfold uuid_text in Hc. bool_simpl. split_and!; [|..|done].
  - by apply String.eqb_neq.
  - rewrite sql_count_existsb, negb_false_iff, existsb_exists in E0.
    destruct E0 as (t & Ht & Hp). exists t. by rewrite list_elem_of_In.
Qed.
End Assigning.
#[export] Hint Resolve balanced_assigning_update balanced_query_uuid balanced_InsertOutboxEvent
  balanced_FindCandidate : balance.

(** ** Automatic assignment *)

Section AutoAssignment.
Context `{env : Env}.
Implicit Types (db : database) (ctx : go_context).

Lemma AutoAssign_commits busy ctx task db db' :
  commits busy (AutoAssign ctx task) db = Some (tt, db') →
  ∃ basket wb, at_WorkbasketID task = Some basket ∧
    sql_get (by_id wb_id basket) (workbaskets db) = Ok wb ∧
    (choice (wb_strategy wb) db basket task = Err ErrNoEligibleWorker ∧ db' = db ∨
     ∃ w row, choice (wb_strategy wb) db basket task = Ok w ∧ at_TenantID task ≠ "" ∧
       (∃ t, t ∈ tasks db ∧ assignable (at_ID task) (at_TenantID task) t = true) ∧
       db' = outbox_with row (moved_cursor (wb_strategy wb) basket w db
               <| tasks := sql_update (assignable (at_ID task) (at_TenantID task)) (in_hand w)
                             (tasks db) |>)).
Proof.
  unfold AutoAssign. intros H.
  destruct (at_WorkbasketID task) as [basket|] eqn:Hb.
  2: { tx_bind_inv H wb d E. apply commits_get_inv in E as [E _].
       apply sql_get_Ok in E as [_ E]. done. }
  tx_bind_inv H wb d E. apply commits_get_inv in E as [Hwb ->]. exists basket, wb.
  split_and!; [done..|]. tx_bind_inv H r d E. rewrite commits_attempt in E.
  rewrite (exec_FindCandidate busy _ task basket wb) in E by done.
  destruct (choice _ _ _ _) as [w|e] eqn:Hc; injection E as <- <-.
  - apply AssignTaskToUser_commits in H as (Ht & Ha & ->). right. exists w. eexists.
    split_and!; [done..| |].
    + revert Ha. unfold moved_cursor. by destruct (str_mem _ _).
    + unfold moved_cursor. by destruct (str_mem _ _).
  - left. destruct e; try done. by injection H as <-.
Qed.

Definition assigned_to db taskID : option string :=
  match sql_get (by_id t_id taskID) (tasks db) with
  | Ok t => t_assigned_user_id t
  | Err _ => None
  end.

(** Tasks assigned one after the other, each in a transaction of its own, and the users
    they went to. *)
Inductive auto_run : list Task → database → list string → database → Prop :=
  | auto_done db : auto_run [] db [] db
  | auto_step drv ctx task w rest ws db1 db2 db3 :
      within_tx drv (AutoAssign ctx task) db1 = (Ok tt, db2) →
      assigned_to db2 (at_ID task) = Some w →
      auto_run rest db2 ws db3 → auto_run (task :: rest) db1 (w :: ws) db3.

(** Tasks of one basket that no worker has in hand. *)
Definition waiting_in db basket (queue : list Task) : Prop :=
  NoDup (map t_id (tasks db)) ∧ Forall (λ task, at_WorkbasketID task = Some basket) queue ∧
  ∀ t, t ∈ tasks db → t_id t ∈ map at_ID queue → t_assignee_id t = None.

(** What choosing reads, apart from cursors and skills, is as it was. *)
Definition same_board db db' : Prop :=
  workers db' = workers db ∧ basket_members db' = basket_members db ∧
  absences db' = absences db ∧ ∀ w, load db' w = load db w.

Lemma same_eligible db db' basket :
  same_board db db' → eligible_members db' basket = eligible_members db basket.
Proof.
  intros (Hw & Hm & Ha & Hl). unfold eligible_members. rewrite Hm. f_equal.
  apply filter_ext. intros m. unfold may_work, out_of_office. by rewrite Hw, Ha, Hl.
Qed.

Lemma best_ext {A} (before before' : A → A → bool) l :
  (∀ x y, before x y = before' x y) → best before l = best before' l.
Proof. intros H. induction l as [|x l IH]; cbn; [done|]. rewrite IH. destruct (best before' l); by rewrite ?H. Qed.

Lemma moved_cursor_fields strategy basket w db :
  tasks (moved_cursor strategy basket w db) = tasks db ∧
  workers (moved_cursor strategy basket w db) = workers db ∧
  basket_members (moved_cursor strategy basket w db) = basket_members db ∧
  absences (moved_cursor strategy basket w db) = absences db.
Proof. unfold moved_cursor. by destruct (str_mem _ _). Qed.

(** A step of a run: the worker that was chosen has the task, and nobody's load has
    changed. *)
Lemma auto_step_inv drv ctx task w rest basket db1 db2 :
  waiting_in db1 basket (task :: rest) → eligible_members db1 basket ≠ [] →
  (∀ wb, sql_get (by_id wb_id basket) (workbaskets db1) = Ok wb → wb_strategy wb ≠ "SKILL_SCORE") →
  within_tx drv (AutoAssign ctx task) db1 = (Ok tt, db2) →
  assigned_to db2 (at_ID task) = Some w →
  ∃ wb, sql_get (by_id wb_id basket) (workbaskets db1) = Ok wb ∧
    choice (wb_strategy wb) db1 basket task = Ok w ∧
    workbaskets db2 = workbaskets (moved_cursor (wb_strategy wb) basket w db1) ∧
    same_board db1 db2 ∧ waiting_in db2 basket rest.
Proof.
  intros (Hn & Hb & Hfree) Hne Hns Hrun Hto. apply within_tx_commits, AutoAssign_commits in Hrun.
  destruct Hrun as (b & wb & Eb & Hwb & Hrun).
  apply Forall_cons in Hb as [Hb Hrest]. rewrite Eb in Hb. injection Hb as ->.
  exists wb. specialize (Hns wb Hwb). split; [done|].
  destruct Hrun as [[Hc _]|(w' & row & Hc & Htn & (t & Ht & Ha) & Hdb)].
  { exfalso. revert Hc. unfold choice. destruct (_ =?s "LEAST_LOADED").
    - destruct (best _ _) eqn:E; [done|]. by apply best_None in E.
    - destruct (String.eqb_spec (wb_strategy wb) "SKILL_SCORE"); [done|]. unfold in_turn.
      destruct (best _ (List.filter _ _)); [done|]. destruct (best _ _) eqn:E; [done|].
      by apply best_None in E. }
  destruct (moved_cursor_fields (wb_strategy wb) basket w' db1) as (Et & Ew & Em & Eab).
  assert (Hid : t_id t = at_ID task).
  { unfold assignable, task_of in Ha. bool_simpl. by apply String.eqb_eq. }
  assert (Htk : tasks db2 = sql_update (assignable (at_ID task) (at_TenantID task)) (in_hand w')
                              (tasks db1)) by by subst db2.
  assert (Hw : w' = w).
  { unfold assigned_to, by_id in Hto. rewrite Htk, (sql_get_update t_id) in Hto by done.
    rewrite <- Hid, (sql_get_unique t_id), Hid in Hto by done.
    cbn in Hto. rewrite Ha in Hto. by injection Hto. }
  subst w'. split_and!; [done|by subst db2| |].
  - split_and!; [by subst db2..|]. intros x. unfold load, sql_count. rewrite Htk. do 2 f_equal.
    apply filter_update_other. intros r Hr Hp.
    unfold assignable, task_of in Hp. bool_simpl.
    assert (Hf : t_assignee_id r = None) by (apply Hfree; [done|]; cbn; rewrite (proj1 (String.eqb_eq _ _) H); left).
    cbn. rewrite Hf. by rewrite bool_decide_eq_false_2.
  - unfold waiting_in. rewrite Htk. split_and!; [|done|].
    + by rewrite (sql_update_map t_id) by done.
    + intros r Hr Hin. apply sql_update_elem in Hr as (r0 & Hr0 & ->).
      assert (E : t_id r0 ∈ map at_ID (task :: rest)).
      { right. by destruct (assignable _ _ r0). }
      specialize (Hfree r0 Hr0 E). by destruct (assignable _ _ r0).
Qed.
End AutoAssignment.

Section Runs.
Context `{env : Env}.
Implicit Types (db : database).

(** A run on a basket with one of the two strategies without skills: the choices are made
    on the board as it was at the start, the cursor apart. *)
Lemma auto_run_choices queue db ws db' basket wb :
  auto_run queue db ws db' → waiting_in db basket queue → eligible_members db basket ≠ [] →
  sql_get (by_id wb_id basket) (workbaskets db) = Ok wb →
  (wb_strategy wb = "LEAST_LOADED"%string →
     ∃ w, best (by_key (load db) id) (eligible_members db basket) = Some w ∧
          ws = repeat w (length queue)) ∧
  (wb_strategy wb = "ROUND_ROBIN"%string →
     ws = turns (length queue) (cursor_of db basket) (eligible_members db basket)) ∧
  (wb_strategy wb ≠ "SKILL_SCORE" → same_board db db').
Proof.
  intros Hrun. revert wb. induction Hrun as [db|drv ctx task w rest ws db1 db2 db3 Hstep Hto _ IH];
    intros wb Hwait Hne Hwb.
  { split_and!; [|done|done]. intros _.
    destruct (best _ _) as [w|] eqn:E; [by exists w|]. by apply best_None in E. }
  destruct (decide (wb_strategy wb = "SKILL_SCORE"%string)) as [Es|Es].
  { rewrite Es. split_and!; done. }
  destruct (auto_step_inv drv ctx task w rest basket db1 db2) as (wb' & Hwb' & Hc & Hb & Hsame & Hrest);
    [done|done| |done|done|].
  { intros wb0 Hwb0. rewrite Hwb in Hwb0. by injection Hwb0 as <-. }
  rewrite Hwb in Hwb'. injection Hwb' as <-.
  assert (Hwb2 : ∃ wb2, sql_get (by_id wb_id basket) (workbaskets db2) = Ok wb2 ∧
            wb_strategy wb2 = wb_strategy wb ∧
            (wb_strategy wb = "ROUND_ROBIN"%string → wb_cursor wb2 = Some w)).
  { rewrite Hb. unfold moved_cursor. destruct (str_mem _ _) eqn:Em.
    - exists wb. split_and!; [done..|]. intros E. by rewrite E in Em.
    - eexists. split; [cbn; apply by_id_update; done|]. done. }
  destruct Hwb2 as (wb2 & Hwb2 & Est & Ecur).
  rewrite <- (same_eligible db1 db2 basket) in Hne by done.
  destruct (IH wb2 Hrest Hne Hwb2) as (Hll & Hrr & Hs). rewrite Est in *.
  rewrite (same_eligible db1 db2 basket) in * by done. split_and!.
  - intros E. destruct (Hll E) as (w' & Hw' & ->).
    rewrite (best_ext _ (by_key (load db1) id)) in Hw' by
      (intros x y; unfold by_key; destruct Hsame as (_ & _ & _ & Hl); by rewrite !Hl).
    exists w'. split; [done|]. cbn. f_equal. unfold choice in Hc. rewrite E in Hc. cbn in Hc.
    rewrite Hw' in Hc. by injection Hc.
  - intros E. rewrite (Hrr E). unfold choice in Hc. rewrite E in Hc. cbn in Hc. cbn.
    destruct (in_turn _ _) as [x|]; [|done]. injection Hc as ->. f_equal.
    unfold cursor_of. rewrite Hwb2. by rewrite (Ecur E).
  - intros _. specialize (Hs Es). destruct Hsame as (E1 & E2 & E3 & E4), Hs as (F1 & F2 & F3 & F4).
    unfold same_board. rewrite F1, F2, F3. split_and!; [done..|]. intros x. by rewrite F4.
Qed.
End Runs.

(** C10. In a ROUND_ROBIN basket whose members do not change, as many consecutive automatic
    assignments as there are eligible members give each of them exactly one task, whatever
    the cursor was. *)
Theorem round_robin_is_fair `{env : Env} queue db users db' basket wb :
  auto_run queue db users db' → waiting_in db basket queue →
  sql_get (by_id wb_id basket) (workbaskets db) = Ok wb → wb_strategy wb = "ROUND_ROBIN"%string →
  NoDup (eligible_members db basket) → length queue = length (eligible_members db basket) →
  users ≡ₚ eligible_members db basket.
Proof.
  intros Hrun Hwait Hwb Hs Hn Hlen.
  destruct (decide (eligible_members db basket = [])) as [E|E].
  { rewrite E in Hlen |- *. destruct queue; [|done]. by inversion Hrun. }
  destruct (auto_run_choices queue db users db' basket wb) as (_ & Hrr & _); [done..|].
  rewrite (Hrr Hs), Hlen. by apply turns_permutation.
Qed.

(** Automatic assignment gives a task to a user and counts the load of workers: however
    many tasks of a LEAST_LOADED basket are assigned one after the other, all of them go to
    the same member, whose load stays what it was, below the limit of concurrent tasks. *)
Theorem least_loaded_takes_everything `{env : Env} queue db users db' basket wb :
  auto_run queue db users db' → waiting_in db basket queue → eligible_members db basket ≠ [] →
  sql_get (by_id wb_id basket) (workbaskets db) = Ok wb → wb_strategy wb = "LEAST_LOADED"%string →
  ∃ w, users = repeat w (length queue) ∧ on_duty db w ∧ load db' w = load db w.
Proof.
  intros Hrun Hwait Hne Hwb Hs.
  destruct (auto_run_choices queue db users db' basket wb) as (Hll & _ & Hsame); [done..|].
  destruct (Hll Hs) as (w & Hw & ->). exists w. split_and!; [done| |].
  - apply best_Some in Hw as [Hw _]; [|exact _]. by apply eligible_members_spec in Hw as [_ Hd].
  - destruct Hsame as (_ & _ & _ & Hl); [by rewrite Hs|]. apply Hl.
Qed.

(** ** Queued tasks in the engine *)

Definition same_tasks (db db' : database) : Prop := tasks db' = tasks db.
#[export] Instance same_tasks_preorder : PreOrder same_tasks.
Proof. split; [done|]. intros x y z Hxy Hyz. unfold same_tasks in *. congruence. Qed.

Section Engine.
Context `{env : Env}.

Lemma scanned_not_assigned busy ctx t db db' :
  commits busy (AutoAssign ctx (scanned t)) db = Some (tt, db') →
  db' = db ∧ ∃ basket wb, t_workbasket_id t = Some basket ∧
    sql_get (by_id wb_id basket) (workbaskets db) = Ok wb ∧
    choice (wb_strategy wb) db basket (scanned t) = Err ErrNoEligibleWorker.
Proof.
  intros H. apply AutoAssign_commits in H as (basket & wb & Hb & Hwb & [[Hc ->]|H]).
  - eauto 10.
  - by destruct H as (w & row & _ & [] & _).
Qed.

(** The task an event is about. *)
Definition names_task (event : event_row) (db : database) (t : task_row) : Prop :=
  ∃ taskID, str_assoc (ev_payload event) "task_id" = Some (VString taskID) ∧
    taskID ≠ "" ∧ sql_get (by_id t_id taskID) (tasks db) = Ok t.

Lemma queued_commits busy ctx event db db' :
  commits busy (on_task_queued ctx event) db = Some (tt, db') →
  db' = db ∧ ∀ t, names_task event db t →
    ∃ basket wb, t_workbasket_id t = Some basket ∧
      sql_get (by_id wb_id basket) (workbaskets db) = Ok wb ∧
      choice (wb_strategy wb) db basket (scanned t) = Err ErrNoEligibleWorker.
Proof.
  unfold on_task_queued, names_task.
  destruct (str_assoc (ev_payload event) "task_id") as [v|];
    [|intros H; injection H as <-; split; [done|]; by intros t (taskID & ? & _)].
  destruct v as [| | | |taskID| |];
    try (intros H; injection H as <-; split; [done|]; by intros t (taskID & ? & _)).
  intros H. tx_bind_inv H r d E. rewrite commits_attempt in E. unfold query_uuid in E.
  rewrite exec_query in E.
  destruct (forallb uuid_text [taskID]) eqn:Eu; [|done].
  destruct (sql_get (by_id t_id taskID) (tasks db)) as [t|e] eqn:Et.
  - injection E as <- <-. apply scanned_not_assigned in H as [-> H]. split; [done|].
    intros t' (taskID' & [= <-] & _ & Ht'). rewrite Et in Ht'. by injection Ht' as <-.
  - apply sql_get_Err in Et as E'. subst e. injection E as <- <-. injection H as <-.
    split; [done|]. intros t' (taskID' & [= <-] & _ & Ht'). congruence.
Qed.

Lemma balanced_on_task_queued ctx event : Balanced (on_task_queued ctx event).
Proof.
  unfold on_task_queued, AutoAssign, AssignTaskToUser. balance.
Qed.
End Engine.
#[export] Hint Resolve balanced_on_task_queued : balance.

(** C9. The engine loads the task of a TASK_QUEUED event without its tenant and then
    assigns it with a statement that casts the tenant to uuid.  So the event never assigns
    the task, nor changes any other; and when a worker of the basket qualifies, processing
    it fails. *)
Theorem queued_task_is_never_assigned `{env : Env} enforcement drv pool observer eventID event
    db r db' :
  ev_type event = "TASK_QUEUED"%string →
  (∀ handle, observer = Some handle → ∀ ctx e, Balanced (handle ctx e) ∧
                                               tx_all same_tasks (handle ctx e)) →
  processEvent enforcement drv pool (engine_business observer) eventID event db = (r, db') →
  tasks db' = tasks db ∧
  ∀ t basket wb w, names_task event db t → t_workbasket_id t = Some basket →
    sql_get (by_id wb_id basket) (workbaskets db) = Ok wb → skills_keyed db →
    qualified (wb_strategy wb) db basket (scanned t) w → is_Ok r = false.
Proof.
  intros Htype Hobs. unfold processEvent.
  destruct (within_tx drv _ db) as [[[]|e] d] eqn:E.
  2: { apply within_tx_rollback in E as ->. intros [= <- <-]. split; [|done].
       destruct (on_pool pool _ db) as [r' d'] eqn:Ep.
       by apply status_pooled in Ep as [->| ->]. }
  intros [= <- <-]. apply within_tx_commits in E.
  assert (Hbal : Balanced (engine_business observer event)).
  { unfold engine_business. rewrite Htype. apply balanced_bind; [cbn; balance|]. intros [].
    destruct observer as [handle|]; [|balance].
    destruct (isNotificationInternalOutboxEvent _); [balance|by apply Hobs]. }
  apply commits_bind_inv in E as ([] & d1 & Eb & E); [|done].
  apply status_commits in E as (_ & ->). change (tasks (settle _ _ _ ?x)) with (tasks x).
  unfold engine_business in Eb. rewrite Htype in Eb. cbn -[on_task_queued] in Eb.
  tx_bind_inv Eb u d2 Hqd. destruct u. apply queued_commits in Hqd as [-> Hq]. split.
  - destruct observer as [handle|]; [|by injection Eb as <-].
    destruct (isNotificationInternalOutboxEvent _); [by injection Eb as <-|].
    apply (commits_all _ same_tasks) in Eb; [done|]. by apply (Hobs handle).
  - intros t basket wb w Hn Hb Hwb Hk Hw. destruct (Hq t Hn) as (b & wb' & Hb' & Hwb' & Hc).
    rewrite Hb in Hb'. injection Hb' as <-. rewrite Hwb in Hwb'. injection Hwb' as <-.
    apply choice_Err in Hc as [[_ Hno]|(_ & _ & ?)]; [|done..]. by destruct (Hno w).
Qed.

(** ** Claiming, and the other operations of the manager *)

Section Ownership.
Context `{env : Env}.

(** The row a claim leaves. *)
Definition claimed_by (userID : string) (t : task_row) : task_row :=
  t <| t_assigned_user_id := Some userID |> <| t_status := "IN_PROGRESS" |>
    <| t_assigned_at := Some env_now |> <| t_version ::= Z.succ |>.
Definition claimable (task : task_row) (taskID tenantID : string) (t : task_row) : bool :=
  task_of taskID tenantID t && bool_decide (t_assigned_user_id t = None) &&
  (t_version t =? t_version task).

(** A committed claim: the task had no owner, and the user is in its team, if it has one. *)
Lemma ClaimTask_commits busy ctx taskID userID tenantID db db' :
  commits busy (ClaimTask ctx taskID userID tenantID) db = Some (tt, db') →
  ∃ task t, sql_get (task_of taskID tenantID) (tasks db) = Ok task ∧
    t ∈ tasks db ∧ claimable task taskID tenantID t = true ∧
    (∀ team, t_assigned_team_id task = Some team → is_team_member tenantID team userID db = true) ∧
    db' = outbox_with (outbox_row ctx "TASK_CLAIMED"
            [("task_id", VString taskID); ("user_id", VString userID)])
          (db <| tasks := sql_update (claimable task taskID tenantID) (claimed_by userID)
                            (tasks db) |>).
Proof.
  unfold ClaimTask. intros H. tx_bind_inv H task d E.
  apply commits_query_inv in E as [E ->]. destruct (forallb _ _); [|done].
  tx_bind_inv H u d E'.
  assert (Hteam : d = db ∧ ∀ team, t_assigned_team_id task = Some team →
            is_team_member tenantID team userID db = true).
  { destruct (t_assigned_team_id task) as [team|]; [|by injection E' as <-].
    tx_bind_inv E' m d' Em. apply commits_query_inv in Em as [Em ->].
    destruct (forallb _ _); [|done]. injection Em as <-.
    destruct (is_team_member tenantID team userID db) eqn:Et; [|done].
    injection E' as <-. split; [done|]. by intros ? [= <-]. }
  destruct Hteam as [-> Hteam]. tx_bind_inv H n d' E2.
  apply commits_update_tasks in E2 as (_ & -> & -> & _).
  destruct (sql_count _ _ =? 0) eqn:E0; [done|].
  rewrite commits_InsertOutboxEvent in H by (vm_compute; discriminate). injection H as <-.
  rewrite sql_count_existsb, negb_false_iff, existsb_exists in E0.
  destruct E0 as (t & Ht & Hp). exists task, t. rewrite list_elem_of_In. done.
Qed.
End Ownership.

(** ** On concrete data *)

Definition assignment_env : Env := sample_env case_statuses_35.
Definition a_worker (name : string) : worker_row :=
  {| wk_id := name; wk_max_concurrent_tasks := 1; wk_status := "ACTIVE" |}.
Definition in_basket (name : string) : member_row :=
  {| bm_workbasket_id := "basket"; bm_worker_id := name |}.
Definition queued (id : string) : task_row :=
  blank_task id "case-1" "CHECK" "PENDING" <| t_workbasket_id := Some "basket"%string |>
    <| t_required_skills := Some [("TAX", "COMPETENT")]%string |>.
(** A basket of two, and two tasks waiting in it; both members know about taxes. *)
Definition a_basket (strategy : string) : database :=
  empty_db <| workers := map a_worker ["bob"; "ann"]%string |>
    <| users := map blank_user ["bob"; "ann"]%string |>
    <| basket_members := map in_basket ["bob"; "ann"]%string |>
    <| workbaskets := [ {| wb_id := "basket"; wb_type := "ESCALATION"; wb_strategy := strategy;
                           wb_cursor := None |} ] |>
    <| worker_skills :=
         [ {| sk_worker_id := "ann"; sk_code := "TAX"; sk_proficiency := "COMPETENT" |};
           {| sk_worker_id := "bob"; sk_code := "TAX"; sk_proficiency := "EXPERT" |} ]%string |>
    <| tasks := map queued ["task-1"; "task-2"]%string |>.
Definition as_task (id : string) : Task :=
  let t := scanned (queued id) in
  {| at_ID := at_ID t; at_WorkbasketID := at_WorkbasketID t;
     at_RequiredSkills := at_RequiredSkills t; at_TenantID := DefaultTenantID |}.

Lemma a_basket_keyed strategy : skills_keyed (a_basket strategy).
Proof.
  split; [|repeat constructor].
  cbn. repeat constructor; rewrite ?elem_of_cons, ?elem_of_nil; intuition discriminate.
Qed.

Lemma same_skills_keyed db db' :
  worker_skills db' = worker_skills db → skills_keyed db → skills_keyed db'.
Proof. unfold skills_keyed. by intros ->. Qed.

Lemma FindCandidate_spec_witness :
  let _ := assignment_env in
  choice "SKILL_SCORE" (a_basket "SKILL_SCORE") "basket" (as_task "task-1") = Ok "bob"%string ∧
  ∃ r db', commits false (tx_attempt (FindCandidate "SKILL_SCORE" (as_task "task-1")))
             (a_basket "SKILL_SCORE") = Some (r, db').
Proof.
  intros env. split; [vm_compute; reflexivity|].
  destruct (FindCandidate_spec false "SKILL_SCORE" (as_task "task-1") "basket"
    {| wb_id := "basket"; wb_type := "ESCALATION"; wb_strategy := "SKILL_SCORE";
       wb_cursor := None |} (a_basket "SKILL_SCORE")) as (r & db' & H & _).
  - reflexivity.
  - vm_compute. reflexivity.
  - apply a_basket_keyed.
  - exists r, db'. exact H.
Defined.

(** The two tasks, one after the other. *)
Definition auto_assigned (id : string) (db : database) : database :=
  snd (within_tx (reliable true) (AutoAssign (env := assignment_env)
         (env_ctx (Env := assignment_env)) (as_task id)) db).
Definition both_assigned (strategy : string) : database :=
  auto_assigned "task-2" (auto_assigned "task-1" (a_basket strategy)).

Lemma both_run strategy w1 w2 :
  within_tx (reliable true) (AutoAssign (env := assignment_env)
    (env_ctx (Env := assignment_env)) (as_task "task-1")) (a_basket strategy) =
    (Ok tt, auto_assigned "task-1" (a_basket strategy)) →
  assigned_to (auto_assigned "task-1" (a_basket strategy)) "task-1" = Some w1 →
  within_tx (reliable true) (AutoAssign (env := assignment_env)
    (env_ctx (Env := assignment_env)) (as_task "task-2"))
    (auto_assigned "task-1" (a_basket strategy)) = (Ok tt, both_assigned strategy) →
  assigned_to (both_assigned strategy) "task-2" = Some w2 →
  auto_run (env := assignment_env) (map as_task ["task-1"; "task-2"]%string) (a_basket strategy)
    [w1; w2] (both_assigned strategy).
Proof.
  intros H1 A1 H2 A2. eapply auto_step; [exact H1|exact A1|].
  eapply auto_step; [exact H2|exact A2|]. constructor.
Qed.

Lemma both_waiting strategy :
  waiting_in (a_basket strategy) "basket" (map as_task ["task-1"; "task-2"]%string).
Proof.
  split_and!.
  - cbn. repeat constructor; rewrite ?elem_of_cons, ?elem_of_nil; intuition discriminate.
  - repeat constructor.
  - intros t Ht _. cbn in Ht. repeat (apply elem_of_cons in Ht as [->|Ht]; [done|]). inversion Ht.
Qed.

Lemma round_robin_is_fair_witness :
  let _ := assignment_env in
  auto_run (map as_task ["task-1"; "task-2"]%string) (a_basket "ROUND_ROBIN") ["ann"; "bob"]%string
    (both_assigned "ROUND_ROBIN") ∧
  (["ann"; "bob"]%string) ≡ₚ eligible_members (a_basket "ROUND_ROBIN") "basket".
Proof.
  intros env.
  assert (Hrun : auto_run (map as_task ["task-1"; "task-2"]%string) (a_basket "ROUND_ROBIN")
    ["ann"; "bob"]%string (both_assigned "ROUND_ROBIN"))
    by (apply both_run; vm_compute; reflexivity).
  split; [exact Hrun|].
  apply (round_robin_is_fair (map as_task ["task-1"; "task-2"]%string) (a_basket "ROUND_ROBIN")
    ["ann"; "bob"]%string (both_assigned "ROUND_ROBIN") "basket"
    {| wb_id := "basket"; wb_type := "ESCALATION"; wb_strategy := "ROUND_ROBIN";
       wb_cursor := None |} Hrun (both_waiting "ROUND_ROBIN")).
  - vm_compute. reflexivity.
  - reflexivity.
  - change (NoDup ["bob"; "ann"]%string).
    repeat constructor; rewrite ?elem_of_cons, ?elem_of_nil; intuition discriminate.
  - vm_compute. reflexivity.
Defined.

(** Both tasks go to ann, whose limit is one task. *)
Lemma least_loaded_takes_everything_witness :
  let _ := assignment_env in
  auto_run (map as_task ["task-1"; "task-2"]%string) (a_basket "LEAST_LOADED") ["ann"; "ann"]%string
    (both_assigned "LEAST_LOADED") ∧
  ∃ w, (["ann"; "ann"]%string) = repeat w 2 ∧
    load (both_assigned "LEAST_LOADED") w = load (a_basket "LEAST_LOADED") w.
Proof.
  intros env.
  assert (Hrun : auto_run (map as_task ["task-1"; "task-2"]%string) (a_basket "LEAST_LOADED")
    ["ann"; "ann"]%string (both_assigned "LEAST_LOADED"))
    by (apply both_run; vm_compute; reflexivity).
  split; [exact Hrun|].
  destruct (least_loaded_takes_everything (map as_task ["task-1"; "task-2"]%string)
    (a_basket "LEAST_LOADED") ["ann"; "ann"]%string (both_assigned "LEAST_LOADED") "basket"
    {| wb_id := "basket"; wb_type := "ESCALATION"; wb_strategy := "LEAST_LOADED";
       wb_cursor := None |} Hrun (both_waiting "LEAST_LOADED")) as (w & H1 & _ & H2).
  - vm_compute. discriminate.
  - vm_compute. reflexivity.
  - reflexivity.
  - exists w. split; [exact H1|exact H2].
Defined.

(** An event for task-1 in the outbox, polled. *)
Definition queued_event : event_row :=
  new_event "TASK_QUEUED" None None [("task_id", VString "task-1")]
    <| ev_tenant_id := DefaultTenantID |> <| ev_status := "PROCESSING" |>.
Definition queued_db : database := a_basket "ROUND_ROBIN" <| outbox := [queued_event] |>.

Lemma queued_task_is_never_assigned_witness :
  let _ := assignment_env in
  let run := processEvent "" (reliable true) (reliable true) (engine_business None) 0 queued_event
               queued_db in
  is_Ok (fst run) = false ∧ tasks (snd run) = tasks queued_db.
Proof.
  intros env run.
  destruct (queued_task_is_never_assigned "" (reliable true) (reliable true) None 0 queued_event
    queued_db (fst run) (snd run)) as [H1 H2].
  - reflexivity.
  - intros handle H. discriminate H.
  - exact (surjective_pairing run).
  - split; [|exact H1].
    apply (H2 (queued "task-1") "basket"%string
      {| wb_id := "basket"; wb_type := "ESCALATION"; wb_strategy := "ROUND_ROBIN";
         wb_cursor := None |} "ann"%string).
    + exists "task-1"%string. split_and!; [reflexivity|discriminate|vm_compute; reflexivity].
    + reflexivity.
    + vm_compute. reflexivity.
    + apply (same_skills_keyed (a_basket "ROUND_ROBIN")); [vm_compute; reflexivity|apply a_basket_keyed].
    + assert (Hin : "ann"%string ∈ eligible_members queued_db "basket").
      { change ("ann"%string ∈ ["bob"; "ann"]%string). right. left. }
      apply eligible_members_spec in Hin as [Hm Hd]. split_and!; [exact Hm|exact Hd|discriminate].
Defined.

(** A finished task without an owner can be claimed, and is in progress again. *)
Example finished_task_is_claimed :
  let _ := assignment_env in
  let db := a_basket "ROUND_ROBIN" <| tasks := [blank_task "task-1" "case-1" "CHECK" "COMPLETED"] |> in
  let run := within_tx (reliable true) (ClaimTask env_ctx "task-1" "ann" DefaultTenantID) db in
  fst run = Ok tt ∧ map t_status (tasks (snd run)) = ["IN_PROGRESS"]%string.
Proof. vm_compute. split; reflexivity. Qed.
