(* ===== verification/Teams.v ===== *)
(** * Users, roles and teams (internal/multitenancy: user_team_helpers.go,
    user_team_permissions.go, user_team_users.go, user_team_roles_teams.go)

    Each operation checks its arguments, opens a transaction, and publishes an event in
    it.  The permissions of a user are read anew by every check: the cache that lives as
    long as a request is left out, and so are foreign keys to tables of tenants. *)

From Stdlib Require Import Ascii String ZArith Lia.
From stdpp Require Import base list strings.
From S2P Require Import Prelude ApprovalExpr SqlTx Schema Outbox Operations.

Open Scope Z_scope.
Open Scope go_scope.

(** ** user_team_helpers.go *)

Definition resolveTenantIDForOperation (ctx : go_context) (tenantID : string) : result string :=
  let tenantID := TrimSpace tenantID in
  match TenantFromContext ctx with
  | Some fromCtx =>
      if tenantID =?s "" then Ok fromCtx
      else if negb (tenantID =?s fromCtx) then Err (ErrMsg "tenant mismatch")
      else Ok tenantID
  | None => if tenantID =?s "" then Err ErrTenantNotFound else Ok tenantID
  end.

Definition normalized (codes : list string) (s : string) : string :=
  let s := ToUpper (TrimSpace s) in if str_mem s codes then s else "".
Definition normalizeUserStatus : string → string :=
  normalized ["ACTIVE"; "SUSPENDED"; "DEACTIVATED"].
Definition normalizeAuthProvider : string → string := normalized ["LOCAL"; "OIDC"; "SAML"].
Definition normalizeTeamStatus : string → string := normalized ["ACTIVE"; "DISBANDED"].
Definition normalizeTeamType : string → string :=
  normalized ["PROCESSING"; "UNDERWRITING"; "APPROVAL"; "OPERATIONS"; "MIXED"].
Definition normalizeTeamMemberRole : string → string := normalized ["MEMBER"; "LEAD"; "MANAGER"].

Definition normalizeExternalID (externalID : option string) : option string :=
  match externalID with
  | None => None
  | Some s => let v := TrimSpace s in if v =?s "" then None else Some v
  end.
Definition normalizeTimezone (timezone : string) : string := orElse (TrimSpace timezone) "UTC".
Definition normalizeLocale (locale : string) : string := orElse (TrimSpace locale) "en-US".

(** Page and size: at least 1, at most 200 rows. *)
Definition sanitizePagination (page size : Z) : Z * Z :=
  let page := if page <=? 0 then 1 else page in
  let size := if size <=? 0 then 50 else size in
  let size := if 200 <? size then 200 else size in
  (page, size).

Definition string_all (f : ascii → bool) (s : string) : bool := forallb f (string_chars s).
Definition is_alpha (c : ascii) : bool := is_upper c || is_lower c.
Definition is_alnum (c : ascii) : bool := is_alpha c || is_digit c.
(** The class [\s] of a regular expression: blank, tab, LF, FF, CR. *)
Definition re_space (c : ascii) : bool :=
  let n := byte_of c in ((n =? 32) || (n =? 9) || (n =? 10) || (n =? 12) || (n =? 13))%N.

(** Two non-empty parts around one of the dots. *)
Fixpoint inner_dot (before : bool) (s : string) : bool :=
  match s with
  | EmptyString => false
  | String c r =>
      before && Ascii.eqb c "."%char && negb (r =?s "") || inner_dot true r
  end.
(** [^[^@\s]+@[^@\s]+\.[^@\s]+$] *)
Definition emailBasicPattern (s : string) : bool :=
  match split_on "@"%char s with
  | [name; domain] =>
      negb (name =?s "") && string_all (λ c, negb (re_space c)) s && inner_dot false domain
  | _ => false
  end.
(** [^[A-Za-z]{2,3}(-[A-Za-z0-9]{2,8})*$] *)
Definition localePattern (s : string) : bool :=
  let between lo hi (p : string) := (lo <=? String.length p)%nat && (String.length p <=? hi)%nat in
  match split_on "-"%char s with
  | language :: rest =>
      between 2%nat 3%nat language && string_all is_alpha language &&
      forallb (λ p, between 2%nat 8%nat p && string_all is_alnum p) rest
  | [] => false
  end.

Record CreateUserInput := {
  cu_TenantID : string; cu_Username : string; cu_Email : string; cu_DisplayName : string;
  cu_Status : string; cu_AuthProvider : string; cu_ExternalID : option string;
  cu_Timezone : string; cu_Locale : string; cu_CreatedBy : string;
}.
Record UpdateUserProfileInput := {
  up_DisplayName : string; up_Timezone : string; up_Locale : string; up_UpdatedBy : string;
}.
Record CreateTeamInput := {
  cm_TenantID : string; cm_TeamCode : string; cm_DisplayName : string; cm_TeamType : string;
  cm_ParentTeamID : option string; cm_ManagerUserID : option string; cm_CreatedBy : string;
}.

(** [time.LoadLocation] succeeds on the names of the zone database. *)
Definition validateUserCreateInput (zone_known : string → bool) (input : CreateUserInput)
    : result CreateUserInput :=
  let input :=
    {| cu_TenantID := cu_TenantID input; cu_Username := TrimSpace (cu_Username input);
       cu_Email := ToLower (TrimSpace (cu_Email input));
       cu_DisplayName := TrimSpace (cu_DisplayName input);
       cu_Status := orElse (normalizeUserStatus (cu_Status input)) "ACTIVE";
       cu_AuthProvider := orElse (normalizeAuthProvider (cu_AuthProvider input)) "LOCAL";
       cu_ExternalID := normalizeExternalID (cu_ExternalID input);
       cu_Timezone := normalizeTimezone (cu_Timezone input);
       cu_Locale := normalizeLocale (cu_Locale input);
       cu_CreatedBy := orElse (TrimSpace (cu_CreatedBy input)) "system" |} in
  if cu_Username input =?s "" then Err (ErrMsg "username is required")
  else if (cu_Email input =?s "") || negb (emailBasicPattern (cu_Email input))
  then Err (ErrMsg "email is invalid")
  else if cu_DisplayName input =?s "" then Err (ErrMsg "display_name is required")
  else if negb (zone_known (cu_Timezone input)) then Err (ErrMsg "timezone is invalid")
  else if negb (localePattern (cu_Locale input)) then Err (ErrMsg "locale is invalid")
  else Ok input.

Definition validateUserProfileInput (zone_known : string → bool) (input : UpdateUserProfileInput)
    : result UpdateUserProfileInput :=
  let input :=
    {| up_DisplayName := TrimSpace (up_DisplayName input);
       up_Timezone := normalizeTimezone (up_Timezone input);
       up_Locale := normalizeLocale (up_Locale input);
       up_UpdatedBy := orElse (TrimSpace (up_UpdatedBy input)) "system" |} in
  if up_DisplayName input =?s "" then Err (ErrMsg "display_name is required")
  else if negb (zone_known (up_Timezone input)) then Err (ErrMsg "timezone is invalid")
  else if negb (localePattern (up_Locale input)) then Err (ErrMsg "locale is invalid")
  else Ok input.

Definition validateCreateTeamInput (input : CreateTeamInput) : result CreateTeamInput :=
  let input :=
    {| cm_TenantID := cm_TenantID input; cm_TeamCode := ToUpper (TrimSpace (cm_TeamCode input));
       cm_DisplayName := TrimSpace (cm_DisplayName input);
       cm_TeamType := normalizeTeamType (cm_TeamType input);
       cm_ParentTeamID := cm_ParentTeamID input; cm_ManagerUserID := cm_ManagerUserID input;
       cm_CreatedBy := orElse (TrimSpace (cm_CreatedBy input)) "system" |} in
  if cm_TeamCode input =?s "" then Err (ErrMsg "team_code is required")
  else if cm_DisplayName input =?s "" then Err (ErrMsg "display_name is required")
  else if cm_TeamType input =?s "" then Err (ErrMsg "team_type is required")
  else Ok input.

Section Directory.
Context `{env : Env}.

Definition publishUserTeamEventTx (tenantID : string) (caseID taskID : option string)
    (event_type : string) (payload : list (string * value)) : Tx database unit :=
  multitenancy_PublishEvent
    (new_event event_type caseID taskID (set_key payload "tenant_id" (VString tenantID))
       <| ev_tenant_id := tenantID |> <| ev_target_service := "case-orchestrator" |>
       <| ev_max_attempts := 5 |>).

Definition of_user (tenantID userID : string) (u : user_row) : bool :=
  (u_tenant_id u =?s tenantID) && (u_user_id u =?s userID).
(** A foreign key (tenant_id, user). *)
Definition user_exists (tenantID userID : string) (db : database) : bool :=
  existsb (of_user tenantID userID) (users db).

(** ** user_team_permissions.go *)

(** The permissions of the roles of a user, in upper case. *)
Definition effective_permissions (tenantID userID : string) (db : database) : list string :=
  List.filter (λ p, negb (p =?s ""))
    (map (λ p, ToUpper (TrimSpace p))
       (flat_map (λ ur,
          flat_map ro_permissions
            (List.filter (λ r, (ro_id r =?s ur_role_id ur) && (ro_tenant_id r =?s ur_tenant_id ur))
               (roles db)))
          (List.filter (λ ur, (ur_tenant_id ur =?s tenantID) && (ur_user_id ur =?s userID))
             (user_roles db)))).

Definition UserHasPermission (ctx : go_context) (userID tenantID permission : string)
    : Tx database bool :=
  tenant ← tx_of (resolveTenantIDForOperation ctx tenantID);
  let userID := TrimSpace userID in
  let permission := ToUpper (TrimSpace permission) in
  _ ← tx_of (required userID "userID is required");
  _ ← tx_of (required permission "permission is required");
  query (λ db, Ok (str_mem permission (effective_permissions tenant userID db))).

Definition AssertPermission (ctx : go_context) (userID tenantID permission : string)
    : Tx database unit :=
  has ← UserHasPermission ctx userID tenantID permission;
  if has : bool then mret tt else throw (ErrPermissionDenied permission).

Definition underwriter_permissions : list string :=
  ["CASE_VIEW_ALL"; "TASK_CLAIM"; "TASK_COMPLETE"; "TASK_REJECT"; "TASK_VIEW_ALL"].
Definition senior_permissions : list string :=
  underwriter_permissions ++ ["APPROVAL_APPROVE"; "APPROVAL_REJECT"; "APPROVAL_VIEW_ALL"].
Definition supervisor_permissions : list string :=
  senior_permissions ++ ["APPROVAL_ESCALATE"; "TASK_REASSIGN"; "CASE_REASSIGN"; "REPORT_VIEW";
                         "REPORT_OPERATIONAL"].
Definition all_permissions : list string :=
  ["CASE_CREATE"; "CASE_VIEW_OWN"; "CASE_VIEW_ALL"; "CASE_CANCEL"; "CASE_REASSIGN"; "TASK_CLAIM";
   "TASK_COMPLETE"; "TASK_REJECT"; "TASK_REASSIGN"; "TASK_VIEW_OWN"; "TASK_VIEW_ALL";
   "APPROVAL_APPROVE"; "APPROVAL_REJECT"; "APPROVAL_ESCALATE"; "APPROVAL_VIEW_ALL";
   "REPORT_VIEW"; "REPORT_EXPORT"; "REPORT_OPERATIONAL"; "USER_CREATE"; "USER_SUSPEND";
   "USER_DEACTIVATE"; "USER_VIEW"; "ROLE_MANAGE"; "TEAM_MANAGE"; "CASETYPE_MANAGE";
   "TENANT_CONFIG_MANAGE"]%string.
Definition systemRolePermissions : list (string * list string) :=
  [ ("LOAN_OFFICER", ["CASE_CREATE"; "CASE_VIEW_OWN"; "TASK_CLAIM"; "TASK_COMPLETE";
                      "TASK_VIEW_OWN"]);
    ("UNDERWRITER", underwriter_permissions); ("SENIOR_APPROVER", senior_permissions);
    ("SUPERVISOR", supervisor_permissions); ("ADMIN", all_permissions) ]%string.

(** [INSERT .. ON CONFLICT (tenant_id, role_code) DO UPDATE] *)
Definition upsert_role (tenantID code : string) (permissions : list string) : Tx database unit :=
  stmt (λ db,
    let same r := (ro_tenant_id r =?s tenantID) && (ro_code r =?s code) in
    if existsb same (roles db)
    then Ok (tt, db <| roles := sql_update same
                  (λ r, r <| ro_is_system := true |> <| ro_permissions := permissions |>)
                  (roles db) |>)
    else Ok (tt, db <| roles := roles db ++
               [ {| ro_id := env_uuid (uuid_pos db); ro_tenant_id := tenantID; ro_code := code;
                    ro_is_system := true; ro_permissions := permissions |} ] |>
               <| uuid_pos ::= S |>)).

Definition SeedSystemRoles (tenantID : string) : Tx database unit :=
  let tenantID := TrimSpace tenantID in
  _ ← tx_of (required tenantID "tenantID is required");
  tx_each (λ r, upsert_role tenantID r.1 r.2) systemRolePermissions.

(** ** user_team_users.go *)

Definition user_check (u : user_row) : bool :=
  str_mem (u_status u) ["ACTIVE"; "SUSPENDED"; "DEACTIVATED"] &&
  str_mem (u_auth_provider u) ["LOCAL"; "OIDC"; "SAML"].

(** [INSERT INTO users .. RETURNING], with the unique constraints [mapUserInsertError]
    tells apart; the trigger makes the old identifier the text of the new one. *)
Definition insert_user (mk : string → user_row) : Tx database user_row :=
  stmt (λ db,
    let u := mk (env_uuid (uuid_pos db)) in
    let taken p := existsb (λ v, (u_tenant_id v =?s u_tenant_id u) && p v) (users db) in
    if negb (user_check u) || existsb (λ v, u_user_id v =?s u_user_id u) (users db)
    then Err ErrSQL
    else if taken (λ v, EqualFold (u_username v) (u_username u)) then Err ErrUsernameTaken
    else if taken (λ v, EqualFold (u_email v) (u_email u)) then Err ErrEmailTaken
    else if taken (λ v, bool_decide (is_Some (u_external_id u)) &&
                        bool_decide (u_external_id v = u_external_id u))
    then Err ErrExternalIDConflict
    else Ok (u, db <| users := users db ++ [u] |> <| uuid_pos ::= S |>)).

Definition new_user (tenant : string) (input : CreateUserInput) (id : string) : user_row :=
  {| u_id := id; u_role_code := "USER"; u_manager_id := None; u_status := cu_Status input;
     u_created_at := env_now; u_user_id := id; u_tenant_id := tenant;
     u_username := cu_Username input; u_email := cu_Email input;
     u_display_name := cu_DisplayName input; u_auth_provider := cu_AuthProvider input;
     u_external_id := cu_ExternalID input; u_timezone := cu_Timezone input;
     u_locale := cu_Locale input |}.

Definition CreateUser_tx (tenant : string) (input : CreateUserInput) : Tx database user_row :=
  user ← insert_user (new_user tenant input);
  _ ← publishUserTeamEventTx tenant None None "USER_CREATED"
        [("user_id", VString (u_user_id user)); ("username", VString (u_username user));
         ("email", VString (u_email user)); ("auth_provider", VString (u_auth_provider user));
         ("created_by", VString (cu_CreatedBy input)); ("occurred_at", VOther env_clock)];
  mret user.
Definition CreateUser (zone_known : string → bool) (drv : driver) (ctx : go_context)
    (input : CreateUserInput) (db : database) : result user_row * database :=
  then_tx (input ← validateUserCreateInput zone_known input;
           tenant ← resolveTenantIDForOperation ctx (cu_TenantID input);
           Ok (tenant, input), db) drv (λ x, CreateUser_tx x.1 x.2).

Definition lock_user (tenant userID : string) : Tx database user_row :=
  get_or ErrUserNotFound users (of_user tenant userID).
Definition set_user_status (tenant userID status : string) : Tx database Z :=
  update_in users user_check (of_user tenant userID) (λ u, u <| u_status := status |>).

Definition user_arguments (ctx : go_context) (userID tenantID : string)
    : result (string * string) :=
  _ ← required (TrimSpace userID) "userID is required";
  tenant ← resolveTenantIDForOperation ctx tenantID;
  Ok (tenant, TrimSpace userID).
Definition by_system (s : string) : string := orElse (TrimSpace s) "system".

Definition SuspendUser_tx (tenant userID suspendedBy reason : string) : Tx database unit :=
  u ← lock_user tenant userID;
  let s := normalizeUserStatus (u_status u) in
  _ ← (if s =?s "DEACTIVATED" then throw ErrUserDeactivated else mret tt);
  _ ← (if negb (s =?s "SUSPENDED")
       then (_ ← set_user_status tenant userID "SUSPENDED"; mret tt) else mret tt);
  publishUserTeamEventTx tenant None None "USER_SUSPENDED"
    [("user_id", VString userID); ("suspended_by", VString suspendedBy);
     ("reason", VString reason); ("occurred_at", VOther env_clock)].
Definition SuspendUser (drv : driver) (ctx : go_context)
    (userID tenantID suspendedBy reason : string) (db : database) : result unit * database :=
  then_tx (user_arguments ctx userID tenantID, db) drv
    (λ x, SuspendUser_tx x.1 x.2 (by_system suspendedBy) (TrimSpace reason)).

(** The tasks a user who leaves gives back. *)
Definition open_task_of (tenant userID : string) (t : task_row) : bool :=
  (t_tenant_id t =?s tenant) && bool_decide (t_assigned_user_id t = Some userID) &&
  str_mem (t_status t) ["IN_PROGRESS"; "PENDING"].
Definition given_back (t : task_row) : task_row :=
  t <| t_assigned_user_id := None |> <| t_status := "PENDING" |> <| t_assigned_at := None |>
    <| t_version ::= Z.succ |>.

Definition DeactivateUser_tx (tenant userID deactivatedBy reason : string)
    : Tx database unit :=
  u ← lock_user tenant userID;
  _ ← (if negb (normalizeUserStatus (u_status u) =?s "DEACTIVATED")
       then (_ ← set_user_status tenant userID "DEACTIVATED"; mret tt) else mret tt);
  open ← query (λ db, Ok (sql_select (open_task_of tenant userID) (tasks db)));
  _ ← (if Nat.eqb (length open) 0 then mret tt
       else
         _ ← update_in tasks task_check
               (λ t, (t_tenant_id t =?s tenant) && str_mem (t_id t) (map t_id open)) given_back;
         tx_each (λ t,
           let caseID := TrimSpace (t_case_id t) in
           publishUserTeamEventTx tenant (if caseID =?s "" then None else Some caseID)
             (Some (t_id t)) "TASK_UNASSIGNED"
             [("task_id", VString (t_id t)); ("user_id", VString userID);
              ("unassigned_by", VString deactivatedBy); ("reason", VString reason);
              ("source", VString "user_deactivation"); ("occurred_at", VOther env_clock)])
           open);
  publishUserTeamEventTx tenant None None "USER_DEACTIVATED"
    [("user_id", VString userID); ("deactivated_by", VString deactivatedBy);
     ("reason", VString reason); ("unassigned_tasks", VInt (Z.of_nat (length open)));
     ("occurred_at", VOther env_clock)].
Definition DeactivateUser (drv : driver) (ctx : go_context)
    (userID tenantID deactivatedBy reason : string) (db : database) : result unit * database :=
  then_tx (user_arguments ctx userID tenantID, db) drv
    (λ x, DeactivateUser_tx x.1 x.2 (by_system deactivatedBy) (TrimSpace reason)).

Definition ReactivateUser_tx (tenant userID reactivatedBy : string) : Tx database unit :=
  u ← lock_user tenant userID;
  let s := normalizeUserStatus (u_status u) in
  _ ← (if s =?s "DEACTIVATED" then throw ErrUserDeactivated else mret tt);
  _ ← (if s =?s "SUSPENDED"
       then (_ ← set_user_status tenant userID "ACTIVE"; mret tt) else mret tt);
  publishUserTeamEventTx tenant None None "USER_REACTIVATED"
    [("user_id", VString userID); ("reactivated_by", VString reactivatedBy);
     ("occurred_at", VOther env_clock)].
Definition ReactivateUser (drv : driver) (ctx : go_context)
    (userID tenantID reactivatedBy : string) (db : database) : result unit * database :=
  then_tx (user_arguments ctx userID tenantID, db) drv
    (λ x, ReactivateUser_tx x.1 x.2 (by_system reactivatedBy)).

Definition UpdateUserProfile_tx (tenant userID : string) (input : UpdateUserProfileInput)
    : Tx database unit :=
  n ← update_in users user_check (of_user tenant userID)
        (λ u, u <| u_display_name := up_DisplayName input |> <| u_timezone := up_Timezone input |>
                <| u_locale := up_Locale input |>);
  _ ← (if n =? 0 then throw ErrUserNotFound else mret tt);
  publishUserTeamEventTx tenant None None "USER_PROFILE_UPDATED"
    [("user_id", VString userID); ("updated_by", VString (up_UpdatedBy input));
     ("occurred_at", VOther env_clock)].
Definition UpdateUserProfile (zone_known : string → bool) (drv : driver) (ctx : go_context)
    (userID tenantID : string) (input : UpdateUserProfileInput) (db : database)
    : result unit * database :=
  then_tx (input ← validateUserProfileInput zone_known input;
           x ← user_arguments ctx userID tenantID;
           Ok (x, input), db) drv (λ x, UpdateUserProfile_tx x.1.1 x.1.2 x.2).

(** The part of [RecordUserLogin] that decides; the write is buffered. *)
Definition RecordUserLogin (pool : driver) (ctx : go_context) (userID tenantID : string)
    (db : database) : result unit :=
  x ← user_arguments ctx userID tenantID;
  fst (on_pool pool (
    u ← get_or ErrUserNotFound users (of_user x.1 x.2);
    let s := normalizeUserStatus (u_status u) in
    if s =?s "ACTIVE" then mret tt
    else if s =?s "SUSPENDED" then throw ErrUserSuspended
    else if s =?s "DEACTIVATED" then throw ErrUserDeactivated
    else throw (ErrMsg "unknown status")) db).
End Directory.

(** ** user_team_roles_teams.go: roles *)

Section Roles.
Context `{env : Env}.

Definition grant_of (tenant userID roleID : string) (ur : user_role_row) : bool :=
  (ur_tenant_id ur =?s tenant) && (ur_user_id ur =?s userID) && (ur_role_id ur =?s roleID).

(** [INSERT .. ON CONFLICT (user_id, role_id) DO NOTHING], under the foreign keys. *)
Definition insert_grant (r : user_role_row) : Tx database Z :=
  stmt (λ db,
    if existsb (λ r', (ur_user_id r' =?s ur_user_id r) && (ur_role_id r' =?s ur_role_id r))
         (user_roles db) then Ok (0, db)
    else if user_exists (ur_tenant_id r) (ur_user_id r) db &&
            existsb (λ o, (ro_id o =?s ur_role_id r) && (ro_tenant_id o =?s ur_tenant_id r))
              (roles db) &&
            user_exists (ur_tenant_id r) (ur_assigned_by r) db
    then Ok (1, db <| user_roles := user_roles db ++ [r] |>)
    else Err ErrSQL).

(** The tenant of a role is compared with the tenant of the operation. *)
Definition role_in_tenant (tenant roleID : string) : Tx database unit :=
  role ← get_or ErrRoleNotFound roles (by_id ro_id roleID);
  if ro_tenant_id role =?s tenant then mret tt else throw ErrRoleTenantMismatch.

Definition AssignRoleToUser_tx (tenant userID roleID assignedBy : string) : Tx database unit :=
  userExists ← exists_in users (of_user tenant userID);
  _ ← (if userExists : bool then mret tt else throw ErrUserNotFound);
  _ ← role_in_tenant tenant roleID;
  n ← insert_grant {| ur_user_id := userID; ur_role_id := roleID; ur_tenant_id := tenant;
                      ur_assigned_by := assignedBy |};
  if 0 <? n then
    publishUserTeamEventTx tenant None None "USER_ROLE_ASSIGNED"
      [("user_id", VString userID); ("role_id", VString roleID);
       ("assigned_by", VString assignedBy); ("occurred_at", VOther env_clock)]
  else mret tt.
Definition AssignRoleToUser (drv : driver) (ctx : go_context)
    (userID roleID tenantID assignedBy : string) (db : database) : result unit * database :=
  then_tx (_ ← required (TrimSpace userID) "userID and roleID are required";
           _ ← required (TrimSpace roleID) "userID and roleID are required";
           _ ← required (TrimSpace assignedBy) "assignedBy is required";
           resolveTenantIDForOperation ctx tenantID, db) drv
    (λ tenant, AssignRoleToUser_tx tenant (TrimSpace userID) (TrimSpace roleID)
                 (TrimSpace assignedBy)).

Definition RevokeRoleFromUser_tx (tenant userID roleID revokedBy : string) : Tx database unit :=
  _ ← role_in_tenant tenant roleID;
  assigned ← exists_in user_roles (grant_of tenant userID roleID);
  if negb assigned then mret tt
  else
    roleCount ← query (λ db, Ok (sql_count
      (λ ur, (ur_tenant_id ur =?s tenant) && (ur_user_id ur =?s userID)) (user_roles db)));
    _ ← (if roleCount <=? 1 then throw ErrLastRoleRevocation else mret tt);
    n ← delete_in user_roles (grant_of tenant userID roleID);
    if 0 <? n then
      publishUserTeamEventTx tenant None None "USER_ROLE_REVOKED"
        [("user_id", VString userID); ("role_id", VString roleID);
         ("revoked_by", VString revokedBy); ("occurred_at", VOther env_clock)]
    else mret tt.
Definition RevokeRoleFromUser (drv : driver) (ctx : go_context)
    (userID roleID tenantID revokedBy : string) (db : database) : result unit * database :=
  then_tx (_ ← required (TrimSpace userID) "userID and roleID are required";
           _ ← required (TrimSpace roleID) "userID and roleID are required";
           resolveTenantIDForOperation ctx tenantID, db) drv
    (λ tenant, RevokeRoleFromUser_tx tenant (TrimSpace userID) (TrimSpace roleID)
                 (by_system revokedBy)).

(** ** Teams *)

Definition of_team (tenant teamID : string) (m : team_row) : bool :=
  (tm_tenant_id m =?s tenant) && (tm_id m =?s teamID).

(** The recursive query for the depth of a team: the teams from it up to the root, within
    the tenant.  A cycle would never end; [fuel] is the number of teams, which a chain
    without a cycle does not exceed. *)
Fixpoint lineage (fuel : nat) (db : database) (tenant teamID : string) : result Z :=
  match sql_get (of_team tenant teamID) (teams db) with
  | Err _ => Ok 0
  | Ok m =>
      match fuel, tm_parent_id m with
      | _, None => Ok 1
      | O, Some _ => Err OutOfFuel
      | S fuel, Some parent => n ← lineage fuel db tenant parent; Ok (n + 1)
      end
  end.
Definition team_depth (tenant teamID : string) (db : database) : result Z :=
  lineage (length (teams db)) db tenant teamID.

(** The value of a pointer to text, if it is not blank. *)
Definition given (s : option string) : option string :=
  match s with
  | Some s => let v := TrimSpace s in if v =?s "" then None else Some v
  | None => None
  end.
(** A text that is cast to uuid as it was given. *)
Definition uuid_given (s : option string) : bool :=
  match s with Some s => (TrimSpace s =?s s) && negb (s =?s "") | None => true end.

Definition team_check (m : team_row) : bool :=
  str_mem (tm_type m) ["PROCESSING"; "UNDERWRITING"; "APPROVAL"; "OPERATIONS"; "MIXED"] &&
  str_mem (tm_status m) ["ACTIVE"; "DISBANDED"].
(** The foreign keys of [teams]: the parent of any tenant, the manager of the same. *)
Definition insert_team (mk : string → team_row) : Tx database team_row :=
  stmt (λ db,
    let m := mk (env_uuid (uuid_pos db)) in
    if team_check m && uuid_given (tm_parent_id m) && uuid_given (tm_manager_id m) &&
       match tm_parent_id m with
       | Some p => existsb (by_id tm_id p) (teams db)
       | None => true
       end &&
       match tm_manager_id m with
       | Some u => user_exists (tm_tenant_id m) u db
       | None => true
       end &&
       negb (existsb (λ m', (tm_id m' =?s tm_id m) ||
                            ((tm_tenant_id m' =?s tm_tenant_id m) && (tm_code m' =?s tm_code m)))
               (teams db))
    then Ok (m, db <| teams := teams db ++ [m] |> <| uuid_pos ::= S |>)
    else Err ErrSQL).

Definition check_parent (tenant : string) (parent : option string) : Tx database unit :=
  match given parent with
  | None => mret tt
  | Some parentID =>
      parentDepth ← query (team_depth tenant parentID);
      if parentDepth =? 0 then throw ErrTeamNotFound
      else if 3 <=? parentDepth then throw ErrTeamHierarchyTooDeep
      else mret tt
  end.
Definition check_manager (tenant : string) (manager : option string) : Tx database unit :=
  match given manager with
  | None => mret tt
  | Some managerID =>
      u ← get_or ErrUserNotFound users (of_user tenant managerID);
      let s := normalizeUserStatus (u_status u) in
      if s =?s "SUSPENDED" then throw ErrUserSuspended
      else if s =?s "DEACTIVATED" then throw ErrUserDeactivated
      else mret tt
  end.

Definition CreateTeam_tx (tenant : string) (input : CreateTeamInput) : Tx database team_row :=
  _ ← check_parent tenant (cm_ParentTeamID input);
  _ ← check_manager tenant (cm_ManagerUserID input);
  team ← insert_team (λ id,
    {| tm_id := id; tm_tenant_id := tenant; tm_code := cm_TeamCode input; tm_status := "ACTIVE";
       tm_display_name := cm_DisplayName input; tm_type := cm_TeamType input;
       tm_parent_id := cm_ParentTeamID input; tm_manager_id := cm_ManagerUserID input |});
  _ ← publishUserTeamEventTx tenant None None "TEAM_CREATED"
        [("team_id", VString (tm_id team)); ("team_code", VString (tm_code team));
         ("created_by", VString (cm_CreatedBy input)); ("occurred_at", VOther env_clock)];
  mret team.
Definition CreateTeam (drv : driver) (ctx : go_context) (input : CreateTeamInput)
    (db : database) : result team_row * database :=
  then_tx (input ← validateCreateTeamInput input;
           tenant ← resolveTenantIDForOperation ctx (cm_TenantID input);
           Ok (tenant, input), db) drv (λ x, CreateTeam_tx x.1 x.2).

(** A team is locked by its identifier, and its tenant compared. *)
Definition lock_team (tenant teamID : string) : Tx database team_row :=
  team ← get_or ErrTeamNotFound teams (by_id tm_id teamID);
  if tm_tenant_id team =?s tenant then mret team else throw ErrTeamTenantMismatch.

Definition membership (tenant teamID userID : string) (m : team_member_row) : bool :=
  (mb_tenant_id m =?s tenant) && (mb_team_id m =?s teamID) && (mb_user_id m =?s userID).

(** [INSERT .. ON CONFLICT (team_id, user_id) DO UPDATE], under the foreign keys. *)
Definition upsert_member (r : team_member_row) : Tx database unit :=
  stmt (λ db,
    let same m := (mb_team_id m =?s mb_team_id r) && (mb_user_id m =?s mb_user_id r) in
    if negb (str_mem (mb_role r) ["MEMBER"; "LEAD"; "MANAGER"]) then Err ErrSQL
    else if existsb same (team_members db) then
      if forallb (λ m, negb (same m) || user_exists (mb_tenant_id m) (mb_added_by r) db)
           (team_members db)
      then Ok (tt, db <| team_members := sql_update same
                    (λ m, m <| mb_role := mb_role r |> <| mb_added_by := mb_added_by r |>)
                    (team_members db) |>)
      else Err ErrSQL
    else if existsb (of_team (mb_tenant_id r) (mb_team_id r)) (teams db) &&
            user_exists (mb_tenant_id r) (mb_user_id r) db &&
            user_exists (mb_tenant_id r) (mb_added_by r) db
    then Ok (tt, db <| team_members := team_members db ++ [r] |>)
    else Err ErrSQL).

Definition AddUserToTeam_tx (tenant teamID userID role addedBy : string) : Tx database unit :=
  team ← lock_team tenant teamID;
  _ ← (if normalizeTeamStatus (tm_status team) =?s "DISBANDED" then throw ErrTeamDisbanded
       else mret tt);
  userExists ← exists_in users (of_user tenant userID);
  _ ← (if userExists : bool then mret tt else throw ErrUserNotFound);
  _ ← upsert_member {| mb_team_id := teamID; mb_user_id := userID; mb_tenant_id := tenant;
                       mb_role := role; mb_added_by := addedBy |};
  publishUserTeamEventTx tenant None None "TEAM_MEMBER_ADDED"
    [("team_id", VString teamID); ("user_id", VString userID); ("role_in_team", VString role);
     ("added_by", VString addedBy); ("occurred_at", VOther env_clock)].
Definition AddUserToTeam (drv : driver) (ctx : go_context)
    (teamID userID tenantID roleInTeam addedBy : string) (db : database)
    : result unit * database :=
  let role := normalizeTeamMemberRole roleInTeam in
  then_tx (_ ← required (TrimSpace teamID) "teamID and userID are required";
           _ ← required (TrimSpace userID) "teamID and userID are required";
           _ ← required role "roleInTeam is required";
           _ ← required (TrimSpace addedBy) "addedBy is required";
           resolveTenantIDForOperation ctx tenantID, db) drv
    (λ tenant, AddUserToTeam_tx tenant (TrimSpace teamID) (TrimSpace userID) role
                 (TrimSpace addedBy)).

Definition core_role (role : string) : bool := str_mem role ["MEMBER"; "LEAD"].
Definition RemoveUserFromTeam_tx (tenant teamID userID removedBy : string)
    : Tx database unit :=
  _ ← lock_team tenant teamID;
  r ← tx_attempt (get_in team_members (membership tenant teamID userID));
  match r with
  | Err ErrNoRows => mret tt
  | Err e => throw e
  | Ok m =>
      _ ← (if EqualFold (mb_role m) "MEMBER" || EqualFold (mb_role m) "LEAD" then
             remaining ← query (λ db, Ok (sql_count
               (λ m', (mb_tenant_id m' =?s tenant) && (mb_team_id m' =?s teamID) &&
                      negb (mb_user_id m' =?s userID) && core_role (mb_role m'))
               (team_members db)));
             if remaining =? 0 then throw ErrTeamWouldBeEmpty else mret tt
           else mret tt);
      _ ← delete_in team_members (membership tenant teamID userID);
      publishUserTeamEventTx tenant None None "TEAM_MEMBER_REMOVED"
        [("team_id", VString teamID); ("user_id", VString userID);
         ("removed_by", VString removedBy); ("occurred_at", VOther env_clock)]
  end.
Definition RemoveUserFromTeam (drv : driver) (ctx : go_context)
    (teamID userID tenantID removedBy : string) (db : database) : result unit * database :=
  then_tx (_ ← required (TrimSpace teamID) "teamID and userID are required";
           _ ← required (TrimSpace userID) "teamID and userID are required";
           resolveTenantIDForOperation ctx tenantID, db) drv
    (λ tenant, RemoveUserFromTeam_tx tenant (TrimSpace teamID) (TrimSpace userID)
                 (by_system removedBy)).

Definition open_status (s : string) : bool :=
  str_mem s ["PENDING"; "ASSIGNED"; "IN_PROGRESS"; "AWAITING_EXTERNAL"].
Definition open_task_in (tenant teamID : string) (t : task_row) : bool :=
  (t_tenant_id t =?s tenant) && bool_decide (t_assigned_team_id t = Some teamID) &&
  open_status (t_status t).

Definition DisbandTeam_tx (tenant teamID disbandedBy : string) : Tx database unit :=
  team ← lock_team tenant teamID;
  openTaskCount ← query (λ db, Ok (sql_count (open_task_in tenant teamID) (tasks db)));
  _ ← (if 0 <? openTaskCount then throw (ErrTeamHasOpenTasks openTaskCount) else mret tt);
  _ ← (if negb (normalizeTeamStatus (tm_status team) =?s "DISBANDED")
       then (_ ← update_in teams team_check (of_team tenant teamID)
                   (λ m, m <| tm_status := "DISBANDED" |>); mret tt)
       else mret tt);
  publishUserTeamEventTx tenant None None "TEAM_DISBANDED"
    [("team_id", VString teamID); ("disbanded_by", VString disbandedBy);
     ("occurred_at", VOther env_clock)].
Definition DisbandTeam (drv : driver) (ctx : go_context)
    (teamID tenantID disbandedBy : string) (db : database) : result unit * database :=
  then_tx (_ ← required (TrimSpace teamID) "teamID is required";
           resolveTenantIDForOperation ctx tenantID, db) drv
    (λ tenant, DisbandTeam_tx tenant (TrimSpace teamID) (by_system disbandedBy)).
End Roles.

(** ** Facts the operations share *)

Section Facts.
Context `{env : Env}.
Implicit Types (db : database).

Lemma balanced_team_event tenant c t type payload :
  Balanced (publishUserTeamEventTx tenant c t type payload).
Proof. unfold publishUserTeamEventTx, multitenancy_PublishEvent, insert_event. cbv zeta. balance. Qed.
Lemma balanced_permission ctx userID tenant permission :
  Balanced (UserHasPermission ctx userID tenant permission).
Proof. unfold UserHasPermission. cbv zeta. balance. Qed.
Lemma balanced_lock_user tenant userID : Balanced (lock_user tenant userID).
Proof. apply balanced_get_or. Qed.
Lemma balanced_set_user tenant userID status : Balanced (set_user_status tenant userID status).
Proof. apply balanced_update. Qed.
Lemma balanced_insert_user mk : Balanced (insert_user mk).
Proof. apply balanced_stmt. Qed.
Lemma balanced_insert_grant r : Balanced (insert_grant r).
Proof. apply balanced_stmt. Qed.
Lemma balanced_insert_team mk : Balanced (insert_team mk).
Proof. apply balanced_stmt. Qed.
Lemma balanced_upsert_member r : Balanced (upsert_member r).
Proof. apply balanced_stmt. Qed.
End Facts.
#[export] Hint Resolve balanced_team_event balanced_permission
  balanced_lock_user balanced_set_user balanced_insert_user balanced_insert_grant
  balanced_insert_team balanced_upsert_member : balance.

Section MoreFacts.
Context `{env : Env}.
Implicit Types (db : database).

Lemma balanced_role_in_tenant tenant roleID : Balanced (role_in_tenant tenant roleID).
Proof. unfold role_in_tenant. balance. Qed.
Lemma balanced_lock_team tenant teamID : Balanced (lock_team tenant teamID).
Proof. unfold lock_team. balance. Qed.
Lemma balanced_check_parent tenant parent : Balanced (check_parent tenant parent).
Proof. unfold check_parent. balance. Qed.
Lemma balanced_check_manager tenant manager : Balanced (check_manager tenant manager).
Proof. unfold check_manager. balance. Qed.

(** Publishing writes to the outbox only. *)
Lemma team_event_commits busy tenant c t type payload db u db' :
  commits busy (publishUserTeamEventTx tenant c t type payload) db = Some (u, db') →
  ∃ rows, db' = db <| outbox := rows |>.
Proof.
  unfold publishUserTeamEventTx, multitenancy_PublishEvent. destruct (_ =?s ""); [done|].
  cbv zeta. intros H. apply commits_insert_inv in H as (-> & _). eauto.
Qed.

Lemma normalize_valid codes s :
  (∀ c, c ∈ codes → ToUpper (TrimSpace c) = c) → s ∈ codes → normalized codes s = s.
Proof. unfold normalized. intros Hc Hs. rewrite Hc by done. by rewrite (proj2 (str_mem_elem _ _)). Qed.

Lemma user_status_normal u : user_check u = true → normalizeUserStatus (u_status u) = u_status u.
Proof.
  unfold user_check. intros H. bool_simpl. apply str_mem_elem in H. apply normalize_valid; [|done].
  intros c Hc. repeat (apply elem_of_cons in Hc as [->|Hc]; [done|]). by apply elem_of_nil in Hc.
Qed.

Lemma team_status_normal m : team_check m = true → normalizeTeamStatus (tm_status m) = tm_status m.
Proof.
  unfold team_check. intros H. bool_simpl. apply str_mem_elem in H0. apply normalize_valid; [|done].
  intros c Hc. repeat (apply elem_of_cons in Hc as [->|Hc]; [done|]). by apply elem_of_nil in Hc.
Qed.

End MoreFacts.
#[export] Hint Resolve balanced_role_in_tenant balanced_lock_team balanced_check_parent
  balanced_check_manager : balance.
