(* ===== verification/TaskOwnership.v ===== *)
(** * Ownership of tasks (internal/multitenancy/user_team_tasks.go)

    Handing a task to a user or a team, claiming it, giving it back and passing it on.
    Users and permissions are looked up on the pool, before the transaction.  With the
    operations of Teams: what stays true of the directory whatever is done. *)

From Stdlib Require Import Ascii String ZArith Lia.
From stdpp Require Import base list strings relations.
From S2P Require Import Prelude ApprovalExpr SqlTx Schema Outbox Operations Assignment Teams.

Open Scope Z_scope.
Open Scope go_scope.

Section Operations.
Context `{env : Env}.

(** [nullableString] *)
Definition nullableString (s : option string) : value :=
  match given s with Some v => VString v | None => VNil end.

(** A user who may work on tasks: known, neither suspended nor deactivated, and allowed to
    claim. *)
Definition claim_capable (ctx : go_context) (tenant userID : string) : Tx database unit :=
  u ← get_or ErrUserNotFound users (of_user tenant userID);
  let s := normalizeUserStatus (u_status u) in
  _ ← (if s =?s "SUSPENDED" then throw ErrUserSuspended
       else if s =?s "DEACTIVATED" then throw ErrUserDeactivated else mret tt);
  hasClaimPermission ← UserHasPermission ctx userID tenant "TASK_CLAIM";
  if hasClaimPermission : bool then mret tt else throw (ErrPermissionDenied "TASK_CLAIM").

(** [AssertPermission] for TASK_REASSIGN, with the error of these operations. *)
Definition may_reassign (ctx : go_context) (tenant actor : string) : Tx database unit :=
  r ← tx_attempt (AssertPermission ctx actor tenant "TASK_REASSIGN");
  match r with
  | Ok _ => mret tt
  | Err (ErrPermissionDenied _) => throw ErrTaskReassignForbidden
  | Err e => throw e
  end.

(** [UPDATE tasks .. RETURNING case_id], or [ErrTaskNotAssignable]. *)
Definition update_returning (p : task_row → bool) (f : task_row → task_row)
    : Tx database string :=
  r ← tx_attempt (stmt (λ db,
        match update_rows (λ t, task_check t && assignees_exist db t) p f (tasks db) with
        | Ok (_, rows) =>
            match sql_get p (tasks db) with
            | Ok t => Ok (t_case_id t, db <| tasks := rows |>)
            | Err e => Err e
            end
        | Err e => Err e
        end));
  match r with
  | Ok caseID => mret caseID
  | Err ErrNoRows => throw ErrTaskNotAssignable
  | Err e => throw e
  end.

Definition handed_to (userID : string) (t : task_row) : task_row :=
  t <| t_assigned_user_id := Some userID |> <| t_status := "IN_PROGRESS" |>
    <| t_assigned_at := Some env_now |> <| t_version ::= Z.succ |>.
Definition pooled_in (teamID : string) (t : task_row) : task_row :=
  t <| t_assigned_team_id := Some teamID |> <| t_assigned_user_id := None |>
    <| t_status := "PENDING" |> <| t_version ::= Z.succ |>.

(** Two required identifiers, and the tenant. *)
Definition task_arguments (ctx : go_context) (taskID other tenantID : string)
    : result (string * string * string) :=
  _ ← required (TrimSpace taskID) "taskID is required";
  _ ← required (TrimSpace other) "userID is required";
  tenant ← resolveTenantIDForOperation ctx tenantID;
  Ok (tenant, TrimSpace taskID, TrimSpace other).

Definition AssignTaskToUser_tx (tenant taskID userID assignedBy : string) : Tx database unit :=
  caseID ← update_returning (λ t, task_of taskID tenant t && (t_status t =?s "PENDING"))
             (handed_to userID);
  publishUserTeamEventTx tenant (Some caseID) (Some taskID) "TASK_ASSIGNED"
    [("task_id", VString taskID); ("case_id", VString caseID);
     ("assigned_user_id", VString userID); ("assigned_by", VString assignedBy);
     ("occurred_at", VOther env_clock)].
Definition AssignTaskToUser (pool drv : driver) (ctx : go_context)
    (taskID userID tenantID assignedBy : string) (db : database) : result unit * database :=
  with_checks (task_arguments ctx taskID userID tenantID) pool drv
    (λ '(tenant, _, userID), claim_capable ctx tenant userID)
    (λ '(tenant, taskID, userID), AssignTaskToUser_tx tenant taskID userID (by_system assignedBy))
    db.

Definition active_team (tenant teamID : string) : Tx database unit :=
  team ← get_or ErrTeamNotFound teams (of_team tenant teamID);
  if normalizeTeamStatus (tm_status team) =?s "DISBANDED" then throw ErrTeamDisbanded
  else mret tt.
Definition AssignTaskToTeam_tx (tenant taskID teamID assignedBy : string) : Tx database unit :=
  caseID ← update_returning (λ t, task_of taskID tenant t && (t_status t =?s "PENDING"))
             (pooled_in teamID);
  publishUserTeamEventTx tenant (Some caseID) (Some taskID) "TASK_ASSIGNED_TO_TEAM"
    [("task_id", VString taskID); ("case_id", VString caseID);
     ("assigned_team_id", VString teamID); ("assigned_by", VString assignedBy);
     ("occurred_at", VOther env_clock)].
Definition AssignTaskToTeam (pool drv : driver) (ctx : go_context)
    (taskID teamID tenantID assignedBy : string) (db : database) : result unit * database :=
  with_checks (task_arguments ctx taskID teamID tenantID) pool drv
    (λ '(tenant, _, teamID), active_team tenant teamID)
    (λ '(tenant, taskID, teamID), AssignTaskToTeam_tx tenant taskID teamID (by_system assignedBy))
    db.

Definition team_offers (tenant taskID teamID : string) (version : Z) (t : task_row) : bool :=
  task_of taskID tenant t && (t_version t =? version) &&
  bool_decide (t_assigned_team_id t = Some teamID) && bool_decide (t_assigned_user_id t = None).

Definition ClaimTask_tx (tenant taskID userID : string) : Tx database unit :=
  state ← get_or ErrTaskNotAssignable tasks (task_of taskID tenant);
  match t_assigned_team_id state with
  | None => throw ErrTaskNotAssignable
  | Some teamID =>
      if TrimSpace teamID =?s "" then throw ErrTaskNotAssignable
      else
        _ ← match given (t_assigned_user_id state) with
            | Some _ => throw ErrTaskAlreadyClaimed
            | None => mret tt
            end;
        _ ← (if negb (EqualFold (t_status state) "PENDING") &&
                negb (EqualFold (t_status state) "ASSIGNED")
             then throw ErrTaskNotAssignable else mret tt);
        member ← exists_in team_members (membership tenant teamID userID);
        _ ← (if member : bool then mret tt else throw ErrUserNotTeamMember);
        n ← update_tasks [] (team_offers tenant taskID teamID (t_version state))
              (handed_to userID);
        _ ← (if n =? 0 then throw ErrTaskAlreadyClaimed else mret tt);
        publishUserTeamEventTx tenant (Some (t_case_id state)) (Some taskID) "TASK_CLAIMED"
          [("task_id", VString taskID); ("case_id", VString (t_case_id state));
           ("claimed_by_user", VString userID); ("assigned_team_id", VString teamID);
           ("occurred_at", VOther env_clock)]
  end.
Definition ClaimTask (pool drv : driver) (ctx : go_context) (taskID userID tenantID : string)
    (db : database) : result unit * database :=
  with_checks (task_arguments ctx taskID userID tenantID) pool drv
    (λ '(tenant, _, userID), claim_capable ctx tenant userID)
    (λ '(tenant, taskID, userID), ClaimTask_tx tenant taskID userID) db.

(** The statuses the two supervisor operations accept. *)
Definition movable (status : string) : bool :=
  existsb (EqualFold status) ["PENDING"; "ASSIGNED"; "IN_PROGRESS"; "AWAITING_EXTERNAL"].
Definition lock_movable (tenant taskID : string) : Tx database task_row :=
  state ← get_or ErrTaskNotAssignable tasks (task_of taskID tenant);
  if movable (t_status state) then mret state else throw ErrTaskNotAssignable.

Definition UnassignTask_tx (tenant taskID unassignedBy reason : string) : Tx database unit :=
  state ← lock_movable tenant taskID;
  _ ← update_tasks [] (task_of taskID tenant) given_back;
  publishUserTeamEventTx tenant (Some (t_case_id state)) (Some taskID) "TASK_UNASSIGNED"
    [("task_id", VString taskID); ("case_id", VString (t_case_id state));
     ("previous_user_id", nullableString (t_assigned_user_id state));
     ("assigned_team_id", nullableString (t_assigned_team_id state));
     ("unassigned_by", VString unassignedBy); ("reason", VString reason);
     ("occurred_at", VOther env_clock)].
(** The actor, or the user of the request. *)
Definition actor_of (ctx : go_context) (actor : string) : string :=
  orElse (TrimSpace actor) (UserIDFromContext ctx).
Definition UnassignTask (pool drv : driver) (ctx : go_context)
    (taskID tenantID unassignedBy reason : string) (db : database) : result unit * database :=
  let actor := actor_of ctx unassignedBy in
  with_checks (_ ← required (TrimSpace taskID) "taskID is required";
               _ ← required actor "unassignedBy is required";
               resolveTenantIDForOperation ctx tenantID) pool drv
    (λ tenant, may_reassign ctx tenant actor)
    (λ tenant, UnassignTask_tx tenant (TrimSpace taskID) actor (TrimSpace reason)) db.

Definition ReassignTask_tx (tenant taskID toUserID reassignedBy reason : string)
    : Tx database unit :=
  state ← lock_movable tenant taskID;
  _ ← update_tasks [] (task_of taskID tenant) (handed_to toUserID);
  publishUserTeamEventTx tenant (Some (t_case_id state)) (Some taskID) "TASK_REASSIGNED"
    [("task_id", VString taskID); ("case_id", VString (t_case_id state));
     ("from_user_id", nullableString (t_assigned_user_id state));
     ("to_user_id", VString toUserID);
     ("assigned_team_id", nullableString (t_assigned_team_id state));
     ("reassigned_by", VString reassignedBy); ("reason", VString reason);
     ("occurred_at", VOther env_clock)].
Definition ReassignTask (pool drv : driver) (ctx : go_context)
    (taskID toUserID tenantID reassignedBy reason : string) (db : database)
    : result unit * database :=
  let actor := actor_of ctx reassignedBy in
  with_checks (_ ← required (TrimSpace taskID) "taskID and toUserID are required";
               _ ← required (TrimSpace toUserID) "taskID and toUserID are required";
               _ ← required actor "reassignedBy is required";
               resolveTenantIDForOperation ctx tenantID) pool drv
    (λ tenant, _ ← may_reassign ctx tenant actor; claim_capable ctx tenant (TrimSpace toUserID))
    (λ tenant, ReassignTask_tx tenant (TrimSpace taskID) (TrimSpace toUserID) actor
                 (TrimSpace reason)) db.
End Operations.

(** ** What stays true *)

Section Consistency.
Implicit Types (db : database) (t : task_row) (u : user_row) (m : team_row).

Definition owns u t : Prop :=
  t_assigned_user_id t = Some (u_user_id u) ∧ t_tenant_id t = u_tenant_id u.
Definition holds m t : Prop :=
  t_assigned_team_id t = Some (tm_id m) ∧ t_tenant_id t = tm_tenant_id m.

(** The assignees of a task are of its tenant, a user who has left has no open task in
    hand, and a team that is disbanded holds none. *)
Record task_ok db t : Prop := {
  tk_check : task_check t = true;
  tk_assignees : assignees_exist db t = true;
  tk_left : ∀ u, u ∈ users db → owns u t → u_status u = "DEACTIVATED"%string →
    str_mem (t_status t) ["IN_PROGRESS"; "PENDING"] = false;
  tk_disbanded : ∀ m, m ∈ teams db → holds m t → tm_status m = "DISBANDED"%string →
    open_status (t_status t) = false;
}.
(** Memberships and grants stay within a tenant. *)
Definition member_ok db (r : team_member_row) : Prop :=
  user_exists (mb_tenant_id r) (mb_user_id r) db = true ∧
  existsb (of_team (mb_tenant_id r) (mb_team_id r)) (teams db) = true.
Definition role_exists (tenant roleID : string) db : bool :=
  existsb (λ r, (ro_id r =?s roleID) && (ro_tenant_id r =?s tenant)) (roles db).
Definition grant_ok db (r : user_role_row) : Prop :=
  user_exists (ur_tenant_id r) (ur_user_id r) db = true ∧
  role_exists (ur_tenant_id r) (ur_role_id r) db = true.

Record consistent db : Prop := {
  cs_users : NoDup (map u_user_id (users db));
  cs_user : ∀ u, u ∈ users db → user_check u = true;
  cs_teams : NoDup (map tm_id (teams db));
  cs_team : ∀ m, m ∈ teams db → team_check m = true;
  cs_task_ids : NoDup (map t_id (tasks db));
  cs_task : ∀ t, t ∈ tasks db → task_ok db t;
  cs_member : ∀ r, r ∈ team_members db → member_ok db r;
  cs_grant : ∀ r, r ∈ user_roles db → grant_ok db r;
}.

(** Nobody is lost, and nobody leaves. *)
Record calm db db' : Prop := {
  cm_users : ∀ tenant id, user_exists tenant id db = true → user_exists tenant id db' = true;
  cm_teams : ∀ tenant id, existsb (of_team tenant id) (teams db) = true →
    existsb (of_team tenant id) (teams db') = true;
  cm_roles : ∀ tenant id, role_exists tenant id db = true → role_exists tenant id db' = true;
  cm_left : ∀ u', u' ∈ users db' → u_status u' = "DEACTIVATED"%string →
    (∃ u, u ∈ users db ∧ u_user_id u = u_user_id u' ∧ u_tenant_id u = u_tenant_id u' ∧
          u_status u = "DEACTIVATED"%string) ∨
    user_exists (u_tenant_id u') (u_user_id u') db = false;
  cm_disbanded : ∀ m', m' ∈ teams db' → tm_status m' = "DISBANDED"%string →
    ∃ m, m ∈ teams db ∧ tm_id m = tm_id m' ∧ tm_tenant_id m = tm_tenant_id m' ∧
         tm_status m = "DISBANDED"%string;
}.

Lemma assignees_grow db db' t :
  (∀ tenant id, user_exists tenant id db = true → user_exists tenant id db' = true) →
  (∀ tenant id, existsb (of_team tenant id) (teams db) = true →
     existsb (of_team tenant id) (teams db') = true) →
  assignees_exist db t = true → assignees_exist db' t = true.
Proof.
  unfold assignees_exist, user_exists. intros Hu Hm H. bool_simpl. apply andb_true_iff. split.
  - destruct (t_assigned_user_id t) as [id|]; [|done]. specialize (Hu (t_tenant_id t) id).
    revert Hu. unfold of_user. intros Hu.
    assert (Hc : ∀ l, existsb (λ r, (u_user_id r =?s id) && (u_tenant_id r =?s t_tenant_id t)) l =
                      existsb (λ r, (u_tenant_id r =?s t_tenant_id t) && (u_user_id r =?s id)) l).
    { intros l. induction l as [|r l IH]; cbn; [done|]. by rewrite IH, (andb_comm (u_user_id r =?s id)). }
    rewrite !Hc in *. auto.
  - destruct (t_assigned_team_id t) as [id|]; [|done]. specialize (Hm (t_tenant_id t) id).
    revert Hm. unfold of_team. intros Hm.
    assert (Hc : ∀ l, existsb (λ r, (tm_id r =?s id) && (tm_tenant_id r =?s t_tenant_id t)) l =
                      existsb (λ r, (tm_tenant_id r =?s t_tenant_id t) && (tm_id r =?s id)) l).
    { intros l. induction l as [|r l IH]; cbn; [done|]. by rewrite IH, (andb_comm (tm_id r =?s id)). }
    rewrite !Hc in *. auto.
Qed.

Lemma owner_exists db u t :
  assignees_exist db t = true → owns u t → user_exists (u_tenant_id u) (u_user_id u) db = true.
Proof.
  unfold assignees_exist, owns, user_exists, of_user. intros H [E1 E2].
  rewrite E1, E2 in H. bool_simpl. apply existsb_exists in H as (r & Hr & H). apply existsb_exists. exists r. split; [done|].
  by rewrite andb_comm.
Qed.

Lemma task_ok_calm db db' t : calm db db' → task_ok db t → task_ok db' t.
Proof.
  intros [Hu Hm _ Hl Hd] [Hc Ha Hleft Hdis]. split; [done| | |].
  - by apply (assignees_grow db).
  - intros u' Hu' Ho Hs. destruct (Hl u' Hu' Hs) as [(u & Hin & E1 & E2 & Es)|Hno].
    + apply (Hleft u); [done| |done]. unfold owns in *. by rewrite E1, E2.
    + by rewrite (owner_exists db u' t) in Hno.
  - intros m' Hm' Ho Hs. destruct (Hd m' Hm' Hs) as (m & Hin & E1 & E2 & Es).
    apply (Hdis m); [done| |done]. unfold holds in *. by rewrite E1, E2.
Qed.

Lemma member_ok_calm db db' r : calm db db' → member_ok db r → member_ok db' r.
Proof. intros [Hu Hm _ _ _] [H1 H2]. split; auto. Qed.
Lemma grant_ok_calm db db' r : calm db db' → grant_ok db r → grant_ok db' r.
Proof. intros [Hu _ Hr _ _] [H1 H2]. split; auto. Qed.

Lemma calm_same db db' :
  users db' = users db → teams db' = teams db → roles db' = roles db → calm db db'.
Proof.
  intros Eu Em Er. unfold user_exists, role_exists.
  split; unfold user_exists, role_exists; rewrite ?Eu, ?Em, ?Er; try done.
  - intros u Hu Hs. left. by exists u.
  - intros m Hm Hs. by exists m.
Qed.

(** Users are updated without anyone leaving. *)
Lemma calm_users p f db :
  (∀ u, u_user_id (f u) = u_user_id u ∧ u_tenant_id (f u) = u_tenant_id u ∧
        (u_status (f u) = "DEACTIVATED"%string → u_status u = "DEACTIVATED"%string)) →
  calm db (db <| users := sql_update p f (users db) |>).
Proof.
  intros Hf. split; try done.
  - intros tenant id. unfold user_exists. change (users (db <| users := ?x |>)) with x.
    rewrite existsb_update; [done|]. intros u. unfold of_user. by destruct (Hf u) as (-> & -> & _).
  - intros u' Hu' Hs. apply sql_update_elem in Hu' as (u & Hu & ->). left. exists u.
    destruct (p u); [|done]. destruct (Hf u) as (-> & -> & Hst). auto.
  - intros m Hm Hs. by exists m.
Qed.
End Consistency.

Section Steps.
Context `{env : Env}.
Implicit Types (db : database).

Lemma reads_capable ctx tenant userID : tx_all (=) (claim_capable ctx tenant userID).
Proof. unfold claim_capable, get_or, UserHasPermission. kept_steps. Qed.
Lemma reads_reassign ctx tenant actor : tx_all (=) (may_reassign ctx tenant actor).
Proof. unfold may_reassign, AssertPermission, UserHasPermission. kept_steps. Qed.
Lemma reads_team tenant teamID : tx_all (=) (active_team tenant teamID).
Proof. unfold active_team, get_or. kept_steps. Qed.

Definition capable db tenant userID : Prop :=
  ∃ u, u ∈ users db ∧ of_user tenant userID u = true ∧
       normalizeUserStatus (u_status u) ≠ "DEACTIVATED"%string.

Lemma capable_pooled ctx tenant userID pool db n db' k :
  pooled pool (claim_capable ctx tenant userID) db n = (Ok tt, db', k) → capable db tenant userID.
Proof.
  unfold claim_capable. intros H. pool_bind H r d k' E.
  apply pooled_get_or in E as [-> E]. destruct r as [u|e]; [|by destruct H].
  specialize (E u eq_refl). apply sql_get_Ok in E as [Hu Hof]. exists u.
  split_and!; [done..|]. intros Hs. cbv zeta in H. rewrite Hs in H. cbn in H. done.
Qed.

Lemma team_pooled tenant teamID pool db n db' k :
  pooled pool (active_team tenant teamID) db n = (Ok tt, db', k) →
  ∃ m, m ∈ teams db ∧ of_team tenant teamID m = true ∧
       normalizeTeamStatus (tm_status m) ≠ "DISBANDED"%string.
Proof.
  unfold active_team. intros H. pool_bind H r d k' E.
  apply pooled_get_or in E as [-> E]. destruct r as [m|e]; [|by destruct H].
  specialize (E m eq_refl). apply sql_get_Ok in E as [Hm Hof]. exists m.
  split_and!; [done..|]. intros Hs. rewrite Hs in H. cbn in H. done.
Qed.

(** Writing to the outbox, or to the tasks alone. *)
Lemma consistent_same db db' :
  consistent db → users db' = users db → teams db' = teams db → roles db' = roles db →
  tasks db' = tasks db → team_members db' = team_members db → user_roles db' = user_roles db →
  consistent db'.
Proof.
  intros Hc Eu Em Er Et Eb Eg. pose proof (calm_same db db' Eu Em Er) as Hcalm.
  destruct Hc. split; rewrite ?Eu, ?Em, ?Et, ?Eb, ?Eg; try done.
  - intros t Ht. by eapply task_ok_calm, cs_task0.
  - intros r Hr. by eapply member_ok_calm, cs_member0.
  - intros r Hr. by eapply grant_ok_calm, cs_grant0.
Qed.

Lemma consistent_tasks p f db :
  consistent db → (∀ t, t_id (f t) = t_id t) →
  (∀ t, t ∈ tasks db → p t = true → task_ok db (f t)) →
  consistent (db <| tasks := sql_update p f (tasks db) |>).
Proof.
  intros Hc Hid Hf. assert (Hcalm : calm db (db <| tasks := sql_update p f (tasks db) |>))
    by by apply calm_same.
  destruct Hc. split; try done.
  - change (tasks (db <| tasks := ?x |>)) with x. by rewrite (sql_update_map t_id).
  - intros t Ht. change (tasks (db <| tasks := ?x |>)) with x in Ht.
    apply sql_update_elem in Ht as (t0 & Ht0 & ->). eapply task_ok_calm; [done|].
    destruct (p t0) eqn:E; auto.
Qed.

Lemma capable_stays db tenant userID u :
  consistent db → capable db tenant userID → u ∈ users db → u_user_id u = userID →
  u_tenant_id u = tenant → u_status u ≠ "DEACTIVATED"%string.
Proof.
  intros Hc (u0 & Hu0 & Hof & Hs) Hu Hid Htn. unfold of_user in Hof. bool_simpl.
  assert (u = u0) as ->.
  { apply (key_unique u_user_id (users db)); [apply Hc|done..|].
    rewrite Hid. symmetry. by apply String.eqb_eq. }
  rewrite user_status_normal in Hs; [done|]. by apply Hc.
Qed.

(** An open task in the hands of a user who may work. *)
Lemma handed_ok db tenant userID t :
  consistent db → capable db tenant userID → t ∈ tasks db → t_tenant_id t = tenant →
  open_status (t_status t) = true → assignees_exist db (handed_to userID t) = true →
  task_ok db (handed_to userID t).
Proof.
  intros Hc Hcap Ht Htn Hopen Ha. destruct (cs_task db Hc t Ht) as [Hck _ _ Hdis].
  split; [|done| |].
  - unfold task_check in *. cbn in *. bool_simpl. by rewrite H1, H0.
  - intros u Hu [Ho Ho2] Hs. cbn in Ho, Ho2. injection Ho as ->. exfalso.
    eapply (capable_stays db (t_tenant_id t) (u_user_id u) u); [done| |done|done|done|done].
    by rewrite Htn.
  - intros m Hm [Ho Ho2] Hs. cbn in Ho, Ho2. rewrite (Hdis m) in Hopen; done.
Qed.

(** An open task that is given back to its team. *)
Lemma given_back_ok db t :
  consistent db → t ∈ tasks db → open_status (t_status t) = true → task_ok db (given_back t).
Proof.
  intros Hc Ht Hopen. destruct (cs_task db Hc t Ht) as [Hck Ha _ Hdis]. split.
  - unfold task_check in *. cbn in *. bool_simpl. by rewrite H1, H0.
  - unfold assignees_exist in *. cbn in *. by bool_simpl.
  - intros u Hu [Ho _] Hs. done.
  - intros m Hm [Ho Ho2] Hs. cbn in Ho, Ho2. rewrite (Hdis m) in Hopen; done.
Qed.

(** What [update_returning] commits. *)
Lemma update_returning_commits busy p f db caseID db' :
  commits busy (update_returning p f) db = Some (caseID, db') →
  (∃ t, t ∈ tasks db ∧ p t = true ∧ caseID = t_case_id t) ∧
  db' = db <| tasks := sql_update p f (tasks db) |> ∧
  ∀ t, t ∈ tasks db → p t = true → task_check (f t) = true ∧ assignees_exist db (f t) = true.
Proof.
  unfold update_returning. intros H. tx_bind_inv H r d E. rewrite commits_attempt, exec_stmt in E.
  unfold update_rows in E. destruct (forallb _ (tasks db)) eqn:Ef; [|done].
  destruct (sql_get p (tasks db)) as [t|e] eqn:Eg.
  - injection E as <- <-. injection H as <- <-. apply sql_get_Ok in Eg as [Ht Hp].
    split_and!; [by exists t|done|]. intros t' Ht' Hp'. rewrite forallb_forall in Ef.
    specialize (Ef t' (proj1 (list_elem_of_In _ _) Ht')). rewrite Hp' in Ef. cbn in Ef.
    by bool_simpl.
  - apply sql_get_Err in Eg as ->. by injection E as <- <-.
Qed.
End Steps.

Section Preservation.
Context `{env : Env}.
Implicit Types (db : database).

Lemma publish_consistent busy tenant c t type payload db u db' :
  commits busy (publishUserTeamEventTx tenant c t type payload) db = Some (u, db') →
  consistent db → consistent db'.
Proof.
  intros H Hc. apply team_event_commits in H as (rows & ->). by apply (consistent_same db).
Qed.

Lemma task_of_spec taskID tenant t :
  task_of taskID tenant t = true ↔ t_id t = taskID ∧ t_tenant_id t = tenant.
Proof. unfold task_of. by rewrite andb_true_iff, !String.eqb_eq. Qed.

Lemma pending_open t : (t_status t =?s "PENDING") = true → open_status (t_status t) = true.
Proof. intros H. apply String.eqb_eq in H. by rewrite H. Qed.

Lemma assign_user_consistent busy tenant taskID userID by_whom db db' :
  consistent db → capable db tenant userID →
  commits busy (AssignTaskToUser_tx tenant taskID userID by_whom) db = Some (tt, db') →
  consistent db'.
Proof.
  unfold AssignTaskToUser_tx. intros Hc Hcap H.
  apply commits_bind_inv in H as (caseID & d & E & H); [|unfold update_returning; balance].
  apply update_returning_commits in E as (_ & -> & Hf). apply publish_consistent in H; [done|].
  apply consistent_tasks; [done..|]. intros t Ht Hp. destruct (Hf t Ht Hp) as [_ Ha].
  bool_simpl. apply task_of_spec in H0 as [_ Htn]. apply (handed_ok db tenant); try done.
  by apply pending_open.
Qed.

Lemma assign_team_consistent busy tenant taskID teamID by_whom db db' :
  consistent db →
  (∃ m, m ∈ teams db ∧ of_team tenant teamID m = true ∧
        normalizeTeamStatus (tm_status m) ≠ "DISBANDED"%string) →
  commits busy (AssignTaskToTeam_tx tenant taskID teamID by_whom) db = Some (tt, db') →
  consistent db'.
Proof.
  unfold AssignTaskToTeam_tx. intros Hc (m & Hm & Hof & Hs) H.
  apply commits_bind_inv in H as (caseID & d & E & H); [|unfold update_returning; balance].
  apply update_returning_commits in E as (_ & -> & Hf). apply publish_consistent in H; [done|].
  apply consistent_tasks; [done..|]. intros t Ht Hp. destruct (Hf t Ht Hp) as [Hck Ha].
  split; [done|done| |].
  - by intros u Hu [Ho _].
  - intros m' Hm' [Ho Ho2] Hs'. cbn in Ho, Ho2. injection Ho as Ho. exfalso.
    unfold of_team in Hof. bool_simpl.
    assert (m' = m) as ->.
    { apply (key_unique tm_id (teams db)); [apply Hc|done..|]. rewrite <- Ho.
      symmetry. by apply String.eqb_eq. }
    rewrite team_status_normal in Hs; [done|]. by apply Hc.
Qed.

Lemma fold_open s :
  str_mem s ["PENDING"; "ASSIGNED"; "IN_PROGRESS"; "AWAITING_EXTERNAL"; "COMPLETED"; "FAILED";
             "CANCELLED"; "SKIPPED"] = true → movable s = open_status s.
Proof.
  intros H. apply str_mem_elem in H.
  repeat (apply elem_of_cons in H as [->|H]; [done|]). by apply elem_of_nil in H.
Qed.

Lemma claim_consistent busy tenant taskID userID db db' :
  consistent db → capable db tenant userID →
  commits busy (ClaimTask_tx tenant taskID userID) db = Some (tt, db') → consistent db'.
Proof.
  unfold ClaimTask_tx. intros Hc Hcap H. tx_bind_inv H state d E.
  apply commits_get_or in E as [Hst ->]. apply sql_get_Ok in Hst as [Hst Hof].
  destruct (t_assigned_team_id state) as [teamID|]; [|done].
  destruct (TrimSpace teamID =?s ""); [done|].
  tx_bind_inv H u1 d1 E1.
  assert (d1 = db) as -> by (destruct (given _); [done|by injection E1]). clear E1.
  tx_bind_inv H u2 d2 E2. destruct (negb _ && negb _) eqn:Es; [done|].
  injection E2 as _ <-. tx_bind_inv H b d3 E3. apply commits_exists_in in E3 as [-> ->].
  tx_bind_inv H u4 d4 E4. destruct (existsb _ _); [|done]. injection E4 as _ <-.
  apply commits_bind_inv in H as (n & d5 & E5 & H); [|apply balanced_assigning_update].
  apply commits_update_tasks in E5 as (_ & -> & -> & Hf). tx_bind_inv H u6 d6 E6.
  destruct (_ =? 0); [done|]. injection E6 as _ <-. apply publish_consistent in H; [done|].
  apply consistent_tasks; [done..|]. intros t Ht Hp. destruct (Hf t Ht Hp) as [_ Ha].
  unfold team_offers in Hp. bool_simpl. apply task_of_spec in H0 as [Hid Htn], Hof as [Hid' _].
  assert (t = state) as ->.
  { apply (key_unique t_id (tasks db)); [apply Hc|done..|]. by rewrite Hid, Hid'. }
  apply (handed_ok db tenant); try done. rewrite <- fold_open.
  - unfold movable. cbn [existsb]. revert Es. destruct (EqualFold _ "PENDING"); [done|].
    by destruct (EqualFold _ "ASSIGNED").
  - pose proof (tk_check _ _ (cs_task db Hc state Ht)) as Hck. unfold task_check in Hck.
    by bool_simpl.
Qed.

Lemma lock_movable_commits busy tenant taskID db state db' :
  commits busy (lock_movable tenant taskID) db = Some (state, db') →
  db' = db ∧ state ∈ tasks db ∧ task_of taskID tenant state = true ∧
  movable (t_status state) = true.
Proof.
  unfold lock_movable. intros H. tx_bind_inv H s d E. apply commits_get_or in E as [Hs ->].
  apply sql_get_Ok in Hs as [Hs Hof]. destruct (movable (t_status s)) eqn:Em; [|done].
  by injection H as -> ->.
Qed.

Lemma movable_row db tenant taskID state t :
  consistent db → state ∈ tasks db → task_of taskID tenant state = true →
  movable (t_status state) = true → t ∈ tasks db → task_of taskID tenant t = true →
  open_status (t_status t) = true ∧ t_tenant_id t = tenant.
Proof.
  intros Hc Hs Hof Hm Ht Hp. apply task_of_spec in Hp as [Hid Htn], Hof as [Hid' _].
  split; [|done]. assert (t = state) as ->.
  { apply (key_unique t_id (tasks db)); [apply Hc|done..|]. by rewrite Hid, Hid'. }
  rewrite <- fold_open; [done|].
  pose proof (tk_check _ _ (cs_task db Hc state Ht)) as Hck. unfold task_check in Hck.
  by bool_simpl.
Qed.

Lemma unassign_consistent busy tenant taskID by_whom reason db db' :
  consistent db →
  commits busy (UnassignTask_tx tenant taskID by_whom reason) db = Some (tt, db') → consistent db'.
Proof.
  unfold UnassignTask_tx. intros Hc H.
  apply commits_bind_inv in H as (state & d & E & H); [|unfold lock_movable; balance].
  apply lock_movable_commits in E as (-> & Hs & Hof & Hm).
  apply commits_bind_inv in H as (n & d & E & H); [|apply balanced_assigning_update].
  apply commits_update_tasks in E as (_ & _ & -> & _). apply publish_consistent in H; [done|].
  apply consistent_tasks; [done..|]. intros t Ht Hp. apply given_back_ok; [done..|].
  by destruct (movable_row db tenant taskID state t).
Qed.

Lemma reassign_consistent busy tenant taskID toUserID by_whom reason db db' :
  consistent db → capable db tenant toUserID →
  commits busy (ReassignTask_tx tenant taskID toUserID by_whom reason) db = Some (tt, db') →
  consistent db'.
Proof.
  unfold ReassignTask_tx. intros Hc Hcap H.
  apply commits_bind_inv in H as (state & d & E & H); [|unfold lock_movable; balance].
  apply lock_movable_commits in E as (-> & Hs & Hof & Hm).
  apply commits_bind_inv in H as (n & d & E & H); [|apply balanced_assigning_update].
  apply commits_update_tasks in E as (_ & _ & -> & Hf). apply publish_consistent in H; [done|].
  apply consistent_tasks; [done..|]. intros t Ht Hp. destruct (Hf t Ht Hp) as [_ Ha].
  destruct (movable_row db tenant taskID state t) as [Ho Htn]; [done..|].
  by apply (handed_ok db tenant).
Qed.
End Preservation.
