(* ===== verification/Directory.v ===== *)
(** * Users, teams, roles and tasks together (internal/multitenancy)

    The operations of Teams and TaskOwnership in any order, with any arguments and any
    failures of the connection: what they never break. *)

From Stdlib Require Import Ascii String ZArith Lia.
From stdpp Require Import base list strings.
From S2P Require Import Prelude ApprovalExpr SqlTx Schema Outbox Operations Assignment Teams TaskOwnership.

Open Scope Z_scope.
Open Scope go_scope.

(** ** Histories *)

Section Histories.
Context `{env : Env} (zone_known : string → bool).

(** The operations with the arguments of their callers. *)
Inductive directory_op :=
  | OpSeedRoles (tenant : string)
  | OpCreateUser (input : CreateUserInput)
  | OpSuspendUser (user tenant by_whom reason : string)
  | OpDeactivateUser (user tenant by_whom reason : string)
  | OpReactivateUser (user tenant by_whom : string)
  | OpUpdateProfile (user tenant : string) (input : UpdateUserProfileInput)
  | OpAssignRole (user role tenant by_whom : string)
  | OpRevokeRole (user role tenant by_whom : string)
  | OpCreateTeam (input : CreateTeamInput)
  | OpAddMember (team user tenant role by_whom : string)
  | OpRemoveMember (team user tenant by_whom : string)
  | OpDisbandTeam (team tenant by_whom : string)
  | OpAssignToUser (task user tenant by_whom : string)
  | OpAssignToTeam (task team tenant by_whom : string)
  | OpClaim (task user tenant : string)
  | OpUnassign (task tenant by_whom reason : string)
  | OpReassign (task user tenant by_whom reason : string).

(** A request: who asks, over which connections, for what. *)
Record request := { rq_ctx : go_context; rq_pool : driver; rq_driver : driver;
                    rq_op : directory_op }.

Definition perform (db : database) (q : request) : database :=
  let ctx := rq_ctx q in let pool := rq_pool q in let drv := rq_driver q in
  match rq_op q with
  | OpSeedRoles t => snd (within_tx drv (SeedSystemRoles t) db)
  | OpCreateUser i => snd (CreateUser zone_known drv ctx i db)
  | OpSuspendUser u t b r => snd (SuspendUser drv ctx u t b r db)
  | OpDeactivateUser u t b r => snd (DeactivateUser drv ctx u t b r db)
  | OpReactivateUser u t b => snd (ReactivateUser drv ctx u t b db)
  | OpUpdateProfile u t i => snd (UpdateUserProfile zone_known drv ctx u t i db)
  | OpAssignRole u r t b => snd (AssignRoleToUser drv ctx u r t b db)
  | OpRevokeRole u r t b => snd (RevokeRoleFromUser drv ctx u r t b db)
  | OpCreateTeam i => snd (CreateTeam drv ctx i db)
  | OpAddMember m u t r b => snd (AddUserToTeam drv ctx m u t r b db)
  | OpRemoveMember m u t b => snd (RemoveUserFromTeam drv ctx m u t b db)
  | OpDisbandTeam m t b => snd (DisbandTeam drv ctx m t b db)
  | OpAssignToUser k u t b => snd (AssignTaskToUser pool drv ctx k u t b db)
  | OpAssignToTeam k m t b => snd (AssignTaskToTeam pool drv ctx k m t b db)
  | OpClaim k u t => snd (ClaimTask pool drv ctx k u t db)
  | OpUnassign k t b r => snd (UnassignTask pool drv ctx k t b r db)
  | OpReassign k u t b r => snd (ReassignTask pool drv ctx k u t b r db)
  end.
Definition history (db : database) (qs : list request) : database := fold_left perform qs db.

Lemma history_keeps (P : database → Prop) db qs :
  (∀ db q, P db → P (perform db q)) → P db → P (history db qs).
Proof.
  intros Hp. unfold history. revert db. induction qs as [|q qs IH]; intros db H; cbn; auto.
Qed.
End Histories.

(** ** References, and those who have left *)

Section Writing.
Context `{env : Env}.
Implicit Types (db : database).

Lemma consistent_calm db db' :
  consistent db → calm db db' → tasks db' = tasks db →
  NoDup (map u_user_id (users db')) → (∀ u, u ∈ users db' → user_check u = true) →
  NoDup (map tm_id (teams db')) → (∀ m, m ∈ teams db' → team_check m = true) →
  (∀ r, r ∈ team_members db' →
     member_ok db' r ∨ ∃ r0, r0 ∈ team_members db ∧ mb_tenant_id r = mb_tenant_id r0 ∧
       mb_team_id r = mb_team_id r0 ∧ mb_user_id r = mb_user_id r0) →
  (∀ r, r ∈ user_roles db' → r ∈ user_roles db ∨ grant_ok db' r) → consistent db'.
Proof.
  intros Hc Hcalm Et Hu1 Hu2 Hm1 Hm2 Hb Hg. split; rewrite ?Et; try done; try apply Hc.
  - intros t Ht. apply (task_ok_calm db); [done|]. by apply cs_task.
  - intros r Hr. destruct (Hb r Hr) as [|(r0 & H0 & E1 & E2 & E3)]; [done|].
    assert (H : member_ok db' r0) by (apply (member_ok_calm db); [done|by apply (cs_member db Hc)]).
    unfold member_ok in *. by rewrite E1, E2, E3.
  - intros r Hr. destruct (Hg r Hr); [|done]. apply (grant_ok_calm db); [done|by apply (cs_grant db Hc)].
Qed.

(** Users change without anyone leaving. *)
Lemma consistent_users p f db :
  consistent db →
  (∀ u, u_user_id (f u) = u_user_id u ∧ u_tenant_id (f u) = u_tenant_id u ∧
        (u_status (f u) = "DEACTIVATED"%string → u_status u = "DEACTIVATED"%string)) →
  (∀ u, u ∈ users db → p u = true → user_check (f u) = true) →
  consistent (db <| users := sql_update p f (users db) |>).
Proof.
  intros Hc Hf Hck. apply (consistent_calm db); [done|by apply calm_users|done| | |apply Hc..| |].
  - change (users (db <| users := ?x |>)) with x. rewrite sql_update_map; [apply Hc|].
    intros u. apply Hf.
  - intros u Hu. apply sql_update_elem in Hu as (u0 & Hu & ->). destruct (p u0) eqn:E; auto.
    by apply (cs_user db).
  - intros r Hr. right. by exists r.
  - auto.
Qed.

(** A user who joins, of whatever status, owns nothing yet. *)
Lemma consistent_new_user u db n :
  consistent db → user_check u = true →
  existsb (λ v, u_user_id v =?s u_user_id u) (users db) = false →
  consistent (db <| users := users db ++ [u] |> <| uuid_pos := n |>).
Proof.
  intros Hc Hck Hnew.
  assert (Hfresh : ∀ v, v ∈ users db → u_user_id v ≠ u_user_id u).
  { intros v Hv E. rewrite existsb_none in Hnew. apply Hnew in Hv. by rewrite E, String.eqb_refl in Hv. }
  apply (consistent_calm db); [done| |done| | |apply Hc..| |].
  - split; try done.
    + intros tenant id H. unfold user_exists in *.
      change (users (db <| users := ?x |> <| uuid_pos := ?k |>)) with x.
      by rewrite existsb_app, H.
    + intros v Hv Hs. change (users (db <| users := ?x |> <| uuid_pos := ?k |>)) with x in Hv.
      apply elem_of_app in Hv as [Hv|Hv]; [left; by exists v|right].
      apply list_elem_of_singleton in Hv as ->. unfold user_exists.
      apply existsb_none. intros w Hw. unfold of_user. apply andb_false_iff. right.
      apply String.eqb_neq. auto.
    + intros m Hm Hs. by exists m.
  - change (users (db <| users := ?x |> <| uuid_pos := ?k |>)) with x. rewrite map_app.
    apply NoDup_app. split_and!; [apply Hc| |apply NoDup_singleton].
    intros id Hid Hu. apply list_elem_of_singleton in Hu as ->.
    apply list_elem_of_In, in_map_iff in Hid as (v & E & Hv); rewrite <- list_elem_of_In in Hv. by apply (Hfresh v).
  - intros v Hv. apply elem_of_app in Hv as [Hv|Hv]; [by apply (cs_user db)|].
    by apply list_elem_of_singleton in Hv as ->.
  - intros r Hr. right. by exists r.
  - auto.
Qed.

Lemma consistent_new_team m db n :
  consistent db → team_check m = true → tm_status m ≠ "DISBANDED"%string →
  existsb (λ m', tm_id m' =?s tm_id m) (teams db) = false →
  consistent (db <| teams := teams db ++ [m] |> <| uuid_pos := n |>).
Proof.
  intros Hc Hck Hs Hnew.
  apply (consistent_calm db); [done| |done|apply Hc..| | | |].
  - split; try done.
    + intros tenant id H. change (teams (db <| teams := ?x |> <| uuid_pos := ?k |>)) with x.
      by rewrite existsb_app, H.
    + intros u Hu Hst. left. by exists u.
    + intros m' Hm' Hst. change (teams (db <| teams := ?x |> <| uuid_pos := ?k |>)) with x in Hm'.
      apply elem_of_app in Hm' as [Hm'|Hm']; [by exists m'|].
      by apply list_elem_of_singleton in Hm' as ->.
  - change (teams (db <| teams := ?x |> <| uuid_pos := ?k |>)) with x. rewrite map_app.
    apply NoDup_app. split_and!; [apply Hc| |apply NoDup_singleton].
    intros id Hid Hu. apply list_elem_of_singleton in Hu as ->.
    apply list_elem_of_In, in_map_iff in Hid as (v & E & Hv); rewrite <- list_elem_of_In in Hv.
    rewrite existsb_none in Hnew. apply Hnew in Hv. by rewrite E, String.eqb_refl in Hv.
  - intros v Hv. apply elem_of_app in Hv as [Hv|Hv]; [by apply (cs_team db)|].
    by apply list_elem_of_singleton in Hv as ->.
  - intros r Hr. right. by exists r.
  - auto.
Qed.
End Writing.

Section Steps.
Context `{env : Env}.
Implicit Types (db : database).

Lemma lock_user_commits busy tenant userID db x db' :
  commits busy (lock_user tenant userID) db = Some (x, db') →
  db' = db ∧ x ∈ users db ∧ of_user tenant userID x = true.
Proof. intros H. apply commits_get_or in H as [H ->]. by apply sql_get_Ok in H as []. Qed.

Lemma set_status_check (x : user_row) s :
  str_mem s ["ACTIVE"; "SUSPENDED"; "DEACTIVATED"] = true → user_check x = true →
  user_check (x <| u_status := s |>) = true.
Proof.
  unfold user_check. intros Hs H. bool_simpl. apply andb_true_iff. by split.
Qed.

Lemma set_status_consistent tenant userID s db :
  s = "ACTIVE"%string ∨ s = "SUSPENDED"%string → consistent db →
  consistent (db <| users := sql_update (of_user tenant userID) (λ u, u <| u_status := s |>)
                               (users db) |>).
Proof.
  intros Hs Hc. apply consistent_users; [done| |].
  - intros u. split_and!; [done..|]. by destruct Hs as [-> | ->].
  - intros u Hu _. apply set_status_check; [by destruct Hs as [-> | ->]|]. by apply (cs_user db).
Qed.

(** Locking a user, perhaps setting the status, publishing. *)
Lemma user_status_step busy tenant userID s c t payload (c1 : user_row → bool)
    (c2 : user_row → bool) e db (x : unit) db' :
  s = "ACTIVE"%string ∨ s = "SUSPENDED"%string → consistent db →
  commits busy
    (u ← lock_user tenant userID;
     _ ← (if c1 u then throw e else mret tt);
     _ ← (if c2 u then (_ ← set_user_status tenant userID s; mret tt) else mret tt);
     publishUserTeamEventTx tenant c None t payload) db = Some (x, db') → consistent db'.
Proof.
  intros Hs Hc H. tx_bind_inv H u d E. apply lock_user_commits in E as (-> & _ & _).
  tx_bind_inv H w d E. apply commits_guard in E as [_ ->].
  unfold set_user_status in H. tx_bind_inv H w2 d2 E.
  apply publish_consistent in H; [done|]. apply when_update_commits in E as [->|(_ & -> & _)];
    [done|]. by apply set_status_consistent.
Qed.

Lemma suspend_consistent busy tenant userID by_whom reason db x db' :
  consistent db →
  commits busy (SuspendUser_tx tenant userID by_whom reason) db = Some (x, db') → consistent db'.
Proof. intros Hc. apply user_status_step; auto. Qed.
Lemma reactivate_consistent busy tenant userID by_whom db x db' :
  consistent db →
  commits busy (ReactivateUser_tx tenant userID by_whom) db = Some (x, db') → consistent db'.
Proof. intros Hc. apply user_status_step; auto. Qed.

Lemma profile_consistent busy tenant userID input db x db' :
  consistent db →
  commits busy (UpdateUserProfile_tx tenant userID input) db = Some (x, db') → consistent db'.
Proof.
  unfold UpdateUserProfile_tx. intros Hc H. tx_bind_inv H n d E.
  apply commits_update_inv in E as (_ & -> & Hck). tx_bind_inv H w d E.
  apply commits_guard in E as [_ ->]. apply publish_consistent in H; [done|].
  by apply consistent_users.
Qed.

Lemma create_user_consistent busy tenant input db x db' :
  consistent db → commits busy (CreateUser_tx tenant input) db = Some (x, db') → consistent db'.
Proof.
  unfold CreateUser_tx. intros Hc H. tx_bind_inv H u d E. tx_bind_inv H w d2 E2.
  injection H as _ <-. apply publish_consistent in E2; [done|].
  unfold insert_user in E. rewrite commits_stmt in E. cbv zeta in E.
  destruct (_ || _) eqn:Ec; [done|]. revert E.
  do 3 (case (existsb _ _); [done|]). intros [= <- <-].
  apply orb_false_iff in Ec as [E1 E3]. apply negb_false_iff in E1.
  by apply (consistent_new_user (new_user tenant input (env_uuid (uuid_pos db)))).
Qed.
End Steps.

(** Nothing but the outbox is written. *)
Definition announces (db db' : database) : Prop := ∃ rows, db' = db <| outbox := rows |>.
#[export] Instance announces_preorder : PreOrder announces.
Proof.
  split.
  - intros d. exists (outbox d). by destruct d.
  - intros d1 d2 d3 (r1 & ->) (r2 & ->). by exists r2.
Qed.

(** Leaving: the open tasks go back in the same transaction. *)
Section Leaving.
Context `{env : Env}.
Implicit Types (db : database).

(** The users after a deactivation: the same people, and one of them has left. *)
Definition left_by (tenant userID : string) (l l' : list user_row) : Prop :=
  map u_user_id l' = map u_user_id l ∧
  (∀ p, (∀ u s, p (u <| u_status := s |>) = p u) → existsb p l' = existsb p l) ∧
  ∀ u', u' ∈ l' → user_check u' = true ∧
    ∃ u, u ∈ l ∧ u_user_id u = u_user_id u' ∧ u_tenant_id u = u_tenant_id u' ∧
         (u_status u' = "DEACTIVATED"%string →
          u_status u = "DEACTIVATED"%string ∨ of_user tenant userID u' = true).

Lemma left_by_same tenant userID l :
  (∀ u, u ∈ l → user_check u = true) → left_by tenant userID l l.
Proof. intros Hl. split_and!; [done..|]. intros u Hu. split; [auto|]. exists u. auto. Qed.

Lemma left_by_update tenant userID l :
  (∀ u, u ∈ l → user_check u = true) →
  left_by tenant userID l
    (sql_update (of_user tenant userID) (λ u, u <| u_status := "DEACTIVATED" |>) l).
Proof.
  intros Hl. split_and!.
  - by apply sql_update_map.
  - intros p Hp. by apply existsb_update.
  - intros u' Hu'. apply sql_update_elem in Hu' as (u & Hu & ->).
    destruct (of_user tenant userID u) eqn:E.
    + split; [by apply set_status_check, Hl|]. exists u. split_and!; auto.
    + split; [auto|]. exists u. auto.
Qed.

Lemma leaving_consistent tenant userID db l :
  consistent db → left_by tenant userID (users db) l →
  let open := sql_select (open_task_of tenant userID) (tasks db) in
  consistent (db <| users := l |> <| tasks := sql_update
    (λ t, (t_tenant_id t =?s tenant) && str_mem (t_id t) (map t_id open)) given_back (tasks db) |>).
Proof.
  intros Hc (Hids & Hex & Hu) open.
  assert (Hopen : ∀ t, t ∈ tasks db → str_mem (t_id t) (map t_id open) = true →
                       open_task_of tenant userID t = true).
  { intros t Ht Hm. apply str_mem_elem, list_elem_of_In, in_map_iff in Hm as (t' & E & Ht').
    rewrite <- list_elem_of_In in Ht'. apply sql_select_elem in Ht' as [Ht' Ho].
    assert (t = t') as ->; [|done].
    by apply (key_unique t_id (tasks db)); [apply Hc|..]. }
  assert (Hmem : ∀ t, t ∈ tasks db → open_task_of tenant userID t = true →
                      str_mem (t_id t) (map t_id open) = true).
  { intros t Ht Ho. apply str_mem_elem, list_elem_of_In, in_map_iff. exists t.
    split; [done|]. rewrite <- list_elem_of_In. by apply sql_select_elem. }
  clearbody open.
  assert (Hue : ∀ tn id, user_exists tn id db = true →
    existsb (of_user tn id) l = true) by (intros tn id; by rewrite Hex).
  split; try apply Hc.
  - change (users (db <| users := ?x |> <| tasks := ?y |>)) with x. rewrite Hids. apply Hc.
  - intros u Hin. by destruct (Hu u Hin).
  - change (tasks (db <| users := ?x |> <| tasks := ?y |>)) with y.
    rewrite sql_update_map; [apply Hc|done].
  - intros t Ht. apply sql_update_elem in Ht as (t0 & Ht0 & ->).
    destruct (cs_task db Hc t0 Ht0) as [Hck Ha Hl Hd].
    assert (Hgrow : ∀ t, assignees_exist db t = true →
              assignees_exist (db <| users := l |> <| tasks := sql_update
                (λ t, (t_tenant_id t =?s tenant) && str_mem (t_id t) (map t_id open))
                given_back (tasks db) |>) t = true) by (intros t; by apply assignees_grow).
    destruct (_ && _) eqn:Ep.
    + apply andb_true_iff in Ep as [_ Em]. specialize (Hopen t0 Ht0 Em).
      assert (Hop : open_status (t_status t0) = true).
      { unfold open_task_of in Hopen. bool_simpl. apply str_mem_elem in H0.
        repeat (apply elem_of_cons in H0 as [-> |H0]; [done|]). by apply elem_of_nil in H0. }
      destruct (given_back_ok db t0 Hc Ht0 Hop) as [H1 H2 _ H4].
      split; [done|by apply Hgrow| |done]. intros u _ [Ho _]. done.
    + split; [done|by apply Hgrow| |done]. intros u Hin Ho Hs.
      destruct (Hu u Hin) as (_ & u0 & Hu0 & E1 & E2 & Hst).
      destruct (Hst Hs) as [Hs0|Hof].
      * apply (Hl u0); [done| |done]. unfold owns in *. by rewrite E1, E2.
      * apply not_true_is_false. intros Hs1. destruct Ho as [Ho1 Ho2].
        unfold of_user in Hof. apply andb_true_iff in Hof as [Hof1 Hof2].
        apply String.eqb_eq in Hof1, Hof2. subst.
        assert (open_task_of (u_tenant_id u) (u_user_id u) t0 = true) as Hopn.
        { unfold open_task_of. rewrite Hs1, Ho1, Ho2, String.eqb_refl, bool_decide_true; done. }
        apply (Hmem t0 Ht0) in Hopn. by rewrite Hopn, Ho2, String.eqb_refl in Ep.
  - intros r Hr. destruct (cs_member db Hc r Hr). split; [by apply Hue|done].
  - intros r Hr. destruct (cs_grant db Hc r Hr). split; [by apply Hue|done].
Qed.

Lemma events_only {X} busy (f : X → Tx database unit) l db x db' :
  (∀ y, tx_all announces (f y)) →
  commits busy (tx_each f l) db = Some (x, db') → announces db db'.
Proof. intros Hf H. apply (commits_all busy announces) in H; [done|]. by apply tx_all_each. Qed.

Lemma event_only tenant c t type payload :
  tx_all announces (publishUserTeamEventTx tenant c t type payload).
Proof.
  unfold publishUserTeamEventTx, multitenancy_PublishEvent. destruct (_ =?s ""); [done|].
  cbv zeta. apply tx_all_insert. intros d. by eexists.
Qed.

Lemma deactivate_consistent busy tenant userID by_whom reason db x db' :
  consistent db →
  commits busy (DeactivateUser_tx tenant userID by_whom reason) db = Some (x, db') →
  consistent db'.
Proof.
  unfold DeactivateUser_tx. intros Hc H. tx_bind_inv H u d E.
  apply lock_user_commits in E as (-> & _ & _). unfold set_user_status in H.
  tx_bind_inv H w d E. apply when_update_commits in E.
  assert (Hl : ∃ l, d = db <| users := l |> ∧ left_by tenant userID (users db) l).
  { destruct E as [->|(_ & -> & _)].
    - exists (users db). split; [by destruct db|]. apply left_by_same, Hc.
    - eexists. split; [done|]. apply left_by_update, Hc. }
  clear E. destruct Hl as (l & -> & Hl). tx_bind_inv H open d E.
  apply commits_query_inv in E as [E ->]. injection E as <-. cbv beta in H.
  pose proof (leaving_consistent tenant userID db l Hc Hl) as Hc'. cbv zeta in Hc'.
  change (tasks (db <| users := l |>)) with (tasks db) in H.
  set (open := sql_select (open_task_of tenant userID) (tasks db)) in *.
  tx_bind_inv H w2 d E.
  apply publish_consistent in H; [done|].
  destruct (Nat.eqb (length open) 0) eqn:En.
  - injection E as _ <-. apply (consistent_same _ _ Hc'); try done.
    apply Nat.eqb_eq in En. apply length_zero_iff_nil in En. rewrite En.
    change (tasks (db <| users := ?a |> <| tasks := ?b |>)) with b.
    symmetry. apply sql_update_none. intros t _. by rewrite andb_false_r.
  - tx_bind_inv E n d2 E2. apply commits_update_inv in E2 as (_ & -> & _).
    apply events_only in E as (rows & ->); [|intros t; cbv zeta; apply event_only].
    by apply (consistent_same _ _ Hc').
Qed.
End Leaving.

Section Roles.
Context `{env : Env}.
Implicit Types (db : database).


(** Grants and memberships come and go; the people stay. *)
Lemma consistent_grants db l :
  consistent db → (∀ r, r ∈ l → r ∈ user_roles db ∨ grant_ok db r) →
  consistent (db <| user_roles := l |>).
Proof.
  intros Hc Hl. apply (consistent_calm db); try apply Hc; [by apply calm_same|done| |].
  - intros r Hr. right. by exists r.
  - intros r Hr. by destruct (Hl r Hr); [left|right].
Qed.
Lemma consistent_members db l :
  consistent db →
  (∀ r, r ∈ l → member_ok db r ∨ ∃ r0, r0 ∈ team_members db ∧ mb_tenant_id r = mb_tenant_id r0 ∧
     mb_team_id r = mb_team_id r0 ∧ mb_user_id r = mb_user_id r0) →
  consistent (db <| team_members := l |>).
Proof.
  intros Hc Hl. apply (consistent_calm db); try apply Hc; [by apply calm_same|done| |].
  - intros r Hr. destruct (Hl r Hr) as [|]; [by left|by right].
  - intros r Hr. by left.
Qed.

Lemma role_in_tenant_commits busy tenant roleID db x db' :
  commits busy (role_in_tenant tenant roleID) db = Some (x, db') → db' = db.
Proof.
  unfold role_in_tenant. intros H. tx_bind_inv H r d E. apply commits_get_or in E as [_ ->].
  by apply commits_unless in H as [_ ->].
Qed.

Lemma insert_grant_consistent busy r db n db' :
  consistent db → commits busy (insert_grant r) db = Some (n, db') → consistent db'.
Proof.
  unfold insert_grant. rewrite commits_stmt. intros Hc. case (existsb _ _); [by intros [= _ <-]|].
  destruct (user_exists _ (ur_user_id r) db && _ && _) eqn:Ef; [|done]. intros [= _ <-].
  bool_simpl. apply consistent_grants; [done|]. intros r' Hr.
  apply elem_of_app in Hr as [Hr|Hr]; [by left|right]. apply list_elem_of_singleton in Hr as ->.
  by split.
Qed.

Lemma assign_role_consistent busy tenant userID roleID by_whom db x db' :
  consistent db →
  commits busy (AssignRoleToUser_tx tenant userID roleID by_whom) db = Some (x, db') →
  consistent db'.
Proof.
  unfold AssignRoleToUser_tx. intros Hc H. tx_bind_inv H b d E.
  apply commits_exists_in in E as [-> ->]. tx_bind_inv H w d E.
  apply commits_unless in E as [_ ->]. tx_bind_inv H w2 d E.
  apply role_in_tenant_commits in E as ->. tx_bind_inv H n d E.
  apply insert_grant_consistent in E; [|done]. destruct (0 <? n); [|by injection H as _ <-].
  by apply publish_consistent in H.
Qed.

Lemma revoke_role_consistent busy tenant userID roleID by_whom db x db' :
  consistent db →
  commits busy (RevokeRoleFromUser_tx tenant userID roleID by_whom) db = Some (x, db') →
  consistent db'.
Proof.
  unfold RevokeRoleFromUser_tx. intros Hc H. tx_bind_inv H w d E.
  apply role_in_tenant_commits in E as ->. tx_bind_inv H b d E.
  apply commits_exists_in in E as [-> ->]. destruct (negb _); [by injection H as _ <-|].
  tx_bind_inv H c d E. apply commits_query_inv in E as [_ ->]. tx_bind_inv H w3 d E.
  apply commits_guard in E as [_ ->]. tx_bind_inv H n d E.
  apply commits_delete_inv in E as [_ ->].
  assert (Hc' : consistent (db <| user_roles :=
    List.filter (λ r, negb (grant_of tenant userID roleID r)) (user_roles db) |>)).
  { apply consistent_grants; [done|]. intros r Hr. left.
    rewrite list_elem_of_In, filter_In in Hr. by apply list_elem_of_In, Hr. }
  destruct (0 <? n); [|by injection H as _ <-]. by apply publish_consistent in H.
Qed.

Definition stays_consistent db db' : Prop := consistent db → consistent db'.
#[local] Instance stays_preorder : PreOrder stays_consistent.
Proof. split; [by intros d H|intros d1 d2 d3 H1 H2 H; auto]. Qed.

Lemma upsert_role_calm tenantID code permissions :
  tx_all stays_consistent (upsert_role tenantID code permissions).
Proof.
  apply tx_all_stmt. intros db x db'. cbv zeta. destruct (existsb _ (roles db)); intros [= _ <-] Hc.
  - apply (consistent_calm db); try apply Hc; [|done| |].
    + split; try done.
      * intros tenant id. unfold role_exists. change (roles (db <| roles := ?x |>)) with x.
        by rewrite existsb_update.
      * intros u Hu Hs. left. by exists u.
      * intros m Hm Hs. by exists m.
    + intros r Hr. right. by exists r.
    + auto.
  - apply (consistent_calm db); try apply Hc; [|done| |].
    + split; try done.
      * intros tenant id H. unfold role_exists in *.
        change (roles (db <| roles := ?x |> <| uuid_pos ::= ?f |>)) with x.
        by rewrite existsb_app, H.
      * intros u Hu Hs. left. by exists u.
      * intros m Hm Hs. by exists m.
    + intros r Hr. right. by exists r.
    + auto.
Qed.

Lemma seed_consistent busy tenantID db x db' :
  consistent db → commits busy (SeedSystemRoles tenantID) db = Some (x, db') → consistent db'.
Proof.
  intros Hc H. apply (commits_all busy stays_consistent) in H; [auto|]. unfold SeedSystemRoles. cbv zeta. apply tx_all_bind; [exact I|].
  intros _. apply tx_all_each. intros y. apply upsert_role_calm.
Qed.
End Roles.

Section TeamSteps.
Context `{env : Env}.
Implicit Types (db : database).

Lemma lock_team_commits busy tenant teamID db m db' :
  commits busy (lock_team tenant teamID) db = Some (m, db') →
  db' = db ∧ m ∈ teams db ∧ of_team tenant teamID m = true.
Proof.
  unfold lock_team. intros H. tx_bind_inv H m0 d E. apply commits_get_or in E as [Hm ->].
  apply sql_get_Ok in Hm as [Hm Hid]. destruct (tm_tenant_id m0 =?s tenant) eqn:Et; [|done].
  injection H as -> ->. split_and!; [done..|]. unfold of_team. by rewrite Et.
Qed.

Lemma check_parent_commits busy tenant parent db x db' :
  commits busy (check_parent tenant parent) db = Some (x, db') →
  db' = db ∧ ∀ p, given parent = Some p → ∃ n, team_depth tenant p db = Ok n ∧ n ≠ 0 ∧ n < 3.
Proof.
  unfold check_parent. intros H. destruct (given parent) as [p|]; [|by injection H as _ <-].
  tx_bind_inv H n d E. apply commits_query_inv in E as [E ->].
  destruct (n =? 0) eqn:E0; [done|]. destruct (3 <=? n) eqn:E3; [done|]. injection H as _ <-.
  split; [done|]. intros p' [= <-]. exists n. split_and!; [done|lia..].
Qed.

Lemma check_manager_commits busy tenant manager db x db' :
  commits busy (check_manager tenant manager) db = Some (x, db') → db' = db.
Proof.
  unfold check_manager. intros H. destruct (given manager) as [p|]; [|by injection H as _ <-].
  tx_bind_inv H u d E. apply commits_get_or in E as [_ ->]. cbv zeta in H.
  destruct (_ =?s _); [done|]. by apply commits_guard in H as [_ ->].
Qed.

(** A team that is created: its parent is not too deep, and its identifier is new. *)
Lemma create_team_commits busy tenant input db m db' :
  commits busy (CreateTeam_tx tenant input) db = Some (m, db') →
  ∃ rows, db' = db <| teams := teams db ++ [m] |> <| uuid_pos ::= S |> <| outbox := rows |> ∧
    team_check m = true ∧ tm_status m = "ACTIVE"%string ∧ tm_tenant_id m = tenant ∧
    existsb (λ m', tm_id m' =?s tm_id m) (teams db) = false ∧
    ∀ p, tm_parent_id m = Some p → ∃ n, team_depth tenant p db = Ok n ∧ n ≠ 0 ∧ n < 3.
Proof.
  unfold CreateTeam_tx. intros H. tx_bind_inv H w d E.
  apply check_parent_commits in E as [-> Hp]. tx_bind_inv H w2 d E.
  apply check_manager_commits in E as ->. tx_bind_inv H m0 d E. tx_bind_inv H w3 d3 E3.
  injection H as -> ->. apply team_event_commits in E3 as (rows & ->).
  unfold insert_team in E. rewrite commits_stmt in E. cbv zeta in E.
  destruct (_ && negb _) eqn:Ef; [|done]. injection E as <- <-.
  exists rows. rewrite !andb_true_iff in Ef. destruct Ef as (((((Hck & Hup) & _) & _) & _) & Hnew).
  split_and!; [done..| |].
  - apply negb_true_iff in Hnew. apply existsb_none. intros m' Hm'.
    rewrite existsb_none in Hnew. apply Hnew in Hm'. by apply orb_false_iff in Hm' as [].
  - intros p Hpar. apply Hp. cbn in Hpar, Hup. rewrite Hpar in Hup |- *. cbn in Hup.
    apply andb_true_iff in Hup as [Htrim Hne]. apply String.eqb_eq in Htrim.
    unfold given. rewrite Htrim. by apply negb_true_iff in Hne as ->.
Qed.

Lemma create_team_consistent busy tenant input db m db' :
  consistent db → commits busy (CreateTeam_tx tenant input) db = Some (m, db') → consistent db'.
Proof.
  intros Hc H. apply create_team_commits in H as (rows & -> & Hck & Hs & _ & Hnew & _).
  apply (consistent_same (db <| teams := teams db ++ [m] |> <| uuid_pos := S (uuid_pos db) |>));
    try done.
  apply consistent_new_team; [done|done| |done]. by rewrite Hs.
Qed.

Lemma upsert_member_consistent busy r db x db' :
  consistent db → commits busy (upsert_member r) db = Some (x, db') → consistent db'.
Proof.
  unfold upsert_member. rewrite commits_stmt. cbv zeta. intros Hc.
  case (negb _); [done|]. case (existsb _ (team_members db)).
  - case (forallb _ _); [|done]. intros [= _ <-]. apply consistent_members; [done|].
    intros r' Hr. apply sql_update_elem in Hr as (r0 & Hr & ->). right. exists r0.
    by destruct (_ && _).
  - destruct (existsb _ (teams db) && _ && _) eqn:Ef; [|done]. intros [= _ <-]. bool_simpl.
    apply consistent_members; [done|]. intros r' Hr.
    apply elem_of_app in Hr as [Hr|Hr]; [right; by exists r'|left].
    apply list_elem_of_singleton in Hr as ->. by split.
Qed.

Lemma add_member_consistent busy tenant teamID userID role by_whom db x db' :
  consistent db →
  commits busy (AddUserToTeam_tx tenant teamID userID role by_whom) db = Some (x, db') →
  consistent db'.
Proof.
  unfold AddUserToTeam_tx. intros Hc H. tx_bind_inv H m d E.
  apply lock_team_commits in E as (-> & _). tx_bind_inv H w d E.
  apply commits_guard in E as [_ ->]. tx_bind_inv H b d E.
  apply commits_exists_in in E as [-> ->]. tx_bind_inv H w2 d E.
  apply commits_unless in E as [_ ->]. tx_bind_inv H w3 d E.
  apply upsert_member_consistent in E; [|done]. by apply publish_consistent in H.
Qed.

Lemma remove_member_consistent busy tenant teamID userID by_whom db x db' :
  consistent db →
  commits busy (RemoveUserFromTeam_tx tenant teamID userID by_whom) db = Some (x, db') →
  consistent db'.
Proof.
  unfold RemoveUserFromTeam_tx. intros Hc H. tx_bind_inv H m d E.
  apply lock_team_commits in E as (-> & _). tx_bind_inv H r d E.
  assert (d = db) as ->.
  { rewrite commits_attempt in E. unfold get_in, query in E. rewrite exec_stmt in E.
    destruct (sql_get _ _) as [y|e] eqn:Eg; [|apply sql_get_Err in Eg as ->]; by injection E. }
  clear E. destruct r as [r|e]; [|destruct e; try done; by injection H as _ <-].
  tx_bind_inv H w d E.
  assert (d = db) as ->.
  { destruct (_ || _); [|by injection E as _ <-]. tx_bind_inv E n d2 E2.
    apply commits_query_inv in E2 as [_ ->]. by apply commits_guard in E as [_ ->]. }
  tx_bind_inv H n d2 E2. apply commits_delete_inv in E2 as [_ ->].
  apply publish_consistent in H; [done|]. apply consistent_members; [done|].
  intros r' Hr. right. exists r'. rewrite list_elem_of_In, filter_In in Hr.
  split_and!; [|done..]. by apply list_elem_of_In, Hr.
Qed.

Lemma disband_consistent busy tenant teamID by_whom db x db' :
  consistent db →
  commits busy (DisbandTeam_tx tenant teamID by_whom) db = Some (x, db') → consistent db'.
Proof.
  unfold DisbandTeam_tx. intros Hc H. tx_bind_inv H m d E.
  apply lock_team_commits in E as (-> & _). tx_bind_inv H n d E.
  apply commits_query_inv in E as [[= <-] ->]. tx_bind_inv H w d E.
  apply commits_guard in E as [Hn ->]. tx_bind_inv H w2 d E.
  apply publish_consistent in H; [done|].
  apply when_update_commits in E as [->|(_ & -> & Hck)]; [done|].
  assert (Hopen : ∀ t, t ∈ tasks db → open_task_in tenant teamID t = false).
  { intros t Ht. apply Z.ltb_ge in Hn. unfold sql_count in Hn.
    destruct (open_task_in tenant teamID t) eqn:E; [|done]. exfalso.
    assert (In t (List.filter (open_task_in tenant teamID) (tasks db))).
    { apply filter_In. split; [by apply list_elem_of_In|done]. }
    destruct (List.filter _ _); [done|cbn in Hn; lia]. }
  set (l := sql_update _ _ _) in *.
  assert (Htm : ∀ p, (∀ x s, p (x <| tm_status := s |>) = p x) →
                  existsb p l = existsb p (teams db)).
  { intros p Hp. by apply existsb_update. }
  split; try apply Hc.
  - change (NoDup (map tm_id l)). unfold l. rewrite sql_update_map; [apply Hc|done].
  - intros m' Hm'. apply sql_update_elem in Hm' as (m0 & Hm0 & ->).
    destruct (of_team _ _ m0) eqn:E; [by apply Hck|by apply (cs_team db)].
  - intros t Ht. destruct (cs_task db Hc t Ht) as [H1 H2 H3 H4]. split; [done| |done|].
    + apply (assignees_grow db); [done| |done]. intros tn id Hx.
      change (existsb (of_team tn id) l = true). by rewrite Htm.
    + intros m' Hm' Ho Hs. apply sql_update_elem in Hm' as (m0 & Hm0 & ->).
      destruct (of_team tenant teamID m0) eqn:E; [|by apply (H4 m0)].
      specialize (Hopen t Ht). destruct Ho as [Ho1 Ho2]. cbn in Ho1, Ho2.
      unfold of_team in E. apply andb_true_iff in E as [E1 E2]. apply String.eqb_eq in E1, E2.
      unfold open_task_in in Hopen.
      by rewrite Ho1, Ho2, E1, E2, String.eqb_refl, bool_decide_true in Hopen.
  - intros r Hr. destruct (cs_member db Hc r Hr). split; [done|].
    change (existsb (of_team (mb_tenant_id r) (mb_team_id r)) l = true). by rewrite Htm.
Qed.
End TeamSteps.

Section Preserved.
Context `{env : Env} (zone_known : string → bool).
Implicit Types (db : database).

Lemma perform_consistent db q : consistent db → consistent (perform zone_known db q).
Proof.
  intros Hc. destruct q as [ctx pool drv op]. destruct op; cbn [perform rq_op rq_ctx rq_pool rq_driver].
  1: { destruct (within_tx drv (SeedSystemRoles tenant) db) as [[u|e] db'] eqn:E; cbn.
       - apply within_tx_commits in E. by eapply seed_consistent.
       - apply within_tx_rollback in E. by rewrite E. }
  all: first
    [ apply (then_commits _ _ _ db consistent); [done|]; intros a x db' _ H; cbn beta in H
    | apply (with_checks_commits _ _ _ _ _ db consistent); [|done|]; [|intros a x db' k _ Hp H; cbn beta in H] ].
  - by apply create_user_consistent in H.
  - by apply suspend_consistent in H.
  - by apply deactivate_consistent in H.
  - by apply reactivate_consistent in H.
  - by apply profile_consistent in H.
  - by apply assign_role_consistent in H.
  - by apply revoke_role_consistent in H.
  - by apply create_team_consistent in H.
  - by apply add_member_consistent in H.
  - by apply remove_member_consistent in H.
  - by apply disband_consistent in H.
  - intros [[??]?]. apply reads_capable.
  - destruct a as [[? ?] ?]. destruct x. apply capable_pooled in Hp.
    by eapply assign_user_consistent.
  - intros [[??]?]. apply reads_team.
  - destruct a as [[? ?] ?]. destruct x. apply team_pooled in Hp.
    by eapply assign_team_consistent.
  - intros [[??]?]. apply reads_capable.
  - destruct a as [[? ?] ?]. destruct x. apply capable_pooled in Hp.
    by eapply claim_consistent.
  - intros a. apply reads_reassign.
  - destruct x. by eapply unassign_consistent.
  - intros a. apply tx_all_bind; [apply reads_reassign|]. intros _. apply reads_capable.
  - destruct x. pool_bind Hp r d k' E.
    assert (db = d) as <-.
    { by apply (pooled_all pool (=)) in E; [|apply reads_reassign]. }
    destruct r as [u|e]; [|by destruct Hp].
    apply capable_pooled in Hp. by eapply reassign_consistent.
Qed.
End Preserved.

(** ** The shape of the team hierarchy, and who has a role *)

Section Frames.
Context `{env : Env} (zone_known : string → bool).
Implicit Types (db : database).

Definition team_tree db : list (string * string * option string) :=
  map (λ m, (tm_id m, tm_tenant_id m, tm_parent_id m)) (teams db).
Definition same_tree db db' : Prop := team_tree db' = team_tree db.
Definition same_grants db db' : Prop := user_roles db' = user_roles db.
#[export] Instance same_tree_preorder : PreOrder same_tree.
Proof. split; [done|unfold same_tree; intros; congruence]. Qed.
#[export] Instance same_grants_preorder : PreOrder same_grants.
Proof. split; [done|unfold same_grants; intros; congruence]. Qed.

Definition tree_op (op : directory_op) : bool :=
  match op with OpCreateTeam _ => false | _ => true end.
Definition grants_op (op : directory_op) : bool :=
  match op with OpAssignRole _ _ _ _ | OpRevokeRole _ _ _ _ => false | _ => true end.

(** The statements at the leaves: a table the relation does not look at, or one whose rows
    keep what it looks at. *)
Ltac frame_leaf :=
  unfold same_tree, same_grants, team_tree;
  first
    [ reflexivity
    | apply sql_update_map; reflexivity
    | match goal with
      | H : _ = Ok _ |- _ => cbv zeta in H; repeat case_match; simplify_eq; reflexivity
      end ].
Ltac frame R :=
  first
    [ apply (kept_within R)
    | apply (kept_then R); intros a; cbv beta
    | apply (kept_checked R);
        [ first [ intros [[??]?]; apply reads_capable | intros [[??]?]; apply reads_team
                | intros a; apply reads_reassign
                | intros a; apply tx_all_bind; [apply reads_reassign|intros _; apply reads_capable] ]
        | intros a; try (destruct a as [[??]?]); cbv beta ] ];
  kept_steps; frame_leaf.

Lemma perform_tree db q : tree_op (rq_op q) = true → same_tree db (perform zone_known db q).
Proof.
  destruct q as [ctx pool drv op]. destruct op; cbn [perform rq_op rq_ctx rq_pool rq_driver];
    intros Hop; try discriminate Hop; clear Hop; frame same_tree.
Qed.

Lemma perform_grants db q : grants_op (rq_op q) = true → same_grants db (perform zone_known db q).
Proof.
  destruct q as [ctx pool drv op]. destruct op; cbn [perform rq_op rq_ctx rq_pool rq_driver];
    intros Hop; try discriminate Hop; clear Hop; frame same_grants.
Qed.
End Frames.

(** ** The depth of the hierarchy *)

Section Depth.
Context `{env : Env}.
Implicit Types (db : database).

Lemma tree_get (l l' : list team_row) tenant id :
  map (λ m, (tm_id m, tm_tenant_id m, tm_parent_id m)) l' =
  map (λ m, (tm_id m, tm_tenant_id m, tm_parent_id m)) l →
  match sql_get (of_team tenant id) l, sql_get (of_team tenant id) l' with
  | Ok m, Ok m' => tm_parent_id m' = tm_parent_id m
  | Err _, Err _ => True
  | _, _ => False
  end.
Proof.
  unfold sql_get, of_team. revert l'.
  induction l as [|m l IH]; intros [|m' l'] E; try discriminate E; [done|].
  injection E as E1 E2 E3 E. cbn. rewrite E1, E2. destruct (_ && _); [done|]. by apply IH.
Qed.

Lemma lineage_tree db db' tenant n : same_tree db db' → ∀ id,
  lineage n db' tenant id = lineage n db tenant id.
Proof.
  intros Hs. induction n as [|n IH]; intros id; cbn; pose proof (tree_get _ _ tenant id Hs) as H;
    destruct (sql_get _ (teams db)) as [m|e], (sql_get _ (teams db')) as [m'|e']; try done;
    rewrite H; [done|]. destruct (tm_parent_id m); [by rewrite IH|done].
Qed.

Lemma lineage_nonneg db tenant fuel : ∀ id n, lineage fuel db tenant id = Ok n → 0 <= n.
Proof.
  induction fuel as [|fuel IH]; intros id n; cbn; destruct (sql_get _ _) as [m|e];
    try (intros [= <-]; lia); destruct (tm_parent_id m) as [p|]; try done;
    try (intros [= <-]; lia). destruct (lineage fuel db tenant p) as [k|e] eqn:E; [|done].
  cbn. intros [= <-]. apply IH in E. lia.
Qed.

(** The hierarchy of a database: parents are of the same tenant, and nobody is deeper
    than the third level. *)
Record shallow db : Prop := {
  sh_parent : ∀ m p, m ∈ teams db → tm_parent_id m = Some p →
    existsb (of_team (tm_tenant_id m) p) (teams db) = true;
  sh_depth : ∀ m, m ∈ teams db →
    ∃ n, team_depth (tm_tenant_id m) (tm_id m) db = Ok n ∧ 1 <= n <= 3;
}.

Lemma tree_elem db db' m' :
  same_tree db db' → m' ∈ teams db' →
  ∃ m, m ∈ teams db ∧ tm_id m = tm_id m' ∧ tm_tenant_id m = tm_tenant_id m' ∧
       tm_parent_id m = tm_parent_id m'.
Proof.
  intros Hs Hm. assert (Hin : In (tm_id m', tm_tenant_id m', tm_parent_id m') (team_tree db)).
  { rewrite <- Hs. unfold team_tree. apply in_map_iff. exists m'. split; [done|].
    by apply list_elem_of_In. }
  unfold team_tree in Hin. apply in_map_iff in Hin as (m & [= E1 E2 E3] & Hin). exists m.
  by rewrite list_elem_of_In.
Qed.

Lemma shallow_tree db db' : same_tree db db' → shallow db → shallow db'.
Proof.
  intros Hs [Hp Hd]. split.
  - intros m' p Hm' Hpar. destruct (tree_elem _ _ _ Hs Hm') as (m & Hm & E1 & E2 & E3).
    rewrite <- E3 in Hpar. specialize (Hp m p Hm Hpar). rewrite E2 in Hp.
    apply existsb_exists in Hp as (r & Hr & Hof). apply list_elem_of_In in Hr.
    destruct (tree_elem db' db r) as (r' & Hr' & F1 & F2 & F3); [by symmetry|done|].
    apply existsb_exists. exists r'. split; [by apply list_elem_of_In|].
    unfold of_team in *. by rewrite F1, F2.
  - intros m' Hm'. destruct (tree_elem _ _ _ Hs Hm') as (m & Hm & E1 & E2 & E3).
    destruct (Hd m Hm) as (n & Hn & Hb). exists n. split; [|done].
    rewrite <- E1, <- E2. unfold team_depth in *. rewrite (lineage_tree _ _ _ _ Hs).
    assert (length (teams db') = length (teams db)) as ->; [|done].
    apply (f_equal length) in Hs. unfold team_tree in Hs. by rewrite !length_map in Hs.
Qed.

(** A team that is added changes no depth. *)
Lemma lineage_grow db db' tenant extra k : shallow db → teams db' = teams db ++ extra →
  ∀ k' id n, (k <= k')%nat → existsb (of_team tenant id) (teams db) = true →
  lineage k db tenant id = Ok n → lineage k' db' tenant id = Ok n.
Proof.
  intros [Hp _] Et. induction k as [|k IH]; intros k' id n Hk Hex; cbn;
    destruct (sql_get_exists _ _ Hex) as (m & Eg); rewrite Eg;
    pose proof (sql_get_grow _ _ extra _ Eg) as Eg'; rewrite <- Et in Eg'.
  - destruct (tm_parent_id m) eqn:Epar; [done|]. destruct k'; cbn; by rewrite Eg', Epar.
  - destruct k' as [|k']; [lia|]. cbn. rewrite Eg'.
    destruct (tm_parent_id m) as [p|] eqn:Epar; [|done].
    destruct (lineage k db tenant p) as [n'|] eqn:El; [|done].
    rewrite (IH k' p n'); [done|lia| |done].
    apply sql_get_Ok in Eg as [Hm Hof]. specialize (Hp m p Hm Epar).
    unfold of_team in Hof. apply andb_true_iff in Hof as [Hof _].
    apply String.eqb_eq in Hof. by rewrite <- Hof.
Qed.
End Depth.

Section Hierarchy.
Context `{env : Env} (zone_known : string → bool).
Implicit Types (db : database).

Lemma shallow_new_team busy tenant input db m db' :
  shallow db → commits busy (CreateTeam_tx tenant input) db = Some (m, db') → shallow db'.
Proof.
  intros Hs H. apply create_team_commits in H as (rows & -> & _ & _ & Htn & Hnew & Hpar).
  set (db' := db <| teams := teams db ++ [m] |> <| uuid_pos ::= S |> <| outbox := rows |>).
  assert (Et : teams db' = teams db ++ [m]) by done. clearbody db'.
  assert (Hdepth : ∀ p n, team_depth tenant p db = Ok n → n ≠ 0 →
    existsb (of_team tenant p) (teams db) = true).
  { intros p n Hn H0. destruct (existsb (of_team tenant p) (teams db)) eqn:E; [done|].
    exfalso. apply H0. apply sql_get_nothing in E as Eg.
    unfold team_depth in Hn. destruct (length (teams db)); cbn in Hn; rewrite Eg in Hn;
      by injection Hn. }
  split.
  - intros m' p Hm' Hp. rewrite Et, existsb_app. rewrite Et in Hm'.
    apply elem_of_app in Hm' as [Hm'|Hm']; [by rewrite (sh_parent db Hs m' p)|].
    apply list_elem_of_singleton in Hm' as ->. destruct (Hpar p Hp) as (n & Hn & H0 & _).
    rewrite Htn. by rewrite (Hdepth p n).
  - intros m' Hm'. rewrite Et in Hm'. unfold team_depth. rewrite Et, length_app, Nat.add_1_r.
    apply elem_of_app in Hm' as [Hm'|Hm'].
    + destruct (sh_depth db Hs m' Hm') as (n & Hn & Hb). exists n. split; [|done].
      apply (lineage_grow db db' _ [m] (length (teams db))); [done|done|lia| |done].
      apply existsb_exists. exists m'. split; [by apply list_elem_of_In|].
      unfold of_team. by rewrite !String.eqb_refl.
    + apply list_elem_of_singleton in Hm' as ->. rewrite Htn.
      assert (Eg : sql_get (of_team tenant (tm_id m)) (teams db') = Ok m).
      { rewrite Et, sql_get_later.
        - unfold sql_get. cbn. unfold of_team. by rewrite Htn, !String.eqb_refl.
        - rewrite existsb_none in Hnew |- *. intros r Hr. unfold of_team.
          by rewrite (Hnew r Hr), andb_false_r. }
      cbn. rewrite Eg. destruct (tm_parent_id m) as [p|] eqn:Ep; [|by exists 1].
      destruct (Hpar p eq_refl) as (n & Hn & H0 & H3). pose proof (Hdepth p n Hn H0) as Hex.
      rewrite (lineage_grow db db' tenant [m] (length (teams db)) Hs Et (length (teams db)) p n); [|lia|done|done].
      cbn. apply lineage_nonneg in Hn. exists (n + 1). split; [done|lia].
Qed.

Lemma perform_shallow db q : shallow db → shallow (perform zone_known db q).
Proof.
  intros Hs. destruct (tree_op (rq_op q)) eqn:E.
  - by apply (shallow_tree db), Hs; apply perform_tree.
  - destruct q as [ctx pool drv op]. destruct op; try discriminate E.
    cbn [perform rq_op rq_ctx rq_pool rq_driver].
    apply (then_commits _ _ _ db shallow); [done|]. intros a b db' _ H.
    by eapply shallow_new_team.
Qed.
End Hierarchy.

(** ** Roles *)

Section RoleCount.
Context `{env : Env} (zone_known : string → bool).
Implicit Types (db : database).

Definition role_count (tenant userID : string) db : Z :=
  sql_count (λ ur, (ur_tenant_id ur =?s tenant) && (ur_user_id ur =?s userID)) (user_roles db).
(** UNIQUE (user_id, role_id) *)
Definition grants_unique db : Prop := NoDup (map (λ r, (ur_user_id r, ur_role_id r)) (user_roles db)).
Definition with_role (tenant userID : string) db : Prop :=
  grants_unique db ∧ 0 < role_count tenant userID db.

Lemma count_other {R K} `{!EqDecision K} (key : R → K) (p : R → bool) (l : list R) :
  1 < sql_count p l → NoDup (map key l) → ∀ k, ∃ y, y ∈ l ∧ p y = true ∧ key y ≠ k.
Proof.
  unfold sql_count. induction l as [|a l IH]; cbn; [lia|]. intros H [Ha Hn]%NoDup_cons k.
  destruct (p a) eqn:Pa.
  - destruct (decide (key a = k)) as [<-|Hk]; [|exists a; split_and!; [by left|done..]].
    destruct (List.filter p l) as [|b l'] eqn:Ef; cbn in H; [lia|].
    assert (Hb : In b (List.filter p l)) by (rewrite Ef; by left).
    apply filter_In in Hb as [Hb Pb]. exists b. split_and!; [right; by apply list_elem_of_In|done|].
    intros E. apply Ha. rewrite list_elem_of_In, in_map_iff. by exists b.
  - destruct (IH H Hn k) as (y & Hy & Py & Hk). exists y. split_and!; [by right|done..].
Qed.

(** Of two grants at least, one remains when one is taken. *)
Lemma revoke_leaves tenant userID roleID tn u db :
  with_role tn u db → 1 < role_count tenant userID db →
  with_role tn u (db <| user_roles :=
    List.filter (λ r, negb (grant_of tenant userID roleID r)) (user_roles db) |>).
Proof.
  intros [Hn Hc] H1. unfold with_role, grants_unique, role_count in *.
  change (user_roles (db <| user_roles := ?x |>)) with x.
  split.
  { clear -Hn. induction (user_roles db) as [|r l IH]; cbn in *; [done|].
    apply NoDup_cons in Hn as [Hr Hn]. destruct (negb _); cbn; [|auto]. apply NoDup_cons.
    split; [|auto]. intros H. apply Hr. rewrite list_elem_of_In, in_map_iff in *.
    destruct H as (y & E & Hy). apply filter_In in Hy as [Hy _]. by exists y. }
  assert (∃ y, y ∈ user_roles db ∧ (ur_tenant_id y =?s tn) && (ur_user_id y =?s u) = true ∧
               grant_of tenant userID roleID y = false) as (y & Hy & Hp & Hq).
  { assert (∃ x, x ∈ user_roles db ∧ (ur_tenant_id x =?s tn) && (ur_user_id x =?s u) = true)
      as (x & Hx & Hp).
    { destruct (existsb (λ ur, (ur_tenant_id ur =?s tn) && (ur_user_id ur =?s u))
                  (user_roles db)) eqn:E.
      - apply existsb_exists in E as (x & Hx & Hp). exists x. by rewrite list_elem_of_In.
      - exfalso. rewrite existsb_none in E. apply sql_count_zero in E. lia. }
    destruct (grant_of tenant userID roleID x) eqn:Ex; [|by exists x].
    assert (tn = tenant ∧ u = userID) as [-> ->].
    { unfold grant_of in Ex. rewrite !andb_true_iff, !String.eqb_eq in *. naive_solver. }
    destruct (count_other (λ r, (ur_user_id r, ur_role_id r)) _ _ H1 Hn
                (ur_user_id x, ur_role_id x)) as (y & Hy & Py & Hne).
    exists y. split_and!; [done..|]. destruct (grant_of tenant userID roleID y) eqn:Ey; [|done].
    exfalso. apply Hne. unfold grant_of in *. rewrite !andb_true_iff, !String.eqb_eq in *.
    destruct Ex as [[_ ->] ->], Ey as [[_ ->] ->]. done. }
  eapply sql_count_pos; [|exact Hp]. rewrite list_elem_of_In, filter_In, Hq.
  by rewrite <- list_elem_of_In.
Qed.

Lemma grant_stays busy r tn u db n db' :
  with_role tn u db → commits busy (insert_grant r) db = Some (n, db') → with_role tn u db'.
Proof.
  unfold insert_grant. rewrite commits_stmt. intros Hw.
  destruct (existsb _ (user_roles db)) eqn:E; [by intros [= _ <-]|].
  case (_ && _); [|done]. intros [= _ <-]. destruct Hw as [Hn Hc]. split.
  - unfold grants_unique. change (user_roles (db <| user_roles := ?x |>)) with x.
    rewrite map_app. apply NoDup_app. split_and!; [done| |apply NoDup_singleton].
    intros k Hk Hr. apply list_elem_of_singleton in Hr as ->.
    rewrite list_elem_of_In, in_map_iff in Hk. destruct Hk as (r' & [= E1 E2] & Hr').
    rewrite existsb_none in E. apply list_elem_of_In in Hr'. specialize (E r' Hr').
    by rewrite E1, E2, !String.eqb_refl in E.
  - unfold role_count, sql_count in *. change (user_roles (db <| user_roles := ?x |>)) with x.
    rewrite List.filter_app, length_app. lia.
Qed.

Lemma perform_with_role tn u db q : with_role tn u db → with_role tn u (perform zone_known db q).
Proof.
  intros Hw. destruct (grants_op (rq_op q)) eqn:E.
  - pose proof (perform_grants zone_known db q E) as Hs. unfold same_grants in Hs.
    unfold with_role, grants_unique, role_count in *. by rewrite Hs.
  - assert (Hsame : ∀ d d', same_grants d d' → with_role tn u d → with_role tn u d').
    { intros d d' Hs. unfold same_grants in Hs.
      unfold with_role, grants_unique, role_count in *. by rewrite Hs. }
    assert (Hpub : ∀ busy t c k ty pl d x d',
      commits busy (publishUserTeamEventTx t c k ty pl) d = Some (x, d') →
      with_role tn u d → with_role tn u d').
    { intros busy t c k ty pl d x d' H. apply team_event_commits in H as (rows & ->).
      by apply Hsame. }
    destruct q as [ctx pool drv op]. destruct op; try discriminate E;
      cbn [perform rq_op rq_ctx rq_pool rq_driver];
      apply (then_commits _ _ _ db (with_role tn u)); try done; intros a b db' _ H.
    + unfold AssignRoleToUser_tx in H. tx_bind_inv H x1 d1 E1.
      apply commits_exists_in in E1 as [-> ->]. tx_bind_inv H x2 d2 E1.
      apply commits_unless in E1 as [_ ->]. tx_bind_inv H x3 d3 E1.
      apply role_in_tenant_commits in E1 as ->. tx_bind_inv H x4 d4 E1.
      apply (grant_stays _ _ tn u) in E1; [|done].
      destruct (0 <? x4); [by eapply Hpub|by injection H as _ <-].
    + unfold RevokeRoleFromUser_tx in H. tx_bind_inv H x5 d5 E1.
      apply role_in_tenant_commits in E1 as ->. tx_bind_inv H x6 d6 E1.
      apply commits_exists_in in E1 as [-> ->]. destruct (negb _); [by injection H as _ <-|].
      tx_bind_inv H x7 d7 E1. apply commits_query_inv in E1 as [[= <-] ->].
      tx_bind_inv H x8 d8 E1. apply commits_guard in E1 as [Hc ->]. apply Z.leb_gt in Hc.
      tx_bind_inv H x9 d9 E1. apply commits_delete_inv in E1 as [_ ->].
      apply (revoke_leaves _ _ (TrimSpace role) tn u) in Hc; [|done].
      destruct (0 <? x9); [by eapply Hpub|by injection H as _ <-].
Qed.
End RoleCount.

(** ** Claiming *)

Section Claiming.
Context `{env : Env}.
Implicit Types (db : database).

Lemma resolve_again ctx tenantID tenant :
  resolveTenantIDForOperation ctx tenantID = Ok tenant →
  resolveTenantIDForOperation ctx tenant = Ok tenant.
Proof.
  unfold resolveTenantIDForOperation. destruct (TenantFromContext ctx) as [c|] eqn:Ec.
  - destruct (TrimSpace tenantID =?s "") eqn:E.
    + intros [= ->]. apply first_nonblank_text in Ec as [_ ->].
      destruct (tenant =?s ""); [done|]. by rewrite String.eqb_refl.
    + destruct (negb _) eqn:En; [done|]. intros [= <-]. by rewrite TrimSpace_idem, E, En.
  - destruct (TrimSpace tenantID =?s "") eqn:E; [done|]. intros [= <-].
    by rewrite TrimSpace_idem, E.
Qed.

Lemma permission_pooled ctx tenantID userID tenant permission pool db n b db' k :
  resolveTenantIDForOperation ctx tenantID = Ok tenant →
  pooled pool (UserHasPermission ctx userID tenant permission) db n = (Ok b, db', k) →
  b = str_mem (ToUpper (TrimSpace permission))
        (effective_permissions tenant (TrimSpace userID) db) ∧ db' = db.
Proof.
  intros Hr H. unfold UserHasPermission in H. rewrite (resolve_again _ _ _ Hr) in H. cbv zeta in H.
  destruct (required (TrimSpace userID) _); [|done].
  destruct (required (ToUpper _) _); [|done]. cbn [mbind tx_bind tx_of] in H.
  apply pooled_query in H as [-> [H|H]]; [by injection H as <-|done].
Qed.

(** Whoever passes the checks may claim. *)
Lemma capable_spec ctx tenantID tenant userID pool db n db' k :
  resolveTenantIDForOperation ctx tenantID = Ok tenant →
  pooled pool (claim_capable ctx tenant userID) db n = (Ok tt, db', k) →
  ∃ u, u ∈ users db ∧ of_user tenant userID u = true ∧
       normalizeUserStatus (u_status u) ≠ "SUSPENDED"%string ∧
       normalizeUserStatus (u_status u) ≠ "DEACTIVATED"%string ∧
       "TASK_CLAIM"%string ∈ effective_permissions tenant (TrimSpace userID) db.
Proof.
  unfold claim_capable. intros Hr H. pool_bind H r d k1 E.
  apply pooled_get_or in E as [-> E]. destruct r as [u|e]; [|by destruct H].
  specialize (E u eq_refl). apply sql_get_Ok in E as [Hu Hof]. cbv zeta in H.
  pool_bind H r d k2 E. destruct (normalizeUserStatus (u_status u) =?s "SUSPENDED") eqn:E1.
  { injection E as <- <- <-. by destruct H. }
  destruct (normalizeUserStatus (u_status u) =?s "DEACTIVATED") eqn:E2.
  { injection E as <- <- <-. by destruct H. }
  injection E as <- <- <-. pool_bind H r d k3 E. destruct r as [b|e]; [|by destruct H].
  apply (permission_pooled _ _ _ _ _ _ _ _ _ _ _ Hr) in E as [-> ->].
  destruct (str_mem _ _) eqn:Em; [|done]. exists u. apply String.eqb_neq in E1, E2.
  split_and!; [done..|]. by apply str_mem_elem in Em.
Qed.

Lemma sql_update_ext {R} (p q : R → bool) f (rows : list R) :
  (∀ r, r ∈ rows → p r = q r) → sql_update p f rows = sql_update q f rows.
Proof.
  intros H. unfold sql_update. apply map_ext_in. intros r Hr. apply list_elem_of_In in Hr.
  by rewrite H.
Qed.

Lemma team_offers_free tenant taskID teamID v t :
  team_offers tenant taskID teamID v t = true → t_id t = taskID ∧ t_assigned_user_id t = None.
Proof.
  unfold team_offers. rewrite !andb_true_iff, !bool_decide_eq_true, task_of_spec. naive_solver.
Qed.

Lemma task_arguments_Ok ctx taskID other tenantID tenant tid oid :
  task_arguments ctx taskID other tenantID = Ok (tenant, tid, oid) →
  resolveTenantIDForOperation ctx tenantID = Ok tenant ∧ tid = TrimSpace taskID ∧
  oid = TrimSpace other ∧ (TrimSpace taskID =?s "") = false ∧ (TrimSpace other =?s "") = false.
Proof.
  unfold task_arguments, required. destruct (TrimSpace taskID =?s ""); [done|].
  destruct (TrimSpace other =?s ""); [done|].
  destruct (resolveTenantIDForOperation ctx tenantID); [|done]. by intros [= -> <- <-].
Qed.

(** What a claim that commits has found and writes. *)
Lemma claim_commits busy tenant taskID userID db db' :
  commits busy (ClaimTask_tx tenant taskID userID) db = Some (tt, db') →
  ∃ t t1 teamID ev,
    t ∈ tasks db ∧ task_of taskID tenant t = true ∧ t_assigned_team_id t = Some teamID ∧
    given (t_assigned_user_id t) = None ∧
    (t1 ∈ tasks db ∧ team_offers tenant taskID teamID (t_version t) t1 = true) ∧
    (EqualFold (t_status t) "PENDING" || EqualFold (t_status t) "ASSIGNED") = true ∧
    existsb (membership tenant teamID userID) (team_members db) = true ∧
    ev_type ev = "TASK_CLAIMED"%string ∧ ev_task_id ev = Some taskID ∧
    db' = db <| tasks := sql_update (team_offers tenant taskID teamID (t_version t))
                           (handed_to userID) (tasks db) |> <| outbox := outbox db ++ [ev] |>.
Proof.
  unfold ClaimTask_tx. intros H. tx_bind_inv H state d E.
  apply commits_get_or in E as [Hst ->]. apply sql_get_Ok in Hst as [Hst Hof].
  destruct (t_assigned_team_id state) as [teamID|] eqn:Ht; [|done].
  destruct (TrimSpace teamID =?s ""); [done|]. tx_bind_inv H u1 d1 E1.
  destruct (given (t_assigned_user_id state)) eqn:Eg; [done|]. injection E1 as _ <-.
  tx_bind_inv H u2 d2 E2. apply commits_guard in E2 as [Es ->].
  tx_bind_inv H b d3 E3. apply commits_exists_in in E3 as [-> ->].
  tx_bind_inv H u4 d4 E4. apply commits_unless in E4 as [Em ->].
  apply commits_bind_inv in H as (n & d5 & E5 & H); [|apply balanced_assigning_update].
  apply commits_update_tasks in E5 as (_ & -> & -> & _). tx_bind_inv H u6 d6 E6.
  apply commits_guard in E6 as [En ->]. rewrite sql_count_existsb in En.
  apply negb_false_iff, existsb_exists in En as (t1 & Ht1 & Hp1). apply list_elem_of_In in Ht1.
  unfold publishUserTeamEventTx, multitenancy_PublishEvent in H. destruct (_ =?s ""); [done|].
  cbv zeta in H. apply commits_insert_inv in H as (-> & _).
  eexists state, t1, teamID, _. split_and!. 11: reflexivity. all: try done.
  destruct (EqualFold _ "PENDING"); [done|]. by destruct (EqualFold _ "ASSIGNED").
Qed.
End Claiming.

(** ** Properties *)

Section Properties.
Context `{env : Env} (zone_known : string → bool).
Implicit Types (db : database).

(** C5. Whatever is done with users, roles, teams and tasks, by whomever and over whatever
    connection, the directory stays consistent: identifiers are unique and statuses valid;
    the user and the team of a task, a membership or a grant exist in its tenant; a user
    who is deactivated has no task in progress or pending, and a team that is disbanded has
    no open task. *)
Theorem directory_stays_consistent db qs :
  consistent db → consistent (history zone_known db qs).
Proof. apply history_keeps. intros d q. apply perform_consistent. Qed.

(** C8. The team hierarchy never gets deeper than three levels: the query for the depth
    of a team ends for every team, with a depth between one and three. *)
Theorem teams_are_at_most_three_deep db qs m :
  shallow db → m ∈ teams (history zone_known db qs) →
  ∃ n, team_depth (tm_tenant_id m) (tm_id m) (history zone_known db qs) = Ok n ∧ 1 <= n <= 3.
Proof.
  intros Hs. apply sh_depth. apply (history_keeps zone_known shallow); [|done].
  intros d q. apply perform_shallow.
Qed.

(** A user who has a role has one for ever: the last role cannot be revoked, whatever
    else is done in between. *)
Theorem user_keeps_a_role tenant userID db qs :
  grants_unique db → 0 < role_count tenant userID db →
  0 < role_count tenant userID (history zone_known db qs).
Proof.
  intros Hn Hc. apply (history_keeps zone_known (with_role tenant userID)); [|done].
  intros d q. apply perform_with_role.
Qed.

(** C7. [ClaimTask] takes a task of a team for one of its members.  It succeeds only for a
    user of the tenant who is neither suspended nor deactivated, has the permission and
    belongs to the team of the task, which nobody has in hand and which is PENDING or
    ASSIGNED; it then changes that task and announces it.  A claim that fails changes
    nothing, and right after one that succeeds every other claim of the task fails. *)
Theorem ClaimTask_spec pool drv ctx taskID userID tenantID db r db' :
  consistent db → ClaimTask pool drv ctx taskID userID tenantID db = (r, db') →
  match r with
  | Err _ => db' = db
  | Ok _ => ∃ tenant u t teamID ev,
      resolveTenantIDForOperation ctx tenantID = Ok tenant ∧
      (u ∈ users db ∧ of_user tenant (TrimSpace userID) u = true ∧
       normalizeUserStatus (u_status u) ≠ "SUSPENDED"%string ∧
       normalizeUserStatus (u_status u) ≠ "DEACTIVATED"%string ∧
       "TASK_CLAIM"%string ∈ effective_permissions tenant (TrimSpace userID) db) ∧
      (t ∈ tasks db ∧ task_of (TrimSpace taskID) tenant t = true ∧
       t_assigned_team_id t = Some teamID ∧ t_assigned_user_id t = None ∧
       (EqualFold (t_status t) "PENDING" || EqualFold (t_status t) "ASSIGNED") = true ∧
       existsb (membership tenant teamID (TrimSpace userID)) (team_members db) = true) ∧
      (ev_type ev = "TASK_CLAIMED"%string ∧ ev_task_id ev = Some (TrimSpace taskID) ∧
       db' = db <| tasks := sql_update (by_id t_id (t_id t)) (handed_to (TrimSpace userID))
                              (tasks db) |>
                <| outbox := outbox db ++ [ev] |>) ∧
      ∀ pool' drv' ctx' taskID' userID' tenantID', TrimSpace taskID' = TrimSpace taskID →
        ∃ e, ClaimTask pool' drv' ctx' taskID' userID' tenantID' db' = (Err e, db')
  end.
Proof.
  intros Hc H. unfold ClaimTask in H.
  apply with_checks_outcome in H; [|intros [[??]?]; apply reads_capable].
  destruct r as [[]|e]; [|done]. destruct H as ([[tenant tid] uid] & k & Ha & Hp & H).
  apply task_arguments_Ok in Ha as (Hr & -> & -> & Htid & Huid).
  apply (capable_spec _ _ _ _ _ _ _ _ _ Hr) in Hp as (u & Hu & Hof & H1 & H2 & H3).
  rewrite TrimSpace_idem in H3.
  apply claim_commits in H as (t & t1 & teamID & ev & Ht & Htof & Hteam & _ & (Ht1 & Hoff) & Hst &
    Hm & Hev1 & Hev2 & ->).
  assert (Hid := Htof). apply task_of_spec in Hid as [Hid _].
  assert (t1 = t) as ->.
  { apply (key_unique t_id (tasks db)); [apply Hc|done..|]. rewrite Hid.
    by apply team_offers_free in Hoff as [-> _]. }
  assert (Hnone := Hoff). apply team_offers_free in Hnone as [_ Hnone].
  assert (Hupd : sql_update (team_offers tenant (TrimSpace taskID) teamID (t_version t))
                   (handed_to (TrimSpace userID)) (tasks db) =
                 sql_update (by_id t_id (t_id t)) (handed_to (TrimSpace userID)) (tasks db)).
  { apply sql_update_ext. intros t' Ht'. unfold by_id. destruct (String.eqb_spec (t_id t') (t_id t)) as [E|E].
    - by rewrite (key_unique t_id (tasks db) t' t (cs_task_ids db Hc) Ht' Ht E).
    - apply not_true_is_false. intros Ho. apply E.
      by apply team_offers_free in Ho as [-> _]. }
  rewrite Hupd. exists tenant, u, t, teamID, ev. split_and!; try done.
  intros pool' drv' ctx' taskID' userID' tenantID' Eid.
  destruct (ClaimTask pool' drv' ctx' taskID' userID' tenantID' _) as [r db2] eqn:E.
  unfold ClaimTask in E.
  apply with_checks_outcome in E; [|intros [[??]?]; apply reads_capable].
  destruct r as [[]|e]; [exfalso|exists e; by rewrite E].
  destruct E as ([[tenant' tid'] uid'] & k' & Ha & _ & H).
  apply task_arguments_Ok in Ha as (_ & -> & _). rewrite Eid in H.
  apply claim_commits in H as (t' & _ & _ & _ & Ht' & Htof' & _ & Hfree & _).
  apply task_of_spec in Htof' as [Hid' _].
  change (tasks (db <| tasks := ?x |> <| outbox := ?y |>)) with x in Ht'.
  apply sql_update_elem in Ht' as (t0 & Ht0 & ->). unfold by_id in *.
  destruct (t_id t0 =?s t_id t) eqn:E0.
  - cbn in Hfree. by rewrite TrimSpace_idem, Huid in Hfree.
  - by rewrite Hid', Hid, String.eqb_refl in E0.
Qed.
End Properties.

(** ** On concrete data *)

Definition directory_env : Env := sample_env case_statuses_35.
Definition any_zone : string → bool := λ _, true.
Definition acme : go_context := {| ctx_tenant_key := Some DefaultTenantID; ctx_actor_key := None; ctx_values := [] |}.
Definition ask (op : directory_op) : request :=
  {| rq_ctx := acme; rq_pool := reliable false; rq_driver := reliable false; rq_op := op |}.
Definition a_person (name : string) : CreateUserInput :=
  {| cu_TenantID := ""; cu_Username := name; cu_Email := name +:+ "@acme.com";
     cu_DisplayName := name; cu_Status := ""; cu_AuthProvider := ""; cu_ExternalID := None;
     cu_Timezone := ""; cu_Locale := ""; cu_CreatedBy := "" |}.
Definition a_team (code : string) (parent : option string) : CreateTeamInput :=
  {| cm_TenantID := ""; cm_TeamCode := code; cm_DisplayName := code; cm_TeamType := "mixed";
     cm_ParentTeamID := parent; cm_ManagerUserID := None; cm_CreatedBy := "" |}.

(** A database with a task and nobody in it; the roles, ann and bob, and a team of the two
    that has the task. *)
Definition one_task : database :=
  empty_db <| tasks := [blank_task "task-1" "case-1" "CHECK" "PENDING"] |>.
Definition founding : list request := map ask
  [ OpSeedRoles DefaultTenantID; OpCreateUser (a_person "ann"); OpCreateUser (a_person "bob");
    OpAssignRole "uuid-5" "uuid-0" "" "uuid-5"; OpAssignRole "uuid-6" "uuid-0" "" "uuid-5";
    OpCreateTeam (a_team "DESK" None); OpAddMember "uuid-7" "uuid-5" "" "member" "uuid-5";
    OpAddMember "uuid-7" "uuid-6" "" "lead" "uuid-5"; OpAssignToTeam "task-1" "uuid-7" "" "" ].
Definition working : list request := map ask
  [ OpClaim "task-1" "uuid-5" ""; OpClaim "task-1" "uuid-6" ""; OpRevokeRole "uuid-5" "uuid-0" "" "";
    OpDeactivateUser "uuid-5" "" "" "left"; OpDisbandTeam "uuid-7" "" "" ].

Lemma one_task_consistent : consistent one_task.
Proof.
  split; cbn.
  1, 3: constructor.
  4: intros t Ht; apply list_elem_of_singleton in Ht as ->; split; [done..| |];
     intros x Hx; by apply elem_of_nil in Hx.
  3: apply NoDup_singleton.
  all: intros x Hx; by apply elem_of_nil in Hx.
Qed.

(** Ann takes the task, bob comes too late, ann leaves and the team gets the task back, so
    that it cannot be disbanded. *)
Lemma directory_stays_consistent_witness :
  let _ := directory_env in
  let db := history any_zone one_task (founding ++ working) in
  (map (λ t, (t_status t, t_assigned_user_id t, t_assigned_team_id t)) (tasks db),
   map (λ u, (u_username u, u_status u)) (users db), map tm_status (teams db)) =
  ([("PENDING", None, Some "uuid-7")], [("ann", "DEACTIVATED"); ("bob", "ACTIVE")], ["ACTIVE"])%string
  ∧ consistent db.
Proof.
  intros env. split; [vm_compute; reflexivity|].
  apply directory_stays_consistent. exact one_task_consistent.
Defined.

Lemma teams_are_at_most_three_deep_witness :
  let _ := directory_env in
  let db := history any_zone one_task (founding ++ map ask
    [ OpCreateTeam (a_team "SECOND" (Some "uuid-7"%string));
      OpCreateTeam (a_team "THIRD" (Some "uuid-8"%string));
      OpCreateTeam (a_team "FOURTH" (Some "uuid-9"%string)) ]) in
  map tm_code (teams db) = ["DESK"; "SECOND"; "THIRD"]%string ∧
  ∃ m, m ∈ teams db ∧
    ∃ n, team_depth (tm_tenant_id m) (tm_id m) db = Ok n ∧ 1 <= n <= 3.
Proof.
  intros env db. split; [vm_compute; reflexivity|].
  assert (H : exists m, List.find (λ m, tm_code m =?s "THIRD") (teams db) = Some m)
    by (eexists; vm_compute; reflexivity).
  destruct H as [m Hm]. apply List.find_some in Hm as [Hm _]. apply list_elem_of_In in Hm.
  exists m. split; [exact Hm|]. refine (teams_are_at_most_three_deep _ _ _ _ _ Hm).
  split; intros x; [intros p|]; intros Hx; by apply elem_of_nil in Hx.
Defined.

Lemma user_keeps_a_role_witness :
  let _ := directory_env in
  let db := history any_zone one_task founding in
  role_count DefaultTenantID "uuid-5" db = 1 ∧
  0 < role_count DefaultTenantID "uuid-5" (history any_zone db working).
Proof.
  intros env db. assert (H : role_count DefaultTenantID "uuid-5" db = 1) by (vm_compute; reflexivity).
  split; [exact H|]. apply user_keeps_a_role; [|rewrite H; reflexivity].
  unfold grants_unique.
  assert (E : map (λ r, (ur_user_id r, ur_role_id r)) (user_roles db) =
              [("uuid-5", "uuid-0"); ("uuid-6", "uuid-0")]%string) by (vm_compute; reflexivity).
  rewrite E. apply NoDup_cons. split; [|apply NoDup_singleton].
  intros Hin. by apply list_elem_of_singleton in Hin.
Defined.

Lemma founded_consistent : let _ := directory_env in consistent (history any_zone one_task founding).
Proof.
  intros env. apply history_keeps; [|exact one_task_consistent]. intros d q.
  apply perform_consistent.
Qed.

Lemma ClaimTask_spec_witness :
  let _ := directory_env in
  let db := history any_zone one_task founding in
  let claim := ClaimTask (reliable false) (reliable false) acme "task-1" "uuid-5" "" db in
  fst claim = Ok tt ∧
  ∃ e, ClaimTask (reliable false) (reliable false) acme "task-1" "uuid-6" "" (snd claim) =
       (Err e, snd claim).
Proof.
  intros env db claim.
  assert (H : fst claim = Ok tt) by (vm_compute; reflexivity). split; [exact H|].
  assert (Hc : consistent db) by exact founded_consistent. clearbody db.
  pose proof (ClaimTask_spec (reliable false) (reliable false) acme "task-1" "uuid-5" "" db
    (fst claim) (snd claim) Hc
    (surjective_pairing claim)) as Hs.
  rewrite H in Hs. destruct Hs as (tenant & u & t & teamID & ev & _ & _ & _ & _ & Hs).
  by apply Hs.
Defined.

(** The member of a team of one who becomes its manager leaves it without members and
    leads: [AddUserToTeam] does not ask what [RemoveUserFromTeam] asks. *)
Example team_without_core_members :
  let _ := directory_env in
  let db := history any_zone one_task (map ask
    [ OpCreateUser (a_person "ann"); OpCreateTeam (a_team "DESK" None);
      OpAddMember "uuid-1" "uuid-0" "" "lead" "uuid-0";
      OpRemoveMember "uuid-1" "uuid-0" "" "";
      OpAddMember "uuid-1" "uuid-0" "" "manager" "uuid-0" ]) in
  map mb_role (team_members db) = ["MANAGER"%string].
Proof. vm_compute. reflexivity. Qed.
