(* ===== verification/ConfigValidation.v ===== *)
(** * Validation of a configuration (internal/versioning/validation.go, types.go)

    What [ValidateCaseTypeConfig] reports, and the declarative meaning of a configuration
    it reports nothing about. *)

From Stdlib Require Import Ascii String ZArith Lia.
From stdpp Require Import base list strings gmap sets relations.
From S2P Require Import Prelude ApprovalExpr RetryPolicy CaseConfig SqlTx Schema Outbox.

Open Scope Z_scope.
Open Scope go_scope.

(** ** Violations *)

Record ValidationViolation := { FieldPath : string; Message : string }.
Definition violation (path msg : string) : ValidationViolation :=
  {| FieldPath := TrimSpace path; Message := TrimSpace msg |}.

(** [ValidationResult.Error] *)
Definition violation_text (v : ValidationViolation) : string :=
  if TrimSpace (FieldPath v) =?s "" then Message v else FieldPath v +:+ ": " +:+ Message v.
Fixpoint joined (sep : string) (l : list string) : string :=
  match l with
  | [] => ""
  | [s] => s
  | s :: rest => s +:+ sep +:+ joined sep rest
  end.
Definition validation_error (vs : list ValidationViolation) : string :=
  match vs with
  | [] => "validation failed"
  | _ => "validation failed: " +:+ joined "; " (map violation_text vs)
  end.

(** ** What the loops carry *)

Record checking := {
  violations : list ValidationViolation;
  ordinals : gmap Z string;             (* stageCodeByOrdinal *)
  stage_codes : gset string;            (* stageCodeSet *)
  min_ordinal : Z; max_ordinal : Z;
  task_locations : gmap string string;  (* taskCodeLocations *)
  compensating : gmap string string;    (* compensatingGraph *)
}.
#[export] Instance checking_eta : Eta checking := λ x,
  {| violations := violations x; ordinals := ordinals x; stage_codes := stage_codes x;
     min_ordinal := min_ordinal x; max_ordinal := max_ordinal x;
     task_locations := task_locations x; compensating := compensating x |}.
Definition unchecked : checking :=
  {| violations := []; ordinals := ∅; stage_codes := ∅; min_ordinal := 0; max_ordinal := 0;
     task_locations := ∅; compensating := ∅ |}.

Definition add (path msg : string) (st : checking) : checking :=
  st <| violations ::= λ vs, vs ++ [violation path msg] |>.
Definition add_if (b : bool) (path msg : string) (st : checking) : checking :=
  if b then add path msg st else st.

(** A loop over a slice with its index. *)
Fixpoint indexed {A S} (f : Z → A → S → S) (i : Z) (l : list A) (st : S) : S :=
  match l with [] => st | x :: l => indexed f (i + 1) l (f i x st) end.

(** ** A task definition *)

Definition stringFromMap (m : list (string * value)) (key : string) : string :=
  match str_assoc m key with Some (VString s) => TrimSpace s | _ => "" end.

(** The document of a task definition, if it is an object. *)
Definition config_object (td : TaskDefinitionV2) : list (string * value) :=
  match td_config td with Some (VMap m) => m | _ => [] end.

Definition service_in (m : list (string * value)) : string :=
  orElse (stringFromMap m "assigned_service") (stringFromMap m "service").
Definition extractAssignedService (td : TaskDefinitionV2) : string :=
  let config := config_object td in
  orElse (service_in config)
    (match str_assoc config "integration" with Some (VMap m) => service_in m | _ => "" end).

Definition extractReferencedStageCodes (td : TaskDefinitionV2) : list string :=
  List.filter (λ s, negb (s =?s ""))
    (map (stringFromMap (config_object td)) ["stage_code"; "target_stage_code"]).

Definition validateRetryPolicy (taskPath : string) (td : TaskDefinitionV2) (st : checking)
    : checking :=
  match td_retry_policy (td_failure td) with
  | None => add (taskPath +:+ ".retry_policy") "retry_policy is required" st
  | Some p =>
      let st := add_if (MaxRetries p <? 0) (taskPath +:+ ".retry_policy.max_retries")
                  "max_retries must be greater than or equal to 0" st in
      let st := add_if (BaseIntervalSeconds p <=? 0)
                  (taskPath +:+ ".retry_policy.base_interval_seconds")
                  "base_interval_seconds must be greater than 0" st in
      let st := add_if (MaxIntervalSeconds p <=? 0)
                  (taskPath +:+ ".retry_policy.max_interval_seconds")
                  "max_interval_seconds must be greater than 0" st in
      let st := add_if ((0 <? MaxIntervalSeconds p) && (0 <? BaseIntervalSeconds p) &&
                        (MaxIntervalSeconds p <? BaseIntervalSeconds p))
                  (taskPath +:+ ".retry_policy.max_interval_seconds")
                  "max_interval_seconds must be greater than or equal to base_interval_seconds"
                  st in
      add_if (negb (BackoffStrategy p =?s "") &&
              negb (str_mem (BackoffStrategy p) ["FIXED"; "LINEAR"; "EXPONENTIAL"]))
        (taskPath +:+ ".retry_policy.backoff_strategy")
        "backoff_strategy must be FIXED, LINEAR, or EXPONENTIAL" st
  end.

(** ** Stages, activities and tasks *)

Definition at_index (path field : string) (i : Z) : string :=
  path +:+ field +:+ "[" +:+ Itoa i +:+ "]".

Definition enter_task (taskPath taskCode : string) (st : checking) : checking :=
  if taskCode =?s "" then add (taskPath +:+ ".code") "task definition code is required" st
  else match task_locations st !! taskCode with
       | Some existingLoc =>
           add (taskPath +:+ ".code")
             ("duplicate task definition code " +:+ taskCode +:+ " already used at " +:+
              existingLoc) st
       | None => st <| task_locations ::= <[taskCode := taskPath]> |>
       end.

Definition check_references_of (taskPath : string) (codes : list string) (st : checking)
    : checking :=
  fold_left (λ st code,
    add_if (negb (bool_decide (code ∈ stage_codes st))) (taskPath +:+ ".stage_code")
      ("referenced stage " +:+ code +:+ " is not defined") st) codes st.

Definition check_task (activityPath : string) (k : Z) (td : TaskDefinitionV2) (st : checking)
    : checking :=
  let taskPath := at_index activityPath ".task_definitions" k in
  let taskCode := TrimSpace (task_code td) in
  let st := enter_task taskPath taskCode st in
  let st := add_if (extractAssignedService td =?s "") (taskPath +:+ ".assigned_service")
              "assigned_service is required and must be non-empty" st in
  let st := validateRetryPolicy taskPath td st in
  let compCode := TrimSpace (td_compensating_task_code td) in
  let st := if negb (compCode =?s "") && negb (taskCode =?s "")
            then st <| compensating ::= <[taskCode := compCode]> |> else st in
  check_references_of taskPath (extractReferencedStageCodes td) st.

Definition check_activity (stagePath stageCode : string) (j : Z) (activity : activity_def)
    (p : gset string * checking) : gset string * checking :=
  let '(activityCodes, st) := p in
  let activityPath := at_index stagePath ".activities" j in
  let activityCode := TrimSpace (ad_code activity) in
  let '(activityCodes, st) :=
    if activityCode =?s "" then
      (activityCodes, add (activityPath +:+ ".code") "activity code is required" st)
    else if bool_decide (activityCode ∈ activityCodes) then
      (activityCodes, add (activityPath +:+ ".code")
         ("duplicate activity code " +:+ activityCode +:+ " within stage " +:+ stageCode) st)
    else ({[activityCode]} ∪ activityCodes, st) in
  (activityCodes, indexed (check_task activityPath) 0 (ad_tasks activity) st).

Definition check_ordinal (stagePath stageCode : string) (order : Z) (st : checking) : checking :=
  if order <=? 0 then
    add (stagePath +:+ ".sequence_order") "stage ordinal must be greater than 0" st
  else
    let st :=
      match ordinals st !! order with
      | Some existingCode =>
          add (stagePath +:+ ".sequence_order")
            ("ordinal " +:+ Itoa order +:+ " is already used by stage " +:+ existingCode) st
      | None => st <| ordinals ::= <[order := stageCode]> |>
      end in
    st <| min_ordinal ::= λ m, if (m =? 0) || (order <? m) then order else m |>
       <| max_ordinal ::= λ m, if m <? order then order else m |>.

Definition check_stage (i : Z) (stage : stage_def) (st : checking) : checking :=
  let stagePath := at_index "" "stages" i in
  let stageCode := TrimSpace (sd_code stage) in
  let st :=
    if stageCode =?s "" then add (stagePath +:+ ".code") "stage code is required" st
    else if bool_decide (stageCode ∈ stage_codes st) then
      add (stagePath +:+ ".code") ("duplicate stage code " +:+ stageCode) st
    else st <| stage_codes ::= λ s, {[stageCode]} ∪ s |> in
  let st := check_ordinal stagePath stageCode (sd_order stage) st in
  let st := add_if (Nat.eqb (length (sd_activities stage)) 0) (stagePath +:+ ".activities")
              "each stage must include at least one activity" st in
  snd (indexed (check_activity stagePath stageCode) 0 (sd_activities stage) (∅, st)).

(** ** Compensation cycles *)

(** The state of the depth-first search: what [state] says of the nodes that are known (1:
    on the path, 2: done), the path, and the violations. *)
Definition search : Type := gmap string Z * list string * list ValidationViolation.

(** [visit]; [None] when the fuel runs out. *)
Fixpoint visit (fuel : nat) (graph : gmap string string) (node : string) (s : search)
    : option search :=
  let '(state, path, vs) := s in
  match state !! node with
  | Some 1 =>
      Some (state, path, vs ++ [violation "task_definitions.compensating_task_code"
        ("circular compensating task dependency detected: " +:+
         joined " -> " (path ++ [node]))])
  | Some 2 => Some s
  | _ =>
      match fuel with
      | O => None
      | S fuel =>
          let s' := (<[node := 1]> state, path ++ [node], vs) in
          match (match graph !! node with
                 | Some next =>
                     if TrimSpace next =?s "" then Some s' else visit fuel graph next s'
                 | None => Some s'
                 end) with
          | Some (state', path', vs') => Some (<[node := 2]> state', removelast path', vs')
          | None => None
          end
      end
  end.

Fixpoint visit_all (fuel : nat) (graph : gmap string string) (nodes : list string) (s : search)
    : option search :=
  match nodes with
  | [] => Some s
  | node :: nodes =>
      match s.1.1 !! node with
      | None | Some 0 =>
          match visit fuel graph node s with
          | Some s => visit_all fuel graph nodes s
          | None => None
          end
      | _ => visit_all fuel graph nodes s
      end
  end.

(** The nodes in the order in which the loop over the map takes them; as much fuel as
    there are nodes, and one. *)
Definition validateCompensatingCycle (graph : gmap string string) (nodes : list string)
    : option (list ValidationViolation) :=
  match visit_all (S (size graph)) graph nodes (∅, [], []) with
  | Some (_, _, vs) => Some vs
  | None => None
  end.

(** ** The whole *)

(** The numbers from 1 to [n] that no stage has. *)
Definition missing_ordinals (n : nat) (m : gmap Z string) : list Z :=
  List.filter (λ i, negb (bool_decide (is_Some (m !! i)))) (seqZ 1 (Z.of_nat n)).

Definition check_ordinals (st : checking) : checking :=
  let n := Z.of_nat (size (ordinals st)) in
  let st := add_if (negb (min_ordinal st =? 1)) "stages"
              ("stage ordinals must start at 1 (found " +:+ Itoa (min_ordinal st) +:+ ")") st in
  let st := add_if (negb (max_ordinal st =? n)) "stages"
              ("stage ordinals must be contiguous from 1.." +:+ Itoa n) st in
  fold_left (λ st i, add "stages" ("missing stage ordinal " +:+ Itoa i) st)
    (missing_ordinals (size (ordinals st)) (ordinals st)) st.

Definition check_references (graph : list (string * string)) (st : checking) : checking :=
  fold_left (λ st e,
    add_if (negb (bool_decide (is_Some (task_locations st !! e.2)))) "task_definitions"
      ("task " +:+ e.1 +:+ " references unknown compensating_task_code " +:+ e.2) st) graph st.

(** [range1] and [range2]: the order in which the two loops over the map of compensations
    meet its entries, which the language leaves open. *)
Definition ValidateCaseTypeConfig (range1 range2 : gmap string string → list (string * string))
    (config : CaseTypeConfig) : option (list ValidationViolation) :=
  match cfg_stages config with
  | [] => Some [violation "stages" "at least one stage must be defined"]
  | stages =>
      let st := check_ordinals (indexed check_stage 0 stages unchecked) in
      let st := check_references (range1 (compensating st)) st in
      match validateCompensatingCycle (compensating st) (map fst (range2 (compensating st))) with
      | Some vs => Some (violations st ++ vs)
      | None => None
      end
  end.

(** ** What a valid configuration is *)

Definition code_of_task (td : TaskDefinitionV2) : string := TrimSpace (task_code td).
Definition compensation_of (td : TaskDefinitionV2) : string :=
  TrimSpace (td_compensating_task_code td).
Definition tasks_of_stage (s : stage_def) : list TaskDefinitionV2 :=
  flat_map ad_tasks (sd_activities s).
Definition all_tasks (c : CaseTypeConfig) : list TaskDefinitionV2 :=
  flat_map tasks_of_stage (cfg_stages c).

(** Codes that are there and tell their owners apart. *)
Definition distinct_codes (codes : list string) : Prop := (∀ c, c ∈ codes → c ≠ ""%string) ∧ NoDup codes.

Definition retry_ok (td : TaskDefinitionV2) : Prop :=
  match td_retry_policy (td_failure td) with
  | None => False
  | Some p => 0 <= MaxRetries p ∧ 0 < BaseIntervalSeconds p ∧
              BaseIntervalSeconds p <= MaxIntervalSeconds p ∧
              BackoffStrategy p ∈ [""; "FIXED"; "LINEAR"; "EXPONENTIAL"]%string
  end.
(** One task is the compensation of another. *)
Definition compensates (tasks : list TaskDefinitionV2) (x y : string) : Prop :=
  ∃ td, td ∈ tasks ∧ code_of_task td = x ∧ compensation_of td = y ∧ y ≠ ""%string.

Record well_formed (c : CaseTypeConfig) : Prop := {
  wf_stages : cfg_stages c ≠ [];
  wf_codes : distinct_codes (map (λ s, TrimSpace (sd_code s)) (cfg_stages c));
  wf_ordinals : map sd_order (cfg_stages c) ≡ₚ seqZ 1 (Z.of_nat (length (cfg_stages c)));
  wf_activities : ∀ s, s ∈ cfg_stages c → sd_activities s ≠ [] ∧
    distinct_codes (map (λ a, TrimSpace (ad_code a)) (sd_activities s));
  wf_tasks : distinct_codes (map code_of_task (all_tasks c));
  wf_each : ∀ td, td ∈ all_tasks c → extractAssignedService td ≠ ""%string ∧ retry_ok td;
  wf_references : ∀ before s after, cfg_stages c = before ++ s :: after →
    ∀ td code, td ∈ tasks_of_stage s → code ∈ extractReferencedStageCodes td →
    code ∈ map (λ s, TrimSpace (sd_code s)) (before ++ [s]);
  wf_known : ∀ x y, compensates (all_tasks c) x y → y ∈ map code_of_task (all_tasks c);
  wf_acyclic : well_founded (λ y x, compensates (all_tasks c) x y);
}.

(** ** Steps without violations *)

Definition clean (st : checking) : Prop := violations st = [].

Lemma clean_add path msg st : clean (add path msg st) ↔ False.
Proof. unfold clean, add. cbn. split; [|done]. by intros [_ ?]%app_eq_nil. Qed.
Lemma clean_add_if b path msg st : clean (add_if b path msg st) ↔ clean st ∧ b = false.
Proof. destruct b; cbn; [rewrite clean_add|]; naive_solver. Qed.

(** What a violation leaves alone. *)
Definition tables (st : checking) : checking := st <| violations := [] |>.
Lemma tables_add_if b path msg st : tables (add_if b path msg st) = tables st.
Proof. by destruct b. Qed.

Lemma tables_fields st st' : tables st = tables st' →
  ordinals st = ordinals st' ∧ stage_codes st = stage_codes st' ∧
  min_ordinal st = min_ordinal st' ∧ max_ordinal st = max_ordinal st' ∧
  task_locations st = task_locations st' ∧ compensating st = compensating st'.
Proof. destruct st, st'. by intros [= -> -> -> -> -> ->]. Qed.

Lemma validateRetryPolicy_tables path td st : tables (validateRetryPolicy path td st) = tables st.
Proof.
  unfold validateRetryPolicy. destruct (td_retry_policy _); [|done]. by rewrite !tables_add_if.
Qed.

Lemma validateRetryPolicy_clean path td st :
  clean (validateRetryPolicy path td st) ↔ clean st ∧ retry_ok td.
Proof.
  unfold validateRetryPolicy, retry_ok. destruct (td_retry_policy _) as [p|].
  - rewrite !clean_add_if. set (s := BackoffStrategy p).
    assert (Hs : negb (s =?s "") && negb (str_mem s ["FIXED"; "LINEAR"; "EXPONENTIAL"]) = false ↔
                 s ∈ [""; "FIXED"; "LINEAR"; "EXPONENTIAL"]%string).
    { rewrite andb_false_iff, !negb_false_iff, String.eqb_eq, str_mem_elem.
      symmetry. apply elem_of_cons. }
    rewrite Hs. split.
    + intros (((((H1 & H2) & H3) & H4) & H5) & H6). split_and!; [done|lia..|done].
    + intros (H1 & H2 & H3 & H4 & H5). split_and!; [done|lia..|done].
  - rewrite clean_add. naive_solver.
Qed.

Lemma references_of path codes st :
  tables (check_references_of path codes st) = tables st ∧
  (clean (check_references_of path codes st) ↔
   clean st ∧ ∀ code, code ∈ codes → code ∈ stage_codes st).
Proof.
  revert st. induction codes as [|r refs IH]; intros st.
  - split; [done|]. split; [|by intros []]. intros H. split; [done|]. intros c Hc.
    by apply elem_of_nil in Hc.
  - unfold check_references_of in *. cbn [fold_left].
    match goal with |- context [fold_left _ refs (add_if ?b ?p ?m st)] =>
      set (st1 := add_if b p m st); destruct (IH st1) as [H1 H2] end.
    assert (Et : tables st1 = tables st) by apply tables_add_if.
    split; [by rewrite H1|]. rewrite H2. unfold st1 at 1.
    rewrite clean_add_if, negb_false_iff, bool_decide_eq_true.
    apply tables_fields in Et as (_ & -> & _).
    setoid_rewrite elem_of_cons. naive_solver.
Qed.

(** The codes that are entered in a set. *)
Definition entered (codes : list string) : gset string :=
  list_to_set (List.filter (λ c, negb (c =?s "")) codes).

Lemma entered_app l l' : entered (l ++ l') = entered l ∪ entered l'.
Proof. unfold entered. rewrite List.filter_app. by apply list_to_set_app_L. Qed.
Lemma entered_cons c l : entered (c :: l) = (if c =?s "" then ∅ else {[c]}) ∪ entered l.
Proof. unfold entered. cbn. destruct (c =?s ""); cbn; [by rewrite (left_id_L ∅ (∪))|done]. Qed.
Lemma elem_of_entered c l : c ∈ entered l ↔ c ∈ l ∧ c ≠ ""%string.
Proof.
  unfold entered. rewrite elem_of_list_to_set, list_elem_of_In, filter_In, <- list_elem_of_In.
  by rewrite negb_true_iff, String.eqb_neq.
Qed.

(** The codes of a list are new and tell each other apart. *)
Definition new_codes (seen : gset string) (codes : list string) : Prop :=
  distinct_codes codes ∧ ∀ c, c ∈ codes → c ∉ seen.

Lemma new_codes_nil seen : new_codes seen [].
Proof.
  split; [split; [|constructor]|]; intros c Hc; by apply elem_of_nil in Hc.
Qed.
Lemma new_codes_cons seen c l :
  new_codes seen (c :: l) ↔ c ≠ ""%string ∧ c ∉ seen ∧ new_codes ({[c]} ∪ seen) l.
Proof.
  unfold new_codes, distinct_codes. rewrite NoDup_cons. setoid_rewrite elem_of_cons.
  set_solver.
Qed.

Definition entry (td : TaskDefinitionV2) (m : gmap string string) : gmap string string :=
  if negb (compensation_of td =?s "") && negb (code_of_task td =?s "")
  then <[code_of_task td := compensation_of td]> m else m.

(** The fields the loop over the tasks leaves alone, and those it changes. *)
Record task_effect (tds : list TaskDefinitionV2) (st st' : checking) : Prop := {
  te_ordinals : ordinals st' = ordinals st;
  te_codes : stage_codes st' = stage_codes st;
  te_min : min_ordinal st' = min_ordinal st;
  te_max : max_ordinal st' = max_ordinal st;
  te_locations : dom (task_locations st') = entered (map code_of_task tds) ∪ dom (task_locations st);
  te_compensating : compensating st' = fold_left (λ m td, entry td m) tds (compensating st);
}.
Definition tasks_fine (seen codes : gset string) (tds : list TaskDefinitionV2) : Prop :=
  new_codes seen (map code_of_task tds) ∧
  ∀ td, td ∈ tds → (extractAssignedService td ≠ ""%string ∧ retry_ok td) ∧
    ∀ code, code ∈ extractReferencedStageCodes td → code ∈ codes.

Lemma enter_task_spec path c st :
  let st' := enter_task path c st in
  (ordinals st' = ordinals st ∧ stage_codes st' = stage_codes st ∧
   min_ordinal st' = min_ordinal st ∧ max_ordinal st' = max_ordinal st ∧
   dom (task_locations st') = entered [c] ∪ dom (task_locations st) ∧
   compensating st' = compensating st) ∧
  (clean st' ↔ clean st ∧ c ≠ ""%string ∧ c ∉ dom (task_locations st)).
Proof.
  cbv zeta. unfold enter_task. rewrite entered_cons. unfold entered at 1. cbn.
  destruct (String.eqb_spec c "") as [->|Hc].
  - rewrite clean_add. split; [|naive_solver]. split_and!; try done. cbn. set_solver.
  - destruct (task_locations st !! c) as [loc|] eqn:E.
    + apply elem_of_dom_2 in E. rewrite clean_add. split; [|naive_solver].
      split_and!; try done. cbn. set_solver.
    + apply not_elem_of_dom in E. split; [|unfold clean; naive_solver].
      split_and!; try done. cbn. rewrite dom_insert_L. set_solver.
Qed.

Lemma check_task_spec ap k td st :
  task_effect [td] st (check_task ap k td st) ∧
  (clean (check_task ap k td st) ↔
   clean st ∧ tasks_fine (dom (task_locations st)) (stage_codes st) [td]).
Proof.
  unfold check_task. cbv zeta. fold (code_of_task td) (compensation_of td).
  set (path := at_index ap _ k).
  destruct (enter_task_spec path (code_of_task td) st) as [(E1 & E2 & E3 & E4 & E5 & E6) Ec].
  set (st1 := enter_task path _ st) in *. clearbody st1.
  set (st2 := validateRetryPolicy path td _).
  assert (Et : tables st2 = tables st1).
  { unfold st2. by rewrite validateRetryPolicy_tables, tables_add_if. }
  assert (Ec2 : clean st2 ↔ clean st1 ∧ extractAssignedService td ≠ ""%string ∧ retry_ok td).
  { unfold st2. rewrite validateRetryPolicy_clean, clean_add_if, String.eqb_neq. tauto. }
  clearbody st2. apply tables_fields in Et as (F1 & F2 & F3 & F4 & F5 & F6).
  set (st3 := if _ && _ then _ else st2).
  assert (G : ordinals st3 = ordinals st2 ∧ stage_codes st3 = stage_codes st2 ∧
              min_ordinal st3 = min_ordinal st2 ∧ max_ordinal st3 = max_ordinal st2 ∧
              task_locations st3 = task_locations st2 ∧
              compensating st3 = entry td (compensating st2) ∧ (clean st3 ↔ clean st2)).
  { unfold st3, entry. by destruct (_ && _). }
  clearbody st3. destruct G as (G1 & G2 & G3 & G4 & G5 & G6 & Gc).
  destruct (references_of path (extractReferencedStageCodes td) st3) as [Ht Hc].
  apply tables_fields in Ht as (H1 & H2 & H3 & H4 & H5 & H6). split.
  - split; [congruence..| |].
    + by rewrite H5, G5, F5, E5.
    + cbn [fold_left]. by rewrite H6, G6, F6, E6.
  - rewrite Hc, Gc, Ec2, Ec, G2, F2, E2. unfold tasks_fine. cbn [map]. rewrite new_codes_cons. split.
    + intros (((H7 & H8 & H9) & H10 & H11) & H12). split_and!; try done.
      * apply new_codes_nil.
      * intros td' Htd. apply list_elem_of_singleton in Htd as ->. done.
    + intros (H7 & (H8 & H9 & _) & H10). destruct (H10 td) as [[H11 H12] H13]; [by left|].
      done.
Qed.

Lemma tasks_fine_cons seen codes td tds :
  tasks_fine seen codes (td :: tds) ↔
  tasks_fine seen codes [td] ∧ tasks_fine (entered [code_of_task td] ∪ seen) codes tds.
Proof.
  unfold tasks_fine. cbn [map]. rewrite !new_codes_cons. setoid_rewrite elem_of_cons.
  setoid_rewrite elem_of_nil. split.
  - intros [(H1 & H2 & H3) H4]. split; [split; [|naive_solver]|].
    + split_and!; [done..|apply new_codes_nil].
    + rewrite entered_cons. apply String.eqb_neq in H1 as ->. unfold entered at 1. cbn.
      rewrite (right_id_L ∅ (∪)). split; [done|naive_solver].
  - intros [[(H1 & H2 & _) H3] [H4 H5]]. rewrite entered_cons in H4.
    pose proof H1 as H1'. apply String.eqb_neq in H1' as E. rewrite E in H4.
    unfold entered at 1 in H4. cbn in H4. rewrite (right_id_L ∅ (∪)) in H4.
    split; [done|naive_solver].
Qed.

Lemma task_effect_trans tds tds' st st' st'' :
  task_effect tds st st' → task_effect tds' st' st'' → task_effect (tds ++ tds') st st''.
Proof.
  intros [A1 A2 A3 A4 A5 A6] [B1 B2 B3 B4 B5 B6]. split; [congruence..| |].
  - rewrite B5, A5, map_app, entered_app. set_solver.
  - by rewrite B6, A6, fold_left_app.
Qed.

Lemma check_tasks_spec ap tds : ∀ k st,
  task_effect tds st (indexed (check_task ap) k tds st) ∧
  (clean (indexed (check_task ap) k tds st) ↔
   clean st ∧ tasks_fine (dom (task_locations st)) (stage_codes st) tds).
Proof.
  induction tds as [|td tds IH]; intros k st; cbn [indexed].
  - split.
    + split; try done. cbn. by rewrite (left_id_L ∅ (∪)).
    + split; [|naive_solver]. intros H. split; [done|]. split; [apply new_codes_nil|].
      intros td Htd. by apply elem_of_nil in Htd.
  - destruct (check_task_spec ap k td st) as [H1 H2]. set (st1 := check_task ap k td st) in *.
    clearbody st1. destruct (IH (k + 1) st1) as [H3 H4]. split.
    + by apply (task_effect_trans [td] tds st st1).
    + rewrite H4, H2, (tasks_fine_cons _ _ td tds), (te_locations _ _ _ H1), (te_codes _ _ _ H1). cbn [map].
      tauto.
Qed.

Lemma tasks_fine_app seen codes tds tds' :
  tasks_fine seen codes (tds ++ tds') ↔
  tasks_fine seen codes tds ∧ tasks_fine (entered (map code_of_task tds) ∪ seen) codes tds'.
Proof.
  revert seen. induction tds as [|td tds IH]; intros seen.
  - cbn. rewrite (left_id_L ∅ (∪)). split; [|naive_solver]. intros H. split; [|done]. split.
    + split; [split; [|constructor]|]; intros c Hc; by apply elem_of_nil in Hc.
    + intros td Htd. by apply elem_of_nil in Htd.
  - cbn [app]. rewrite tasks_fine_cons, (tasks_fine_cons _ _ td tds), IH.
    assert (entered (map code_of_task tds) ∪ (entered [code_of_task td] ∪ seen) =
            entered (map code_of_task (td :: tds)) ∪ seen) as ->; [|tauto].
    cbn [map]. change (code_of_task td :: map code_of_task tds) with
      ([code_of_task td] ++ map code_of_task tds). rewrite entered_app. set_solver.
Qed.

(** ** Activities *)

Lemma check_activities_spec sp sc acts : ∀ j codes st,
  let r := indexed (check_activity sp sc) j acts (codes, st) in
  task_effect (flat_map ad_tasks acts) st r.2 ∧
  (clean r.2 ↔ clean st ∧ new_codes codes (map (λ a, TrimSpace (ad_code a)) acts) ∧
     tasks_fine (dom (task_locations st)) (stage_codes st) (flat_map ad_tasks acts)).
Proof.
  induction acts as [|a acts IH]; intros j codes st; cbn [indexed].
  - destruct (check_tasks_spec "" [] 0 st) as [H1 H2]. cbn [indexed snd] in *.
    split; [done|]. rewrite H2 at 1. cbn [map flat_map]. pose proof (new_codes_nil codes). tauto.
  - cbn [check_activity]. set (c := TrimSpace (ad_code a)).
    set (p := if c =?s "" then _ else _).
    assert (Hp : tables p.2 = tables st ∧
                 (clean p.2 ↔ clean st ∧ c ≠ ""%string ∧ c ∉ codes) ∧
                 (clean p.2 → p.1 = {[c]} ∪ codes)).
    { unfold p. destruct (String.eqb_spec c "") as [Ec|Hc]; cbn.
      - rewrite clean_add. naive_solver.
      - case_bool_decide; cbn; [rewrite clean_add|]; naive_solver. }
    destruct p as [codes1 st1] eqn:Ep. clear p Ep. cbn in Hp. destruct Hp as (Ht & Hc & Hcodes).
    apply tables_fields in Ht as (E1 & E2 & E3 & E4 & E5 & E6).
    set (ap := at_index sp ".activities" j).
    destruct (check_tasks_spec ap (ad_tasks a) 0 st1) as [H1 H2].
    set (st2 := indexed (check_task ap) 0 (ad_tasks a) st1) in *. clearbody st2.
    destruct (IH (j + 1) codes1 st2) as [H3 H4]. cbn [flat_map map]. split.
    + apply (task_effect_trans _ _ st st2); [|done]. destruct H1. split; congruence.
    + rewrite H4, H2, new_codes_cons, tasks_fine_app. destruct H1 as [_ F2 _ _ F5 _].
      rewrite F2, F5, E2, E5. fold c. split.
      * intros ((H5 & H6) & H7 & H8). rewrite Hcodes in H7 by done. tauto.
      * intros (H5 & (H6 & H7 & H8) & H9 & H10). assert (clean st1) as H11 by tauto.
        rewrite (Hcodes H11). tauto.
Qed.

(** ** Ordinals *)

(** The least and the greatest of the ordinals that are known. *)
Definition ordinals_ok (st : checking) : Prop :=
  (∀ o, o ∈ dom (ordinals st) → 0 < o ∧ min_ordinal st <= o <= max_ordinal st) ∧
  (if decide (ordinals st = ∅) then min_ordinal st = 0 ∧ max_ordinal st = 0
   else min_ordinal st ∈ dom (ordinals st) ∧ max_ordinal st ∈ dom (ordinals st)).

Lemma ordinals_ok_fields st st' :
  ordinals st' = ordinals st → min_ordinal st' = min_ordinal st →
  max_ordinal st' = max_ordinal st → ordinals_ok st → ordinals_ok st'.
Proof. unfold ordinals_ok. by intros -> -> ->. Qed.

Lemma check_ordinal_spec path code o st :
  let st' := check_ordinal path code o st in
  (stage_codes st' = stage_codes st ∧ task_locations st' = task_locations st ∧
   compensating st' = compensating st) ∧
  (ordinals_ok st → ordinals_ok st') ∧
  (clean st' ↔ clean st ∧ 0 < o ∧ o ∉ dom (ordinals st)) ∧
  (clean st' → dom (ordinals st') = {[o]} ∪ dom (ordinals st)).
Proof.
  cbv zeta. unfold check_ordinal. destruct (Z.leb_spec o 0) as [Ho|Ho].
  { rewrite clean_add. split_and!; try done. lia. }
  destruct (ordinals st !! o) as [existing|] eqn:E.
  - apply elem_of_dom_2 in E as Hin. set (st1 := add _ _ st).
    assert (Hc : ¬ clean st1) by (by intros ?%clean_add).
    split_and!; try done.
    + intros [H1 H2]. destruct (H1 o Hin) as [_ H3].
      assert (H0 : min_ordinal st ≠ 0).
      { destruct (decide (ordinals st = ∅)) as [e|e] in H2.
        - by rewrite e in E.
        - destruct H2 as [H2 _]. apply H1 in H2. lia. }
      apply (ordinals_ok_fields st); [done| | |done].
      * cbn. assert ((min_ordinal st =? 0) || (o <? min_ordinal st) = false) as -> by lia. done.
      * cbn. assert ((max_ordinal st <? o) = false) as -> by lia. done.
    + split; [|naive_solver]. intros H. by exfalso.
  - apply not_elem_of_dom in E as Hnew. split_and!; try done.
    + intros [H1 H2]. unfold ordinals_ok. cbn [ordinals min_ordinal max_ordinal].
      set (mn := if (min_ordinal st =? 0) || (o <? min_ordinal st) then o else min_ordinal st).
      set (mx := if max_ordinal st <? o then o else max_ordinal st).
      change ((∀ o', o' ∈ dom (<[o := code]> (ordinals st)) → 0 < o' ∧ mn <= o' <= mx) ∧
              (if decide (<[o := code]> (ordinals st) = ∅) then mn = 0 ∧ mx = 0
               else mn ∈ dom (<[o := code]> (ordinals st)) ∧ mx ∈ dom (<[o := code]> (ordinals st)))).
      rewrite decide_False by apply insert_non_empty. rewrite dom_insert_L.
      destruct (decide (ordinals st = ∅)) as [e|e] in H2.
      * destruct H2 as [E1 E2]. assert (mn = o ∧ mx = o) as [-> ->].
        { unfold mn, mx. rewrite E1, E2. cbn. by assert ((0 <? o) = true) as -> by lia. }
        rewrite e, dom_empty_L. split; [|set_solver]. intros o' Ho'. set_solver by lia.
      * destruct H2 as [H2 H3]. pose proof (H1 _ H2). pose proof (H1 _ H3).
        assert (Hmn : mn = Z.min o (min_ordinal st)) by (unfold mn; case_match; lia).
        assert (Hmx : mx = Z.max o (max_ordinal st)) by (unfold mx; case_match; lia).
        clearbody mn mx. split.
        -- intros o'. intros [->%elem_of_singleton|Ho']%elem_of_union; [lia|].
           apply H1 in Ho'. lia.
        -- subst. split.
           ++ destruct (Z.min_spec o (min_ordinal st)) as [[_ ->]|[_ ->]]; set_solver.
           ++ destruct (Z.max_spec o (max_ordinal st)) as [[_ ->]|[_ ->]]; set_solver.
    + split; [naive_solver|]. intros H. by destruct H.
    + intros _. cbn. by rewrite dom_insert_L.
Qed.

(** ** Stages *)

Definition code_of_stage (s : stage_def) : string := TrimSpace (sd_code s).
Definition activities_fine (s : stage_def) : Prop :=
  sd_activities s ≠ [] ∧ distinct_codes (map (λ a, TrimSpace (ad_code a)) (sd_activities s)).

Lemma check_stage_spec i s st :
  let st' := check_stage i s st in
  (compensating st' = fold_left (λ m td, entry td m) (tasks_of_stage s) (compensating st) ∧
   dom (task_locations st') =
     entered (map code_of_task (tasks_of_stage s)) ∪ dom (task_locations st)) ∧
  (ordinals_ok st → ordinals_ok st') ∧
  (clean st' ↔ clean st ∧ (code_of_stage s ≠ ""%string ∧ code_of_stage s ∉ stage_codes st) ∧
     (0 < sd_order s ∧ sd_order s ∉ dom (ordinals st)) ∧ activities_fine s ∧
     tasks_fine (dom (task_locations st)) ({[code_of_stage s]} ∪ stage_codes st)
       (tasks_of_stage s)) ∧
  (clean st' → stage_codes st' = {[code_of_stage s]} ∪ stage_codes st ∧
     dom (ordinals st') = {[sd_order s]} ∪ dom (ordinals st)).
Proof.
  cbv zeta. unfold check_stage. cbv zeta. fold (code_of_stage s). set (c := code_of_stage s).
  set (path := at_index "" "stages" i). set (st1 := if c =?s "" then _ else _).
  assert (H1 : (ordinals st1 = ordinals st ∧ min_ordinal st1 = min_ordinal st ∧
                max_ordinal st1 = max_ordinal st ∧ task_locations st1 = task_locations st ∧
                compensating st1 = compensating st) ∧
               (clean st1 ↔ clean st ∧ c ≠ ""%string ∧ c ∉ stage_codes st) ∧
               (clean st1 → stage_codes st1 = {[c]} ∪ stage_codes st)).
  { unfold st1. destruct (String.eqb_spec c "") as [Ec|Hc].
    - rewrite clean_add. naive_solver.
    - case_bool_decide; [rewrite clean_add; naive_solver|].
      split_and!; try done. split; [naive_solver|]. intros H'. by destruct H'. }
  clearbody st1. destruct H1 as ((A1 & A2 & A3 & A4 & A5) & A6 & A7).
  destruct (check_ordinal_spec path c (sd_order s) st1) as ((B1 & B2 & B3) & B4 & B5 & B6).
  set (st2 := check_ordinal path c (sd_order s) st1) in *. clearbody st2.
  set (st3 := add_if _ _ _ st2).
  assert (C : tables st3 = tables st2) by apply tables_add_if.
  assert (D : clean st3 ↔ clean st2 ∧ sd_activities s ≠ []).
  { unfold st3. rewrite clean_add_if, Nat.eqb_neq, length_zero_iff_nil. done. }
  clearbody st3. apply tables_fields in C as (C1 & C2 & C3 & C4 & C5 & C6).
  destruct (check_activities_spec path c (sd_activities s) 0 ∅ st3) as [[E1 E2 E3 E4 E5 E6] F].
  fold (tasks_of_stage s) in *.
  set (st4 := (indexed _ 0 (sd_activities s) (∅, st3)).2) in *. clearbody st4.
  split_and!.
  - by rewrite E6, C6, B3, A5.
  - by rewrite E5, C5, B2, A4.
  - intros H. apply (ordinals_ok_fields st3); [done..|]. apply (ordinals_ok_fields st2); [done..|].
    apply B4. by apply (ordinals_ok_fields st).
  - rewrite F, D, B5, A6, A1, C5, B2, A4, C2, B1. unfold activities_fine, new_codes.
    split.
    + intros ((((H1 & H2 & H3) & H4 & H5) & H6) & (H7 & _) & H8).
      rewrite A7 in H8 by (apply A6; done). tauto.
    + intros (H1 & (H2 & H3) & (H4 & H5) & (H6 & H7) & H8).
      rewrite A7 by (apply A6; done). split_and!; done.
  - intros H. apply F in H as (H & _). apply D in H as [H _]. rewrite E2, C2, B1, E1, C1.
    split; [|by rewrite (B6 H), A1]. apply A7. apply B5 in H. tauto.
Qed.

Definition stages_fine (ords : gset Z) (codes seen : gset string) (stages : list stage_def)
    : Prop :=
  new_codes codes (map code_of_stage stages) ∧
  (NoDup (map sd_order stages) ∧ ∀ o, o ∈ map sd_order stages → 0 < o ∧ o ∉ ords) ∧
  (∀ s, s ∈ stages → activities_fine s) ∧
  new_codes seen (map code_of_task (flat_map tasks_of_stage stages)) ∧
  (∀ td, td ∈ flat_map tasks_of_stage stages →
     extractAssignedService td ≠ ""%string ∧ retry_ok td) ∧
  (∀ before s after, stages = before ++ s :: after →
     ∀ td code, td ∈ tasks_of_stage s → code ∈ extractReferencedStageCodes td →
     code ∈ map code_of_stage (before ++ [s]) ∨ code ∈ codes).

Lemma new_codes_app seen l l' :
  new_codes seen (l ++ l') ↔ new_codes seen l ∧ new_codes (entered l ∪ seen) l'.
Proof.
  revert seen. induction l as [|c l IH]; intros seen.
  - cbn. unfold entered. cbn. rewrite (left_id_L ∅ (∪)).
    pose proof (new_codes_nil seen). tauto.
  - cbn [app]. rewrite !new_codes_cons, IH, entered_cons. split.
    + intros (H1 & H2 & H3 & H4). apply String.eqb_neq in H1 as E. rewrite E.
      replace ({[c]} ∪ entered l ∪ seen) with (entered l ∪ ({[c]} ∪ seen)) by set_solver.
      done.
    + intros ((H1 & H2 & H3) & H4). apply String.eqb_neq in H1 as E. rewrite E in H4.
      replace ({[c]} ∪ entered l ∪ seen) with (entered l ∪ ({[c]} ∪ seen)) in H4 by set_solver.
      done.
Qed.

Lemma stages_fine_cons ords codes seen s stages :
  stages_fine ords codes seen (s :: stages) ↔
  (code_of_stage s ≠ ""%string ∧ code_of_stage s ∉ codes) ∧
  (0 < sd_order s ∧ sd_order s ∉ ords) ∧ activities_fine s ∧
  tasks_fine seen ({[code_of_stage s]} ∪ codes) (tasks_of_stage s) ∧
  stages_fine ({[sd_order s]} ∪ ords) ({[code_of_stage s]} ∪ codes)
    (entered (map code_of_task (tasks_of_stage s)) ∪ seen) stages.
Proof.
  unfold stages_fine, tasks_fine. cbn [map flat_map]. rewrite map_app, new_codes_app.
  rewrite new_codes_cons, NoDup_cons. setoid_rewrite elem_of_cons. setoid_rewrite elem_of_app.
  split.
  - intros ((H1 & H2 & H3) & ((H4 & H5) & H6) & H7 & (H8 & H9) & H10 & H11).
    split_and!; try done; auto.
    + apply H6. by left.
    + apply H6. by left.
    + intros td Htd. split; [auto|]. intros code Hcode.
      destruct (H11 [] s stages eq_refl td code Htd Hcode) as [H|H]; [|set_solver].
      cbn in H. set_solver.
    + intros o Ho. destruct (H6 o) as [H6a H6b]; [by right|]. set_solver.
    + intros before s' after -> td code Htd Hcode.
      destruct (H11 (s :: before) s' after eq_refl td code Htd Hcode) as [H|H]; [|set_solver].
      cbn in H. apply elem_of_cons in H as [->|H]; [set_solver|by left].
  - intros ((H1 & H2) & (H3 & H4) & H5 & (H6 & H7) & H8 & (H9 & H10) & H11 & H12 & H13 & H14).
    split_and!; try done.
    + intros Hin. apply H10 in Hin. set_solver.
    + intros o [->|Ho]; [done|]. apply H10 in Ho. set_solver.
    + intros s' [->|Hs]; auto.
    + intros td [Htd|Htd]; [by apply H7|auto].
    + intros before s' after E td code Htd Hcode. destruct before as [|b before]; injection E as -> ->.
      * destruct (H7 td Htd) as [_ H]. apply H in Hcode. cbn. set_solver.
      * destruct (H14 before s' after eq_refl td code Htd Hcode) as [H|H]; [left; by right|].
        cbn. set_solver.
Qed.

Lemma stages_fine_nil ords codes seen : stages_fine ords codes seen [].
Proof.
  refine (conj (new_codes_nil _) (conj (conj _ _) (conj _ (conj (new_codes_nil _) (conj _ _))))).
  1: constructor.
  1-3: intros x Hx; by apply elem_of_nil in Hx.
  intros [|b before] s after E; discriminate E.
Qed.

Lemma check_stages_spec stages : ∀ i st,
  let st' := indexed check_stage i stages st in
  (compensating st' = fold_left (λ m td, entry td m) (flat_map tasks_of_stage stages)
                        (compensating st) ∧
   dom (task_locations st') =
     entered (map code_of_task (flat_map tasks_of_stage stages)) ∪ dom (task_locations st)) ∧
  (ordinals_ok st → ordinals_ok st') ∧
  (clean st' ↔ clean st ∧
     stages_fine (dom (ordinals st)) (stage_codes st) (dom (task_locations st)) stages) ∧
  (clean st' → dom (ordinals st') = list_to_set (map sd_order stages) ∪ dom (ordinals st)).
Proof.
  induction stages as [|s stages IH]; intros i st; cbn [indexed].
  - cbn. unfold entered. cbn. rewrite !(left_id_L ∅ (∪)). split_and!; try done.
    pose proof (stages_fine_nil (dom (ordinals st)) (stage_codes st) (dom (task_locations st))).
    tauto.
  - destruct (check_stage_spec i s st) as ((A1 & A2) & A3 & A4 & A5).
    set (st1 := check_stage i s st) in *. clearbody st1.
    destruct (IH (i + 1) st1) as ((B1 & B2) & B3 & B4 & B5).
    set (st2 := indexed check_stage (i + 1) stages st1) in *. clearbody st2.
    cbn [flat_map map]. split_and!.
    + by rewrite B1, A1, fold_left_app.
    + rewrite B2, A2, map_app, entered_app. set_solver.
    + auto.
    + rewrite B4, stages_fine_cons. split.
      * intros [H1 H2]. destruct (A5 H1) as [E1 E2]. rewrite E1, E2, A2 in H2.
        apply A4 in H1. tauto.
      * intros (H1 & H2 & H3 & H4 & H5 & H6). assert (clean st1) as H7 by (apply A4; done).
        destruct (A5 H7) as [E1 E2]. by rewrite E1, E2, A2.
    + intros H. rewrite B5 by done. apply B4 in H as [H _]. destruct (A5 H) as [_ ->]. cbn.
      set_solver.
Qed.
