(* ===== verification/ConfigWellFormed.v ===== *)
(** * A configuration without violations is well formed (internal/versioning/validation.go)

    The search for circular compensations ends and finds a cycle exactly when there is
    one; with the loops of ConfigValidation, nothing is reported exactly for the
    configurations that are well formed. *)

From Stdlib Require Import Ascii String ZArith Lia.
From stdpp Require Import base list strings gmap sets relations.
From S2P Require Import Prelude ApprovalExpr RetryPolicy CaseConfig SqlTx Schema Outbox ConfigValidation.

Open Scope Z_scope.
Open Scope go_scope.

(** ** Chains of compensations *)

Section Search.
Context (graph : gmap string string).

Definition step (x y : string) : Prop := graph !! x = Some y.
(** What compensates is named. *)
Context (Hnamed : ∀ x y, step x y → TrimSpace y ≠ ""%string).

(** The nodes the search has not seen. *)
Definition unseen (state : gmap string Z) : nat := size (dom graph ∖ dom state).

Lemma unseen_mark state x v :
  x ∈ dom graph → state !! x = None → (S (unseen (<[x := v]> state)) <= unseen state)%nat.
Proof.
  intros Hx Hs. unfold unseen. rewrite dom_insert_L. apply not_elem_of_dom in Hs.
  replace (dom graph ∖ ({[x]} ∪ dom state)) with ((dom graph ∖ dom state) ∖ {[x]}) by set_solver.
  rewrite size_difference by set_solver. rewrite size_singleton.
  assert (size ({[x]} : gset string) <= size (dom graph ∖ dom state))%nat as H.
  { apply subseteq_size. set_solver. }
  rewrite size_singleton in H. lia.
Qed.

Lemma unseen_grow state state' : dom state ⊆ dom state' → (unseen state' <= unseen state)%nat.
Proof. intros H. unfold unseen. apply subseteq_size. set_solver. Qed.

(** Nodes are on the path (1) or done (2). *)
Definition on_path (state : gmap string Z) (x : string) : Prop := state !! x = Some 1.
Definition states_ok (state : gmap string Z) : Prop :=
  ∀ x v, state !! x = Some v → v = 1 ∨ v = 2.
(** The chain from a node ends. *)
Definition ends : string → Prop := Acc (λ y x, step x y).

(** A visit: it ends, marks the node and what follows it as done, and keeps the path; when
    it reports nothing, the chains from the nodes that are done end; when it reports
    something, there is a cycle. *)
Lemma visit_spec fuel : ∀ node state path vs,
  states_ok state → (unseen state < fuel)%nat →
  ∃ state' extra, visit fuel graph node (state, path, vs) = Some (state', path, vs ++ extra) ∧
    states_ok state' ∧ dom state ⊆ dom state' ∧
    (∀ x, on_path state' x ↔ on_path state x) ∧ node ∈ dom state' ∧
    (extra = [] → ¬ on_path state node ∧
       ((∀ x, state !! x = Some 2 → ends x) → ∀ x, state' !! x = Some 2 → ends x)) ∧
    (extra ≠ [] → (∀ x, on_path state x → tc step x node) → ∃ x, tc step x x).
Proof.
  induction fuel as [|fuel IH]; intros node state path vs Hok Hfuel; [lia|].
  cbn [visit]. destruct (state !! node) as [v|] eqn:E.
  { apply elem_of_dom_2 in E as Hd. destruct (Hok node v E) as [->| ->].
    - eexists state, _. split_and!; try done.
      intros _ Hp. exists node. by apply Hp.
    - exists state, []. rewrite app_nil_r. split_and!; try done. intros _. unfold on_path.
      rewrite E. naive_solver. }
  assert (Hnp : ¬ on_path state node) by (unfold on_path; by rewrite E).
  destruct (graph !! node) as [next|] eqn:Eg; cycle 1.
  { eexists _, []. rewrite app_nil_r, removelast_last. split_and!; [done| | | | | |done].
    - intros x v H. destruct (decide (x = node)) as [->|Hx].
      + rewrite lookup_insert in H. rewrite decide_True in H by done. naive_solver.
      + rewrite lookup_insert_ne, lookup_insert_ne in H by done. eauto.
    - rewrite !dom_insert_L. set_solver.
    - intros x. unfold on_path. destruct (decide (x = node)) as [->|Hx].
      + rewrite lookup_insert, decide_True by done. by rewrite E.
      + by rewrite !lookup_insert_ne by done.
    - rewrite !dom_insert_L. set_solver.
    - intros _. split; [done|]. intros Hends x H. destruct (decide (x = node)) as [->|Hx].
      + constructor. intros y Hy. unfold step in Hy. by rewrite Eg in Hy.
      + rewrite !lookup_insert_ne in H by done. auto. }
  assert (TrimSpace next =?s "" = false) as -> by (apply String.eqb_neq; by eapply Hnamed).
  apply elem_of_dom_2 in Eg as Hdom.
  destruct (IH next (<[node := 1]> state) (path ++ [node]) vs)
    as (state' & extra & -> & Hok' & Hgrow & Hpath & Hnext & Hnone & Hsome).
  { intros x v H. destruct (decide (x = node)) as [->|Hx].
    - rewrite lookup_insert, decide_True in H by done. naive_solver.
    - rewrite lookup_insert_ne in H by done. eauto. }
  { pose proof (unseen_mark state node 1 Hdom E). lia. }
  eexists _, extra. split; [by rewrite removelast_last|].
  rewrite dom_insert_L in Hgrow. split_and!.
  - intros x v H. destruct (decide (x = node)) as [->|Hx].
    + rewrite lookup_insert, decide_True in H by done. naive_solver.
    + rewrite lookup_insert_ne in H by done. eauto.
  - rewrite dom_insert_L. set_solver.
  - intros x. unfold on_path. destruct (decide (x = node)) as [->|Hx].
    + rewrite lookup_insert, decide_True by done. by rewrite E.
    + rewrite lookup_insert_ne by done. rewrite (Hpath x). unfold on_path.
      by rewrite lookup_insert_ne by done.
  - rewrite dom_insert_L. set_solver.
  - intros ->. destruct (Hnone eq_refl) as [Hn2 Hends]. split; [done|]. intros H x Hx.
    assert (Hall : ∀ y, state' !! y = Some 2 → ends y).
    { apply Hends. intros y Hy. destruct (decide (y = node)) as [->|Hne].
      - rewrite lookup_insert, decide_True in Hy by done. done.
      - rewrite lookup_insert_ne in Hy by done. auto. }
    destruct (decide (x = node)) as [->|Hne].
    + constructor. intros y Hy. unfold step in Hy. rewrite Eg in Hy. injection Hy as <-.
      apply Hall. apply elem_of_dom in Hnext as [v Hv]. destruct (Hok' _ _ Hv) as [->| ->]; [|done].
      exfalso. apply Hn2. by apply Hpath.
    + rewrite lookup_insert_ne in Hx by done. auto.
  - intros He Hp. apply (Hsome He). intros x Hx. destruct (decide (x = node)) as [->|Hne].
    + by apply tc_once.
    + apply tc_r with node; [|done]. apply Hp. unfold on_path in *.
      by rewrite lookup_insert_ne in Hx by done.
Qed.

Lemma cycle_endless x : tc step x x → ¬ ends x.
Proof.
  intros Hc He. induction He as [x _ IH].
  assert (∃ y, step x y ∧ tc step y y) as (y & Hy & Hcy).
  { inversion Hc as [? ? H|? y ? H1 H2]; subst; [by exists x|]. exists y. split; [done|].
    by apply tc_r with x. }
  by apply (IH y).
Qed.

Lemma visit_all_spec fuel nodes : ∀ state vs,
  states_ok state → (∀ x, ¬ on_path state x) → (unseen state < fuel)%nat →
  ∃ state' extra, visit_all fuel graph nodes (state, [], vs) = Some (state', [], vs ++ extra) ∧
    states_ok state' ∧ (∀ x, ¬ on_path state' x) ∧ dom state ⊆ dom state' ∧
    (∀ x, x ∈ nodes → x ∈ dom state') ∧
    (extra = [] → (∀ x, state !! x = Some 2 → ends x) → ∀ x, state' !! x = Some 2 → ends x) ∧
    (extra ≠ [] → ∃ x, tc step x x).
Proof.
  induction nodes as [|node nodes IH]; intros state vs Hok Hpath Hfuel; cbn [visit_all].
  { exists state, []. rewrite app_nil_r. split_and!; try done. intros x Hx. by apply elem_of_nil in Hx. }
  cbn [fst]. destruct (state !! node) as [v|] eqn:E.
  { assert (v = 2) as ->.
    { destruct (Hok _ _ E) as [Hv|Hv]; [|exact Hv]. exfalso. apply (Hpath node).
      unfold on_path. rewrite E, Hv. reflexivity. }
    destruct (IH state vs Hok Hpath Hfuel) as (state' & extra & H1 & H2 & H3 & H4 & H5 & H6 & H7).
    exists state', extra. refine (conj H1 (conj H2 (conj H3 (conj H4 (conj _ (conj H6 H7)))))).
    intros x [->|Hx]%elem_of_cons; [|auto]. apply H4. by apply elem_of_dom_2 in E. }
  destruct (visit_spec fuel node state [] vs Hok Hfuel)
    as (state1 & extra1 & -> & A1 & A2 & A3 & A4 & A5 & A6).
  destruct (IH state1 (vs ++ extra1)) as (state' & extra & H1 & H2 & H3 & H4 & H5 & H6 & H7).
  { done. }
  { intros x Hx. apply A3 in Hx. by apply (Hpath x). }
  { pose proof (unseen_grow _ _ A2). lia. }
  exists state', (extra1 ++ extra). rewrite H1, (assoc_L (++)).
  refine (conj eq_refl (conj H2 (conj H3 (conj _ (conj _ (conj _ _)))))).
  - set_solver.
  - intros x [->|Hx]%elem_of_cons; auto.
  - intros [-> ->]%app_eq_nil Hs. apply (H6 eq_refl). by apply (A5 eq_refl).
  - intros Hne. destruct extra1 as [|v l]; [by apply H7|]. apply A6; [done|].
    intros x Hx. by destruct (Hpath x).
Qed.

(** The search ends, in whatever order it takes the nodes, and reports something exactly
    when following compensations does not end. *)
Theorem cycle_search nodes :
  (∀ x, x ∈ dom graph → x ∈ nodes) →
  ∃ vs, validateCompensatingCycle graph nodes = Some vs ∧
        (vs = [] ↔ well_founded (λ y x, step x y)).
Proof.
  intros Hn. unfold validateCompensatingCycle.
  destruct (visit_all_spec (S (size graph)) nodes ∅ []) as (state & vs & -> & H1 & H2 & _ & H3 & H4 & H5).
  { intros x v H. by rewrite lookup_empty in H. }
  { intros x H. unfold on_path in H. by rewrite lookup_empty in H. }
  { unfold unseen. rewrite dom_empty_L, difference_empty_L, size_dom. lia. }
  exists vs. split; [done|]. split.
  - intros Hvs x. destruct (graph !! x) as [y|] eqn:E.
    + apply (H4 Hvs); [intros z Hz; by rewrite lookup_empty in Hz|].
      apply elem_of_dom_2 in E. apply Hn, H3, elem_of_dom in E as [v Hv].
      destruct (H1 _ _ Hv) as [->| ->]; [exfalso; exact (H2 x Hv)|exact Hv].
    + constructor. intros y Hy. unfold step in Hy. by rewrite E in Hy.
  - intros Hwf. destruct vs as [|v vs]; [done|]. destruct H5 as [x Hx]; [done|].
    by destruct (cycle_endless x Hx (Hwf x)).
Qed.
End Search.

(** ** The graph of compensations *)

Lemma fold_entry tds : ∀ m,
  NoDup (map code_of_task tds) → (∀ td, td ∈ tds → code_of_task td ≠ ""%string) →
  ∀ x y, fold_left (λ m td, entry td m) tds m !! x = Some y ↔
    compensates tds x y ∨ (m !! x = Some y ∧ ¬ ∃ z, compensates tds x z).
Proof.
  induction tds as [|td tds IH]; intros m Hn Hne x y.
  { cbn. unfold compensates. setoid_rewrite elem_of_nil. naive_solver. }
  cbn [fold_left map] in *. apply NoDup_cons in Hn as [Hnew Hn].
  rewrite IH; [|done|intros; apply Hne; by right].
  assert (Hc : code_of_task td ≠ ""%string) by (apply Hne; by left).
  assert (Hown : ∀ z, compensates (td :: tds) x z ↔
    (code_of_task td = x ∧ compensation_of td = z ∧ z ≠ ""%string) ∨ compensates tds x z).
  { intros z. unfold compensates. setoid_rewrite elem_of_cons. naive_solver. }
  assert (Hdis : code_of_task td = x → ∀ z, ¬ compensates tds x z).
  { intros <- z (td' & Hin & E & _). apply Hnew. rewrite <- E. by apply list_elem_of_In, in_map, list_elem_of_In. }
  setoid_rewrite Hown. unfold entry. apply String.eqb_neq in Hc as ->. rewrite andb_true_r.
  destruct (String.eqb_spec (compensation_of td) "") as [Ec|Ec]; cbn [negb].
  - rewrite Ec. naive_solver.
  - destruct (decide (code_of_task td = x)) as [Ex|Ex].
    + specialize (Hdis Ex). rewrite Ex, lookup_insert, decide_True by done. naive_solver.
    + rewrite lookup_insert_ne by done. naive_solver.
Qed.

Lemma compensating_graph tds :
  distinct_codes (map code_of_task tds) → ∀ x y,
  fold_left (λ m td, entry td m) tds ∅ !! x = Some y ↔ compensates tds x y.
Proof.
  intros [Hne Hn] x y. rewrite fold_entry; [|done|].
  - rewrite lookup_empty. naive_solver.
  - intros td Htd. apply Hne. by apply list_elem_of_In, in_map, list_elem_of_In.
Qed.

Lemma fold_named tds : ∀ m,
  (∀ x y, m !! x = Some y → TrimSpace y ≠ ""%string) →
  ∀ x y, fold_left (λ m td, entry td m) tds m !! x = Some y → TrimSpace y ≠ ""%string.
Proof.
  induction tds as [|td tds IH]; intros m Hm; cbn [fold_left]; [done|]. apply IH.
  intros x y. unfold entry.
  destruct (String.eqb_spec (compensation_of td) "") as [E|E]; cbn [negb andb]; [apply Hm|].
  destruct (negb _); [|apply Hm]. destruct (decide (code_of_task td = x)) as [<-|Hx].
  - rewrite lookup_insert, decide_True by done. intros [= <-]. unfold compensation_of in *.
    by rewrite TrimSpace_idem.
  - rewrite lookup_insert_ne by done. apply Hm.
Qed.

(** ** The checks after the loops *)

Lemma missing_ordinals_nil m :
  missing_ordinals (size m) m = [] ↔ ∀ i, 1 <= i <= Z.of_nat (size m) → i ∈ dom m.
Proof.
  unfold missing_ordinals. set (n := size m). clearbody n. split.
  - intros H i Hi. destruct (decide (is_Some (m !! i))) as [Hs|Hs]; [by apply elem_of_dom|].
    exfalso. assert (Hin : In i (List.filter (λ i, negb (bool_decide (is_Some (m !! i))))
                                   (seqZ 1 (Z.of_nat n)))).
    { apply filter_In. split; [apply list_elem_of_In, elem_of_seqZ; lia|].
      by rewrite bool_decide_false. }
    by rewrite H in Hin.
  - intros H. destruct (List.filter _ _) as [|i l] eqn:E; [done|]. exfalso.
    assert (Hin : In i (List.filter (λ i, negb (bool_decide (is_Some (m !! i))))
                          (seqZ 1 (Z.of_nat n)))) by (rewrite E; by left).
    apply filter_In in Hin as [Hin Hf]. apply list_elem_of_In, elem_of_seqZ in Hin.
    rewrite bool_decide_true in Hf; [done|]. apply elem_of_dom, H. lia.
Qed.

Lemma check_ordinals_spec st :
  tables (check_ordinals st) = tables st ∧
  (clean (check_ordinals st) ↔ clean st ∧ min_ordinal st = 1 ∧
     max_ordinal st = Z.of_nat (size (ordinals st)) ∧
     ∀ i, 1 <= i <= Z.of_nat (size (ordinals st)) → i ∈ dom (ordinals st)).
Proof.
  unfold check_ordinals. cbv zeta. rewrite <- missing_ordinals_nil.
  set (n := Z.of_nat (size (ordinals st))). set (st1 := add_if _ _ _ st).
  set (st2 := add_if _ _ _ st1).
  assert (Et : tables st2 = tables st) by (unfold st2, st1; by rewrite !tables_add_if).
  assert (Ec : clean st2 ↔ clean st ∧ min_ordinal st = 1 ∧ max_ordinal st = n).
  { unfold st2. rewrite clean_add_if.
    assert (Em : max_ordinal st1 = max_ordinal st)
      by (by apply tables_fields; unfold st1; rewrite tables_add_if).
    rewrite Em. unfold st1. rewrite clean_add_if, !negb_false_iff, !Z.eqb_eq. tauto. }
  clearbody st2. clear st1.
  assert (Eo : ordinals st2 = ordinals st) by (by apply tables_fields).
  rewrite Eo. set (l := missing_ordinals _ _). clearbody l. clear Eo.
  assert (Hf : ∀ l st', tables (fold_left (λ st i, add "stages" ("missing stage ordinal " +:+ Itoa i) st) l st') = tables st' ∧
    (clean (fold_left (λ st i, add "stages" ("missing stage ordinal " +:+ Itoa i) st) l st') ↔
     clean st' ∧ l = [])).
  { clear. induction l as [|i l IH]; intros st'; cbn [fold_left]; [naive_solver|].
    destruct (IH (add "stages" ("missing stage ordinal " +:+ Itoa i) st')) as [H1 H2].
    rewrite H1, H2, clean_add. naive_solver. }
  destruct (Hf l st2) as [H1 H2]. rewrite H1, H2, Ec, Et. naive_solver.
Qed.

Lemma check_references_spec l st :
  tables (check_references l st) = tables st ∧
  (clean (check_references l st) ↔
   clean st ∧ ∀ e, e ∈ l → e.2 ∈ dom (task_locations st)).
Proof.
  unfold check_references. revert st. induction l as [|e l IH]; intros st; cbn [fold_left].
  - split; [done|]. split; [|naive_solver]. intros H. split; [done|]. intros e He.
    by apply elem_of_nil in He.
  - match goal with |- context [fold_left _ l (add_if ?b ?p ?m st)] =>
      set (st1 := add_if b p m st); destruct (IH st1) as [H1 H2] end.
    assert (Et : tables st1 = tables st) by apply tables_add_if.
    split; [by rewrite H1|]. rewrite H2. unfold st1 at 1.
    rewrite clean_add_if, negb_false_iff, bool_decide_eq_true, <- elem_of_dom.
    apply tables_fields in Et as (_ & _ & _ & _ & -> & _).
    setoid_rewrite elem_of_cons. naive_solver.
Qed.

(** Ordinals that start at 1, end at their number and leave nothing out are the numbers
    from 1 on. *)
Lemma ordinals_contiguous st orders :
  ordinals_ok st → dom (ordinals st) = list_to_set orders → NoDup orders → orders ≠ [] →
  (min_ordinal st = 1 ∧ max_ordinal st = Z.of_nat (size (ordinals st)) ∧
   ∀ i, 1 <= i <= Z.of_nat (size (ordinals st)) → i ∈ dom (ordinals st)) ↔
  orders ≡ₚ seqZ 1 (Z.of_nat (length orders)).
Proof.
  intros [Hb Hm] Hd Hn Hne.
  assert (Hs : size (ordinals st) = length orders).
  { rewrite <- (size_dom (D := gset Z)), Hd. by apply size_list_to_set. }
  assert (Hdo : ∀ o, o ∈ dom (ordinals st) ↔ o ∈ orders).
  { intros o. rewrite Hd. apply elem_of_list_to_set. }
  rewrite decide_False in Hm; cycle 1.
  { intros e. rewrite e, map_size_empty in Hs. by destruct orders. }
  setoid_rewrite Hdo in Hb. rewrite !Hdo in Hm. setoid_rewrite Hdo. rewrite Hs.
  clear Hd Hdo Hs.
  set (n := length orders) in *. assert (Hn0 : (0 < n)%nat) by (destruct orders; [done|cbn in n; lia]).
  split.
  - intros (H1 & H2 & H3). apply NoDup_Permutation; [done|apply NoDup_seqZ|]. intros i.
    rewrite elem_of_seqZ. split; [|intros H; apply H3; lia]. intros H. apply Hb in H. lia.
  - intros Hp. assert (Hin : ∀ i, i ∈ orders ↔ 1 <= i <= Z.of_nat n).
    { intros i. rewrite Hp, elem_of_seqZ. lia. }
    destruct Hm as [Hm1 Hm2]. rewrite Hin in Hm1, Hm2.
    pose proof (Hb 1 ltac:(apply Hin; lia)) as Hb1.
    pose proof (Hb (Z.of_nat n) ltac:(apply Hin; lia)) as Hbn.
    split_and!; [lia|lia|]. intros i Hi. by apply Hin.
Qed.

(** ** The theorem *)

Section Validation.
Context (range1 range2 : gmap string string → list (string * string)).
Context (Hrange1 : ∀ m, range1 m ≡ₚ map_to_list m) (Hrange2 : ∀ m, range2 m ≡ₚ map_to_list m).

Lemma well_formed_stages c : cfg_stages c ≠ [] →
  well_formed c ↔
  stages_fine ∅ ∅ ∅ (cfg_stages c) ∧
  map sd_order (cfg_stages c) ≡ₚ seqZ 1 (Z.of_nat (length (cfg_stages c))) ∧
  (∀ x y, compensates (all_tasks c) x y → y ∈ map code_of_task (all_tasks c)) ∧
  well_founded (λ y x, compensates (all_tasks c) x y).
Proof.
  intros Hne. unfold stages_fine, new_codes. fold (all_tasks c). split.
  - intros [H1 H2 H3 H4 H5 H6 H7 H8 H9].
    assert (Ho : NoDup (map sd_order (cfg_stages c))) by (rewrite H3; apply NoDup_seqZ).
    assert (Hp : ∀ o, o ∈ map sd_order (cfg_stages c) → 0 < o ∧ o ∉ (∅ : gset Z)).
    { intros o Hin. rewrite H3 in Hin. apply elem_of_seqZ in Hin. split; [lia|set_solver]. }
    assert (He : ∀ l : list string, ∀ x, x ∈ l → x ∉ (∅ : gset string)) by set_solver.
    split_and!; eauto.
  - intros (((H1 & _) & (_ & _) & H2 & (H3 & _) & H4 & H5) & H6 & H7 & H8). split; try done.
    intros before s after E td code Htd Hc. by destruct (H5 before s after E td code Htd Hc).
Qed.

Lemma same_well_founded (R S : string → string → Prop) :
  (∀ x y, R x y ↔ S x y) → well_founded (λ y x, R x y) ↔ well_founded (λ y x, S x y).
Proof.
  intros HRS. split; intros H x; induction (H x) as [x' _ IH]; constructor; intros y Hy;
    apply IH; by apply HRS.
Qed.

(** The three checks on the tables, when the stages themselves are fine. *)
Lemma ordinals_verdict stages st :
  (ordinals_ok unchecked → ordinals_ok st) →
  (stages_fine ∅ ∅ ∅ stages → dom (ordinals st) = list_to_set (map sd_order stages) ∪ ∅) →
  stages ≠ [] → stages_fine ∅ ∅ ∅ stages →
  (min_ordinal st = 1 ∧ max_ordinal st = Z.of_nat (size (ordinals st)) ∧
   ∀ i, 1 <= i <= Z.of_nat (size (ordinals st)) → i ∈ dom (ordinals st)) ↔
  map sd_order stages ≡ₚ seqZ 1 (Z.of_nat (length stages)).
Proof.
  intros A3 A5 Hne H. rewrite <- (length_map sd_order stages). apply ordinals_contiguous.
  - apply A3. split; [|done]. intros o Ho. by apply elem_of_empty in Ho.
  - rewrite A5, (right_id_L ∅ (∪)); auto.
  - by destruct H as (_ & (H & _) & _).
  - by destruct stages.
Qed.

Lemma references_verdict tasks (graph : gmap string string) (known : gset string) :
  known = entered (map code_of_task tasks) →
  (∀ x y, step graph x y ↔ compensates tasks x y) →
  (∀ e, e ∈ range1 graph → e.2 ∈ known) ↔
  (∀ x y, compensates tasks x y → y ∈ map code_of_task tasks).
Proof.
  intros -> Hstep. setoid_rewrite Hrange1. setoid_rewrite elem_of_entered. split.
  - intros H x y Hxy. apply (H (x, y)), elem_of_map_to_list. by apply Hstep.
  - intros H [x y] Hxy%elem_of_map_to_list. apply Hstep in Hxy.
    split; [by apply (H x)|]. cbn. by destruct Hxy as (td & _ & _ & _ & ?).
Qed.

Lemma validation_verdict config :
  ∃ vs, ValidateCaseTypeConfig range1 range2 config = Some vs ∧ (vs = [] ↔ well_formed config).
Proof.
  unfold ValidateCaseTypeConfig. destruct (cfg_stages config) as [|s0 stages0] eqn:Es.
  { eexists. split; [done|]. split; [done|]. intros H. by destruct (wf_stages _ H). }
  assert (Hne : cfg_stages config ≠ []) by by rewrite Es.
  rewrite <- Es. set (st := indexed check_stage 0 (cfg_stages config) unchecked).
  destruct (check_stages_spec (cfg_stages config) 0 unchecked) as ((A1 & A2) & A3 & A4 & A5).
  fold st in A1, A2, A3, A4, A5. fold (all_tasks config) in A1, A2. clearbody st.
  destruct (check_ordinals_spec st) as [B1 B2]. set (st1 := check_ordinals st) in *.
  clearbody st1. apply tables_fields in B1 as (_ & _ & _ & _ & E1 & E2).
  destruct (check_references_spec (range1 (compensating st1)) st1) as [C1 C2].
  set (st2 := check_references _ st1) in *. clearbody st2.
  apply tables_fields in C1 as (_ & _ & _ & _ & _ & E3).
  assert (Eg : compensating st2 = fold_left (λ m td, entry td m) (all_tasks config) ∅) by (by rewrite E3, E2, A1).
  assert (Hstep : distinct_codes (map code_of_task (all_tasks config)) →
                  ∀ x y, step (compensating st2) x y ↔ compensates (all_tasks config) x y).
  { intros H x y. unfold step. rewrite Eg. by apply compensating_graph. }
  assert (Hnamed : ∀ x y, step (compensating st2) x y → TrimSpace y ≠ ""%string).
  { intros x y. unfold step. rewrite Eg. apply fold_named. intros ? ?. by rewrite lookup_empty. }
  destruct (cycle_search (compensating st2) Hnamed (map fst (range2 (compensating st2))))
    as (vs & -> & Hvs).
  { intros x [y Hy]%elem_of_dom. apply list_elem_of_In, in_map_iff. exists (x, y).
    split; [done|]. apply list_elem_of_In. rewrite Hrange2. by apply elem_of_map_to_list. }
  exists (violations st2 ++ vs). split; [done|].
  assert (Happ : violations st2 ++ vs = [] ↔ clean st2 ∧ vs = []).
  { unfold clean. split; [apply app_eq_nil|]. by intros [-> ->]. }
  rewrite Happ, C2, B2, A4, Hvs, (well_formed_stages config Hne). clear Happ Hvs C2 B2.
  cbn [unchecked violations ordinals stage_codes task_locations] in *.
  rewrite !dom_empty_L in *. rewrite (right_id_L ∅ (∪)) in A2. rewrite E1.
  assert (Hst : stages_fine ∅ ∅ ∅ (cfg_stages config) → clean st) by (intros H; by apply A4).
  assert (Hord := ordinals_verdict (cfg_stages config) st A3 (λ H, A5 (Hst H)) Hne).
  assert (Hd : stages_fine ∅ ∅ ∅ (cfg_stages config) →
    distinct_codes (map code_of_task (all_tasks config))) by (by intros (_ & _ & _ & [? _] & _)).
  assert (Hknown := λ H, references_verdict (all_tasks config) (compensating st2) _ A2 (Hstep (Hd H))).
  assert (Hwf := λ H, same_well_founded _ _ (Hstep (Hd H))).
  rewrite <- E3. assert (Hclean : clean unchecked) by done. tauto.
Qed.

(** A configuration that passes has an activity. *)
Lemma valid_has_activity config :
  ValidateCaseTypeConfig range1 range2 config = Some [] →
  ∃ s, s ∈ cfg_stages config ∧ sd_activities s ≠ [].
Proof.
  intros Hv. destruct (validation_verdict config) as (vs & E & Hwf). rewrite Hv in E.
  injection E as <-. destruct (proj1 Hwf eq_refl) as [Hne _ _ Ha].
  destruct (cfg_stages config) as [|s stages]; [done|]. exists s. split; [by left|].
  by destruct (Ha s) as [? _]; [left|].
Qed.

(** C15. [ValidateCaseTypeConfig] ends, in whatever order the language runs through the map
    of compensations, and reports nothing exactly for the configurations that are well
    formed: codes that are there and tell stages, the activities of a stage and all tasks
    apart; stages numbered from 1 on without a gap; a service and a valid retry policy for
    every task; references to stages that are defined before or where they are made;
    compensations that exist and do not go round in circles. *)
Theorem ValidateCaseTypeConfig_spec config :
  ∃ vs, ValidateCaseTypeConfig range1 range2 config = Some vs ∧ (vs = [] ↔ well_formed config).
Proof. exact (validation_verdict config). Qed.
End Validation.

(** ** On concrete data *)

Definition retrying (base_s max_s : Z) : TaskRetryPolicy :=
  {| MaxRetries := 3; BackoffStrategy := "FIXED"; BaseIntervalSeconds := base_s;
     MaxIntervalSeconds := max_s; RetryableErrorCodes := [] |}.
Definition a_task (code compensation stage : string) : TaskDefinitionV2 :=
  let plain := plain_task code in
  {| td_failure :=
       {| td_code := code; td_retry_policy := Some (retrying 5 60); td_failure_severity := "";
          td_escalate_case_on_failure := false; td_poison_pill_threshold := 0 |};
     td_config := Some (VMap [("service", VString "bureau"); ("stage_code", VString stage)]);
     td_sla := None; td_requires_approval := false; td_approval := None;
     td_is_document_verification := false; td_compensating_task_code := compensation;
     td_inputs := []; td_input_schema := []; td_output_schema := [] |}.
Definition two_stages (first_refers undo_undone_by : string) : CaseTypeConfig :=
  plain_config
    [ plain_stage "INTAKE" 1 [plain_activity "APPLY" [a_task "BOOK" "UNBOOK" first_refers]];
      plain_stage "REVIEW" 2 [plain_activity "CHECK" [a_task "UNBOOK" undo_undone_by "INTAKE"]] ].

(** The messages of a validation that ends. *)
Definition reported (c : CaseTypeConfig) : option (list string) :=
  match ValidateCaseTypeConfig map_to_list map_to_list c with
  | Some vs => Some (map violation_text vs)
  | None => None
  end.

Lemma ValidateCaseTypeConfig_spec_witness :
  reported (two_stages "INTAKE" "") = Some [] ∧ well_formed (two_stages "INTAKE" "").
Proof.
  assert (H : ValidateCaseTypeConfig map_to_list map_to_list (two_stages "INTAKE" "") = Some [])
    by (vm_compute; reflexivity).
  split; [unfold reported; by rewrite H|].
  destruct (ValidateCaseTypeConfig_spec map_to_list map_to_list
    (λ m, reflexivity (map_to_list m)) (λ m, reflexivity (map_to_list m)) (two_stages "INTAKE" ""))
    as (vs & Hv & Hs).
  rewrite H in Hv. injection Hv as <-. by apply Hs.
Defined.

(** A stage that comes later is not defined yet for a task that refers to it. *)
Example forward_reference_is_refused :
  reported (two_stages "REVIEW" "") =
  Some ["stages[0].activities[0].task_definitions[0].stage_code: referenced stage REVIEW is not defined"%string].
Proof. vm_compute. reflexivity. Qed.

Example circular_compensation_is_found :
  reported (two_stages "INTAKE" "BOOK") =
  Some ["task_definitions.compensating_task_code: circular compensating task dependency detected: UNBOOK -> BOOK -> UNBOOK"%string].
Proof. vm_compute. reflexivity. Qed.
