(* ===== verification/Versioning.v ===== *)
(** * Versions of case types (internal/versioning: service.go, helpers.go, and the stored
    differences of diff.go)

    A version is drafted, activated, and deprecated when its successor is activated; cases
    stay with the version they were created with until they are migrated.  [config] holds a
    configuration: encoding it to JSON and back is left out.  Validation is
    ConfigValidation's, the difference VersionDiff's. *)

From Stdlib Require Import Ascii String ZArith Lia.
From stdpp Require Import base gmap list strings relations.
From S2P Require Import Prelude ApprovalExpr CaseConfig VersionDiff SqlTx Schema Operations Outbox ConfigValidation.

Open Scope Z_scope.
Open Scope go_scope.

Section Operations.
Context `{env : Env}.
(** The order of the loops over maps, and [json.Marshal] of a task definition. *)
Context (range1 range2 : gmap string string → list (string * string)).
Context (range : ∀ V : Type, gmap string V → list (string * V)).
Context (marshal : TaskDefinitionV2 → result string).

(** ** helpers.go *)

(** [WithActor] *)
Definition WithActor (ctx : go_context) (actor : string) : go_context :=
  let actor := TrimSpace actor in
  if actor =?s "" then ctx
  else {| ctx_tenant_key := ctx_tenant_key ctx; ctx_actor_key := Some actor;
          ctx_values := ctx_values ctx |}.

Definition actorFromContext (ctx : go_context) : string :=
  default "unknown" (first_nonblank
    (ctx_actor_key ctx ::
     map (str_assoc (ctx_values ctx))
       ["actor"; "actor_id"; "user_id"; "requested_by"; "service_name"])).

Definition upper (s : string) : string := ToUpper (TrimSpace s).
(** The actor of an operation: the argument, or the one of the context. *)
Definition actor_or (ctx : go_context) (actor : string) : string :=
  orElse (TrimSpace actor) (actorFromContext ctx).

(** ** The table of versions *)

Definition of_code (code : string) (r : case_type_row) : bool := ct_code r =?s code.
Definition of_version (id : string) : case_type_row → bool := by_id ct_id id.

(** [SELECT COALESCE(MAX(version), 0) + 1 .. WHERE code = $1] *)
Definition next_version (code : string) (rows : list case_type_row) : Z :=
  match map ct_version (sql_select (of_code code) rows) with
  | [] => 1
  | v :: vs => foldr Z.max v vs + 1
  end.

(** The CHECK of [case_types], and what its columns hold. *)
Definition ct_check (r : case_type_row) : bool :=
  str_mem (ct_status r) ["DRAFT"; "ACTIVE"; "DEPRECATED"] && int4 (ct_version r) &&
  (String.length (ct_code r) <=? 100)%nat && (String.length (ct_name r) <=? 255)%nat.
Definition tenant_or_default (r : case_type_row) : string := default DefaultTenantID (ct_tenant_id r).
(** The partial unique index: one ACTIVE version of a code for each tenant, rows without
    one standing together. *)
Definition both_active (r r' : case_type_row) : bool :=
  (ct_status r =?s "ACTIVE") && (ct_status r' =?s "ACTIVE") && (ct_code r =?s ct_code r') &&
  (tenant_or_default r =?s tenant_or_default r').
Definition ct_conflict (r r' : case_type_row) : bool :=
  (ct_id r =?s ct_id r') || (ct_code r =?s ct_code r') && (ct_version r =? ct_version r') ||
  both_active r r'.

(** [INSERT INTO case_types] with the trigger that numbers versions: a row without a
    positive number gets the next one, and any other number is refused. *)
Definition numbered (rows : list case_type_row) (r : case_type_row) : case_type_row :=
  if ct_version r <=? 0 then r <| ct_version := next_version (ct_code r) rows |> else r.
Definition insert_version (mk : string → case_type_row) : Tx database case_type_row :=
  stmt (λ db,
    let r := numbered (case_types db) (mk (env_uuid (uuid_pos db))) in
    if ct_version r =? next_version (ct_code r) (case_types db) then
      match insert_row ct_check ct_conflict r (case_types db) with
      | Ok rows => Ok (r, db <| case_types := rows |> <| uuid_pos ::= S |>)
      | Err e => Err e
      end
    else Err ErrSQL).

(** An update of the version [id], under the same constraints. *)
Definition update_version (id : string) (f : case_type_row → case_type_row) : Tx database Z :=
  stmt (λ db,
    let others r := existsb (λ r', negb (ct_id r' =?s id) && both_active r r') (case_types db) in
    match update_rows (λ r, ct_check r && negb (others r)) (of_version id) f (case_types db) with
    | Ok (n, rows) => Ok (n, db <| case_types := rows |>)
    | Err e => Err e
    end).

(** ** Loading, locking and the audit trail *)

(** What the loaders build of a row: the status normalised, the tenant not read. *)
Definition loaded (r : case_type_row) : case_type_row :=
  r <| ct_status ::= upper |> <| ct_tenant_id := None |>.

Definition loadCaseTypeVersionByIDTx (caseTypeID : string) : Tx database case_type_row :=
  let id := TrimSpace caseTypeID in
  if id =?s "" then throw (ErrMsg "caseTypeID is required")
  else r ← get_or (ErrMsg "case_type not found") case_types (of_version id); mret (loaded r).

Definition lockCaseTypeCodeRowsTx (code : string) : Tx database unit :=
  let code := upper code in
  if code =?s "" then throw (ErrMsg "caseTypeCode is required")
  else _ ← query (λ db, Ok (map ct_id (sql_select (of_code code) (case_types db)))); mret tt.

(** [ORDER BY version DESC LIMIT 1] *)
Definition newest (rows : list case_type_row) : option case_type_row :=
  best (λ r r', ct_version r' <=? ct_version r) rows.
(** The versions that may replace [exclude]. *)
Definition active_other (code exclude : string) (r : case_type_row) : bool :=
  (ct_code r =?s code) && (ct_status r =?s "ACTIVE") &&
  ((TrimSpace exclude =?s "") || negb (ct_id r =?s exclude)).
Definition loadActiveCaseTypeByCodeTx (code exclude : string) : Tx database case_type_row :=
  let code := upper code in
  if code =?s "" then throw (ErrMsg "caseTypeCode is required")
  else
    r ← query_or ErrNoActiveVersion (λ db,
          match newest (sql_select (active_other code exclude) (case_types db)) with
          | Some r => Ok r
          | None => Err ErrNoRows
          end);
    mret (loaded r).

Definition ct_audit_check (a : ct_audit_row) : bool :=
  str_mem (ca_action a) ["CREATED"; "CONFIG_UPDATED"; "ACTIVATED"; "DEPRECATED";
                         "VALIDATION_FAILED"; "CASE_MIGRATED"].

Definition RecordCaseTypeAudit (caseTypeID action actor : string)
    (changed previous new : option audit_value) : Tx database unit :=
  let id := TrimSpace caseTypeID in
  if id =?s "" then throw (ErrMsg "caseTypeID is required")
  else if TrimSpace action =?s "" then throw (ErrMsg "action is required")
  else
    let row := {| ca_case_type_id := id; ca_action := action; ca_actor := actor_or env_ctx actor;
                  ca_changed_fields := changed; ca_previous_value := previous;
                  ca_new_value := new; ca_occurred_at := env_clock |} in
    stmt (λ db,
      if ct_audit_check row && existsb (of_version id) (case_types db)
      then Ok (tt, db <| case_type_audit ::= λ l, l ++ [row] |>) else Err ErrSQL).

(** An entry about a version as a whole. *)
Definition audit_version (r : case_type_row) (action actor : string) (fields : list string)
    : Tx database unit :=
  RecordCaseTypeAudit (ct_id r) action actor (Some (AuditFields fields))
    (Some (AuditConfig (ct_config r))) (Some (AuditConfig (ct_config r))).
Definition audit_failure (r : case_type_row) (actor text : string) : Tx database unit :=
  RecordCaseTypeAudit (ct_id r) "VALIDATION_FAILED" actor
    (Some (AuditObject [("validation_error", VString text)]))
    (Some (AuditConfig (ct_config r))) (Some (AuditConfig (ct_config r))).

Definition publishCaseTypeEvent (event_type code caseTypeID : string) (version : Z)
    (actor : string) (extra : list (string * value)) : Tx database unit :=
  sla_PublishEvent
    (new_event event_type None None
       (fold_left (λ p e, set_key p e.1 e.2) extra
          [("case_type_id", VString caseTypeID); ("case_type_code", VString code);
           ("version", VInt version); ("actor", VString actor); ("occurred_at", VOther env_clock)])
     <| ev_target_service := "case-orchestrator" |>).

(** ** Drafts *)

Definition draft_row (code : string) (version : Z) (name : string) (description : option string)
    (config : CaseTypeConfig) (id : string) : case_type_row :=
  {| ct_id := id; ct_code := code; ct_version := version; ct_config := config;
     ct_tenant_id := None; ct_name := name; ct_description := description; ct_status := "DRAFT";
     ct_activated_at := None; ct_activated_by := None; ct_deprecated_at := None;
     ct_deprecated_by := None |}.

Definition text_or_null (s : string) : option string :=
  let s := TrimSpace s in if s =?s "" then None else Some s.

Definition CreateCaseTypeDraftVersion_tx (code name description : string)
    (config : CaseTypeConfig) (createdBy : string) : Tx database case_type_row :=
  _ ← lockCaseTypeCodeRowsTx code;
  nextVersion ← query (λ db, Ok (next_version code (case_types db)));
  created ← insert_version (draft_row code nextVersion name (text_or_null description) config);
  _ ← RecordCaseTypeAudit (ct_id created) "CREATED" createdBy None None
        (Some (AuditConfig config));
  mret created.
Definition CreateCaseTypeDraftVersion (drv : driver) (code name description : string)
    (config : CaseTypeConfig) (createdBy : string) (db : database)
    : result case_type_row * database :=
  then_tx (_ ← required (upper code) "caseTypeCode is required";
           required (TrimSpace name) "name is required", db) drv
    (λ _, CreateCaseTypeDraftVersion_tx (upper code) (TrimSpace name) description config
            (actor_or env_ctx createdBy)).

Definition assertCaseTypeIsMutable (caseTypeID : string) : Tx database unit :=
  let id := TrimSpace caseTypeID in
  if id =?s "" then throw (ErrMsg "caseTypeID is required")
  else
    r ← get_or (ErrMsg "case_type not found") case_types (of_version id);
    if negb (upper (ct_status r) =?s "DRAFT") then throw (ErrImmutable id (ct_status r))
    else mret tt.

Definition UpdateCaseTypeDraftConfig_tx (id : string) (config : CaseTypeConfig)
    (updatedBy : string) : Tx database unit :=
  _ ← assertCaseTypeIsMutable id;
  r ← get_in case_types (of_version id);
  _ ← update_version id (λ r, r <| ct_config := config |>);
  RecordCaseTypeAudit id "CONFIG_UPDATED" updatedBy (Some (AuditFields ["config"]))
    (Some (AuditConfig (ct_config r))) (Some (AuditConfig config)).
Definition UpdateCaseTypeDraftConfig (drv : driver) (caseTypeID : string)
    (config : CaseTypeConfig) (updatedBy : string) (db : database) : result unit * database :=
  then_tx (required (TrimSpace caseTypeID) "caseTypeID is required", db) drv
    (λ _, UpdateCaseTypeDraftConfig_tx (TrimSpace caseTypeID) config
            (if TrimSpace updatedBy =?s "" then actorFromContext env_ctx else updatedBy)).

(** ** Activation *)

Definition activity_key (stage activity : string) : string := upper stage +:+ "::" +:+ upper activity.
Definition materialized (r : case_type_row) (rows : list activity_row) : list string :=
  map (λ a, activity_key (af_stage_code a) (af_activity_code a))
    (sql_select (λ a, (af_case_type_id a =?s ct_id r) && (af_case_type_version a =? ct_version r))
       rows).

Definition unmaterialized_activity (existing : list string) (i : Z) (s : stage_def) (j : Z)
    (a : activity_def) (vs : list ValidationViolation) : list ValidationViolation :=
  if str_mem (activity_key (sd_code s) (ad_code a)) existing then vs
  else vs ++ [violation
    ("stages[" +:+ Itoa i +:+ "].activities[" +:+ Itoa j +:+ "].code")
    ("activity " +:+ TrimSpace (ad_code a) +:+ " in stage " +:+ TrimSpace (sd_code s) +:+
     " is not materialized in activity_definitions")].
Definition unmaterialized (existing : list string) (config : CaseTypeConfig)
    : list ValidationViolation :=
  indexed (λ i s, indexed (unmaterialized_activity existing i s) 0 (sd_activities s)) 0
    (cfg_stages config) [].

Definition validateActivitiesExistInDefinitionsTx (r : case_type_row) : Tx database unit :=
  existing ← query (λ db, Ok (materialized r (activity_defs db)));
  match unmaterialized existing (ct_config r) with
  | [] => mret tt
  | vs => throw (ErrValidation (validation_error vs))
  end.

(** [err.Error()] of a validation error; the texts of the others are not modelled. *)
Definition error_text (e : error) : string :=
  match e with ErrValidation text => text | _ => "" end.

Definition deprecated (by_whom : string) (r : case_type_row) : case_type_row :=
  r <| ct_status := "DEPRECATED" |> <| ct_deprecated_at := Some env_clock |>
    <| ct_deprecated_by := Some by_whom |>.
Definition activated (by_whom : string) (r : case_type_row) : case_type_row :=
  r <| ct_status := "ACTIVE" |> <| ct_activated_at := Some env_clock |>
    <| ct_activated_by := Some by_whom |>.

(** ** Stored differences (diff.go) *)

Definition diff_of (from to : string) (d : ct_diff_row) : bool :=
  (cd_from d =?s from) && (cd_to d =?s to).
Definition getStoredDiffTx (from to : string) : Tx database ct_diff_row :=
  get_or ErrDiffNotFound case_type_diffs (diff_of from to).

Definition diff_check (d : ct_diff_row) : bool :=
  negb (cd_from d =?s cd_to d) && (0 <? cd_from_version d) && (0 <? cd_to_version d).
(** [INSERT .. ON CONFLICT DO NOTHING RETURNING]: no row when the pair is there. *)
Definition insert_diff (mk : string → ct_diff_row) : Tx database ct_diff_row :=
  stmt (λ db,
    let d := mk (env_uuid (uuid_pos db)) in
    if negb (diff_check d) then Err ErrSQL
    else if existsb (diff_of (cd_from d) (cd_to d)) (case_type_diffs db) then Err ErrNoRows
    else if existsb (of_version (cd_from d)) (case_types db) &&
            existsb (of_version (cd_to d)) (case_types db)
    then Ok (d, db <| case_type_diffs ::= λ l, l ++ [d] |> <| uuid_pos ::= S |>)
    else Err ErrSQL).

Definition diff_row (from to : case_type_row) (computedBy id : string) : ct_diff_row :=
  {| cd_id := id; cd_code := ct_code to; cd_from := ct_id from; cd_to := ct_id to;
     cd_from_version := ct_version from; cd_to_version := ct_version to;
     cd_diff := computeCaseTypeVersionDiff marshal range from to;
     cd_computed_by := (if TrimSpace computedBy =?s "" then "system" else computedBy);
     cd_computed_at := env_clock |}.

Definition diffCaseTypeVersionsTx (fromVerID toVerID computedBy : string)
    : Tx database ct_diff_row :=
  let from := TrimSpace fromVerID in let to := TrimSpace toVerID in
  if (from =?s "") || (to =?s "") then throw (ErrMsg "fromVerID and toVerID are required")
  else
    stored ← tx_attempt (getStoredDiffTx from to);
    match stored with
    | Ok d => mret d
    | Err ErrDiffNotFound =>
        fromSource ← get_in case_types (of_version from);
        toSource ← get_in case_types (of_version to);
        if negb (EqualFold (ct_code fromSource) (ct_code toSource))
        then throw (ErrMsg "versions belong to different case_type_code values")
        else
          inserted ← tx_attempt (insert_diff (diff_row fromSource toSource computedBy));
          match inserted with
          | Ok d => mret d
          | Err ErrNoRows => getStoredDiffTx from to
          | Err e => throw e
          end
    | Err e => throw e
    end.
Definition DiffCaseTypeVersions (drv : driver) (fromVerID toVerID : string) (db : database)
    : result ct_diff_row * database :=
  within_tx drv (diffCaseTypeVersionsTx fromVerID toVerID (actorFromContext env_ctx)) db.

(** ** ActivateCaseTypeVersion *)

(** The first part of an activation: the version that is to replace the active one. *)
Definition activation_target (caseTypeID by_whom : string) : Tx database case_type_row :=
  target ← loadCaseTypeVersionByIDTx caseTypeID;
  _ ← lockCaseTypeCodeRowsTx (ct_code target);
  if negb (ct_status target =?s "DRAFT") then throw (ErrImmutable caseTypeID (ct_status target))
  else
    match ValidateCaseTypeConfig range1 range2 (ct_config target) with
    | None => throw OutOfFuel
    | Some (v :: vs) =>
        let text := validation_error (v :: vs) in
        _ ← audit_failure target by_whom text;
        throw (ErrValidation text)
    | Some [] =>
        r ← tx_attempt (validateActivitiesExistInDefinitionsTx target);
        match r with
        | Err e => _ ← audit_failure target by_whom (error_text e); throw e
        | Ok _ => mret target
        end
    end.

(** [previousActive], unless there is none. *)
Definition previous_active (target : case_type_row) : Tx database (option case_type_row) :=
  r ← tx_attempt (loadActiveCaseTypeByCodeTx (ct_code target) (ct_id target));
  match r with
  | Ok p => mret (if ct_id p =?s "" then None else Some p)
  | Err ErrNoActiveVersion => mret None
  | Err e => throw e
  end.

(** A version is deprecated, announced and entered in the trail. *)
Definition deprecate_version (code by_whom : string) (extra : list (string * value))
    (r : case_type_row) : Tx database unit :=
  _ ← update_version (ct_id r) (deprecated by_whom);
  _ ← publishCaseTypeEvent "CASE_TYPE_DEPRECATED" code (ct_id r) (ct_version r) by_whom extra;
  audit_version r "DEPRECATED" by_whom ["status"; "deprecated_at"; "deprecated_by"].

Definition with_previous (previous : option case_type_row) (m : case_type_row → Tx database unit)
    : Tx database unit :=
  match previous with Some p => m p | None => mret tt end.

Definition ActivateCaseTypeVersion_tx (caseTypeID by_whom : string) : Tx database unit :=
  target ← activation_target caseTypeID by_whom;
  previous ← previous_active target;
  _ ← with_previous previous (deprecate_version (ct_code target) by_whom []);
  _ ← update_version (ct_id target) (activated by_whom);
  _ ← with_previous previous (λ p,
        _ ← diffCaseTypeVersionsTx (ct_id p) (ct_id target) by_whom; mret tt);
  _ ← publishCaseTypeEvent "CASE_TYPE_ACTIVATED" (ct_code target) (ct_id target)
        (ct_version target) by_whom [];
  audit_version target "ACTIVATED" by_whom ["status"; "activated_at"; "activated_by"].
Definition ActivateCaseTypeVersion (drv : driver) (caseTypeID activatedBy : string)
    (db : database) : result unit * database :=
  then_tx (required (TrimSpace caseTypeID) "caseTypeID is required", db) drv
    (λ _, ActivateCaseTypeVersion_tx (TrimSpace caseTypeID) (actor_or env_ctx activatedBy)).

(** ** DeprecateCaseTypeVersion *)

Definition replacement_of (target : case_type_row) : Tx database case_type_row :=
  r ← tx_attempt (loadActiveCaseTypeByCodeTx (ct_code target) (ct_id target));
  match r with
  | Ok p => if ct_id p =?s "" then throw ErrCannotDeprecateSoleActive else mret p
  | Err ErrNoActiveVersion => throw ErrCannotDeprecateSoleActive
  | Err e => throw e
  end.
Definition DeprecateCaseTypeVersion_tx (caseTypeID by_whom : string) : Tx database unit :=
  target ← loadCaseTypeVersionByIDTx caseTypeID;
  _ ← lockCaseTypeCodeRowsTx (ct_code target);
  _ ← (if negb (ct_status target =?s "ACTIVE")
       then throw (ErrMsg "only ACTIVE versions may be deprecated") else mret tt);
  replacement ← replacement_of target;
  deprecate_version (ct_code target) by_whom
    [("replacement_case_type_id", VString (ct_id replacement));
     ("replacement_version", VInt (ct_version replacement))] target.
Definition DeprecateCaseTypeVersion (drv : driver) (caseTypeID deprecatedBy : string)
    (db : database) : result unit * database :=
  then_tx (required (TrimSpace caseTypeID) "caseTypeID is required", db) drv
    (λ _, DeprecateCaseTypeVersion_tx (TrimSpace caseTypeID) (actor_or env_ctx deprecatedBy)).

(** ** Cases and their versions *)

(** [COALESCE(c.case_type_version_id, c.case_type_id)] *)
Definition pinned_id (c : case_row) : string := default (c_case_type_id c) (c_case_type_version_id c).
(** [cases c JOIN case_types ct ON ct.id = ..] for one case. *)
Definition pinned_case (caseID : string) (db : database) : result (case_row * case_type_row) :=
  c ← sql_get (by_id c_id caseID) (cases db);
  ct ← sql_get (of_version (pinned_id c)) (case_types db);
  Ok (c, ct).

(** One query on the pool. *)
Definition ResolveCaseTypeConfig (pool : driver) (caseID : string) (db : database)
    : result CaseTypeConfig * database :=
  match required (TrimSpace caseID) "caseID is required" with
  | Err e => (Err e, db)
  | Ok _ => on_pool pool (p ← query (pinned_case (TrimSpace caseID)); mret (ct_config p.2)) db
  end.

Fixpoint stage_with (code : string) (stages : list stage_def) : option Z :=
  match stages with
  | [] => None
  | s :: stages =>
      if EqualFold (TrimSpace (sd_code s)) code then Some (sd_order s) else stage_with code stages
  end.
Definition findStageOrdinal (config : CaseTypeConfig) (stageCode : string) : option Z :=
  let code := TrimSpace stageCode in
  if code =?s "" then None else stage_with code (cfg_stages config).

(** The case is pinned to another version; the columns are kept equal by a CHECK. *)
Definition pinned_to (version : string) (c : case_row) : case_row :=
  c <| c_case_type_version_id := Some version |> <| c_case_type_id := version |>
    <| c_row_version ::= Z.succ |>.

Definition migration_payload (caseID : string) (from to : case_type_row)
    : list (string * value) :=
  [("case_id", VString caseID); ("from_version_id", VString (ct_id from));
   ("to_version_id", VString (ct_id to)); ("from_version", VInt (ct_version from));
   ("to_version", VInt (ct_version to))].

(** May the case be there in the version [active]? *)
Definition check_stage_compatible (c : case_row) (active : case_type_row) : result unit :=
  let code := default "" (c_current_stage_code c) in
  match findStageOrdinal (ct_config active) code with
  | None => Err (ErrStageCompatibility "current stage does not exist in target version")
  | Some ordinal =>
      if ordinal <? c_current_stage_ordinal c
      then Err (ErrStageCompatibility "target stage ordinal regression is not permitted")
      else Ok tt
  end.

Definition MigrateCaseToLatestVersion_tx (caseID by_whom : string) : Tx database unit :=
  row ← query (pinned_case caseID);
  let '(c, pinned) := row : case_row * case_type_row in
  _ ← (if str_mem (upper (c_status c)) ["COMPLETED"; "CANCELLED"; "EXCEPTION"]
       then throw ErrCaseTerminalForMigration else mret tt);
  _ ← (if negb (upper (ct_status pinned) =?s "DEPRECATED")
       then throw (ErrMsg "pinned version status must be DEPRECATED") else mret tt);
  _ ← lockCaseTypeCodeRowsTx (ct_code pinned);
  active ← loadActiveCaseTypeByCodeTx (ct_code pinned) (ct_id pinned);
  _ ← (if ct_id active =?s ct_id pinned then throw ErrCaseAlreadyOnActiveVersion else mret tt);
  _ ← tx_of (check_stage_compatible c active);
  _ ← update_in cases case_check (by_id c_id (c_id c)) (pinned_to (ct_id active));
  _ ← RecordCaseTypeAudit (ct_id active) "CASE_MIGRATED" by_whom
        (Some (AuditObject (migration_payload (c_id c) pinned active)))
        (Some (AuditObject [("case_type_version_id", VString (ct_id pinned))]))
        (Some (AuditObject [("case_type_version_id", VString (ct_id active))]));
  publishCaseTypeEvent "CASE_VERSION_MIGRATED" (ct_code active) (ct_id active)
    (ct_version active) by_whom (migration_payload (c_id c) pinned active).
Definition MigrateCaseToLatestVersion (drv : driver) (caseID migratedBy : string)
    (db : database) : result unit * database :=
  then_tx (required (TrimSpace caseID) "caseID is required", db) drv
    (λ _, MigrateCaseToLatestVersion_tx (TrimSpace caseID) (actor_or env_ctx migratedBy)).
End Operations.

(** ** What the operations commit *)

(** [db'] is [db] with other versions and trail; differences, events and generated
    identifiers apart, the rest is as it was. *)
Definition governs (db db' : database) (rows : list case_type_row) (trail : list ct_audit_row) : Prop :=
  ∃ o d f n, db' = db <| case_types := rows |> <| case_type_audit := trail |> <| outbox := o |>
                      <| deliveries := d |> <| case_type_diffs := f |> <| uuid_pos := n |>.

(** A state written out over a variable. *)
Ltac governs_frame :=
  match goal with
  | |- governs ?db ?db' _ _ =>
      exists (outbox db'), (deliveries db'), (case_type_diffs db'), (uuid_pos db');
      destruct db; reflexivity
  end.

Section Commits.
Context `{env : Env} (busy : bool).
Implicit Types (db : database).

Lemma governs_refl db : governs db db (case_types db) (case_type_audit db).
Proof. governs_frame. Qed.

Lemma governs_trans db db1 db2 rows1 trail1 rows2 trail2 :
  governs db db1 rows1 trail1 → governs db1 db2 rows2 trail2 → governs db db2 rows2 trail2.
Proof. intros (o & d & f & n & ->) (o' & d' & f' & n' & ->). by exists o', d', f', n'. Qed.

Lemma governs_rows db db' rows trail : governs db db' rows trail →
  case_types db' = rows ∧ case_type_audit db' = trail ∧ cases db' = cases db ∧
  activity_defs db' = activity_defs db.
Proof. by intros (o & d & f & n & ->). Qed.

Lemma balanced_lock_code code : Balanced (lockCaseTypeCodeRowsTx code).
Proof. unfold lockCaseTypeCodeRowsTx. cbv zeta. balance. Qed.
Lemma balanced_load id : Balanced (loadCaseTypeVersionByIDTx id).
Proof. unfold loadCaseTypeVersionByIDTx. cbv zeta. balance. Qed.
Lemma balanced_load_active code exclude : Balanced (loadActiveCaseTypeByCodeTx code exclude).
Proof. unfold loadActiveCaseTypeByCodeTx. cbv zeta. balance. Qed.
Lemma balanced_trail id action actor c p n : Balanced (RecordCaseTypeAudit id action actor c p n).
Proof. unfold RecordCaseTypeAudit. cbv zeta. balance. Qed.
Lemma balanced_event type code id v actor extra :
  Balanced (publishCaseTypeEvent type code id v actor extra).
Proof. apply balanced_sla. Qed.
Lemma balanced_update_version id f : Balanced (update_version id f).
Proof. apply balanced_stmt. Qed.
Lemma balanced_insert_version mk : Balanced (insert_version mk).
Proof. apply balanced_stmt. Qed.
Lemma balanced_insert_diff mk : Balanced (insert_diff mk).
Proof. apply balanced_stmt. Qed.

Lemma lock_commits code db u db' :
  commits busy (lockCaseTypeCodeRowsTx code) db = Some (u, db') → db' = db.
Proof.
  unfold lockCaseTypeCodeRowsTx. cbv zeta. destruct (_ =?s _); [done|]. intros H.
  tx_bind_inv H l d E. apply commits_query_inv in E as [_ ->]. by injection H as _ <-.
Qed.

Lemma load_commits id db t db' :
  commits busy (loadCaseTypeVersionByIDTx id) db = Some (t, db') →
  ∃ r, sql_get (of_version (TrimSpace id)) (case_types db) = Ok r ∧ t = loaded r ∧ db' = db ∧
    TrimSpace id ≠ ""%string.
Proof.
  unfold loadCaseTypeVersionByIDTx. cbv zeta.
  destruct (String.eqb_spec (TrimSpace id) "") as [|Hid]; [done|]. intros H.
  tx_bind_inv H r d E. apply commits_get_or in E as [E ->]. injection H as <- <-. eauto.
Qed.

Lemma event_commits type code id v actor extra db u db' :
  commits busy (publishCaseTypeEvent type code id v actor extra) db = Some (u, db') →
  governs db db' (case_types db) (case_type_audit db).
Proof.
  unfold publishCaseTypeEvent, sla_PublishEvent. destruct (_ =?s ""); [done|]. cbv zeta.
  set (event := _ <| ev_partition_key ::= _ |>). clearbody event.
  unfold insert_event. intros H. tx_bind_inv H w d E. apply commits_insert_inv in E as (-> & _).
  unfold EnqueueWebhookDeliveries in H. cbv zeta in H. repeat (case_match; [done|]).
  rewrite commits_stmt in H. injection H as _ <-.
  governs_frame.
Qed.

(** An entry of the trail about the version [id]. *)
Definition entry_of (id action : string) (e : ct_audit_row) : Prop :=
  ca_case_type_id e = TrimSpace id ∧ ca_action e = action.

Lemma audit_commits id action actor c p n db u db' :
  commits busy (RecordCaseTypeAudit id action actor c p n) db = Some (u, db') →
  ∃ e, entry_of id action e ∧ governs db db' (case_types db) (case_type_audit db ++ [e]).
Proof.
  unfold RecordCaseTypeAudit. cbv zeta. do 2 (case_match; [done|]).
  rewrite commits_stmt. case (_ && _); [|done]. intros [= _ <-].
  eexists. split; cycle 1; [governs_frame|by split].
Qed.

Lemma update_version_commits id f db n db' :
  commits busy (update_version id f) db = Some (n, db') →
  db' = db <| case_types := sql_update (of_version id) f (case_types db) |> ∧
  ∀ r, r ∈ case_types db → ct_id r = id → ct_check (f r) = true ∧
    ∀ r', r' ∈ case_types db → ct_id r' ≠ id → both_active (f r) r' = false.
Proof.
  unfold update_version. rewrite commits_stmt. unfold update_rows. cbv zeta.
  destruct (forallb _ _) eqn:Hf; [|done]. intros [= _ <-]. split; [done|]. intros r Hr Hid.
  rewrite forallb_forall in Hf. specialize (Hf r). rewrite <- list_elem_of_In in Hf.
  specialize (Hf Hr). unfold of_version, by_id in Hf. rewrite Hid, String.eqb_refl in Hf. cbn in Hf.
  apply andb_true_iff in Hf as [Hc Ho]. split; [done|]. intros r' Hr' Hid'.
  apply negb_true_iff in Ho. rewrite existsb_none in Ho. specialize (Ho r' Hr'). cbv beta in Ho.
  apply andb_false_iff in Ho as [Ho|]; [|done]. apply negb_false_iff, String.eqb_eq in Ho. done.
Qed.

Lemma governs_update db (f : case_type_row → case_type_row) id :
  governs db (db <| case_types := sql_update (of_version id) f (case_types db) |>)
    (sql_update (of_version id) f (case_types db)) (case_type_audit db).
Proof. governs_frame. Qed.

Lemma insert_version_commits mk db r db' :
  commits busy (insert_version mk) db = Some (r, db') →
  r = numbered (case_types db) (mk (env_uuid (uuid_pos db))) ∧
  ct_version r = next_version (ct_code r) (case_types db) ∧ ct_check r = true ∧
  (∀ r', r' ∈ case_types db → ct_conflict r r' = false) ∧
  governs db db' (case_types db ++ [r]) (case_type_audit db).
Proof.
  unfold insert_version. rewrite commits_stmt. cbv zeta.
  set (r0 := numbered _ _). destruct (_ =? _) eqn:Ev; [|done].
  destruct (insert_row _ _ _ _) as [rows|e] eqn:Ei; [|done].
  apply insert_row_inv in Ei as (-> & Hc & Hx). intros [= <- <-].
  apply Z.eqb_eq in Ev. refine (conj eq_refl (conj Ev (conj Hc (conj Hx _)))).
  governs_frame.
Qed.

Lemma newest_elem rows r : newest rows = Some r → r ∈ rows.
Proof.
  unfold newest. intros H. apply best_Some in H as [H _]; [done|]. split; intros *.
  - destruct (Z.le_ge_cases (ct_version y) (ct_version x)); [left|right]; by apply Z.leb_le.
  - rewrite !Z.leb_le. lia.
Qed.
End Commits.
#[export] Hint Resolve balanced_lock_code balanced_load balanced_load_active balanced_trail
  balanced_event balanced_update_version balanced_insert_version balanced_insert_diff : balance.

Section Outcomes.
Context `{env : Env} (busy : bool).
Context (range1 range2 : gmap string string → list (string * string)).
Context (range : ∀ V : Type, gmap string V → list (string * V)).
Context (marshal : TaskDefinitionV2 → result string).
Implicit Types (db : database).

Lemma balanced_diff from to by_whom : Balanced (diffCaseTypeVersionsTx range marshal from to by_whom).
Proof. unfold diffCaseTypeVersionsTx, getStoredDiffTx. cbv zeta. balance. Qed.
Lemma balanced_validate r : Balanced (validateActivitiesExistInDefinitionsTx r).
Proof. unfold validateActivitiesExistInDefinitionsTx. balance. Qed.
#[local] Hint Resolve balanced_diff balanced_validate : balance.
Lemma balanced_activation_target id by_whom : Balanced (activation_target range1 range2 id by_whom).
Proof. unfold activation_target, audit_failure. cbv zeta. balance. Qed.
Lemma balanced_previous t : Balanced (previous_active t).
Proof. unfold previous_active. balance. Qed.
Lemma balanced_deprecate code by_whom extra r : Balanced (deprecate_version code by_whom extra r).
Proof. unfold deprecate_version, audit_version. balance. Qed.
Lemma balanced_with_previous p m : (∀ r, Balanced (m r)) → Balanced (with_previous p m).
Proof. intros Hm. destruct p; cbn; [done|balance]. Qed.
Lemma balanced_mutable id : Balanced (assertCaseTypeIsMutable id).
Proof. unfold assertCaseTypeIsMutable. cbv zeta. balance. Qed.
Lemma balanced_replacement t : Balanced (replacement_of t).
Proof. unfold replacement_of. balance. Qed.
Lemma balanced_stored p to by_whom :
  Balanced (with_previous p (λ p,
    _ ← diffCaseTypeVersionsTx range marshal (ct_id p) to by_whom; mret tt)).
Proof. apply balanced_with_previous. balance. Qed.
#[local] Hint Resolve balanced_stored balanced_activation_target balanced_previous balanced_deprecate balanced_with_previous
  balanced_mutable balanced_replacement : balance.

Lemma load_active_exec code exclude db :
  exec busy (loadActiveCaseTypeByCodeTx code exclude) 0 db =
    Some (if upper code =?s "" then Err (ErrMsg "caseTypeCode is required")
          else match newest (sql_select (active_other (upper code) exclude) (case_types db)) with
               | Some r => Ok (loaded r)
               | None => Err ErrNoActiveVersion
               end, 0%nat, db).
Proof.
  unfold loadActiveCaseTypeByCodeTx. cbv zeta. destruct (_ =?s _); [done|].
  rewrite exec_bind, exec_query_or. by destruct (newest _).
Qed.

Lemma insert_diff_exec mk db r o d :
  exec busy (insert_diff mk) 0 db = Some (r, o, d) →
  governs db d (case_types db) (case_type_audit db).
Proof.
  unfold insert_diff. rewrite exec_stmt. cbv zeta. case (negb _); [done|].
  case (existsb _ (case_type_diffs db)); [intros [= _ _ <-]; apply governs_refl|].
  case (_ && _); [|done]. intros [= _ _ <-]. governs_frame.
Qed.

Lemma diff_commits from to by_whom db d db' :
  commits busy (diffCaseTypeVersionsTx range marshal from to by_whom) db = Some (d, db') →
  governs db db' (case_types db) (case_type_audit db).
Proof.
  unfold diffCaseTypeVersionsTx, getStoredDiffTx, get_or. cbv zeta. case (_ || _); [done|].
  intros H. tx_bind_inv H r d1 E. apply attempt_query_or in E as [-> [[_ Hr]|[-> _]]].
  { destruct r; [|done]. injection H as _ <-. apply governs_refl. }
  tx_bind_inv H f d1 E. apply commits_get_inv in E as [_ ->].
  tx_bind_inv H t d2 E. apply commits_get_inv in E as [_ ->].
  destruct (negb (EqualFold _ _)); [done|]. tx_bind_inv H i d2 E. rewrite commits_attempt in E.
  destruct (exec busy (insert_diff _) 0 db) as [[[r o] d3]|] eqn:Ei; [|done].
  injection E as -> ->. apply insert_diff_exec in Ei. destruct i as [x|e'].
  { by injection H as _ <-. }
  destruct e'; try done. by apply commits_query_or in H as [_ ->].
Qed.

(** The constraints an update of the version [id] meets. *)
Definition allowed (id : string) (f : case_type_row → case_type_row) (rows : list case_type_row) : Prop :=
  ∀ r, r ∈ rows → ct_id r = id → ct_check (f r) = true ∧
    ∀ r', r' ∈ rows → ct_id r' ≠ id → both_active (f r) r' = false.

Lemma update_governs id f db n db' :
  commits busy (update_version id f) db = Some (n, db') →
  governs db db' (sql_update (of_version id) f (case_types db)) (case_type_audit db) ∧
  allowed id f (case_types db).
Proof. intros H. apply update_version_commits in H as [-> H]. split; [apply governs_update|done]. Qed.

(** One more step of a program, from a state that is known already. *)
Lemma governs_step db d d' rows trail rows' trail' :
  governs db d rows trail → governs d d' (rows' (case_types d)) (trail' (case_type_audit d)) →
  governs db d' (rows' rows) (trail' trail).
Proof.
  intros Hd Hs. destruct (governs_rows _ _ _ _ Hd) as (E1 & E2 & _). rewrite E1, E2 in Hs.
  by eapply governs_trans.
Qed.

Lemma deprecate_commits code by_whom extra r db u db' :
  commits busy (deprecate_version code by_whom extra r) db = Some (u, db') →
  ∃ e, entry_of (ct_id r) "DEPRECATED" e ∧ allowed (ct_id r) (deprecated by_whom) (case_types db) ∧
    governs db db' (sql_update (of_version (ct_id r)) (deprecated by_whom) (case_types db))
      (case_type_audit db ++ [e]).
Proof.
  unfold deprecate_version, audit_version. intros H. tx_bind_inv H n d E.
  apply update_governs in E as [Hd Ha]. tx_bind_inv H w d2 E. apply event_commits in E.
  apply (governs_step _ _ _ _ _ (λ l, l) (λ l, l) Hd) in E.
  apply audit_commits in H as (e & He & H).
  apply (governs_step _ _ _ _ _ (λ l, l) (λ l, l ++ [e]) E) in H. eauto.
Qed.

Lemma draft_created code name description config by_whom db r db' :
  commits busy (CreateCaseTypeDraftVersion_tx code name description config by_whom) db
    = Some (r, db') →
  ∃ e, entry_of (ct_id r) "CREATED" e ∧ ct_code r = code ∧ ct_status r = "DRAFT"%string ∧
    ct_config r = config ∧ ct_tenant_id r = None ∧ ct_version r = next_version code (case_types db) ∧
    ct_check r = true ∧ (∀ r', r' ∈ case_types db → ct_conflict r r' = false) ∧
    governs db db' (case_types db ++ [r]) (case_type_audit db ++ [e]).
Proof.
  unfold CreateCaseTypeDraftVersion_tx. intros H. tx_bind_inv H w d E. apply lock_commits in E as ->.
  tx_bind_inv H v d E. apply commits_query_inv in E as [[= <-] ->].
  tx_bind_inv H r0 d E. apply insert_version_commits in E as (Hr & Hv & Hc & Hx & E).
  tx_bind_inv H w2 d2 E2. injection H as -> <-. apply audit_commits in E2 as (e & He & E2).
  apply (governs_step _ _ _ _ _ (λ l, l) (λ l, l ++ [e]) E) in E2.
  assert (ct_code r = code ∧ ct_status r = "DRAFT"%string ∧ ct_config r = config ∧
          ct_tenant_id r = None) as (E3 & E4 & E5 & E6).
  { rewrite Hr. unfold numbered. by destruct (_ <=? 0). }
  exists e. rewrite E3 in Hv. done.
Qed.

Lemma mutable_commits id db u db' :
  commits busy (assertCaseTypeIsMutable id) db = Some (u, db') →
  db' = db ∧ ∃ r, sql_get (of_version (TrimSpace id)) (case_types db) = Ok r ∧
    upper (ct_status r) = "DRAFT"%string.
Proof.
  unfold assertCaseTypeIsMutable. cbv zeta. case_match; [done|]. intros Hm. tx_bind_inv Hm r d E.
  apply commits_get_or in E as [E ->]. apply commits_guard in Hm as [Hs ->].
  apply negb_false_iff, String.eqb_eq in Hs. eauto.
Qed.

Lemma update_draft_commits id config by_whom db u db' :
  TrimSpace id = id →
  commits busy (UpdateCaseTypeDraftConfig_tx id config by_whom) db = Some (u, db') →
  ∃ r e, sql_get (of_version id) (case_types db) = Ok r ∧ upper (ct_status r) = "DRAFT"%string ∧
    entry_of id "CONFIG_UPDATED" e ∧
    allowed id (λ r, r <| ct_config := config |>) (case_types db) ∧
    governs db db' (sql_update (of_version id) (λ r, r <| ct_config := config |>) (case_types db))
      (case_type_audit db ++ [e]).
Proof.
  unfold UpdateCaseTypeDraftConfig_tx. intros Hid H. tx_bind_inv H w d E.
  apply mutable_commits in E as (-> & r & Hr & Hs). rewrite Hid in Hr.
  tx_bind_inv H r0 d E. apply commits_get_inv in E as [_ ->]. tx_bind_inv H n d E.
  apply update_governs in E as [Hd Ha]. apply audit_commits in H as (e & He & H).
  apply (governs_step _ _ _ _ _ (λ l, l) (λ l, l ++ [e]) Hd) in H. eauto 10.
Qed.

(** What an activation demands of the version [t]. *)
Record activatable db (t : case_type_row) : Prop := {
  av_draft : upper (ct_status t) = "DRAFT"%string;
  av_valid : ValidateCaseTypeConfig range1 range2 (ct_config t) = Some [];
  av_activities : unmaterialized (materialized t (activity_defs db)) (ct_config t) = [];
}.

Lemma target_commits id by_whom db t db' :
  commits busy (activation_target range1 range2 id by_whom) db = Some (t, db') →
  db' = db ∧ ∃ r, sql_get (of_version (TrimSpace id)) (case_types db) = Ok r ∧ t = loaded r ∧
    activatable db r.
Proof.
  unfold activation_target, audit_failure. intros H. tx_bind_inv H t0 d E. apply load_commits in E as (r & Hr & -> & -> & _).
  tx_bind_inv H w d E. apply lock_commits in E as ->.
  destruct (negb _) eqn:Hs; [done|]. apply negb_false_iff, String.eqb_eq in Hs.
  destruct (ValidateCaseTypeConfig _ _ _) as [[|v vs]|] eqn:Hv; [|by tx_bind_inv H w1 d1 E|done].
  tx_bind_inv H x d E. destruct x as [x|e]; [|by tx_bind_inv H w1 d1 E1].
  injection H as <- <-. rewrite commits_attempt in E.
  unfold validateActivitiesExistInDefinitionsTx in E. rewrite exec_bind in E.
  unfold query in E. rewrite exec_stmt in E. cbn in E.
  destruct (unmaterialized _ _) eqn:Hm; [|done]. injection E as _ ->.
  split; [done|]. exists r. split_and!; [done..|]. by split.
Qed.

Lemma previous_commits t db p db' :
  commits busy (previous_active t) db = Some (p, db') →
  db' = db ∧ ∀ r, p = Some r → ∃ r0, r = loaded r0 ∧ r0 ∈ case_types db ∧
    ct_status r0 = "ACTIVE"%string.
Proof.
  unfold previous_active. intros H. tx_bind_inv H x d E. rewrite commits_attempt, load_active_exec in E.
  injection E as Ex <-. destruct (upper _ =?s ""); [by subst|].
  destruct (newest _) as [r0|] eqn:En; subst x; [|by injection H as <- <-].
  injection H as Hp <-. split; [done|]. intros r Hr. exists r0.
  rewrite Hr in Hp. destruct (_ =?s ""); [done|]. injection Hp as <-. split; [done|].
  apply newest_elem, sql_select_elem in En as [? Ha]. split; [done|]. unfold active_other in Ha.
  bool_simpl. by apply String.eqb_eq.
Qed.

(** The versions once the previous one is deprecated, and the activation entered. *)
Definition retired (by_whom : string) (previous : option case_type_row) (rows : list case_type_row)
    : list case_type_row :=
  match previous with
  | Some p => sql_update (of_version (ct_id p)) (deprecated by_whom) rows
  | None => rows
  end.

Lemma activate_commits id by_whom db u db' :
  commits busy (ActivateCaseTypeVersion_tx range1 range2 range marshal id by_whom) db = Some (u, db') →
  ∃ t p es e, sql_get (of_version (TrimSpace id)) (case_types db) = Ok t ∧ activatable db t ∧
    match p with
    | Some q => q ∈ case_types db ∧ ct_status q = "ACTIVE"%string ∧
        allowed (ct_id q) (deprecated by_whom) (case_types db) ∧
        ∃ e', es = [e'] ∧ entry_of (ct_id q) "DEPRECATED" e'
    | None => es = []
    end ∧
    allowed (ct_id t) (activated by_whom) (retired by_whom p (case_types db)) ∧
    entry_of (ct_id t) "ACTIVATED" e ∧
    governs db db'
      (sql_update (of_version (ct_id t)) (activated by_whom) (retired by_whom p (case_types db)))
      (case_type_audit db ++ es ++ [e]).
Proof.
  unfold ActivateCaseTypeVersion_tx. intros H. tx_bind_inv H t0 d E.
  apply target_commits in E as (-> & t & Ht & -> & Hav). tx_bind_inv H p0 d E.
  apply previous_commits in E as (-> & Hp). tx_bind_inv H w d E.
  assert (∃ p es, match p with
    | Some q => q ∈ case_types db ∧ ct_status q = "ACTIVE"%string ∧
        allowed (ct_id q) (deprecated by_whom) (case_types db) ∧
        ∃ e', es = [e'] ∧ entry_of (ct_id q) "DEPRECATED" e'
    | None => es = []
    end ∧ governs db d (retired by_whom p (case_types db)) (case_type_audit db ++ es))
    as (p & es & Hes & Hd).
  { destruct p0 as [r|]; cbv beta iota delta [with_previous] in E.
    - destruct (Hp r eq_refl) as (q & -> & Hq & Hs). apply deprecate_commits in E as (e & He & Ha & E).
      exists (Some q), [e].
      split; [|exact E]. exact (conj Hq (conj Hs (conj Ha (ex_intro _ e (conj eq_refl He))))).
    - injection E as _ <-. exists None, [].
      split; [reflexivity|]. rewrite app_nil_r. apply governs_refl. }
  clear E Hp. tx_bind_inv H n d2 E. apply update_governs in E as [E Ha].
  destruct (governs_rows _ _ _ _ Hd) as (Erows & _). rewrite Erows in Ha.
  apply (governs_step _ _ _ _ _ (sql_update (of_version (ct_id (loaded t))) (activated by_whom))
           (λ l, l) Hd) in E. clear Hd Erows.
  tx_bind_inv H w2 d3 E2. assert (E3 : governs d2 d3 (case_types d2) (case_type_audit d2)).
  { destruct p0; cbv beta iota delta [with_previous] in E2; [|injection E2 as _ <-; apply governs_refl].
    tx_bind_inv E2 df d4 E4. injection E2 as _ <-. by apply diff_commits in E4. }
  apply (governs_step _ _ _ _ _ (λ l, l) (λ l, l) E) in E3. tx_bind_inv H w3 d4 E4.
  apply event_commits in E4. apply (governs_step _ _ _ _ _ (λ l, l) (λ l, l) E3) in E4.
  apply audit_commits in H as (e & He & H).
  apply (governs_step _ _ _ _ _ (λ l, l) (λ l, l ++ [e]) E4) in H. rewrite <- app_assoc in H.
  exists t, p, es, e. exact (conj Ht (conj Hav (conj Hes (conj Ha (conj He H))))).
Qed.

Lemma replacement_commits t db r db' :
  commits busy (replacement_of t) db = Some (r, db') →
  db' = db ∧ ∃ r0, r0 ∈ case_types db ∧ active_other (upper (ct_code t)) (ct_id t) r0 = true.
Proof.
  unfold replacement_of. intros H. tx_bind_inv H x d E. rewrite commits_attempt, load_active_exec in E.
  injection E as Ex <-. destruct (upper _ =?s ""); [by subst|].
  destruct (newest _) as [r0|] eqn:En; subst x; [|done].
  destruct (_ =?s ""); [done|]. injection H as _ <-. split; [done|]. exists r0.
  apply newest_elem in En. by apply sql_select_elem in En.
Qed.

Lemma deprecation_commits id by_whom db u db' :
  commits busy (DeprecateCaseTypeVersion_tx id by_whom) db = Some (u, db') →
  ∃ t r e, TrimSpace id ≠ ""%string ∧ sql_get (of_version (TrimSpace id)) (case_types db) = Ok t ∧
    upper (ct_status t) = "ACTIVE"%string ∧ r ∈ case_types db ∧
    active_other (upper (ct_code t)) (ct_id t) r = true ∧
    allowed (ct_id t) (deprecated by_whom) (case_types db) ∧ entry_of (ct_id t) "DEPRECATED" e ∧
    governs db db' (sql_update (of_version (ct_id t)) (deprecated by_whom) (case_types db))
      (case_type_audit db ++ [e]).
Proof.
  unfold DeprecateCaseTypeVersion_tx. intros H. tx_bind_inv H t0 d E.
  apply load_commits in E as (t & Ht & -> & -> & Hid). tx_bind_inv H w d E. apply lock_commits in E as ->.
  tx_bind_inv H w2 d E. apply commits_guard in E as [Hs ->].
  apply negb_false_iff, String.eqb_eq in Hs. tx_bind_inv H r0 d E.
  apply replacement_commits in E as (-> & r & Hr & Ha). apply deprecate_commits in H as (e & He & Hal & H).
  exists t, r, e. exact (conj Hid (conj Ht (conj Hs (conj Hr (conj Ha (conj Hal (conj He H))))))).
Qed.

Lemma pinned_case_Ok caseID db c ct :
  pinned_case caseID db = Ok (c, ct) →
  sql_get (by_id c_id caseID) (cases db) = Ok c ∧ c_id c = caseID ∧
  sql_get (of_version (pinned_id c)) (case_types db) = Ok ct.
Proof.
  unfold pinned_case. destruct (sql_get _ (cases db)) as [c0|] eqn:Ec; cbn; [|done].
  destruct (sql_get _ (case_types db)) as [v|] eqn:Ev; cbn; [|done]. intros [= <- <-].
  pose proof (sql_get_Ok _ _ _ Ec) as [_ Hid]. by apply String.eqb_eq in Hid.
Qed.

Lemma migrate_commits caseID by_whom db u db' :
  commits busy (MigrateCaseToLatestVersion_tx caseID by_whom) db = Some (u, db') →
  ∃ c from to e, sql_get (by_id c_id caseID) (cases db) = Ok c ∧ c_id c = caseID ∧
    sql_get (of_version (pinned_id c)) (case_types db) = Ok from ∧
    str_mem (upper (c_status c)) ["COMPLETED"; "CANCELLED"; "EXCEPTION"] = false ∧
    upper (ct_status from) = "DEPRECATED"%string ∧ to ∈ case_types db ∧
    active_other (upper (ct_code from)) (ct_id from) to = true ∧
    check_stage_compatible c to = Ok tt ∧ ca_action e = "CASE_MIGRATED"%string ∧
    governs (db <| cases := sql_update (by_id c_id (c_id c)) (pinned_to (ct_id to)) (cases db) |>)
      db' (case_types db) (case_type_audit db ++ [e]).
Proof.
  unfold MigrateCaseToLatestVersion_tx. intros H. tx_bind_inv H p d E.
  apply commits_query_inv in E as [Hp ->]. destruct p as [c from].
  apply pinned_case_Ok in Hp as (Hc & Hid & Hf). tx_bind_inv H w d E.
  apply commits_guard in E as [Hst ->]. tx_bind_inv H w1 d E. apply commits_guard in E as [Hs ->].
  apply negb_false_iff, String.eqb_eq in Hs. tx_bind_inv H w2 d E. apply lock_commits in E as ->.
  tx_bind_inv H active d E.
  assert (∃ to, active = loaded to ∧ to ∈ case_types db ∧
    active_other (upper (ct_code from)) (ct_id from) to = true ∧ d = db) as (to & -> & Hto & Ha & ->).
  { unfold commits in E. rewrite load_active_exec in E. destruct (upper _ =?s ""); [done|].
    destruct (newest _) as [r0|] eqn:En; [|done]. injection E as <- <-. exists r0.
    apply newest_elem in En. by apply sql_select_elem in En as [? ?]. }
  clear E. tx_bind_inv H w3 d E. apply commits_guard in E as [_ ->]. tx_bind_inv H w4 d E.
  rewrite commits_of in E. change (check_stage_compatible c (loaded to))
    with (check_stage_compatible c to) in E.
  destruct (check_stage_compatible c to) as [[]|] eqn:Hcomp; [|done]. injection E as _ <-.
  tx_bind_inv H n d E. apply commits_update_inv in E as (_ & -> & _). tx_bind_inv H w5 d E.
  apply audit_commits in E as (e & [_ He] & E). apply event_commits in H.
  apply (governs_step _ _ _ _ _ (λ l, l) (λ l, l) E) in H.
  exists c, from, to, e. exact (conj Hc (conj Hid (conj Hf (conj Hst (conj Hs (conj Hto (conj Ha
    (conj Hcomp (conj He H))))))))).
Qed.
End Outcomes.
