(* ===== verification/VersionHistory.v ===== *)
(** * Histories of versions (internal/versioning)

    The operations of Versioning in any order, with any arguments, contexts, clocks and
    failures of the connection: which versions there can be, what happens to a
    configuration once it is in use, and what the audit trail says of it. *)

From Stdlib Require Import Ascii String ZArith Lia.
From stdpp Require Import base gmap list strings relations.
From S2P Require Import Prelude ApprovalExpr RetryPolicy CaseConfig VersionDiff SqlTx Schema Operations Outbox ConfigValidation ConfigWellFormed Versioning.

Open Scope Z_scope.
Open Scope go_scope.

(** ** Histories *)

Section Histories.
Context (range1 range2 : gmap string string → list (string * string)).
Context (range : ∀ V : Type, gmap string V → list (string * V)).
Context (marshal : TaskDefinitionV2 → result string).

(** The operations with the arguments of their callers. *)
Inductive governance_op :=
  | OpCreateDraft (code name description : string) (config : CaseTypeConfig) (by_whom : string)
  | OpUpdateDraft (version : string) (config : CaseTypeConfig) (by_whom : string)
  | OpActivate (version by_whom : string)
  | OpDeprecate (version by_whom : string)
  | OpMigrate (case by_whom : string)
  | OpDiff (from to : string).

(** A request: the context, clocks and identifiers it finds, its connection, and what is
    asked for. *)
Record governance_request := { gq_env : Env; gq_driver : driver; gq_op : governance_op }.

Definition govern_in `{env : Env} (drv : driver) (op : governance_op) (db : database) : database :=
  match op with
  | OpCreateDraft code name description config b =>
      snd (CreateCaseTypeDraftVersion drv code name description config b db)
  | OpUpdateDraft id config b => snd (UpdateCaseTypeDraftConfig drv id config b db)
  | OpActivate id b => snd (ActivateCaseTypeVersion range1 range2 range marshal drv id b db)
  | OpDeprecate id b => snd (DeprecateCaseTypeVersion drv id b db)
  | OpMigrate caseID b => snd (MigrateCaseToLatestVersion drv caseID b db)
  | OpDiff from to => snd (DiffCaseTypeVersions range marshal drv from to db)
  end.
Definition govern (db : database) (q : governance_request) : database :=
  govern_in (env := gq_env q) (gq_driver q) (gq_op q) db.
Definition governance (db : database) (qs : list governance_request) : database :=
  fold_left govern qs db.

Lemma governance_keeps (P : database → Prop) db qs :
  (∀ db q, q ∈ qs → P db → P (govern db q)) → P db → P (governance db qs).
Proof.
  unfold governance. revert db. induction qs as [|q qs IH]; intros db Hp H; cbn; [done|].
  apply IH; [|apply Hp; [left|done]]. intros db' q' Hq. apply Hp. by right.
Qed.

(** ** The steps of a history *)

(** What one operation does to the versions, when it commits; the index is the case that
    is moved to another version. *)
Inductive version_step (db : database) : option string → database → Prop :=
  | StepDraft db' r e :
      upper (ct_code r) = ct_code r → ct_status r = "DRAFT" → ct_tenant_id r = None →
      ct_version r = next_version (ct_code r) (case_types db) → ct_check r = true →
      (∀ r', r' ∈ case_types db → ct_conflict r r' = false) → entry_of (ct_id r) "CREATED" e →
      governs db db' (case_types db ++ [r]) (case_type_audit db ++ [e]) → version_step db None db'
  | StepConfig db' r config e :
      r ∈ case_types db → upper (ct_status r) = "DRAFT" →
      entry_of (ct_id r) "CONFIG_UPDATED" e →
      allowed (ct_id r) (λ r, r <| ct_config := config |>) (case_types db) →
      governs db db' (sql_update (of_version (ct_id r)) (λ r, r <| ct_config := config |>)
        (case_types db)) (case_type_audit db ++ [e]) → version_step db None db'
  | StepActivate `{env : Env} db' t p by_whom es e :
      t ∈ case_types db → activatable range1 range2 db t →
      match p with
      | Some q => q ∈ case_types db ∧ ct_status q = "ACTIVE" ∧
          allowed (ct_id q) (deprecated by_whom) (case_types db) ∧
          ∃ e', es = [e'] ∧ entry_of (ct_id q) "DEPRECATED" e'
      | None => es = []
      end →
      allowed (ct_id t) (activated by_whom) (retired by_whom p (case_types db)) →
      entry_of (ct_id t) "ACTIVATED" e →
      governs db db'
        (sql_update (of_version (ct_id t)) (activated by_whom) (retired by_whom p (case_types db)))
        (case_type_audit db ++ es ++ [e]) → version_step db None db'
  | StepDeprecate `{env : Env} db' t r by_whom e :
      t ∈ case_types db → upper (ct_status t) = "ACTIVE" →
      r ∈ case_types db → active_other (upper (ct_code t)) (ct_id t) r = true →
      allowed (ct_id t) (deprecated by_whom) (case_types db) →
      entry_of (ct_id t) "DEPRECATED" e →
      governs db db' (sql_update (of_version (ct_id t)) (deprecated by_whom) (case_types db))
        (case_type_audit db ++ [e]) → version_step db None db'
  | StepMigrate db' c from to e :
      sql_get (by_id c_id (c_id c)) (cases db) = Ok c →
      sql_get (of_version (pinned_id c)) (case_types db) = Ok from →
      str_mem (upper (c_status c)) ["COMPLETED"; "CANCELLED"; "EXCEPTION"] = false →
      upper (ct_status from) = "DEPRECATED" → to ∈ case_types db →
      active_other (upper (ct_code from)) (ct_id from) to = true →
      check_stage_compatible c to = Ok tt → ca_action e = "CASE_MIGRATED" →
      governs (db <| cases := sql_update (by_id c_id (c_id c)) (pinned_to (ct_id to)) (cases db) |>)
        db' (case_types db) (case_type_audit db ++ [e]) → version_step db (Some (c_id c)) db'
  | StepOther db' :
      governs db db' (case_types db) (case_type_audit db) → version_step db None db'.

(** The case an operation may move. *)
Definition moved_by (op : governance_op) : option string :=
  match op with OpMigrate caseID _ => Some (TrimSpace caseID) | _ => None end.

Lemma upper_idem s : upper (upper s) = upper s.
Proof.
  unfold upper, ToUpper. rewrite TrimSpace_map_trimmed.
  - apply string_map_idem, upper_char_idem.
  - intros c. assert (is_space (upper_char c) = is_space c) as ->; [|done].
    apply eqb_prop. revert c. by_bytes.
Qed.

Lemma governs_same db : version_step db None db.
Proof. apply StepOther, governs_refl. Qed.

(** The version an identifier names. *)
Lemma get_version id rows r :
  sql_get (of_version id) rows = Ok r → r ∈ rows ∧ ct_id r = id.
Proof. intros [Hr Hid]%sql_get_Ok. by apply String.eqb_eq in Hid. Qed.

Lemma govern_in_step `{env : Env} drv op db :
  version_step db None (govern_in drv op db) ∨ version_step db (moved_by op) (govern_in drv op db).
Proof.
  pose proof (governs_same db) as Hsame.
  destruct op as [code name description config b|id config b|id b|id b|caseID b|from to]; unfold govern_in.
  - left. unfold CreateCaseTypeDraftVersion. apply (then_commits _ _ _ db (version_step db None)); [done|]. intros a r db' _ H.
    apply draft_created in H as (e & He & E1 & E2 & _ & E4 & E5 & E6 & E7 & H).
    eapply (StepDraft db db' r e); rewrite ?E1; try done. apply upper_idem.
  - left. unfold UpdateCaseTypeDraftConfig. apply (then_commits _ _ _ db (version_step db None)); [done|]. intros a u db' _ H.
    apply update_draft_commits in H as (r & e & Hr & Hs & He & Ha & H); [|apply TrimSpace_idem].
    apply get_version in Hr as [Hr Hid]. rewrite <- Hid in He, Ha, H. by eapply StepConfig.
  - left. unfold ActivateCaseTypeVersion. apply (then_commits _ _ _ db (version_step db None)); [done|]. intros a u db' _ H.
    apply activate_commits in H as (t & p & es & e & Ht & Hav & Hp & Ha & He & H).
    apply get_version in Ht as [Ht _]. exact (StepActivate db db' t p _ es e Ht Hav Hp Ha He H).
  - left. unfold DeprecateCaseTypeVersion. apply (then_commits _ _ _ db (version_step db None)); [done|]. intros a u db' _ H.
    apply deprecation_commits in H as (t & r & e & _ & Ht & Hs & Hr & Hact & Ha & He & H).
    apply get_version in Ht as [Ht _]. exact (StepDeprecate db db' t r _ e Ht Hs Hr Hact Ha He H).
  - unfold MigrateCaseToLatestVersion. apply (then_commits _ _ _ db (λ db', version_step db None db' ∨ version_step db _ db')); [by left|].
    intros a u db' _ H. right.
    apply migrate_commits in H as (c & f & t & e & Hc & Hid & Hf & Hst & Hs & Ht & Hact & Hok & He & H).
    cbn [moved_by]. rewrite <- Hid in Hc |- *. exact (StepMigrate db db' c f t e Hc Hf Hst Hs Ht Hact Hok He H).
  - left. unfold DiffCaseTypeVersions. destruct (within_tx _ _ db) as [[d|e] db'] eqn:E; cbn.
    + apply within_tx_commits in E. apply diff_commits in E. by apply StepOther.
    + apply within_tx_rollback in E as ->. done.
Qed.

Lemma govern_step db q :
  version_step db None (govern db q) ∨ version_step db (moved_by (gq_op q)) (govern db q).
Proof. apply govern_in_step. Qed.
End Histories.

(** ** Lawful versions *)

Section Laws.
Context (range1 range2 : gmap string string → list (string * string)).

Definition valid (config : CaseTypeConfig) : Prop :=
  ValidateCaseTypeConfig range1 range2 config = Some [].

(** What is true of the versions of a case type: identifiers tell them apart, the columns
    hold what they may, the versions of a code are numbered from 1 on in the order of their
    creation, a tenant has at most one active version of a code, and what is no draft has
    been validated. *)
Record lawful (rows : list case_type_row) : Prop := {
  lw_ids : NoDup (map ct_id rows);
  lw_check : ∀ r, r ∈ rows → ct_check r = true;
  lw_versions : ∀ code, map ct_version (sql_select (of_code code) rows) =
                        seqZ 1 (Z.of_nat (length (sql_select (of_code code) rows)));
  lw_active : ∀ r r', r ∈ rows → r' ∈ rows → both_active r r' = true → r = r';
  lw_valid : ∀ r, r ∈ rows → ct_status r ≠ "DRAFT"%string → valid (ct_config r);
}.

(** What never changes of a version. *)
Definition identity (r : case_type_row) :=
  (ct_id r, ct_code r, ct_version r, ct_name r, ct_description r, ct_tenant_id r).

Lemma identity_fields r r' : identity r' = identity r →
  ct_id r' = ct_id r ∧ ct_code r' = ct_code r ∧ ct_version r' = ct_version r ∧
  ct_tenant_id r' = ct_tenant_id r.
Proof. by intros [= -> -> -> _ _ ->]. Qed.

Lemma lawful_same rows r r' :
  lawful rows → r ∈ rows → r' ∈ rows → ct_id r = ct_id r' → r = r'.
Proof. intros Hl. apply (key_unique ct_id). apply Hl. Qed.

Lemma upper_status rows r : lawful rows → r ∈ rows → upper (ct_status r) = ct_status r.
Proof.
  intros Hl Hr. apply (lw_check _ Hl) in Hr. unfold ct_check in Hr. bool_simpl.
  apply str_mem_elem in H. rewrite !elem_of_cons, elem_of_nil in H.
  by destruct H as [->|[->|[->|[]]]].
Qed.

Lemma both_active_status r r' : both_active r r' = true →
  ct_status r = "ACTIVE"%string ∧ ct_status r' = "ACTIVE"%string ∧ ct_code r = ct_code r' ∧
  tenant_or_default r = tenant_or_default r'.
Proof. unfold both_active. intros H. bool_simpl. by rewrite !String.eqb_eq in *. Qed.

Lemma select_update {R} (q p : R → bool) f (rows : list R) :
  (∀ r, q (f r) = q r) → sql_select q (sql_update p f rows) = sql_update p f (sql_select q rows).
Proof.
  intros Hq. induction rows as [|r rows IH]; [done|]. cbn.
  assert (E : q (if p r then f r else r) = q r) by by destruct (p r).
  rewrite E. change (map _ rows) with (sql_update p f rows).
  fold (sql_select q rows). fold (sql_select q (sql_update p f rows)). rewrite IH.
  by destruct (q r).
Qed.

(** An update of one version within the constraints. *)
Lemma lawful_update id f rows :
  lawful rows → allowed id f rows → (∀ r, identity (f r) = identity r) →
  (∀ r, r ∈ rows → ct_id r = id → ct_status (f r) ≠ "DRAFT"%string → valid (ct_config (f r))) →
  lawful (sql_update (of_version id) f rows).
Proof.
  intros Hl Ha Hf Hv.
  assert (Hin : ∀ r, r ∈ sql_update (of_version id) f rows →
    ∃ r0, r0 ∈ rows ∧ (ct_id r0 = id ∧ r = f r0 ∨ ct_id r0 ≠ id ∧ r = r0)).
  { intros r (r0 & Hr0 & ->)%sql_update_elem. exists r0. split; [done|].
    unfold of_version, by_id. destruct (String.eqb_spec (ct_id r0) id); auto. }
  assert (Hid : ∀ r, ct_id (f r) = ct_id r) by (intros r; apply (identity_fields r (f r)), Hf).
  split.
  - rewrite sql_update_map; [apply Hl|done].
  - intros r (r0 & Hr0 & [[Hi ->]|[_ ->]])%Hin; [by apply Ha|by apply (lw_check rows)].
  - intros code. assert (Hq : ∀ r, of_code code (f r) = of_code code r).
    { intros r. unfold of_code. by destruct (identity_fields r (f r)) as (_ & -> & _). }
    rewrite select_update, sql_update_length by done.
    rewrite sql_update_map; [by apply lw_versions|]. intros r. apply (identity_fields r (f r)), Hf.
  - intros r r' (r0 & Hr0 & [[Hi ->]|[Hi ->]])%Hin (r1 & Hr1 & [[Hi' ->]|[Hi' ->]])%Hin Hb.
    + assert (r0 = r1) as ->; [|done]. apply (lawful_same rows); congruence.
    + destruct (Ha r0 Hr0 Hi) as [_ Hn]. by rewrite Hn in Hb.
    + destruct (Ha r1 Hr1 Hi') as [_ Hn]. specialize (Hn r0 Hr0 Hi).
      apply both_active_status in Hb as (E1 & E2 & E3 & E4). unfold both_active in Hn.
      by rewrite E1, E2, E3, E4, !String.eqb_refl in Hn.
    + by apply (lw_active rows).
  - intros r (r0 & Hr0 & [[Hi ->]|[_ ->]])%Hin; [by apply Hv|by apply (lw_valid rows)].
Qed.

Lemma foldr_max_seq a n : ∀ k, a < k →
  foldr Z.max a (seqZ k (Z.of_nat n)) = (if n is O then a else k + Z.of_nat n - 1).
Proof.
  induction n as [|n IH]; intros k Hk; [done|].
  rewrite seqZ_cons by lia. replace (Z.pred (Z.of_nat (S n))) with (Z.of_nat n) by lia.
  cbn [foldr]. rewrite IH by lia. destruct n; lia.
Qed.

Lemma next_of_seq code rows n :
  map ct_version (sql_select (of_code code) rows) = seqZ 1 (Z.of_nat n) →
  next_version code rows = Z.of_nat n + 1.
Proof.
  unfold next_version. intros ->. destruct n as [|n]; [done|].
  rewrite seqZ_cons by lia. replace (Z.pred (Z.of_nat (S n))) with (Z.of_nat n) by lia.
  rewrite foldr_max_seq by lia. destruct n; lia.
Qed.

Lemma lawful_draft r rows :
  lawful rows → ct_status r = "DRAFT"%string → ct_version r = next_version (ct_code r) rows →
  ct_check r = true → (∀ r', r' ∈ rows → ct_conflict r r' = false) → lawful (rows ++ [r]).
Proof.
  intros Hl Hs Hv Hc Hx.
  assert (Hin : ∀ r', r' ∈ rows ++ [r] → r' ∈ rows ∨ r' = r).
  { intros r' [|Hr]%elem_of_app; [by left|]. right. by apply list_elem_of_singleton. }
  assert (Hna : ∀ r', both_active r r' = false ∧ both_active r' r = false).
  { intros r'. unfold both_active. rewrite Hs. by rewrite !andb_false_r. }
  split.
  - rewrite map_app. apply NoDup_app. split_and!; [apply Hl| |apply NoDup_singleton].
    intros i Hi Hi'. cbn in Hi'. apply list_elem_of_singleton in Hi' as ->.
    apply list_elem_of_In, in_map_iff in Hi as (r' & Hi & Hr'). apply list_elem_of_In in Hr'.
    specialize (Hx r' Hr'). unfold ct_conflict in Hx. by rewrite Hi, String.eqb_refl in Hx.
  - intros r' [Hr'| ->]%Hin; [by apply (lw_check rows)|done].
  - intros code. unfold sql_select. rewrite List.filter_app. fold (sql_select (of_code code) rows). cbn.
    pose proof (lw_versions rows Hl code) as Hvs. unfold of_code at 2 4.
    destruct (String.eqb_spec (ct_code r) code) as [<-|Hne]; [|by rewrite app_nil_r].
    rewrite map_app, length_app, Nat2Z.inj_add, seqZ_app by lia. rewrite Hvs. f_equal. cbn.
    rewrite Hv, (next_of_seq _ _ _ Hvs). by rewrite Z.add_comm.
  - intros r1 r2 [H1| ->]%Hin [H2| ->]%Hin Hb.
    + by apply (lw_active rows).
    + by destruct (Hna r1) as [_ E]; rewrite E in Hb.
    + by destruct (Hna r2) as [E _]; rewrite E in Hb.
    + done.
  - intros r' [Hr'| ->]%Hin Hd; [by apply (lw_valid rows)|done].
Qed.
End Laws.

(** ** How versions evolve *)

(** DRAFT, then ACTIVE, then DEPRECATED. *)
Definition rank (status : string) : nat :=
  if status =?s "DRAFT" then 0 else if status =?s "ACTIVE" then 1 else 2.
Definition action_for (status : string) : string :=
  if status =?s "ACTIVE" then "ACTIVATED" else status.
Definition entered_in (es : list ct_audit_row) (id action : string) : Prop :=
  ∃ e, e ∈ es ∧ entry_of id action e.

(** A version and what has become of it, with the entries of the trail that say so: the
    configuration changes while it is a draft only, the status goes one way only. *)
Record evolves (es : list ct_audit_row) (r r' : case_type_row) : Prop := {
  ev_identity : identity r' = identity r;
  ev_config : ct_config r' = ct_config r ∨
    ct_status r = "DRAFT"%string ∧ entered_in es (ct_id r) "CONFIG_UPDATED";
  ev_status : ct_status r' = ct_status r ∨
    (rank (ct_status r) < rank (ct_status r'))%nat ∧
    entered_in es (ct_id r) (action_for (ct_status r'));
}.

(** The versions of [rows] have evolved, others were created, and the trail has grown by
    entries that say so; no entry is about a failed validation. *)
Definition recorded (rows : list case_type_row) (trail : list ct_audit_row)
    (rows' : list case_type_row) (trail' : list ct_audit_row) : Prop :=
  ∃ l new es, rows' = l ++ new ∧ trail' = trail ++ es ∧ Forall2 (evolves es) rows l ∧
    (∀ r, r ∈ new → entered_in es (ct_id r) "CREATED") ∧
    (∀ e, e ∈ es → ca_action e ≠ "VALIDATION_FAILED"%string).

Lemma entered_mono es es' id action :
  (∀ e, e ∈ es → e ∈ es') → entered_in es id action → entered_in es' id action.
Proof. intros Hs (e & He & H). exists e. auto. Qed.

Lemma evolves_refl es r : evolves es r r.
Proof. split; auto. Qed.

Lemma rank_draft s s' : s' = s ∨ (rank s < rank s')%nat → s' = "DRAFT"%string → s = "DRAFT"%string.
Proof. intros [->|Hr] ->; [done|]. unfold rank at 2 in Hr. cbn in Hr. lia. Qed.

Lemma evolves_trans es1 es2 r1 r2 r3 :
  evolves es1 r1 r2 → evolves es2 r2 r3 → evolves (es1 ++ es2) r1 r3.
Proof.
  intros [I1 C1 S1] [I2 C2 S2].
  assert (H1 : ∀ id a, entered_in es1 id a → entered_in (es1 ++ es2) id a).
  { intros id a. apply entered_mono. intros e He. apply elem_of_app. by left. }
  assert (H2 : ∀ id a, entered_in es2 id a → entered_in (es1 ++ es2) id a).
  { intros id a. apply entered_mono. intros e He. apply elem_of_app. by right. }
  destruct (identity_fields _ _ I1) as (Ei & _). rewrite Ei in C2, S2. split.
  - congruence.
  - destruct C2 as [C2|[Hd C2]].
    + rewrite C2. destruct C1 as [|[? ?]]; [by left|right; auto].
    + right. split; [|auto]. apply (rank_draft _ (ct_status r2)); [|done].
      destruct S1 as [|[? _]]; auto.
  - destruct S2 as [S2|[Hr S2]].
    + rewrite S2. destruct S1 as [|[? ?]]; [by left|right; auto].
    + right. split; [|auto]. destruct S1 as [<-|[? _]]; lia.
Qed.

Lemma evolves_mono es es' r r' : (∀ e, e ∈ es → e ∈ es') → evolves es r r' → evolves es' r r'.
Proof.
  intros Hs [I C S]. split; [done| |].
  - destruct C as [|[? ?]]; [by left|right]. split; [done|]. by eapply entered_mono.
  - destruct S as [|[? ?]]; [by left|right]. split; [done|]. by eapply entered_mono.
Qed.

Lemma Forall2_evolves_refl es rows : Forall2 (evolves es) rows rows.
Proof. induction rows; constructor; [apply evolves_refl|done]. Qed.

Lemma recorded_refl rows trail : recorded rows trail rows trail.
Proof.
  exists rows, [], []. rewrite !app_nil_r. split_and!; [done..|apply Forall2_evolves_refl| |].
  - intros r Hr. by apply elem_of_nil in Hr.
  - intros e He. by apply elem_of_nil in He.
Qed.

Lemma Forall2_from {A B} (P : A → B → Prop) l k y :
  Forall2 P l k → y ∈ k → ∃ x, x ∈ l ∧ P x y.
Proof.
  induction 1 as [|a b l k Hab _ IH]; [by intros ?%elem_of_nil|].
  intros [->|Hy]%elem_of_cons; [exists a; split; [by left|done]|].
  destruct (IH Hy) as (x & Hx & HP). exists x. split; [by right|done].
Qed.

Lemma recorded_trans rows1 trail1 rows2 trail2 rows3 trail3 :
  recorded rows1 trail1 rows2 trail2 → recorded rows2 trail2 rows3 trail3 →
  recorded rows1 trail1 rows3 trail3.
Proof.
  intros (l1 & new1 & es1 & -> & -> & F1 & N1 & V1) (l2 & new2 & es2 & -> & -> & F2 & N2 & V2).
  apply Forall2_app_inv_l in F2 as (la & lb & Fa & Fb & ->).
  exists la, (lb ++ new2), (es1 ++ es2). rewrite !app_assoc. split_and!; [done..| | |].
  - apply (Forall2_compose (evolves es1) (evolves es2) _ rows1 l1 la); [|done..].
    intros r1 r2 r3. apply evolves_trans.
  - intros r [Hr|Hr]%elem_of_app.
    + destruct (Forall2_from _ _ _ _ Fb Hr) as (r0 & Hr0 & [I _ _]).
      destruct (identity_fields _ _ I) as (-> & _). apply (entered_mono es1); [|auto].
      intros e He. apply elem_of_app. by left.
    + apply (entered_mono es2); [|auto]. intros e He. apply elem_of_app. by right.
  - intros e [He|He]%elem_of_app; auto.
Qed.

Lemma recorded_update id f rows trail es :
  (∀ r, r ∈ rows → ct_id r = id → evolves es r (f r)) →
  (∀ e, e ∈ es → ca_action e ≠ "VALIDATION_FAILED"%string) →
  recorded rows trail (sql_update (of_version id) f rows) (trail ++ es).
Proof.
  intros Hf He. exists (sql_update (of_version id) f rows), [], es. rewrite app_nil_r.
  split_and!; [done..| |by intros r Hr%elem_of_nil|done].
  unfold sql_update. rewrite <- (map_id rows) at 1. clear -Hf.
  induction rows as [|r rows IH]; cbn; constructor.
  - destruct (of_version id r) eqn:E; [|apply evolves_refl]. apply Hf; [by left|].
    by apply String.eqb_eq.
  - apply IH. intros r' Hr'. apply Hf. by right.
Qed.

(** ** The steps keep the law and the record *)

Section Steps.
Context (range1 range2 : gmap string string → list (string * string)).
Notation lawful := (lawful range1 range2).
Notation valid := (valid range1 range2).
Notation version_step := (version_step range1 range2).

Lemma one_entry id action e e' :
  entry_of id action e → action ≠ "VALIDATION_FAILED"%string → e' ∈ [e] →
  ca_action e' ≠ "VALIDATION_FAILED"%string.
Proof. intros [_ E] Ha ->%list_elem_of_singleton. by rewrite E. Qed.

Lemma entered_one id action e : entry_of id action e → entered_in [e] id action.
Proof. intros He. exists e. split; [by left|done]. Qed.

Lemma deprecation_step `{env : Env} rows trail t by_whom e :
  lawful rows → t ∈ rows → ct_status t = "ACTIVE"%string →
  allowed (ct_id t) (deprecated by_whom) rows → entry_of (ct_id t) "DEPRECATED" e →
  lawful (sql_update (of_version (ct_id t)) (deprecated by_whom) rows) ∧
  recorded rows trail (sql_update (of_version (ct_id t)) (deprecated by_whom) rows) (trail ++ [e]).
Proof.
  intros Hl Ht Hs Ha He.
  assert (Hone : ∀ r, r ∈ rows → ct_id r = ct_id t → r = t).
  { intros r Hr. by apply (lawful_same range1 range2 rows). }
  split.
  - apply lawful_update; [done..|]. intros r Hr Hid _. rewrite (Hone r Hr Hid).
    apply (lw_valid _ _ _ Hl t Ht). by rewrite Hs.
  - apply recorded_update; [|intros e'; by apply (one_entry (ct_id t) "DEPRECATED")].
    intros r Hr Hid. rewrite (Hone r Hr Hid). split; [done|by left|right].
    split; [rewrite Hs; cbn; lia|by apply entered_one].
Qed.

Lemma activation_step `{env : Env} rows trail t by_whom e :
  lawful rows → t ∈ rows → ct_status t = "DRAFT"%string → valid (ct_config t) →
  allowed (ct_id t) (activated by_whom) rows → entry_of (ct_id t) "ACTIVATED" e →
  lawful (sql_update (of_version (ct_id t)) (activated by_whom) rows) ∧
  recorded rows trail (sql_update (of_version (ct_id t)) (activated by_whom) rows) (trail ++ [e]).
Proof.
  intros Hl Ht Hs Hv Ha He.
  assert (Hone : ∀ r, r ∈ rows → ct_id r = ct_id t → r = t).
  { intros r Hr. by apply (lawful_same range1 range2 rows). }
  split.
  - apply lawful_update; [done..|]. intros r Hr Hid _. by rewrite (Hone r Hr Hid).
  - apply recorded_update; [|intros e'; by apply (one_entry (ct_id t) "ACTIVATED")].
    intros r Hr Hid. rewrite (Hone r Hr Hid). split; [done|by left|right].
    split; [rewrite Hs; cbn; lia|by apply entered_one].
Qed.

(** The version that is activated is still there once its predecessor is retired. *)
Lemma retired_keeps `{env : Env} rows t p by_whom :
  t ∈ rows → match p with Some q => ct_id q ≠ ct_id t | None => True end →
  t ∈ retired by_whom p rows.
Proof.
  intros Ht Hp. destruct p as [q|]; cbn; [|done]. unfold sql_update.
  apply list_elem_of_In, in_map_iff. exists t. rewrite <- list_elem_of_In. split; [|done].
  unfold of_version, by_id. destruct (String.eqb_spec (ct_id t) (ct_id q)); [|done]. by destruct Hp.
Qed.

Lemma step_lawful db m db' :
  lawful (case_types db) → version_step db m db' →
  lawful (case_types db') ∧
  recorded (case_types db) (case_type_audit db) (case_types db') (case_type_audit db').
Proof.
  intros Hl Hst. destruct Hst.
  all: match goal with H : governs _ _ _ _ |- _ =>
         apply governs_rows in H as (E1 & E2 & _); rewrite E1, E2; clear E1 E2 end.
  - split; [by apply lawful_draft|]. exists (case_types db), [r], [e].
    split_and!; [done..|apply Forall2_evolves_refl| |].
    + intros r' ->%list_elem_of_singleton. by apply entered_one.
    + intros e'. by apply (one_entry (ct_id r) "CREATED").
  - rewrite (upper_status _ _ _ _ Hl) in H0 by done.
    assert (Hone : ∀ r', r' ∈ case_types db → ct_id r' = ct_id r → r' = r).
    { intros r' Hr'. by apply (lawful_same range1 range2 (case_types db)). }
    split.
    + apply lawful_update; [done..|]. intros r' Hr' Hid Hd. rewrite (Hone r' Hr' Hid) in Hd. done.
    + apply recorded_update; [|intros e'; by apply (one_entry (ct_id r) "CONFIG_UPDATED")].
      intros r' Hr' Hid. rewrite (Hone r' Hr' Hid). split; [done| |by left]. right.
      split; [done|by apply entered_one].
  - destruct H0 as [Hd Hv _]. rewrite (upper_status _ _ _ _ Hl) in Hd by done.
    assert (Hp : lawful (retired by_whom p (case_types db)) ∧
      recorded (case_types db) (case_type_audit db) (retired by_whom p (case_types db))
        (case_type_audit db ++ es) ∧ t ∈ retired by_whom p (case_types db)).
    { destruct p as [q|].
      - destruct H1 as (Hq & Hs & Ha & e' & -> & He').
        destruct (deprecation_step (case_types db) (case_type_audit db) q by_whom e') as [L R]; try done.
        split_and!; [done..|]. apply (retired_keeps _ _ (Some q)); [done|]. intros Heq.
        assert (q = t) as ->; [by apply (lawful_same range1 range2 (case_types db))|]. by rewrite Hs in Hd.
      - subst es. rewrite app_nil_r. split_and!; [done|apply recorded_refl|done]. }
    destruct Hp as (L & R & Ht).
    destruct (activation_step _ (case_type_audit db ++ es) t by_whom e L Ht Hd Hv H2 H3) as [L' R'].
    split; [done|]. rewrite app_assoc. by eapply recorded_trans.
  - rewrite (upper_status _ _ _ _ Hl) in H0 by done. by apply deprecation_step.
  - split; [done|]. exists (case_types db), [], [e]. rewrite app_nil_r.
    split_and!; [done..|apply Forall2_evolves_refl|by intros r Hr%elem_of_nil|].
    intros e' ->%list_elem_of_singleton. by rewrite H6.
  - split; [done|apply recorded_refl].
Qed.
End Steps.

(** ** What histories keep *)

Section Governed.
Context (range1 range2 : gmap string string → list (string * string)).
Context (range : ∀ V : Type, gmap string V → list (string * V)).
Context (marshal : TaskDefinitionV2 → result string).
Notation lawful := (lawful range1 range2).
Notation version_step := (version_step range1 range2).
Notation governance := (governance range1 range2 range marshal).
Notation govern := (govern range1 range2 range marshal).

(** Cases are pinned to versions that are there and no drafts any more. *)
Definition settled (db : database) : Prop :=
  ∀ c, c ∈ cases db → ∃ r, r ∈ case_types db ∧ ct_id r = pinned_id c ∧ ct_status r ≠ "DRAFT"%string.
Definition governed (db : database) : Prop := lawful (case_types db) ∧ settled db.

Lemma step_frame db m db' : version_step db m db' →
  activity_defs db' = activity_defs db ∧
  (cases db' = cases db ∧ m = None ∨
   ∃ c to, m = Some (c_id c) ∧ to ∈ case_types db ∧ case_types db' = case_types db ∧
     ct_status to = "ACTIVE"%string ∧
     cases db' = sql_update (by_id c_id (c_id c)) (pinned_to (ct_id to)) (cases db)).
Proof.
  intros Hst; destruct Hst;
    match goal with H : governs _ _ _ _ |- _ => apply governs_rows in H as (E1 & _ & E3 & E4) end;
    rewrite E3, E4; (split; [reflexivity|]); auto.
  right. exists c, to. unfold active_other in H4. bool_simpl. by rewrite String.eqb_eq in *.
Qed.

Lemma evolved_elem es rows l r :
  Forall2 (evolves es) rows l → r ∈ rows → ∃ r', r' ∈ l ∧ evolves es r r'.
Proof.
  intros F Hr. apply Forall2_flip in F. by destruct (Forall2_from _ _ _ _ F Hr) as (r' & ? & ?); exists r'.
Qed.

Lemma evolves_settled es r r' : evolves es r r' →
  ct_status r ≠ "DRAFT"%string → ct_status r' ≠ "DRAFT"%string.
Proof.
  intros [_ _ S] Hd Hd'. apply Hd, (rank_draft _ (ct_status r')); [|done].
  destruct S as [|[? _]]; auto.
Qed.

Lemma step_settled db m db' : governed db → version_step db m db' → settled db'.
Proof.
  intros [Hl Hs] Hst. destruct (step_lawful _ _ _ _ _ Hl Hst) as [_ (l & new & es & E & _ & F & _)].
  assert (Hkeep : ∀ r, r ∈ case_types db → ct_status r ≠ "DRAFT"%string →
    ∃ r', r' ∈ case_types db' ∧ ct_id r' = ct_id r ∧ ct_status r' ≠ "DRAFT"%string).
  { intros r Hr Hd. destruct (evolved_elem _ _ _ _ F Hr) as (r' & Hr' & Hev). exists r'.
    rewrite E, elem_of_app. split; [by left|]. split; [|by eapply evolves_settled].
    apply (identity_fields r r'), Hev. }
  destruct (step_frame _ _ _ Hst) as [_ [[Ec _]|(c & to & _ & Hto & _ & Ha & Ec)]]; intros c' Hc'.
  - rewrite Ec in Hc'. destruct (Hs c' Hc') as (r & Hr & <- & Hd). by apply Hkeep.
  - rewrite Ec in Hc'. apply sql_update_elem in Hc' as (c0 & Hc0 & ->).
    destruct (by_id _ _ c0).
    + destruct (Hkeep to Hto) as (r' & Hr' & Hid & Hd); [by rewrite Ha|]. by exists r'.
    + destruct (Hs c0 Hc0) as (r & Hr & <- & Hd). by apply Hkeep.
Qed.

Lemma step_governed db m db' : governed db → version_step db m db' → governed db'.
Proof.
  intros Hg Hst. split; [|by eapply step_settled]. destruct Hg as [Hl _].
  by destruct (step_lawful _ _ _ _ _ Hl Hst).
Qed.

(** A relation the steps respect, from a governed state on. *)
Lemma governance_ind (P : database → Prop) db qs :
  governed db → P db →
  (∀ db m db', governed db → P db → version_step db m db' →
     (m = None ∨ ∃ q, q ∈ qs ∧ m = moved_by (gq_op q)) → P db') →
  governed (governance db qs) ∧ P (governance db qs).
Proof.
  intros Hg H0 Hstep. apply (governance_keeps _ _ _ _ (λ db, governed db ∧ P db)); [|done].
  intros d q Hq [Hd Hp]. destruct (govern_step range1 range2 range marshal d q) as [Hst|Hst].
  - split; [by eapply step_governed|]. eapply Hstep; [done..|by left].
  - split; [by eapply step_governed|]. eapply Hstep; [done..|]. right. by exists q.
Qed.

(** C11. Whatever is asked for, in any order and with any failures: the versions of a code
    stay numbered from 1 on without a gap, a tenant has at most one active version of it,
    every version that is no draft has a configuration that was validated, and every case
    stays pinned to a version that is there and no draft. *)
Theorem versions_stay_governed db qs : governed db → governed (governance db qs).
Proof. intros Hg. by apply (governance_ind (λ _, True)). Qed.

(** C13. Over any history a version keeps its identity; its configuration changes only while
    it is a draft, its status only from DRAFT to ACTIVE to DEPRECATED, and each such change,
    as each new version, has its entry in the audit trail, which only grows.  Entries about
    failed validations are never added: they are rolled back with the activation. *)
Theorem history_is_recorded db qs :
  governed db →
  recorded (case_types db) (case_type_audit db)
    (case_types (governance db qs)) (case_type_audit (governance db qs)).
Proof.
  intros Hg. apply (governance_ind (λ db', recorded (case_types db) (case_type_audit db)
    (case_types db') (case_type_audit db'))); [done|apply recorded_refl|].
  intros d m d' [Hl _] Hr Hst _. eapply recorded_trans; [done|]. by apply step_lawful in Hst as [_ ?].
Qed.

(** *** The configuration of a case *)

Lemma evolved_get es rows l new id r :
  Forall2 (evolves es) rows l → sql_get (of_version id) rows = Ok r →
  ∃ r', sql_get (of_version id) (l ++ new) = Ok r' ∧ evolves es r r'.
Proof.
  unfold sql_get. induction 1 as [|a b rows l Hab F IH]; [done|]. cbn.
  destruct (identity_fields _ _ (ev_identity _ _ _ Hab)) as (E & _).
  change (of_version id b) with (ct_id b =?s id). change (of_version id a) with (ct_id a =?s id).
  rewrite E. destruct (ct_id a =?s id); [|exact IH]. intros [= <-]. by exists b.
Qed.

Lemma resolve_reliable busy caseID db :
  ResolveCaseTypeConfig (reliable busy) caseID db =
    (_ ← required (TrimSpace caseID) "caseID is required";
     p ← pinned_case (TrimSpace caseID) db; Ok (ct_config p.2), db).
Proof.
  unfold ResolveCaseTypeConfig. destruct (required _ _) as [[]|e]; [|done].
  unfold on_pool. cbn. by destruct (pinned_case _ db) as [p|[]].
Qed.

Definition config_of (caseID : string) (db : database) : result CaseTypeConfig :=
  p ← pinned_case caseID db; Ok (ct_config p.2).

Lemma step_config db m db' caseID config :
  governed db → version_step db m db' → m ≠ Some caseID →
  config_of caseID db = Ok config → config_of caseID db' = Ok config.
Proof.
  intros [Hl Hs] Hst Hm. unfold config_of.
  destruct (pinned_case caseID db) as [[c r]|] eqn:Hp; cbn; [|done]. intros [= <-].
  apply pinned_case_Ok in Hp as (Hc & Hid & Hr).
  assert (Hc' : sql_get (by_id c_id caseID) (cases db') = Ok c).
  { destruct (step_frame _ _ _ Hst) as [_ [[-> _]|(c0 & to & -> & _ & _ & _ & ->)]]; [done|].
    change (by_id c_id caseID) with (λ r, c_id r =?s caseID) in Hc |- *.
    rewrite (sql_get_update c_id) by done. rewrite Hc. cbn.
    unfold by_id. rewrite Hid. destruct (String.eqb_spec caseID (c_id c0)); [congruence|done]. }
  destruct (step_lawful _ _ _ _ _ Hl Hst) as [_ (l & new & es & E & _ & F & _)].
  destruct (evolved_get es _ l new _ _ F Hr) as (r' & Hr' & Hev).
  unfold pinned_case. rewrite Hc'. cbn. rewrite E, Hr'. cbn. f_equal.
  destruct (ev_config _ _ _ Hev) as [|[Hd _]]; [done|]. exfalso.
  apply sql_get_Ok in Hc as [Hc _]. destruct (Hs c Hc) as (v & Hv & Hvid & Hvd).
  apply get_version in Hr as [Hr Hrid]. rewrite <- Hvid in Hrid.
  by rewrite (lawful_same range1 range2 (case_types db) r v) in Hd.
Qed.

(** C12. The configuration a case works with does not change, whatever is drafted,
    activated, deprecated or migrated, until this case is migrated itself. *)
Theorem configuration_is_pinned db qs busy caseID config :
  governed db → ResolveCaseTypeConfig (reliable busy) caseID db = (Ok config, db) →
  (∀ q, q ∈ qs → moved_by (gq_op q) ≠ Some (TrimSpace caseID)) →
  ResolveCaseTypeConfig (reliable busy) caseID (governance db qs) = (Ok config, governance db qs).
Proof.
  intros Hg Hr Hq. rewrite resolve_reliable in *. injection Hr as Hr.
  destruct (required _ _) as [u|e]; [|done].
  destruct (governance_ind (λ db, config_of (TrimSpace caseID) db = Ok config) db qs) as [_ Hc].
  - done.
  - exact Hr.
  - intros d m d' Hd Hp Hst Hm. apply (step_config d m); [done..| |done].
    destruct Hm as [->|(q & Hin & ->)]; [done|by apply Hq].
  - unfold config_of in Hc. cbn [mbind result_bind] in *. by rewrite Hc.
Qed.
End Governed.

(** ** Drafts that stay drafts, and versions that stay active *)

Section Stuck.
Context (range1 range2 : gmap string string → list (string * string)).
Context (Hrange1 : ∀ m, range1 m ≡ₚ map_to_list m) (Hrange2 : ∀ m, range2 m ≡ₚ map_to_list m).
Context (range : ∀ V : Type, gmap string V → list (string * V)).
Context (marshal : TaskDefinitionV2 → result string).
Notation lawful := (lawful range1 range2).
Notation governed := (governed range1 range2).
Notation version_step := (version_step range1 range2).
Notation governance := (governance range1 range2 range marshal).

Lemma unmaterialized_none_activities i s acts : ∀ j vs,
  length (indexed (unmaterialized_activity [] i s) j acts vs) = (length vs + length acts)%nat.
Proof.
  induction acts as [|a acts IH]; intros j vs; cbn; [lia|].
  rewrite IH. unfold unmaterialized_activity. replace (str_mem _ []) with false by done.
  rewrite length_app. cbn. lia.
Qed.

(** Without materialised activities a configuration with an activity does not pass. *)
Lemma unmaterialized_none config :
  unmaterialized [] config = [] → ∀ s, s ∈ cfg_stages config → sd_activities s = [].
Proof.
  unfold unmaterialized.
  assert (H : ∀ stages i vs, (length vs + length (flat_map sd_activities stages))%nat =
    length (indexed (λ i s, indexed (unmaterialized_activity [] i s) 0 (sd_activities s)) i stages vs)).
  { induction stages as [|s stages IH]; intros i vs; cbn; [lia|].
    rewrite <- IH, unmaterialized_none_activities, length_app. lia. }
  intros E s Hs. specialize (H (cfg_stages config) 0 []). rewrite E in H. cbn in H.
  destruct (sd_activities s) as [|a acts] eqn:Ea; [done|]. exfalso.
  assert (a ∈ flat_map sd_activities (cfg_stages config)) as Ha.
  { apply list_elem_of_In, in_flat_map. exists s. rewrite Ea, <- list_elem_of_In. split; [done|by left]. }
  by destruct (flat_map _ _); [apply elem_of_nil in Ha|].
Qed.

Lemma activatable_materialized db t : activatable range1 range2 db t →
  ∃ a, a ∈ activity_defs db ∧ af_case_type_id a = ct_id t.
Proof.
  intros [_ Hv Ha]. destruct (valid_has_activity range1 range2 Hrange1 Hrange2 _ Hv) as (s & Hs & Hne).
  unfold materialized in Ha. destruct (sql_select _ _) as [|a l] eqn:E.
  - by destruct Hne; apply (unmaterialized_none _ Ha).
  - exists a. assert (Hin : a ∈ sql_select (λ a, (af_case_type_id a =?s ct_id t) &&
      (af_case_type_version a =? ct_version t)) (activity_defs db)) by (rewrite E; by left).
    apply sql_select_elem in Hin as [Hin Hp]. bool_simpl. by apply String.eqb_eq in H.
Qed.

(** The versions after a step: those of before, and drafts. *)
Definition from_old (db : database) (r' : case_type_row) : Prop :=
  ∃ r, r ∈ case_types db ∧ identity r' = identity r ∧
    (ct_status r' = ct_status r ∨ ct_status r = "ACTIVE"%string ∨
     ∃ a, a ∈ activity_defs db ∧ af_case_type_id a = ct_id r).

Lemma updated_old id f db r' :
  (∀ r, identity (f r) = identity r) →
  (∀ r, r ∈ case_types db → ct_id r = id → ct_status (f r) = ct_status r ∨
     ct_status r = "ACTIVE"%string ∨ ∃ a, a ∈ activity_defs db ∧ af_case_type_id a = ct_id r) →
  r' ∈ sql_update (of_version id) f (case_types db) → from_old db r'.
Proof.
  intros Hf Hs (r & Hr & ->)%sql_update_elem. exists r. split; [done|].
  destruct (of_version id r) eqn:E; [|by auto]. split; [apply Hf|]. apply Hs; [done|].
  by apply String.eqb_eq.
Qed.

Lemma step_versions db m db' r' :
  lawful (case_types db) → version_step db m db' → r' ∈ case_types db' →
  from_old db r' ∨
  ct_status r' = "DRAFT"%string ∧ ct_tenant_id r' = None ∧ upper (ct_code r') = ct_code r'.
Proof.
  intros Hl Hst. assert (Hself : ∀ r, r ∈ case_types db → from_old db r).
  { intros r Hr. exists r. auto. }
  assert (Hret : ∀ env q by_whom r', q ∈ case_types db → ct_status q = "ACTIVE"%string →
    r' ∈ sql_update (of_version (ct_id q)) (deprecated (env := env) by_whom) (case_types db) →
    from_old db r').
  { intros env q by_whom r1 Hq Hs. apply updated_old; [done|]. intros r Hr Hid. right. left.
    by rewrite (lawful_same range1 range2 (case_types db) r q). }
  destruct Hst; intros Hr';
    match goal with H : governs _ _ _ _ |- _ => apply governs_rows in H as (E1 & _); rewrite E1 in Hr' end.
  - apply elem_of_app in Hr' as [Hr'| ->%list_elem_of_singleton]; [left; auto|by right].
  - left. revert Hr'. apply updated_old; [done|by left].
  - left. apply sql_update_elem in Hr' as (r1 & Hr1 & ->).
    assert (H1' : from_old db r1).
    { destruct p as [q|]; cbn in Hr1; [|auto]. destruct H1 as (Hq & Hs & _).
      by eapply Hret. }
    destruct (of_version (ct_id t) r1) eqn:Et; [|done]. apply String.eqb_eq in Et.
    destruct H1' as (r & Hr & I & _). exists r. split; [done|]. split; [exact I|]. right. right.
    destruct (identity_fields _ _ I) as (<- & _). rewrite Et. by apply activatable_materialized.
  - left. rewrite (upper_status _ _ _ _ Hl) in H0 by done. exact (Hret _ t by_whom r' H H0 Hr').
  - left; auto.
  - left; auto.
Qed.

Lemma governance_defs db qs : activity_defs (governance db qs) = activity_defs db.
Proof.
  apply (governance_keeps _ _ _ _ (λ d, activity_defs d = activity_defs db)); [|done].
  intros d q _ <-. by destruct (govern_step range1 range2 range marshal d q) as [H|H];
    apply step_frame in H as [E _].
Qed.

(** C14. Nothing in the service writes [activity_definitions], and activating a version
    takes a row of that table for each of its activities.  A version the service drafts
    therefore stays a draft for ever: every attempt to activate it fails and changes
    nothing, whatever was done before. *)
Theorem created_drafts_are_never_activated db qs r :
  governed db → TrimSpace (ct_id r) = ct_id r →
  (∀ a, a ∈ activity_defs db → ∃ v, v ∈ case_types db ∧ ct_id v = af_case_type_id a) →
  r ∈ case_types (governance db qs) → (∀ v, v ∈ case_types db → ct_id v ≠ ct_id r) →
  ct_status r = "DRAFT"%string ∧
  ∀ env drv by_whom, ∃ e,
    ActivateCaseTypeVersion (env := env) range1 range2 range marshal drv (ct_id r) by_whom
      (governance db qs) = (Err e, governance db qs).
Proof.
  intros Hg Htrim Hfk Hr Hnew.
  destruct (governance_ind range1 range2 range marshal (λ d, activity_defs d = activity_defs db ∧
    ∀ r, r ∈ case_types d → (∀ v, v ∈ case_types db → ct_id v ≠ ct_id r) →
    ct_status r = "DRAFT"%string) db qs) as [_ [Hdefs Hdraft]].
  - done.
  - split; [done|]. intros v Hv Hn. by destruct (Hn v Hv).
  - intros d m d' [Hl _] [Hd Hp] Hst _. split; [by rewrite (proj1 (step_frame _ _ _ _ _ Hst))|].
    intros r' Hr' Hn. destruct (step_versions _ _ _ _ Hl Hst Hr') as [(r0 & Hr0 & I & Hs)|[? _]]; [|done].
    destruct (identity_fields _ _ I) as (Ei & _). rewrite Ei in Hn. specialize (Hp r0 Hr0 Hn).
    destruct Hs as [->|[Hs|(a & Ha & Hid)]]; [done|by rewrite Hp in Hs|].
    rewrite Hd in Ha. destruct (Hfk a Ha) as (v & Hv & Hvid). destruct (Hn v Hv). by rewrite Hvid, Hid.
  - split; [by apply Hdraft|]. intros env drv by_whom.
    destruct (ActivateCaseTypeVersion _ _ _ _ _ _ _ _) as [[u|e] db'] eqn:E.
    + exfalso. unfold ActivateCaseTypeVersion in E. apply then_tx_Ok in E as (a & d & [= Ha <-] & E).
      apply within_tx_commits, activate_commits in E as (t & p & es & e & Ht & Hav & _).
      apply get_version in Ht as [_ Ht]. rewrite !Htrim in Ht.
      apply activatable_materialized in Hav as (ad & Had & Hid). rewrite Hdefs in Had.
      destruct (Hfk ad Had) as (v & Hv & Hvid). destruct (Hnew v Hv). by rewrite Hvid, Hid.
    + exists e. f_equal. exact (then_tx_Err _ _ _ _ _ E).
Qed.

(** An active version can be deprecated only when another one of its code is active,
    and without versions of single tenants there is none: then nobody can ever deprecate a
    version but by activating its successor, after whatever history. *)
Theorem no_version_can_be_deprecated db qs env drv id by_whom :
  governed db →
  (∀ r, r ∈ case_types db → ct_tenant_id r = None ∧ upper (ct_code r) = ct_code r) →
  ∃ e, DeprecateCaseTypeVersion (env := env) drv id by_whom (governance db qs) =
       (Err e, governance db qs).
Proof.
  intros Hg Hrows.
  destruct (governance_ind range1 range2 range marshal (λ d, ∀ r, r ∈ case_types d →
    ct_tenant_id r = None ∧ upper (ct_code r) = ct_code r) db qs) as [[Hl _] Hrows'].
  - done.
  - exact Hrows.
  - intros d m d' [Hl _] Hp Hst _ r' Hr'.
    destruct (step_versions _ _ _ _ Hl Hst Hr') as [(r0 & Hr0 & I & _)|(_ & ? & ?)]; [|done].
    destruct (identity_fields _ _ I) as (_ & -> & _ & ->). by apply Hp.
  - destruct (DeprecateCaseTypeVersion _ _ _ _) as [[u|e] db'] eqn:E.
    + exfalso. unfold DeprecateCaseTypeVersion in E. apply then_tx_Ok in E as (a & d & [= Ha <-] & E).
      apply within_tx_commits, deprecation_commits in E
        as (t & r & e & Hne & Ht & Hs & Hr & Hact & _). apply get_version in Ht as [Ht Hid].
      rewrite (upper_status _ _ _ _ Hl Ht) in Hs. destruct (Hrows' t Ht) as [Et1 Et2].
      destruct (Hrows' r Hr) as [Er1 _]. unfold active_other in Hact. rewrite Et2 in Hact.
      bool_simpl. apply String.eqb_eq in H, H1.
      assert (t = r) as ->.
      { apply (lw_active _ _ _ Hl t r Ht Hr). unfold both_active, tenant_or_default.
        by rewrite Hs, H, H1, Et1, Er1, !String.eqb_refl. }
      rewrite String.eqb_refl, orb_false_r, Hid, TrimSpace_idem in H0. by apply String.eqb_eq in H0.
    + exists e. f_equal. exact (then_tx_Err _ _ _ _ _ E).
Qed.
End Stuck.

(** ** On concrete data *)

(** LOAN has an active version and a draft, both with their activities; a case is pinned to
    the first. *)
Definition loan (stage : string) : CaseTypeConfig := two_stages stage "".
Definition activity_rows (version : string) (n : Z) : list activity_row :=
  [ {| af_case_type_id := version; af_case_type_version := n; af_stage_code := "intake";
       af_activity_code := "APPLY" |};
    {| af_case_type_id := version; af_case_type_version := n; af_stage_code := "REVIEW";
       af_activity_code := "CHECK" |} ].
Definition active_loan : case_type_row := blank_case_type "v1" "LOAN" 1 (loan "INTAKE").
Definition draft_loan : case_type_row :=
  blank_case_type "v2" "LOAN" 2 (loan "") <| ct_status := "DRAFT" |>.
Definition office : database :=
  empty_db
    <| case_types := [active_loan; draft_loan] |>
    <| activity_defs := activity_rows "v1" 1 ++ activity_rows "v2" 2 |>
    <| cases := [ blank_case "case-1" "IN_PROGRESS" <| c_case_type_id := "v1" |> ] |>.

Definition in_office (op : governance_op) : governance_request :=
  {| gq_env := sample_env case_statuses_35; gq_driver := reliable false; gq_op := op |}.
(** The draft is changed to something that does not pass, and once more, and takes the place
    of the first version; another one is drafted and changed, and cannot be activated. *)
Definition office_day : list governance_request := map in_office
  [ OpUpdateDraft "v2" (loan "REVIEW") "ann"; OpActivate "v2" "ann"; OpUpdateDraft "v2" (loan "INTAKE") "ann";
    OpActivate "v2" "ann"; OpCreateDraft " loan " "Loan" "" (loan "") "bob";
    OpActivate "uuid-1" "bob"; OpUpdateDraft "uuid-1" (loan "INTAKE") "bob"; OpActivate "v1" "bob" ].
Notation history_of := (governance map_to_list map_to_list in_order some_text).
Notation governed_office := (governed map_to_list map_to_list).
Definition range_ok (m : gmap string string) : map_to_list m ≡ₚ map_to_list m := reflexivity _.

Lemma office_governed : governed_office office.
Proof.
  assert (Hrow : ∀ r, r ∈ case_types office → r = active_loan ∨ r = draft_loan).
  { intros r [->|[->|Hr%elem_of_nil]%elem_of_cons]%elem_of_cons; auto; done. }
  split; [split|].
  - cbn. apply NoDup_cons. split; [|apply NoDup_singleton]. by intros Hx%list_elem_of_singleton.
  - by intros r [-> | ->]%Hrow.
  - intros code. destruct (decide (code = "LOAN"%string)) as [->|Hne]; [vm_compute; reflexivity|].
    assert (sql_select (of_code code) (case_types office) = []) as ->; [|done].
    assert (E : ("LOAN" =?s code) = false) by (apply String.eqb_neq; congruence).
    cbn -[String.eqb]. unfold of_code. cbn -[String.eqb]. by rewrite !E.
  - intros r r' [-> | ->]%Hrow [-> | ->]%Hrow Hb;
      first [reflexivity|vm_compute in Hb; discriminate Hb].
  - intros r [-> | ->]%Hrow Hd; [vm_compute; reflexivity|done].
  - intros c ->%list_elem_of_singleton. exists active_loan.
    split; [by left|done].
Qed.

Lemma versions_stay_governed_witness :
  map ct_status (case_types (history_of office office_day)) = ["DEPRECATED"; "ACTIVE"; "DRAFT"]%string ∧
  governed_office (history_of office office_day).
Proof.
  split; [vm_compute; reflexivity|].
  exact (versions_stay_governed map_to_list map_to_list in_order some_text office office_day
           office_governed).
Defined.

(** The two activations that fail leave no entry. *)
Lemma history_is_recorded_witness :
  map ca_action (case_type_audit (history_of office office_day)) =
    ["CONFIG_UPDATED"; "CONFIG_UPDATED"; "DEPRECATED"; "ACTIVATED"; "CREATED"; "CONFIG_UPDATED"]%string ∧
  recorded (case_types office) (case_type_audit office) (case_types (history_of office office_day))
    (case_type_audit (history_of office office_day)).
Proof.
  split; [vm_compute; reflexivity|].
  exact (history_is_recorded map_to_list map_to_list in_order some_text office office_day
           office_governed).
Defined.

(** The case goes on with the first version; migrated, it works with the second. *)
Lemma configuration_is_pinned_witness :
  ResolveCaseTypeConfig (reliable true) "case-1" (history_of office office_day) =
    (Ok (loan "INTAKE"), history_of office office_day) ∧
  map c_case_type_id (cases (history_of office (office_day ++ [in_office (OpMigrate "case-1" "ann")]))) =
    ["v2"%string].
Proof.
  split; [|vm_compute; reflexivity].
  apply (configuration_is_pinned map_to_list map_to_list in_order some_text office office_day true
           "case-1" (loan "INTAKE") office_governed).
  - vm_compute. reflexivity.
  - intros q Hq. unfold office_day in Hq. cbn in Hq.
    repeat (apply elem_of_cons in Hq as [->|Hq]; [done|]). by apply elem_of_nil in Hq.
Defined.

Definition drafted : case_type_row :=
  draft_row "LOAN" 3 "Loan" None (loan "INTAKE") "uuid-1".

Lemma created_drafts_are_never_activated_witness :
  drafted ∈ case_types (history_of office office_day) ∧
  ∃ e, ActivateCaseTypeVersion (env := sample_env case_statuses_35) map_to_list map_to_list in_order
         some_text (reliable false) "uuid-1" "bob" (history_of office office_day) =
       (Err e, history_of office office_day).
Proof.
  assert (Hin : drafted ∈ case_types (history_of office office_day)).
  { assert (E : case_types (history_of office office_day) !! 2%nat = Some drafted)
      by (vm_compute; reflexivity). by apply list_elem_of_lookup_2 in E. }
  split; [done|].
  apply (created_drafts_are_never_activated map_to_list map_to_list range_ok range_ok in_order
           some_text office office_day drafted office_governed); [done| |done|].
  - intros a Ha. cbn in Ha.
    repeat (apply elem_of_cons in Ha as [->|Ha];
      [first [ exists active_loan; split; [by left|reflexivity]
             | exists draft_loan; split; [by right; left|reflexivity] ]|]).
    by apply elem_of_nil in Ha.
  - intros v Hv. cbn in Hv. repeat (apply elem_of_cons in Hv as [->|Hv]; [done|]).
    by apply elem_of_nil in Hv.
Defined.

Lemma no_version_can_be_deprecated_witness :
  ∃ e, DeprecateCaseTypeVersion (env := sample_env case_statuses_35) (reliable false) "v2" "ann"
         (history_of office office_day) = (Err e, history_of office office_day).
Proof.
  apply (no_version_can_be_deprecated map_to_list map_to_list range_ok range_ok in_order some_text
           office office_day (sample_env case_statuses_35) (reliable false) "v2" "ann" office_governed).
  intros r Hr. cbn in Hr. repeat (apply elem_of_cons in Hr as [->|Hr]; [by split; vm_compute|]).
  by apply elem_of_nil in Hr.
Defined.

(** A version of a single tenant does away with the one all share. *)
Example other_tenants_version_is_deprecated :
  let shop := office <| case_types ::= λ l, l ++
    [ blank_case_type "v3" "LOAN" 3 (loan "INTAKE") <| ct_tenant_id := Some "acme" |> ] |> in
  map ct_status (case_types (history_of shop (map in_office [OpUpdateDraft "v2" (loan "INTAKE") "ann"; OpActivate "v2" "ann"]))) =
    ["ACTIVE"; "DRAFT"; "ACTIVE"]%string ∧
  map ct_status (case_types (history_of shop (map in_office [OpDeprecate "v1" "ann"]))) =
    ["DEPRECATED"; "DRAFT"; "ACTIVE"]%string.
Proof. vm_compute. split; reflexivity. Qed.
