(* ===== verification/CircuitBreaker.v ===== *)
(** * The circuit breaker of a notification channel

    [internal/notification/circuit_breaker.go] with the publication of
    [internal/notification/events.go]: one row of [circuit_breaker_state] per
    channel, [CheckState] on a transaction of its own, [RecordSuccess] and
    [RecordFailure] on that of the dispatcher.

    The specification is a machine with three phases ([step]); [breaker_refines]
    shows that every committed operation takes one step of it, and the theorems
    about histories follow the machine over sequences of transactions, each with
    its own clock and its own failures. *)

From Stdlib Require Import Ascii String ZArith Lia SpecFloat.
From stdpp Require Import base list strings.
From S2P Require Import Prelude Float64 SqlTx ApprovalExpr CaseConfig Schema Outbox.

Open Scope Z_scope.
Open Scope go_scope.

(** ** The breaker *)

Record CircuitBreaker := {
  thresholdFailures : Z; cooldownDuration : Z; halfOpenAttempts : Z;
}.

Definition NewCircuitBreaker (threshold cooldown attempts : Z) : CircuitBreaker :=
  {| thresholdFailures := if threshold <=? 0 then 10 else threshold;
     cooldownDuration := if cooldown <=? 0 then 5 * Minute else cooldown;
     halfOpenAttempts := if attempts <=? 0 then 3 else attempts |}.

(** [t.Sub(u)]: a difference out of range saturates. *)
Definition Sub (t u : Z) : Z := Z.max int64_min (Z.min int64_max (t - u)).

(** [int(d.Seconds())]: [Seconds] adds the whole seconds and the fraction in
    float64. *)
Definition Seconds (d : Z) : float64 :=
  SFadd prec64 emax64 (of_int (Z.quot d Second)) (fdiv (of_int (Z.rem d Second)) (of_int 1000000000)).

Definition normalized_channel (channel : string) : string := ToUpper (TrimSpace channel).

Section Operations.
Context `{Env} (cb : CircuitBreaker).

Definition cooldown_seconds : Z := trunc (Seconds (cooldownDuration cb)).

Definition with_defaults (b : breaker_row) : breaker_row :=
  b <| cb_threshold_failures ::= λ n, if n <=? 0 then thresholdFailures cb else n |>
    <| cb_cooldown_seconds ::= λ n, if n <=? 0 then cooldown_seconds else n |>.

Definition new_breaker (channel : string) : breaker_row :=
  {| cb_channel := channel; cb_state := "CLOSED"; cb_failure_count := 0; cb_success_count := 0;
     cb_last_failure_at := None; cb_opened_at := None; cb_half_open_at := None;
     cb_threshold_failures := thresholdFailures cb; cb_cooldown_seconds := cooldown_seconds |}.

Definition same_channel (b b' : breaker_row) : bool := cb_channel b =?s cb_channel b'.

Definition ensureAndLockState (channel : string) : Tx database breaker_row :=
  let load := get_in breakers (by_id cb_channel channel) in
  r ← tx_attempt load;
  match r with
  | Ok snapshot => mret (with_defaults snapshot)
  | Err ErrNoRows =>
      _ ← insert_in breakers breaker_check same_channel (new_breaker channel);
      load
  | Err e => throw e
  end.

Definition updateStateRow (channel state : string) (failureCount successCount : Z)
    (lastFailure openedAt halfOpenAt : option Z) : Tx database unit :=
  _ ← update_in breakers breaker_check (by_id cb_channel channel)
        (λ b, b <| cb_state := state |> <| cb_failure_count := failureCount |>
                <| cb_success_count := successCount |> <| cb_last_failure_at := lastFailure |>
                <| cb_opened_at := openedAt |> <| cb_half_open_at := halfOpenAt |>);
  mret tt.

(** [notification.PublishEvent] *)
Definition notification_PublishEvent (event : event_row) : Tx database unit :=
  if ev_type event =?s "" then throw (ErrMsg "event type is required")
  else
    let event := event <| ev_status ::= λ s, orElse s "PENDING" |>
                       <| ev_target_service ::= λ s, orElse s "notification-service" |>
                       <| ev_max_attempts ::= λ n, if n =? 0 then 5 else n |> in
    let event := PrepareEventForPublish env_ctx event in
    let event := event <| ev_partition_key ::= λ k, some_or k (ev_case_id event) |> in
    _ ← insert_event event;
    EnqueueWebhookDeliveries env_ctx (ev_tenant_id event) event.

Definition opened_event (channel : string) : event_row :=
  new_event "CIRCUIT_BREAKER_OPENED" None None
      [("channel", VString channel); ("reason", VString "threshold exceeded")]
    <| ev_target_service := "notification-service" |>.

Definition publishBreakerOpenedEvent (channel : string) : Tx database unit :=
  notification_PublishEvent (opened_event channel).

(** The transaction of [CheckState]. *)
Definition CheckState_tx (channel : string) : Tx database bool :=
  snapshot ← ensureAndLockState (normalized_channel channel);
  let now := env_clock in
  if cb_state snapshot =?s "OPEN" then
    match cb_opened_at snapshot with
    | Some openedAt =>
        if wrap64 (cb_cooldown_seconds snapshot * Second) <=? Sub now openedAt then
          _ ← updateStateRow (cb_channel snapshot) "HALF_OPEN" 0 0 (cb_last_failure_at snapshot)
                (Some now) (Some now);
          mret true
        else mret false
    | None => mret false
    end
  else mret true.

Definition CheckState (drv : driver) (channel : string) (db : database)
    : result bool * database :=
  if TrimSpace channel =?s "" then (Err (ErrMsg "channel is required"), db)
  else within_tx drv (CheckState_tx channel) db.

Definition RecordSuccess (channel : string) : Tx database unit :=
  if TrimSpace channel =?s "" then throw (ErrMsg "channel is required")
  else
    snapshot ← ensureAndLockState (normalized_channel channel);
    let now := env_clock in
    if cb_state snapshot =?s "HALF_OPEN" then
      let successCount := cb_success_count snapshot + 1 in
      if halfOpenAttempts cb <=? successCount then
        updateStateRow (cb_channel snapshot) "CLOSED" 0 0 None None None
      else
        updateStateRow (cb_channel snapshot) "HALF_OPEN" 0 successCount
          (cb_last_failure_at snapshot) (cb_opened_at snapshot) (cb_half_open_at snapshot)
    else if cb_state snapshot =?s "OPEN" then
      updateStateRow (cb_channel snapshot) "HALF_OPEN" 0 1 (cb_last_failure_at snapshot)
        (Some now) (Some now)
    else
      updateStateRow (cb_channel snapshot) "CLOSED" 0 (cb_success_count snapshot + 1)
        (cb_last_failure_at snapshot) (cb_opened_at snapshot) (cb_half_open_at snapshot).

(** The counts and the verdict of a failure on a loaded row. *)
Definition after_failure (threshold now : Z) (snapshot : breaker_row) : breaker_row * bool :=
  if cb_state snapshot =?s "HALF_OPEN" then
    (snapshot <| cb_failure_count := threshold |> <| cb_success_count := 0 |>, true)
  else if cb_state snapshot =?s "OPEN" then
    (snapshot <| cb_failure_count ::= Z.succ |>, false)
  else if cb_state snapshot =?s "CLOSED" then
    let recent := match cb_last_failure_at snapshot with
                  | Some t => Sub now t <=? Minute
                  | None => false
                  end in
    let failures := if recent then cb_failure_count snapshot + 1 else 1 in
    (snapshot <| cb_failure_count := failures |> <| cb_success_count := 0 |>,
     threshold <=? failures)
  else (snapshot, false).

Definition RecordFailure (channel : string) : Tx database unit :=
  if TrimSpace channel =?s "" then throw (ErrMsg "channel is required")
  else
    snapshot ← ensureAndLockState (normalized_channel channel);
    let now := env_clock in
    let threshold := if cb_threshold_failures snapshot <=? 0 then thresholdFailures cb
                     else cb_threshold_failures snapshot in
    let '(snapshot, openBreaker) := after_failure threshold now snapshot in
    _ ← updateStateRow (cb_channel snapshot)
          (if openBreaker then "OPEN" else cb_state snapshot)
          (cb_failure_count snapshot) (cb_success_count snapshot) (Some now)
          (if openBreaker then Some now else cb_opened_at snapshot)
          (if openBreaker then None else cb_half_open_at snapshot);
    when openBreaker (publishBreakerOpenedEvent (cb_channel snapshot)).

(** ** Operations in transactions of their own *)

Inductive breaker_op := OpCheck | OpSuccess | OpFailure.

Definition perform (drv : driver) (op : breaker_op) (channel : string) (db : database)
    : result bool * database :=
  match op with
  | OpCheck => CheckState drv channel db
  | OpSuccess => within_tx drv (_ ← RecordSuccess channel; mret true) db
  | OpFailure => within_tx drv (_ ← RecordFailure channel; mret true) db
  end.

End Operations.

(** ** The machine *)

(** [PClosed failures last], [POpen since], [PHalfOpen successes] *)
Inductive phase :=
  | PClosed (failures : Z) (last : option Z)
  | POpen (since : option Z)
  | PHalfOpen (successes : Z).

#[export] Instance phase_eq_dec : EqDecision phase.
Proof. solve_decision. Defined.

Record limits := { lim_threshold : Z; lim_attempts : Z; lim_cooldown : Z }.

Definition recent (now : Z) (last : option Z) : bool :=
  match last with Some t => now - t <=? Minute | None => false end.

(** The next phase, and whether a sender may go on. *)
Definition step (lim : limits) (now : Z) (op : breaker_op) (p : phase) : phase * bool :=
  match op, p with
  | OpCheck, POpen (Some since) =>
      if lim_cooldown lim <=? now - since then (PHalfOpen 0, true) else (p, false)
  | OpCheck, POpen None => (p, false)
  | OpCheck, _ => (p, true)
  | OpSuccess, PClosed _ last => (PClosed 0 last, true)
  | OpSuccess, POpen _ => (PHalfOpen 1, true)
  | OpSuccess, PHalfOpen k =>
      (if lim_attempts lim <=? k + 1 then PClosed 0 None else PHalfOpen (k + 1), true)
  | OpFailure, PClosed k last =>
      let k := if recent now last then k + 1 else 1 in
      (if lim_threshold lim <=? k then POpen (Some now) else PClosed k (Some now), true)
  | OpFailure, POpen since => (p, true)
  | OpFailure, PHalfOpen _ => (POpen (Some now), true)
  end.

Definition is_open (p : phase) : bool := match p with POpen _ => true | _ => false end.

(** A failure that opens the breaker. *)
Definition trips (lim : limits) (now : Z) (op : breaker_op) (p : phase) : bool :=
  match op with
  | OpFailure => negb (is_open p) && is_open (step lim now op p).1
  | _ => false
  end.

Definition row_phase (b : breaker_row) : phase :=
  if cb_state b =?s "OPEN" then POpen (cb_opened_at b)
  else if cb_state b =?s "HALF_OPEN" then PHalfOpen (cb_success_count b)
  else PClosed (cb_failure_count b) (cb_last_failure_at b).

(** The row of a channel; a channel without one is as good as closed. *)
Definition breaker_of (cb : CircuitBreaker) (channel : string) (db : database) : breaker_row :=
  match sql_get (by_id cb_channel channel) (breakers db) with
  | Ok b => b
  | Err _ => new_breaker cb channel
  end.

Definition phase_of (cb : CircuitBreaker) (channel : string) (db : database) : phase :=
  row_phase (breaker_of cb channel db).

Definition limits_of (cb : CircuitBreaker) (channel : string) (db : database) : limits :=
  let b := breaker_of cb channel db in
  {| lim_threshold := cb_threshold_failures b; lim_attempts := halfOpenAttempts cb;
     lim_cooldown := cb_cooldown_seconds b * Second |}.

Definition breakers_ok (db : database) : Prop :=
  Forall (λ b, breaker_check b = true) (breakers db).

(** ** Committed operations *)

Section Committed.
Context `{Env} (cb : CircuitBreaker).
Implicit Types (db : database) (ch : string) (b : breaker_row).

(** From [db] to [db'], the row of [ch] has become [b], and nothing else has
    changed. *)
Record touched (ch : string) (b : breaker_row) (db db' : database) : Prop := {
  touched_row : sql_get (by_id cb_channel ch) (breakers db') = Ok b;
  touched_ok : breakers_ok db';
  touched_others ch' : ch' ≠ ch →
    sql_get (by_id cb_channel ch') (breakers db') = sql_get (by_id cb_channel ch') (breakers db);
  touched_frame : db' = db <| breakers := breakers db' |>;
}.

Lemma touched_breaker_of ch b db db' : touched ch b db db' → breaker_of cb ch db' = b.
Proof. intros Ht. unfold breaker_of. by rewrite (touched_row _ _ _ _ Ht). Qed.

Lemma touched_channel ch b db db' : touched ch b db db' → cb_channel b = ch.
Proof. intros [[_ Hr]%sql_get_Ok _ _ _]. by apply String.eqb_eq. Qed.

Lemma touched_check ch b db db' : touched ch b db db' → breaker_check b = true.
Proof. intros [[Hr _]%sql_get_Ok Ho _ _]. by apply (proj1 (Forall_forall _ _) Ho). Qed.

Lemma breaker_check_positive b :
  breaker_check b = true →
  0 < cb_threshold_failures b < 2 ^ 31 ∧ 0 < cb_cooldown_seconds b < 2 ^ 31 ∧
  0 ≤ cb_failure_count b < 2 ^ 31 ∧ 0 ≤ cb_success_count b < 2 ^ 31.
Proof. unfold breaker_check. intros. bool_simpl. Z_tests. lia. Qed.

Lemma breaker_check_state b :
  breaker_check b = true →
  cb_state b = "CLOSED" ∨ cb_state b = "OPEN" ∨ cb_state b = "HALF_OPEN".
Proof.
  unfold breaker_check. intros. bool_simpl.
  assert (cb_state b ∈ ["CLOSED"; "OPEN"; "HALF_OPEN"]%string) as Hs by by apply str_mem_elem.
  rewrite !elem_of_cons, elem_of_nil in Hs. tauto.
Qed.

Lemma with_defaults_id b : breaker_check b = true → with_defaults cb b = b.
Proof.
  intros (Hn & Hc & _)%breaker_check_positive. destruct b. cbn in *. unfold with_defaults, upd. cbn.
  rewrite (proj2 (Z.leb_gt _ _)), (proj2 (Z.leb_gt _ _)) by lia. done.
Qed.

Lemma balanced_ensure ch : Balanced (ensureAndLockState cb ch).
Proof.
  unfold ensureAndLockState. cbv zeta. apply balanced_bind; [balance|].
  intros [b|[]]; balance.
Qed.
Lemma balanced_update_state ch st fc sc lf oa ha :
  Balanced (updateStateRow ch st fc sc lf oa ha).
Proof. unfold updateStateRow. balance. Qed.
#[local] Hint Resolve balanced_ensure balanced_update_state : balance.

Lemma sql_get_snoc ch (rows : list breaker_row) b :
  sql_get (by_id cb_channel ch) (rows ++ [b]) =
    match sql_get (by_id cb_channel ch) rows with
    | Ok r => Ok r
    | Err e => if cb_channel b =?s ch then Ok b else Err e
    end.
Proof.
  unfold sql_get. rewrite List.filter_app. cbn. unfold by_id at 2.
  destruct (List.filter _ rows); [|done]. by destruct (cb_channel b =?s ch).
Qed.

Lemma touched_refl ch b db :
  breakers_ok db → sql_get (by_id cb_channel ch) (breakers db) = Ok b → touched ch b db db.
Proof. intros. split; [done..|]. by destruct db. Qed.

(** [ensureAndLockState] answers the row of the channel, made if need be. *)
Lemma commits_ensure busy ch db b db1 :
  breakers_ok db → commits busy (ensureAndLockState cb ch) db = Some (b, db1) →
  b = breaker_of cb ch db ∧ touched ch b db db1.
Proof.
  intros Hok Hc. unfold ensureAndLockState in Hc. cbv zeta in Hc.
  rewrite commits_bind in Hc by balance. rewrite commits_attempt in Hc.
  unfold get_in, query in Hc. rewrite exec_stmt in Hc. unfold breaker_of.
  destruct (sql_get _ (breakers db)) as [b0|e] eqn:Eg.
  - assert (breaker_check b0 = true) as Hb.
    { apply (proj1 (Forall_forall _ _) Hok). by apply sql_get_Ok in Eg as [? _]. }
    rewrite commits_mret, with_defaults_id in Hc by done. injection Hc as <- <-.
    split; [done|]. by apply touched_refl.
  - pose proof (sql_get_Err _ _ _ Eg) as ->. rewrite commits_bind in Hc by balance.
    rewrite commits_insert in Hc. destruct (_ && _) eqn:Ec; [|done].
    apply andb_prop in Ec as [Hcheck _]. fold (query (λ db, sql_get (by_id cb_channel ch) (breakers db))) in Hc.
    rewrite commits_query in Hc. cbn in Hc. rewrite sql_get_snoc, Eg in Hc. cbn in Hc.
    rewrite string_eqb_refl in Hc. injection Hc as <- <-. split; [done|]. split; cbn.
    + rewrite sql_get_snoc, Eg. cbn. by rewrite string_eqb_refl.
    + apply Forall_app_2; [done|]. by constructor.
    + intros ch' Hne. rewrite sql_get_snoc.
      destruct (sql_get (by_id cb_channel ch') (breakers db)); [done|]. cbn. destruct (String.eqb_spec ch ch'); congruence.
    + done.
Qed.

(** The row after [updateStateRow]. *)
Definition updated (b : breaker_row) (st : string) (fc sc : Z) (lf oa ha : option Z)
    : breaker_row :=
  b <| cb_state := st |> <| cb_failure_count := fc |> <| cb_success_count := sc |>
    <| cb_last_failure_at := lf |> <| cb_opened_at := oa |> <| cb_half_open_at := ha |>.

Lemma commits_update_state busy ch b db db1 st fc sc lf oa ha u db2 :
  touched ch b db db1 →
  commits busy (updateStateRow (cb_channel b) st fc sc lf oa ha) db1 = Some (u, db2) →
  touched ch (updated b st fc sc lf oa ha) db db2.
Proof.
  intros Ht Hc. rewrite (touched_channel _ _ _ _ Ht) in Hc. destruct Ht as [Hr Hok Ho Hf].
  unfold updateStateRow in Hc. tx_step Hc. rewrite commits_update in Hc.
  destruct (forallb _ _) eqn:Hall; [|done]. rewrite commits_mret in Hc. injection Hc as _ <-.
  split; cbn.
  - unfold by_id in *. by rewrite sql_get_update, Hr by done; cbn; rewrite (proj2 (sql_get_Ok _ _ _ Hr)).
  - apply Forall_forall. intros x Hx. apply sql_update_elem in Hx as (x0 & Hx0 & ->).
    pose proof (proj1 (forallb_forall _ _) Hall x0 (proj1 (list_elem_of_In _ _) Hx0)) as Hp.
    pose proof (proj1 (Forall_forall _ _) Hok x0 Hx0) as Hx'. cbn in Hx'.
    cbn in Hp. destruct (by_id cb_channel ch x0); [exact Hp|exact Hx'].
  - intros ch' Hne. rewrite <- Ho by done. unfold by_id in *. rewrite sql_get_update by done.
    destruct (sql_get (λ r, cb_channel r =?s ch') (breakers db1)) as [x|e] eqn:E; [|done]. cbn.
    apply sql_get_Ok in E as [_ E]. apply String.eqb_eq in E.
    destruct (String.eqb_spec (cb_channel x) ch); congruence.
  - by rewrite Hf.
Qed.

(** ** Refinement *)

Lemma Sub_ge z t u : z ≤ int64_max → int64_min < z → (z <=? Sub t u) = (z <=? t - u).
Proof. unfold Sub. intros ??. apply eq_true_iff_eq. rewrite !Z.leb_le. lia. Qed.

Lemma Sub_le z t u : int64_min ≤ z → z < int64_max → (Sub t u <=? z) = (t - u <=? z).
Proof. unfold Sub. intros ??. apply eq_true_iff_eq. rewrite !Z.leb_le. lia. Qed.

Lemma cooldown_fits b :
  breaker_check b = true →
  0 < cb_cooldown_seconds b * Second < int64_max ∧
  wrap64 (cb_cooldown_seconds b * Second) = cb_cooldown_seconds b * Second.
Proof.
  intros (_ & Hc & _)%breaker_check_positive.
  assert (0 < cb_cooldown_seconds b * Second < int64_max) by (unfold Second, Millisecond, int64_max; lia).
  split; [done|]. apply wrap64_id. unfold in_int64, int64_min in *. lia.
Qed.

(** The row [notification_PublishEvent] writes. *)
Definition opened_row ch : event_row :=
  PrepareEventForPublish env_ctx (opened_event ch <| ev_max_attempts := 5 |>).

Lemma commits_publish_opened busy ch db :
  commits busy (publishBreakerOpenedEvent ch) db = Some (tt, outbox_with (opened_row ch) db).
Proof.
  unfold commits. unfold publishBreakerOpenedEvent, notification_PublishEvent. cbn [ev_type].
  change (ev_type (opened_event ch)) with "CIRCUIT_BREAKER_OPENED".
  change ("CIRCUIT_BREAKER_OPENED" =?s "") with false. cbv zeta iota.
  rewrite exec_bind, exec_insert_event by done.
  rewrite (exec_EnqueueWebhookDeliveries busy env_ctx (opened_row ch)); [done| |by vm_compute].
  apply (prepared_tenant env_ctx).
Qed.

(** What an operation on the machine says of the database. *)
Definition refines (op : breaker_op) ch db (a : bool) db' : Prop :=
  let lim := limits_of cb ch db in
  let p := phase_of cb ch db in
  step lim env_clock op p = (phase_of cb ch db', a) ∧
  limits_of cb ch db' = lim ∧
  (∀ ch', ch' ≠ ch → breaker_of cb ch' db' = breaker_of cb ch' db) ∧
  breakers_ok db' ∧
  db' = (if trips lim env_clock op p then outbox_with (opened_row ch) else id)
          (db <| breakers := breakers db' |>).

Lemma touched_refines op ch db a b b' db2 db' :
  b = breaker_of cb ch db → touched ch b' db db2 →
  step (limits_of cb ch db) env_clock op (row_phase b) = (row_phase b', a) →
  cb_threshold_failures b' = cb_threshold_failures b →
  cb_cooldown_seconds b' = cb_cooldown_seconds b →
  db' = (if trips (limits_of cb ch db) env_clock op (row_phase b)
         then outbox_with (opened_row ch) else id) db2 →
  refines op ch db a db'.
Proof.
  intros -> Ht Hs Hn Hc ->.
  assert (∀ ch', breaker_of cb ch' ((if trips (limits_of cb ch db) env_clock op
            (row_phase (breaker_of cb ch db)) then outbox_with (opened_row ch) else id) db2)
          = breaker_of cb ch' db2) as Hbr by (intros; by destruct (trips _ _ _ _)).
  unfold refines, phase_of. cbv zeta. rewrite Hbr.
  rewrite (touched_breaker_of _ _ _ _ Ht). split_and!.
  - done.
  - unfold limits_of. rewrite Hbr, (touched_breaker_of _ _ _ _ Ht), Hn, Hc. done.
  - intros ch' Hne. rewrite Hbr. unfold breaker_of. by rewrite (touched_others _ _ _ _ Ht).
  - pose proof (touched_ok _ _ _ _ Ht). by destruct (trips _ _ _ _).
  - rewrite (touched_frame _ _ _ _ Ht) at 1. by destruct (trips _ _ _ _).
Qed.

Lemma row_phase_cases b :
  breaker_check b = true →
  cb_state b = "CLOSED" ∧ row_phase b = PClosed (cb_failure_count b) (cb_last_failure_at b)
  ∨ cb_state b = "OPEN" ∧ row_phase b = POpen (cb_opened_at b)
  ∨ cb_state b = "HALF_OPEN" ∧ row_phase b = PHalfOpen (cb_success_count b).
Proof. intros [E|[E|E]]%breaker_check_state; unfold row_phase; rewrite E; tauto. Qed.

Lemma check_refines busy channel db a db' :
  breakers_ok db → commits busy (CheckState_tx cb channel) db = Some (a, db') →
  refines OpCheck (normalized_channel channel) db a db'.
Proof.
  intros Hok Hc. unfold CheckState_tx in Hc. set (ch := normalized_channel channel) in *.
  tx_step Hc. destruct (commits _ (ensureAndLockState _ _) _) as [[b db1]|] eqn:Ee; [|done].
  apply commits_ensure in Ee as [Hb Ht]; [|done]. cbv zeta in Hc.
  pose proof (touched_check _ _ _ _ Ht) as Hck.
  destruct (cooldown_fits b Hck) as [Hcd Hw].
  assert (lim_cooldown (limits_of cb ch db) = cb_cooldown_seconds b * Second) as Hl by by rewrite Hb.
  destruct (row_phase_cases b Hck) as [[E Hp]|[[E Hp]|[E Hp]]]; rewrite E in Hc; cbn [String.eqb Ascii.eqb Bool.eqb] in Hc.
  - injection Hc as <- <-. eapply touched_refines; [done..| |done|done|]; by rewrite Hp.
  - destruct (cb_opened_at b) as [t|] eqn:Eo.
    + rewrite Hw, Sub_ge in Hc by (unfold int64_max, int64_min in *; lia).
      destruct (_ <=? _) eqn:Ele.
      * tx_step Hc. destruct (commits _ (updateStateRow _ _ _ _ _ _ _) _) as [[u db2]|] eqn:Eu; [|done].
        injection Hc as <- <-.
        eapply touched_refines; [done|by eapply commits_update_state| |done|done|]; rewrite Hp; [|done].
        cbn [step]. by rewrite Hl, Ele.
      * injection Hc as <- <-. eapply touched_refines; [done..| |done|done|]; rewrite Hp; [|done].
        cbn [step]. by rewrite Hl, Ele.
    + injection Hc as <- <-. eapply touched_refines; [done..| |done|done|]; by rewrite Hp.
  - injection Hc as <- <-. eapply touched_refines; [done..| |done|done|]; by rewrite Hp.
Qed.

Lemma success_refines busy channel db u db' :
  breakers_ok db → commits busy (RecordSuccess cb channel) db = Some (u, db') →
  refines OpSuccess (normalized_channel channel) db true db'.
Proof.
  intros Hok Hc. unfold RecordSuccess in Hc. set (ch := normalized_channel channel) in *.
  destruct (TrimSpace channel =?s ""); [done|].
  tx_step Hc. destruct (commits _ (ensureAndLockState _ _) _) as [[b db1]|] eqn:Ee; [|done].
  apply commits_ensure in Ee as [Hb Ht]; [|done]. cbv zeta in Hc.
  pose proof (touched_check _ _ _ _ Ht) as Hck.
  destruct (row_phase_cases b Hck) as [[E Hp]|[[E Hp]|[E Hp]]]; rewrite E in Hc;
    cbn [String.eqb Ascii.eqb Bool.eqb] in Hc.
  - eapply touched_refines; [done|by eapply commits_update_state| |done|done|]; by rewrite Hp.
  - eapply touched_refines; [done|by eapply commits_update_state| |done|done|]; by rewrite Hp.
  - destruct (halfOpenAttempts cb <=? _) eqn:Ele;
      (eapply touched_refines; [done|by eapply commits_update_state| |done|done|];
       rewrite Hp; [|done]); cbn [step]; cbn [lim_attempts limits_of]; by rewrite Ele.
Qed.

(** What [after_failure] answers, against the machine. *)
Lemma after_failure_step lim b now b' opened :
  breaker_check b = true → lim_threshold lim = cb_threshold_failures b →
  after_failure (cb_threshold_failures b) now b = (b', opened) →
  cb_channel b' = cb_channel b ∧ cb_state b' = cb_state b ∧ cb_opened_at b' = cb_opened_at b ∧
  step lim now OpFailure (row_phase b) =
    (row_phase (updated b (if opened then "OPEN" else cb_state b) (cb_failure_count b')
       (cb_success_count b') (Some now) (if opened then Some now else cb_opened_at b)
       (if opened then None else cb_half_open_at b)), true) ∧
  trips lim now OpFailure (row_phase b) = opened.
Proof.
  intros Hck Hl. unfold after_failure.
  destruct (row_phase_cases b Hck) as [[E Hp]|[[E Hp]|[E Hp]]]; rewrite Hp, E;
    cbn [String.eqb Ascii.eqb Bool.eqb]; intros [= <- <-]; split_and!; try done.
  1: cbn [step recent]; rewrite Hl.
  2: cbn [trips is_open negb andb step recent]; rewrite Hl.
  all: destruct (cb_last_failure_at b) as [t|]; cbn [recent];
    rewrite ?Sub_le by (unfold int64_min, int64_max, Minute, Second, Millisecond; lia);
    cbn [cb_failure_count]; destruct (_ <=? _) eqn:E1; cbn; unfold row_phase; cbn; try done.
  all: try by rewrite ?E.
  all: destruct (_ <=? _); cbn; by rewrite ?E.
Qed.

Lemma balanced_enqueue ctx t event : Balanced (EnqueueWebhookDeliveries ctx t event).
Proof. unfold EnqueueWebhookDeliveries. balance. Qed.
#[local] Hint Resolve balanced_enqueue : balance.

Lemma balanced_opened ch : Balanced (publishBreakerOpenedEvent ch).
Proof.
  unfold publishBreakerOpenedEvent, notification_PublishEvent, insert_event. balance.
Qed.
#[local] Hint Resolve balanced_opened : balance.

Lemma failure_refines busy channel db u db' :
  breakers_ok db → commits busy (RecordFailure cb channel) db = Some (u, db') →
  refines OpFailure (normalized_channel channel) db true db'.
Proof.
  intros Hok Hc. unfold RecordFailure in Hc. set (ch := normalized_channel channel) in *.
  destruct (TrimSpace channel =?s ""); [done|].
  tx_step Hc. destruct (commits _ (ensureAndLockState _ _) _) as [[b db1]|] eqn:Ee; [|done].
  apply commits_ensure in Ee as [Hb Ht]; [|done]. cbv zeta in Hc.
  pose proof (touched_check _ _ _ _ Ht) as Hck.
  destruct (breaker_check_positive b Hck) as [Hn _].
  rewrite (proj2 (Z.leb_gt _ _)) in Hc by lia.
  destruct (after_failure _ _ _) as [b' opened] eqn:Ea.
  apply (after_failure_step (limits_of cb ch db)) in Ea as (E1 & E2 & E3 & Hs & Htr);
    [|done|by rewrite Hb].
  rewrite E1, E2, E3 in Hc.
  tx_step Hc. destruct (commits _ (updateStateRow _ _ _ _ _ _ _) _) as [[? db2]|] eqn:Eu; [|done].
  eapply touched_refines; [done|by eapply commits_update_state|by rewrite Hs| done|done|].
  rewrite Htr. destruct opened; cbn [when] in Hc.
  - rewrite commits_publish_opened in Hc. rewrite (touched_channel _ _ _ _ Ht) in Hc.
    by injection Hc as _ <-.
  - by injection Hc as _ <-.
Qed.

(** A committed operation is a step of the machine. *)
Lemma perform_refines drv op channel db a db' :
  breakers_ok db → perform cb drv op channel db = (Ok a, db') →
  refines op (normalized_channel channel) db a db'.
Proof.
  intros Hok. destruct op; cbn [perform].
  - unfold CheckState. destruct (TrimSpace channel =?s ""); [done|].
    intros H1%within_tx_commits. by eapply check_refines.
  - intros H1%within_tx_commits. rewrite commits_bind in H1.
    + destruct (commits _ _ _) as [[u db1]|] eqn:E; [|done]. injection H1 as <- <-.
      by eapply success_refines.
    + unfold RecordSuccess. cbv zeta. balance.
  - intros H1%within_tx_commits. rewrite commits_bind in H1.
    + destruct (commits _ _ _) as [[u db1]|] eqn:E; [|done]. injection H1 as <- <-.
      by eapply failure_refines.
    + unfold RecordFailure. cbv zeta. balance.
Qed.

Lemma perform_failed drv op channel db e db' :
  perform cb drv op channel db = (Err e, db') → db' = db.
Proof.
  destruct op; cbn [perform]; [unfold CheckState; destruct (_ =?s _); [by intros [= _ <-]|]|..];
    apply within_tx_rollback.
Qed.

(** C38. The breaker is the machine [step]: an operation on a channel whose
    transaction commits, whatever fails on the way, takes the phase of the channel
    one step, answers what the machine answers, leaves the limits of the channel and
    every other channel as they were, and announces the opening of the breaker in
    the outbox exactly when the step opens it; one that fails changes nothing. *)
Theorem breaker_refines drv op channel db r db' :
  breakers_ok db → perform cb drv op channel db = (r, db') →
  match r with
  | Ok a => refines op (normalized_channel channel) db a db'
  | Err _ => db' = db
  end.
Proof.
  intros Hok Hp. destruct r; [by eapply perform_refines|by eapply perform_failed].
Qed.

End Committed.

#[export] Hint Resolve balanced_ensure balanced_update_state balanced_opened : balance.

(** ** Histories

    A history is a sequence of operations on one channel, each in a transaction of
    its own with its own clock; its trace lists those that committed. *)

Definition at_time (t : Z) (E : Env) : Env :=
  {| env_now := t; env_clock := t; env_ctx := @env_ctx E; env_uuid := @env_uuid E;
     env_case_statuses := @env_case_statuses E; env_sprint := @env_sprint E |}.

Abbreviation trace := (list (Z * breaker_op * bool)).

Fixpoint run_history `{E : Env} (cb : CircuitBreaker) (channel : string)
    (l : list (driver * Z * breaker_op)) (db : database) : trace * database :=
  match l with
  | [] => ([], db)
  | (drv, t, op) :: l =>
      let '(r, db') := @perform (at_time t E) cb drv op channel db in
      let '(tr, db'') := run_history cb channel l db' in
      (match r with Ok a => (t, op, a) :: tr | Err _ => tr end, db'')
  end.

(** [tr] takes the machine from [p] to [p']. *)
Fixpoint runs (lim : limits) (p : phase) (tr : trace) (p' : phase) : Prop :=
  match tr with
  | [] => p' = p
  | (t, op, a) :: tr => (step lim t op p).2 = a ∧ runs lim (step lim t op p).1 tr p'
  end.

Lemma runs_app lim p tr1 tr2 p' :
  runs lim p (tr1 ++ tr2) p' ↔ ∃ p1, runs lim p tr1 p1 ∧ runs lim p1 tr2 p'.
Proof.
  revert p. induction tr1 as [|[[t op] a] tr1 IH]; intros p; cbn; [naive_solver|].
  rewrite IH. naive_solver.
Qed.

Lemma runs_snoc lim p tr t op a p' :
  runs lim p (tr ++ [(t, op, a)]) p' ↔ ∃ p1, runs lim p tr p1 ∧ step lim t op p1 = (p', a).
Proof.
  rewrite runs_app. split; intros (p1 & H1 & H2); exists p1; (split; [done|]); cbn in *.
  - destruct H2 as [<- ->]. by destruct (step _ _ _ _).
  - by rewrite H2.
Qed.

Lemma history_runs `{E : Env} cb channel l : ∀ db tr db',
  breakers_ok db → run_history cb channel l db = (tr, db') →
  let ch := normalized_channel channel in
  breakers_ok db' ∧ limits_of cb ch db' = limits_of cb ch db ∧
  runs (limits_of cb ch db) (phase_of cb ch db) tr (phase_of cb ch db').
Proof.
  induction l as [|[[drv t] op] l IH]; intros db tr db' Hok; cbn [run_history].
  - by intros [= <- <-].
  - destruct (@perform (at_time t E) cb drv op channel db) as [r db1] eqn:Ep.
    destruct (run_history cb channel l db1) as [tr1 db2] eqn:Er. intros [= <- <-].
    destruct r as [a|e].
    + apply perform_refines in Ep as (Hs & Hl & _ & Hok1 & _); [|done].
      destruct (IH _ _ _ Hok1 Er) as (Hok2 & Hl2 & Hr).
      cbv zeta. rewrite Hl2, Hl in *. split_and!; [done..|]. cbn [runs].
      change (@env_clock (at_time t E)) with t in Hs. rewrite Hs. done.
    + apply perform_failed in Ep as ->. by apply IH.
Qed.

(** The times of the failures of a trace. *)
Fixpoint failures (tr : trace) : list Z :=
  match tr with
  | [] => []
  | (t, OpFailure, _) :: tr => t :: failures tr
  | _ :: tr => failures tr
  end.

Definition no_success (tr : trace) : Prop := Forall (λ x, x.1.2 ≠ OpSuccess) tr.

(** Each failure at most a minute after the one before. *)
Fixpoint close_together (ts : list Z) : Prop :=
  match ts with
  | t :: (t' :: _) as r => t' - t ≤ Minute ∧ close_together r
  | _ => True
  end.

(** [n] failures in a row, with no success among them. *)
Definition streak (n : Z) (tr : trace) : Prop :=
  ∃ tr1 tr2 tr3, tr = tr1 ++ tr2 ++ tr3 ∧ no_success tr2 ∧
    n ≤ Z.of_nat (length (failures tr2)) ∧ close_together (failures tr2).

Lemma failures_app tr1 tr2 : failures (tr1 ++ tr2) = failures tr1 ++ failures tr2.
Proof. induction tr1 as [|[[t []] a] tr1 IH]; cbn; [done|..]; by rewrite ?IH. Qed.

Lemma close_together_snoc ts t t' :
  close_together (ts ++ [t; t']) ↔ close_together (ts ++ [t]) ∧ t' - t ≤ Minute.
Proof.
  induction ts as [|x [|y ts] IH]; cbn in *; [tauto..|]. rewrite IH. tauto.
Qed.

Lemma streak_more n tr tr' : streak n tr → streak n (tr ++ tr').
Proof.
  intros (tr1 & tr2 & tr3 & -> & H). exists tr1, tr2, (tr3 ++ tr').
  by rewrite <- !app_assoc.
Qed.

(** The phase reached from a closed breaker without failures knows its streak. *)
Definition closed_streak (k : Z) (last : option Z) (tr : trace) : Prop :=
  k = 0 ∨ ∃ tr1 tr2 ts t, tr = tr1 ++ tr2 ∧ no_success tr2 ∧ failures tr2 = ts ++ [t] ∧
    k = Z.of_nat (length (ts ++ [t])) ∧ close_together (ts ++ [t]) ∧ last = Some t.

Definition explains (lim : limits) (tr : trace) (p : phase) : Prop :=
  match p with
  | PClosed k last => closed_streak k last tr
  | _ => streak (lim_threshold lim) tr
  end.

Lemma no_success_snoc tr t op a : no_success tr → op ≠ OpSuccess → no_success (tr ++ [(t, op, a)]).
Proof. intros. apply Forall_app_2; [done|]. by constructor. Qed.

Lemma closed_streak_quiet k last tr t op a :
  op ≠ OpSuccess → op ≠ OpFailure → closed_streak k last tr →
  closed_streak k last (tr ++ [(t, op, a)]).
Proof.
  intros H1 H2 [->|(tr1 & tr2 & ts & u & -> & Hq & Hf & Hk & Hc & ->)]; [by left|right].
  exists tr1, (tr2 ++ [(t, op, a)]), ts, u. rewrite app_assoc, failures_app, Hf.
  split_and!; auto using no_success_snoc.
  destruct op; [apply app_nil_r|done..].
Qed.

Lemma closed_streak_failure k last tr t a :
  closed_streak k last tr →
  closed_streak (if recent t last then k + 1 else 1) (Some t) (tr ++ [(t, OpFailure, a)]).
Proof.
  intros Hs. right.
  assert (∃ tr1 tr2 ts u, tr ++ [(t, OpFailure, a)] = tr1 ++ tr2 ∧ no_success tr2 ∧
    failures tr2 = ts ++ [u] ∧ 1 = Z.of_nat (length (ts ++ [u])) ∧ close_together (ts ++ [u]) ∧
    Some t = Some u) as H1.
  { exists tr, [(t, OpFailure, a)], [], t. split_and!; try done. by repeat constructor. }
  destruct Hs as [->|(tr1 & tr2 & ts & u & -> & Hq & Hf & -> & Hc & ->)];
    [destruct (recent t last); exact H1|].
  cbn [recent]. destruct (t - u <=? Minute) eqn:E; [|done]. Z_tests.
  exists tr1, (tr2 ++ [(t, OpFailure, a)]), (ts ++ [u]), t.
  rewrite app_assoc, failures_app, Hf. split_and!; auto using no_success_snoc.
  - rewrite !length_app. cbn. lia.
  - rewrite <- app_assoc. apply close_together_snoc. done.
Qed.

Lemma closed_streak_trips lim k last tr :
  0 < lim_threshold lim → lim_threshold lim ≤ k → closed_streak k last tr →
  streak (lim_threshold lim) tr.
Proof.
  intros Hn Hk [->|(tr1 & tr2 & ts & t & -> & Hq & Hf & -> & Hc & ->)]; [lia|].
  exists tr1, tr2, []. rewrite app_nil_r, Hf. done.
Qed.

Lemma explains_step lim tr p t op :
  0 < lim_threshold lim → explains lim tr p →
  explains lim (tr ++ [(t, op, (step lim t op p).2)]) (step lim t op p).1.
Proof.
  intros Hn Hp. destruct p as [k last|since|k]; cbn [explains] in Hp.
  - destruct op; cbn [step fst snd explains]; [by apply closed_streak_quiet|by left|].
    apply (closed_streak_failure _ _ _ t true) in Hp.
    destruct (_ <=? _) eqn:E; [|done]. Z_tests. by eapply closed_streak_trips.
  - destruct op; cbn [step]; [destruct since as [u|]|..]; repeat case_match; cbn;
      by apply streak_more.
  - destruct op; cbn [step]; repeat case_match; cbn; first [by apply streak_more|by left].
Qed.

Lemma runs_explains lim tr p0 p :
  0 < lim_threshold lim → explains lim [] p0 → runs lim p0 tr p → explains lim tr p.
Proof.
  intros Hn H0. revert p. induction tr as [|[[t op] a] tr IH] using rev_ind; intros p.
  - by intros ->.
  - intros (p1 & H1 & Hs)%runs_snoc. apply IH in H1.
    apply (explains_step _ _ _ t op Hn) in H1. by rewrite Hs in H1.
Qed.

(** A check that is refused finds the breaker open. *)
Lemma refused_open lim tr p0 p t :
  runs lim p0 tr p → (t, OpCheck, false) ∈ tr →
  ∃ tr1 tr2 since, tr = tr1 ++ tr2 ∧ runs lim p0 tr1 (POpen since).
Proof.
  intros Hr (tr1 & tr2 & ->)%list_elem_of_split. apply runs_app in Hr as (p1 & H1 & H2).
  destruct H2 as [H2 _]. exists tr1, ((t, OpCheck, false) :: tr2).
  destruct p1 as [|since|]; [done| |done]. by exists since.
Qed.

(** Without successes, the count of a closed breaker is at least its streak. *)
Lemma quiet_runs lim k0 last0 tr k last :
  0 ≤ k0 → no_success tr → runs lim (PClosed k0 last0) tr (PClosed k last) →
  failures tr = [] ∧ k = k0 ∧ last = last0 ∨
  ∃ ts t, failures tr = ts ++ [t] ∧ last = Some t ∧ 0 < k < lim_threshold lim ∧
    (close_together (failures tr) → Z.of_nat (length (failures tr)) ≤ k).
Proof.
  intros H0. revert k last. induction tr as [|[[t op] a] tr IH] using rev_ind; intros k last.
  { intros _ [= -> ->]. by left. }
  intros [Hq Hop]%Forall_app (p1 & H1 & Hs)%runs_snoc. apply Forall_inv in Hop. cbn in Hop.
  assert (∃ k1 last1, p1 = PClosed k1 last1) as (k1 & last1 & ->).
  { destruct op, p1 as [|[]|]; cbn [step] in Hs; repeat case_match; simplify_eq; eauto. }
  specialize (IH _ _ Hq H1). destruct op; cbn [step] in Hs; [|done|].
  { simplify_eq. by rewrite failures_app, app_nil_r. }
  case_match eqn:E; [done|]. injection Hs as <- <- <-. Z_tests. right.
  rewrite failures_app. cbn [failures app].
  destruct IH as [(Ef & -> & ->)|(ts & u & Ef & -> & Hk & Hc)]; rewrite Ef in *.
  - exists [], t. split_and!; try done; [destruct (recent t last0); lia|].
    intros _. cbn [app length]. destruct (recent t last0); lia.
  - exists (ts ++ [u]), t. split_and!; try done; [destruct (recent t (Some u)); lia|].
    rewrite <- app_assoc. cbn [app]. rewrite close_together_snoc. intros [Hc1 Hd].
    specialize (Hc Hc1). rewrite !length_app in *. cbn [length recent] in *.
    rewrite (proj2 (Z.leb_le _ _) Hd). lia.
Qed.

(** An open breaker without successes refuses until its cooldown is over. *)
Lemma open_runs lim t0 tr p :
  no_success tr → Forall (λ x, x.1.1 < t0 + lim_cooldown lim) tr →
  runs lim (POpen (Some t0)) tr p →
  p = POpen (Some t0) ∧ ∀ t a, (t, OpCheck, a) ∈ tr → a = false.
Proof.
  intros Hq Ht. induction tr as [|[[t op] a] tr IH]; cbn [runs].
  { intros ->. split; [done|]. intros ?? []%elem_of_nil. }
  apply Forall_cons in Hq as [Hop Hq]. apply Forall_cons in Ht as [Hlt Ht]. cbn in Hop, Hlt.
  specialize (IH Hq Ht). destruct op; cbn [step]; [|done|].
  - rewrite (proj2 (Z.leb_gt _ _)) by lia. intros [<- [-> Hin]%IH]. split; [done|].
    intros u b [[=]|?]%elem_of_cons; [done|by eapply Hin].
  - intros [<- [-> Hin]%IH]. split; [done|].
    intros u b [[=]|?]%elem_of_cons; by eapply Hin.
Qed.

(** ** Operations that cannot fail *)

Section Reliable.
Context `{E : Env} (cb : CircuitBreaker) (busy : bool).

Lemma ensure_commits ch db b :
  breakers_ok db → sql_get (by_id cb_channel ch) (breakers db) = Ok b →
  commits busy (ensureAndLockState cb ch) db = Some (b, db).
Proof.
  intros Hok Eg. unfold ensureAndLockState. cbv zeta. rewrite commits_bind by balance.
  rewrite commits_attempt. unfold get_in, query. rewrite exec_stmt, Eg.
  rewrite commits_mret, with_defaults_id; [done|].
  apply (proj1 (Forall_forall _ _) Hok). by apply sql_get_Ok in Eg as [? _].
Qed.

Lemma check_updated b st fc sc lf oa ha :
  breaker_check b = true → str_mem st ["CLOSED"; "OPEN"; "HALF_OPEN"] = true →
  0 ≤ fc < 2 ^ 31 → 0 ≤ sc < 2 ^ 31 → breaker_check (updated b st fc sc lf oa ha) = true.
Proof.
  unfold breaker_check. intros. cbn [cb_channel cb_state cb_failure_count cb_success_count
    cb_threshold_failures cb_cooldown_seconds updated upd].
  bool_simpl. rewrite !andb_true_iff, !Z.leb_le, !Z.ltb_lt. Z_tests. split_and!; (done || lia).
Qed.

Lemma update_state_commits ch db st fc sc lf oa ha :
  breakers_ok db → str_mem st ["CLOSED"; "OPEN"; "HALF_OPEN"] = true →
  0 ≤ fc < 2 ^ 31 → 0 ≤ sc < 2 ^ 31 →
  ∃ db', commits busy (updateStateRow ch st fc sc lf oa ha) db = Some (tt, db').
Proof.
  intros Hok Hst Hf Hs. unfold updateStateRow. rewrite commits_bind by balance.
  rewrite commits_update. replace (forallb _ _) with true; [by eexists|]. symmetry.
  apply forallb_forall. intros x Hx%list_elem_of_In.
  apply orb_true_iff. right. apply check_updated; [|done..].
  by apply (proj1 (Forall_forall _ _) Hok).
Qed.

(** A channel that is not closed has a row. *)
Lemma phase_row ch db :
  (∀ k last, phase_of cb ch db ≠ PClosed k last) →
  sql_get (by_id cb_channel ch) (breakers db) = Ok (breaker_of cb ch db).
Proof.
  unfold phase_of, breaker_of. destruct (sql_get _ _) as [b|e]; [done|].
  intros Hp. destruct (Hp 0 None). reflexivity.
Qed.

Lemma row_phase_state b p :
  row_phase b = p →
  match p with
  | PClosed _ _ => True
  | POpen since => cb_state b = "OPEN" ∧ cb_opened_at b = since
  | PHalfOpen k => cb_state b = "HALF_OPEN" ∧ cb_success_count b = k
  end.
Proof.
  intros <-. unfold row_phase.
  destruct (String.eqb_spec (cb_state b) "OPEN"); [done|].
  by destruct (String.eqb_spec (cb_state b) "HALF_OPEN").
Qed.

Lemma check_commits channel db t0 :
  TrimSpace channel ≠ "" → breakers_ok db →
  phase_of cb (normalized_channel channel) db = POpen (Some t0) →
  lim_cooldown (limits_of cb (normalized_channel channel) db) ≤ env_clock - t0 →
  ∃ db', perform cb (reliable busy) OpCheck channel db = (Ok true, db').
Proof.
  intros Hch Hok Hp Ht. set (ch := normalized_channel channel) in *. cbn [perform].
  unfold CheckState. rewrite (proj2 (String.eqb_neq _ _) Hch).
  pose proof (phase_row ch db) as Hg. rewrite Hp in Hg. specialize (Hg ltac:(done)).
  pose proof (touched_check _ _ _ _ (touched_refl _ _ _ Hok Hg)) as Hck.
  destruct (row_phase_state _ _ Hp) as [Hst Ho].
  destruct (cooldown_fits _ Hck) as [Hcd Hw]. cbn [lim_cooldown limits_of] in Ht.
  assert (∃ db', commits busy (CheckState_tx cb channel) db = Some (true, db')) as [db' Hc];
    [|exists db'; by apply commits_within_tx].
  unfold CheckState_tx. fold ch. rewrite commits_bind by balance. rewrite (ensure_commits _ _ _ Hok Hg).
  cbv zeta. rewrite Hst, Ho, string_eqb_refl, Hw, Sub_ge by (unfold int64_max, int64_min in *; lia).
  rewrite (proj2 (Z.leb_le _ _)) by done. rewrite commits_bind by balance.
  destruct (update_state_commits (cb_channel (breaker_of cb ch db)) db "HALF_OPEN" 0 0
    (cb_last_failure_at (breaker_of cb ch db)) (Some env_clock) (Some env_clock)) as [db' ->];
    [done|done|lia|lia|]. by eexists.
Qed.

Lemma success_commits channel db k :
  TrimSpace channel ≠ "" → breakers_ok db →
  phase_of cb (normalized_channel channel) db = PHalfOpen k → k + 1 < 2 ^ 31 →
  ∃ db', perform cb (reliable busy) OpSuccess channel db = (Ok true, db').
Proof.
  intros Hch Hok Hp Ht. set (ch := normalized_channel channel) in *. cbn [perform].
  pose proof (phase_row ch db) as Hg. rewrite Hp in Hg. specialize (Hg ltac:(done)).
  pose proof (touched_check _ _ _ _ (touched_refl _ _ _ Hok Hg)) as Hck.
  destruct (row_phase_state _ _ Hp) as [Hst Ho].
  pose proof (breaker_check_positive _ Hck) as (_ & _ & _ & Hsc).
  assert (∃ db', commits busy (RecordSuccess cb channel) db = Some (tt, db')) as [db' Hc].
  { unfold RecordSuccess. fold ch. rewrite (proj2 (String.eqb_neq _ _) Hch).
    rewrite commits_bind by balance. rewrite (ensure_commits _ _ _ Hok Hg). cbv zeta.
    rewrite Hst, Ho, string_eqb_refl. destruct (_ <=? _);
      apply update_state_commits; (done || lia). }
  exists db'. apply commits_within_tx. rewrite commits_bind; [by rewrite Hc|].
  unfold RecordSuccess. cbv zeta. balance.
Qed.

End Reliable.

(** Successes of a half-open breaker close it. *)
Lemma successes_close `{E : Env} cb busy channel us : ∀ db k,
  let ch := normalized_channel channel in
  TrimSpace channel ≠ "" → breakers_ok db → phase_of cb ch db = PHalfOpen k → 0 ≤ k →
  halfOpenAttempts cb < 2 ^ 31 → us ≠ [] → k + Z.of_nat (length us) = halfOpenAttempts cb →
  ∃ db', run_history cb channel ((λ u, (reliable busy, u, OpSuccess)) <$> us) db =
           ((λ u, (u, OpSuccess, true)) <$> us, db') ∧
         phase_of cb ch db' = PClosed 0 None.
Proof.
  induction us as [|u us IH]; intros db k ch Hch Hok Hp Hk Ha Hne Hl; [done|].
  cbn [length] in Hl. cbn [fmap list_fmap run_history].
  destruct (@success_commits (at_time u E) cb busy channel db k) as [db1 Hs]; [done..|lia|].
  rewrite Hs. apply perform_refines in Hs as (Hstep & _ & _ & Hok1 & _); [|done].
  fold ch in Hstep. rewrite Hp in Hstep. cbn [step lim_attempts limits_of] in Hstep.
  destruct us as [|v us].
  - exists db1. cbn [fmap list_fmap run_history]. split; [done|]. cbn [length] in Hl.
    rewrite (proj2 (Z.leb_le _ _)) in Hstep by lia. by injection Hstep.
  - cbn [length] in Hl. rewrite (proj2 (Z.leb_gt _ _)) in Hstep by lia. injection Hstep as Hp1.
    destruct (IH db1 (k + 1)) as (db' & Hr & Hc); try done; [lia|cbn [length]; lia|].
    exists db'. split; [|done].
    change (list_fmap _ _ ?f (v :: us)) with (f <$> (v :: us)). by rewrite Hr.
Qed.

(** ** What a channel can rely on *)

Lemma limits_positive threshold cooldown attempts ch db :
  let cb := NewCircuitBreaker threshold cooldown attempts in
  breakers_ok db → 0 < lim_threshold (limits_of cb ch db).
Proof.
  intros cb Hok. cbn [lim_threshold limits_of]. unfold breaker_of.
  destruct (sql_get _ _) as [b|e] eqn:Eg.
  - apply breaker_check_positive. apply (proj1 (Forall_forall _ _) Hok).
    by apply sql_get_Ok in Eg as [? _].
  - cbn. destruct (threshold <=? 0) eqn:Ez; Z_tests; lia.
Qed.

(** A breaker that is closed without failures opens on a streak and on nothing
    else: over any history of transactions, whatever fails on the way, a sender is
    refused, or the breaker found other than closed, only after a threshold of
    failures in a row, each within a minute of the one before and with no success
    among them; and failures in such a row, with no success in the history, do open
    it. *)
Theorem breaker_opens_on_a_streak `{E : Env} threshold cooldown attempts channel l db tr db' :
  let cb := NewCircuitBreaker threshold cooldown attempts in
  let ch := normalized_channel channel in
  let n := lim_threshold (limits_of cb ch db) in
  ∀ last, breakers_ok db → phase_of cb ch db = PClosed 0 last →
  run_history cb channel l db = (tr, db') →
  ((∃ t, (t, OpCheck, false) ∈ tr) ∨ (∀ k u, phase_of cb ch db' ≠ PClosed k u) →
     streak n tr) ∧
  (no_success tr → close_together (failures tr) → n ≤ Z.of_nat (length (failures tr)) →
     ∀ k u, phase_of cb ch db' ≠ PClosed k u).
Proof.
  intros cb ch n last Hok Hp Hh.
  pose proof (limits_positive threshold cooldown attempts ch db Hok) as Hn. fold cb n in Hn.
  apply history_runs in Hh as (_ & _ & Hr); [|done]. fold ch in Hr. rewrite Hp in Hr.
  assert (explains (limits_of cb ch db) [] (PClosed 0 last)) as H0 by by left.
  split.
  - intros [[t Ht]|Hne].
    + apply (refused_open _ _ _ _ _ Hr) in Ht as (tr1 & tr2 & since & -> & Hr1).
      apply streak_more. by apply (runs_explains _ _ _ _ Hn H0) in Hr1.
    + apply (runs_explains _ _ _ _ Hn H0) in Hr.
      destruct (phase_of cb ch db') as [k u| |]; [by destruct (Hne k u)|done..].
  - intros Hq Hc Hl k u Hk. rewrite Hk in Hr.
    apply quiet_runs in Hr as [(Hf & _)|(ts & t & Hf & _ & Hb & Hle)]; [| |lia|done].
    + rewrite Hf in Hl. cbn [length] in Hl. lia.
    + specialize (Hle Hc). fold n in Hb. lia.
Qed.

(** An open breaker refuses every sender, and stays open since the same time,
    through any history without successes that ends before its cooldown; once the
    cooldown is over the next check, on a reliable connection, admits a sender, and
    as many successes as the configuration asks for close the breaker. *)
Theorem open_breaker_refuses_then_recovers `{E : Env} cb channel db t0 :
  let ch := normalized_channel channel in
  let cooldown := lim_cooldown (limits_of cb ch db) in
  TrimSpace channel ≠ "" → breakers_ok db → phase_of cb ch db = POpen (Some t0) →
  0 < halfOpenAttempts cb < 2 ^ 31 →
  (∀ l tr db', run_history cb channel l db = (tr, db') → no_success tr →
     Forall (λ x, x.1.1 < t0 + cooldown) tr →
     phase_of cb ch db' = POpen (Some t0) ∧ ∀ t a, (t, OpCheck, a) ∈ tr → a = false) ∧
  (∀ busy t us, t0 + cooldown ≤ t → Z.of_nat (length us) = halfOpenAttempts cb →
     ∃ db', run_history cb channel
              ((reliable busy, t, OpCheck) :: ((λ u, (reliable busy, u, OpSuccess)) <$> us)) db =
              ((t, OpCheck, true) :: ((λ u, (u, OpSuccess, true)) <$> us), db') ∧
            phase_of cb ch db' = PClosed 0 None).
Proof.
  intros ch cooldown Hch Hok Hp Ha. split.
  - intros l tr db' Hh Hq Ht. apply history_runs in Hh as (_ & _ & Hr); [|done].
    fold ch in Hr. rewrite Hp in Hr. by eapply open_runs.
  - intros busy t us Ht Hl. cbn [run_history].
    destruct (@check_commits (at_time t E) cb busy channel db t0) as [db1 Hc]; [done..| |].
    { change (@env_clock (at_time t E)) with t. fold ch cooldown. lia. }
    rewrite Hc. apply perform_refines in Hc as (Hs & _ & _ & Hok1 & _); [|done].
    fold ch in Hs. rewrite Hp in Hs. cbn [step] in Hs. fold cooldown in Hs.
    change (@env_clock (at_time t E)) with t in Hs.
    rewrite (proj2 (Z.leb_le _ _)) in Hs by lia. injection Hs as Hp1.
    destruct (successes_close cb busy channel us db1 0) as (db' & Hr & Hc); try done; [lia| |].
    { intros ->. cbn in Hl. lia. }
    exists db'. by rewrite Hr.
Qed.

(** ** Witnesses *)

Definition sample_breaker : CircuitBreaker := NewCircuitBreaker 2 (5 * Minute) 3.

(** Two failures half a minute apart, and a check. *)
Definition sample_history : list (driver * Z * breaker_op) :=
  [ (reliable true, 1000 * Hour, OpFailure);
    (reliable true, 1000 * Hour + 30 * Second, OpFailure);
    (reliable true, 1000 * Hour + 60 * Second, OpCheck) ].

Definition sample_open_db : database :=
  let E := sample_env case_statuses_35 in
  (run_history sample_breaker " email" sample_history empty_db).2.

Lemma breakers_ok_forallb db : forallb breaker_check (breakers db) = true → breakers_ok db.
Proof.
  intros H. apply Forall_forall. intros b Hb%list_elem_of_In. by apply (proj1 (forallb_forall _ _) H).
Qed.

Lemma breakers_ok_empty : breakers_ok empty_db.
Proof. by constructor. Defined.

Lemma sample_open_ok : breakers_ok sample_open_db.
Proof. apply breakers_ok_forallb. vm_compute. reflexivity. Defined.

Lemma breaker_refines_witness :
  let E := sample_env case_statuses_35 in
  ∃ db', perform sample_breaker (reliable true) OpFailure "EMAIL" empty_db = (Ok true, db') ∧
    refines sample_breaker OpFailure "EMAIL" empty_db true db'.
Proof.
  intros E. eexists. split; [vm_compute; reflexivity|].
  exact (breaker_refines sample_breaker (reliable true) OpFailure "EMAIL" empty_db (Ok true) _
           breakers_ok_empty ltac:(vm_compute; reflexivity)).
Defined.

Lemma breaker_opens_on_a_streak_witness :
  let E := sample_env case_statuses_35 in
  let h := run_history sample_breaker " email" sample_history empty_db in
  (1000 * Hour + 60 * Second, OpCheck, false) ∈ h.1 ∧ streak 2 h.1.
Proof.
  intros E h.
  assert ((1000 * Hour + 60 * Second, OpCheck, false) ∈ h.1) as Hin.
  { replace h.1 with [(1000 * Hour, OpFailure, true); (1000 * Hour + 30 * Second, OpFailure, true);
      (1000 * Hour + 60 * Second, OpCheck, false)] by (vm_compute; reflexivity).
    do 2 right. left. }
  split; [exact Hin|].
  destruct (breaker_opens_on_a_streak 2 (5 * Minute) 3 " email" sample_history empty_db
    h.1 h.2 None breakers_ok_empty) as [H _].
  - vm_compute. reflexivity.
  - vm_compute. reflexivity.
  - apply H. left. eexists. exact Hin.
Defined.

Lemma open_breaker_refuses_then_recovers_witness :
  let E := sample_env case_statuses_35 in
  let t0 := 1000 * Hour + 30 * Second in
  phase_of sample_breaker "EMAIL" sample_open_db = POpen (Some t0) ∧
  ∃ tr db', run_history sample_breaker "email"
    ((reliable true, t0 + 5 * Minute, OpCheck) ::
      ((λ u, (reliable true, u, OpSuccess)) <$> [t0; t0; t0])) sample_open_db = (tr, db') ∧
    phase_of sample_breaker "EMAIL" db' = PClosed 0 None.
Proof.
  intros E t0. split; [vm_compute; reflexivity|].
  destruct (open_breaker_refuses_then_recovers sample_breaker "email" sample_open_db t0)
    as [_ H].
  - vm_compute. discriminate.
  - exact sample_open_ok.
  - vm_compute. reflexivity.
  - vm_compute. split; reflexivity.
  - destruct (H true (t0 + 5 * Minute) [t0; t0; t0]) as (db' & Hr & Hp).
    + vm_compute. discriminate.
    + reflexivity.
    + eexists _, db'. split; [exact Hr|exact Hp].
Defined.
