(* ===== verification/ScimFilter.v ===== *)
(** * SCIM filters (internal/scim/filter.go)

    The filter language of the SCIM lists: a tokenizer, a recursive-descent parser that
    builds a tree and counts its nodes, and the translation of the tree into a condition of
    the WHERE clause with numbered arguments.  Texts are ASCII: a byte above 127 is taken
    as no letter. *)

From Stdlib Require Import Ascii String ZArith Lia SpecFloat.
From stdpp Require Import base list strings.
From S2P Require Import Prelude Float64 ApprovalExpr.

Open Scope go_scope.

(** ** Tokens *)

Inductive filterTokenType :=
  | filterTokenEOF | filterTokenIdentifier | filterTokenString | filterTokenNumber
  | filterTokenBool | filterTokenLParen | filterTokenRParen.

#[export] Instance filterTokenType_eq_dec : EqDecision filterTokenType.
Proof. solve_decision. Defined.

Record filterToken := FilterToken { ftyp : filterTokenType; fval : string }.

Definition is_letter (c : ascii) : bool := is_lower c || is_upper c.

Definition isIdentifierRune (c : ascii) : bool :=
  is_letter c || is_digit c || Ascii.eqb c "_" || Ascii.eqb c "." || Ascii.eqb c "-"
  || Ascii.eqb c ":".

(** What a letter after a backslash stands for. *)
Definition unescape (c : ascii) : option ascii :=
  if Ascii.eqb c "034" || Ascii.eqb c "\" || Ascii.eqb c "/" then Some c
  else if Ascii.eqb c "b" then Some "008"%char
  else if Ascii.eqb c "f" then Some "012"%char
  else if Ascii.eqb c "n" then Some "010"%char
  else if Ascii.eqb c "r" then Some "013"%char
  else if Ascii.eqb c "t" then Some "009"%char
  else None.

(** A string literal after its opening quote: its text and what follows its closing quote. *)
Fixpoint scan_quoted (s : string) (escaping : bool) : option (string * string) :=
  match s with
  | EmptyString => None
  | String ch r =>
      if escaping then
        match unescape ch with
        | Some c => prod_map (String c) id <$> scan_quoted r false
        | None => None
        end
      else if Ascii.eqb ch "\" then scan_quoted r true
      else if Ascii.eqb ch "034" then Some (EmptyString, r)
      else prod_map (String ch) id <$> scan_quoted r false
  end.

Definition number_rest (c : ascii) : bool := is_digit c || Ascii.eqb c ".".

(** The number a text starts with, unless [strconv.ParseFloat] refuses it. *)
Definition scan_number (ch : ascii) (r : string) : option (string * string) :=
  if is_digit ch || Ascii.eqb ch "-" then
    let '(w, rest) := scan_while number_rest r in
    match ParseFloat (String ch w) with
    | Some _ => Some (String ch w, rest)
    | None => None
    end
  else None.

Definition word_token (lit : string) : filterToken :=
  let lower := ToLower (TrimSpace lit) in
  if (lower =?s "true") || (lower =?s "false") then FilterToken filterTokenBool lower
  else FilterToken filterTokenIdentifier lit.

Fixpoint tokenizeFilter_from (fuel : nat) (s : string) : result (list filterToken) :=
  match fuel with
  | O => Err OutOfFuel
  | S fuel =>
  match s with
  | EmptyString => Ok [FilterToken filterTokenEOF ""]
  | String ch r =>
      if is_space ch then tokenizeFilter_from fuel r
      else if Ascii.eqb ch "(" then
        cons (FilterToken filterTokenLParen "(") <$> tokenizeFilter_from fuel r
      else if Ascii.eqb ch ")" then
        cons (FilterToken filterTokenRParen ")") <$> tokenizeFilter_from fuel r
      else if Ascii.eqb ch "034" then
        match scan_quoted r false with
        | Some (txt, rest) =>
            cons (FilterToken filterTokenString txt) <$> tokenizeFilter_from fuel rest
        | None => Err ErrInvalidSCIMFilter
        end
      else
        match scan_number ch r with
        | Some (lit, rest) =>
            cons (FilterToken filterTokenNumber lit) <$> tokenizeFilter_from fuel rest
        | None =>
            if isIdentifierRune ch then
              let '(w, rest) := scan_while isIdentifierRune r in
              cons (word_token (String ch w)) <$> tokenizeFilter_from fuel rest
            else Err ErrInvalidSCIMFilter
        end
  end
  end.

Definition tokenizeFilter (input : string) : result (list filterToken) :=
  tokenizeFilter_from (S (String.length input)) input.

(** ** The tree *)

(** [SCIMFilterNode.Value]: nil, or what the parser stores there. *)
Inductive filterValue :=
  | FNil
  | FText (s : string)
  | FBool (b : bool)
  | FNumber (f : float64).

(** A pointer to a [SCIMFilterNode]; [NilNode] is nil. *)
Inductive SCIMFilterNode :=
  | NilNode
  | Node (Kind Attribute Operator : string) (Value : filterValue)
      (Left Right : SCIMFilterNode).

Definition logical (op : string) (l r : SCIMFilterNode) : SCIMFilterNode :=
  Node "logical" "" op FNil l r.
Definition not_node (n : SCIMFilterNode) : SCIMFilterNode := Node "not" "" "not" FNil n NilNode.
Definition comparison_node (attr op : string) (v : filterValue) : SCIMFilterNode :=
  Node "comparison" attr op v NilNode NilNode.

(** ** The parser

    Its state: the tokens from [p.pos] on and [p.nodeCount]. *)

Record filterParser := FilterParser { tokens : list filterToken; nodeCount : nat }.

Definition peek (p : filterParser) : filterToken :=
  match tokens p with t :: _ => t | [] => FilterToken filterTokenEOF "" end.
Definition advance (p : filterParser) : filterParser :=
  FilterParser (tail (tokens p)) (nodeCount p).
Definition newNode (n : SCIMFilterNode) (p : filterParser) : SCIMFilterNode * filterParser :=
  (n, FilterParser (tokens p) (S (nodeCount p))).

Definition parse_step := filterParser → result (SCIMFilterNode * filterParser).

Definition keyword (w : string) (t : filterToken) : bool :=
  bool_decide (ftyp t = filterTokenIdentifier) && EqualFold (fval t) w.

Definition comparison_operators : list string :=
  ["eq"; "ne"; "co"; "sw"; "ew"; "pr"; "gt"; "ge"; "lt"; "le"].

Definition parseValue (t : filterToken) : result filterValue :=
  match ftyp t with
  | filterTokenString | filterTokenIdentifier => Ok (FText (fval t))
  | filterTokenBool => Ok (FBool (EqualFold (fval t) "true"))
  | filterTokenNumber =>
      match ParseFloat (fval t) with
      | Some n => Ok (FNumber n)
      | None => Err ErrInvalidSCIMFilter
      end
  | _ => Err ErrInvalidSCIMFilter
  end.

Definition parseComparison (p : filterParser) : result (SCIMFilterNode * filterParser) :=
  let attrTok := peek p in let p := advance p in
  if negb (bool_decide (ftyp attrTok = filterTokenIdentifier)) then Err ErrInvalidSCIMFilter
  else
  let attr := ToLower (TrimSpace (fval attrTok)) in
  if attr =?s "" then Err ErrInvalidSCIMFilter
  else
  let opTok := peek p in let p := advance p in
  if negb (bool_decide (ftyp opTok = filterTokenIdentifier)) then Err ErrInvalidSCIMFilter
  else
  let op := ToLower (TrimSpace (fval opTok)) in
  if negb (bool_decide (op ∈ comparison_operators)) then Err ErrInvalidSCIMFilter
  else if op =?s "pr" then Ok (newNode (comparison_node attr op FNil) p)
  else
  v ← parseValue (peek p);
  Ok (newNode (comparison_node attr op v) (advance p)).

Definition parsePrimary (expression : parse_step) : parse_step := λ p,
  if decide (ftyp (peek p) = filterTokenLParen) then
    '(node, p) ← expression (advance p);
    if decide (ftyp (peek p) = filterTokenRParen) then Ok (node, advance p)
    else Err ErrInvalidSCIMFilter
  else parseComparison p.

(** The loops of [parseOr] and [parseAnd]: while the next token is the keyword. *)
Fixpoint logical_loop (n : nat) (op : string) (operand : parse_step)
    (lhs : SCIMFilterNode) (p : filterParser) : result (SCIMFilterNode * filterParser) :=
  if keyword op (peek p) then
    match n with
    | O => Err OutOfFuel
    | S n =>
        '(rhs, p) ← operand (advance p);
        let '(node, p) := newNode (logical op lhs rhs) p in
        logical_loop n op operand node p
    end
  else Ok (lhs, p).

Definition parseAnd (unary : parse_step) : parse_step := λ p,
  '(lhs, p) ← unary p;
  logical_loop (length (tokens p)) "and" unary lhs p.

Definition parseOr (unary : parse_step) : parse_step := λ p,
  '(lhs, p) ← parseAnd unary p;
  logical_loop (length (tokens p)) "or" (parseAnd unary) lhs p.

Fixpoint parseUnary (fuel : nat) : parse_step := λ p,
  match fuel with
  | O => Err OutOfFuel
  | S fuel =>
      if keyword "not" (peek p) then
        '(node, p) ← parseUnary fuel (advance p);
        Ok (newNode (not_node node) p)
      else parsePrimary (parseOr (parseUnary fuel)) p
  end.

(** Parentheses and negations nest at most as deep as there are tokens. *)
Definition parseExpression : parse_step := λ p,
  parseOr (parseUnary (S (length (tokens p)))) p.

Definition ParseSCIMFilter (expression : string) : result SCIMFilterNode :=
  let expression := TrimSpace expression in
  if expression =?s "" then Err ErrInvalidSCIMFilter
  else
    tokens ← tokenizeFilter expression;
    '(root, p) ← parseExpression (FilterParser tokens 0);
    if negb (bool_decide (ftyp (peek p) = filterTokenEOF)) then Err ErrInvalidSCIMFilter
    else if (50 <? nodeCount p)%nat then Err ErrInvalidSCIMFilter
    else Ok root.

(** ** [time.Parse] with the layout of RFC 3339

    Only whether a text is accepted: the callers drop the time. *)

Fixpoint digit_run (s : string) : string :=
  match s with
  | String c r => if is_digit c then digit_run r else s
  | EmptyString => s
  end.

(** [getnum] with a fixed width of two digits. *)
Definition two_digits (s : string) : option (Z * string) :=
  match s with
  | String a (String b r) =>
      if is_digit a && is_digit b then Some (10 * digit_val a + digit_val b, r) else None
  | _ => None
  end.

(** [getnum] that also takes one digit. *)
Definition hour_digits (s : string) : option (Z * string) :=
  match s with
  | String a r =>
      if is_digit a then
        match r with
        | String b r' =>
            if is_digit b then Some (10 * digit_val a + digit_val b, r') else Some (digit_val a, r)
        | EmptyString => Some (digit_val a, r)
        end
      else None
  | EmptyString => None
  end.

Definition literal (c : ascii) (s : string) : option string :=
  match s with String d r => if Ascii.eqb c d then Some r else None | EmptyString => None end.

Definition in_range (lo hi : Z) (z : Z) : option unit :=
  if (lo <=? z) && (z <=? hi) then Some () else None.

Definition is_leap (year : Z) : bool :=
  (year mod 4 =? 0) && (negb (year mod 100 =? 0) || (year mod 400 =? 0)).
Definition days_in (month year : Z) : Z :=
  if month =? 2 then (if is_leap year then 29 else 28)
  else if (month =? 4) || (month =? 6) || (month =? 9) || (month =? 11) then 30 else 31.

(** A fraction of a second: a comma or a period and at least one digit. *)
Definition skip_fraction (s : string) : string :=
  match s with
  | String c (String d r) =>
      if (Ascii.eqb c "." || Ascii.eqb c ",") && is_digit d then digit_run r else s
  | _ => s
  end.

Definition zone_offset (s : string) : option string :=
  match s with
  | String c r =>
      if Ascii.eqb c "Z" then Some r
      else if Ascii.eqb c "+" || Ascii.eqb c "-" then
        '(hr, r) ← two_digits r; r ← literal ":" r; '(mm, r) ← two_digits r;
        _ ← in_range 0 24 hr; _ ← in_range 0 60 mm; Some r
      else None
  | EmptyString => None
  end.

Definition is_rfc3339 (s : string) : option unit :=
  '(y1, r) ← two_digits s; '(y2, r) ← two_digits r; r ← literal "-" r;
  '(month, r) ← two_digits r; _ ← in_range 1 12 month; r ← literal "-" r;
  '(day, r) ← two_digits r; r ← literal "T" r;
  '(hour, r) ← hour_digits r; _ ← in_range 0 23 hour; r ← literal ":" r;
  '(min, r) ← two_digits r; _ ← in_range 0 59 min; r ← literal ":" r;
  '(sec, r) ← two_digits r; _ ← in_range 0 59 sec;
  r ← zone_offset (skip_fraction r);
  if r =?s "" then in_range 1 (days_in month (100 * y1 + y2)) day else None.

(** ** The condition *)

Inductive SCIMResourceType := SCIMResourceTypeUser | SCIMResourceTypeGroup.

Record filterAttrDef := AttrDef { ad_expr : string; ad_kind : string; ad_lower : bool }.

Definition scimFilterAttribute (resource : SCIMResourceType) (attr : string)
    : option filterAttrDef :=
  let attr := ToLower (TrimSpace attr) in
  match resource with
  | SCIMResourceTypeUser =>
      if attr =?s "username" then Some (AttrDef "LOWER(u.username)" "string" true)
      else if attr =?s "displayname" then Some (AttrDef "u.display_name" "string" false)
      else if attr =?s "emails.value" then Some (AttrDef "LOWER(u.email)" "string" true)
      else if attr =?s "active" then Some (AttrDef "" "active" false)
      else if attr =?s "externalid" then Some (AttrDef "u.external_id" "string" false)
      else if attr =?s "meta.created" then Some (AttrDef "u.created_at" "time" false)
      else if attr =?s "meta.lastmodified" then Some (AttrDef "u.updated_at" "time" false)
      else None
  | SCIMResourceTypeGroup =>
      if attr =?s "displayname" then Some (AttrDef "g.display_name" "string" false)
      else if attr =?s "externalid" then Some (AttrDef "g.external_id" "string" false)
      else if attr =?s "members.value" then Some (AttrDef "" "members" false)
      else if attr =?s "meta.created" then Some (AttrDef "g.created_at" "time" false)
      else if attr =?s "meta.lastmodified" then Some (AttrDef "g.updated_at" "time" false)
      else None
  end.

(** The arguments of the statement collected so far; every argument of a filter is a text. *)
Definition sql_args := list string.

Definition placeholder (n : nat) : string := "$" +:+ Itoa_N (N.of_nat n).

Definition nextArg (args : sql_args) (v : string) : string * sql_args :=
  let args := args ++ [v] in (placeholder (length args), args).

Definition comparisonOperator (op : string) : option string :=
  let op := ToLower op in
  if op =?s "eq" then Some "="
  else if op =?s "ne" then Some "<>"
  else if op =?s "gt" then Some ">"
  else if op =?s "ge" then Some ">="
  else if op =?s "lt" then Some "<"
  else if op =?s "le" then Some "<="
  else None.

Definition order_operators : list string := ["eq"; "ne"; "gt"; "ge"; "lt"; "le"].

Definition built := result (string * sql_args).

Definition buildSimplePredicate (expr op value : string) (lower : bool) (args : sql_args)
    : built :=
  let like pattern :=
    let '(ph, args) := nextArg args pattern in
    Ok ("(" +:+ expr +:+ " ILIKE " +:+ ph +:+ ")", args) in
  if bool_decide (op ∈ order_operators) then
    match comparisonOperator op with
    | None => Err ErrInvalidSCIMFilter
    | Some sqlOp =>
        let '(ph, args) := nextArg args value in
        Ok (if lower then "(" +:+ expr +:+ " " +:+ sqlOp +:+ " LOWER(" +:+ ph +:+ "))"
            else "(" +:+ expr +:+ " " +:+ sqlOp +:+ " " +:+ ph +:+ ")", args)
    end
  else if op =?s "co" then like ("%" +:+ value +:+ "%")
  else if op =?s "sw" then like (value +:+ "%")
  else if op =?s "ew" then like ("%" +:+ value)
  else Err ErrInvalidSCIMFilter.

Definition buildActiveClause (op : string) (value : filterValue) (args : sql_args) : built :=
  if op =?s "pr" then Ok ("(u.status IS NOT NULL)", args)
  else if (op =?s "eq") || (op =?s "ne") then
    match value with
    | FBool b =>
        Ok (if Bool.eqb b (op =?s "eq") then "(u.status = 'ACTIVE')"
            else "(u.status <> 'ACTIVE')", args)
    | _ => Err ErrInvalidSCIMFilter
    end
  else Err ErrInvalidSCIMFilter.

Section Translation.
(** [fmt.Sprint] of a float64. *)
Context (sprint_float : float64 → string).

Definition anyToString (v : filterValue) : string :=
  match v with
  | FText s => TrimSpace s
  | FNil => ""
  | FBool b => if b then "true" else "false"
  | FNumber f => TrimSpace (sprint_float f)
  end.

Definition members_base : string :=
  "SELECT 1 FROM team_members tmf WHERE tmf.tenant_id = g.tenant_id AND tmf.team_id = g.team_id".

Definition buildMembersClause (op : string) (value : filterValue) (args : sql_args) : built :=
  if op =?s "pr" then Ok ("EXISTS (" +:+ members_base +:+ ")", args)
  else if bool_decide (op ∈ comparison_operators) then
    let raw := anyToString value in
    if raw =?s "" then Err ErrInvalidSCIMFilter
    else
      let predicateOp := if op =?s "ne" then "eq" else op in
      '(predicate, args) ← buildSimplePredicate "tmf.user_id::text" predicateOp raw false args;
      let existsExpr := "EXISTS (" +:+ members_base +:+ " AND " +:+ predicate +:+ ")" in
      Ok (if op =?s "ne" then "NOT (" +:+ existsExpr +:+ ")" else existsExpr, args)
  else Err ErrInvalidSCIMFilter.

Definition buildTimeClause (expr op : string) (value : filterValue) (args : sql_args) : built :=
  if op =?s "pr" then Ok ("(" +:+ expr +:+ " IS NOT NULL)", args)
  else
    let raw := anyToString value in
    if raw =?s "" then Err ErrInvalidSCIMFilter
    else
      match is_rfc3339 raw with
      | None => Err ErrInvalidSCIMFilter
      | Some _ =>
          let '(ph, args) := nextArg args raw in
          match comparisonOperator op with
          | None => Err ErrInvalidSCIMFilter
          | Some sqlOp =>
              Ok ("(" +:+ expr +:+ " " +:+ sqlOp +:+ " " +:+ ph +:+ "::timestamptz)", args)
          end
      end.

Definition buildStringOrNumericClause (expr op : string) (value : filterValue) (lower : bool)
    (args : sql_args) : built :=
  if op =?s "pr" then Ok ("(" +:+ expr +:+ " IS NOT NULL)", args)
  else
    let raw := match value with
               | FText s => if lower then FText (ToLower s) else value
               | _ => value
               end in
    let strValue := anyToString raw in
    if (strValue =?s "") && negb (op =?s "eq") && negb (op =?s "ne") then
      Err ErrInvalidSCIMFilter
    else buildSimplePredicate expr op strValue lower args.

Definition comparisonSQL (resource : SCIMResourceType) (Attribute Operator : string)
    (Value : filterValue) (args : sql_args) : built :=
  let attr := ToLower (TrimSpace Attribute) in
  let op := ToLower (TrimSpace Operator) in
  match scimFilterAttribute resource attr with
  | None => Err ErrInvalidSCIMFilter
  | Some def =>
      if ad_kind def =?s "members" then buildMembersClause op Value args
      else if ad_kind def =?s "active" then buildActiveClause op Value args
      else if ad_kind def =?s "time" then buildTimeClause (ad_expr def) op Value args
      else buildStringOrNumericClause (ad_expr def) op Value (ad_lower def) args
  end.

Fixpoint toSQL (resource : SCIMResourceType) (n : SCIMFilterNode) (args : sql_args) : built :=
  match n with
  | NilNode => Ok ("", args)
  | Node Kind Attribute Operator Value Left Right =>
      if Kind =?s "logical" then
        '(lhs, args) ← toSQL resource Left args;
        '(rhs, args) ← toSQL resource Right args;
        let op := ToUpper Operator in
        if negb (op =?s "AND") && negb (op =?s "OR") then Err ErrInvalidSCIMFilter
        else Ok ("(" +:+ lhs +:+ " " +:+ op +:+ " " +:+ rhs +:+ ")", args)
      else if Kind =?s "not" then
        '(inner, args) ← toSQL resource Left args;
        Ok ("(NOT (" +:+ inner +:+ "))", args)
      else if Kind =?s "comparison" then comparisonSQL resource Attribute Operator Value args
      else Err ErrInvalidSCIMFilter
  end.

(** [parsedSCIMFilter.ToSQL] *)
Definition ToSQL (resource : SCIMResourceType) (root : SCIMFilterNode) : built :=
  match root with NilNode => Ok ("", []) | _ => toSQL resource root [] end.
End Translation.


(** ** Reference syntax

    Filters as trees, their nodes, and their text: tokens with the fewest parentheses,
    one space between two tokens. *)

Inductive filter_operand :=
  | LWord (w : string)
  | LString (s : string)
  | LBool (b : bool)
  | LNumber (txt : string).

Inductive filter_expr :=
  | FPresent (attr op : string)
  | FCompare (attr op : string) (v : filter_operand)
  | FNegation (e : filter_expr)
  | FBoth (a b : filter_expr)
  | FEither (a b : filter_expr).

Definition operand_value (v : filter_operand) : filterValue :=
  match v with
  | LWord s | LString s => FText s
  | LBool b => FBool b
  | LNumber t => default FNil (FNumber <$> ParseFloat t)
  end.

Fixpoint node_of (e : filter_expr) : SCIMFilterNode :=
  match e with
  | FPresent attr op => comparison_node (ToLower attr) "pr" FNil
  | FCompare attr op v => comparison_node (ToLower attr) (ToLower op) (operand_value v)
  | FNegation e => not_node (node_of e)
  | FBoth a b => logical "and" (node_of a) (node_of b)
  | FEither a b => logical "or" (node_of a) (node_of b)
  end.

Fixpoint tree_size (n : SCIMFilterNode) : nat :=
  match n with
  | NilNode => 0
  | Node _ _ _ _ l r => S (tree_size l + tree_size r)
  end.

Definition word (w : string) : filterToken := FilterToken filterTokenIdentifier w.

Definition operand_token (v : filter_operand) : filterToken :=
  match v with
  | LWord w => word w
  | LString s => FilterToken filterTokenString s
  | LBool b => FilterToken filterTokenBool (if b then "true" else "false")
  | LNumber t => FilterToken filterTokenNumber t
  end.

Definition filter_level (e : filter_expr) : nat :=
  match e with FEither _ _ => 0 | FBoth _ _ => 1 | _ => 2 end.

Fixpoint filter_tokens (lvl : nat) (e : filter_expr) : list filterToken :=
  let body :=
    match e with
    | FPresent attr op => [word attr; word op]
    | FCompare attr op v => [word attr; word op; operand_token v]
    | FNegation e => word "not" :: filter_tokens 2 e
    | FBoth a b => filter_tokens 1 a ++ word "and" :: filter_tokens 2 b
    | FEither a b => filter_tokens 0 a ++ word "or" :: filter_tokens 1 b
    end in
  if (lvl <=? filter_level e)%nat then body
  else FilterToken filterTokenLParen "(" :: body ++ [FilterToken filterTokenRParen ")"].

Fixpoint escape_quoted (s : string) : string :=
  match s with
  | EmptyString => EmptyString
  | String c r =>
      if Ascii.eqb c "\" || Ascii.eqb c "034" then String "\" (String c (escape_quoted r))
      else String c (escape_quoted r)
  end.

Definition quote : string := String "034" EmptyString.

Definition token_text (t : filterToken) : string :=
  match ftyp t with
  | filterTokenString => quote +:+ (escape_quoted (fval t) +:+ quote)
  | _ => fval t
  end.

Fixpoint spaced (l : list string) : string :=
  match l with
  | [] => ""
  | [t] => t
  | t :: l => t +:+ String " " (spaced l)
  end.

Definition render_filter (e : filter_expr) : string := spaced (token_text <$> filter_tokens 0 e).

(** What the tokenizer reads as one word or one number. *)
Definition word_text (s : string) : bool :=
  match s with
  | String c r =>
      isIdentifierRune c && negb (is_digit c || Ascii.eqb c "-") && all_chars isIdentifierRune r
      && negb ((ToLower s =?s "true") || (ToLower s =?s "false"))
  | EmptyString => false
  end.

Definition number_token (s : string) : bool :=
  match s with
  | String c r =>
      (is_digit c || Ascii.eqb c "-") && all_chars number_rest r
      && match ParseFloat s with Some _ => true | None => false end
  | EmptyString => false
  end.

Definition wf_operand (v : filter_operand) : bool :=
  match v with LWord w => word_text w | LNumber t => number_token t | _ => true end.

Definition attribute_text (attr : string) : bool :=
  word_text attr && negb (EqualFold attr "not").

Fixpoint wf_filter (e : filter_expr) : bool :=
  match e with
  | FPresent attr op => attribute_text attr && word_text op && (ToLower op =?s "pr")
  | FCompare attr op v =>
      attribute_text attr && word_text op
      && bool_decide (ToLower op ∈ comparison_operators) && negb (ToLower op =?s "pr")
      && wf_operand v
  | FNegation e => wf_filter e
  | FBoth a b | FEither a b => wf_filter a && wf_filter b
  end.

(** What the parser builds. *)
Inductive parsed_node : SCIMFilterNode → Prop :=
  | parsed_logical op l r :
      op = "and" ∨ op = "or" → parsed_node l → parsed_node r → parsed_node (logical op l r)
  | parsed_not n : parsed_node n → parsed_node (not_node n)
  | parsed_comparison attr op v :
      attr ≠ "" → op ∈ comparison_operators → (op = "pr" ↔ v = FNil) →
      parsed_node (comparison_node attr op v).

(** ** The parser terminates, and what it returns *)

(** On inputs of at most [N] tokens the parser returns no more tokens than it was given,
    and has counted the nodes of the tree it returns. *)
Definition parses_well (N : nat) (q : parse_step) : Prop :=
  ∀ p, (length (tokens p) ≤ N)%nat →
    match q p with
    | Ok (n, p') =>
        (length (tokens p') ≤ length (tokens p))%nat ∧ parsed_node n
        ∧ nodeCount p' = (nodeCount p + tree_size n)%nat
    | Err e => e = ErrInvalidSCIMFilter
    end.

Lemma length_advance p : (length (tokens (advance p)) ≤ length (tokens p))%nat.
Proof. destruct p as [[|t l] c]; cbn; lia. Qed.

Lemma length_advance_lt p :
  ftyp (peek p) ≠ filterTokenEOF → (length (tokens (advance p)) < length (tokens p))%nat.
Proof. destruct p as [[|t l] c]; cbn; [done | lia]. Qed.

Lemma keyword_type w t : keyword w t = true → ftyp t ≠ filterTokenEOF.
Proof. unfold keyword. intros H. bool_simpl. case_bool_decide; congruence. Qed.

Lemma parseValue_spec t :
  match parseValue t with Ok v => v ≠ FNil | Err e => e = ErrInvalidSCIMFilter end.
Proof. unfold parseValue. destruct (ftyp t); try done. by destruct (ParseFloat _). Qed.

Lemma parseComparison_well N : parses_well N parseComparison.
Proof.
  intros p _. unfold parseComparison. cbv zeta.
  pose proof (length_advance p) as H1. pose proof (length_advance (advance p)) as H2.
  pose proof (length_advance (advance (advance p))) as H3.
  case_bool_decide; cbn [negb]; [|done].
  destruct (String.eqb_spec (ToLower (TrimSpace (fval (peek p)))) "") as [|Ha]; [done|].
  case_bool_decide; cbn [negb]; [|done].
  case_bool_decide as Hop; cbn [negb]; [|done].
  destruct (String.eqb_spec (ToLower (TrimSpace (fval (peek (advance p))))) "pr") as [E|E].
  - cbn in *. split_and!; [lia | | lia]. rewrite E in *. by constructor.
  - pose proof (parseValue_spec (peek (advance (advance p)))) as Hv.
    destruct (parseValue _) as [v|e]; cbn in *; [|done].
    split_and!; [lia | | lia]. by constructor.
Qed.

Lemma parsePrimary_well N q : parses_well N q → parses_well (S N) (parsePrimary q).
Proof.
  intros Hq p Hp. unfold parsePrimary. case_decide as Hd; [|by apply (parseComparison_well (S N))].
  pose proof (length_advance_lt p ltac:(congruence)) as Hl.
  specialize (Hq (advance p) ltac:(lia)).
  destruct (q (advance p)) as [[n p']|e]; cbn; [|done]. destruct Hq as (H1 & H2 & H3).
  pose proof (length_advance p'). case_decide; [|done]. split_and!; [lia | done..].
Qed.

Lemma logical_loop_well N op q :
  op = "and" ∨ op = "or" → parses_well N q →
  ∀ n p l, (length (tokens p) ≤ n)%nat → (length (tokens p) ≤ N)%nat → parsed_node l →
    match logical_loop n op q l p with
    | Ok (r, p') =>
        (length (tokens p') ≤ length (tokens p))%nat ∧ parsed_node r
        ∧ (nodeCount p' + tree_size l = nodeCount p + tree_size r)%nat
    | Err e => e = ErrInvalidSCIMFilter
    end.
Proof.
  intros Hop Hq. induction n as [|n IH]; intros p l Hn HN Hl; cbn.
  - destruct (keyword op (peek p)) eqn:Ek; [|split_and!; done || lia].
    apply keyword_type, length_advance_lt in Ek. lia.
  - destruct (keyword op (peek p)) eqn:Ek; [|split_and!; done || lia].
    apply keyword_type, length_advance_lt in Ek.
    specialize (Hq (advance p) ltac:(lia)).
    destruct (q (advance p)) as [[r p']|e]; cbn; [|done]. destruct Hq as (H1 & H2 & H3).
    specialize (IH (FilterParser (tokens p') (S (nodeCount p'))) (logical op l r)).
    cbn in IH. specialize (IH ltac:(lia) ltac:(lia) ltac:(by constructor)).
    destruct (logical_loop _ _ _ _ _) as [[r' p'']|e]; [|done].
    destruct IH as (I1 & I2 & I3). cbn in H3. split_and!; [lia | done | lia].
Qed.

(** An operand followed by the loop over its connective. *)
Lemma looped_well N op q (s : parse_step) :
  op = "and" ∨ op = "or" → parses_well N q →
  (∀ p, s p = ('(l, p) ← q p; logical_loop (length (tokens p)) op q l p)) → parses_well N s.
Proof.
  intros Hop Hq Hs p Hp. rewrite Hs. pose proof (Hq p Hp) as Hl.
  destruct (q p) as [[l p']|e]; cbn; [|done]. destruct Hl as (H1 & H2 & H3).
  pose proof (logical_loop_well N op q Hop Hq (length (tokens p')) p' l) as HL.
  specialize (HL ltac:(lia) ltac:(lia) H2).
  destruct (logical_loop _ _ _ _ _) as [[r p'']|e]; [|done].
  destruct HL as (I1 & I2 & I3). split_and!; [lia | done | lia].
Qed.

Lemma parseOr_well N q : parses_well N q → parses_well N (parseOr q).
Proof.
  intros Hq. apply (looped_well N "or" (parseAnd q)); [by right | | done].
  by apply (looped_well N "and" q); [left | |].
Qed.

Lemma parseUnary_well fuel : ∀ N, (N < fuel)%nat → parses_well N (parseUnary fuel).
Proof.
  induction fuel as [|fuel IH]; intros N HN p Hp; [lia|]. cbn.
  destruct (keyword "not" (peek p)) eqn:Ek.
  - apply keyword_type, length_advance_lt in Ek.
    pose proof (IH (length (tokens (advance p))) ltac:(lia) (advance p) ltac:(lia)) as H.
    destruct (parseUnary fuel (advance p)) as [[n p']|e]; cbn; [|done].
    destruct H as (H1 & H2 & H3). cbn in H3. split_and!; [lia | by constructor | lia].
  - destruct fuel as [|fuel'].
    + assert (tokens p = []) as E by (destruct (tokens p); cbn in *; [done | lia]).
      unfold parsePrimary, peek. rewrite E, decide_False by done. rewrite <- E.
      apply (parseComparison_well N p Hp).
    + apply (parsePrimary_well fuel'); [apply parseOr_well, IH; lia | lia].
Qed.

Lemma scan_quoted_length s : ∀ esc txt rest,
  scan_quoted s esc = Some (txt, rest) → (String.length rest < String.length s)%nat.
Proof.
  induction s as [|c s IH]; intros esc txt rest H; cbn in H; [done|].
  repeat case_match; simplify_eq; cbn; try lia.
  all: first [apply IH in H; lia
             | apply fmap_Some in H as ([t r] & H & [= -> ->]); apply IH in H; cbn; lia].
Qed.

Lemma fmap_tokens_error {A B} (f : A → B) (r : result A) e :
  match r with Ok _ => True | Err e' => e' = e end →
  match f <$> r with Ok _ => True | Err e' => e' = e end.
Proof. by destruct r. Qed.

Lemma tokenizeFilter_from_total f : ∀ s, (String.length s < f)%nat →
  match tokenizeFilter_from f s with Ok _ => True | Err e => e = ErrInvalidSCIMFilter end.
Proof.
  induction f as [|f IH]; intros s Hl; [lia|]. destruct s as [|c r]; [done|]. cbn in Hl.
  cbn [tokenizeFilter_from].
  destruct (is_space c); [apply IH; lia|].
  destruct (Ascii.eqb c "("); [apply fmap_tokens_error, IH; lia|].
  destruct (Ascii.eqb c ")"); [apply fmap_tokens_error, IH; lia|].
  destruct (Ascii.eqb c "034").
  { destruct (scan_quoted r false) as [[txt rest]|] eqn:E; [|done].
    apply scan_quoted_length in E. apply fmap_tokens_error, IH; lia. }
  destruct (scan_number c r) as [[lit rest]|] eqn:E.
  { unfold scan_number in E. pose proof (scan_while_length number_rest r) as Hr.
    destruct (_ || _); [|done]. destruct (scan_while number_rest r) as [w rest'].
    destruct (ParseFloat _); simplify_eq. cbn in Hr. apply fmap_tokens_error, IH; lia. }
  destruct (isIdentifierRune c); [|done].
  pose proof (scan_while_length isIdentifierRune r) as Hr.
  destruct (scan_while isIdentifierRune r) as [w rest]. cbn in Hr.
  apply fmap_tokens_error, IH; lia.
Qed.

Lemma ParseSCIMFilter_outcome s :
  match ParseSCIMFilter s with
  | Ok root => parsed_node root ∧ (tree_size root ≤ 50)%nat
  | Err e => e = ErrInvalidSCIMFilter
  end.
Proof.
  unfold ParseSCIMFilter. destruct (TrimSpace s =?s ""); [done|].
  pose proof (tokenizeFilter_from_total _ (TrimSpace s) (Nat.lt_succ_diag_r _)) as Ht.
  unfold tokenizeFilter. destruct (tokenizeFilter_from _ _) as [ts|e]; cbn [mbind result_bind];
    [|done].
  pose proof (parseOr_well _ _ (parseUnary_well _ _ (Nat.lt_succ_diag_r (length ts)))
                (FilterParser ts 0) (Nat.le_refl _)) as Hp.
  unfold parseExpression. cbn [tokens].
  destruct (parseOr _ _) as [[root p]|e]; cbn [mbind result_bind negb]; [|done].
  destruct Hp as (_ & Hr & Hc). cbn in Hc.
  case_bool_decide; cbn [negb]; [|done].
  destruct (Nat.ltb_spec 50 (nodeCount p)); [done|]. split; [done|lia].
Qed.

Lemma ParseSCIMFilter_parsed s root :
  ParseSCIMFilter s = Ok root → parsed_node root ∧ (tree_size root ≤ 50)%nat.
Proof. intros H. pose proof (ParseSCIMFilter_outcome s) as Ho. by rewrite H in Ho. Qed.

(** The parser terminates on every text and refuses it or returns a tree of at most 50
    nodes, each of them a connective with its operands, a negation, or a comparison of an
    attribute with one of the ten operators, which lacks a value exactly for [pr].  The
    fuel of the tokenizer and of the recursive descent is always enough. *)
Theorem ParseSCIMFilter_total s :
  ParseSCIMFilter s = Err ErrInvalidSCIMFilter ∨
  ∃ root, ParseSCIMFilter s = Ok root ∧ parsed_node root ∧ (tree_size root ≤ 50)%nat.
Proof.
  pose proof (ParseSCIMFilter_outcome s) as Ho.
  destruct (ParseSCIMFilter s) as [root|e]; [right; by exists root | left; by rewrite Ho].
Qed.

(** ** The parser reads the tokens of a filter back *)

#[local] Abbreviation FP := FilterParser.

(** What each level of the parser does on the tokens of [e] followed by [rest].  The
    connective levels leave their loop to run on [rest]. *)
Definition unary_ok (e : filter_expr) : Prop := ∀ fuel rest c,
  (length (filter_tokens 2 e) ≤ fuel)%nat →
  parseUnary fuel (FP (filter_tokens 2 e ++ rest) c) =
    Ok (node_of e, FP rest (c + tree_size (node_of e))).

Definition and_level_ok (e : filter_expr) : Prop := ∀ fuel rest c,
  (length (filter_tokens 1 e) ≤ fuel)%nat →
  ∃ n, (length rest ≤ n)%nat ∧
    parseAnd (parseUnary fuel) (FP (filter_tokens 1 e ++ rest) c) =
      logical_loop n "and" (parseUnary fuel) (node_of e)
        (FP rest (c + tree_size (node_of e))).

Definition or_level_ok (e : filter_expr) : Prop := ∀ fuel rest c,
  (length (filter_tokens 0 e) ≤ fuel)%nat → keyword "and" (peek (FP rest c)) = false →
  ∃ n, (length rest ≤ n)%nat ∧
    parseOr (parseUnary fuel) (FP (filter_tokens 0 e ++ rest) c) =
      logical_loop n "or" (parseAnd (parseUnary fuel)) (node_of e)
        (FP rest (c + tree_size (node_of e))).

Lemma logical_loop_stop n op q l p :
  keyword op (peek p) = false → logical_loop n op q l p = Ok (l, p).
Proof. intros H. destruct n; cbn; by rewrite H. Qed.

Lemma logical_loop_step n op q l ts c :
  keyword op (word op) = true →
  logical_loop (S n) op q l (FP (word op :: ts) c) =
    ('(r, p) ← q (FP ts c);
     logical_loop n op q (logical op l r) (FP (tokens p) (S (nodeCount p)))).
Proof.
  intros H. cbn -[keyword]. unfold peek. cbn -[keyword]. rewrite H. unfold advance. cbn.
  by destruct (q (FP ts c)) as [[r p]|].
Qed.

Lemma tokens_1_2 e : filter_level e ≠ 1%nat → filter_tokens 1 e = filter_tokens 2 e.
Proof. by destruct e. Qed.
Lemma tokens_0_1 e : filter_level e ≠ 0%nat → filter_tokens 0 e = filter_tokens 1 e.
Proof. by destruct e. Qed.
Lemma tokens_2_paren e :
  filter_level e ≠ 2%nat →
  filter_tokens 2 e =
    FilterToken filterTokenLParen "(" :: filter_tokens 0 e ++ [FilterToken filterTokenRParen ")"].
Proof. by destruct e. Qed.

Lemma unary_to_and e : filter_level e ≠ 1%nat → unary_ok e → and_level_ok e.
Proof.
  intros Hl Hu fuel rest c Hf. rewrite tokens_1_2 in Hf |- * by done.
  exists (length rest). split; [done|]. unfold parseAnd. by rewrite (Hu fuel rest c Hf).
Qed.

Lemma and_to_or e : filter_level e ≠ 0%nat → and_level_ok e → or_level_ok e.
Proof.
  intros Hl Ha fuel rest c Hf Hk. rewrite tokens_0_1 in Hf |- * by done.
  destruct (Ha fuel rest c Hf) as (n & Hn & E). exists (length rest). split; [done|].
  unfold parseOr. by rewrite E, logical_loop_stop by done.
Qed.

Lemma paren_unary e : filter_level e ≠ 2%nat → or_level_ok e → unary_ok e.
Proof.
  intros Hl Ho fuel rest c Hf. rewrite tokens_2_paren in Hf |- * by done.
  cbn in Hf. rewrite length_app in Hf. destruct fuel as [|fuel]; [lia|].
  destruct (Ho fuel (FilterToken filterTokenRParen ")" :: rest) c) as (n & Hn & E);
    [lia | done |].
  cbn [parseUnary app]. unfold parsePrimary, advance, peek. cbn [tokens nodeCount tail].
  rewrite decide_True by done. rewrite <- app_assoc. cbn [app].
  rewrite E, logical_loop_stop by done. done.
Qed.

Lemma both_ok a b : and_level_ok a → unary_ok b → and_level_ok (FBoth a b).
Proof.
  intros Ha Hb fuel rest c Hf. cbn in Hf. rewrite length_app in Hf. cbn in Hf.
  cbn [filter_tokens Nat.leb filter_level]. rewrite <- app_assoc.
  destruct (Ha fuel ((word "and" :: filter_tokens 2 b) ++ rest) c) as (n & Hn & E); [lia|].
  destruct n as [|n]; [cbn in Hn; lia|]. cbn in Hn. rewrite length_app in Hn.
  exists n. split; [lia|]. rewrite E. cbn [app]. rewrite logical_loop_step by done.
  rewrite (Hb fuel rest _ ltac:(lia)). cbn. f_equal. f_equal. lia.
Qed.

Lemma either_ok a b : or_level_ok a → and_level_ok b → or_level_ok (FEither a b).
Proof.
  intros Ha Hb fuel rest c Hf Hk. cbn in Hf. rewrite length_app in Hf. cbn in Hf.
  cbn [filter_tokens Nat.leb filter_level]. rewrite <- app_assoc.
  destruct (Ha fuel ((word "or" :: filter_tokens 1 b) ++ rest) c) as (n & Hn & E); [lia | done|].
  destruct n as [|n]; [cbn in Hn; lia|]. cbn in Hn. rewrite length_app in Hn.
  exists n. split; [lia|]. rewrite E. cbn [app]. rewrite logical_loop_step by done.
  destruct (Hb fuel rest (c + tree_size (node_of a))%nat ltac:(lia)) as (m & Hm & E').
  rewrite E', logical_loop_stop by done. cbn. f_equal. f_equal. lia.
Qed.

Lemma negation_ok e : unary_ok e → unary_ok (FNegation e).
Proof.
  intros He fuel rest c Hf. cbn in Hf. destruct fuel as [|fuel]; [lia|].
  cbn [filter_tokens Nat.leb filter_level app parseUnary]. unfold peek, advance.
  cbn [tokens nodeCount tail].
  replace (keyword "not" (word "not")) with true by done.
  rewrite (He fuel rest c ltac:(lia)). unfold newNode. cbn. do 3 f_equal. lia.
Qed.

(** A word has no white space around it. *)
Lemma identifier_rune_nonspace c : isIdentifierRune c = true → negb (is_space c) = true.
Proof. apply implb_true_iff. revert c. by_bytes. Qed.

Lemma word_text_tight w : word_text w = true → tight w.
Proof.
  intros H. destruct w as [|c w]; [done|]. cbn in H. bool_simpl. apply tight_chars; [|done].
  apply (all_chars_impl isIdentifierRune); [apply identifier_rune_nonspace|].
  cbn. by rewrite_tests.
Qed.

Lemma word_text_TrimSpace w : word_text w = true → TrimSpace w = w.
Proof. intros H. by apply tight_TrimSpace, word_text_tight. Qed.

Lemma ToLower_nonempty w : w ≠ "" → ToLower w ≠ "".
Proof. by destruct w. Qed.

Lemma operand_token_value v :
  wf_operand v = true → parseValue (operand_token v) = Ok (operand_value v).
Proof.
  destruct v as [w|s|b|t]; cbn; try done; [by destruct b|].
  unfold number_token, parseValue. cbn. destruct t as [|c t]; [done|]. intros H. bool_simpl.
  by destruct (ParseFloat (String c t)).
Qed.

Lemma peek_cons t l c : peek (FP (t :: l) c) = t.
Proof. done. Qed.
Lemma advance_cons t l c : advance (FP (t :: l) c) = FP l c.
Proof. done. Qed.

(** The head of a comparison: its attribute and its operator. *)
Lemma parseUnary_comparison fuel attr op rest c :
  attribute_text attr = true → word_text op = true → ToLower op ∈ comparison_operators →
  parseUnary (S fuel) (FP (word attr :: word op :: rest) c) =
    if ToLower op =?s "pr" then
      Ok (comparison_node (ToLower attr) "pr" FNil, FP rest (S c))
    else
      v ← parseValue (peek (FP rest c));
      Ok (comparison_node (ToLower attr) (ToLower op) v, FP (tail rest) (S c)).
Proof.
  intros Ha Ho Hop. unfold attribute_text in Ha. apply andb_prop in Ha as [Ha Hn].
  cbn [parseUnary]. unfold peek at 1. cbn [tokens].
  assert (keyword "not" (word attr) = false) as ->.
  { unfold keyword. cbn [word fval ftyp]. by apply negb_true_iff in Hn as ->. }
  unfold parsePrimary. unfold peek at 1. cbn [tokens]. rewrite decide_False by done.
  unfold parseComparison. cbv zeta. rewrite !advance_cons, !peek_cons. cbn [word fval ftyp].
  rewrite bool_decide_eq_true_2 by done. cbn [negb].
  rewrite (word_text_TrimSpace attr Ha), (word_text_TrimSpace op Ho).
  destruct (String.eqb_spec (ToLower attr) "") as [E|_].
  { destruct (word_text_tight attr Ha) as (_ & _ & Hne). by apply ToLower_nonempty in E. }
  rewrite !bool_decide_eq_true_2 by done. cbn [negb].
  destruct (String.eqb_spec (ToLower op) "pr") as [->|_]; done.
Qed.

Lemma present_ok attr op : wf_filter (FPresent attr op) = true → unary_ok (FPresent attr op).
Proof.
  cbn. intros Hwf fuel rest c Hf. bool_simpl. destruct fuel as [|fuel]; [cbn in Hf; lia|].
  assert (E : ToLower op = "pr") by by apply String.eqb_eq.
  cbn [filter_tokens Nat.leb filter_level app].
  rewrite parseUnary_comparison by (done || rewrite E; vm_compute; repeat constructor).
  rewrite E. cbn. do 3 f_equal. lia.
Qed.

Lemma compare_ok attr op v :
  wf_filter (FCompare attr op v) = true → unary_ok (FCompare attr op v).
Proof.
  cbn. intros Hwf fuel rest c Hf. bool_simpl. destruct fuel as [|fuel]; [cbn in Hf; lia|].
  cbn [filter_tokens Nat.leb filter_level app].
  match goal with H : bool_decide _ = true |- _ => apply bool_decide_eq_true in H end.
  rewrite parseUnary_comparison by done. rewrite_tests.
  unfold peek. cbn [tokens]. rewrite operand_token_value by done. cbn.
  do 3 f_equal. lia.
Qed.

Lemma filter_levels e :
  wf_filter e = true → unary_ok e ∧ and_level_ok e ∧ or_level_ok e.
Proof.
  assert (Hup : ∀ e, filter_level e = 2%nat → unary_ok e →
                unary_ok e ∧ and_level_ok e ∧ or_level_ok e).
  { intros e' Hl Hu. assert (and_level_ok e') by (apply unary_to_and; [lia | done]).
    split_and!; [done..|]. apply and_to_or; [lia | done]. }
  induction e as [a o|a o v|e IH|a IHa b IHb|a IHa b IHb]; intros Hwf.
  - by apply Hup, present_ok.
  - by apply Hup, compare_ok.
  - destruct (IH Hwf) as (Hu & _ & _). by apply Hup, negation_ok.
  - cbn in Hwf. apply andb_prop in Hwf as [Ha Hb].
    destruct (IHa Ha) as (_ & Aa & _), (IHb Hb) as (Ub & _ & _).
    assert (Hand : and_level_ok (FBoth a b)) by by apply both_ok.
    assert (or_level_ok (FBoth a b)) by by apply and_to_or.
    split_and!; [by apply paren_unary | done..].
  - cbn in Hwf. apply andb_prop in Hwf as [Ha Hb].
    destruct (IHa Ha) as (_ & _ & Oa), (IHb Hb) as (_ & Ab & _).
    assert (Hor : or_level_ok (FEither a b)) by by apply either_ok.
    assert (unary_ok (FEither a b)) by by apply paren_unary.
    split_and!; [done | by apply unary_to_and | done].
Qed.

(** ** The tokenizer reads the text of tokens back *)

Definition wf_token (t : filterToken) : bool :=
  match ftyp t with
  | filterTokenIdentifier => word_text (fval t)
  | filterTokenString => true
  | filterTokenNumber => number_token (fval t)
  | filterTokenBool => (fval t =?s "true") || (fval t =?s "false")
  | filterTokenLParen => fval t =?s "("
  | filterTokenRParen => fval t =?s ")"
  | filterTokenEOF => false
  end.

(** A byte that starts a word or a number. *)
Definition plain_start (c : ascii) : bool :=
  negb (is_space c || Ascii.eqb c "(" || Ascii.eqb c ")" || Ascii.eqb c "034").

Lemma word_start_plain c :
  isIdentifierRune c || (is_digit c || Ascii.eqb c "-") = true → plain_start c = true.
Proof. apply implb_true_iff. revert c. by_bytes. Qed.

Lemma tokenizeFilter_plain f c r :
  plain_start c = true →
  tokenizeFilter_from (S f) (String c r) =
    match scan_number c r with
    | Some (lit, rest) =>
        cons (FilterToken filterTokenNumber lit) <$> tokenizeFilter_from f rest
    | None =>
        if isIdentifierRune c then
          let '(w, rest) := scan_while isIdentifierRune r in
          cons (word_token (String c w)) <$> tokenizeFilter_from f rest
        else Err ErrInvalidSCIMFilter
    end.
Proof.
  unfold plain_start. rewrite negb_true_iff, !orb_false_iff. intros [[[H1 H2] H3] H4].
  cbn [tokenizeFilter_from]. by rewrite H1, H2, H3, H4.
Qed.

Lemma scan_quoted_escape s rest :
  scan_quoted (escape_quoted s +:+ (quote +:+ rest)) false = Some (s, rest).
Proof.
  induction s as [|c s IH]; [done|]. cbn [escape_quoted].
  destruct (Ascii.eqb c "\") eqn:E1; cbn [orb].
  - apply Ascii.eqb_eq in E1 as ->. do 2 rewrite string_app_cons. cbn. by rewrite IH.
  - destruct (Ascii.eqb c "034") eqn:E2; rewrite string_app_cons;
      [rewrite string_app_cons|]; cbn.
    + apply Ascii.eqb_eq in E2 as ->. cbn. by rewrite IH.
    + by rewrite E1, E2, IH.
Qed.

Lemma word_token_word w : word_text w = true → word_token w = word w.
Proof.
  intros H. unfold word_token. rewrite word_text_TrimSpace by done.
  destruct w as [|c w]; [done|]. cbn -[ToLower] in H. bool_simpl. cbv zeta. by rewrite_tests.
Qed.

(** One token is read off the front of the text. *)
Lemma tokenizeFilter_step f t rest :
  wf_token t = true → separated rest →
  tokenizeFilter_from (S f) (token_text t +:+ rest) = cons t <$> tokenizeFilter_from f rest.
Proof.
  destruct t as [k x]. intros Hwf Hsep. unfold wf_token in Hwf. cbn [ftyp fval] in Hwf.
  destruct k; try done.
  - change (token_text _) with x. pose proof (word_token_word x Hwf) as Hx.
    destruct x as [|c w]; [done|]. cbn [word_text] in Hwf. rewrite string_app_cons.
    rewrite !andb_true_iff, negb_true_iff in Hwf. destruct Hwf as [[[H1 H2] H3] _].
    rewrite tokenizeFilter_plain by (apply word_start_plain; by rewrite H1).
    unfold scan_number. rewrite H2, H1.
    rewrite (scan_while_app _ w rest) by (done || by apply separated_head). by rewrite Hx.
  - change (token_text _) with (quote +:+ (escape_quoted x +:+ quote)).
    rewrite !string_app_assoc. unfold quote at 1. rewrite string_app_cons, string_app_nil.
    cbn [tokenizeFilter_from]. by rewrite scan_quoted_escape.
  - change (token_text _) with x. destruct x as [|c w]; [done|].
    cbn [number_token] in Hwf. rewrite !andb_true_iff in Hwf. destruct Hwf as [[H1 H2] H3].
    rewrite string_app_cons.
    rewrite tokenizeFilter_plain by (apply word_start_plain; rewrite H1; apply orb_true_r).
    unfold scan_number. rewrite H1.
    rewrite (scan_while_app _ w rest) by (done || by apply separated_head).
    by destruct (ParseFloat (String c w)).
  - apply orb_true_iff in Hwf as [H|H]; apply String.eqb_eq in H as ->;
      destruct Hsep as [->|[r ->]]; reflexivity.
  - apply String.eqb_eq in Hwf as ->. by destruct Hsep as [->|[r ->]].
  - apply String.eqb_eq in Hwf as ->. by destruct Hsep as [->|[r ->]].
Qed.

Definition end_token : filterToken := FilterToken filterTokenEOF "".

Lemma spaced_cons t t' l : spaced (t :: t' :: l) = t +:+ String " " (spaced (t' :: l)).
Proof. done. Qed.

Lemma tokenizeFilter_spaced toks : Forall (λ t, wf_token t = true) toks →
  ∀ f, (2 * length toks ≤ S f)%nat →
    tokenizeFilter_from (S f) (spaced (token_text <$> toks)) = Ok (toks ++ [end_token]).
Proof.
  induction 1 as [|t toks Ht Hts IH]; intros f Hf; [done|].
  destruct f as [|f]; [cbn in Hf; lia|]. cbn in Hf.
  destruct toks as [|t' toks].
  - pose proof (tokenizeFilter_step (S f) t "" Ht (or_introl eq_refl)) as Hj.
    rewrite string_app_nil_r in Hj. cbn [fmap list_fmap spaced]. by rewrite Hj.
  - rewrite !fmap_cons, spaced_cons.
    rewrite tokenizeFilter_step by (done || (right; eauto)).
    destruct f as [|f]; [cbn in *; lia|].
    rewrite !fmap_cons in IH.
    change (tokenizeFilter_from (S (S f)) (String " " ?s)) with (tokenizeFilter_from (S f) s).
    rewrite (IH f) by (cbn in *; lia). done.
Qed.

Lemma token_text_tight t : wf_token t = true → tight (token_text t).
Proof.
  destruct t as [k x]. unfold wf_token. cbn [ftyp fval]. intros Hwf. destruct k; try done.
  - by apply word_text_tight.
  - change (tight (quote +:+ (escape_quoted x +:+ quote))).
    assert (Hr : trim_right (escape_quoted x +:+ quote) = escape_quoted x +:+ quote)
      by (by apply trim_right_app).
    apply tight_app; [by apply tight_chars | done |]. by destruct (escape_quoted x).
  - change (tight x). destruct x as [|c w]; [done|]. cbn [number_token] in Hwf.
    rewrite !andb_true_iff in Hwf. destruct Hwf as [[H1 H2] _].
    apply tight_chars; [|done]. cbn. apply andb_true_iff. split.
    + apply number_char_nonspace. unfold isNumberStart, isDigit. by rewrite H1.
    + eapply all_chars_impl; [|done]. intros d Hd. apply number_char_nonspace.
      change (isDigit d || Ascii.eqb d ".") with (number_rest d). rewrite Hd. apply orb_true_r.
  - apply orb_true_iff in Hwf as [H|H]; apply String.eqb_eq in H as ->; by apply tight_chars.
  - apply String.eqb_eq in Hwf as ->. by apply tight_chars.
  - apply String.eqb_eq in Hwf as ->. by apply tight_chars.
Qed.

Lemma spaced_tight l : Forall tight l → l ≠ [] → tight (spaced l).
Proof.
  induction 1 as [|t l Ht Hl IH]; [done|]. intros _. destruct l as [|t' l]; [done|].
  rewrite spaced_cons. destruct (IH ltac:(done)) as (_ & Hr & Hn).
  change (String " " (spaced (t' :: l))) with (" " +:+ spaced (t' :: l)).
  apply tight_app; [done | | done]. rewrite trim_right_app by (by rewrite Hr). by rewrite Hr.
Qed.

Lemma spaced_length l : Forall tight l → (2 * length l ≤ S (String.length (spaced l)))%nat.
Proof.
  induction 1 as [|t l Ht Hl IH]; [cbn; lia|].
  assert (1 ≤ String.length t)%nat as H1.
  { destruct Ht as (_ & _ & Hn). destruct t; cbn; [done | lia]. }
  destruct l as [|t' l]; [cbn [length spaced] in *; lia|].
  rewrite spaced_cons, length_string_app. cbn [length String.length] in *. lia.
Qed.

Lemma filter_tokens_nonempty lvl e : filter_tokens lvl e ≠ [].
Proof.
  revert lvl. induction e; intros lvl; cbn; destruct (_ <=? _)%nat; try done;
    match goal with IH : ∀ _, filter_tokens _ ?a ≠ [] |- filter_tokens ?l ?a ++ _ ≠ [] =>
      specialize (IH l); destruct (filter_tokens l a); done end.
Qed.

Lemma filter_tokens_wf e :
  wf_filter e = true → ∀ lvl, Forall (λ t, wf_token t = true) (filter_tokens lvl e).
Proof.
  assert (Hp : ∀ (b : bool) body, Forall (λ t, wf_token t = true) body →
    Forall (λ t, wf_token t = true)
      (if b then body
       else FilterToken filterTokenLParen "(" :: body ++ [FilterToken filterTokenRParen ")"])).
  { intros b body Hb. destruct b; [done|]. constructor; [done|].
    apply Forall_app. split; [done | by repeat constructor]. }
  assert (Ha : ∀ a, attribute_text a = true → wf_token (word a) = true).
  { unfold attribute_text. intros a H. by apply andb_prop in H as [H _]. }
  induction e as [a o|a o v|e IH|a IHa b IHb|a IHa b IHb];
    cbn [wf_filter]; intros Hwf lvl; cbn [filter_tokens]; apply Hp;
    rewrite ?andb_true_iff in Hwf.
  - destruct Hwf as [[H1 H2] _]. repeat constructor; auto.
  - destruct Hwf as [[[[H1 H2] _] _] H3]. repeat constructor; auto.
    destruct v as [w|s|b|t]; try done. by destruct b.
  - constructor; auto.
  - destruct Hwf. apply Forall_app. split; [auto|]. constructor; auto.
  - destruct Hwf. apply Forall_app. split; [auto|]. constructor; auto.
Qed.

(** C20. [ParseSCIMFilter] reads the text of a filter back: [not] binds its next operand
    alone, [and] binds tighter than [or], both associate to the left, names are lowered,
    string literals lose their quotes and escapes.  A filter of more than 50 nodes is
    refused. *)
Theorem ParseSCIMFilter_render e :
  wf_filter e = true →
  ParseSCIMFilter (render_filter e) =
    if (tree_size (node_of e) <=? 50)%nat then Ok (node_of e) else Err ErrInvalidSCIMFilter.
Proof.
  intros Hwf. pose proof (filter_tokens_wf e Hwf 0) as Hp.
  assert (Ht : Forall tight (token_text <$> filter_tokens 0 e)).
  { apply Forall_fmap. eapply Forall_impl; [exact Hp|]. intros t. apply token_text_tight. }
  assert (Hs : tight (render_filter e)).
  { apply spaced_tight; [done|]. intros E. apply fmap_nil_inv in E.
    by apply (filter_tokens_nonempty 0 e). }
  unfold ParseSCIMFilter. rewrite (tight_TrimSpace _ Hs).
  destruct (String.eqb_spec (render_filter e) "") as [E|_]; [by destruct Hs as (_ & _ & ?)|].
  unfold tokenizeFilter, render_filter at 2.
  rewrite tokenizeFilter_spaced; [|done|].
  2: { pose proof (spaced_length _ Ht) as Hl. by rewrite length_fmap in Hl. }
  cbn [mbind result_bind]. destruct (filter_levels e Hwf) as (_ & _ & Ho).
  unfold parseExpression. cbn [tokens].
  destruct (Ho (S (length (filter_tokens 0 e ++ [end_token]))) [end_token] 0%nat)
    as (n & Hn & E); [rewrite length_app; lia | done |].
  rewrite E, logical_loop_stop by done. cbn [mbind result_bind peek tokens nodeCount].
  rewrite bool_decide_eq_true_2 by done. cbn [negb]. rewrite Nat.add_0_l.
  destruct (Nat.ltb_spec 50 (tree_size (node_of e))), (Nat.leb_spec (tree_size (node_of e)) 50);
    done || lia.
Qed.

Lemma ParseSCIMFilter_render_witness :
  let e := FEither (FBoth (FCompare "userName" "Eq" (LString "a b"))
                          (FNegation (FEither (FPresent "externalId" "pr")
                                              (FCompare "active" "ne" (LBool true)))))
                   (FCompare "meta.created" "gt" (LNumber "12.5")) in
  wf_filter e = true ∧
  ParseSCIMFilter (render_filter e) =
    if (tree_size (node_of e) <=? 50)%nat then Ok (node_of e) else Err ErrInvalidSCIMFilter.
Proof.
  split; [vm_compute; reflexivity|]. apply ParseSCIMFilter_render. vm_compute. reflexivity.
Defined.
