(* ===== verification/ScimCondition.v ===== *)
(** * The meaning of SCIM filters (internal/scim/filter.go)

    Conditions of SQL as trees, with their text and their three-valued meaning on a user or a
    group; the meaning of a filter; the clause [ToSQL] returns is a condition that means
    the filter.  What the server does with texts is a parameter ([Server], [ServerLaws]). *)

From Stdlib Require Import Ascii String ZArith Lia.
From stdpp Require Import base list strings.
From S2P Require Import Prelude Float64 ApprovalExpr SqlTx Schema Outbox TenantScope ScimFilter.

Open Scope Z_scope.
Open Scope go_scope.

(** ** Conditions of SQL *)

Inductive sql_expr :=
  | XColumn (c : string)
  | XLower (e : sql_expr)
  | XParam (n : nat)
  | XText (s : string).

Fixpoint expr_text (e : sql_expr) : string :=
  match e with
  | XColumn c => c
  | XLower e => "LOWER(" +:+ expr_text e +:+ ")"
  | XParam n => placeholder n
  | XText s => "'" +:+ s +:+ "'"
  end.

Inductive sql_cond :=
  | CCompare (op : string) (a b : sql_expr)
  | CCompareTime (op column : string) (n : nat)
  | CIlike (a b : sql_expr)
  | CNotNull (e : sql_expr)
  | CAnd (a b : sql_cond)
  | COr (a b : sql_cond)
  | CNot (a : sql_cond)
  | CHasMember
  | CMember (p : sql_cond)
  | CNoMember (p : sql_cond).

Fixpoint cond_text (c : sql_cond) : string :=
  match c with
  | CCompare op a b => "(" +:+ expr_text a +:+ " " +:+ op +:+ " " +:+ expr_text b +:+ ")"
  | CCompareTime op column n =>
      "(" +:+ column +:+ " " +:+ op +:+ " " +:+ placeholder n +:+ "::timestamptz)"
  | CIlike a b => "(" +:+ expr_text a +:+ " ILIKE " +:+ expr_text b +:+ ")"
  | CNotNull e => "(" +:+ expr_text e +:+ " IS NOT NULL)"
  | CAnd a b => "(" +:+ cond_text a +:+ " AND " +:+ cond_text b +:+ ")"
  | COr a b => "(" +:+ cond_text a +:+ " OR " +:+ cond_text b +:+ ")"
  | CNot a => "(NOT (" +:+ cond_text a +:+ "))"
  | CHasMember => "EXISTS (" +:+ members_base +:+ ")"
  | CMember p => "EXISTS (" +:+ members_base +:+ " AND " +:+ cond_text p +:+ ")"
  | CNoMember p => "NOT (EXISTS (" +:+ members_base +:+ " AND " +:+ cond_text p +:+ "))"
  end.

(** A row of the lists: a user, or a team with the identifiers of its members. *)
Record scim_user := {
  su_username : string; su_email : string; su_display_name : string; su_status : string;
  su_external_id : option string; su_created_at : Z; su_updated_at : Z;
}.
Record scim_group := {
  sg_display_name : string; sg_external_id : option string; sg_created_at : Z;
  sg_updated_at : Z; sg_members : list string;
}.
Inductive scim_row := RUser (u : scim_user) | RGroup (g : scim_group).

Definition row_resource (r : scim_row) : SCIMResourceType :=
  match r with RUser _ => SCIMResourceTypeUser | RGroup _ => SCIMResourceTypeGroup end.

Definition text_column (r : scim_row) (c : string) : option string :=
  match r with
  | RUser u =>
      if c =?s "u.username" then Some (su_username u)
      else if c =?s "u.email" then Some (su_email u)
      else if c =?s "u.display_name" then Some (su_display_name u)
      else if c =?s "u.status" then Some (su_status u)
      else if c =?s "u.external_id" then su_external_id u
      else None
  | RGroup g =>
      if c =?s "g.display_name" then Some (sg_display_name g)
      else if c =?s "g.external_id" then sg_external_id g
      else None
  end.

Definition time_column (r : scim_row) (c : string) : option Z :=
  match r with
  | RUser u =>
      if c =?s "u.created_at" then Some (su_created_at u)
      else if c =?s "u.updated_at" then Some (su_updated_at u)
      else None
  | RGroup g =>
      if c =?s "g.created_at" then Some (sg_created_at g)
      else if c =?s "g.updated_at" then Some (sg_updated_at g)
      else None
  end.

Definition row_members (r : scim_row) : list string :=
  match r with RUser _ => [] | RGroup g => sg_members g end.

(** What the server does with texts: its collation, ILIKE, the cast to a time. *)
Class Server := {
  srv_compare : string → string → comparison;
  srv_ilike : string → string → bool;
  srv_timestamp : string → option Z;
}.

(** A text without the metacharacters of ILIKE. *)
Definition literal_pattern (s : string) : bool :=
  all_chars (λ c, negb (Ascii.eqb c "%" || Ascii.eqb c "_" || Ascii.eqb c "\")) s.

Class ServerLaws `{Server} := {
  compare_eq : ∀ s t, srv_compare s t = Eq ↔ s = t;
  ilike_contains : ∀ s v, literal_pattern v = true →
    srv_ilike s ("%" +:+ v +:+ "%") = Contains (ToLower s) (ToLower v);
  ilike_prefix : ∀ s v, literal_pattern v = true →
    srv_ilike s (v +:+ "%") = HasPrefix (ToLower s) (ToLower v);
  ilike_suffix : ∀ s v, literal_pattern v = true →
    srv_ilike s ("%" +:+ v) = HasSuffix (ToLower s) (ToLower v);
}.

(** ** Three-valued logic *)

Definition sql_and (a b : option bool) : option bool :=
  match a, b with
  | Some false, _ | _, Some false => Some false
  | Some true, Some true => Some true
  | _, _ => None
  end.
Definition sql_or (a b : option bool) : option bool :=
  match a, b with
  | Some true, _ | _, Some true => Some true
  | Some false, Some false => Some false
  | _, _ => None
  end.
Definition sql_not (a : option bool) : option bool := negb <$> a.

Definition sql_compare (op : string) (c : comparison) : option bool :=
  if op =?s "=" then Some (bool_decide (c = Eq))
  else if op =?s "<>" then Some (bool_decide (c ≠ Eq))
  else if op =?s ">" then Some (bool_decide (c = Gt))
  else if op =?s ">=" then Some (bool_decide (c ≠ Lt))
  else if op =?s "<" then Some (bool_decide (c = Lt))
  else if op =?s "<=" then Some (bool_decide (c ≠ Gt))
  else None.

Section Meaning.
Context `{Server} (sprint_float : float64 → string).

(** ** The meaning of a condition

    On a row [r], under the arguments [args]; [member] is the identifier the members' query
    stands on.  [None] is NULL. *)

Fixpoint expr_value (r : scim_row) (args : list string) (member : option string)
    (e : sql_expr) : option string :=
  match e with
  | XColumn c => if c =?s "tmf.user_id::text" then member else text_column r c
  | XLower e => ToLower <$> expr_value r args member e
  | XParam n => match n with O => None | S i => args !! i end
  | XText s => Some s
  end.

Definition is_null (r : scim_row) (args : list string) (member : option string)
    (e : sql_expr) : bool :=
  match e with
  | XColumn c =>
      match expr_value r args member e, time_column r c with None, None => true | _, _ => false end
  | _ => match expr_value r args member e with None => true | Some _ => false end
  end.

Fixpoint cond_value (r : scim_row) (args : list string) (member : option string)
    (c : sql_cond) : option bool :=
  match c with
  | CCompare op a b =>
      x ← expr_value r args member a; y ← expr_value r args member b;
      sql_compare op (srv_compare x y)
  | CCompareTime op column n =>
      x ← time_column r column; t ← expr_value r args member (XParam n);
      y ← srv_timestamp t; sql_compare op (Z.compare x y)
  | CIlike a b =>
      x ← expr_value r args member a; y ← expr_value r args member b; Some (srv_ilike x y)
  | CNotNull e => Some (negb (is_null r args member e))
  | CAnd a b => sql_and (cond_value r args member a) (cond_value r args member b)
  | COr a b => sql_or (cond_value r args member a) (cond_value r args member b)
  | CNot a => sql_not (cond_value r args member a)
  | CHasMember => Some (negb (bool_decide (row_members r = [])))
  | CMember p =>
      Some (existsb (λ m, bool_decide (cond_value r args (Some m) p = Some true)) (row_members r))
  | CNoMember p =>
      Some (negb (existsb (λ m, bool_decide (cond_value r args (Some m) p = Some true))
                    (row_members r)))
  end.

(** ** The meaning of a filter *)

(** What an attribute is on a resource: a text, case-sensitive or not, a time, the status
    of a user, the members of a group. *)
Inductive attribute_value :=
  | AVText (fold : bool) (v : option string)
  | AVTime (t : Z)
  | AVStatus (status : string)
  | AVMembers (l : list string).

Definition attribute_of (r : scim_row) (attr : string) : option attribute_value :=
  match r with
  | RUser u =>
      if attr =?s "username" then Some (AVText true (Some (su_username u)))
      else if attr =?s "displayname" then Some (AVText false (Some (su_display_name u)))
      else if attr =?s "emails.value" then Some (AVText true (Some (su_email u)))
      else if attr =?s "active" then Some (AVStatus (su_status u))
      else if attr =?s "externalid" then Some (AVText false (su_external_id u))
      else if attr =?s "meta.created" then Some (AVTime (su_created_at u))
      else if attr =?s "meta.lastmodified" then Some (AVTime (su_updated_at u))
      else None
  | RGroup g =>
      if attr =?s "displayname" then Some (AVText false (Some (sg_display_name g)))
      else if attr =?s "externalid" then Some (AVText false (sg_external_id g))
      else if attr =?s "members.value" then Some (AVMembers (sg_members g))
      else if attr =?s "meta.created" then Some (AVTime (sg_created_at g))
      else if attr =?s "meta.lastmodified" then Some (AVTime (sg_updated_at g))
      else None
  end.

Definition order_holds (op : string) (c : comparison) : bool :=
  if op =?s "eq" then bool_decide (c = Eq)
  else if op =?s "ne" then bool_decide (c ≠ Eq)
  else if op =?s "gt" then bool_decide (c = Gt)
  else if op =?s "ge" then bool_decide (c ≠ Lt)
  else if op =?s "lt" then bool_decide (c = Lt)
  else bool_decide (c ≠ Gt).

(** Whether a text satisfies an operator other than [pr].  Order and equality are those of
    the server's collation, the others ignore case. *)
Definition text_holds (op s v : string) : bool :=
  if op =?s "co" then Contains (ToLower s) (ToLower v)
  else if op =?s "sw" then HasPrefix (ToLower s) (ToLower v)
  else if op =?s "ew" then HasSuffix (ToLower s) (ToLower v)
  else order_holds op (srv_compare s v).

Definition attribute_holds (a : attribute_value) (op : string) (v : filterValue)
    : option bool :=
  let lit := anyToString sprint_float v in
  match a with
  | AVText fold t =>
      if op =?s "pr" then Some (match t with Some _ => true | None => false end)
      else s ← t;
           Some (if fold then text_holds op (ToLower s) (ToLower lit) else text_holds op s lit)
  | AVTime t =>
      if op =?s "pr" then Some true
      else u ← srv_timestamp lit; Some (order_holds op (Z.compare t u))
  | AVStatus status =>
      if op =?s "pr" then Some true
      else
        let active := match v with FBool b => b | _ => true end in
        let same := Bool.eqb active (bool_decide (status = "ACTIVE")) in
        Some (if op =?s "eq" then same else negb same)
  | AVMembers l =>
      if op =?s "pr" then Some (negb (bool_decide (l = [])))
      else if op =?s "ne" then Some (negb (existsb (λ m, text_holds "eq" m lit) l))
      else Some (existsb (λ m, text_holds op m lit) l)
  end.

Fixpoint filter_holds (r : scim_row) (n : SCIMFilterNode) : option bool :=
  match n with
  | NilNode => Some true
  | Node Kind attr op v a b =>
      if Kind =?s "logical" then
        if op =?s "and" then sql_and (filter_holds r a) (filter_holds r b)
        else sql_or (filter_holds r a) (filter_holds r b)
      else if Kind =?s "not" then sql_not (filter_holds r a)
      else
        x ← attribute_of r (ToLower (TrimSpace attr)); attribute_holds x op v
  end.

(** ** The filters that have a translation *)

Inductive attribute_kind := KText | KTime | KStatus | KMembers.

Definition kind_of (resource : SCIMResourceType) (attr : string) : option attribute_kind :=
  match resource with
  | SCIMResourceTypeUser =>
      if (attr =?s "username") || (attr =?s "displayname") || (attr =?s "emails.value")
         || (attr =?s "externalid") then Some KText
      else if attr =?s "active" then Some KStatus
      else if (attr =?s "meta.created") || (attr =?s "meta.lastmodified") then Some KTime
      else None
  | SCIMResourceTypeGroup =>
      if (attr =?s "displayname") || (attr =?s "externalid") then Some KText
      else if attr =?s "members.value" then Some KMembers
      else if (attr =?s "meta.created") || (attr =?s "meta.lastmodified") then Some KTime
      else None
  end.

Definition comparison_supported (resource : SCIMResourceType) (attr op : string)
    (v : filterValue) : bool :=
  let lit := anyToString sprint_float v in
  match kind_of resource (ToLower (TrimSpace attr)) with
  | None => false
  | Some k =>
      (op =?s "pr") ||
      match k with
      | KText => (op =?s "eq") || (op =?s "ne") || negb (lit =?s "")
      | KTime =>
          bool_decide (op ∈ order_operators)
          && match is_rfc3339 lit with Some _ => true | None => false end
      | KStatus =>
          ((op =?s "eq") || (op =?s "ne")) && match v with FBool _ => true | _ => false end
      | KMembers => negb (lit =?s "")
      end
  end.

Fixpoint filter_supported (resource : SCIMResourceType) (n : SCIMFilterNode) : bool :=
  match n with
  | NilNode => true
  | Node Kind attr op v a b =>
      if Kind =?s "logical" then filter_supported resource a && filter_supported resource b
      else if Kind =?s "not" then filter_supported resource a
      else comparison_supported resource attr op v
  end.

(** No value that is looked for with co, sw or ew holds a metacharacter of ILIKE; the values of
    all other operators are free. *)
Definition wildcard_operator (op : string) : bool := str_mem op ["co"; "sw"; "ew"].
Fixpoint literal_values (n : SCIMFilterNode) : bool :=
  match n with
  | NilNode => true
  | Node _ _ op v a b =>
      (negb (wildcard_operator op) || literal_pattern (anyToString sprint_float v))
      && literal_values a && literal_values b
  end.

(** ** The translation as a condition

    [filter_cond] on a tree whose first argument has number [n + 1], and the arguments the
    tree adds. *)

Definition sql_operator (op : string) : string := default "" (comparisonOperator op).

Definition simple_cond (e : sql_expr) (op : string) (lower : bool) (n : nat) : sql_cond :=
  if bool_decide (op ∈ order_operators) then
    CCompare (sql_operator op) e (if lower then XLower (XParam n) else XParam n)
  else CIlike e (XParam n).

Definition pattern (op value : string) : string :=
  if op =?s "co" then "%" +:+ value +:+ "%"
  else if op =?s "sw" then value +:+ "%"
  else if op =?s "ew" then "%" +:+ value
  else value.

Definition table_alias (resource : SCIMResourceType) : string :=
  match resource with SCIMResourceTypeUser => "u." | SCIMResourceTypeGroup => "g." end.

Definition text_expr (resource : SCIMResourceType) (attr : string) : sql_expr :=
  if attr =?s "username" then XLower (XColumn "u.username")
  else if attr =?s "emails.value" then XLower (XColumn "u.email")
  else if attr =?s "displayname" then XColumn (table_alias resource +:+ "display_name")
  else XColumn (table_alias resource +:+ "external_id").

Definition folds (e : sql_expr) : bool := match e with XLower _ => true | _ => false end.

Definition time_expr (resource : SCIMResourceType) (attr : string) : string :=
  table_alias resource +:+ (if attr =?s "meta.created" then "created_at" else "updated_at").

Definition member_column : sql_expr := XColumn "tmf.user_id::text".

Definition comparison_cond (resource : SCIMResourceType) (attr op : string) (v : filterValue)
    (n : nat) : sql_cond :=
  match kind_of resource attr with
  | Some KText =>
      let e := text_expr resource attr in
      if op =?s "pr" then CNotNull e else simple_cond e op (folds e) (S n)
  | Some KTime =>
      let c := time_expr resource attr in
      if op =?s "pr" then CNotNull (XColumn c) else CCompareTime (sql_operator op) c (S n)
  | Some KStatus =>
      if op =?s "pr" then CNotNull (XColumn "u.status")
      else
        let b := match v with FBool b => b | _ => true end in
        CCompare (if Bool.eqb b (op =?s "eq") then "=" else "<>")
          (XColumn "u.status") (XText "ACTIVE")
  | _ =>
      if op =?s "pr" then CHasMember
      else if op =?s "ne" then CNoMember (simple_cond member_column "eq" false (S n))
      else CMember (simple_cond member_column op false (S n))
  end.

Definition comparison_args (resource : SCIMResourceType) (attr op : string) (v : filterValue)
    : list string :=
  let lit := anyToString sprint_float v in
  if op =?s "pr" then []
  else
    match kind_of resource attr with
    | Some KText =>
        let fold := match v with FText _ => folds (text_expr resource attr) | _ => false end in
        [pattern op (if fold then ToLower lit else lit)]
    | Some KTime => [lit]
    | Some KStatus => []
    | _ => [pattern op lit]
    end.

Fixpoint filter_args (resource : SCIMResourceType) (n : SCIMFilterNode) : list string :=
  match n with
  | NilNode => []
  | Node Kind attr op v a b =>
      if Kind =?s "logical" then filter_args resource a ++ filter_args resource b
      else if Kind =?s "not" then filter_args resource a
      else comparison_args resource (ToLower (TrimSpace attr)) op v
  end.

Fixpoint filter_cond (resource : SCIMResourceType) (node : SCIMFilterNode) (n : nat)
    : sql_cond :=
  match node with
  | NilNode => CHasMember
  | Node Kind attr op v a b =>
      let rhs := filter_cond resource b (n + length (filter_args resource a)) in
      if Kind =?s "logical" then
        (if op =?s "and" then CAnd else COr) (filter_cond resource a n) rhs
      else if Kind =?s "not" then CNot (filter_cond resource a n)
      else comparison_cond resource (ToLower (TrimSpace attr)) op v n
  end.
End Meaning.

(** ** The translation is that condition *)

Section Translated.
Context (sprint_float : float64 → string).

(** A goal for every operator the parser admits. *)
Ltac operator_cases H :=
  unfold comparison_operators in H; rewrite !elem_of_cons, elem_of_nil in H;
  repeat (destruct H as [H|H]; [subst|]); [..|done].

Lemma lower_space c : is_space (lower_char c) = is_space c.
Proof. apply eqb_prop. revert c. by_bytes. Qed.

Lemma string_map_trim_left f s :
  (∀ c, is_space (f c) = is_space c) → trim_left (string_map f s) = string_map f (trim_left s).
Proof.
  intros Hf. induction s as [|c s IH]; [done|]. cbn. rewrite Hf. by destruct (is_space c).
Qed.

Lemma string_map_trim_right f s :
  (∀ c, is_space (f c) = is_space c) → trim_right (string_map f s) = string_map f (trim_right s).
Proof.
  intros Hf. induction s as [|c s IH]; [done|]. cbn. rewrite IH, Hf.
  destruct (trim_right s); cbn; [by destruct (is_space c) | done].
Qed.

Lemma TrimSpace_ToLower s : TrimSpace (ToLower s) = ToLower (TrimSpace s).
Proof.
  unfold TrimSpace, ToLower. rewrite string_map_trim_left by apply lower_space.
  by rewrite string_map_trim_right by apply lower_space.
Qed.

Lemma length_snoc {A} (l : list A) x : length (l ++ [x]) = S (length l).
Proof. rewrite length_app. cbn. lia. Qed.

Lemma buildSimplePredicate_spec e op value lower args :
  op ∈ comparison_operators → op ≠ "pr" →
  buildSimplePredicate (expr_text e) op value lower args =
    Ok (cond_text (simple_cond e op lower (S (length args))), args ++ [pattern op value]).
Proof.
  intros Hop Hpr. unfold buildSimplePredicate, simple_cond, nextArg.
  operator_cases Hop; try done; vm_compute bool_decide; cbv zeta;
    rewrite !length_snoc; destruct lower; try done;
    cbn [cond_text expr_text]; by rewrite !string_app_assoc.
Qed.

Definition normal_attribute (attr : string) : string := ToLower (TrimSpace attr).

Lemma normal_attribute_idem attr :
  normal_attribute (normal_attribute attr) = normal_attribute attr.
Proof. unfold normal_attribute. by rewrite TrimSpace_ToLower, TrimSpace_idem, ToLower_idem. Qed.

Lemma scimFilterAttribute_spec resource attr :
  normal_attribute attr = attr →
  scimFilterAttribute resource attr =
    match kind_of resource attr with
    | Some KText =>
        let e := text_expr resource attr in Some (AttrDef (expr_text e) "string" (folds e))
    | Some KTime => Some (AttrDef (time_expr resource attr) "time" false)
    | Some KStatus => Some (AttrDef "" "active" false)
    | Some KMembers => Some (AttrDef "" "members" false)
    | None => None
    end.
Proof.
  intros Hn. unfold scimFilterAttribute. fold (normal_attribute attr). rewrite Hn. clear Hn.
  unfold kind_of, text_expr, time_expr.
  destruct resource;
    repeat match goal with
    | |- context [if ?s =?s ?t then _ else _] =>
        destruct (String.eqb_spec s t) as [->|]; [reflexivity|]
    end; repeat match goal with H : ?s ≠ ?t |- context [?s =?s ?t] =>
      rewrite (proj2 (String.eqb_neq s t) H) end; reflexivity.
Qed.

#[local] Abbreviation anyToString := (anyToString sprint_float).

Lemma anyToString_trimmed v : TrimSpace (anyToString v) = anyToString v.
Proof. destruct v as [|s|b|f]; cbn; [done | apply TrimSpace_idem | by destruct b | apply TrimSpace_idem]. Qed.

(** An operator the parser admits: [pr] without a value or another one with a value. *)
Definition operator_fits (op : string) (v : filterValue) : Prop :=
  op ∈ comparison_operators ∧ (op = "pr" ↔ v = FNil).

Lemma text_clause_spec e op v args :
  operator_fits op v →
  buildStringOrNumericClause sprint_float (expr_text e) op v (folds e) args =
    let lit := anyToString v in
    let lower := match v with FText _ => folds e | _ => false end in
    if (op =?s "pr") || ((op =?s "eq") || (op =?s "ne") || negb (lit =?s "")) then
      Ok (cond_text (if op =?s "pr" then CNotNull e
                     else simple_cond e op (folds e) (S (length args))),
          args ++ if op =?s "pr" then [] else [pattern op (if lower then ToLower lit else lit)])
    else Err ErrInvalidSCIMFilter.
Proof.
  intros [Hop Hv]. unfold buildStringOrNumericClause.
  destruct (String.eqb_spec op "pr") as [->|Hpr]; cbn [orb]; [by rewrite app_nil_r|].
  set (raw := match v with FText s => _ | _ => _ end).
  assert (Hraw : anyToString raw =
    (if match v with FText _ => folds e | _ => false end then ToLower (anyToString v)
     else anyToString v)).
  { subst raw. destruct v; try done. destruct (folds e); [|done]. apply TrimSpace_ToLower. }
  assert (He : (anyToString raw =?s "") = (anyToString v =?s "")).
  { rewrite Hraw. destruct v; try done. destruct (folds e); [|done]. cbn.
    by destruct (TrimSpace s). }
  cbv zeta. rewrite He, Hraw.
  destruct (op =?s "eq") eqn:E1, (op =?s "ne") eqn:E2, (anyToString v =?s "") eqn:E3;
    cbn [andb orb negb]; try done; by apply buildSimplePredicate_spec.
Qed.

Lemma order_operator op :
  op ∈ comparison_operators → op ≠ "pr" →
  comparisonOperator op =
    if bool_decide (op ∈ order_operators) then Some (sql_operator op) else None.
Proof. intros Hop Hpr. operator_cases Hop; done. Qed.

Lemma time_clause_spec resource attr op v args :
  operator_fits op v →
  let lit := anyToString v in
  let column := time_expr resource attr in
  buildTimeClause sprint_float column op v args =
    if (op =?s "pr") || (bool_decide (op ∈ order_operators)
         && match is_rfc3339 lit with Some _ => true | None => false end) then
      Ok (cond_text (if op =?s "pr" then CNotNull (XColumn column)
                     else CCompareTime (sql_operator op) column (S (length args))),
          args ++ if op =?s "pr" then [] else [lit])
    else Err ErrInvalidSCIMFilter.
Proof.
  intros [Hop Hv]. cbv zeta. unfold buildTimeClause.
  destruct (String.eqb_spec op "pr") as [->|Hpr]; cbn [orb]; [by rewrite app_nil_r|].
  destruct (String.eqb_spec (anyToString v) "") as [->|_]; [by rewrite andb_false_r|].
  destruct (is_rfc3339 (anyToString v)); [|by rewrite andb_false_r]. rewrite andb_true_r.
  unfold nextArg. rewrite length_snoc, order_operator by done. by case_bool_decide.
Qed.

Lemma status_clause_spec op v args :
  operator_fits op v →
  buildActiveClause op v args =
    if (op =?s "pr") || (((op =?s "eq") || (op =?s "ne"))
         && match v with FBool _ => true | _ => false end) then
      Ok (cond_text
            (if op =?s "pr" then CNotNull (XColumn "u.status")
             else CCompare (if Bool.eqb (match v with FBool b => b | _ => true end) (op =?s "eq")
                            then "=" else "<>") (XColumn "u.status") (XText "ACTIVE")), args)
    else Err ErrInvalidSCIMFilter.
Proof.
  intros [Hop Hv]. unfold buildActiveClause.
  destruct (op =?s "pr"); cbn [orb]; [done|].
  destruct ((op =?s "eq") || (op =?s "ne")); [|done].
  destruct v as [|s|b|f]; try done. by destruct (Bool.eqb b (op =?s "eq")).
Qed.

Lemma members_clause_spec op v args :
  operator_fits op v →
  let lit := anyToString v in
  buildMembersClause sprint_float op v args =
    if (op =?s "pr") || negb (lit =?s "") then
      Ok (cond_text
            (if op =?s "pr" then CHasMember
             else if op =?s "ne" then CNoMember (simple_cond member_column "eq" false (S (length args)))
             else CMember (simple_cond member_column op false (S (length args)))),
          args ++ if op =?s "pr" then [] else [pattern op lit])
    else Err ErrInvalidSCIMFilter.
Proof.
  intros [Hop Hv]. cbv zeta. unfold buildMembersClause.
  destruct (String.eqb_spec op "pr") as [->|Hpr]; cbn [orb]; [by rewrite app_nil_r|].
  rewrite bool_decide_eq_true_2 by done. destruct (anyToString v =?s ""); [done|].
  cbn [negb].
  assert (Hin : (if op =?s "ne" then "eq" else op) ∈ comparison_operators
                ∧ (if op =?s "ne" then "eq" else op) ≠ "pr").
  { destruct (op =?s "ne"); [split; [by left | done] | done]. }
  change "tmf.user_id::text" with (expr_text member_column).
  rewrite buildSimplePredicate_spec by apply Hin. cbn [mbind result_bind].
  destruct (String.eqb_spec op "ne") as [->|]; [|done].
  cbn [cond_text]. by rewrite !string_app_assoc.
Qed.

Lemma comparisonSQL_spec resource attr op v args :
  operator_fits op v →
  comparisonSQL sprint_float resource attr op v args =
    let a := normal_attribute attr in
    if comparison_supported sprint_float resource attr op v then
      Ok (cond_text (comparison_cond resource a op v (length args)),
          args ++ comparison_args sprint_float resource a op v)
    else Err ErrInvalidSCIMFilter.
Proof.
  intros Hf. unfold comparisonSQL. fold (normal_attribute attr).
  assert (Hn : ToLower (TrimSpace op) = op) by (destruct Hf as [Hop _]; by operator_cases Hop).
  rewrite Hn, scimFilterAttribute_spec by apply normal_attribute_idem.
  unfold comparison_supported, comparison_cond, comparison_args.
  fold (normal_attribute attr). cbv zeta.
  destruct (kind_of resource (normal_attribute attr)) as [[]|]; cbn [ad_kind ad_expr ad_lower].
  - change ("string" =?s "members") with false. change ("string" =?s "active") with false.
    change ("string" =?s "time") with false. cbv iota. rewrite text_clause_spec by done.
    reflexivity.
  - change ("time" =?s "members") with false. change ("time" =?s "active") with false.
    change ("time" =?s "time") with true. cbv iota. by rewrite time_clause_spec.
  - change ("active" =?s "members") with false. change ("active" =?s "active") with true.
    cbv iota. rewrite status_clause_spec by done.
    by destruct (op =?s "pr"); rewrite app_nil_r.
  - change ("members" =?s "members") with true. cbv iota. by rewrite members_clause_spec.
  - done.
Qed.

Lemma toSQL_spec resource n :
  parsed_node n → ∀ args,
  toSQL sprint_float resource n args =
    if filter_supported sprint_float resource n then
      Ok (cond_text (filter_cond sprint_float resource n (length args)),
          args ++ filter_args sprint_float resource n)
    else Err ErrInvalidSCIMFilter.
Proof.
  induction 1 as [op l r Hop Hl IHl Hr IHr|n Hn IH|attr op v Ha Hop Hv]; intros args.
  - cbn [toSQL logical filter_supported filter_cond filter_args].
    change ("logical" =?s "logical") with true. cbv iota. rewrite IHl.
    destruct (filter_supported sprint_float resource l); [|done].
    cbn [mbind result_bind andb]. rewrite IHr.
    destruct (filter_supported sprint_float resource r); [|done].
    cbn [mbind result_bind]. rewrite length_app, app_assoc. by destruct Hop as [->| ->].
  - cbn [toSQL not_node filter_supported filter_cond filter_args].
    change ("not" =?s "logical") with false. change ("not" =?s "not") with true. cbv iota.
    rewrite IH. by destruct (filter_supported sprint_float resource n).
  - cbn [toSQL comparison_node filter_supported filter_cond filter_args].
    change ("comparison" =?s "logical") with false. change ("comparison" =?s "not") with false.
    change ("comparison" =?s "comparison") with true. cbv iota.
    by rewrite comparisonSQL_spec.
Qed.

(** ** The condition means the filter *)

Context `{ServerLaws}.
#[local] Abbreviation cond_value := cond_value.

Lemma literal_ToLower s : literal_pattern (ToLower s) = literal_pattern s.
Proof.
  assert (Hc : ∀ c, negb (Ascii.eqb (lower_char c) "%" || Ascii.eqb (lower_char c) "_"
                          || Ascii.eqb (lower_char c) "\")
                    = negb (Ascii.eqb c "%" || Ascii.eqb c "_" || Ascii.eqb c "\")).
  { intros c. apply eqb_prop. revert c. by_bytes. }
  unfold literal_pattern, ToLower. induction s as [|c s IH]; [done|].
  cbn [string_map all_chars]. by rewrite Hc, IH.
Qed.

Lemma sql_compare_order op c :
  op ∈ order_operators → sql_compare (sql_operator op) c = Some (order_holds op c).
Proof.
  unfold order_operators. rewrite !elem_of_cons, elem_of_nil. intros Hop.
  repeat (destruct Hop as [Hop|Hop]; [subst|]); done.
Qed.

Lemma simple_cond_value r args member e op lower i w :
  op ∈ comparison_operators → op ≠ "pr" → args !! i = Some (pattern op w) →
  (wildcard_operator op = true → literal_pattern w = true) →
  cond_value r args member (simple_cond e op lower (S i)) =
    (s ← expr_value r args member e; Some (text_holds op s (if lower then ToLower w else w))).
Proof.
  intros Hop Hpr Hi Hw. unfold simple_cond. case_bool_decide as Ho.
  - cbn [cond_value]. destruct (expr_value r args member e) as [s|]; [|done]. cbn [mbind option_bind].
    assert (Hp : pattern op w = w ∧ ∀ s v, text_holds op s v = order_holds op (srv_compare s v)).
    { operator_cases Hop; try done; exfalso; apply (bool_decide_eq_true_2 _) in Ho; by vm_compute in Ho. }
    destruct Hp as [Hp ->].
    replace (expr_value r args member (if lower then XLower (XParam (S i)) else XParam (S i)))
      with (Some (if lower then ToLower w else w))
      by (destruct lower; cbn [expr_value]; by rewrite Hi, Hp).
    by apply sql_compare_order.
  - cbn [cond_value]. destruct (expr_value r args member e) as [s|]; [|done].
    cbn [mbind option_bind expr_value]. rewrite Hi.
    assert (Hl : ToLower (if lower then ToLower w else w) = ToLower w)
      by (destruct lower; [apply ToLower_idem | done]).
    operator_cases Hop; try done; 
      try (exfalso; apply Ho, (bool_decide_eq_true_1 _); vm_compute; reflexivity);
      cbn [mbind option_bind]; f_equal; unfold text_holds, pattern; cbn -[Contains HasPrefix HasSuffix ToLower];
      rewrite Hl; specialize (Hw eq_refl);
      by first [apply ilike_contains | apply ilike_prefix | apply ilike_suffix].
Qed.

#[local] Abbreviation filter_holds := (filter_holds sprint_float).
#[local] Abbreviation filter_args := (filter_args sprint_float).
#[local] Abbreviation filter_cond := (filter_cond sprint_float).

(** A goal for every attribute of the kind. *)
Ltac attribute_cases Hk :=
  repeat match type of Hk with
  | context [String.eqb ?s ?t] => destruct (String.eqb_spec s t); [subst|]; cbn [orb] in Hk
  end; try discriminate Hk.

(** What a comparison says of a row, by the kind of its attribute. *)
Lemma text_value r attr :
  kind_of (row_resource r) attr = Some KText →
  ∃ t, attribute_of r attr = Some (AVText (folds (text_expr (row_resource r) attr)) t) ∧
    ∀ args member,
      expr_value r args member (text_expr (row_resource r) attr) =
        (if folds (text_expr (row_resource r) attr) then ToLower <$> t else t) ∧
      is_null r args member (text_expr (row_resource r) attr) =
        match t with Some _ => false | None => true end.
Proof.
  destruct r as [u|g]; cbn [row_resource kind_of]; intros Hk; attribute_cases Hk;
    (eexists; split; [reflexivity|]); try done.
Qed.

Lemma time_value r attr :
  kind_of (row_resource r) attr = Some KTime →
  ∃ z, attribute_of r attr = Some (AVTime z) ∧
    time_column r (time_expr (row_resource r) attr) = Some z.
Proof.
  destruct r as [u|g]; cbn [row_resource kind_of]; intros Hk; attribute_cases Hk;
    (eexists; split; reflexivity).
Qed.

Lemma status_value r attr :
  kind_of (row_resource r) attr = Some KStatus →
  ∃ u, r = RUser u ∧ attribute_of r attr = Some (AVStatus (su_status u)).
Proof.
  destruct r as [u|g]; cbn [row_resource kind_of]; intros Hk; attribute_cases Hk.
  by exists u.
Qed.

Lemma members_value r attr :
  kind_of (row_resource r) attr = Some KMembers →
  attribute_of r attr = Some (AVMembers (row_members r)).
Proof.
  destruct r as [u|g]; cbn [row_resource kind_of]; intros Hk; by attribute_cases Hk.
Qed.

Lemma lookup_appended (pre more : list string) x : (pre ++ [x] ++ more) !! length pre = Some x.
Proof. rewrite lookup_app_r by lia. by rewrite Nat.sub_diag. Qed.

Lemma existsb_text_holds r args op w l i :
  op ∈ comparison_operators → op ≠ "pr" → args !! i = Some (pattern op w) →
  (wildcard_operator op = true → literal_pattern w = true) →
  existsb (λ m, bool_decide (cond_value r args (Some m)
                               (simple_cond member_column op false (S i)) = Some true)) l =
  existsb (λ m, text_holds op m w) l.
Proof.
  intros Hop Hpr Hi Hw. induction l as [|m l IH]; [done|]. cbn [existsb]. rewrite IH.
  rewrite (simple_cond_value r args (Some m) member_column op false i w) by done. f_equal.
  change (expr_value r args (Some m) member_column) with (Some m). cbn [mbind option_bind].
  by destruct (text_holds op m w).
Qed.

Lemma status_comparison u args op b :
  op = "eq" ∨ op = "ne" →
  cond_value (RUser u) args None
    (CCompare (if Bool.eqb b (op =?s "eq") then "=" else "<>") (XColumn "u.status")
       (XText "ACTIVE")) =
  let same := Bool.eqb b (bool_decide (su_status u = "ACTIVE")) in
  Some (if op =?s "eq" then same else negb same).
Proof.
  intros Hop. cbn [cond_value].
  change (expr_value (RUser u) args None (XColumn "u.status")) with (Some (su_status u)).
  change (expr_value (RUser u) args None (XText "ACTIVE")) with (Some "ACTIVE").
  cbn [mbind option_bind].
  assert (Hd : bool_decide (srv_compare (su_status u) "ACTIVE" = Eq)
               = bool_decide (su_status u = "ACTIVE")) by (apply bool_decide_ext, compare_eq).
  assert (Hd' : bool_decide (srv_compare (su_status u) "ACTIVE" ≠ Eq)
                = negb (bool_decide (su_status u = "ACTIVE")))
    by (by rewrite <- Hd, bool_decide_not).
  destruct Hop as [->| ->], b; cbn -[bool_decide]; rewrite ?Hd, ?Hd';
    by destruct (bool_decide (su_status u = "ACTIVE")).
Qed.

(** The comparison of a text attribute: case is folded on both sides or on neither. *)
Lemma text_comparison r attr op v pre more :
  op ∈ comparison_operators → op ≠ "pr" → kind_of (row_resource r) attr = Some KText →
  (wildcard_operator op = true → literal_pattern (anyToString v) = true) →
  let e := text_expr (row_resource r) attr in
  let fold := match v with FText _ => folds e | _ => false end in
  let w := if fold then ToLower (anyToString v) else anyToString v in
  cond_value r (pre ++ [pattern op w] ++ more) None
    (simple_cond e op (folds e) (S (length pre))) =
  (x ← attribute_of r attr; attribute_holds sprint_float x op v).
Proof.
  intros Hop Hpr Ek Hl e fold w. destruct (text_value r _ Ek) as (t & -> & He).
  cbn [mbind option_bind attribute_holds]. subst e. set (e := text_expr _ _) in *.
  rewrite (proj2 (String.eqb_neq op "pr") Hpr).
  assert (Hw : wildcard_operator op = true → literal_pattern w = true).
  { intros Hwild. specialize (Hl Hwild). subst w fold. destruct v; try done. destruct (folds e); [|done]. by rewrite literal_ToLower. }
  rewrite (simple_cond_value r _ None e op (folds e) (length pre) w)
    by (done || apply lookup_appended).
  destruct (He (pre ++ [pattern op w] ++ more) None) as [-> _].
  assert (Hlow : folds e = true → ToLower w = ToLower (anyToString v)).
  { intros Hf. subst w fold. destruct v; try done. rewrite Hf. apply ToLower_idem. }
  assert (Hraw : folds e = false → w = anyToString v).
  { intros Hf. subst w fold. destruct v; try done. by rewrite Hf. }
  destruct (folds e), t as [s|]; cbn [fmap option_map mbind option_bind]; try done.
  - by rewrite Hlow.
  - by rewrite Hraw.
Qed.

Lemma comparison_value r attr op v pre more :
  operator_fits op v →
  comparison_supported sprint_float (row_resource r) attr op v = true →
  (wildcard_operator op = true → literal_pattern (anyToString v) = true) →
  let a := normal_attribute attr in
  cond_value r (pre ++ comparison_args sprint_float (row_resource r) a op v ++ more) None
    (comparison_cond (row_resource r) a op v (length pre)) =
  (x ← attribute_of r a; attribute_holds sprint_float x op v).
Proof.
  intros [Hop Hv] Hs Hl. cbv zeta. unfold comparison_supported in Hs.
  fold (normal_attribute attr) in Hs. unfold comparison_cond, comparison_args.
  destruct (kind_of (row_resource r) (normal_attribute attr)) as [[]|] eqn:Ek; [..|done].
  - destruct (String.eqb_spec op "pr") as [->|Hpr]; [|by apply text_comparison].
    destruct (text_value r _ Ek) as (t & -> & He). cbn [mbind option_bind cond_value].
    destruct (He (pre ++ [] ++ more) None) as [_ ->]. by destruct t.
  - destruct (time_value r _ Ek) as (z & -> & Ht). cbn [mbind option_bind attribute_holds].
    destruct (String.eqb_spec op "pr") as [->|Hpr].
    + cbn [cond_value is_null]. rewrite Ht. by destruct (expr_value _ _ _ _).
    + cbn [cond_value expr_value]. rewrite Ht, lookup_appended. cbn [mbind option_bind].
      destruct (srv_timestamp _); [|done]. cbn [mbind option_bind]. cbn [orb] in Hs.
      apply andb_prop in Hs as [Hs _]. apply bool_decide_eq_true in Hs.
      by apply sql_compare_order.
  - destruct (status_value r _ Ek) as (u & -> & ->). cbn [mbind option_bind attribute_holds].
    destruct (String.eqb_spec op "pr") as [->|Hpr]; [done|].
    cbn [orb] in Hs. apply andb_prop in Hs as [Hs Hb]. destruct v as [|s|b|f]; try done.
    apply status_comparison. apply orb_true_iff in Hs as [Hs|Hs]; apply String.eqb_eq in Hs; auto.
  - rewrite (members_value r _ Ek). cbn [mbind option_bind attribute_holds].
    destruct (String.eqb_spec op "pr") as [->|Hpr]; [done|].
    destruct (String.eqb_spec op "ne") as [->|Hne]; cbn [cond_value].
    + rewrite (existsb_text_holds r _ "eq" (anyToString v)); [done | by left | done | | by intros ].
      apply lookup_appended.
    + rewrite (existsb_text_holds r _ op (anyToString v)); [done.. | | done].
      apply lookup_appended.
Qed.

Lemma filter_value r n :
  parsed_node n → filter_supported sprint_float (row_resource r) n = true →
  literal_values sprint_float n = true →
  ∀ pre more,
    cond_value r (pre ++ filter_args (row_resource r) n ++ more) None
      (filter_cond (row_resource r) n (length pre)) = filter_holds r n.
Proof.
  induction 1 as [op a b Hop Ha IHa Hb IHb|n Hn IH|attr op v Ha Hop Hv]; intros Hs Hl pre more.
  - cbn in Hs, Hl. apply andb_prop in Hs as [Hsa Hsb], Hl as [Hla Hlb].
    apply andb_prop in Hla as [_ Hla].
    cbn [ScimCondition.filter_args ScimCondition.filter_cond ScimCondition.filter_holds logical].
    change ("logical" =?s "logical") with true. cbv iota.
    specialize (IHa Hsa Hla pre (filter_args (row_resource r) b ++ more)).
    specialize (IHb Hsb Hlb (pre ++ filter_args (row_resource r) a) more).
    rewrite length_app in IHb. rewrite <- !app_assoc in IHb |- *.
    destruct Hop as [->| ->]; cbn [String.eqb]; cbn -[ScimCondition.filter_args ScimCondition.filter_cond ScimCondition.filter_holds];
      by rewrite IHa, IHb.
  - cbn [ScimCondition.filter_args ScimCondition.filter_cond ScimCondition.filter_holds not_node].
    change ("not" =?s "logical") with false. change ("not" =?s "not") with true. cbv iota.
    cbn [ScimCondition.cond_value]. rewrite IH; [done..|]. cbn in Hl. by apply andb_prop in Hl as [Hl _].
  - cbn in Hs, Hl. rewrite !andb_true_r in Hl. apply comparison_value; [done..|].
    intros Hw. by rewrite Hw in Hl.
Qed.

(** C22. [ToSQL] refuses exactly the filters with an unknown attribute, an operator the
    attribute does not have or a value of another kind; otherwise its text is that of a condition
    of SQL.  Under the arguments it returns, this condition is true, false or unknown of a user or
    a group as the filter is - a case-insensitive attribute in both its cases, a null attribute as
    an unknown, a negation of the members as "no member" - provided that no value the filter looks
    for with co, sw or ew holds a metacharacter of ILIKE (%, _ or \): these are not escaped, and
    [metacharacters_are_not_escaped] is a filter whose condition means something else. *)
Theorem ToSQL_means_the_filter r root :
  parsed_node root →
  ToSQL sprint_float (row_resource r) root =
    (if filter_supported sprint_float (row_resource r) root
     then Ok (cond_text (filter_cond (row_resource r) root 0), filter_args (row_resource r) root)
     else Err ErrInvalidSCIMFilter) ∧
  (filter_supported sprint_float (row_resource r) root = true →
   literal_values sprint_float root = true →
   cond_value r (filter_args (row_resource r) root) None (filter_cond (row_resource r) root 0) =
     filter_holds r root).
Proof.
  intros Hp. split.
  - transitivity (toSQL sprint_float (row_resource r) root []); [by destruct Hp|].
    by apply toSQL_spec.
  - intros Hs Hl. pose proof (filter_value r root Hp Hs Hl [] []) as Hv.
    cbn [app length] in Hv. by rewrite app_nil_r in Hv.
Qed.

(** Two filters that differ in their texts and numbers alone. *)
Definition same_value_kind (v w : filterValue) : bool :=
  match v, w with
  | FNil, FNil => true
  | FBool a, FBool b => Bool.eqb a b
  | (FText _ | FNumber _), (FText _ | FNumber _) => true
  | _, _ => false
  end.

Fixpoint same_shape (n m : SCIMFilterNode) : bool :=
  match n, m with
  | NilNode, NilNode => true
  | Node k at_ op v a b, Node k' at' op' v' a' b' =>
      (k =?s k') && (at_ =?s at') && (op =?s op') && same_value_kind v v'
      && same_shape a a' && same_shape b b'
  | _, _ => false
  end.

Lemma same_shape_cond resource n : ∀ m k,
  same_shape n m = true →
  filter_cond resource n k = filter_cond resource m k ∧
  length (filter_args resource n) = length (filter_args resource m).
Proof.
  induction n as [|kd at_ op v a IHa b IHb]; intros [|kd' at' op' v' a' b'] k Hm; try done.
  cbn in Hm. rewrite !andb_true_iff, !String.eqb_eq in Hm.
  destruct Hm as [[[[[-> ->] ->] Hv] Ha] Hb].
  destruct (IHa a' k Ha) as [Ea La].
  destruct (IHb b' (k + length (filter_args resource a'))%nat Hb) as [Eb Lb].
  cbn [ScimCondition.filter_args ScimCondition.filter_cond]. rewrite La, Ea, Eb.
  destruct (kd' =?s "logical"); [by rewrite !length_app, La, Lb|].
  destruct (kd' =?s "not"); [done|]. unfold comparison_cond, comparison_args.
  destruct (kind_of resource (ToLower (TrimSpace at'))) as [[]|], (op' =?s "pr"); try done.
  destruct v as [|s|b0|f], v' as [|s'|b0'|f']; try done. by destruct b0, b0'.
Qed.

(** No text and no number of a filter gets into the statement: filters that differ in
    these values alone have the same clause and as many arguments - the values are bound to
    placeholders. *)
Theorem clause_ignores_values resource n m clause args clause' args' :
  parsed_node n → parsed_node m → same_shape n m = true →
  ToSQL sprint_float resource n = Ok (clause, args) →
  ToSQL sprint_float resource m = Ok (clause', args') →
  clause = clause' ∧ length args = length args'.
Proof.
  intros Hn Hm Hs En Em.
  assert (Ht : ∀ root, parsed_node root →
            ToSQL sprint_float resource root = toSQL sprint_float resource root [])
    by (by destruct 1).
  rewrite Ht, toSQL_spec in En, Em by done.
  destruct (same_shape_cond resource n m 0 Hs) as [Ec El].
  destruct (filter_supported sprint_float resource n); [|done].
  destruct (filter_supported sprint_float resource m); [|done].
  cbn [length app] in En, Em. injection En as <- <-. injection Em as <- <-.
  by rewrite Ec, El.
Qed.
End Translated.

(** ** A server *)

(** A pattern of LIKE: [%] stands for any text, [_] for any character, a backslash makes
    the next character literal. *)
Fixpoint any_rest (f : string → bool) (s : string) : bool :=
  f s || match s with EmptyString => false | String _ r => any_rest f r end.

Fixpoint like (p : string) : string → bool :=
  match p with
  | EmptyString => λ s, s =?s ""
  | String c p' =>
      if Ascii.eqb c "%" then any_rest (like p')
      else if Ascii.eqb c "_" then
        λ s, match s with EmptyString => false | String _ r => like p' r end
      else if Ascii.eqb c "\" then
        match p' with
        | EmptyString => λ _, false
        | String d p'' =>
            λ s, match s with
                 | EmptyString => false
                 | String e r => Ascii.eqb d e && like p'' r
                 end
        end
      else λ s, match s with EmptyString => false | String d r => Ascii.eqb c d && like p' r end
  end.

#[export] Instance sample_server : Server := {
  srv_compare := String.compare;
  srv_ilike := λ s p, like (ToLower p) (ToLower s);
  srv_timestamp := λ s, match is_rfc3339 s with Some _ => Some (Z.of_nat (String.length s)) | None => None end;
}.

Lemma like_literal_step c p s :
  negb (Ascii.eqb c "%" || Ascii.eqb c "_" || Ascii.eqb c "\") = true →
  like (String c p) s = match s with EmptyString => false | String d r => Ascii.eqb c d && like p r end.
Proof.
  rewrite negb_true_iff, !orb_false_iff. intros [[H1 H2] H3]. cbn [like]. by rewrite H1, H2, H3.
Qed.

Lemma like_exact v s : literal_pattern v = true → like v s = (s =?s v).
Proof.
  revert s. induction v as [|c v IH]; intros s Hv; [done|].
  apply andb_prop in Hv as [Hc Hv]. rewrite like_literal_step by done.
  destruct s as [|d s]; [done|]. rewrite IH by done. cbn. rewrite (Ascii.eqb_sym c d).
  by destruct (Ascii.eqb d c).
Qed.

Lemma any_rest_true f s : (∀ t, f t = true) → any_rest f s = true.
Proof. intros H. destruct s; cbn; by rewrite H. Qed.

Lemma any_rest_empty s : any_rest (λ t, t =?s "") s = true.
Proof. induction s as [|c s IH]; [done|]. cbn. by rewrite IH. Qed.

Lemma like_prefix v s : literal_pattern v = true → like (v +:+ "%") s = HasPrefix s v.
Proof.
  revert s. induction v as [|c v IH]; intros s Hv.
  - change (like ("" +:+ "%") s) with (any_rest (λ t, t =?s "") s).
    rewrite any_rest_empty. by destruct s.
  - apply andb_prop in Hv as [Hc Hv]. rewrite string_app_cons, like_literal_step by done.
    destruct s as [|d s]; [done|]. rewrite IH by done. cbn. rewrite (Ascii.eqb_sym c d).
    by destruct (Ascii.eqb d c).
Qed.

Lemma HasSuffix_cons c s v : HasSuffix (String c s) v = (String c s =?s v) || HasSuffix s v.
Proof.
  unfold HasSuffix.
  destruct (Nat.leb_spec (String.length v) (String.length s)) as [Hl|Hl].
  - cbn [String.length]. rewrite (proj2 (Nat.leb_le _ _)) by lia. cbn [andb].
    rewrite Nat.sub_succ_l by done. cbn [String.substring].
    destruct (String.eqb_spec (String c s) v) as [<-|]; [cbn in Hl; lia | done].
  - rewrite orb_false_r. cbn [String.length andb].
    destruct (Nat.leb_spec (String.length v) (S (String.length s))) as [Hl'|Hl'].
    + replace (String.length v) with (S (String.length s)) by lia. rewrite Nat.sub_diag.
      cbn [andb String.substring].
      assert (Hs : ∀ t, String.substring 0 (String.length t) t = t)
        by (induction t as [|d t IH]; cbn; congruence).
      by rewrite Hs.
    + destruct (String.eqb_spec (String c s) v) as [<-|]; [cbn in Hl'; lia | done].
Qed.

Lemma like_suffix v s : literal_pattern v = true → like ("%" +:+ v) s = HasSuffix s v.
Proof.
  intros Hv. change (like ("%" +:+ v) s) with (any_rest (like v) s).
  induction s as [|c s IH].
  - cbn. rewrite like_exact by done. by destruct v.
  - cbn [any_rest]. by rewrite IH, like_exact, HasSuffix_cons.
Qed.

Lemma like_contains v s : literal_pattern v = true → like ("%" +:+ v +:+ "%") s = Contains s v.
Proof.
  intros Hv. change (like ("%" +:+ v +:+ "%") s) with (any_rest (like (v +:+ "%")) s).
  induction s as [|c s IH].
  - cbn. rewrite like_prefix by done. by destruct v.
  - cbn [any_rest Contains]. rewrite IH, like_prefix by done. by destruct (HasPrefix (String c s) v).
Qed.

Lemma ToLower_app s t : ToLower (s +:+ t) = ToLower s +:+ ToLower t.
Proof.
  unfold ToLower. induction s as [|c s IH]; [done|].
  rewrite string_app_cons. cbn [string_map]. by rewrite IH, string_app_cons.
Qed.

#[export] Instance sample_server_laws : ServerLaws.
Proof.
  split; cbn [srv_compare srv_ilike sample_server].
  - intros s t. split; [apply String.compare_eq_iff|]. intros <-.
    induction s as [|c s IH]; [done|]. cbn. unfold Ascii.compare. by rewrite N.compare_refl.
  - intros s v Hv. rewrite !ToLower_app. change (ToLower "%") with "%".
    apply like_contains. by rewrite literal_ToLower.
  - intros s v Hv. rewrite !ToLower_app. change (ToLower "%") with "%".
    apply like_prefix. by rewrite literal_ToLower.
  - intros s v Hv. rewrite !ToLower_app. change (ToLower "%") with "%".
    apply like_suffix. by rewrite literal_ToLower.
Qed.

(** ** Witnesses *)

Definition float_text (f : float64) : string := "1".
Definition sample_user : scim_user := {|
  su_username := "j_doe"; su_email := "Jane.Doe@bank.example"; su_display_name := "Jane Doe";
  su_status := "ACTIVE"; su_external_id := None; su_created_at := 10; su_updated_at := 30;
|}.
Definition sample_group : scim_group := {|
  sg_display_name := "Underwriters"; sg_external_id := Some "x-1"; sg_created_at := 10;
  sg_updated_at := 30; sg_members := ["u1"; "u2"];
|}.
Definition sample_filter (name : string) : SCIMFilterNode :=
  logical "or"
    (logical "and" (comparison_node "username" "eq" (FText name))
                   (not_node (comparison_node "active" "eq" (FBool false))))
    (comparison_node "externalid" "pr" FNil).

Lemma sample_filter_parsed name : parsed_node (sample_filter name).
Proof.
  unfold sample_filter. repeat constructor; try done; try (by left); try (by right);
    apply (bool_decide_eq_true_1 _); vm_compute; reflexivity.
Qed.

Lemma ToSQL_means_the_filter_witness :
  let r := RUser sample_user in
  let root := sample_filter "J_DOE" in
  ToSQL float_text (row_resource r) root =
    Ok ("(((LOWER(u.username) = LOWER($1)) AND (NOT ((u.status <> 'ACTIVE')))) OR (u.external_id IS NOT NULL))",
        ["j_doe"]) ∧
  cond_value r ["j_doe"] None (filter_cond float_text SCIMResourceTypeUser root 0) = Some true ∧
  filter_holds float_text r root = Some true.
Proof.
  destruct (ToSQL_means_the_filter float_text (RUser sample_user) (sample_filter "J_DOE")
              (sample_filter_parsed _)) as [E V].
  cbv zeta. rewrite E. split; [vm_compute; reflexivity|].
  specialize (V eq_refl eq_refl). split; [vm_compute; reflexivity|].
  rewrite <- V. vm_compute. reflexivity.
Defined.

Lemma clause_ignores_values_witness :
  let clause := "(((LOWER(u.username) = LOWER($1)) AND (NOT ((u.status <> 'ACTIVE')))) OR (u.external_id IS NOT NULL))" in
  clause = clause ∧ length ["j_doe"] = length ["x') or 1=1 --"].
Proof.
  apply (clause_ignores_values float_text SCIMResourceTypeUser (sample_filter "j_doe")
           (sample_filter "x') OR 1=1 --")); try apply sample_filter_parsed; vm_compute; reflexivity.
Defined.

(** The metacharacters of ILIKE are not escaped: a display name "contains" [%]. *)
Example metacharacters_are_not_escaped :
  let r := RUser sample_user in
  let root := comparison_node "displayname" "co" (FText "J%e") in
  cond_value r (filter_args float_text SCIMResourceTypeUser root) None
    (filter_cond float_text SCIMResourceTypeUser root 0) = Some true ∧
  filter_holds float_text r root = Some false.
Proof. vm_compute. split; reflexivity. Qed.
