(* ===== verification/ScimLists.v ===== *)
(** * Lists of SCIM resources (internal/scim/query.go)

    The statement of a list: the tenant, the translated filter with its placeholders
    moved behind the tenant's, the order, the page.  Whatever the filter says, the
    statement reads the rows of one tenant. *)

From Stdlib Require Import Ascii String ZArith Lia.
From stdpp Require Import base list strings.
From S2P Require Import Prelude Float64 ApprovalExpr SqlTx Schema Outbox TenantScope ScimFilter ScimCondition.

Open Scope Z_scope.
Open Scope go_scope.

(** ** The statement *)

(** [strconv.Atoi] on a text of digits; [None] when it exceeds an int. *)
Definition atoi_digits (s : string) : option N :=
  let n := digits_value s 0 in if (n <=? Z.to_N int64_max)%N then Some n else None.

(** [placeholderPattern.ReplaceAllStringFunc]: a dollar and the digits after it. *)
Fixpoint shift_from (fuel : nat) (s : string) (offset : N) : string :=
  match fuel, s with
  | S fuel, String c r =>
      if Ascii.eqb c "$" then
        let '(w, rest) := scan_while is_digit r in
        if w =?s "" then String c (shift_from fuel r offset)
        else
          String c (match atoi_digits w with
                    | Some n => Itoa_N (n + offset)
                    | None => w
                    end) +:+ shift_from fuel rest offset
      else String c (shift_from fuel r offset)
  | _, _ => EmptyString
  end.

Definition shiftPlaceholders (clause : string) (offset : nat) : string :=
  if (offset =? 0)%nat || (TrimSpace clause =?s "") then clause
  else shift_from (String.length clause) clause (N.of_nat offset).

Definition sort_direction (sortOrder : string) : string :=
  if EqualFold sortOrder "descending" then "DESC" else "ASC".

Definition userSortClause (sortBy sortOrder : string) : string :=
  let direction := sort_direction sortOrder in
  let by_ := ToLower (TrimSpace sortBy) in
  if by_ =?s "username" then "LOWER(u.username) " +:+ direction +:+ ", u.user_id ASC"
  else if by_ =?s "displayname" then "u.display_name " +:+ direction +:+ ", u.user_id ASC"
  else if by_ =?s "externalid" then
    "u.external_id " +:+ direction +:+ " NULLS LAST, u.user_id ASC"
  else if by_ =?s "meta.created" then "u.created_at " +:+ direction +:+ ", u.user_id ASC"
  else if by_ =?s "meta.lastmodified" then "u.updated_at " +:+ direction +:+ ", u.user_id ASC"
  else "u.display_name ASC, u.user_id ASC".

Definition groupSortClause (sortBy sortOrder : string) : string :=
  let direction := sort_direction sortOrder in
  let by_ := ToLower (TrimSpace sortBy) in
  if by_ =?s "displayname" then "g.display_name " +:+ direction +:+ ", g.team_id ASC"
  else if by_ =?s "externalid" then
    "g.external_id " +:+ direction +:+ " NULLS LAST, g.team_id ASC"
  else if by_ =?s "meta.created" then "g.created_at " +:+ direction +:+ ", g.team_id ASC"
  else if by_ =?s "meta.lastmodified" then "g.updated_at " +:+ direction +:+ ", g.team_id ASC"
  else "g.display_name ASC, g.team_id ASC".

Definition sanitizePagination (startIndex count : Z) : Z * Z :=
  let startIndex := if startIndex <=? 0 then 1 else startIndex in
  let count := if count <=? 0 then 100 else count in
  (startIndex, if 200 <? count then 200 else count).

Inductive list_arg := ArgText (s : string) | ArgInt (z : Z).

(** What distinguishes a list statement from another: the conditions joined by AND, the
    order, the arguments, and the numbers of the placeholders of the page. *)
Record list_statement := {
  ls_where : string; ls_order : string; ls_args : list list_arg;
  ls_limit : nat; ls_offset : nat;
}.

Fixpoint join (sep : string) (l : list string) : string :=
  match l with
  | [] => ""
  | [s] => s
  | s :: l => s +:+ sep +:+ join sep l
  end.

Section Lists.
Context (sprint_float : float64 → string).

(** The conditions of a list and their arguments, all of them texts. *)
Definition list_conditions (tenant_condition : string) (resource : SCIMResourceType)
    (tenantID filterExpr : string) : result (list string * list string) :=
  let args := [tenantID] in
  let where_ := [tenant_condition] in
  if TrimSpace filterExpr =?s "" then Ok (where_, args)
  else
    parsed ← ParseSCIMFilter filterExpr;
    '(clause, filterArgs) ← ToSQL sprint_float resource parsed;
    Ok (if TrimSpace clause =?s "" then (where_, args)
        else (where_ ++ [shiftPlaceholders clause (length args)], args ++ filterArgs)).

Definition list_page (where_ args : list string) (sortClause : string) (count offset : Z)
    : list_statement :=
  let args := (ArgText <$> args) ++ [ArgInt count; ArgInt offset] in
  {| ls_where := join " AND " where_; ls_order := sortClause; ls_args := args;
     ls_limit := length args - 1; ls_offset := length args |}.

Definition user_tenant_condition : string := "u.tenant_id = $1::uuid".
Definition group_tenant_condition : string := "g.tenant_id = $1::uuid".

(** The statement [listSCIMUsers] sends. *)
Definition listSCIMUsers (tenantID filterExpr sortBy sortOrder : string)
    (startIndex count : Z) : result list_statement :=
  let '(startIndex, count) := sanitizePagination startIndex count in
  '(where_, args) ← list_conditions user_tenant_condition SCIMResourceTypeUser
                      tenantID filterExpr;
  Ok (list_page where_ args (userSortClause sortBy sortOrder) count (startIndex - 1)).

(** The statement [listSCIMGroups] sends. *)
Definition listSCIMGroups (tenantID filterExpr sortBy sortOrder : string)
    (startIndex count : Z) : result list_statement :=
  let '(startIndex, count) := sanitizePagination startIndex count in
  '(where_, args) ← list_conditions group_tenant_condition SCIMResourceTypeGroup
                      tenantID filterExpr;
  Ok (list_page where_ args (groupSortClause sortBy sortOrder) count (startIndex - 1)).
End Lists.

(** ** The text of a condition inside a statement *)

Definition calm_char (c : ascii) : bool :=
  negb (Ascii.eqb c "$" || Ascii.eqb c "'" || Ascii.eqb c "(" || Ascii.eqb c ")").
Definition calm (s : string) : bool := all_chars calm_char s.

(** Names and operators without dollars, quotes and parentheses, and placeholders of at
    most [N] arguments. *)
Fixpoint clean_expr (N : nat) (e : sql_expr) : bool :=
  match e with
  | XColumn c | XText c => calm c
  | XLower e => clean_expr N e
  | XParam n => (1 <=? n)%nat && (n <=? N)%nat
  end.

Fixpoint clean_cond (N : nat) (c : sql_cond) : bool :=
  match c with
  | CCompare op a b => calm op && clean_expr N a && clean_expr N b
  | CCompareTime op column n => calm op && calm column && (1 <=? n)%nat && (n <=? N)%nat
  | CIlike a b => clean_expr N a && clean_expr N b
  | CNotNull e => clean_expr N e
  | CAnd a b | COr a b => clean_cond N a && clean_cond N b
  | CNot a | CMember a | CNoMember a => clean_cond N a
  | CHasMember => true
  end.

Fixpoint expr_shift (k : nat) (e : sql_expr) : sql_expr :=
  match e with
  | XLower e => XLower (expr_shift k e)
  | XParam n => XParam (n + k)
  | _ => e
  end.

Fixpoint cond_shift (k : nat) (c : sql_cond) : sql_cond :=
  match c with
  | CCompare op a b => CCompare op (expr_shift k a) (expr_shift k b)
  | CCompareTime op column n => CCompareTime op column (n + k)
  | CIlike a b => CIlike (expr_shift k a) (expr_shift k b)
  | CNotNull e => CNotNull (expr_shift k e)
  | CAnd a b => CAnd (cond_shift k a) (cond_shift k b)
  | COr a b => COr (cond_shift k a) (cond_shift k b)
  | CNot a => CNot (cond_shift k a)
  | CHasMember => CHasMember
  | CMember p => CMember (cond_shift k p)
  | CNoMember p => CNoMember (cond_shift k p)
  end.

(** *** Moving the placeholders *)

Definition shift_all (k : nat) (s : string) : string :=
  shift_from (String.length s) s (N.of_nat k).

Lemma shift_from_fuel off f : ∀ g s,
  (String.length s ≤ f)%nat → (String.length s ≤ g)%nat →
  shift_from f s off = shift_from g s off.
Proof.
  induction f as [|f IH]; intros g s Hf Hg.
  { destruct s; [by destruct g | cbn in Hf; lia]. }
  destruct s as [|c r]; [by destruct g|]. destruct g as [|g]; [cbn in Hg; lia|].
  cbn in Hf, Hg. cbn [shift_from].
  pose proof (scan_while_length is_digit r) as Hr.
  destruct (scan_while is_digit r) as [w rest]. cbn in Hr.
  rewrite (IH g r), (IH g rest) by lia. done.
Qed.

Lemma shift_all_cons k c r : calm_char c = true → shift_all k (String c r) = String c (shift_all k r).
Proof.
  unfold calm_char. rewrite negb_true_iff, !orb_false_iff. intros [[[H _] _] _].
  unfold shift_all. cbn [String.length shift_from]. by rewrite H.
Qed.

Definition dollarless (s : string) : bool := all_chars (λ c, negb (Ascii.eqb c "$")) s.

Lemma calm_dollarless s : calm s = true → dollarless s = true.
Proof.
  apply all_chars_impl. intros c. unfold calm_char.
  rewrite !negb_true_iff, !orb_false_iff. tauto.
Qed.

Lemma expr_shift_clean k N e : clean_expr N e = true → clean_expr (N + k) (expr_shift k e) = true.
Proof.
  induction e as [c|e IH|n|s]; cbn [clean_expr expr_shift]; try done. rewrite !andb_true_iff, !Nat.leb_le. lia.
Qed.

Lemma cond_shift_clean k N c : clean_cond N c = true → clean_cond (N + k) (cond_shift k c) = true.
Proof.
  pose proof (expr_shift_clean k N) as He.
  induction c; cbn [clean_cond cond_shift]; rewrite ?andb_true_iff, ?Nat.leb_le; try done;
    intros; destruct_and?; repeat split; auto; lia.
Qed.

Lemma shift_dollarless k a b : dollarless a = true → shift_all k (a +:+ b) = a +:+ shift_all k b.
Proof.
  induction a as [|c a IH]; intros Ha; [done|]. apply andb_prop in Ha as [Hc Ha].
  rewrite !string_app_cons, <- IH by done. apply negb_true_iff in Hc.
  unfold shift_all. cbn [String.length shift_from]. by rewrite Hc.
Qed.

Lemma digits_go_digits f : ∀ n acc,
  f ≠ 0%nat → all_chars is_digit acc = true →
  all_chars is_digit (digits_go f n acc) = true ∧ digits_go f n acc ≠ "".
Proof.
  assert (Hd : ∀ d, (d < 10)%N → is_digit (digit_char d) = true).
  { intros d Hd. destruct d as [|p]; [done|].
    do 4 (destruct p as [p|p|]; try done; try lia). }
  induction f as [|f IH]; intros n acc Hf Ha; [done|]. cbn [digits_go].
  assert (Hm : is_digit (digit_char (n mod 10)) = true) by (apply Hd, N.mod_lt; lia).
  destruct (n / 10 =? 0)%N; [cbn; by rewrite Hm|].
  destruct f as [|f]; [cbn; by rewrite Hm|]. apply IH; [done|]. cbn. by rewrite Hm.
Qed.

(** A text that does not go on with a digit. *)
Definition no_digit (s : string) : Prop :=
  match s with EmptyString => True | String c _ => is_digit c = false end.

Lemma shift_placeholder k n rest :
  Z.of_nat n ≤ int64_max → no_digit rest →
  shift_all k (placeholder n +:+ rest) = placeholder (n + k) +:+ shift_all k rest.
Proof.
  intros Hn Hr. unfold placeholder. change ("$" +:+ ?s) with (String "$" s).
  rewrite !string_app_cons. unfold shift_all at 1. cbn [String.length shift_from].
  change (Ascii.eqb "$" "$") with true. cbv iota.
  destruct (digits_go_digits (S (N.to_nat (N.size (N.of_nat n)))) (N.of_nat n) "")
    as [Hd Hne]; [done..|]. fold (Itoa_N (N.of_nat n)) in Hd, Hne.
  rewrite scan_while_app by done. rewrite (proj2 (String.eqb_neq _ _) Hne).
  unfold atoi_digits. rewrite Itoa_N_value.
  rewrite (proj2 (N.leb_le _ _)) by lia. rewrite <- Nat2N.inj_add.
  rewrite string_app_cons. do 2 f_equal. apply shift_from_fuel; [|lia].
  rewrite length_string_app. lia.
Qed.

Lemma shift_expr k N e rest :
  Z.of_nat N ≤ int64_max → clean_expr N e = true → no_digit rest →
  shift_all k (expr_text e +:+ rest) = expr_text (expr_shift k e) +:+ shift_all k rest.
Proof.
  intros HN. revert rest. induction e as [c|e IH|n|s]; intros rest Hc Hr;
    cbn [clean_expr expr_text expr_shift] in *.
  - apply shift_dollarless. by apply calm_dollarless.
  - rewrite !string_app_assoc, shift_dollarless by done. rewrite IH by done.
    by rewrite shift_dollarless.
  - apply andb_prop in Hc as [_ Hc]. apply Nat.leb_le in Hc. apply shift_placeholder; [lia | done].
  - rewrite !string_app_assoc, shift_dollarless by done.
    rewrite shift_dollarless by (by apply calm_dollarless). by rewrite shift_dollarless.
Qed.

Lemma shift_cond k N c : Z.of_nat N ≤ int64_max → clean_cond N c = true → ∀ rest,
  shift_all k (cond_text c +:+ rest) = cond_text (cond_shift k c) +:+ shift_all k rest.
Proof.
  intros HN. induction c as [op a b|op column n|a b|e|a IHa b IHb|a IHa b IHb|a IHa| |p IHp|p IHp];
    intros Hc rest; cbn [clean_cond cond_text cond_shift] in *;
    rewrite ?andb_true_iff in Hc; destruct_and?; rewrite ?string_app_assoc;
    repeat first
      [ rewrite (shift_dollarless k "(") by done
      | rewrite (shift_expr k N) by done
      | match goal with H : calm ?s = true |- context [shift_all k (?s +:+ _)] =>
          rewrite (shift_dollarless k s) by (by apply calm_dollarless) end
      | match goal with IH : _ → ∀ rest, shift_all k (cond_text ?a +:+ _) = _
          |- context [shift_all k (cond_text ?a +:+ _)] => rewrite IH by done end
      | match goal with H : (?n <=? N)%nat = true |- context [shift_all k (placeholder ?n +:+ _)] =>
          rewrite shift_placeholder by (done || (apply Nat.leb_le in H; lia)) end
      | rewrite shift_dollarless by done ]; done.
Qed.

Lemma TrimSpace_head c s : is_space c = false → TrimSpace (String c s) ≠ "".
Proof.
  intros Hc. unfold TrimSpace. cbn. rewrite Hc. cbn. destruct (trim_right s); [|done].
  by rewrite Hc.
Qed.

Lemma shiftPlaceholders_text k N c :
  Z.of_nat N ≤ int64_max → clean_cond N c = true → k ≠ 0%nat →
  shiftPlaceholders (cond_text c) k = cond_text (cond_shift k c).
Proof.
  intros HN Hc Hk. unfold shiftPlaceholders. rewrite (proj2 (Nat.eqb_neq k 0) Hk). cbn [orb].
  destruct (String.eqb_spec (TrimSpace (cond_text c)) "") as [E|_].
  { exfalso. revert E. destruct c; cbn [cond_text]; rewrite ?string_app_cons;
      by apply TrimSpace_head. }
  pose proof (shift_cond k N c HN Hc "") as Hs. rewrite !string_app_nil_r in Hs. exact Hs.
Qed.

(** *** The placeholders stand for the same arguments *)

Lemma expr_value_shift r pre args member N e :
  clean_expr N e = true →
  expr_value r (pre ++ args) member (expr_shift (length pre) e) = expr_value r args member e.
Proof.
  induction e as [c|e IH|n|s]; cbn [clean_expr expr_shift expr_value]; intros Hc; try done.
  - by rewrite IH.
  - destruct n as [|n]; [done|]. cbn [Nat.add].
    rewrite lookup_app_r by lia. f_equal. lia.
Qed.

Lemma is_null_shift r pre args member N e :
  clean_expr N e = true →
  is_null r (pre ++ args) member (expr_shift (length pre) e) = is_null r args member e.
Proof.
  intros Hc. pose proof (expr_value_shift r pre args member N e Hc) as Hv.
  destruct e; cbn [expr_shift is_null] in *; rewrite ?Hv; done.
Qed.

Lemma cond_value_shift `{Server} r pre args N c : clean_cond N c = true → ∀ member,
  cond_value r (pre ++ args) member (cond_shift (length pre) c) = cond_value r args member c.
Proof.
  induction c as [op a b|op column n|a b|e|a IHa b IHb|a IHa b IHb|a IHa| |p IHp|p IHp];
    cbn [clean_cond cond_shift]; intros Hc member; rewrite ?andb_true_iff in Hc; destruct_and?;
    cbn [cond_value].
  - by rewrite !(expr_value_shift r pre args member N) by done.
  - pose proof (expr_value_shift r pre args member N (XParam n)) as E.
    cbn [clean_expr expr_shift] in E. rewrite E; [done|]. by apply andb_true_intro.
  - by rewrite !(expr_value_shift r pre args member N) by done.
  - by rewrite (is_null_shift r pre args member N).
  - by rewrite IHa, IHb.
  - by rewrite IHa, IHb.
  - by rewrite IHa.
  - done.
  - f_equal. induction (row_members r) as [|m l IH]; [done|]. cbn. by rewrite IH, IHp.
  - do 2 f_equal. induction (row_members r) as [|m l IH]; [done|]. cbn. by rewrite IH, IHp.
Qed.

(** *** The words of a condition outside its parentheses *)

Definition run (l : lexer) (s : string) : lexer := fold_left lex_char (string_chars s) l.

Lemma run_app l s t : run l (s +:+ t) = run (run l s) t.
Proof.
  unfold run. revert l. induction s as [|c s IH]; intros l; [done|].
  rewrite string_app_cons. cbn. apply IH.
Qed.

(** The lexer between words: [ws] are the words it has seen. *)
Definition between (d : nat) (ws : list string) : lexer :=
  {| lx_word := ""; lx_depth := d; lx_quoted := false; lx_words := ws |}.
Definition in_word (d : nat) (ws : list string) (w : string) : lexer :=
  {| lx_word := w; lx_depth := d; lx_quoted := false; lx_words := ws |}.

(** A text that, inside parentheses, leaves the lexer there. *)
Definition inner (s : string) : Prop :=
  ∀ d ws w, ∃ w', run (in_word (S d) ws w) s = in_word (S d) ws w'.

Definition plain_char (c : ascii) : bool :=
  negb (Ascii.eqb c "'" || Ascii.eqb c "(" || Ascii.eqb c ")").

Lemma lex_char_plain d ws w c :
  plain_char c = true → ∃ w', lex_char (in_word (S d) ws w) c = in_word (S d) ws w'.
Proof.
  unfold plain_char. rewrite negb_true_iff, !orb_false_iff. intros [[H1 H2] H3].
  unfold lex_char. cbn [lx_quoted in_word]. rewrite H1, H2, H3.
  destruct (is_space c || Ascii.eqb c ","); [|by eexists].
  unfold end_word. cbn [lx_word lx_depth lx_quoted lx_words in_word Nat.eqb negb].
  rewrite orb_true_r. by exists "".
Qed.

Lemma inner_plain s : all_chars plain_char s = true → inner s.
Proof.
  intros Hs d ws. induction s as [|c s IH]; intros w; [by exists w|].
  apply andb_prop in Hs as [Hc Hs]. destruct (lex_char_plain d ws w c Hc) as [w' E].
  change (run ?l (String c s)) with (run (lex_char l c) s). rewrite E. by apply IH.
Qed.

Lemma inner_calm s : calm s = true → inner s.
Proof.
  intros Hs. apply inner_plain. revert Hs. apply all_chars_impl. intros c.
  unfold calm_char, plain_char. rewrite !negb_true_iff, !orb_false_iff. tauto.
Qed.

Lemma inner_placeholder n : inner (placeholder n).
Proof.
  apply inner_plain. change (all_chars plain_char (Itoa_N (N.of_nat n)) = true).
  destruct (digits_go_digits (S (N.to_nat (N.size (N.of_nat n)))) (N.of_nat n) "")
    as [Hd _]; [done..|]. revert Hd. apply all_chars_impl.
  intros c. apply implb_true_iff. revert c. by_bytes.
Qed.

Lemma inner_app s t : inner s → inner t → inner (s +:+ t).
Proof.
  intros Hs Ht d ws w. destruct (Hs d ws w) as [w1 E]. rewrite run_app, E. apply Ht.
Qed.

Definition in_parens (s : string) : string := "(" +:+ s +:+ ")".

Lemma inner_parens s : inner s → inner (in_parens s).
Proof.
  intros Hs d ws w. unfold in_parens. rewrite !run_app.
  assert (Eo : run (in_word (S d) ws w) "(" = in_word (S (S d)) ws "")
    by (unfold run; cbn; by rewrite orb_true_r).
  rewrite Eo. destruct (Hs (S d) ws "") as [w' ->]. exists "".
  unfold run. cbn. by rewrite orb_true_r.
Qed.

Lemma inner_quoted s : calm s = true → inner ("'" +:+ s +:+ "'").
Proof.
  intros Hs d ws w. exists w. rewrite !run_app.
  set (q := {| lx_word := w; lx_depth := S d; lx_quoted := true; lx_words := ws |}).
  change (run (in_word (S d) ws w) "'") with q.
  assert (Eq : run q s = q).
  { induction s as [|c s IH]; [done|]. apply andb_prop in Hs as [Hc Hs].
    change (run q (String c s)) with (run (lex_char q c) s).
    assert (lex_char q c = q) as ->; [|by apply IH].
    unfold calm_char in Hc. rewrite negb_true_iff, !orb_false_iff in Hc.
    destruct Hc as [[[_ Hc] _] _]. unfold lex_char, q. cbn [lx_quoted]. by rewrite Hc. }
  by rewrite Eq.
Qed.

Lemma inner_expr N e : clean_expr N e = true → inner (expr_text e).
Proof.
  induction e as [c|e IH|n|s]; cbn [clean_expr expr_text]; intros Hc.
  - by apply inner_calm.
  - change (inner ("LOWER" +:+ in_parens (expr_text e))).
    apply inner_app; [by apply inner_calm | by apply inner_parens, IH].
  - apply inner_placeholder.
  - by apply inner_quoted.
Qed.

(** What stands between the outer parentheses of a condition, and the word before them. *)
Definition top_word (c : sql_cond) : list string :=
  match c with CHasMember | CMember _ => ["EXISTS"] | CNoMember _ => ["NOT"] | _ => [] end.

Definition top_text (ws : list string) : string :=
  match ws with w :: _ => w +:+ " " | [] => "" end.

(** A condition is its outer parentheses around a text made of such texts. *)
Ltac text_inside :=
  split; [cbn [cond_text]; unfold in_parens; rewrite ?string_app_assoc; reflexivity|];
  repeat first
    [ apply inner_calm; first [assumption | vm_compute; reflexivity]
    | match goal with |- inner (placeholder _) => apply inner_placeholder end
    | apply inner_parens | apply inner_app ]; auto 4.

Lemma cond_text_parens N c :
  clean_cond N c = true → ∃ s, cond_text c = top_text (top_word c) +:+ in_parens s ∧ inner s.
Proof.
  assert (He : ∀ e, clean_expr N e = true → inner (expr_text e)) by apply inner_expr.
  assert (Hup : ∀ c', (∃ s, cond_text c' = top_text (top_word c') +:+ in_parens s ∧ inner s) →
            inner (cond_text c')).
  { intros c' (s & -> & Hs). apply inner_app; [|by apply inner_parens].
    destruct c'; by apply inner_calm. }
  induction c as [op a b|op column n|a b|e|a IHa b IHb|a IHa b IHb|a IHa| |p IHp|p IHp];
    cbn [clean_cond]; intros Hc; rewrite ?andb_true_iff in Hc; destruct_and?.
  - exists (expr_text a +:+ " " +:+ op +:+ " " +:+ expr_text b). text_inside.
  - exists (column +:+ " " +:+ op +:+ " " +:+ placeholder n +:+ "::timestamptz"). text_inside.
  - exists (expr_text a +:+ " ILIKE " +:+ expr_text b). text_inside.
  - exists (expr_text e +:+ " IS NOT NULL"). text_inside.
  - exists (cond_text a +:+ " AND " +:+ cond_text b). text_inside.
  - exists (cond_text a +:+ " OR " +:+ cond_text b). text_inside.
  - exists ("NOT " +:+ in_parens (cond_text a)). text_inside.
  - exists members_base. text_inside.
  - exists (members_base +:+ " AND " +:+ cond_text p). text_inside.
  - exists ("EXISTS " +:+ in_parens (members_base +:+ " AND " +:+ cond_text p)). text_inside.
Qed.

Lemma run_cond N c ws :
  clean_cond N c = true → run (between 0 ws) (cond_text c) = between 0 (ws ++ top_word c).
Proof.
  intros Hc. destruct (cond_text_parens N c Hc) as (s & -> & Hs).
  assert (Et : run (between 0 ws) (top_text (top_word c)) = between 0 (ws ++ top_word c)).
  { destruct c; try done; cbn [top_word]; rewrite ?app_nil_r; done. }
  rewrite run_app, Et. unfold in_parens. rewrite !run_app.
  change (run (between 0 (ws ++ top_word c)) "(") with (in_word 1 (ws ++ top_word c) "").
  destruct (Hs 0%nat (ws ++ top_word c) "") as [w' ->].
  unfold run. cbn. by rewrite orb_true_r.
Qed.

(** ** The statement of a list *)

Lemma clean_expr_le N M e : (N ≤ M)%nat → clean_expr N e = true → clean_expr M e = true.
Proof.
  intros HN. induction e as [c|e IH|n|s]; cbn; try done. intros H.
  apply andb_prop in H as [H1 H2]. rewrite H1. apply Nat.leb_le in H2. apply Nat.leb_le. lia.
Qed.

Lemma clean_cond_le N M c : (N ≤ M)%nat → clean_cond N c = true → clean_cond M c = true.
Proof.
  intros HN. pose proof (λ e, clean_expr_le N M e HN) as He.
  induction c; cbn; rewrite ?andb_true_iff; try done; intros; destruct_and?;
    repeat split; auto; repeat match goal with H : (_ <=? _)%nat = true |- _ =>
      apply Nat.leb_le in H end; apply Nat.leb_le; lia.
Qed.

Section Statement.
Context (sprint_float : float64 → string).
#[local] Abbreviation filter_args := (filter_args sprint_float).
#[local] Abbreviation filter_cond := (filter_cond sprint_float).

Lemma simple_cond_clean N e op lower n :
  clean_expr N e = true → (1 ≤ n)%nat → (n ≤ N)%nat → clean_cond N (simple_cond e op lower n) = true.
Proof.
  intros He H1 Hn. apply Nat.leb_le in H1, Hn. unfold simple_cond, sql_operator, comparisonOperator.
  case_bool_decide; cbn [clean_cond]; rewrite He.
  - repeat case_match; cbn [clean_expr default from_option]; by rewrite H1, Hn.
  - cbn [clean_expr]. by rewrite H1, Hn.
Qed.

Lemma comparison_cond_clean resource attr op v k :
  clean_cond (k + length (comparison_args sprint_float resource attr op v))
    (comparison_cond resource attr op v k) = true.
Proof.
  unfold comparison_cond, comparison_args.
  destruct (kind_of resource attr) as [[]|], (String.eqb_spec op "pr") as [->|Hpr];
    cbn [length]; rewrite ?Nat.add_1_r; try done.
  - unfold text_expr. repeat case_match; by destruct resource.
  - apply simple_cond_clean; [|lia..]. unfold text_expr. repeat case_match; by destruct resource.
  - unfold time_expr. case_match; by destruct resource.
  - cbn [clean_cond]. unfold sql_operator, comparisonOperator, time_expr.
    rewrite !andb_true_iff. repeat split; try (apply Nat.leb_le; lia);
      repeat case_match; by destruct resource.
  - case_match; by case_match.
  - case_match; cbn [clean_cond]; apply simple_cond_clean; done || lia.
  - case_match; cbn [clean_cond]; apply simple_cond_clean; done || lia.
Qed.

Lemma filter_cond_clean resource n : ∀ k,
  clean_cond (k + length (filter_args resource n)) (filter_cond resource n k) = true.
Proof.
  induction n as [|kd attr op v a IHa b IHb]; intros k; [done|].
  cbn [ScimCondition.filter_args ScimCondition.filter_cond]. destruct (kd =?s "logical").
  - rewrite length_app, Nat.add_assoc. specialize (IHa k).
    specialize (IHb (k + length (filter_args resource a))%nat).
    apply (clean_cond_le _ (k + length (filter_args resource a) + length (filter_args resource b)))
      in IHa; [|lia].
    destruct (op =?s "and"); cbn [clean_cond]; by rewrite IHa, IHb.
  - destruct (kd =?s "not"); [apply IHa | apply comparison_cond_clean].
Qed.

Lemma comparison_args_length resource attr op v :
  (length (comparison_args sprint_float resource attr op v) ≤ 1)%nat.
Proof. unfold comparison_args. repeat case_match; cbn; lia. Qed.

Lemma filter_args_length resource n : (length (filter_args resource n) ≤ tree_size n)%nat.
Proof.
  induction n as [|kd attr op v a IHa b IHb]; [done|]. cbn [ScimCondition.filter_args tree_size].
  pose proof (comparison_args_length resource (ToLower (TrimSpace attr)) op v).
  destruct (kd =?s "logical"); [rewrite length_app; lia|]. destruct (kd =?s "not"); lia.
Qed.

Definition tenant_condition (resource : SCIMResourceType) : string :=
  match resource with
  | SCIMResourceTypeUser => user_tenant_condition
  | SCIMResourceTypeGroup => group_tenant_condition
  end.

Definition list_of (resource : SCIMResourceType) :=
  match resource with
  | SCIMResourceTypeUser => listSCIMUsers sprint_float
  | SCIMResourceTypeGroup => listSCIMGroups sprint_float
  end.

(** The conditions of a list with a filter. *)
Lemma list_conditions_spec resource tenantID filterExpr root :
  TrimSpace filterExpr ≠ "" → ParseSCIMFilter filterExpr = Ok root →
  list_conditions sprint_float (tenant_condition resource) resource tenantID filterExpr =
    if filter_supported sprint_float resource root then
      Ok ([tenant_condition resource; cond_text (cond_shift 1 (filter_cond resource root 0))],
          tenantID :: filter_args resource root)
    else Err ErrInvalidSCIMFilter.
Proof.
  intros Hb Hp. unfold list_conditions. rewrite (proj2 (String.eqb_neq _ _) Hb), Hp.
  cbn [mbind result_bind]. destruct (ParseSCIMFilter_parsed _ _ Hp) as [Hr Hs].
  assert (Ht : ToSQL sprint_float resource root = toSQL sprint_float resource root [])
    by (by destruct Hr).
  rewrite Ht, toSQL_spec by done. destruct (filter_supported sprint_float resource root); [|done].
  cbn [mbind result_bind length app].
  pose proof (filter_cond_clean resource root 0) as Hc. cbn [Nat.add] in Hc.
  pose proof (filter_args_length resource root).
  destruct (cond_text_parens _ _ Hc) as (s & E & _).
  destruct (String.eqb_spec (TrimSpace (cond_text (filter_cond resource root 0))) "") as [Eb|_].
  { exfalso. revert Eb. rewrite E.
    destruct (filter_cond resource root 0); by apply TrimSpace_head. }
  cbn [length]. rewrite (shiftPlaceholders_text 1 (length (filter_args resource root)));
    [done| |done..]. unfold int64_max. lia.
Qed.

Lemma list_of_unfold resource tenantID filterExpr sortBy sortOrder startIndex count :
  list_of resource tenantID filterExpr sortBy sortOrder startIndex count =
    let '(start, n) := sanitizePagination startIndex count in
    '(where_, args) ← list_conditions sprint_float (tenant_condition resource) resource
                        tenantID filterExpr;
    Ok (list_page where_ args
          (match resource with
           | SCIMResourceTypeUser => userSortClause sortBy sortOrder
           | SCIMResourceTypeGroup => groupSortClause sortBy sortOrder
           end) n (start - 1)).
Proof. by destruct resource. Qed.

Lemma sanitizePagination_bounds startIndex count :
  let p := sanitizePagination startIndex count in 1 ≤ p.1 ∧ 1 ≤ p.2 ≤ 200.
Proof.
  unfold sanitizePagination. cbn.
  destruct (Z.leb_spec startIndex 0), (Z.leb_spec count 0); cbn; try lia;
    destruct (Z.ltb_spec 200 count); lia.
Qed.

Lemma list_page_args where_ args order n offset :
  let st := list_page where_ args order n offset in
  ls_args st !! (ls_limit st - 1)%nat = Some (ArgInt n) ∧
  ls_args st !! (ls_offset st - 1)%nat = Some (ArgInt offset).
Proof.
  cbn. rewrite length_app, length_fmap. cbn [length].
  rewrite !lookup_app_r by (rewrite length_fmap; lia). rewrite length_fmap.
  split; [by replace (_ - _ - _ - _)%nat with 0%nat by lia
         | by replace (_ - _ - _)%nat with 1%nat by lia].
Qed.

Lemma list_words resource N c :
  clean_cond N c = true →
  sql_words (join " AND " [tenant_condition resource; cond_text (cond_shift 1 c)]) =
    [ToUpper (table_alias resource) +:+ "TENANT_ID"; "="; "$1::UUID"; "AND"] ++ top_word (cond_shift 1 c).
Proof.
  intros Hc. cbn [join].
  change (sql_words ?s) with (lx_words (end_word (run (between 0 []) s))).
  rewrite !run_app.
  assert (Et : run (run (between 0 []) (tenant_condition resource)) " AND " =
    between 0 [ToUpper (table_alias resource) +:+ "TENANT_ID"; "="; "$1::UUID"; "AND"])
    by (by destruct resource).
  by rewrite Et, (run_cond (N + 1)) by (by apply cond_shift_clean).
Qed.

(** C21. A list reads the rows of its tenant alone, for every filter that is accepted.  Outside
    parentheses the WHERE clause of a list is the condition on the tenant and, with a filter, AND
    followed by one parenthesised condition, at most a NOT or an EXISTS of one; the first argument
    is the tenant, and the placeholders of the filter are moved behind it.  The last two arguments
    are the page: at most 200 rows, from a row on that exists.  If, moreover, no value the filter
    looks for with co, sw or ew holds a metacharacter of ILIKE (which the code does not escape),
    the parenthesised condition is, under the arguments of the statement, what the filter says of
    a row. *)
Theorem lists_stay_in_their_tenant `{ServerLaws} resource tenantID filterExpr sortBy sortOrder
    startIndex count st :
  list_of resource tenantID filterExpr sortBy sortOrder startIndex count = Ok st →
  let tenant_words := [ToUpper (table_alias resource) +:+ "TENANT_ID"; "="; "$1::UUID"] in
  ∃ n offset, 1 ≤ n ≤ 200 ∧ 0 ≤ offset ∧
    ls_args st !! (ls_limit st - 1)%nat = Some (ArgInt n) ∧
    ls_args st !! (ls_offset st - 1)%nat = Some (ArgInt offset) ∧
    if TrimSpace filterExpr =?s "" then
      sql_words (ls_where st) = tenant_words ∧
      ls_args st = [ArgText tenantID; ArgInt n; ArgInt offset]
    else
      ∃ root c args,
        ParseSCIMFilter filterExpr = Ok root ∧
        ls_where st = tenant_condition resource +:+ " AND " +:+ cond_text c ∧
        sql_words (ls_where st) = tenant_words ++ ["AND"] ++ top_word c ∧
        ls_args st = (ArgText <$> tenantID :: args) ++ [ArgInt n; ArgInt offset] ∧
        ∀ r, row_resource r = resource → literal_values sprint_float root = true →
          cond_value r (tenantID :: args) None c = filter_holds sprint_float r root.
Proof.
  intros E tenant_words. rewrite list_of_unfold in E.
  pose proof (sanitizePagination_bounds startIndex count) as Hb.
  destruct (sanitizePagination startIndex count) as [start n]. cbn in Hb. destruct Hb as [Hs Hn].
  destruct (list_conditions _ _ _ _ _) as [[where_ args]|] eqn:Ec; [|done].
  cbn [mbind result_bind] in E. injection E as <-.
  set (order := match resource with SCIMResourceTypeUser => _ | _ => _ end).
  destruct (list_page_args where_ args order n (start - 1)) as [El Eo].
  exists n, (start - 1). split_and!; [lia..| | |]; [exact El | exact Eo |].
  destruct (String.eqb_spec (TrimSpace filterExpr) "") as [Eb|Eb].
  { unfold list_conditions in Ec. rewrite Eb in Ec. cbn [String.eqb] in Ec.
    injection Ec as <- <-. split; [by destruct resource | done]. }
  destruct (ParseSCIMFilter filterExpr) as [root|e] eqn:Ep.
  2: { unfold list_conditions in Ec. rewrite (proj2 (String.eqb_neq _ _) Eb), Ep in Ec. done. }
  rewrite (list_conditions_spec _ _ _ root) in Ec by done.
  destruct (filter_supported sprint_float resource root) eqn:Esup; [|done].
  injection Ec as <- <-.
  pose proof (filter_cond_clean resource root 0) as Hc. cbn [Nat.add] in Hc.
  exists root, (cond_shift 1 (filter_cond resource root 0)), (filter_args resource root).
  split_and!; [done | done | | done |].
  - exact (list_words resource _ _ Hc).
  - intros r Hr Hl. subst resource. destruct (ParseSCIMFilter_parsed _ _ Ep) as [Hp _].
    etrans; [exact (cond_value_shift r [tenantID] (filter_args (row_resource r) root) _ _ Hc None)|].
    pose proof (filter_value sprint_float r root Hp Esup Hl [] []) as Hv.
    cbn [app length] in Hv. by rewrite app_nil_r in Hv.
Qed.
End Statement.

(** ** Witness *)

Lemma lists_stay_in_their_tenant_witness :
  ∃ st n offset,
    listSCIMGroups float_text "t1" "members.value eq u2 or not displayName co loan" "" "" 0 1000
      = Ok st ∧
    sql_words (ls_where st) = ["G.TENANT_ID"; "="; "$1::UUID"; "AND"] ∧
    ls_args st = [ArgText "t1"; ArgText "u2"; ArgText "%loan%"; ArgInt 200; ArgInt 0] ∧
    1 ≤ n ≤ 200 ∧ 0 ≤ offset ∧ ls_args st !! (ls_limit st - 1)%nat = Some (ArgInt n).
Proof.
  destruct (listSCIMGroups float_text "t1" "members.value eq u2 or not displayName co loan"
              "" "" 0 1000) as [st|e] eqn:E; [|by vm_compute in E].
  destruct (lists_stay_in_their_tenant float_text SCIMResourceTypeGroup "t1"
              "members.value eq u2 or not displayName co loan" "" "" 0 1000 st E)
    as (n & offset & Hn & Ho & El & _).
  exists st, n, offset. vm_compute in E. injection E as <-.
  refine (conj eq_refl (conj _ (conj _ (conj Hn (conj Ho El))))); vm_compute; reflexivity.
Defined.
