(* ===== verification/Tenants.v ===== *)
(** * The tenant registry (internal/multitenancy/service.go, types.go, job.go)

    Onboarding, configuration and offboarding of tenants, the admission of cases and tasks
    within their limits, the minute counters and their clean-up, and the cache of
    configurations behind the feature flags.  The limits and the cache over time are in
    TenantLimits. *)

From Stdlib Require Import Ascii String ZArith Lia SpecFloat.
From stdpp Require Import base list strings.
From S2P Require Import Prelude Float64 ApprovalExpr SqlTx CaseConfig VersionDiff Schema Operations Outbox.

Open Scope Z_scope.
Open Scope go_scope.

(** ** Configurations and tiers *)

Definition no_flags : TenantFeatureFlags :=
  {| CompensationEnabled := false; DLQRequeueEnabled := false; NotificationEnabled := false;
     SubCaseEnabled := false; SLAEnforcement := false |}.

(** A [TenantConfig] with the limits given and nothing else. *)
Definition limits_only (cases tasks per_minute : Z) : TenantConfig :=
  {| MaxActiveCases := cases; MaxConcurrentTasks := tasks; MaxCasesPerMinute := per_minute;
     AllowedCaseTypeCodes := []; FeatureFlags := no_flags; SLAMultiplier := S754_zero false |}.

Definition tierMaxConfig (tier : string) : TenantConfig :=
  if tier =?s "PREMIUM" then limits_only 250000 75000 15000
  else if tier =?s "ENTERPRISE" then limits_only 1000000 250000 50000
  else limits_only 100000 25000 5000.

Definition validateTenantConfigForTier (tier : string) (cfg : TenantConfig) : list string :=
  let max := tierMaxConfig tier in
  let violation (limit : TenantConfig → Z) (name : string) : list string :=
    if (0 <? limit cfg) && (0 <? limit max) && (limit max <? limit cfg)
    then [name +:+ " exceeds tier limit " +:+ Itoa (limit max)] else [] in
  violation MaxActiveCases "max_active_cases" ++
  violation MaxConcurrentTasks "max_concurrent_tasks" ++
  violation MaxCasesPerMinute "max_cases_per_minute".

Definition normalizeTenantConfig (tier : string) (cfg : TenantConfig) : TenantConfig :=
  let defaults := tierMaxConfig tier in
  cfg <| MaxActiveCases ::= λ n, if n <=? 0 then MaxActiveCases defaults else n |>
      <| MaxConcurrentTasks ::= λ n, if n <=? 0 then MaxConcurrentTasks defaults else n |>
      <| MaxCasesPerMinute ::= λ n, if n <=? 0 then MaxCasesPerMinute defaults else n |>
      <| SLAMultiplier ::= λ m, if fleb m (S754_zero false) then of_int 1 else m |>.

Inductive TenantFeatureFlag :=
  | TenantFeatureCompensationEnabled
  | TenantFeatureDLQRequeueEnabled
  | TenantFeatureNotificationEnabled
  | TenantFeatureSubCaseEnabled
  | TenantFeatureSLAEnforcement
  | OtherFeature (key : string).

Definition resolveFeatureFlag (flags : TenantFeatureFlags) (f : TenantFeatureFlag) : bool :=
  match f with
  | TenantFeatureCompensationEnabled => CompensationEnabled flags
  | TenantFeatureDLQRequeueEnabled => DLQRequeueEnabled flags
  | TenantFeatureNotificationEnabled => NotificationEnabled flags
  | TenantFeatureSubCaseEnabled => SubCaseEnabled flags
  | TenantFeatureSLAEnforcement => SLAEnforcement flags
  | OtherFeature _ => false
  end.

(** [tenantCodePattern]: [^[A-Z0-9_]{2,20}$] *)
Definition tenantCodePattern (s : string) : bool :=
  (2 <=? String.length s)%nat && (String.length s <=? 20)%nat &&
  forallb (λ c, is_upper c || is_digit c || Ascii.eqb c "_") (string_chars s).

(** ** Rows *)

Definition tenant_check (t : tenant_row) : bool :=
  (String.length (tn_code t) <=? 20)%nat && (String.length (tn_name t) <=? 255)%nat &&
  str_mem (tn_status t) ["ACTIVE"; "SUSPENDED"; "OFFBOARDED"] &&
  str_mem (tn_tier t) ["STANDARD"; "PREMIUM"; "ENTERPRISE"].
Definition tenant_conflict (t t' : tenant_row) : bool :=
  (tn_id t =?s tn_id t') || (tn_code t =?s tn_code t').

Definition active_case (tenantID : string) (c : case_row) : bool :=
  (c_tenant_id c =?s tenantID) &&
  negb (str_mem (c_status c) ["COMPLETED"; "CANCELLED"; "REJECTED"; "CLONED"]).
Definition running_task (tenantID : string) (t : task_row) : bool :=
  (t_tenant_id t =?s tenantID) &&
  str_mem (t_status t) ["ASSIGNED"; "IN_PROGRESS"; "AWAITING_EXTERNAL"].

Section Service.
Context `{env : Env}.

(** ** Looking a tenant up *)

(** The tenant given, or that of the context. *)
Definition tenant_or_context (tenantID : string) : string :=
  let tenantID := TrimSpace tenantID in
  if tenantID =?s "" then default "" (TenantFromContext env_ctx) else tenantID.

Definition assertTenantStatus (status : string) : result unit :=
  if status =?s "ACTIVE" then Ok tt
  else if status =?s "SUSPENDED" then Err ErrTenantSuspended
  else if status =?s "OFFBOARDED" then Err ErrTenantOffboarded
  else Err (ErrMsg ("unknown tenant status " +:+ status)).

Definition AssertTenantOperational (tenantID : string) : Tx database unit :=
  let tenantID := tenant_or_context tenantID in
  if tenantID =?s "" then throw ErrTenantNotFound
  else
    tenant ← get_or ErrTenantNotFound tenants (by_id tn_id tenantID);
    tx_of (assertTenantStatus (ToUpper (TrimSpace (tn_status tenant)))).

Definition IsCaseTypeVisibleToTenant (caseTypeCode tenantID : string) : Tx database bool :=
  let caseTypeCode := ToUpper (TrimSpace caseTypeCode) in
  if caseTypeCode =?s "" then throw (ErrMsg "caseTypeCode is required")
  else
    let tenantID := tenant_or_context tenantID in
    if tenantID =?s "" then throw ErrTenantNotFound
    else exists_in case_types (λ ct,
      (ct_code ct =?s caseTypeCode) && (ct_status ct =?s "ACTIVE") &&
      match ct_tenant_id ct with None => true | Some t => t =?s tenantID end).

(** [None] is a text that is no configuration; the column is not null. *)
Definition parseTenantConfig (raw : option TenantConfig) : result TenantConfig :=
  match raw with Some cfg => Ok cfg | None => Err (ErrMsg "parseTenantConfig") end.

Definition loadTenantAndConfig (tenantID : string) : Tx database (tenant_row * TenantConfig) :=
  let tenantID := tenant_or_context tenantID in
  if tenantID =?s "" then throw ErrTenantNotFound
  else
    tenant ← get_or ErrTenantNotFound tenants (by_id tn_id tenantID);
    cfg ← tx_of (parseTenantConfig (tn_config tenant));
    mret (tenant, normalizeTenantConfig (tn_tier tenant) cfg).

(** ** Admission *)

(** The lookups of [EnforceTenantCaseLimits]: tenant, status and active cases. *)
Definition active_case_limit (tenantID : string) : Tx database (tenant_row * TenantConfig) :=
  '(tenant, cfg) ← loadTenantAndConfig tenantID;
  _ ← tx_of (assertTenantStatus (tn_status tenant));
  if 0 <? MaxActiveCases cfg then
    activeCount ← query (λ db, Ok (sql_count (active_case (tn_id tenant)) (cases db)));
    if MaxActiveCases cfg <=? activeCount then throw ErrTenantCapacityExceeded
    else mret (tenant, cfg)
  else mret (tenant, cfg).

Definition window_start : Z := env_clock - env_clock mod Minute.
Definition in_window (tenantID : string) (w : Z) (c : counter_row) : bool :=
  (rl_tenant_id c =?s tenantID) && (rl_window_start c =? w).

(** [INSERT .. ON CONFLICT DO UPDATE SET case_count = case_count + 1 RETURNING case_count] *)
Definition increment_counter (tenantID : string) (w : Z) : Tx database Z :=
  stmt (λ db,
    match sql_get (in_window tenantID w) (rate_counters db) with
    | Ok c =>
        if int4 (rl_case_count c + 1)
        then Ok (rl_case_count c + 1,
                 db <| rate_counters ::=
                   sql_update (in_window tenantID w) (λ c, c <| rl_case_count ::= Z.succ |>) |>)
        else Err ErrSQL
    | Err _ =>
        if existsb (by_id tn_id tenantID) (tenants db)
        then Ok (1, db <| rate_counters ::= λ l, l ++
               [ {| rl_tenant_id := tenantID; rl_window_start := w; rl_case_count := 1 |} ] |>)
        else Err ErrSQL
    end).

Definition count_case (tenant : tenant_row) (cfg : TenantConfig) : Tx database unit :=
  caseCount ← increment_counter (tn_id tenant) window_start;
  if MaxCasesPerMinute cfg <? caseCount then throw ErrTenantCapacityExceeded else mret tt.

Definition EnforceTenantCaseLimits (pool drv : driver) (tenantID : string) (db : database)
    : result unit * database :=
  match on_pool pool (active_case_limit tenantID) db with
  | (Err e, db) => (Err e, db)
  | (Ok (tenant, cfg), db) =>
      if 0 <? MaxCasesPerMinute cfg then within_tx drv (count_case tenant cfg) db
      else (Ok tt, db)
  end.

Definition EnforceTenantTaskLimits (tenantID : string) : Tx database unit :=
  '(tenant, cfg) ← loadTenantAndConfig tenantID;
  _ ← tx_of (assertTenantStatus (tn_status tenant));
  if MaxConcurrentTasks cfg <=? 0 then mret tt
  else
    inProgress ← query (λ db, Ok (sql_count (running_task (tn_id tenant)) (tasks db)));
    if MaxConcurrentTasks cfg <=? inProgress then throw ErrTenantCapacityExceeded else mret tt.

(** [TenantRateLimitCleanupJob.Run]: one statement, at most [batchSize] of the oldest windows. *)
Definition cleanup_batch (batchSize : Z) : nat :=
  Z.to_nat (if batchSize <=? 0 then 5000 else batchSize).
Definition cleanup_cutoff : Z :=
  let t := env_clock - 5 * Minute in t - t mod Minute.
Definition doomed_windows (batchSize : Z) (db : database) : list counter_row :=
  take (cleanup_batch batchSize)
    (order_by rl_window_start
       (sql_select (λ c, rl_window_start c <? cleanup_cutoff) (rate_counters db))).
Definition TenantRateLimitCleanupJob_Run (batchSize : Z) : Tx database unit :=
  stmt (λ db,
    Ok (tt, db <| rate_counters ::= List.filter (λ c,
      negb (existsb (λ d, in_window (rl_tenant_id d) (rl_window_start d) c)
              (doomed_windows batchSize db))) |>)).

(** ** The life of a tenant *)

(** [identity.SeedSystemRoles] (internal/identity/permissions.go) *)
Definition system_roles : list (string * list string) :=
  [ ("LOAN_OFFICER", ["CASE_CREATE"; "CASE_VIEW_OWN"; "TASK_CLAIM"; "TASK_COMPLETE";
                      "TASK_VIEW_OWN"]);
    ("UNDERWRITER", ["CASE_VIEW_ALL"; "TASK_CLAIM"; "TASK_COMPLETE"; "TASK_REJECT";
                     "TASK_VIEW_ALL"]);
    ("SENIOR_APPROVER", ["CASE_VIEW_ALL"; "TASK_CLAIM"; "TASK_COMPLETE"; "TASK_REJECT";
                         "TASK_VIEW_ALL"; "APPROVAL_APPROVE"; "APPROVAL_REJECT";
                         "APPROVAL_ESCALATE"]);
    ("SUPERVISOR", ["CASE_VIEW_ALL"; "CASE_REASSIGN"; "TASK_CLAIM"; "TASK_COMPLETE";
                    "TASK_REJECT"; "TASK_VIEW_ALL"; "TASK_REASSIGN"; "APPROVAL_APPROVE";
                    "APPROVAL_REJECT"; "APPROVAL_ESCALATE"; "APPROVAL_VIEW_ALL"; "REPORT_VIEW";
                    "REPORT_OPERATIONAL"]);
    ("ADMIN", ["CASE_VIEW_ALL"; "CASE_REASSIGN"; "CASE_CANCEL"; "TASK_CLAIM"; "TASK_COMPLETE";
               "TASK_REJECT"; "TASK_VIEW_ALL"; "TASK_REASSIGN"; "APPROVAL_APPROVE";
               "APPROVAL_REJECT"; "APPROVAL_ESCALATE"; "APPROVAL_VIEW_ALL"; "REPORT_VIEW";
               "REPORT_EXPORT"; "REPORT_OPERATIONAL"; "USER_CREATE"; "USER_SUSPEND";
               "USER_DEACTIVATE"; "USER_VIEW"; "ROLE_MANAGE"; "TEAM_MANAGE"; "CASETYPE_MANAGE";
               "TENANT_CONFIG_MANAGE"]) ]%string.

(** [INSERT INTO roles .. ON CONFLICT DO NOTHING] *)
Definition insert_role (tenantID code : string) (permissions : list string) : Tx database unit :=
  stmt (λ db,
    let id := env_uuid (uuid_pos db) in
    if existsb (λ r, (ro_id r =?s id) || (ro_tenant_id r =?s tenantID) && (ro_code r =?s code))
         (roles db)
    then Ok (tt, db <| uuid_pos ::= S |>)
    else Ok (tt, db <| roles ::= λ l, l ++
           [ {| ro_id := id; ro_tenant_id := tenantID; ro_code := code; ro_is_system := true;
                ro_permissions := permissions |} ] |> <| uuid_pos ::= S |>)).
Definition identity_SeedSystemRoles (tenantID : string) : Tx database unit :=
  tx_each (λ r, insert_role tenantID r.1 r.2) system_roles.

Definition publishTenantLifecycleEventTx (tenantID event_type : string)
    (payload : list (string * value)) : Tx database unit :=
  multitenancy_PublishEvent
    (new_event event_type None None (set_key payload "tenant_id" (VString tenantID))
       <| ev_tenant_id := tenantID |> <| ev_target_service := "case-orchestrator" |>
       <| ev_max_attempts := 5 |> <| ev_partition_key := Some tenantID |>).

Record OnboardTenantInput := {
  oi_TenantCode : string; oi_Name : string; oi_Tier : string; oi_Config : TenantConfig;
  oi_CreatedBy : string;
}.
#[export] Instance OnboardTenantInput_eta : Eta OnboardTenantInput := λ x,
  {| oi_TenantCode := oi_TenantCode x; oi_Name := oi_Name x; oi_Tier := oi_Tier x;
     oi_Config := oi_Config x; oi_CreatedBy := oi_CreatedBy x |}.

(** [TenantConfigValidationError.Error] *)
Definition violations_text (violations : list string) : string :=
  fold_left (λ msg v, msg +:+ "; " +:+ v) violations "tenant config validation failed".
Definition within_tier (tier : string) (cfg : TenantConfig) : result unit :=
  match validateTenantConfigForTier tier cfg with
  | [] => Ok tt
  | vs => Err (ErrMsg (violations_text (sorted_by (λ v, (v, "")) vs)))
  end.

Definition onboard_arguments (input : OnboardTenantInput) : result OnboardTenantInput :=
  let input := input <| oi_TenantCode ::= λ s, ToUpper (TrimSpace s) |>
                     <| oi_Name ::= TrimSpace |>
                     <| oi_CreatedBy ::= λ s, orElse (TrimSpace s) "system" |> in
  if negb (tenantCodePattern (oi_TenantCode input))
  then Err (ErrMsg "tenant_code must match [A-Z0-9_]{2,20}")
  else if oi_Name input =?s "" then Err (ErrMsg "name is required")
  else
    let input := input <| oi_Tier ::= λ s, orElse s "STANDARD" |> in
    _ ← within_tier (oi_Tier input) (oi_Config input);
    Ok (input <| oi_Config ::= normalizeTenantConfig (oi_Tier input) |>).

Definition OnboardTenant_tx (input : OnboardTenantInput) : Tx database tenant_row :=
  existing ← query (λ db, Ok (sql_count (by_id tn_code (oi_TenantCode input)) (tenants db)));
  if 0 <? existing then throw (ErrMsg "tenant_code already exists")
  else
    let row id :=
      {| tn_id := id; tn_code := oi_TenantCode input; tn_name := oi_Name input;
         tn_status := "ACTIVE"; tn_tier := oi_Tier input; tn_config := Some (oi_Config input) |} in
    id ← insert_with_id tenants tenant_check tenant_conflict row;
    _ ← identity_SeedSystemRoles id;
    _ ← publishTenantLifecycleEventTx id "TENANT_ONBOARDED"
          [("tenant_id", VString id); ("tenant_code", VString (oi_TenantCode input));
           ("tier", VString (oi_Tier input)); ("created_by", VString (oi_CreatedBy input));
           ("occurred_at", VOther env_clock)];
    mret (row id).

Definition OffboardTenant_tx (tenantID offboardedBy : string) : Tx database unit :=
  tenant ← get_or ErrTenantNotFound tenants (by_id tn_id tenantID);
  activeCaseCount ← query (λ db, Ok (sql_count (active_case tenantID) (cases db)));
  if 0 <? activeCaseCount then throw (ErrMsg "active cases remain")
  else
    cfg ← tx_of (parseTenantConfig (tn_config tenant));
    _ ← update_in tenants tenant_check (by_id tn_id tenantID)
          (λ t, t <| tn_status := "OFFBOARDED" |>
                  <| tn_config := Some (cfg <| FeatureFlags := no_flags |>) |>);
    publishTenantLifecycleEventTx tenantID "TENANT_OFFBOARDED"
      [("tenant_id", VString tenantID); ("tenant_code", VString (tn_code tenant));
       ("offboarded_by", VString offboardedBy); ("occurred_at", VOther env_clock)].

Definition UpdateTenantConfig_tx (tenantID updatedBy : string) (config : TenantConfig)
    : Tx database unit :=
  tenant ← get_or ErrTenantNotFound tenants (by_id tn_id tenantID);
  _ ← tx_of (within_tier (tn_tier tenant) config);
  _ ← update_in tenants tenant_check (by_id tn_id tenantID)
        (λ t, t <| tn_config := Some (normalizeTenantConfig (tn_tier tenant) config) |>);
  publishTenantLifecycleEventTx tenantID "TENANT_CONFIG_UPDATED"
    [("tenant_id", VString tenantID); ("updated_by", VString updatedBy);
     ("occurred_at", VOther env_clock)].

End Service.

(** ** A process: the database, and the cache of configurations *)

Record tenantCacheEntry := {
  ce_status : string; ce_config : TenantConfig; ce_expires_at : Z;
}.
Record process := {
  p_db : database; p_cache : list (string * tenantCacheEntry); p_ttl : Z;
}.
#[export] Instance process_eta : Eta process := λ x,
  {| p_db := p_db x; p_cache := p_cache x; p_ttl := p_ttl x |}.

Definition default_ttl : Z := 60 * Second.
Definition featureCacheTTL (p : process) : Z := if p_ttl p <=? 0 then default_ttl else p_ttl p.
Definition SetTenantFeatureCacheTTL (ttl : Z) (p : process) : process :=
  p <| p_ttl := if ttl <=? 0 then default_ttl else ttl |>.

(** [featureConfigCache.Delete] and [Store] *)
Definition cache_delete (k : string) (c : list (string * tenantCacheEntry))
    : list (string * tenantCacheEntry) := List.filter (λ e, negb (e.1 =?s k)) c.
Definition cache_store (k : string) (e : tenantCacheEntry) (c : list (string * tenantCacheEntry))
    : list (string * tenantCacheEntry) := (k, e) :: cache_delete k c.

Definition InvalidateTenantFeatureCache (tenantID : string) (p : process) : process :=
  let tenantID := TrimSpace tenantID in
  if tenantID =?s "" then p else p <| p_cache ::= cache_delete tenantID |>.
Definition InvalidateAllTenantFeatureCache (p : process) : process := p <| p_cache := [] |>.

Section Process.
Context `{env : Env}.

Definition TenantFeatureEnabled (pool : driver) (tenantID : string) (f : TenantFeatureFlag)
    (p : process) : result bool * process :=
  let tenantID := tenant_or_context tenantID in
  if tenantID =?s "" then (Err ErrTenantNotFound, p)
  else
    let now := env_clock in
    let miss p :=
      match on_pool pool (loadTenantAndConfig tenantID) (p_db p) with
      | (Err e, db) => (Err e, p <| p_db := db |>)
      | (Ok (tenant, cfg), db) =>
          (Ok (resolveFeatureFlag (FeatureFlags cfg) f),
           p <| p_db := db |>
             <| p_cache ::= cache_store tenantID
                  {| ce_status := tn_status tenant; ce_config := cfg;
                     ce_expires_at := now + featureCacheTTL p |} |>)
      end in
    match str_assoc (p_cache p) tenantID with
    | Some e =>
        if now <? ce_expires_at e then (Ok (resolveFeatureFlag (FeatureFlags (ce_config e)) f), p)
        else miss (p <| p_cache ::= cache_delete tenantID |>)
    | None => miss p
    end.

(** The transaction of an operation, and the invalidation that follows its commit. *)
Definition and_invalidate {A} (key : A → string) (r : result A * database) (p : process)
    : result A * process :=
  let '(r, db) := r in
  (r, match r with
      | Ok a => InvalidateTenantFeatureCache (key a) (p <| p_db := db |>)
      | Err _ => p <| p_db := db |>
      end).

Definition OnboardTenant (drv : driver) (input : OnboardTenantInput) (p : process)
    : result tenant_row * process :=
  and_invalidate tn_id (then_tx (onboard_arguments input, p_db p) drv OnboardTenant_tx) p.

Definition OffboardTenant (drv : driver) (tenantID offboardedBy : string) (p : process)
    : result unit * process :=
  let tenantID := TrimSpace tenantID in
  let offboardedBy := orElse (TrimSpace offboardedBy) "system" in
  and_invalidate (λ _, tenantID)
    (then_tx (required tenantID "tenantID is required", p_db p) drv
       (λ _, OffboardTenant_tx tenantID offboardedBy)) p.

Definition UpdateTenantConfig (drv : driver) (tenantID updatedBy : string)
    (config : TenantConfig) (p : process) : result unit * process :=
  let tenantID := TrimSpace tenantID in
  let updatedBy := orElse (TrimSpace updatedBy) "system" in
  and_invalidate (λ _, tenantID)
    (then_tx (required tenantID "tenantID is required", p_db p) drv
       (λ _, UpdateTenantConfig_tx tenantID updatedBy config)) p.

Definition HandleTenantConfigUpdatedEvent (payload : list (string * value)) (p : process)
    : result unit * process :=
  let tenantID := TenantFromPayload payload in
  if tenantID =?s "" then (Err (ErrMsg "tenant_id missing in payload"), p)
  else (Ok tt, InvalidateTenantFeatureCache tenantID p).

End Process.

(** ** Limits and tiers *)

Record within_limits (tier : string) (cfg : TenantConfig) : Prop := {
  wl_cases : 1 ≤ MaxActiveCases cfg ≤ MaxActiveCases (tierMaxConfig tier);
  wl_tasks : 1 ≤ MaxConcurrentTasks cfg ≤ MaxConcurrentTasks (tierMaxConfig tier);
  wl_rate : 1 ≤ MaxCasesPerMinute cfg ≤ MaxCasesPerMinute (tierMaxConfig tier);
  wl_sla : fleb (SLAMultiplier cfg) (S754_zero false) = false;
}.

Lemma tierMaxConfig_positive tier :
  0 < MaxActiveCases (tierMaxConfig tier) ∧ 0 < MaxConcurrentTasks (tierMaxConfig tier) ∧
  0 < MaxCasesPerMinute (tierMaxConfig tier).
Proof. unfold tierMaxConfig. destruct (tier =?s _); [by vm_compute|]. by destruct (tier =?s _). Qed.

Lemma normalize_flags tier cfg :
  FeatureFlags (normalizeTenantConfig tier cfg) = FeatureFlags cfg.
Proof. by destruct cfg. Qed.

Lemma no_violation n max (v : string) :
  0 < max → (if (0 <? n) && (0 <? max) && (max <? n) then [v] else []) = [] → n ≤ max.
Proof.
  intros Hm. rewrite (proj2 (Z.ltb_lt 0 max)) by done.
  destruct (Z.ltb_spec 0 n), (Z.ltb_spec max n); cbn; (done || lia).
Qed.

(** A configuration without violations is within the limits once normalized. *)
Lemma validated_within_limits tier cfg :
  within_tier tier cfg = Ok tt → within_limits tier (normalizeTenantConfig tier cfg).
Proof.
  destruct (tierMaxConfig_positive tier) as (Ha & Ht & Hr). unfold within_tier.
  destruct (validateTenantConfigForTier tier cfg) eqn:E; [intros _|done].
  unfold validateTenantConfigForTier in E. cbv zeta in E.
  apply app_eq_nil in E as [Ea E]. apply app_eq_nil in E as [Et Er].
  apply no_violation in Ea, Et, Er; [|done..].
  destruct cfg as [a t r codes flags m]. unfold normalizeTenantConfig, upd.
  split; cbn [MaxActiveCases MaxConcurrentTasks MaxCasesPerMinute SLAMultiplier] in *.
  - destruct (Z.leb_spec a 0); lia.
  - destruct (Z.leb_spec t 0); lia.
  - destruct (Z.leb_spec r 0); lia.
  - by destruct (fleb m (S754_zero false)) eqn:E.
Qed.

(** ** What the operations do to the registry *)

(** The registry and the counters are left alone. *)
Definition same_registry (db db' : database) : Prop :=
  tenants db' = tenants db ∧ rate_counters db' = rate_counters db.
#[export] Instance same_registry_preorder : PreOrder same_registry.
Proof.
  split; [done|]. intros a b c [Ht Hc] [Ht' Hc']. split; [by rewrite Ht'|by rewrite Hc'].
Qed.

(** One tenant later on. *)
Definition becomes (t t' : tenant_row) : Prop :=
  tn_id t' = tn_id t ∧ tn_code t' = tn_code t ∧ tn_name t' = tn_name t ∧ tn_tier t' = tn_tier t ∧
  (tn_status t' = tn_status t ∨ tn_status t' = "OFFBOARDED").
#[export] Instance becomes_preorder : PreOrder becomes.
Proof.
  split; [intros t; unfold becomes; tauto|].
  intros a b c (E1 & E2 & E3 & E4 & Hs) (F1 & F2 & F3 & F4 & Ht). unfold becomes.
  rewrite F1, F2, F3, F4, E1, E2, E3, E4. split_and!; try done.
  destruct Ht as [->|]; [done|by right].
Qed.
Definition evolves (db db' : database) : Prop :=
  ∀ t, t ∈ tenants db → ∃ t', t' ∈ tenants db' ∧ becomes t t'.
#[export] Instance evolves_preorder : PreOrder evolves.
Proof.
  split; [intros db t Ht; by exists t|]. intros a b c Hab Hbc t Ht.
  destruct (Hab t Ht) as (u & Hu & Htu). destruct (Hbc u Hu) as (v & Hv & Huv).
  exists v. split; [done|]. by transitivity u.
Qed.

(** A tenant as the service keeps it; the configuration of the default tenant is that of
    its migration until it is updated. *)
Record governed (t : tenant_row) : Prop := {
  gv_code : tenantCodePattern (tn_code t) = true;
  gv_status : tn_status t = "ACTIVE" ∨ tn_status t = "OFFBOARDED";
  gv_tier : tn_tier t ∈ ["STANDARD"; "PREMIUM"; "ENTERPRISE"]%string;
  gv_limits : tn_id t = DefaultTenantID ∨
    ∃ cfg, tn_config t = Some cfg ∧ within_limits (tn_tier t) cfg;
}.
Record registry_ok (db : database) : Prop := {
  rg_ids : NoDup (map tn_id (tenants db));
  rg_codes : NoDup (map tn_code (tenants db));
  rg_rows t : t ∈ tenants db → governed t;
}.

Lemma registry_same db db' : same_registry db db' → registry_ok db → registry_ok db'.
Proof. intros [E _] [H1 H2 H3]. split; rewrite E; done. Qed.
Lemma evolves_same db db' : same_registry db db' → evolves db db'.
Proof. intros [E _] t Ht. exists t. by rewrite E. Qed.

Lemma registry_update p f db db' :
  registry_ok db → (∀ t, becomes t (f t)) →
  (∀ t, t ∈ tenants db → p t = true → governed (f t)) →
  tenants db' = sql_update p f (tenants db) → registry_ok db' ∧ evolves db db'.
Proof.
  intros Hok Hb Hg E. unfold evolves. rewrite E. split.
  - split; rewrite E.
    + rewrite sql_update_map; [apply Hok|]. intros t. apply Hb.
    + rewrite sql_update_map; [apply Hok|]. intros t. apply Hb.
    + intros t Ht. apply sql_update_elem in Ht as (t0 & Ht & ->). destruct (p t0) eqn:Ep; auto.
      by apply (rg_rows db).
  - intros t Ht. exists (if p t then f t else t). split.
    + apply list_elem_of_In. unfold sql_update. apply in_map_iff. exists t. split; [done|].
      by apply list_elem_of_In.
    + destruct (p t); [apply Hb|done].
Qed.

Lemma registry_insert t db db' :
  registry_ok db → governed t → existsb (tenant_conflict t) (tenants db) = false →
  tenants db' = tenants db ++ [t] → registry_ok db' ∧ evolves db db'.
Proof.
  intros Hok Hg Hc E. rewrite existsb_none in Hc. split.
  - assert (Hnew : ∀ r, r ∈ tenants db → tn_id r ≠ tn_id t ∧ tn_code r ≠ tn_code t).
    { intros r Hr. specialize (Hc r Hr). unfold tenant_conflict in Hc.
      apply orb_false_iff in Hc as [Hi Hco]. apply String.eqb_neq in Hi, Hco. done. }
    assert (Hnd : ∀ key : tenant_row → string, NoDup (map key (tenants db)) →
              (∀ r, r ∈ tenants db → key r ≠ key t) → NoDup (map key (tenants db'))).
    { intros key Hn Hk. rewrite E, map_app. apply NoDup_app.
      split_and!; [done| |apply NoDup_singleton]. intros k Hin Hu.
      apply list_elem_of_singleton in Hu as ->.
      apply list_elem_of_In, in_map_iff in Hin as (r & Er & Hr); rewrite <- list_elem_of_In in Hr.
      by apply (Hk r). }
    split.
    + apply Hnd; [apply Hok|]. intros r Hr. by apply Hnew.
    + apply Hnd; [apply Hok|]. intros r Hr. by apply Hnew.
    + intros r. rewrite E, elem_of_app, list_elem_of_singleton. intros [Hr| ->]; [|done].
      by apply (rg_rows db).
  - intros r Hr. exists r. split; [|done]. rewrite E. apply elem_of_app. by left.
Qed.

Section Operations.
Context `{env : Env}.
Implicit Types (db : database).

Lemma publish_same_registry tenantID event_type payload :
  tx_all same_registry (publishTenantLifecycleEventTx tenantID event_type payload).
Proof. unfold publishTenantLifecycleEventTx. kept_steps; done. Qed.
Lemma seed_same_registry tenantID : tx_all same_registry (identity_SeedSystemRoles tenantID).
Proof.
  unfold identity_SeedSystemRoles. kept_steps. cbv zeta in *.
  by destruct (existsb _ _); simplify_eq.
Qed.

Lemma commits_seed busy tenantID db u db' :
  commits busy (identity_SeedSystemRoles tenantID) db = Some (u, db') → same_registry db db'.
Proof. apply commits_all; [exact _|apply seed_same_registry]. Qed.
Lemma commits_lifecycle busy tenantID event_type payload db u db' :
  commits busy (publishTenantLifecycleEventTx tenantID event_type payload) db = Some (u, db') →
  same_registry db db'.
Proof. apply commits_all; [exact _|apply publish_same_registry]. Qed.

Lemma balanced_publish_lifecycle tenantID event_type payload :
  Balanced (publishTenantLifecycleEventTx tenantID event_type payload).
Proof.
  unfold publishTenantLifecycleEventTx, multitenancy_PublishEvent, insert_event. cbv zeta. balance.
Qed.
Lemma balanced_identity_seed tenantID : Balanced (identity_SeedSystemRoles tenantID).
Proof. unfold identity_SeedSystemRoles. apply balanced_each. intros r. apply balanced_stmt. Qed.
#[local] Hint Resolve balanced_publish_lifecycle balanced_identity_seed : balance.

Lemma within_tier_unit tier cfg u : within_tier tier cfg = Ok u → within_tier tier cfg = Ok tt.
Proof. by destruct u. Qed.

(** Arguments that pass: a valid code, and limits within the tier. *)
Lemma onboard_arguments_Ok input input' :
  onboard_arguments input = Ok input' →
  tenantCodePattern (oi_TenantCode input') = true ∧
  within_limits (oi_Tier input') (oi_Config input').
Proof.
  unfold onboard_arguments. cbv zeta.
  destruct (tenantCodePattern _) eqn:Ec; cbn [negb]; [|done].
  destruct (_ =?s _); [done|]. unfold mbind, result_bind.
  destruct (within_tier _ _) as [u|] eqn:Ew; [|done]. intros [= <-].
  split; [exact Ec|]. apply within_tier_unit in Ew. by apply validated_within_limits in Ew.
Qed.

Lemma commits_onboard busy input db t db' :
  commits busy (OnboardTenant_tx input) db = Some (t, db') →
  tenants db' = tenants db ++ [t] ∧ rate_counters db' = rate_counters db ∧
  t = {| tn_id := env_uuid (uuid_pos db); tn_code := oi_TenantCode input; tn_name := oi_Name input;
         tn_status := "ACTIVE"; tn_tier := oi_Tier input; tn_config := Some (oi_Config input) |} ∧
  tenant_check t = true ∧ existsb (tenant_conflict t) (tenants db) = false.
Proof.
  unfold OnboardTenant_tx. intros H. tx_bind_inv H n d E. apply commits_query_inv in E as [[= <-] ->].
  destruct (0 <? _); [by rewrite commits_throw in H|]. cbv zeta in H. tx_bind_inv H k d1 E1.
  unfold insert_with_id in E1. rewrite commits_stmt in E1. cbv zeta in E1.
  destruct (insert_row _ _ _ _) as [rows|e] eqn:Ei; [|done]. injection E1 as <- <-.
  apply insert_row_inv in Ei as (-> & Hc & Hn%existsb_none).
  tx_bind_inv H u d2 E2. apply commits_seed in E2 as [Et Ec].
  tx_bind_inv H v d3 E3. apply commits_lifecycle in E3 as [Et' Ec'].
  rewrite commits_mret in H. injection H as <- <-. by rewrite Et', Et, Ec', Ec.
Qed.

Lemma onboard_keeps busy input input' db t db' :
  onboard_arguments input = Ok input' →
  commits busy (OnboardTenant_tx input') db = Some (t, db') → registry_ok db →
  registry_ok db' ∧ evolves db db'.
Proof.
  intros Ha H Hok. apply onboard_arguments_Ok in Ha as [Hcode Hl].
  apply commits_onboard in H as (E & _ & -> & Hck & Hn).
  eapply registry_insert; [exact Hok| |exact Hn|exact E].
  unfold tenant_check in Hck. cbn in Hck. bool_simpl. split; cbn; [done|by left| |].
  - by apply str_mem_elem.
  - right. by eexists.
Qed.

(** The tenant a committed update or offboarding is about. *)
Lemma commits_update_config busy tenantID by_whom cfg db u db' :
  commits busy (UpdateTenantConfig_tx tenantID by_whom cfg) db = Some (u, db') →
  ∃ t, sql_get (by_id tn_id tenantID) (tenants db) = Ok t ∧ within_tier (tn_tier t) cfg = Ok tt ∧
    rate_counters db' = rate_counters db ∧
    tenants db' = sql_update (by_id tn_id tenantID)
      (λ r, r <| tn_config := Some (normalizeTenantConfig (tn_tier t) cfg) |>) (tenants db).
Proof.
  unfold UpdateTenantConfig_tx. intros H. tx_bind_inv H t d E. apply commits_get_or in E as [Hg ->].
  tx_bind_inv H v d E. rewrite commits_of in E.
  destruct (within_tier _ _) as [w|] eqn:Ew; [|done]. injection E as <- <-.
  tx_bind_inv H n d1 E. apply commits_update_inv in E as (_ & -> & _).
  apply commits_lifecycle in H as [Et Ec].
  exists t. split_and!; [done|by destruct w|by rewrite Ec|by rewrite Et].
Qed.

Lemma commits_offboard busy tenantID by_whom db u db' :
  commits busy (OffboardTenant_tx tenantID by_whom) db = Some (u, db') →
  ∃ t cfg, sql_get (by_id tn_id tenantID) (tenants db) = Ok t ∧ tn_config t = Some cfg ∧
    sql_count (active_case tenantID) (cases db) = 0 ∧ rate_counters db' = rate_counters db ∧
    tenants db' = sql_update (by_id tn_id tenantID)
      (λ r, r <| tn_status := "OFFBOARDED" |>
              <| tn_config := Some (cfg <| FeatureFlags := no_flags |>) |>) (tenants db).
Proof.
  unfold OffboardTenant_tx. intros H. tx_bind_inv H t d E. apply commits_get_or in E as [Hg ->].
  tx_bind_inv H n d E. apply commits_query_inv in E as [[= <-] ->].
  pose proof (sql_count_nonneg (active_case tenantID) (cases db)).
  destruct (0 <? _) eqn:En; [by rewrite commits_throw in H|]. Z_tests.
  tx_bind_inv H cfg d E. rewrite commits_of in E. unfold parseTenantConfig in E.
  destruct (tn_config t) as [c|] eqn:Econf; [|done]. injection E as <- <-.
  tx_bind_inv H m d1 E. apply commits_update_inv in E as (_ & -> & _).
  apply commits_lifecycle in H as [Et Ec].
  exists t, c. split_and!; [done|done|lia|by rewrite Ec|by rewrite Et].
Qed.

(** The row with the identifier is the only one the update finds. *)
Lemma by_tenant_row tenantID db t r :
  registry_ok db → sql_get (by_id tn_id tenantID) (tenants db) = Ok t →
  r ∈ tenants db → by_id tn_id tenantID r = true → r = t.
Proof.
  intros Hok Hg Hr Hp. apply sql_get_Ok in Hg as [Ht Hpt]. unfold by_id in *.
  apply String.eqb_eq in Hp, Hpt. apply (key_unique tn_id (tenants db)); [apply Hok|done..|congruence].
Qed.

Lemma update_keeps busy tenantID by_whom cfg db u db' :
  commits busy (UpdateTenantConfig_tx tenantID by_whom cfg) db = Some (u, db') →
  registry_ok db → registry_ok db' ∧ evolves db db'.
Proof.
  intros H Hok. apply commits_update_config in H as (t & Hg & Hw & _ & E).
  apply validated_within_limits in Hw.
  eapply registry_update; [exact Hok| | |exact E].
  - intros r. unfold becomes. cbn. tauto.
  - intros r Hr Hp. assert (r = t) as -> by exact (by_tenant_row _ _ _ _ Hok Hg Hr Hp).
    destruct (rg_rows db Hok t Hr) as [Hc Hs Ht _]. split; [done..|]. right. by eexists.
Qed.

Lemma offboard_keeps busy tenantID by_whom db u db' :
  commits busy (OffboardTenant_tx tenantID by_whom) db = Some (u, db') →
  registry_ok db → registry_ok db' ∧ evolves db db'.
Proof.
  intros H Hok. apply commits_offboard in H as (t & cfg & Hg & Hcfg & _ & _ & E).
  eapply registry_update; [exact Hok| | |exact E].
  - intros r. unfold becomes. cbn. tauto.
  - intros r Hr Hp. assert (r = t) as -> by exact (by_tenant_row _ _ _ _ Hok Hg Hr Hp).
    destruct (rg_rows db Hok t Hr) as [Hc Hs Ht Hl]. split; [done|by right|done|].
    destruct Hl as [|(cfg' & Hcfg' & Hl)]; [by left|right]. rewrite Hcfg in Hcfg'.
    injection Hcfg' as <-. eexists. split; [done|]. by destruct Hl.
Qed.

(** ** Who is admitted *)

(** The tenant in force for an admission, with its normalized configuration. *)
Definition tenant_in_force (tenantID : string) db : option (tenant_row * TenantConfig) :=
  match sql_get (by_id tn_id (tenant_or_context tenantID)) (tenants db) with
  | Ok t => (λ cfg, (t, normalizeTenantConfig (tn_tier t) cfg)) <$> tn_config t
  | Err _ => None
  end.

Lemma pooled_of {A} drv (r : result A) db n : pooled drv (tx_of r) db n = (r, db, n).
Proof. done. Qed.

Lemma pooled_load drv tenantID db n r db' n' :
  pooled drv (loadTenantAndConfig tenantID) db n = (r, db', n') →
  db' = db ∧ ∀ p, r = Ok p → tenant_in_force tenantID db = Some p ∧ tenant_or_context tenantID ≠ "".
Proof.
  unfold loadTenantAndConfig, tenant_in_force. cbv zeta.
  destruct (String.eqb_spec (tenant_or_context tenantID) "") as [|Hne]; [by intros [= <- <- _]|].
  intros H. pool_bind H a d k E. apply pooled_get_or in E as [-> Ha].
  destruct a as [t|e]; [|by destruct H as [-> ->]]. rewrite (Ha t eq_refl).
  pool_bind H b d k' E. rewrite pooled_of in E. injection E as <- <- <-.
  unfold parseTenantConfig in H. destruct (tn_config t) as [cfg|]; [|by destruct H as [-> ->]].
  cbn in H. injection H as <- <- _. split; [done|]. by intros p [= <-].
Qed.

Lemma assertTenantStatus_Ok status u : assertTenantStatus status = Ok u → status = "ACTIVE".
Proof.
  unfold assertTenantStatus. destruct (String.eqb_spec status "ACTIVE"); [done|].
  destruct (_ =?s _); [done|]. by destruct (_ =?s _).
Qed.

(** The lookups of a case admission that go through: an active tenant below its limit. *)
Lemma pooled_active_case_limit drv tenantID db n r db' n' :
  pooled drv (active_case_limit tenantID) db n = (r, db', n') →
  db' = db ∧ ∀ t cfg, r = Ok (t, cfg) →
    tenant_in_force tenantID db = Some (t, cfg) ∧ tn_status t = "ACTIVE" ∧
    (0 < MaxActiveCases cfg → sql_count (active_case (tn_id t)) (cases db) < MaxActiveCases cfg).
Proof.
  unfold active_case_limit. intros H. pool_bind H p d k E. apply pooled_load in E as [-> Hp].
  destruct p as [[t cfg]|e]; [|by destruct H as [-> ->]]. specialize (Hp _ eq_refl) as [Hp _].
  pool_bind H u d k' E. rewrite pooled_of in E. injection E as <- <- <-.
  destruct (assertTenantStatus (tn_status t)) as [u|e] eqn:Es; [|by destruct H as [-> ->]].
  apply assertTenantStatus_Ok in Es.
  destruct (Z.ltb_spec 0 (MaxActiveCases cfg)).
  - pool_bind H c d k2 E. apply pooled_query in E as [-> Hc].
    destruct c as [c|e]; [|by destruct H as [-> ->]]. destruct Hc as [[= ->]|]; [|done].
    destruct (Z.leb_spec (MaxActiveCases cfg) (sql_count (active_case (tn_id t)) (cases db)));
      injection H as <- <- _; split; try done; intros ? ? [= <- <-]; done.
  - injection H as <- <- _. split; [done|]. intros ? ? [= <- <-]. split_and!; [done..|lia].
Qed.

(** ** The minute counters *)

Definition counter_value (tenantID : string) (w : Z) db : Z :=
  match sql_get (in_window tenantID w) (rate_counters db) with
  | Ok c => rl_case_count c
  | Err _ => 0
  end.

Lemma in_window_eq T w c : in_window T w c = true ↔ rl_tenant_id c = T ∧ rl_window_start c = w.
Proof. unfold in_window. by rewrite andb_true_iff, String.eqb_eq, Z.eqb_eq. Qed.

Lemma in_window_other T w T' w' c :
  ¬ (T' = T ∧ w' = w) → in_window T' w' c = true → in_window T w c = false.
Proof.
  intros Hne [<- <-]%in_window_eq. apply not_true_iff_false. rewrite in_window_eq. naive_solver.
Qed.

Lemma counter_update T w T' w' rows :
  match sql_get (in_window T' w')
          (sql_update (in_window T w) (λ c, c <| rl_case_count ::= Z.succ |>) rows) with
  | Ok c => rl_case_count c | Err _ => 0 end =
  match sql_get (in_window T' w') rows with
  | Ok c => rl_case_count c +
      (if bool_decide (T' = T ∧ w' = w) then 1 else 0)
  | Err _ => 0 end.
Proof.
  unfold sql_get. induction rows as [|c rows IH]; cbn; [done|].
  assert (E : in_window T' w' (if in_window T w c then c <| rl_case_count ::= Z.succ |> else c) =
              in_window T' w' c) by by destruct (in_window T w c).
  rewrite E. destruct (in_window T' w' c) eqn:Hc; [|exact IH]. cbn.
  case_bool_decide as Hd.
  - destruct Hd as [-> ->]. rewrite Hc. done.
  - rewrite (in_window_other T w T' w' c) by done. lia.
Qed.

Lemma balanced_increment T w : Balanced (increment_counter T w).
Proof. apply balanced_stmt. Qed.
#[local] Hint Resolve balanced_increment : balance.

Lemma commits_increment busy T w db n db' :
  commits busy (increment_counter T w) db = Some (n, db') →
  n = counter_value T w db + 1 ∧ tenants db' = tenants db ∧
  ∀ T' w', counter_value T' w' db' =
    counter_value T' w' db + (if bool_decide (T' = T ∧ w' = w) then 1 else 0).
Proof.
  unfold increment_counter, counter_value. rewrite commits_stmt.
  destruct (sql_get (in_window T w) (rate_counters db)) as [c|e] eqn:Eg.
  - destruct (int4 _); [|done]. intros [= <- <-]. split_and!; [done..|]. intros T' w'.
    change (rate_counters (db <| rate_counters ::= ?f |>)) with (f (rate_counters db)).
    cbv beta. rewrite counter_update.
    destruct (sql_get (in_window T' w') (rate_counters db)) eqn:E'; [done|].
    case_bool_decide as Hd; [|done]. destruct Hd as [-> ->]. congruence.
  - destruct (existsb _ _); [|done]. intros [= <- <-]. split_and!; [done..|]. intros T' w'.
    change (rate_counters (db <| rate_counters ::= ?f |>)) with (f (rate_counters db)).
    cbv beta. destruct (sql_get (in_window T' w') (rate_counters db)) as [c|e'] eqn:E'.
    + rewrite (sql_get_grow _ _ _ _ E'). case_bool_decide as Hd; [|lia].
      destruct Hd as [-> ->]. congruence.
    + assert (Hn : existsb (in_window T' w') (rate_counters db) = false).
      { rewrite sql_get_existsb, E'. done. }
      rewrite sql_get_later by done. unfold sql_get, in_window. cbn.
      case_bool_decide as Hd.
      * destruct Hd as [-> ->]. by rewrite String.eqb_refl, Z.eqb_refl.
      * destruct (String.eqb_spec T T'), (Z.eqb_spec w w'); cbn; try done. by destruct Hd.
Qed.

Lemma normalized_rate tier cfg : 0 < MaxCasesPerMinute (normalizeTenantConfig tier cfg).
Proof.
  destruct (tierMaxConfig_positive tier) as (_ & _ & Hr). destruct cfg as [a t r codes flags m].
  unfold normalizeTenantConfig, upd. cbn [MaxCasesPerMinute].
  destruct (Z.leb_spec r 0); lia.
Qed.

(** A case is admitted for an active tenant below both limits, and is counted; a case that
    is refused, for whatever reason, leaves no trace. *)
Lemma EnforceTenantCaseLimits_outcome pool drv tenantID db r db' :
  EnforceTenantCaseLimits pool drv tenantID db = (r, db') →
  match r with
  | Err _ => db' = db
  | Ok _ => ∃ t cfg, tenant_in_force tenantID db = Some (t, cfg) ∧ tn_status t = "ACTIVE" ∧
      (0 < MaxActiveCases cfg → sql_count (active_case (tn_id t)) (cases db) < MaxActiveCases cfg) ∧
      counter_value (tn_id t) window_start db + 1 ≤ MaxCasesPerMinute cfg ∧
      tenants db' = tenants db ∧
      ∀ T w, counter_value T w db' = counter_value T w db +
        (if bool_decide (T = tn_id t ∧ w = window_start) then 1 else 0)
  end.
Proof.
  unfold EnforceTenantCaseLimits, on_pool.
  destruct (pooled pool (active_case_limit tenantID) db 0) as [[x d] k] eqn:E.
  apply pooled_active_case_limit in E as [-> Hx]. cbn [fst].
  destruct x as [[t cfg]|e]; [|by intros [= <- <-]].
  specialize (Hx t cfg eq_refl) as (Hf & Hs & Ha).
  assert (Hr : 0 < MaxCasesPerMinute cfg).
  { unfold tenant_in_force in Hf. destruct (sql_get _ _) as [t0|]; [|done].
    destruct (tn_config t0) as [c|]; [|done]. injection Hf as <- <-. apply normalized_rate. }
  rewrite (proj2 (Z.ltb_lt _ _)) by done. intros H. destruct r as [u|e].
  - apply within_tx_commits in H. unfold count_case in H. tx_bind_inv H n d E.
    apply commits_increment in E as (-> & Et & Hv).
    destruct (Z.ltb_spec (MaxCasesPerMinute cfg) (counter_value (tn_id t) window_start db + 1));
      [by rewrite commits_throw in H|].
    rewrite commits_mret in H. injection H as _ <-. exists t, cfg. split_and!; [done..|exact Hv].
  - by apply within_tx_rollback in H.
Qed.

Lemma pooled_task_limits drv tenantID db n r db' n' :
  pooled drv (EnforceTenantTaskLimits tenantID) db n = (r, db', n') →
  db' = db ∧ (r = Ok tt → ∃ t cfg, tenant_in_force tenantID db = Some (t, cfg) ∧
    tn_status t = "ACTIVE" ∧
    (0 < MaxConcurrentTasks cfg →
       sql_count (running_task (tn_id t)) (tasks db) < MaxConcurrentTasks cfg)).
Proof.
  unfold EnforceTenantTaskLimits. intros H. pool_bind H p d k E. apply pooled_load in E as [-> Hp].
  destruct p as [[t cfg]|e]; [|by destruct H as [-> ->]]. specialize (Hp _ eq_refl) as [Hp _].
  pool_bind H u d k' E. rewrite pooled_of in E. injection E as <- <- <-.
  destruct (assertTenantStatus (tn_status t)) as [u|e] eqn:Es; [|by destruct H as [-> ->]].
  apply assertTenantStatus_Ok in Es.
  destruct (Z.leb_spec (MaxConcurrentTasks cfg) 0).
  - injection H as <- <- _. split; [done|]. intros _. exists t, cfg. split_and!; [done..|lia].
  - pool_bind H c d k2 E. apply pooled_query in E as [-> Hc].
    destruct c as [c|e]; [|by destruct H as [-> ->]]. destruct Hc as [[= ->]|]; [|done].
    destruct (Z.leb_spec (MaxConcurrentTasks cfg) (sql_count (running_task (tn_id t)) (tasks db)));
      injection H as <- <- _; split; try done. intros _. by exists t, cfg.
Qed.
End Operations.
