(* ===== verification/TenantLimits.v ===== *)
(** * Limits and feature flags of tenants over time

    Several processes work with one database, each with its own cache of configurations, and
    answer requests one after the other: every request comes with its delay, its context and
    the failures of its connections.  What holds of the registry, of the minute counters and of
    the cached flags after any such history.  Loading a configuration and storing it in the
    cache is one step here. *)

From Stdlib Require Import Ascii String ZArith Lia.
From stdpp Require Import base list strings.
From S2P Require Import Prelude ApprovalExpr SqlTx Schema Operations Outbox Tenants.

Open Scope Z_scope.
Open Scope go_scope.

(** ** Histories *)

Inductive tenant_op :=
  | OpOnboard (input : OnboardTenantInput)
  | OpOffboard (tenant by_whom : string)
  | OpUpdate (tenant by_whom : string) (config : TenantConfig)
  | OpFeature (tenant : string) (f : TenantFeatureFlag)
  | OpAdmitCase (tenant : string)
  | OpAdmitTask (tenant : string)
  | OpCleanup (batchSize : Z)
  | OpSetTTL (ttl : Z)
  | OpConfigEvent (payload : list (string * value))
  | OpFlushCache
  | OpElsewhere (rest : database).      (* the other components write their tables *)

Record request := {
  q_delay : N; q_process : nat; q_ctx : go_context; q_pool : driver; q_driver : driver;
  q_op : tenant_op;
}.

Record cluster := {
  cl_now : Z; cl_db : database; cl_cache : nat → list (string * tenantCacheEntry);
  cl_ttl : nat → Z;
}.

Section Histories.
Context `{env : Env}.

Definition env_at (now : Z) (ctx : go_context) : Env :=
  {| env_now := now; env_clock := now; env_ctx := ctx; env_uuid := env_uuid;
     env_case_statuses := env_case_statuses; env_sprint := env_sprint |}.

Definition process_of (cl : cluster) (i : nat) : process :=
  {| p_db := cl_db cl; p_cache := cl_cache cl i; p_ttl := cl_ttl cl i |}.
Definition put (now : Z) (cl : cluster) (i : nat) (p : process) : cluster :=
  {| cl_now := now; cl_db := p_db p;
     cl_cache := λ j, if Nat.eqb j i then p_cache p else cl_cache cl j;
     cl_ttl := λ j, if Nat.eqb j i then p_ttl p else cl_ttl cl j |}.

Definition done_or {A} (r : result A) : result bool :=
  match r with Ok _ => Ok true | Err e => Err e end.
Definition with_db (p : process) {A} (r : result A * database) : result bool * process :=
  (done_or (fst r), p <| p_db := snd r |>).
Definition answered {A} (r : result A * process) : result bool * process :=
  (done_or (fst r), snd r).

(** The request at its time, in its process. *)
Definition request_time (cl : cluster) (q : request) : Z := cl_now cl + Z.of_N (q_delay q).
Definition serve (cl : cluster) (q : request) : result bool * process :=
  let e := env_at (request_time cl q) (q_ctx q) in
  let p := process_of cl (q_process q) in
  match q_op q with
  | OpOnboard input => answered (OnboardTenant (env := e) (q_driver q) input p)
  | OpOffboard t b => answered (OffboardTenant (env := e) (q_driver q) t b p)
  | OpUpdate t b c => answered (UpdateTenantConfig (env := e) (q_driver q) t b c p)
  | OpFeature t f => TenantFeatureEnabled (env := e) (q_pool q) t f p
  | OpAdmitCase t => with_db p (EnforceTenantCaseLimits (env := e) (q_pool q) (q_driver q) t (p_db p))
  | OpAdmitTask t => with_db p (on_pool (q_pool q) (EnforceTenantTaskLimits (env := e) t) (p_db p))
  | OpCleanup n => with_db p (on_pool (q_pool q) (TenantRateLimitCleanupJob_Run (env := e) n) (p_db p))
  | OpSetTTL ttl => (Ok true, SetTenantFeatureCacheTTL ttl p)
  | OpConfigEvent payload => answered (HandleTenantConfigUpdatedEvent (env := e) payload p)
  | OpFlushCache => (Ok true, InvalidateAllTenantFeatureCache p)
  | OpElsewhere rest =>
      (Ok true, p <| p_db := rest <| tenants := tenants (p_db p) |>
                               <| rate_counters := rate_counters (p_db p) |> |>)
  end.
Definition perform (cl : cluster) (q : request) : cluster :=
  put (request_time cl q) cl (q_process q) (snd (serve cl q)).
Definition after (cl : cluster) (qs : list request) : cluster := fold_left perform qs cl.

(** The cases admitted: tenant, minute and the limit in force. *)
Record admission := { am_tenant : string; am_window : Z; am_limit : Z }.
Definition minute_of (now : Z) : Z := now - now mod Minute.
Definition admitted (cl : cluster) (q : request) : list admission :=
  let e := env_at (request_time cl q) (q_ctx q) in
  match q_op q, fst (serve cl q) with
  | OpAdmitCase t, Ok _ =>
      match tenant_in_force (env := e) t (cl_db cl) with
      | Some (tenant, cfg) =>
          [ {| am_tenant := tn_id tenant; am_window := minute_of (request_time cl q);
               am_limit := MaxCasesPerMinute cfg |} ]
      | None => []
      end
  | _, _ => []
  end.
Fixpoint admissions (cl : cluster) (qs : list request) : list admission :=
  match qs with
  | [] => []
  | q :: qs => admitted cl q ++ admissions (perform cl q) qs
  end.
Definition same_minute (a b : admission) : bool :=
  (am_tenant a =?s am_tenant b) && (am_window a =? am_window b).
Definition admitted_before (log : list admission) (a : admission) : Z :=
  Z.of_nat (length (List.filter (same_minute a) log)).

(** ** One request *)

Lemma answered_db {A} key (r : result A * database) p :
  p_db (snd (answered (and_invalidate key r p))) = snd r.
Proof.
  unfold answered, and_invalidate, InvalidateTenantFeatureCache. destruct r as [[a|e] db]; cbn; [|done].
  by destruct (_ =?s _).
Qed.

(** A transaction of the registry changes nothing, or commits. *)
Lemma registry_op_keeps {A B} key (first : result A) drv (m : A → Tx database B) p :
  (∀ a b db', first = Ok a → commits (busy_while_open drv) (m a) (p_db p) = Some (b, db') →
     rate_counters db' = rate_counters (p_db p) ∧
     (registry_ok (p_db p) → registry_ok db' ∧ evolves (p_db p) db')) →
  let db' := p_db (snd (answered (and_invalidate key (then_tx (first, p_db p) drv m) p))) in
  rate_counters db' = rate_counters (p_db p) ∧
  (registry_ok (p_db p) → registry_ok db' ∧ evolves (p_db p) db').
Proof.
  intros Hm. cbv zeta. rewrite answered_db. destruct (then_tx _ _ _) as [r db'] eqn:E.
  apply then_tx_result in E as [->|(a & b & Ha & Hc)]; [done|]. by apply (Hm a b).
Qed.

Lemma feature_db (e : Env) pool t f p :
  p_db (snd (TenantFeatureEnabled (env := e) pool t f p)) = p_db p.
Proof.
  unfold TenantFeatureEnabled. cbv zeta. destruct (_ =?s _); [done|].
  assert (Hm : ∀ T, snd (on_pool pool (loadTenantAndConfig (env := e) T) (p_db p)) = p_db p).
  { intros T. unfold on_pool. destruct (pooled _ _ _ _) as [[r d] k] eqn:E.
    by apply pooled_load in E as [-> _]. }
  specialize (Hm (tenant_or_context (env := e) t)).
  destruct (str_assoc _ _) as [c|]; [destruct (_ <? _); [done|]|]; cbn [p_db upd] in *;
    change (p_db (p <| p_cache ::= ?g |>)) with (p_db p);
    destruct (on_pool _ _ _) as [[[??]|?] d]; exact Hm.
Qed.

(** Admissions and the clean-up leave the registry alone, everything else the counters; the
    registry stays in order, and its tenants are who they were. *)
Lemma perform_writes cl q :
  let db := cl_db cl in let db' := cl_db (perform cl q) in
  match q_op q with
  | OpAdmitCase _ | OpCleanup _ => tenants db' = tenants db
  | _ => rate_counters db' = rate_counters db ∧
         (registry_ok db → registry_ok db' ∧ evolves db db')
  end.
Proof.
  cbv zeta. change (cl_db (perform cl q)) with (p_db (snd (serve cl q))).
  change (cl_db cl) with (p_db (process_of cl (q_process q))). unfold serve.
  set (e := env_at _ _). set (p := process_of _ _).
  destruct (q_op q) as [input|t b|t b c|t f|t|t|n|ttl|payload| |rest].
  - apply registry_op_keeps. intros a x db' Ha Hc. split; [by apply commits_onboard in Hc as (_ & -> & _)|].
    by apply (onboard_keeps (env := e) _ _ _ _ _ _ Ha Hc).
  - apply registry_op_keeps. intros a x db' _ Hc.
    split; [by apply commits_offboard in Hc as (? & ? & _ & _ & _ & -> & _)|].
    by apply (offboard_keeps (env := e) _ _ _ _ _ _ Hc).
  - apply registry_op_keeps. intros a x db' _ Hc.
    split; [by apply commits_update_config in Hc as (? & _ & _ & -> & _)|].
    by apply (update_keeps (env := e) _ _ _ _ _ _ _ Hc).
  - by rewrite feature_db.
  - destruct (EnforceTenantCaseLimits _ _ _ _) as [r db'] eqn:E.
    apply EnforceTenantCaseLimits_outcome in E. destruct r as [u|err]; [|by subst].
    by destruct E as (? & ? & _ & _ & _ & _ & Ht & _).
  - unfold on_pool. destruct (pooled _ _ _ _) as [[r d] k] eqn:E.
    by apply pooled_task_limits in E as [-> _].
  - unfold on_pool. destruct (pooled _ _ _ _) as [[r d] k] eqn:E.
    apply pooled_stmt_inv in E as [(u & -> & Hb)|(er & _ & -> & _)]; [by injection Hb as _ <-|done].
  - done.
  - unfold HandleTenantConfigUpdatedEvent, InvalidateTenantFeatureCache. destruct (_ =?s _); [done|].
    cbn. by destruct (_ =?s _).
  - done.
  - split; [done|]. intros Hok. assert (Hs : same_registry (p_db p)
      (rest <| tenants := tenants (p_db p) |> <| rate_counters := rate_counters (p_db p) |>)) by done.
    split; [by apply (registry_same _ _ Hs)|by apply (evolves_same _ _ Hs)].
Qed.


(** ** The counters *)

(** The counters of the current minute, and of any later one, count the cases admitted. *)
Definition counted (cl : cluster) (log : list admission) : Prop :=
  ∀ T w, minute_of (cl_now cl) ≤ w →
    counter_value T w (cl_db cl) =
    admitted_before log {| am_tenant := T; am_window := w; am_limit := 0 |}.

Lemma minute_of_mono a b : a ≤ b → minute_of a ≤ minute_of b.
Proof.
  intros H. unfold minute_of.
  rewrite !Z.mod_eq by done.
  assert (Minute * (a / Minute) ≤ Minute * (b / Minute)); [|lia].
  apply Z.mul_le_mono_nonneg_l; [done|]. by apply Z.div_le_mono.
Qed.

Lemma later_minute cl q w :
  minute_of (cl_now (perform cl q)) ≤ w → minute_of (cl_now cl) ≤ w.
Proof.
  intros H. etransitivity; [|exact H]. apply minute_of_mono. unfold perform, put, request_time.
  cbn. lia.
Qed.

Lemma admitted_before_snoc log a b :
  admitted_before (log ++ [a]) b = admitted_before log b + (if same_minute b a then 1 else 0).
Proof.
  unfold admitted_before. rewrite List.filter_app, length_app. cbn.
  destruct (same_minute b a); cbn; lia.
Qed.

Lemma sql_get_filter {R} (p keep : R → bool) l :
  (∀ r, p r = true → keep r = true) → sql_get p (List.filter keep l) = sql_get p l.
Proof.
  intros H. unfold sql_get. induction l as [|r l IH]; cbn; [done|].
  destruct (p r) eqn:Hp; [by rewrite (H r Hp); cbn; rewrite Hp|].
  destruct (keep r); cbn; [by rewrite Hp|done].
Qed.

(** The clean-up does not touch the windows of the last minutes. *)
Lemma cleanup_counter (e : Env) pool n db r db' k T w :
  pooled pool (TenantRateLimitCleanupJob_Run (env := e) n) db 0 = (r, db', k) →
  cleanup_cutoff (env := e) ≤ w → counter_value T w db' = counter_value T w db.
Proof.
  intros H Hw. apply pooled_stmt_inv in H as [(u & -> & Hb)|(er & _ & -> & _)]; [|done].
  injection Hb as _ <-. unfold counter_value.
  change (rate_counters (db <| rate_counters ::= ?f |>)) with (f (rate_counters db)). cbv beta.
  rewrite sql_get_filter; [done|]. intros c [_ Hc]%in_window_eq.
  apply negb_true_iff, existsb_none. intros d Hd. apply not_true_iff_false.
  intros [_ Hd']%in_window_eq. unfold doomed_windows in Hd.
  assert (Hsel : d ∈ sql_select (λ c, rl_window_start c <? cleanup_cutoff (env := e)) (rate_counters db)).
  { rewrite <- (order_by_Permutation rl_window_start), <- (take_drop (cleanup_batch n) (order_by _ _)).
    apply elem_of_app. by left. }
  apply sql_select_elem in Hsel as [_ Hlt]. Z_tests. lia.
Qed.

Lemma perform_counted cl q log :
  counted cl log →
  counted (perform cl q) (log ++ admitted cl q) ∧
  ∀ a, a ∈ admitted cl q → admitted_before log a + 1 ≤ am_limit a.
Proof.
  intros Hc. pose proof (perform_writes cl q) as Hw. cbv zeta in Hw.
  assert (Hsame : admitted cl q = [] → (∀ T w, minute_of (cl_now (perform cl q)) ≤ w →
      counter_value T w (cl_db (perform cl q)) = counter_value T w (cl_db cl)) →
    counted (perform cl q) (log ++ admitted cl q) ∧
    ∀ a, a ∈ admitted cl q → admitted_before log a + 1 ≤ am_limit a).
  { intros -> E. split; [|by intros a ?%elem_of_nil]. rewrite app_nil_r. intros T w Hm.
    rewrite E by done. apply Hc. by apply (later_minute cl q). }
  unfold admitted in *.
  destruct (q_op q) as [input|t b|t b c|t f|t|t|n|ttl|payload| |rest] eqn:Eop;
    try (apply Hsame; [done|]; intros T w _; unfold counter_value; destruct Hw as [-> _]; done).
  - clear Hsame Hw. change (cl_db (perform cl q)) with (p_db (snd (serve cl q))).
    unfold counted. change (cl_db (perform cl q)) with (p_db (snd (serve cl q))).
    pose proof (later_minute cl q) as Hl.
    unfold serve. rewrite Eop. unfold with_db. cbn [fst snd].
    change (p_db (process_of cl (q_process q) <| p_db := ?d |>)) with d.
    destruct (EnforceTenantCaseLimits _ _ _ _) as [r db'] eqn:E.
    apply EnforceTenantCaseLimits_outcome in E. cbn [fst snd].
    destruct r as [u|err]; cbn [done_or].
    + destruct E as (tn & cfg & Hf & _ & _ & Hr & _ & Hv).
      change (p_db (process_of cl (q_process q))) with (cl_db cl) in *. rewrite Hf.
      change window_start with (minute_of (request_time cl q)) in *.
      split.
      * intros T w Hm. rewrite Hv, admitted_before_snoc, (Hc T w) by by apply Hl.
        f_equal. unfold same_minute. cbn. case_bool_decide as Hd.
        -- destruct Hd as [-> ->]. by rewrite String.eqb_refl, Z.eqb_refl.
        -- destruct (String.eqb_spec T (tn_id tn)), (Z.eqb_spec w (minute_of (request_time cl q)));
             cbn; try done. by destruct Hd.
      * intros a ->%list_elem_of_singleton. cbn [am_limit]. rewrite Hc in Hr; [exact Hr|].
        apply Hl. done.
    + subst db'. rewrite app_nil_r. split; [|by intros a ?%elem_of_nil]. intros T w Hm.
      apply Hc. by apply Hl.
  - apply Hsame; [done|]. intros T w Hm. change (cl_db (perform cl q)) with (p_db (snd (serve cl q))).
    unfold serve. rewrite Eop. unfold with_db, on_pool. cbn [fst snd].
    change (p_db (process_of cl (q_process q) <| p_db := ?d |>)) with d.
    destruct (pooled _ _ _ _) as [[r d] k] eqn:E.
    eapply (cleanup_counter _ _ _ _ _ _ _ T w) in E; [exact E|].
    etransitivity; [|exact Hm]. unfold cleanup_cutoff. cbv zeta.
    apply (minute_of_mono (request_time cl q - 5 * Minute) (request_time cl q)).
    unfold Minute, Second, Millisecond. lia.
Qed.

(** ** What every history keeps *)


Lemma after_app cl qs qs' : after cl (qs ++ qs') = after (after cl qs) qs'.
Proof. apply fold_left_app. Qed.

Lemma admissions_counted cl qs : ∀ log pre a post,
  counted cl log → admissions cl qs = pre ++ a :: post →
  admitted_before (log ++ pre) a + 1 ≤ am_limit a.
Proof.
  revert cl. induction qs as [|q qs IH]; intros cl log pre a post Hc E; cbn in E;
    [by destruct pre|].
  destruct (perform_counted cl q log Hc) as [Hc' Ha].
  assert (Hone : admitted cl q = [] ∨ ∃ x, admitted cl q = [x]).
  { unfold admitted. destruct (q_op q); try by left. destruct (fst _); [|by left].
    destruct (tenant_in_force _ _) as [[??]|]; [right; by eexists|by left]. }
  destruct Hone as [Hn|(x & Hx)].
  - rewrite Hn in E, Hc'. rewrite app_nil_r in Hc'. by apply (IH _ _ _ _ _ Hc' E).
  - rewrite Hx in E, Hc', Ha. destruct pre as [|y pre]; injection E as -> E.
    + rewrite app_nil_r. apply Ha. by left.
    + specialize (IH _ _ pre a post Hc' E). by rewrite <- app_assoc in IH.
Qed.

End Histories.

(** ** The registry as migrated *)

(** Migration 000028: one tenant, with a configuration above its tier. *)
Definition default_tenant_row : tenant_row :=
  {| tn_id := DefaultTenantID; tn_code := "DEFAULT"; tn_name := "Default Tenant";
     tn_status := "ACTIVE"; tn_tier := "STANDARD";
     tn_config := Some (limits_only 1000000 1000000 1000000) |}.
Definition migrated (db : database) : Prop :=
  tenants db = [default_tenant_row] ∧ rate_counters db = [].



(** C4. A case admitted in a minute is within the limit in force: over any history of the
    processes that share the counters, with any failures and clean-ups, the cases of the tenant
    admitted before it in that minute and itself are at most [max_cases_per_minute]. *)
Theorem rate_limit_holds `{env : Env} cl qs pre a post :
  migrated (cl_db cl) → admissions cl qs = pre ++ a :: post →
  admitted_before pre a + 1 ≤ am_limit a.
Proof.
  intros [_ Hc] E. apply (admissions_counted cl qs [] pre a post); [|done].
  intros T w _. unfold counter_value. by rewrite Hc.
Qed.

(** ** The cache of feature flags *)

Section Cache.
Context `{env : Env}.

(** The configuration the database has for a tenant. *)
Definition config_in (T : string) (db : database) : option TenantConfig :=
  match sql_get (by_id tn_id T) (tenants db) with Ok t => tn_config t | Err _ => None end.
Definition flag_in (T : string) (f : TenantFeatureFlag) (db : database) : option bool :=
  (λ cfg, resolveFeatureFlag (FeatureFlags cfg) f) <$> config_in T db.

(** A process learns of a change: its own, one it is told of, or it forgets everything. *)
Definition renews (i : nat) (T : string) (cl : cluster) (q : request) : bool :=
  Nat.eqb (q_process q) i && is_Ok (fst (serve cl q)) &&
  match q_op q with
  | OpUpdate t _ _ | OpOffboard t _ => TrimSpace t =?s T
  | OpConfigEvent payload =>
      TenantFromPayload (H := env_at (request_time cl q) (q_ctx q)) payload =?s T
  | OpFlushCache => true
  | _ => false
  end.
Fixpoint undisturbed (i : nat) (T : string) (cl : cluster) (qs : list request) : bool :=
  match qs with
  | [] => true
  | q :: qs => negb (renews i T cl q) && undisturbed i T (perform cl q) qs
  end.

Lemma undisturbed_snoc i T qs q : ∀ cl,
  undisturbed i T cl (qs ++ [q]) = undisturbed i T cl qs && negb (renews i T (after cl qs) q).
Proof.
  induction qs as [|q' qs IH]; intros cl; cbn; [by rewrite andb_true_r|].
  by rewrite IH, andb_assoc.
Qed.

Lemma assoc_delete k k' c :
  str_assoc (cache_delete k c) k' = if k' =?s k then None else str_assoc c k'.
Proof.
  unfold cache_delete. induction c as [|[k1 e] c IH]; cbn; [by destruct (_ =?s _)|].
  destruct (String.eqb_spec k1 k) as [->|Hk]; cbn.
  - rewrite IH. by destruct (k' =?s k).
  - rewrite IH. destruct (String.eqb_spec k' k1) as [->|]; [|done].
    by destruct (String.eqb_spec k1 k).
Qed.

Lemma assoc_store k e k' c :
  str_assoc (cache_store k e c) k' = if k' =?s k then Some e else str_assoc c k'.
Proof. unfold cache_store. cbn. rewrite assoc_delete. by destruct (k' =?s k). Qed.

Lemma invalidate_assoc t p K e :
  str_assoc (p_cache (InvalidateTenantFeatureCache t p)) K = Some e →
  str_assoc (p_cache p) K = Some e ∧ (TrimSpace t ≠ "" → TrimSpace t ≠ K).
Proof.
  unfold InvalidateTenantFeatureCache. destruct (String.eqb_spec (TrimSpace t) "") as [->|Hne]; [done|].
  change (p_cache (p <| p_cache ::= ?f |>)) with (f (p_cache p)). cbv beta. rewrite assoc_delete.
  destruct (String.eqb_spec K (TrimSpace t)); [done|]. intros H. split; [done|congruence].
Qed.

(** An entry of the cache after an operation on the registry was there before, and the
    operation did not commit a change to its tenant. *)
Lemma registry_op_cache {A B} key (first : result A) drv (m : A → Tx database B) p K e :
  str_assoc (p_cache (snd (answered (and_invalidate key (then_tx (first, p_db p) drv m) p)))) K
    = Some e →
  str_assoc (p_cache p) K = Some e ∧
  ∀ b, fst (then_tx (first, p_db p) drv m) = Ok b → TrimSpace (key b) ≠ "" → TrimSpace (key b) ≠ K.
Proof.
  unfold answered, and_invalidate. destruct (then_tx _ _ _) as [[b|err] db]; cbn [snd fst].
  - intros [H1 H2]%invalidate_assoc. split; [exact H1|]. by intros ? [= <-].
  - intros H. by split.
Qed.

(** The entry a request finds or makes. *)
Definition made (cl : cluster) (q : request) (K : string) (e : tenantCacheEntry) : Prop :=
  (∃ cfg, config_in K (cl_db cl) = Some cfg ∧ FeatureFlags (ce_config e) = FeatureFlags cfg) ∧
  ce_expires_at e = request_time cl q + featureCacheTTL (process_of cl (q_process q)).

Lemma on_pool_load (e : Env) pool T t cfg db db' :
  on_pool pool (loadTenantAndConfig (env := e) T) db = (Ok (t, cfg), db') →
  ∃ c, config_in (tenant_or_context (env := e) T) db = Some c ∧ FeatureFlags cfg = FeatureFlags c.
Proof.
  unfold on_pool. destruct (pooled _ _ _ _) as [[r d] k] eqn:E. apply pooled_load in E as [-> H].
  cbn. intros [= -> ->]. destruct (H _ eq_refl) as [Hf _]. unfold tenant_in_force, config_in in *.
  destruct (sql_get _ _) as [t0|]; [|done]. destruct (tn_config t0) as [c|]; [|done].
  injection Hf as <- <-. exists c. by rewrite normalize_flags.
Qed.

Lemma tenant_or_context_idem (e : Env) T :
  tenant_or_context (env := e) (tenant_or_context (env := e) T) = tenant_or_context (env := e) T.
Proof.
  unfold tenant_or_context. cbv zeta.
  destruct (String.eqb_spec (TrimSpace T) "") as [|Hne].
  - destruct (TenantFromContext_text (env_ctx (Env := e))) as [->|[Hne Ht]]; [done|].
    rewrite Ht. by destruct (String.eqb_spec (default "" (TenantFromContext env_ctx)) "").
  - rewrite TrimSpace_idem. by destruct (String.eqb_spec (TrimSpace T) "").
Qed.

Lemma feature_outcome (e : Env) pool T f p r p' :
  TenantFeatureEnabled (env := e) pool T f p = (r, p') →
  let K := tenant_or_context (env := e) T in
  (∀ b, r = Ok b →
     (∃ c, str_assoc (p_cache p) K = Some c ∧ env_clock (Env := e) < ce_expires_at c ∧
           b = resolveFeatureFlag (FeatureFlags (ce_config c)) f) ∨
     flag_in K f (p_db p) = Some b) ∧
  ∀ K' c, str_assoc (p_cache p') K' = Some c →
    str_assoc (p_cache p) K' = Some c ∨
    (∃ cfg, config_in K' (p_db p) = Some cfg ∧ FeatureFlags (ce_config c) = FeatureFlags cfg) ∧
    ce_expires_at c = env_clock (Env := e) + featureCacheTTL p.
Proof.
  unfold TenantFeatureEnabled. cbv zeta. destruct (_ =?s _); [intros [= <- <-]; split; [done|by left]|].
  set (K := tenant_or_context (env := e) T).
  assert (Hmiss : ∀ d, (∀ K' c, str_assoc (p_cache d) K' = Some c → str_assoc (p_cache p) K' = Some c) →
    p_db d = p_db p → p_ttl d = p_ttl p →
    match on_pool pool (loadTenantAndConfig (env := e) K) (p_db d) with
    | (Err err, db) => (Err err, d <| p_db := db |>)
    | (Ok (tenant, cfg), db) =>
        (Ok (resolveFeatureFlag (FeatureFlags cfg) f),
         d <| p_db := db |>
           <| p_cache ::= cache_store K
                {| ce_status := tn_status tenant; ce_config := cfg;
                   ce_expires_at := env_clock (Env := e) + featureCacheTTL d |} |>)
    end = (r, p') →
    (∀ b, r = Ok b → flag_in K f (p_db p) = Some b) ∧
    ∀ K' c, str_assoc (p_cache p') K' = Some c →
      str_assoc (p_cache p) K' = Some c ∨
      (∃ cfg, config_in K' (p_db p) = Some cfg ∧ FeatureFlags (ce_config c) = FeatureFlags cfg) ∧
      ce_expires_at c = env_clock (Env := e) + featureCacheTTL p).
  { intros d Hsub Hdb Httl. rewrite Hdb.
    destruct (on_pool _ _ _) as [[[t cfg]|err] db] eqn:E.
    - intros [= <- <-]. apply on_pool_load in E as (c & Hc & Hf). unfold K in Hc.
      rewrite tenant_or_context_idem in Hc. fold K in Hc. split.
      + intros b [= <-]. unfold flag_in. rewrite Hc. cbn. by rewrite Hf.
      + intros K' c'. change (p_cache (?x <| p_cache ::= ?g |>)) with (g (p_cache x)). cbv beta.
        rewrite assoc_store. destruct (String.eqb_spec K' K) as [->|_].
        * intros [= <-]. right. split; [by exists c|]. cbn. unfold featureCacheTTL. by rewrite Httl.
        * intros H. left. by apply Hsub.
    - intros [= <- <-]. split; [done|]. intros K' c' H. left. by apply Hsub. }
  destruct (str_assoc (p_cache p) K) as [c|] eqn:Ec.
  - destruct (Z.ltb_spec (env_clock (Env := e)) (ce_expires_at c)).
    + intros [= <- <-]. split; [|by left]. intros b [= <-]. left. by exists c.
    + intros Hr. apply Hmiss in Hr as [H1 H2]; [|..|done|done].
      * split; [|exact H2]. intros b Hb. right. by apply H1.
      * intros K' c'. change (p_cache (?x <| p_cache ::= ?g |>)) with (g (p_cache x)). cbv beta.
        rewrite assoc_delete. by destruct (K' =?s K).
  - intros Hr. apply Hmiss in Hr as [H1 H2]; [|done..]. split; [|exact H2].
    intros b Hb. right. by apply H1.
Qed.

Lemma then_required {B} s msg drv (m : unit → Tx database B) db b :
  fst (then_tx (A := unit) (required s msg, db) drv m) = Ok b → s ≠ "".
Proof. unfold required. by destruct (String.eqb_spec s ""). Qed.

(** The entries of the cache after a request. *)
Lemma serve_cache cl q K e :
  let i := q_process q in
  str_assoc (p_cache (snd (serve cl q))) K = Some e →
  renews i K cl q = false ∧ (str_assoc (cl_cache cl i) K = Some e ∨ made cl q K e).
Proof.
  cbv zeta. unfold renews. rewrite Nat.eqb_refl. unfold serve. cbn [andb].
  set (e0 := env_at _ _). set (p := process_of _ _).
  assert (Hr : ∀ b : bool, (b = true → False) → b = false) by by intros [].
  destruct (q_op q) as [input|t b|t b c|t f|t|t|n|ttl|payload| |rest] eqn:Eop; intros H.
  - apply registry_op_cache in H as [H _]. split; [by rewrite andb_false_r|by left].
  - apply (registry_op_cache (λ _, TrimSpace t)) in H as [H Hk]. split; [|by left]. apply Hr.
    intros [Hok Ht]%andb_prop. apply String.eqb_eq in Ht. unfold OffboardTenant, answered, and_invalidate in Hok.
    cbn [fst] in Hok. destruct (then_tx _ _ _) as [[u|err] db] eqn:Et; [|done]. cbn [fst] in Hk.
    rewrite TrimSpace_idem in Hk. apply (Hk u eq_refl); [|done].
    eapply then_required. by rewrite Et.
  - apply (registry_op_cache (λ _, TrimSpace t)) in H as [H Hk]. split; [|by left]. apply Hr.
    intros [Hok Ht]%andb_prop. apply String.eqb_eq in Ht. unfold UpdateTenantConfig, answered, and_invalidate in Hok.
    cbn [fst] in Hok. destruct (then_tx _ _ _) as [[u|err] db] eqn:Et; [|done]. cbn [fst] in Hk.
    rewrite TrimSpace_idem in Hk. apply (Hk u eq_refl); [|done].
    eapply then_required. by rewrite Et.
  - split; [by rewrite andb_false_r|].
    destruct (TenantFeatureEnabled _ _ _ _) as [r p'] eqn:E. cbn [snd] in H.
    apply feature_outcome in E as [_ E]. destruct (E K e H) as [|[Hc He]]; [by left|right]. by split.
  - split; [by rewrite andb_false_r|by left].
  - split; [by rewrite andb_false_r|by left].
  - split; [by rewrite andb_false_r|by left].
  - split; [done|by left].
  - unfold HandleTenantConfigUpdatedEvent in *. cbv zeta in *.
    destruct (String.eqb_spec (TenantFromPayload (H := e0) payload) "") as [|Hne]; [split; [done|by left]|].
    unfold answered in *. cbn [fst snd done_or is_Ok andb] in *.
    apply invalidate_assoc in H as [H Hk]. split; [|by left]. apply String.eqb_neq.
    destruct (TenantFromPayload_text (H := e0) payload) as [|[_ Ht]]; [done|]. rewrite Ht in Hk. auto.
  - done.
  - split; [done|by left].
Qed.

(** Every entry of a cache is what the database had at a moment of the history, for as long as
    the process has not learnt of a change. *)
Lemma cache_explained cl qs :
  (∀ i, cl_cache cl i = []) →
  ∀ i K e, str_assoc (cl_cache (after cl qs) i) K = Some e →
  ∃ qs1 q1 qs2, qs = qs1 ++ q1 :: qs2 ∧ q_process q1 = i ∧ made (after cl qs1) q1 K e ∧
    undisturbed i K (after cl (qs1 ++ [q1])) qs2 = true.
Proof.
  intros H0. induction qs as [|q qs IH] using rev_ind; intros i K e; [cbn; by rewrite H0|].
  rewrite after_app. cbn [after fold_left]. change (cl_cache (perform ?c q) i) with
    (if Nat.eqb i (q_process q) then p_cache (snd (serve c q)) else cl_cache c i).
  assert (Hold : renews i K (after cl qs) q = false → str_assoc (cl_cache (after cl qs) i) K = Some e →
    ∃ qs1 q1 qs2, qs ++ [q] = qs1 ++ q1 :: qs2 ∧ q_process q1 = i ∧ made (after cl qs1) q1 K e ∧
      undisturbed i K (after cl (qs1 ++ [q1])) qs2 = true).
  { intros Hr (qs1 & q1 & qs2 & -> & Hi & Hm & Hu)%IH. exists qs1, q1, (qs2 ++ [q]).
    split_and!; [by rewrite <- app_assoc|done..|].
    rewrite undisturbed_snoc, Hu, <- after_app. rewrite <- app_assoc. cbn.
    by rewrite Hr. }
  destruct (Nat.eqb_spec i (q_process q)) as [->|Hi].
  - intros [Hr [H|H]]%serve_cache; [by apply Hold|]. exists qs, q, []. split_and!; done.
  - intros H. apply Hold; [|done]. unfold renews.
    by rewrite (proj2 (Nat.eqb_neq (q_process q) i)) by congruence.
Qed.
End Cache.

(** A flag is at most one TTL old: what a process answers, from its cache or not, is the
    flag the database had when some request of it was served, less than the TTL then set ago and
    not before the last change of that tenant the process made or was told of. *)
Theorem feature_flags_are_recent `{env : Env} cl qs q T f b :
  (∀ i, cl_cache cl i = []) → q_op q = OpFeature T f → fst (serve (after cl qs) q) = Ok b →
  let i := q_process q in
  let K := tenant_or_context (env := env_at (request_time (after cl qs) q) (q_ctx q)) T in
  ∃ qs1 q1 qs2, qs ++ [q] = qs1 ++ q1 :: qs2 ∧ q_process q1 = i ∧
    flag_in K f (cl_db (after cl qs1)) = Some b ∧
    request_time (after cl qs) q <
      request_time (after cl qs1) q1 + featureCacheTTL (process_of (after cl qs1) i) ∧
    undisturbed i K (after cl (qs1 ++ [q1])) qs2 = true.
Proof.
  intros H0 Hop Hb. cbv zeta. unfold serve in Hb. rewrite Hop in Hb.
  destruct (TenantFeatureEnabled _ _ _ _) as [r p'] eqn:E. cbn [fst] in Hb. subst r.
  apply feature_outcome in E as [E _]. destruct (E b eq_refl) as [(c & Hc & Hlt & ->)|Hf]; clear E.
  - apply (cache_explained cl qs H0) in Hc as (qs1 & q1 & qs2 & -> & Hi & [(cfg & Hcfg & Hf) Hm] & Hu).
    exists qs1, q1, (qs2 ++ [q]). split_and!.
    + by rewrite <- app_assoc.
    + done.
    + unfold flag_in. rewrite Hcfg. cbn. by rewrite Hf.
    + rewrite Hm, Hi in Hlt. exact Hlt.
    + rewrite undisturbed_snoc, Hu. cbn. apply negb_true_iff. unfold renews. by rewrite Hop, andb_false_r.
  - exists qs, q, []. split_and!; [done..|exact Hf| |done].
    assert (0 < featureCacheTTL (process_of (after cl qs) (q_process q))); [|lia].
    unfold featureCacheTTL. destruct (Z.leb_spec (p_ttl (process_of (after cl qs) (q_process q))) 0); [done|lia].
Qed.

(** ** Concrete histories *)

Definition sample_cluster : cluster :=
  {| cl_now := 1000 * Hour; cl_db := empty_db <| tenants := [default_tenant_row] |>;
     cl_cache := λ _, []; cl_ttl := λ _, 0 |}.
Definition at_once (delay : N) (process : nat) (op : tenant_op) : request :=
  {| q_delay := delay; q_process := process;
     q_ctx := {| ctx_tenant_key := None; ctx_actor_key := None; ctx_values := [] |};
     q_pool := reliable false; q_driver := reliable false; q_op := op |}.
Definition sla_flag : TenantFeatureFlags :=
  {| CompensationEnabled := false; DLQRequeueEnabled := false; NotificationEnabled := false;
     SubCaseEnabled := false; SLAEnforcement := true |}.
Definition acme (per_minute : Z) : OnboardTenantInput :=
  {| oi_TenantCode := " acme_1 "; oi_Name := "Acme"; oi_Tier := "";
     oi_Config := limits_only 10 0 per_minute <| FeatureFlags := sla_flag |>;
     oi_CreatedBy := "" |}.
Definition onboard_acme : request := at_once 0 0 (OpOnboard (acme 2)).
#[local] Instance tenants_env : Env := sample_env case_statuses_35.

Definition three_cases : list request :=
  [onboard_acme; at_once 0 0 (OpAdmitCase "uuid-0"); at_once 5 1 (OpAdmitCase "uuid-0");
   at_once 5 0 (OpAdmitCase "uuid-0")].
Definition minute_admission : admission :=
  {| am_tenant := "uuid-0"; am_window := 1000 * Hour; am_limit := 2 |}.

(** The third case of a minute is refused, the first of the next one is not. *)
Example two_cases_a_minute :
  admissions sample_cluster three_cases = [minute_admission; minute_admission] ∧
  length (admissions sample_cluster
    (three_cases ++ [at_once 60000000000 0 (OpAdmitCase "uuid-0")])) = 3%nat.
Proof. by vm_compute. Qed.

Lemma rate_limit_holds_witness :
  migrated (cl_db sample_cluster) ∧
  admissions sample_cluster three_cases = [minute_admission] ++ minute_admission :: [] ∧
  admitted_before [minute_admission] minute_admission + 1 ≤ am_limit minute_admission.
Proof.
  assert (H : migrated (cl_db sample_cluster)) by done.
  assert (E : admissions sample_cluster three_cases = [minute_admission] ++ minute_admission :: [])
    by by vm_compute.
  split; [exact H|]. split; [exact E|]. exact (rate_limit_holds _ _ _ _ _ H E).
Defined.

Definition offboard_acme : request := at_once 0 0 (OpOffboard "uuid-0" "ops").


(** An update switches the flags of an offboarded tenant on again. *)
Example offboarded_flags_come_back :
  fst (serve (after sample_cluster [onboard_acme; offboard_acme])
         (at_once 0 0 (OpFeature "uuid-0" TenantFeatureSLAEnforcement))) = Ok false ∧
  fst (serve (after sample_cluster [onboard_acme; offboard_acme;
                at_once 0 0 (OpUpdate "uuid-0" "ops" (oi_Config (acme 2)))])
         (at_once 0 0 (OpFeature "uuid-0" TenantFeatureSLAEnforcement))) = Ok true.
Proof. by vm_compute. Qed.

(** The default tenant cannot be given the configuration its migration gave it. *)
Example default_tenant_is_over_its_tier :
  is_Ok (fst (serve sample_cluster
    (at_once 0 0 (OpUpdate DefaultTenantID "ops" (limits_only 1000000 1000000 1000000))))) = false.
Proof. by vm_compute. Qed.

(** Another process answers from its cache after an update, until the entry expires. *)
Definition stale_history : list request :=
  [onboard_acme; at_once 0 1 (OpFeature "uuid-0" TenantFeatureSLAEnforcement);
   at_once 0 0 (OpUpdate "uuid-0" "ops" (limits_only 10 0 2))].

Definition stale_query : request :=
  at_once 59999999999 1 (OpFeature "uuid-0" TenantFeatureSLAEnforcement).

Lemma feature_flags_are_recent_witness :
  fst (serve (after sample_cluster stale_history) stale_query) = Ok true ∧
  fst (serve (after sample_cluster stale_history)
         (at_once 60000000000 1 (OpFeature "uuid-0" TenantFeatureSLAEnforcement))) = Ok false ∧
  ∃ qs1 q1 qs2, stale_history ++ [stale_query] = qs1 ++ q1 :: qs2 ∧ q_process q1 = 1%nat ∧
    flag_in "uuid-0" TenantFeatureSLAEnforcement (cl_db (after sample_cluster qs1)) = Some true.
Proof.
  assert (Hb : fst (serve (after sample_cluster stale_history) stale_query) = Ok true)
    by by vm_compute.
  assert (Hk : tenant_or_context (env := env_at (request_time (after sample_cluster stale_history)
      stale_query) (q_ctx stale_query)) "uuid-0" = "uuid-0"%string) by by vm_compute.
  split; [exact Hb|]. split; [by vm_compute|].
  pose proof (feature_flags_are_recent sample_cluster stale_history stale_query "uuid-0"
    TenantFeatureSLAEnforcement true (λ _, eq_refl) eq_refl Hb) as H.
  cbv zeta in H. rewrite Hk in H. destruct H as (qs1 & q1 & qs2 & H1 & H2 & H3 & _).
  exists qs1, q1, qs2. split; [exact H1|]. split; [exact H2|exact H3].
Defined.
