(* ===== verification/Workers.v ===== *)
(** * Task workers (internal/repository/worker_repo.go, internal/engine/worker_loop.go)

    Claiming, releasing, keeping alive, reclaiming and retrying tasks, and the two cycles of a
    worker loop around them.  What a worker does with a task it has claimed is a parameter.
    The statements are given with their text, as the tenant condition is added to the text. *)

From Stdlib Require Import Ascii String ZArith Lia.
From stdpp Require Import base list strings.
From S2P Require Import Prelude ApprovalExpr SqlTx Schema Operations Outbox TenantScope EventQueue Tenants.

Open Scope Z_scope.
Open Scope go_scope.

(** ** The texts *)

Definition claim_text : string := "
		SELECT id, case_id, task_definition_code, activity_code, stage_code,
		       tenant_id::text AS tenant_id,
		       status, priority, assigned_service,
		       assigned_user_id::text AS assigned_user_id,
		       assigned_team_id::text AS assigned_team_id,
		       assigned_at, started_at, completed_at, due_at,
		       retry_count, max_retries,
		       input_payload, output_payload, metadata, error_detail,
		       idempotency_key, version, created_at, updated_at
		FROM tasks
		WHERE status = 'PENDING'
		  AND (assigned_service IS NULL OR assigned_service = $1)
		  AND (due_at IS NULL OR due_at <= now())
		  AND (next_retry_at IS NULL OR next_retry_at <= now())
		  AND (is_poison_pill = FALSE OR is_poison_pill IS NULL)
		ORDER BY priority DESC, due_at ASC NULLS LAST
		LIMIT $2
		FOR UPDATE SKIP LOCKED"%string.

Definition release_text : string := "
		UPDATE tasks
		SET status = 'PENDING',
		    assigned_service = NULL,
		    assigned_user_id = NULL,
		    assigned_at = NULL,
		    last_heartbeat_at = NULL,
		    version = version + 1
		WHERE id = $1::uuid
		  AND status = 'ASSIGNED'"%string.

Definition heartbeat_text : string := "
		UPDATE tasks
		SET last_heartbeat_at = now()
		WHERE id = $1::uuid
		  AND status IN ('ASSIGNED', 'IN_PROGRESS')"%string.

Definition reclaim_text : string := "
		UPDATE tasks
		SET status            = 'PENDING',
		    assigned_service  = NULL,
		    assigned_user_id  = NULL,
		    assigned_at       = NULL,
		    last_heartbeat_at = NULL,
		    version           = version + 1
		WHERE status IN ('ASSIGNED', 'IN_PROGRESS')
		  AND last_heartbeat_at < $1
		  AND last_heartbeat_at IS NOT NULL"%string.

Definition retry_state_text : string := "
		SELECT retry_count, max_retries
		FROM tasks
		WHERE id = $1::uuid
		FOR UPDATE"%string.

Definition retry_text : string := "
		UPDATE tasks
		SET status        = 'PENDING',
		    retry_count   = $1,
		    next_retry_at = $2,
		    assigned_service  = NULL,
		    assigned_user_id  = NULL,
		    assigned_at       = NULL,
		    last_heartbeat_at = NULL,
		    error_detail      = NULL,
		    version           = version + 1
		WHERE id = $3::uuid"%string.

(** ** Statements *)

(** [ORDER BY priority DESC, due_at ASC NULLS LAST] *)
Definition claim_order (l : list task_row) : list task_row :=
  let due := List.filter (λ t, bool_decide (is_Some (t_due_at t))) l in
  let not_due := List.filter (λ t, bool_decide (t_due_at t = None)) l in
  order_by (λ t, - t_priority t) (order_by (λ t, default 0 (t_due_at t)) due ++ not_due).

Definition past_or_null (now : Z) (o : option Z) : bool :=
  match o with None => true | Some t => t <=? now end.

Definition task_of_tenant (tenant : option string) (t : task_row) : bool :=
  match tenant with Some T => t_tenant_id t =?s T | None => true end.

(** [status = 'PENDING'] and everything of the claim set to NULL. *)
Definition unclaimed (t : task_row) : task_row :=
  t <| t_status := "PENDING" |> <| t_assigned_service := None |>
    <| t_assigned_user_id := None |> <| t_assigned_at := None |>
    <| t_last_heartbeat_at := None |> <| t_version ::= Z.succ |>.

(** [time.Duration(math.Pow(2, float64(n))) * base] *)
Definition backoff (n base : Z) : Z :=
  wrap64 ((if n <? 0 then 0 else if n <? 63 then 2 ^ n else int64_min) * base).

Section Worker.
Context `{env : Env} (enforcement : string).

Definition claimable (service : string) (tenant : option string) (t : task_row) : bool :=
  (t_status t =?s "PENDING") &&
  match t_assigned_service t with None => true | Some s => s =?s service end &&
  past_or_null env_now (t_due_at t) && past_or_null env_now (t_next_retry_at t) &&
  negb (t_is_poison_pill t) && task_of_tenant tenant t.

(** [None] for a blank user, whom [COALESCE] leaves to the row. *)
Definition claiming_user (ctx : go_context) : option string :=
  let v := TrimSpace (UserIDFromContext ctx) in if v =?s "" then None else Some v.

Definition claim_tx (ctx : go_context) (service : string) (batchSize : Z)
    : Tx database (list task_row) :=
  text ← tx_of (scoped_text enforcement ctx claim_text [VString service; VInt batchSize]);
  claimed ← parsed text (λ db,
    Ok (take (Z.to_nat batchSize)
          (claim_order (sql_select (claimable service (TenantFromContext ctx)) (tasks db))), db));
  match claimed with
  | [] => throw ReturnWithoutCommit
  | _ =>
      let ids := map t_id claimed in
      let user := claiming_user ctx in
      _ ← update_in tasks task_check
            (λ t, str_mem (t_id t) ids && task_of_tenant (TenantFromContext ctx) t)
            (λ t, t <| t_status := "ASSIGNED" |> <| t_assigned_service := Some service |>
                    <| t_assigned_user_id ::= λ o, some_or user o |>
                    <| t_assigned_at := Some env_now |> <| t_last_heartbeat_at := Some env_now |>
                    <| t_version ::= Z.succ |>);
      mret (map (λ t, t <| t_status := "ASSIGNED" |> <| t_assigned_service := Some service |>
                        <| t_assigned_user_id := user |> <| t_assigned_at := Some env_clock |>)
              claimed)
  end.

(** [sqlx]: whether the repository has a second connection, on which the limit of the tenant
    is looked up. *)
Definition ClaimTasks (sqlx : bool) (pool drv : driver) (ctx : go_context) (service : string)
    (batchSize : Z) (db : database) : result (list task_row) * database :=
  let batchSize := if batchSize <=? 0 then 10 else batchSize in
  let ctx := or_default_tenant ctx in
  let claim db := nothing_to_do (within_tx drv (claim_tx ctx service batchSize) db) in
  if sqlx then
    match on_pool pool (EnforceTenantTaskLimits (default "" (TenantFromContext ctx))) db with
    | (Err e, db) => (Err e, db)
    | (Ok _, db) => claim db
    end
  else claim db.

Definition ReleaseTaskClaim (ctx : go_context) (taskID : string) : Tx database unit :=
  if TrimSpace taskID =?s "" then throw (ErrMsg "taskID is required")
  else
    let ctx := or_default_tenant ctx in
    text ← tx_of (scoped_text enforcement ctx release_text [VString taskID]);
    _ ← parsed text (λ db,
      match update_rows task_check
              (λ t, (t_id t =?s taskID) && (t_status t =?s "ASSIGNED") &&
                    task_of_tenant (TenantFromContext ctx) t) unclaimed (tasks db) with
      | Ok (n, rows) => Ok (n, db <| tasks := rows |>)
      | Err e => Err e
      end);
    mret tt.

Definition Heartbeat (ctx : go_context) (taskID : string) : Tx database unit :=
  let ctx := or_default_tenant ctx in
  text ← tx_of (scoped_text enforcement ctx heartbeat_text [VString taskID]);
  n ← parsed text (λ db,
    match update_rows task_check
            (λ t, (t_id t =?s taskID) && str_mem (t_status t) ["ASSIGNED"; "IN_PROGRESS"] &&
                  task_of_tenant (TenantFromContext ctx) t)
            (λ t, t <| t_last_heartbeat_at := Some env_now |>) (tasks db) with
    | Ok (n, rows) => Ok (n, db <| tasks := rows |>)
    | Err e => Err e
    end);
  if n =? 0 then throw (ErrMsg "task not found or not in claimable state") else mret tt.

Definition ReclaimStaleTasks (ctx : go_context) (staleDuration : Z) : Tx database Z :=
  let ctx := or_default_tenant ctx in
  let cutoff := env_clock - staleDuration in
  text ← tx_of (scoped_text enforcement ctx reclaim_text [VOther cutoff]);
  n ← parsed text (λ db,
    match update_rows task_check
            (λ t, str_mem (t_status t) ["ASSIGNED"; "IN_PROGRESS"] &&
                  match t_last_heartbeat_at t with Some h => h <? cutoff | None => false end &&
                  task_of_tenant (TenantFromContext ctx) t) unclaimed (tasks db) with
    | Ok (n, rows) => Ok (n, db <| tasks := rows |>)
    | Err e => Err e
    end);
  mret n.

Definition ScheduleRetry (ctx : go_context) (taskID : string) (baseInterval : Z)
    : Tx database unit :=
  let ctx := or_default_tenant ctx in
  text ← tx_of (scoped_text enforcement ctx retry_state_text [VString taskID]);
  task ← parsed text (λ db,
    match sql_get (λ t, (t_id t =?s taskID) && task_of_tenant (TenantFromContext ctx) t)
            (tasks db) with
    | Ok t => Ok (t, db)
    | Err e => Err e
    end);
  let newRetryCount := t_retry_count task + 1 in
  if t_max_retries task <? newRetryCount then throw (ErrMsg "task has exceeded max_retries")
  else
    let nextRetry := env_clock + backoff (t_retry_count task) baseInterval in
    text ← tx_of (scoped_text enforcement ctx retry_text
                    [VInt newRetryCount; VOther nextRetry; VString taskID]);
    _ ← parsed text (λ db,
      match update_rows task_check
              (λ t, (t_id t =?s taskID) && task_of_tenant (TenantFromContext ctx) t)
              (λ t, unclaimed t <| t_retry_count := newRetryCount |>
                      <| t_next_retry_at := Some nextRetry |> <| t_error_detail := None |>)
              (tasks db) with
      | Ok (n, rows) => Ok (n, db <| tasks := rows |>)
      | Err e => Err e
      end);
    mret tt.

(** ** The loop *)

(** [workerTenantContext] *)
Definition workerTenantContext (pinned : string) (ctx : go_context) : go_context :=
  if TrimSpace pinned =?s "" then ctx else WithTenant ctx pinned.

(** [processBatch]: [processTask] is what is done with a claimed task. *)
Definition processBatch (sqlx : bool) (pool drv : driver) (pinned service : string)
    (batchSize : Z) (processTask : task_row → database → database) (ctx : go_context)
    (db : database) : database :=
  match ClaimTasks sqlx pool drv (workerTenantContext pinned ctx) service batchSize db with
  | (Err _, db) => db
  | (Ok claimed, db) => fold_left (λ db t, processTask t db) claimed db
  end.

(** One turn of [reclaimLoop]. *)
Definition reclaimTurn (pool : driver) (pinned : string) (staleDuration : Z) (ctx : go_context)
    (db : database) : database :=
  snd (on_pool pool (ReclaimStaleTasks (workerTenantContext pinned ctx) staleDuration) db).
End Worker.

(** ** Refused statements *)

Lemma worker_texts_spoiled :
  spoiled claim_text 2 = true ∧ spoiled release_text 1 = true ∧ spoiled heartbeat_text 1 = true ∧
  spoiled reclaim_text 1 = true ∧ spoiled retry_state_text 1 = true.
Proof. by vm_compute. Qed.

Lemma claim_refused `{env : Env} enforcement sqlx pool drv ctx service batchSize db :
  ∃ e, ClaimTasks enforcement sqlx pool drv ctx service batchSize db = (Err e, db).
Proof.
  unfold ClaimTasks. cbv zeta. set (n := if batchSize <=? 0 then 10 else batchSize).
  assert (Hc : ∀ ctx', ∃ e, nothing_to_do (within_tx drv (claim_tx enforcement ctx' service n) db)
    = (Err e, db)).
  { intros ctx'. unfold claim_tx. apply spoiled_poll, worker_texts_spoiled. }
  destruct sqlx; [|apply Hc]. unfold on_pool.
  destruct (pooled _ _ _ _) as [[r d] k] eqn:E. apply pooled_task_limits in E as [-> _]. cbn [fst].
  destruct r; [apply Hc|by eexists].
Qed.

(** No task is ever claimed: [AssertTenantScope] puts the tenant condition behind the last
    clause of every statement of the worker repository, and the server refuses each of them.
    Claiming, keeping alive, reclaiming and retrying fail and change nothing, releasing a claim
    too, whatever the context, the tenant and the failures; and no cycle of a worker loop
    changes anything, whatever its handler would do with a task. *)
Theorem workers_never_get_a_task `{env : Env} enforcement sqlx pool drv ctx db :
  (∀ service n, ∃ e, ClaimTasks enforcement sqlx pool drv ctx service n db = (Err e, db)) ∧
  (∀ id, ∃ e, on_pool pool (ReleaseTaskClaim enforcement ctx id) db = (Err e, db)) ∧
  (∀ id, ∃ e, on_pool pool (Heartbeat enforcement ctx id) db = (Err e, db)) ∧
  (∀ stale, ∃ e, on_pool pool (ReclaimStaleTasks enforcement ctx stale) db = (Err e, db)) ∧
  (∀ id base, ∃ e, on_pool pool (ScheduleRetry enforcement ctx id base) db = (Err e, db)) ∧
  (∀ pinned service n handle,
     processBatch enforcement sqlx pool drv pinned service n handle ctx db = db) ∧
  (∀ pinned stale, reclaimTurn enforcement pool pinned stale ctx db = db).
Proof.
  assert (Hreclaim : ∀ c stale, ∃ e, on_pool pool (ReclaimStaleTasks enforcement c stale) db = (Err e, db))
    by (intros c stale; apply spoiled_pooled, worker_texts_spoiled).
  split_and!.
  - intros service n. apply claim_refused.
  - intros id. unfold ReleaseTaskClaim. destruct (_ =?s _); [by eexists|]. apply spoiled_pooled, worker_texts_spoiled.
  - intros id. apply spoiled_pooled, worker_texts_spoiled.
  - exact (Hreclaim ctx).
  - intros id base. apply spoiled_pooled, worker_texts_spoiled.
  - intros pinned service n handle. unfold processBatch.
    by destruct (claim_refused enforcement sqlx pool drv (workerTenantContext pinned ctx) service n db)
      as (e & ->).
  - intros pinned stale. unfold reclaimTurn.
    by destruct (Hreclaim (workerTenantContext pinned ctx) stale) as (e & ->).
Qed.

(** ** Concrete runs *)

Definition worker_db : database :=
  empty_db <| tasks := [blank_task "t1" "case-1" "CHECK" "PENDING"] |>.

(** The statement as it is written finds the task; with the tenant condition it is refused. *)
Example claim_as_written :
  map t_id (sql_select (claimable (env := sample_env case_statuses_22) "credit" (Some DefaultTenantID))
    (tasks worker_db)) = ["t1"]%string ∧
  parses claim_text = true ∧
  fst (ClaimTasks (env := sample_env case_statuses_22) "" false (reliable true) (reliable true)
    no_tenant "credit" 10 worker_db) = Err ErrSQL.
Proof. by vm_compute. Qed.
