(* ===== verification/GetNext.v ===== *)
(** * GetNext: handing the next case to a user (internal/getnext/getnext.go, types.go)

    Capacity, weights and their cache, the scoring query, claiming, previewing and skipping.
    Weights are decimals with four places (NUMERIC(5,4)), kept as ten thousandths: Go holds
    them as the nearest float64, the scoring query as exact decimals.  The locking clause of
    the query stands outside its WITH queries and locks nothing, so picking a case takes no
    lock.  The texts that explain a score are left out, and so is the supervisor's dashboard. *)

From Stdlib Require Import Ascii String ZArith Lia QArith SpecFloat.
From stdpp Require Import base list sorting strings.
From S2P Require Import Prelude Float64 FloatQuotient ApprovalExpr SqlTx CaseConfig Schema Operations Outbox.

Open Scope Z_scope.
Open Scope go_scope.

(** ** Weights *)

Record GetNextWeights := {
  WSla : Z; WSkill : Z; WAge : Z; WComplexity : Z; WValue : Z; WAffinity : Z; WWorkload : Z;
}.
Definition DefaultWeights : GetNextWeights :=
  {| WSla := 3500; WSkill := 2500; WAge := 1000; WComplexity := 1000; WValue := 1000;
     WAffinity := 500; WWorkload := 500 |}.

Definition weight_float (w : Z) : float64 := of_scaled (w <? 0) (Z.abs w) 10 (-4).
Definition fadd : float64 → float64 → float64 := SFadd prec64 emax64.
Definition weight_list (w : GetNextWeights) : list Z :=
  [WSla w; WSkill w; WAge w; WComplexity w; WValue w; WAffinity w; WWorkload w].
(** The sum from left to right. *)
Definition weight_sum (w : GetNextWeights) : float64 :=
  match map weight_float (weight_list w) with
  | x :: l => fold_left fadd l x
  | [] => S754_zero false
  end.
Definition Validate (w : GetNextWeights) : result unit :=
  if fltb (of_scaled false 1 10 (-3)) (SFabs (SFsub prec64 emax64 (weight_sum w) (of_int 1)))
  then Err ErrInvalidWeights else Ok tt.

Definition row_weights (r : weights_row) : GetNextWeights :=
  {| WSla := gw_sla r; WSkill := gw_skill r; WAge := gw_age r; WComplexity := gw_complexity r;
     WValue := gw_value r; WAffinity := gw_affinity r; WWorkload := gw_workload r |}.

(** ** What a process remembers *)

Record weightCacheEntry := { wc_weights : GetNextWeights; wc_expires_at : Z }.
Record skipCounterEntry := { sk_count : Z; sk_expires_at : Z }.
Record memory := {
  weightCache : list (string * weightCacheEntry);
  skipCounters : list (string * skipCounterEntry);
}.
#[export] Instance memory_eta : Eta memory := λ x,
  {| weightCache := weightCache x; skipCounters := skipCounters x |}.

Definition cacheKey (tenantID caseTypeCode : string) : string :=
  tenantID +:+ ":" +:+ caseTypeCode.
Definition cacheTTL : Z := 5 * Minute.
Definition defaultSkipLimit : Z := 5.

Definition sessionSkipCount (now : Z) (userID : string) (m : memory) : Z :=
  match str_assoc (skipCounters m) userID with
  | Some e => if now <? sk_expires_at e then sk_count e else 0
  | None => 0
  end.
Definition incrementSkipCount (now : Z) (userID : string) (m : memory) : Z * memory :=
  let fresh := {| sk_count := 1; sk_expires_at := now + 4 * Hour |} in
  let entry :=
    match str_assoc (skipCounters m) userID with
    | Some e =>
        if now <? sk_expires_at e
        then {| sk_count := sk_count e + 1; sk_expires_at := sk_expires_at e |} else fresh
    | None => fresh
    end in
  (sk_count entry, m <| skipCounters ::= λ l, (userID, entry) :: l |>).

(** ** Capacity *)

Record UserCapacityInfo := {
  ActiveCases : Z; MaxActiveCases : Z; CapacityPct : float64; IsAtCapacity : bool;
  IsNearCapacity : bool;
}.
Definition capacity_info (active max : Z) : UserCapacityInfo :=
  let pct := if 0 <? max then fdiv (of_int active) (of_int max) else S754_zero false in
  {| ActiveCases := active; MaxActiveCases := max; CapacityPct := pct;
     IsAtCapacity := fleb (of_int 1) pct;
     IsNearCapacity := fleb (of_scaled false 75 10 (-2)) pct |}.

Definition owned_case (userID tenantID : string) (c : case_row) : bool :=
  (c_tenant_id c =?s tenantID) && bool_decide (c_assigned_user_id c = Some userID) &&
  str_mem (c_status c) ["OPEN"; "IN_PROGRESS"; "ALLOCATABLE"].
Definition user_of (userID tenantID : string) (u : user_row) : bool :=
  (u_user_id u =?s userID) && (u_tenant_id u =?s tenantID).

(** [users LEFT JOIN workers], with the limit of 10 for users who are no workers. *)
Definition worker_limit (userID tenantID : string) (db : database) : result Z :=
  match sql_get (user_of userID tenantID) (users db) with
  | Ok u =>
      match sql_get (by_id wk_id (u_id u)) (workers db) with
      | Ok w => Ok (wk_max_concurrent_tasks w)
      | Err _ => Ok 10
      end
  | Err e => Err e
  end.

Definition CheckUserCapacity (userID tenantID : string) : Tx database UserCapacityInfo :=
  active ← query (λ db, Ok (sql_count (owned_case userID tenantID) (cases db)));
  r ← tx_attempt (query (worker_limit userID tenantID));
  mret (capacity_info active (match r with Ok max => max | Err _ => 10 end)).

(** ** Scores *)

(** The server's [->>] and casts on the metadata of a case: a text that is no boolean or no
    number fails the query. *)
Class MetadataCasts := {
  vip_borrower : value → result (option bool);
  loan_amount : value → result (option Q);
}.

Record scoredRow := {
  sr_case : case_row; sr_case_type_code : string; sr_sla : Z; sr_skill : Z; sr_age : Q;
  sr_complexity : Z; sr_value : Z; sr_affinity : Z; sr_workload : Z; sr_composite : Q;
  sr_queue_depth : Z;
}.

Definition sla_score (now : Z) (due : option Z) : Z :=
  match due with
  | None => 0
  | Some d =>
      if d <? now then 100 else if d <? now + 2 * Hour then 90
      else if d <? now + 4 * Hour then 80 else if d <? now + 8 * Hour then 65
      else if d <? now + 24 * Hour then 45 else if d <? now + 48 * Hour then 25 else 0
  end.

Definition skill_score (required : option (list string)) (skills : list string) : Z :=
  match required with
  | None | Some [] => 100
  | Some rs =>
      let matched := length (List.filter (λ r, str_mem r skills) rs) in
      if forallb (λ r, str_mem r skills) rs then 100
      else if fltb (of_scaled false 5 10 (-1))
                (fdiv (of_int (Z.of_nat matched)) (of_int (Z.of_nat (length rs)))) then 75
      else if (1 <=? matched)%nat then 40 else 0
  end.

Definition age_score (hours : Q) : Q := if Qle_bool hours 50 then hours else 50.

Definition complexity_score (c : option string) : Z :=
  match c with
  | Some s =>
      if s =?s "NON_STANDARD" then 50 else if s =?s "STANDARD_3" then 40
      else if s =?s "STANDARD_2" then 30 else if s =?s "STANDARD_1" then 20
      else if s =?s "SIMPLE" then 5 else 0
  | None => 0
  end.

Definition value_score `{MetadataCasts} (metadata : value) : result Z :=
  vip ← vip_borrower metadata;
  if bool_decide (vip = Some true) then Ok 50
  else
    amount ← loan_amount metadata;
    Ok (match amount with
        | Some a =>
            if negb (Qle_bool a 5000000) then 40 else if negb (Qle_bool a 2000000) then 25
            else if negb (Qle_bool a 1000000) then 10 else 0
        | None => 0
        end).

(** [active::float / NULLIF(max, 0)] against decimals. *)
Definition workload_score (active max : Z) : Z :=
  if max =? 0 then 0
  else
    let pct := fdiv (of_int active) (of_int max) in
    if fleb (of_scaled false 90 10 (-2)) pct then -50
    else if fleb (of_scaled false 75 10 (-2)) pct then -30
    else if fleb (of_scaled false 50 10 (-2)) pct then -10 else 0.

Definition weighted (w : Z) (raw : Q) : Q := (w # 10000) * raw.
Definition composite (w : GetNextWeights) (sla skill : Z) (age : Q)
    (complexity value affinity workload : Z) : Q :=
  (weighted (WSla w) (inject_Z sla) + weighted (WSkill w) (inject_Z skill)
   + weighted (WAge w) age + weighted (WComplexity w) (inject_Z complexity)
   + weighted (WValue w) (inject_Z value) + weighted (WAffinity w) (inject_Z affinity)
   + weighted (WWorkload w) (inject_Z workload))%Q.

(** ** The scoring query *)

Definition user_skills (userID tenantID : string) (db : database) : list string :=
  match sql_get (user_of userID tenantID) (users db) with
  | Ok u => map sk_code (List.filter (λ s, sk_worker_id s =?s u_id u)
              (flat_map (λ w, if wk_id w =?s u_id u then worker_skills db else []) (workers db)))
  | Err _ => []
  end.

(** ALLOCATABLE, unassigned, and open to the skills. *)
Definition free_case (c : case_row) : bool :=
  (c_status c =?s "ALLOCATABLE") && bool_decide (c_assigned_user_id c = None).
Definition open_to (skills : list string) (c : case_row) : bool :=
  match c_required_skills c with
  | None | Some [] => true
  | Some rs => existsb (λ r, str_mem r skills) rs
  end.
Definition eligible (tenantID : string) (skills : list string) (c : case_row) : bool :=
  (c_tenant_id c =?s tenantID) && free_case c && open_to skills c.

Definition hours_in_queue (now : Z) (tenantID caseID : string) (db : database) : Q :=
  match sql_get (λ a, al_is_current a && (al_tenant_id a =?s tenantID) &&
                      (al_case_id a =?s caseID)) (allocations db) with
  | Ok a => (now - al_entered_at a) # (Z.to_pos Hour)
  | Err _ => 0
  end.
Definition affinity_score (userID tenantID caseID : string) (db : database) : Z :=
  match sql_get (λ a, (af_user_id a =?s userID) && (af_tenant_id a =?s tenantID) &&
                      (af_case_id a =?s caseID)) (affinities db) with
  | Ok a => af_score a
  | Err _ => 0
  end.

Section Operations.
Context `{env : Env} `{casts : MetadataCasts}.

Definition score (userID tenantID : string) (w : GetNextWeights) (maxCases : Z) (db : database)
    (c : case_row) : result scoredRow :=
  let skills := user_skills userID tenantID db in
  let sla := sla_score env_now (c_due_at c) in
  let skill := skill_score (c_required_skills c) skills in
  let age := age_score (hours_in_queue env_now tenantID (c_id c) db) in
  let complexity := complexity_score (c_case_complexity c) in
  value ← value_score (c_metadata c);
  let affinity := affinity_score userID tenantID (c_id c) db in
  let workload := workload_score (sql_count (owned_case userID tenantID) (cases db)) maxCases in
  Ok {| sr_case := c;
        sr_case_type_code := match sql_get (by_id ct_id (c_case_type_id c)) (case_types db) with
                             | Ok ct => ct_code ct | Err _ => "" end;
        sr_sla := sla; sr_skill := skill; sr_age := age; sr_complexity := complexity;
        sr_value := value; sr_affinity := affinity; sr_workload := workload;
        sr_composite := composite w sla skill age complexity value affinity workload;
        sr_queue_depth := sql_count (eligible tenantID skills) (cases db) |}.

(** [ORDER BY composite_score DESC] *)
Definition scores_higher (r r' : scoredRow) : bool :=
  Qle_bool (sr_composite r') (sr_composite r).

Definition buildGetNextQuery (userID tenantID : string) (w : GetNextWeights) (maxCases : Z)
    (limit : nat) (db : database) : result (list scoredRow) :=
  match sql_get (user_of userID tenantID) (users db) with
  | Err _ => Ok []
  | Ok _ =>
      rows ← mapM (score userID tenantID w maxCases db)
               (sql_select (eligible tenantID (user_skills userID tenantID db)) (cases db));
      Ok (take limit (rank_by scores_higher rows))
  end.

(** [Scan]: a NULL stage does not fit a string. *)
Definition scan (r : scoredRow) : result scoredRow :=
  match c_current_stage_code (sr_case r) with
  | Some _ => Ok r
  | None => Err (ErrMsg "cannot scan NULL into *string")
  end.

(** The answer: the case, which is the columns of the row, and its scores as float64, without
    the texts that explain them. *)
Record ScoreFactor := { RawScore : float64; Weight : float64; WeightedScore : float64 }.
Record ScoreBreakdown := {
  sb_SLA : ScoreFactor; sb_Skill : ScoreFactor; sb_Age : ScoreFactor; sb_Complexity : ScoreFactor;
  sb_Value : ScoreFactor; sb_Affinity : ScoreFactor; sb_Workload : ScoreFactor;
  WeightsUsed : GetNextWeights;
}.
Record GetNextResult := {
  gr_row : scoredRow; CompositeScore : float64; gr_breakdown : ScoreBreakdown; QueueDepth : Z;
}.

(** The float64 nearest to a decimal of the server. *)
Definition float_of (q : Q) : float64 :=
  match Qnum q with
  | Zpos p => of_ratio false p (Qden q)
  | Zneg p => of_ratio true p (Qden q)
  | Z0 => S754_zero false
  end.
Definition factor (raw : Q) (w : Z) : ScoreFactor :=
  {| RawScore := float_of raw; Weight := weight_float w;
     WeightedScore := fmul (float_of raw) (weight_float w) |}.

Definition buildResult (row : scoredRow) (w : GetNextWeights) : GetNextResult :=
  {| gr_row := row; CompositeScore := float_of (sr_composite row);
     gr_breakdown :=
       {| sb_SLA := factor (inject_Z (sr_sla row)) (WSla w);
          sb_Skill := factor (inject_Z (sr_skill row)) (WSkill w);
          sb_Age := factor (sr_age row) (WAge w);
          sb_Complexity := factor (inject_Z (sr_complexity row)) (WComplexity w);
          sb_Value := factor (inject_Z (sr_value row)) (WValue w);
          sb_Affinity := factor (inject_Z (sr_affinity row)) (WAffinity w);
          sb_Workload := factor (inject_Z (sr_workload row)) (WWorkload w);
          WeightsUsed := w |};
     QueueDepth := sr_queue_depth row |}.

(** ** Weights from the database, through the cache *)

Definition load_weights (tenantID caseTypeCode : string) : Tx database GetNextWeights :=
  r ← tx_attempt (get_in getnext_weights (λ g,
        (gw_tenant_id g =?s tenantID) && (gw_case_type_code g =?s caseTypeCode)));
  w ← (match r with
       | Ok g => mret (row_weights g)
       | Err ErrNoRows => mret DefaultWeights
       | Err e => throw e
       end);
  _ ← tx_of (Validate w);
  mret w.

Definition LoadGetNextWeights (pool : driver) (tenantID caseTypeCode : string) (m : memory)
    (db : database) : result GetNextWeights * memory :=
  let key := cacheKey tenantID caseTypeCode in
  let miss :=
    match fst (on_pool pool (load_weights tenantID caseTypeCode) db) with
    | Ok w => (Ok w, m <| weightCache ::= λ l,
                (key, {| wc_weights := w; wc_expires_at := env_clock + cacheTTL |}) :: l |>)
    | Err e => (Err e, m)
    end in
  match str_assoc (weightCache m) key with
  | Some e => if env_clock <? wc_expires_at e then (Ok (wc_weights e), m) else miss
  | None => miss
  end.

(** ** Auditing *)

Definition claim_check (c : claim_row) : bool :=
  str_mem (gc_action c) ["CLAIMED"; "SKIPPED"; "PREVIEW"; "CAPACITY_BLOCKED";
                         "NO_ELIGIBLE_CASES"] &&
  match gc_skip_reason c with
  | None => true
  | Some r => str_mem r ["FREE_TEXT"; "CONFLICT_OF_INTEREST"; "TOO_COMPLEX"; "WRONG_SKILL"; "OTHER"]
  end.

(** The case of an audit row has to exist. *)
Definition recordAudit (tenantID userID : string) (caseID : option string) (action : string)
    (skipReason : option string) (skipNotes : string) (queueDepth activeCases : Z)
    : Tx database unit :=
  let row :=
    {| gc_tenant_id := tenantID; gc_user_id := userID; gc_case_id := caseID; gc_action := action;
       gc_skip_reason := skipReason; gc_skip_notes := skipNotes; gc_queue_depth := queueDepth;
       gc_user_active_cases := activeCases; gc_claimed_at := env_now |} in
  stmt (λ db,
    if claim_check row &&
       match caseID with Some id => existsb (by_id c_id id) (cases db) | None => true end
    then Ok (tt, db <| getnext_claims ::= λ l, l ++ [row] |>) else Err ErrSQL).

(** ** Claiming *)

Record GetNextRequest := {
  gq_UserID : string; gq_TenantID : string; gq_CaseTypeCode : string; gq_Preview : bool;
}.

Definition take_predicate (caseID : string) (c : case_row) : bool :=
  (c_id c =?s caseID) && free_case c.
Definition taken_by (userID : string) (c : case_row) : case_row :=
  c <| c_assigned_user_id := Some userID |> <| c_status := "IN_PROGRESS" |>
    <| c_row_version ::= Z.succ |>.
Definition closed_allocation (a : allocation_row) : allocation_row :=
  a <| al_is_current := false |> <| al_exited_at := Some env_now |>.

(** What the transaction of a claim does with the row it has picked. *)
Definition take_case (req : GetNextRequest) (active : Z) (w : GetNextWeights) (row : scoredRow)
    : Tx database GetNextResult :=
  let id := c_id (sr_case row) in
  n ← update_in cases case_check (take_predicate id) (taken_by (gq_UserID req));
  if n =? 0 then throw ErrCaseAlreadyClaimed
  else
    _ ← tx_attempt (update_in allocations no_check
          (λ a, (al_case_id a =?s id) && al_is_current a) closed_allocation);
    _ ← recordAudit (gq_TenantID req) (gq_UserID req) (Some id) "CLAIMED" None ""
          (sr_queue_depth row) active;
    mret (buildResult row w).

Definition pick_case (req : GetNextRequest) (capacity : UserCapacityInfo) (w : GetNextWeights)
    : Tx database (option scoredRow) :=
  rows ← query (buildGetNextQuery (gq_UserID req) (gq_TenantID req) w (MaxActiveCases capacity) 1);
  match rows with
  | [] => mret None
  | row :: _ => row ← tx_of (scan row); mret (Some row)
  end.

(** [None]: no eligible case; the audit of that is committed if it can be. *)
Definition claim_tx (req : GetNextRequest) (capacity : UserCapacityInfo) (w : GetNextWeights)
    : Tx database (option GetNextResult) :=
  row ← pick_case req capacity w;
  match row with
  | Some row => x ← take_case req (ActiveCases capacity) w row; mret (Some x)
  | None =>
      _ ← tx_attempt (recordAudit (gq_TenantID req) (gq_UserID req) None "NO_ELIGIBLE_CASES"
            None "" 0 (ActiveCases capacity));
      mret None
  end.

(** The error of the commit after "no eligible case" is dropped. *)
Definition claim_outcome (drv : driver) (m : Tx database (option GetNextResult)) (db : database)
    : result GetNextResult * database :=
  match within_tx drv m db with
  | (Ok (Some x), db) => (Ok x, db)
  | (Ok None, db) => (Err ErrNoEligibleCases, db)
  | (Err e, db) =>
      (Err (if negb (round_trip_fails drv 0) &&
               match fst (run drv m (Session db false 0 1)) with Ok None => true | _ => false end
            then ErrNoEligibleCases else e), db)
  end.

Definition blocked_audit (req : GetNextRequest) (active : Z) : Tx database unit :=
  _ ← tx_attempt (recordAudit (gq_TenantID req) (gq_UserID req) None "CAPACITY_BLOCKED" None ""
        0 active);
  mret tt.

(** [pool i]: the connection of the i-th lookup. *)
Definition GetNext (pool : nat → driver) (drv : driver) (req : GetNextRequest) (m : memory)
    (db : database) : result GetNextResult * memory * database :=
  match fst (on_pool (pool 0%nat) (CheckUserCapacity (gq_UserID req) (gq_TenantID req)) db) with
  | Err e => (Err e, m, db)
  | Ok capacity =>
      if IsAtCapacity capacity && negb (gq_Preview req)
      then (Err ErrUserAtCapacity, m,
            snd (within_tx drv (blocked_audit req (ActiveCases capacity)) db))
      else
        match LoadGetNextWeights (pool 1%nat) (gq_TenantID req) (gq_CaseTypeCode req) m db with
        | (Err e, m) => (Err e, m, db)
        | (Ok w, m) =>
            if gq_Preview req then
              match fst (on_pool (pool 2%nat) (pick_case req capacity w) db) with
              | Ok (Some row) => (Ok (buildResult row w), m, db)
              | Ok None => (Err ErrNoEligibleCases, m, db)
              | Err e => (Err e, m, db)
              end
            else if defaultSkipLimit <=? sessionSkipCount env_clock (gq_UserID req) m
            then (Err ErrSkipLimitExceeded, m, db)
            else
              let '(r, db) := claim_outcome drv (claim_tx req capacity w) db in (r, m, db)
        end
  end.

(** [GetNextPreview]: the [topN] best cases, between one and five. *)
Definition clamp_top (topN : Z) : nat :=
  let topN := if topN <? 1 then 3 else topN in Z.to_nat (if 5 <? topN then 5 else topN).
Definition GetNextPreview (pool : nat → driver) (userID tenantID caseTypeCode : string) (topN : Z)
    (m : memory) (db : database)
    : result (list GetNextResult * Z * UserCapacityInfo) * memory :=
  match fst (on_pool (pool 0%nat) (CheckUserCapacity userID tenantID) db) with
  | Err e => (Err e, m)
  | Ok capacity =>
      match LoadGetNextWeights (pool 1%nat) tenantID caseTypeCode m db with
      | (Err e, m) => (Err e, m)
      | (Ok w, m) =>
          let rows :=
            rows ← fst (on_pool (pool 2%nat) (query (buildGetNextQuery userID tenantID w
                          (MaxActiveCases capacity) (clamp_top topN))) db);
            mapM scan rows in
          match rows with
          | Err e => (Err e, m)
          | Ok rows => (Ok (map (λ r, buildResult r w) rows,
                            match rows with r :: _ => sr_queue_depth r | [] => 0 end, capacity), m)
          end
      end
  end.

(** ** Skipping *)

Record GetNextSkipRequest := {
  sq_UserID : string; sq_TenantID : string; sq_CaseID : string; sq_Reason : string;
  sq_Notes : string;
}.
Definition skip_tx (req : GetNextSkipRequest) : Tx database unit :=
  _ ← tx_attempt (exists_in cases (λ c, (c_id c =?s sq_CaseID req) &&
                                        (c_status c =?s "ALLOCATABLE")));
  recordAudit (sq_TenantID req) (sq_UserID req) (Some (sq_CaseID req)) "SKIPPED"
    (Some (sq_Reason req)) (sq_Notes req) 0 0.
Definition SkipCase (drv : driver) (req : GetNextSkipRequest) (m : memory) (db : database)
    : result unit * memory * database :=
  let '(newCount, m) := incrementSkipCount env_clock (sq_UserID req) m in
  if defaultSkipLimit <? newCount then (Err ErrSkipLimitExceeded, m, db)
  else let '(r, db) := within_tx drv (skip_tx req) db in (r, m, db).
End Operations.

(** ** The order of scores *)

#[export] Instance scores_ranking : Ranking scores_higher.
Proof.
  split; unfold scores_higher.
  - intros x y. rewrite !Qle_bool_iff. destruct (Qlt_le_dec (sr_composite x) (sr_composite y)) as [H|H];
      [right; by apply Qlt_le_weak|by left].
  - intros x y z. rewrite !Qle_bool_iff. intros Hxy Hyz. by apply (Qle_trans _ (sr_composite y)).
Qed.


Section Facts.
Context `{env : Env} `{casts : MetadataCasts}.







(** ** The transactions *)


Lemma weights_keep_counters pool t c m db r m' :
  LoadGetNextWeights pool t c m db = (r, m') → skipCounters m' = skipCounters m.
Proof.
  unfold LoadGetNextWeights. cbv zeta. intros H.
  destruct (str_assoc (weightCache m) _) as [e|]; [destruct (_ <? _); [by injection H as _ <-|]|];
    destruct (fst _); by injection H as _ <-.
Qed.


Lemma balanced_claim_audit t u c a sr sn q n : Balanced (recordAudit t u c a sr sn q n).
Proof. apply balanced_stmt. Qed.
#[local] Hint Resolve balanced_claim_audit : balance.

(** The row an audit writes. *)
Definition audit_row_of (t u : string) (c : option string) (action : string)
    (reason : option string) (notes : string) (queueDepth active : Z) : claim_row :=
  {| gc_tenant_id := t; gc_user_id := u; gc_case_id := c; gc_action := action;
     gc_skip_reason := reason; gc_skip_notes := notes; gc_queue_depth := queueDepth;
     gc_user_active_cases := active; gc_claimed_at := env_now |}.
Definition with_claim (row : claim_row) (db : database) : database :=
  db <| getnext_claims ::= λ l, l ++ [row] |>.

Lemma commits_audit busy t u c a sr sn q n db v db' :
  commits busy (recordAudit t u c a sr sn q n) db = Some (v, db') →
  db' = with_claim (audit_row_of t u c a sr sn q n) db ∧
  match c with Some id => existsb (by_id c_id id) (cases db) = true | None => True end.
Proof.
  unfold recordAudit. cbv zeta. rewrite commits_stmt. destruct (_ && _) eqn:E; [|done].
  intros [= _ <-]. apply andb_prop in E as [_ E]. by destruct c.
Qed.


Lemma commits_attempt_update {R} busy (tbl : database → list R) `{!FieldSetter tbl} p f db r db' :
  commits busy (tx_attempt (update_in tbl no_check p f)) db = Some (r, db') →
  db' = db <| tbl := sql_update p f (tbl db) |>.
Proof.
  rewrite commits_attempt. unfold update_in. rewrite exec_stmt. unfold update_rows.
  replace (forallb _ _) with true; [by intros [= _ <-]|].
  symmetry. apply forallb_forall. intros x _. apply orb_true_r.
Qed.

(** A claim takes its case from the free ones, and writes nothing else but the end of its
    allocation and an audit row. *)
Definition after_take (req : GetNextRequest) (active : Z) (row : scoredRow) (db : database)
    : database :=
  let id := c_id (sr_case row) in
  with_claim (audit_row_of (gq_TenantID req) (gq_UserID req) (Some id) "CLAIMED" None ""
                (sr_queue_depth row) active)
    (db <| cases := sql_update (take_predicate id) (taken_by (gq_UserID req)) (cases db) |>
        <| allocations := sql_update (λ a, (al_case_id a =?s id) && al_is_current a)
                            closed_allocation (allocations db) |>).

Lemma commits_take busy req active w row db x db' :
  commits busy (take_case req active w row) db = Some (x, db') →
  x = buildResult row w ∧ existsb (take_predicate (c_id (sr_case row))) (cases db) = true ∧
  db' = after_take req active row db.
Proof.
  unfold take_case. intros H. cbv zeta in H. tx_bind_inv H n d E.
  apply commits_update_inv in E as (-> & -> & _).
  destruct (sql_count _ _ =? 0) eqn:En; [by rewrite commits_throw in H|].
  rewrite sql_count_existsb in En. apply negb_false_iff in En.
  tx_bind_inv H r d E. apply commits_attempt_update in E as ->.
  tx_bind_inv H v d E. apply commits_audit in E as [-> _].
  rewrite commits_mret in H. by injection H as <- <-.
Qed.

Lemma balanced_take req active w row : Balanced (take_case req active w row).
Proof. unfold take_case. cbv zeta. balance. Qed.
Lemma balanced_pick req cap w : Balanced (pick_case req cap w).
Proof. unfold pick_case. balance. Qed.
#[local] Hint Resolve balanced_take balanced_pick : balance.









End Facts.


(** ** Claims that race

    Picking a case takes no lock, so the row a claim works with may be out of date: other claims
    and other components write between the two.  Steps of such histories: *)

Section Racing.
Context `{env : Env} `{casts : MetadataCasts}.

(** No free case has this identifier. *)
Definition not_free (caseID : string) (db : database) : Prop :=
  existsb (take_predicate caseID) (cases db) = false.
(** What the others write makes no case free; a release does. *)
Definition frees_nothing (db db' : database) : Prop :=
  ∀ id, not_free id db → not_free id db'.

(** [racing db0 log db]: from [db0] to [db], with the claims that succeeded in order.  A claim
    works with any row, picked at any time from any state. *)
Inductive racing (db0 : database) : list (string * string) → database → Prop :=
  | race_start : racing db0 [] db0
  | race_claim log db drv req active w row x db' :
      racing db0 log db → within_tx drv (take_case req active w row) db = (Ok x, db') →
      racing db0 (log ++ [(c_id (sr_case row), gq_UserID req)]) db'
  | race_lost log db drv req active w row e db' :
      racing db0 log db → within_tx drv (take_case req active w row) db = (Err e, db') →
      racing db0 log db'
  | race_others log db db' :
      racing db0 log db → frees_nothing db db' → racing db0 log db'.

Lemma existsb_update_free (P Q : case_row → bool) f rows :
  (∀ c, Q (f c) = true → Q c = true) → existsb Q rows = false →
  existsb Q (sql_update P f rows) = false.
Proof.
  intros Hf Hn. rewrite existsb_none in Hn. apply existsb_none. intros c Hc.
  apply sql_update_elem in Hc as (c0 & Hc0 & ->). specialize (Hn c0 Hc0).
  destruct (P c0); [|done]. apply not_true_iff_false. intros H. apply Hf in H. congruence.
Qed.

Lemma taken_not_free user id c : take_predicate id (taken_by user c) = false.
Proof. unfold take_predicate, free_case. cbn. by rewrite andb_false_r. Qed.

Lemma after_take_cases req active row db :
  cases (after_take req active row db) =
    sql_update (take_predicate (c_id (sr_case row))) (taken_by (gq_UserID req)) (cases db).
Proof. done. Qed.

Lemma take_frees_nothing req active row db : frees_nothing db (after_take req active row db).
Proof.
  intros id Hn. unfold not_free. rewrite after_take_cases. apply existsb_update_free; [|exact Hn].
  intros c H. by rewrite taken_not_free in H.
Qed.

Lemma take_not_free req active row db :
  not_free (c_id (sr_case row)) (after_take req active row db).
Proof.
  unfold not_free. rewrite after_take_cases. apply existsb_none. intros c Hc.
  apply sql_update_elem in Hc as (c0 & _ & ->).
  destruct (take_predicate (c_id (sr_case row)) c0) eqn:E; [apply taken_not_free|exact E].
Qed.

Lemma racing_taken db0 log db : racing db0 log db → ∀ x, x ∈ log → not_free x.1 db.
Proof.
  induction 1 as [|log db drv req active w row x db' _ IH H|log db drv req active w row e db' _ IH H
    |log db db' _ IH H]; intros y Hy.
  - by apply elem_of_nil in Hy.
  - apply within_tx_commits, commits_take in H as (_ & _ & ->).
    apply elem_of_app in Hy as [Hy|Hy%list_elem_of_singleton].
    + by apply take_frees_nothing, IH.
    + subst y. apply take_not_free.
  - apply within_tx_rollback in H as ->. by apply IH.
  - by apply H, IH.
Qed.

(** A claim of a case that is not free any more: the other user was faster. *)
Lemma lost_race busy req active w row db :
  not_free (c_id (sr_case row)) db →
  within_tx (reliable busy) (take_case req active w row) db = (Err ErrCaseAlreadyClaimed, db).
Proof.
  intros Hn. assert (Hz : sql_count (take_predicate (c_id (sr_case row))) (cases db) = 0).
  { apply Z.eqb_eq. by rewrite sql_count_existsb, Hn. }
  unfold within_tx, take_case. cbn. unfold round_trip. cbn. rewrite andb_false_r. unfold update_rows.
  replace (forallb _ _) with true; [by rewrite Hz|]. symmetry. apply forallb_forall. intros c Hc.
  apply orb_true_iff. left. apply negb_true_iff. unfold not_free in Hn. rewrite existsb_none in Hn.
  apply Hn. by apply list_elem_of_In.
Qed.
End Racing.

(** C2. No case is claimed twice: however claims race, with each other and with what the other
    components write, and whatever fails, every case goes to one user until it is released; and
    whoever comes too late is told so. *)
Theorem claims_are_exclusive `{env : Env} `{casts : MetadataCasts} db0 log db :
  racing db0 log db →
  NoDup (map fst log) ∧
  ∀ caseID, caseID ∈ map fst log → ∀ busy req active w row, c_id (sr_case row) = caseID →
    within_tx (reliable busy) (take_case req active w row) db = (Err ErrCaseAlreadyClaimed, db).
Proof.
  intros H. split.
  - induction H as [|log db drv req active w row x db' Hr IH H|log db drv req active w row e db' Hr IH H
      |log db db' Hr IH H]; [constructor| |done|done].
    rewrite map_app. apply NoDup_app. split_and!; [done| |apply NoDup_singleton].
    intros id Hid ->%list_elem_of_singleton.
    apply list_elem_of_In, in_map_iff in Hid as ([id user] & Hi & Hin); rewrite <- list_elem_of_In in Hin.
    apply (racing_taken _ _ _ Hr) in Hin. cbn in Hi, Hin. subst id.
    apply within_tx_commits, commits_take in H as (_ & Hf & _). unfold not_free in Hin.
    cbn in Hf. congruence.
  - intros id Hid busy req active w row E.
    apply list_elem_of_In, in_map_iff in Hid as ([id' user] & Hi & Hin); rewrite <- list_elem_of_In in Hin.
    apply (racing_taken _ _ _ H) in Hin. apply lost_race. cbn in *. congruence.
Qed.

(** ** Capacity in whole numbers *)

Lemma one_constant : constant half 52 1 1.
Proof. by constructor. Qed.

(** The float64 test of the limit is that of the whole numbers. *)
Lemma capacity_whole active max :
  0 < max < 2 ^ 50 → 0 ≤ active < 2 ^ 50 →
  IsAtCapacity (capacity_info active max) = (max <=? active).
Proof.
  intros Hm Ha. unfold capacity_info. cbn [IsAtCapacity].
  destruct (Z.ltb_spec 0 max); [|lia].
  destruct (quotient_ltb _ _ _ _ active max one_constant) as (_ & _ & H1); [unfold whole; lia..|].
  rewrite !Z.mul_1_l in H1. exact H1.
Qed.

(** ** Skips

    The counter of a user lives in a process; the clock of the process does not go back. *)

Definition recorded (r : result unit) (now : Z) : list Z :=
  match r with Ok _ => [now] | Err _ => [] end.
(** How many of the times lie between the two. *)
Definition between (T T' : Z) (log : list Z) : Z := sql_count (λ t, (T <=? t) && (t <? T')) log.

(** [skipping user now log m]: from an empty memory to [m] at time [now], with the times of the
    skips of the user that were recorded, in order. *)
Inductive skipping (user : string) : Z → list Z → memory → Prop :=
  | skip_start now : skipping user now [] {| weightCache := []; skipCounters := [] |}
  | skip_user (env : Env) now log m drv req db r m' db' :
      skipping user now log m → now ≤ env_clock → sq_UserID req = user →
      SkipCase drv req m db = (r, m', db') → skipping user env_clock (log ++ recorded r env_clock) m'
  | skip_other (env : Env) now log m drv req db r m' db' :
      skipping user now log m → now ≤ env_clock → sq_UserID req ≠ user →
      SkipCase drv req m db = (r, m', db') → skipping user env_clock log m'
  | skip_weights (env : Env) now log m pool tenantID caseTypeCode db r m' :
      skipping user now log m → now ≤ env_clock →
      LoadGetNextWeights pool tenantID caseTypeCode m db = (r, m') → skipping user env_clock log m'.

(** What the counter knows of the recorded skips: five at most since its session started, five at
    most in the four hours before that, ten at most in any four hours. *)
Definition counter_covers (now : Z) (log : list Z) (e : option skipCounterEntry) : Prop :=
  (∀ T, between T (T + 4 * Hour) log ≤ 10) ∧
  match e with
  | None => log = []
  | Some e =>
      let start := sk_expires_at e - 4 * Hour in
      start ≤ now ∧ 1 ≤ sk_count e ∧ (∀ t, t ∈ log → t < sk_expires_at e) ∧
      (∀ T T', start ≤ T → between T T' log ≤ Z.min (sk_count e) 5) ∧
      (∀ T, start - 4 * Hour < T → between T start log ≤ 5)
  end.

Lemma between_snoc T T' log r t :
  between T T' (log ++ recorded r t) = between T T' log + between T T' (recorded r t).
Proof. unfold between, sql_count. rewrite List.filter_app, length_app. lia. Qed.

Lemma between_one T T' r t :
  between T T' (recorded r t) = 0 ∨
  between T T' (recorded r t) = 1 ∧ T ≤ t < T' ∧ ∃ x, r = Ok x.
Proof.
  destruct r as [x|e]; [|by left]. unfold between, sql_count. cbn [recorded List.filter].
  destruct (Z.leb_spec T t), (Z.ltb_spec t T'); cbn;
    first [by left | right; split_and!; [done|lia|lia|by exists x]].
Qed.

Lemma between_split s T T' log :
  between T T' log ≤ between T s log + between s T' log.
Proof.
  unfold between, sql_count. induction log as [|t l IH]; [done|]. cbn.
  destruct (Z.leb_spec T t), (Z.ltb_spec t T'), (Z.ltb_spec t s), (Z.leb_spec s t); cbn; lia.
Qed.

Lemma between_none T T' log : (∀ t, t ∈ log → t < T) → between T T' log = 0.
Proof.
  intros H. apply sql_count_zero. intros t Ht. apply H in Ht.
  apply andb_false_iff. left. by apply Z.leb_gt.
Qed.

Lemma recorded_in t r now : t ∈ recorded r now → t = now.
Proof.
  destruct r; cbn; intros H; [by apply list_elem_of_singleton in H|by apply elem_of_nil in H].
Qed.

(** The first skip of a session. *)
Lemma counter_new_session now now' log e r :
  counter_covers now log e → now ≤ now' →
  match e with Some e => sk_expires_at e ≤ now' | None => True end →
  counter_covers now' (log ++ recorded r now')
    (Some {| sk_count := 1; sk_expires_at := now' + 4 * Hour |}).
Proof.
  intros [Hw He] Hn Hexp. unfold counter_covers. cbn [sk_count sk_expires_at]. cbv zeta.
  replace (now' + 4 * Hour - 4 * Hour) with now' by lia.
  assert (Hold : (∀ t, t ∈ log → t < now') ∧
                 ∀ T T', now' - 4 * Hour < T → between T T' log ≤ 5).
  { destruct e as [e|]; [|subst log; split; [by intros t ?%elem_of_nil|by intros]].
    destruct He as (_ & _ & Ht & Hs & _). split; [intros t Hl; specialize (Ht t Hl); lia|].
    intros T T' HT. specialize (Hs T T' ltac:(lia)). lia. }
  destruct Hold as [Hlt Hb].
  split_and!; [|lia|lia| | |]; intros.
  - rewrite between_snoc. specialize (Hw T).
    destruct (between_one T (T + 4 * Hour) r now') as [->|(-> & ? & _)]; [lia|].
    specialize (Hb T (T + 4 * Hour) ltac:(lia)). lia.
  - assert (0 < Hour) by done.
    apply elem_of_app in H as [Hl|Hl]; [specialize (Hlt t Hl)|apply recorded_in in Hl]; lia.
  - rewrite between_snoc, between_none by (intros t Hl; specialize (Hlt t Hl); lia).
    destruct (between_one T T' r now') as [->|(-> & _)]; lia.
  - rewrite between_snoc. specialize (Hb T now' H).
    destruct (between_one T now' r now') as [->|(_ & ? & _)]; lia.
Qed.

(** The next skip of a session: the sixth is refused. *)
Lemma counter_next now now' log e r :
  counter_covers now log (Some e) → now ≤ now' → now' < sk_expires_at e →
  (∀ x, r = Ok x → sk_count e + 1 ≤ 5) →
  counter_covers now' (log ++ recorded r now')
    (Some {| sk_count := sk_count e + 1; sk_expires_at := sk_expires_at e |}).
Proof.
  intros (Hw & Hst & Hc & Hlt & Hs & Hb) Hn Hexp Hr. unfold counter_covers.
  cbn [sk_count sk_expires_at]. cbv zeta. split_and!; [|lia|lia| | |]; intros.
  - rewrite between_snoc. specialize (Hw T).
    destruct (between_one T (T + 4 * Hour) r now') as [->|(-> & ? & x & Hx)]; [lia|].
    apply Hr in Hx. pose proof (between_split (sk_expires_at e - 4 * Hour) T (T + 4 * Hour) log).
    specialize (Hb T ltac:(lia)).
    specialize (Hs (sk_expires_at e - 4 * Hour) (T + 4 * Hour) ltac:(lia)). lia.
  - apply elem_of_app in H as [Hl|Hl]; [by apply Hlt|apply recorded_in in Hl; lia].
  - rewrite between_snoc. specialize (Hs T T' H).
    destruct (between_one T T' r now') as [->|(-> & _ & x & Hx)]; [lia|]. apply Hr in Hx. lia.
  - rewrite between_snoc. specialize (Hb T H).
    destruct (between_one T (sk_expires_at e - 4 * Hour) r now') as [->|(_ & ? & _)]; lia.
Qed.

Lemma counter_waits now now' log e :
  counter_covers now log e → now ≤ now' → counter_covers now' log e.
Proof.
  intros [Hw He] Hn. split; [done|]. destruct e as [e|]; [|done].
  destruct He as (? & ? & ? & ? & ?). split_and!; [lia|done..].
Qed.

Lemma assoc_cons {A} k (v : A) l k' :
  str_assoc ((k, v) :: l) k' = if k' =?s k then Some v else str_assoc l k'.
Proof. done. Qed.

Lemma skip_counts `{env : Env} drv req m db r m' db' :
  SkipCase drv req m db = (r, m', db') →
  let '(n, m1) := incrementSkipCount env_clock (sq_UserID req) m in
  m' = m1 ∧ ∀ x, r = Ok x → n ≤ 5.
Proof.
  unfold SkipCase. destruct (incrementSkipCount _ _ _) as [n m1].
  destruct (Z.ltb_spec defaultSkipLimit n); [intros [= <- <- <-]; by split|].
  destruct (within_tx _ _ _) as [r1 d1]. intros [= _ <- _]. split; [done|]. unfold defaultSkipLimit in *.
  intros _ _. lia.
Qed.

Lemma skipping_covered user now log m :
  skipping user now log m → counter_covers now log (str_assoc (skipCounters m) user).
Proof.
  induction 1 as [now|env now log m drv req db r m' db' _ IH Hn Hu H
    |env now log m drv req db r m' db' _ IH Hn Hu H|env now log m pool t c db r m' _ IH Hn H].
  - by split.
  - subst user. apply skip_counts in H. unfold incrementSkipCount in H. cbv zeta in H.
    destruct H as [-> H]. cbn [skipCounters]. cbn. rewrite String.eqb_refl.
    destruct (str_assoc (skipCounters m) (sq_UserID req)) as [e|];
      [destruct (Z.ltb_spec env_clock (sk_expires_at e))|]; cbn in H |- *.
    + by apply counter_next with now.
    + by apply (counter_new_session now _ _ (Some e)).
    + by apply (counter_new_session now _ _ None).
  - apply skip_counts in H. unfold incrementSkipCount in H. cbv zeta in H. destruct H as [-> _].
    cbn. replace (user =?s sq_UserID req) with false; [by apply counter_waits with now|].
    symmetry. by apply String.eqb_neq.
  - rewrite (weights_keep_counters _ _ _ _ _ _ _ H). by apply counter_waits with now.
Qed.

(** However often a user skips, and whatever the database answers, a process records at most
    ten of the skips in any four hours: five in a session, and a session lasts four hours. *)
Theorem skips_are_limited user now log m :
  skipping user now log m →
  (∀ T, between T (T + 4 * Hour) log ≤ 10) ∧
  ∀ e, str_assoc (skipCounters m) user = Some e →
    ∀ T, sk_expires_at e - 4 * Hour ≤ T → between T (sk_expires_at e) log ≤ 5.
Proof.
  intros H. apply skipping_covered in H as [Hw He]. split; [done|]. intros e Ee T HT.
  rewrite Ee in He. destruct He as (_ & _ & _ & Hs & _). specialize (Hs T (sk_expires_at e) HT). lia.
Qed.

(** ** Concrete runs *)

(** Metadata without the two fields. *)
#[local] Instance no_metadata : MetadataCasts :=
  {| vip_borrower := λ _, Ok None; loan_amount := λ _, Ok None |}.
#[local] Instance desk : Env := sample_env case_statuses_35.

Example default_weights_are_valid : Validate DefaultWeights = Ok tt.
Proof. vm_compute. reflexivity. Qed.

(** A late case anybody may take, and an early one for appraisers. *)
Definition late_case : case_row := blank_case "late" "ALLOCATABLE" <| c_due_at := Some (999 * Hour) |>.
Definition skilled_case : case_row :=
  blank_case "skilled" "ALLOCATABLE" <| c_required_skills := Some ["APPRAISAL"] |>
    <| c_case_complexity := Some "STANDARD_1" |>.
Definition queue_db : database :=
  empty_db <| cases := [skilled_case; late_case] |> <| users := [blank_user "ann"; blank_user "bob"] |>
    <| workers := [{| wk_id := "ann"; wk_max_concurrent_tasks := 2; wk_status := "ACTIVE" |}] |>
    <| worker_skills := [{| sk_worker_id := "ann"; sk_code := "APPRAISAL"; sk_proficiency := "EXPERT" |}] |>.
Definition no_memory : memory := {| weightCache := []; skipCounters := [] |}.
Definition next_for (user : string) : GetNextRequest :=
  {| gq_UserID := user; gq_TenantID := DefaultTenantID; gq_CaseTypeCode := "LOAN"; gq_Preview := false |}.
Definition take_next (user : string) (db : database) : result GetNextResult * memory * database :=
  GetNext (λ _, reliable true) (reliable true) (next_for user) no_memory db.
Definition taken_once : database := snd (take_next "ann" queue_db).
Definition taken_twice : database := snd (take_next "ann" taken_once).

(** Ann gets the late case first, then the one for her skill, and then no more: her limit is two. *)
Example two_cases_for_ann :
  map c_assigned_user_id (cases taken_twice) = [Some "ann"; Some "ann"] ∧
  map c_assigned_user_id (cases taken_once) = [None; Some "ann"] ∧
  fst (fst (take_next "ann" taken_twice)) = Err ErrUserAtCapacity ∧
  fst (fst (take_next "bob" taken_once)) = Err ErrNoEligibleCases.
Proof. vm_compute. repeat split. Qed.




(** Bob works with the same row as Ann, and comes second. *)
Definition late_row : result scoredRow := score "ann" DefaultTenantID DefaultWeights 2 queue_db late_case.
Definition row_or_none : scoredRow :=
  match late_row with Ok row => row | Err _ => {| sr_case := late_case; sr_case_type_code := "";
    sr_sla := 0; sr_skill := 0; sr_age := 0; sr_complexity := 0; sr_value := 0; sr_affinity := 0;
    sr_workload := 0; sr_composite := 0; sr_queue_depth := 0 |} end.
Definition ann_first : database :=
  snd (within_tx (reliable true) (take_case (next_for "ann") 0 DefaultWeights row_or_none) queue_db).

Lemma claims_are_exclusive_witness :
  c_assigned_user_id <$> sql_get (by_id c_id "late") (cases ann_first) = Ok (Some "ann") ∧
  within_tx (reliable true) (take_case (next_for "bob") 0 DefaultWeights row_or_none) ann_first =
    (Err ErrCaseAlreadyClaimed, ann_first).
Proof.
  split; [vm_compute; reflexivity|].
  assert (racing queue_db ([] ++ [(c_id (sr_case row_or_none), gq_UserID (next_for "ann"))]) ann_first) as H.
  { apply (race_claim queue_db [] queue_db (reliable true) (next_for "ann") 0 DefaultWeights row_or_none
      (buildResult row_or_none DefaultWeights)); [constructor|vm_compute; reflexivity]. }
  refine (proj2 (claims_are_exclusive queue_db _ ann_first H) "late" _ true (next_for "bob") 0
    DefaultWeights row_or_none eq_refl).
  left.
Defined.

(** Skips at the end of a session and at the beginning of the next: ten within four hours. *)
Definition desk_at (t : Z) : Env :=
  {| env_now := t; env_clock := t; env_ctx := env_ctx; env_uuid := env_uuid;
     env_case_statuses := env_case_statuses; env_sprint := env_sprint |}.
Definition skip_of (user : string) : GetNextSkipRequest :=
  {| sq_UserID := user; sq_TenantID := DefaultTenantID; sq_CaseID := "late"; sq_Reason := "OTHER";
     sq_Notes := "" |}.
Definition skip_at (t : Z) (s : list Z * memory * database) : list Z * memory * database :=
  let '(log, m, db) := s in
  let '(r, m, db) := SkipCase (env := desk_at t) (reliable true) (skip_of "ann") m db in
  (log ++ recorded r t, m, db).
Definition skip_times : list Z :=
  [1; 2 * Hour + 1; 2 * Hour + 2; 2 * Hour + 3; 2 * Hour + 4; 2 * Hour + 5;
   4 * Hour + 1; 4 * Hour + 2; 4 * Hour + 3; 4 * Hour + 4; 4 * Hour + 5; 4 * Hour + 6].
Definition many_skips : list Z * memory * database :=
  fold_left (λ s t, skip_at t s) skip_times ([], no_memory, queue_db).

(** The sixth and the twelfth are refused. *)
Example skips_in_two_sessions :
  fst (fst many_skips) =
    [1; 2 * Hour + 1; 2 * Hour + 2; 2 * Hour + 3; 2 * Hour + 4;
     4 * Hour + 1; 4 * Hour + 2; 4 * Hour + 3; 4 * Hour + 4; 4 * Hour + 5] ∧
  between (2 * Hour) (6 * Hour) (fst (fst many_skips)) = 9.
Proof. vm_compute. split; reflexivity. Qed.

Lemma skips_are_limited_witness :
  between 0 (4 * Hour) [Hour] ≤ 10 ∧
  fst (fst (SkipCase (env := desk_at Hour) (reliable true) (skip_of "ann") no_memory queue_db)) = Ok tt.
Proof.
  split; [|vm_compute; reflexivity].
  refine (proj1 (skips_are_limited "ann" Hour ([] ++ recorded (Ok tt) Hour)
    (snd (fst (SkipCase (env := desk_at Hour) (reliable true) (skip_of "ann") no_memory queue_db))) _) 0).
  apply (skip_user "ann" (desk_at Hour) 0 [] no_memory (reliable true) (skip_of "ann") queue_db (Ok tt)
    _ (snd (SkipCase (env := desk_at Hour) (reliable true) (skip_of "ann") no_memory queue_db)));
    [apply skip_start|vm_compute; discriminate|reflexivity|vm_compute; reflexivity].
Defined.
